(* ===== verification/_CoqProject ===== *)
-Q . S2P
Prelude.v
RBTree.v
Event.v
Map.v
State.v
Queue.v
QueueSpec.v
Ops.v
Knote.v
Filter.v
Kqueue.v
Kevent.v
Lifecycle.v
LibkqueueFilter.v
LinuxUdata.v
LinuxEpoll.v
LinuxShared.v
LinuxRules.v
LinuxTimer.v
LinuxUser.v
LinuxProc.v
LinuxReadWrite.v
LinuxSocket.v
LinuxUpdate.v
LinuxRWContract.v
LinuxVnode.v
LinuxKevent.v
LinuxKqueue.v
LinuxEpoch.v
LinuxContracts.v
LinuxBuild.v
LinuxDeliver.v
LinuxDispatch.v
LinuxDangling.v
Signal.v
SignalSpec.v
SignalOps.v
SignalRuns.v
SignalClaims.v
SignalLifecycle.v
PosixPlatform.v
PosixTimer.v
PosixTimerSpec.v
PosixTimerOps.v
PosixKevent.v
PosixUser.v
PosixReadWrite.v
PosixVnode.v
PosixProc.v
PosixProcSpec.v
PosixBuild.v
PosixDispatch.v
SolarisPlatform.v
SolarisSocket.v
SolarisTimer.v
SolarisUser.v
SolarisVnode.v
SolarisRules.v
SolarisBuild.v
WinPlatform.v
WinUser.v
WinTimer.v
WinProc.v
WinReadWrite.v
WinVnode.v
WinKernel.v
WinRules.v
WinContracts.v
WinVnodeRules.v
WinDeliver.v
WinDispatch.v
WinFilters.v
Demo.v
DemoSignal.v
DemoPosix.v
DemoQueue.v
DemoSolaris.v
DemoWin.v
