(* ===== verification/Prelude.v ===== *)
(** * A verification library for libkqueue

    libkqueue gives programs written for the BSD system calls [kqueue] and
    [kevent] an implementation over epoll, timerfd, eventfd, inotify, pidfd and
    signalfd on Linux, over event ports on Solaris, over completion ports on Windows, or
    over pselect and pipes on any POSIX system.  This library models the common code
    (src/common) and these backends (src/linux, src/solaris, src/windows, src/posix) as
    executable functions and proves what they promise.

    ** The program

    A [struct kqueue] owns one [struct filter] per kind of event (sockets, files,
    processes, signals, timers, user events), and a filter indexes its [struct
    knote]s, the registered events, by identifier in a red-black tree (tree.h).
    [kevent()] (kevent.c) finds the kqueue by its descriptor in a map (map.c),
    applies a list of changes (copyin), waits without the lock, and has the
    backend turn what the kernel reports into events (copyout).  Freeing a kqueue
    that has callers inside is left to the last of them.  On Linux every
    registration with epoll carries the address of a heap object, the udata; one
    that is retired while a caller may still hold its address is queued and freed
    by epochs.  A thread watches for kqueues whose descriptor was closed, another
    one reads signals for all kqueues of the process.  The POSIX backend waits in
    pselect on the descriptors of a kqueue, on one pipe per filter that has other
    sources, and on a self-pipe that other threads write to; it keeps timers in a
    tree of deadlines, polls files, and has a thread that waits for processes.  On
    Solaris a kqueue is an event port, whose events carry a udata as on Linux.  On
    Windows a kqueue is a completion port; a completion carries the address of its
    knote, posted by a callback of the thread pool when a wait is satisfied, by the
    filter itself, or by the kernel when a read ends, and holds a reference to the
    knote from then until it is delivered or dropped.

    ** The model

    A C function is a function in the state monad [M] below: it returns a value
    and a new state, or a [fault] (a dead object touched, a NULL pointer, a failed
    assertion, a mutex locked twice, an index out of bounds).  "Never faults" is
    thus memory safety in the usual sense, and [wp m Q s] says that the run of [m]
    from [s] returns and ends in [Q].  The state is [State.world]: heaps of
    knotes, kqueues, udatas, fd_states and signal states (a freed object is
    absent), the global map and lists, the locks, the caller's event arrays,
    errno, and the state of the kernel.  The kernel is a parameter: an instance of
    [State.OS] answers each system call with a result or an errno, and the
    theorems hold for every instance, with what the code relies on of a call as a
    named hypothesis (the queue of pending signals is finite, a read of a
    non-blocking eventfd leaves it unreadable, and so on).  Integers are
    mathematical; every store into a field of fixed width goes through the
    conversion of that width.

    ** The files

    - Prelude: the monad, weakest preconditions, frames, machine integers.
    - RBTree: RB_INSERT, RB_REMOVE, RB_FIND, RB_NFIND, RB_NEXT, RB_PREV, RB_MIN,
      RB_MAX and the traversals of tree.h, against a finite map.
    - Event: struct kevent and the constants of event.h.in and private.h.
    - Map: map.c, against a partial function.
    - State: the structures of private.h and linux/platform.h and the primitives.
    - Queue, QueueSpec: the LIST and TAILQ macros of queue.h on memory, against the
      operations on lists that the other files use in their place.
    - Ops: the function tables of private.h, the invariant [winv] of the common
      data, and the interface [FilterContract] / [PlatInv] between common code and
      a backend.
    - Knote, Filter, Kqueue, Kevent: knote.c, filter.c, kqueue.c and kevent.c,
      proved against the interface; [KeventContract] is what kevent() asks of the
      backend's hooks, its wait and its copyout, the latter for events it calls ready.
    - Lifecycle: the claims about changes, calls and teardown, and [kevent()] as a whole
      for any backend with the contract.
    - LibkqueueFilter: libkqueue.c, the filter that configures the library.
    - LinuxUdata, LinuxEpoll, LinuxKevent, LinuxKqueue: linux/platform.c.
      LinuxUdata has the udatas and epochs and the invariant [linux_inv]; LinuxEpoll
      the fd_state shared by the read and the write knote of a descriptor;
      LinuxKevent wait and copyout; LinuxKqueue set-up, teardown, the monitoring
      thread and fork.
    - LinuxTimer, LinuxUser, LinuxProc, LinuxReadWrite, LinuxVnode: the filters.
    - LinuxShared, LinuxRules: [linux_inv] and proof rules for callbacks under it.
      LinuxSocket, LinuxUpdate and LinuxRWContract lead to the contract of the read
      and write filters, whose knotes share an fd_state ([SocketKernel] says what is
      relied on of the kernel, and descriptors must fit an [int]).
    - LinuxEpoch: the transition system of callers entering, waiting, retiring
      udatas and leaving, and its claims.
    - LinuxContracts, LinuxBuild: the Linux backend implements the interfaces.
    - LinuxDeliver: the copyout function of each filter, under what delivery relies on
      of the kernel ([DeliveryKernel]); LinuxDispatch: the delivery of a whole batch of
      epoll events, and the claim about [kevent()] as a whole in a release build.
      LinuxDangling: runs of the whole library outside these assumptions, in which it
      faults; one of them needs nothing unusual of the kernel.
    - Signal: evfilt_signal.h and evfilt_signalfd.c.  SignalSpec states the list-free
      specification and the representation, SignalOps proves each callback against
      it, SignalRuns and SignalClaims treat whole runs, SignalLifecycle starting,
      stopping and fork.
    - PosixPlatform, PosixKevent: posix/platform.c and posix/eventfd.c; the members
      this backend adds to kqueues, knotes and filters are in [w_px].
    - PosixTimer, PosixUser, PosixReadWrite, PosixVnode, PosixProc: its filters.
      PosixTimerSpec, PosixTimerOps and PosixProcSpec have the claims about timers and
      processes, PosixDispatch one about ready lists.  PosixBuild lists the filters.
    - SolarisPlatform: solaris/platform.c and solaris/eventfd.c, with the members of
      this backend in [w_sl].  SolarisSocket, SolarisTimer, SolarisUser, SolarisVnode:
      its filters.  SolarisRules: its invariant [port_inv], and the functions it shares
      with Linux.  SolarisBuild: the filters implement the interface.
    - WinPlatform: windows/platform.c and windows/eventfd.c, with the members of this
      backend in [w_wn].  WinUser, WinTimer, WinProc (processes and signals),
      WinReadWrite, WinVnode: its filters with their thread-pool callbacks.
      WinKernel: what is relied on of completion ports ([IocpKernel]) and the invariant
      [iocp_ok] that references cover completions.  WinRules, WinContracts and
      WinVnodeRules: proof rules and the callbacks that change knotes; WinDeliver: the
      copyout functions; WinDispatch: the delivery loop; WinFilters: the other claims.
    - Demo, DemoSignal, DemoPosix, DemoQueue, DemoSolaris, DemoWin: small concrete systems
      on which every claim is applied.  The state of DemoPosix is made by running
      kqueue() and changes.

    ** What is shown

    - Common code, for every backend that keeps the interface: one change acts on the
      abstract map from
      identifiers to knotes as the manual says; a change list is applied in order
      with its receipts in order; freeing, now or deferred, unmaps and frees what it must
      and nothing else; the knote count is exact.
    - tree.h and map.c: the operations refine finite maps; insertion and removal
      keep the red-black invariant; traversal terminates in order; the height is
      logarithmic.
    - queue.h: any sequence of LIST or TAILQ macros does to memory what the list
      operations say, LIST_INSERTED is exact, traversals terminate in order.
    - Linux: a call of kevent() as a whole never faults and keeps the invariant; the
      filters keep the interface; a udata that a caller was told of is not freed before
      the caller leaves, and none is leaked, whatever the interleaving; delivering a batch
      of events never faults, also when the delivery of one deletes the knotes of others.
      Assumed of the kernel is that memory for bookkeeping is found, that changing or
      removing a registration fails only with EBADF or ENOENT, that fstat(2) fails only
      with ENOENT, and that draining ends.  Assumed of the library's own registrations is
      that a udata is retired only when its registration has ended, so that a wait
      reports udatas that are not freed.  The code does not establish this for a socket
      added with EV_ADD and EV_DISABLE in one change and then deleted: LinuxDangling runs
      that program into a use after free, and the library into a fault for each of the
      first three assumptions on the kernel.
    - Solaris: the filters keep the interface for every kernel; entering and leaving
      kevent() is the same function as on Linux.
    - Windows: the filters and their callbacks keep every completion that is queued or
      under way covered by a reference to its knote; under that invariant the delivery
      loop touches no freed knote, stays within the caller's entries and ends; it aborts
      only when a copyout fails; expiries of a timer share one completion.  The class
      [IocpKernel] says that a port holds the multiset of what was posted to it and of
      the reads started at it, and that no other call adds to it.
      Callbacks of the thread pool run between steps of the library, not during one, so
      that no completion arrives while copyout drains the port.  Creating and changing
      take room in the counter, timer values up to 9 * 10^11 and a descriptor that no
      other kqueue watches.
    - Signals: no signal is lost or delivered twice, the set kept for the signalfd is
      exact until a fork, each callback refines the specification.
    - POSIX: expiry of timers is equivalent to a closed form on each timer, and the
      wait sleeps exactly until the first deadline; the callbacks keep timers, trees
      and knotes consistent (for times whose nanoseconds fit a long); a round of the wait
      thread
      delivers every exit to the knotes that wait for it, and nothing else.
    - Where the code does not do what it means to: map_replace at the end of the
      array, a registration that outlives its udata, receipts lost on a timeout, an
      identifier out of range in
      kqueue_free_by_id, signals stranded by a short event list, signals lost in
      the child of a fork, a freed knote read in the dispatch of a POSIX ready list and
      of a Solaris file event, and an abort when a process exits on Windows before its
      knote is deleted.  DemoWin runs two more: a timer that stops after it was
      disabled, and a user event whose second trigger is lost.

    ** Fuel

    Loops over lists and trees are structural, or take the number of elements as
    fuel and are proved never to run out.  Loops that ask the kernel again (draining
    a pipe, reading inotify events, draining pending signals) have a fuel argument;
    the theorems take as hypothesis that the kernel's queue is exhausted within it,
    which is true of a finite queue.

    ** Not modelled

    Of src/posix the signal filter (signal.c), which installs handlers, is left out.
    The POSIX filters are not proved against [FilterContract]: their timers overflow on
    large times and their process filter moves knotes of other kqueues; nor are those of
    Windows, where a callback may release its own knote and the invariant is the one on
    references.  Debug output and the dump functions print
    only.  Thread cancellation, the one-time initialisation and the teardown at
    exit of the process (libkqueue_free, filter_init_all, filter_free_all,
    libkqueue_drain_pending_close) are left out, as are the splay trees of tree.h,
    the SLIST and STAILQ macros of queue.h, which no file uses, and alloc.h, which no
    file includes.  A thread runs alone between lock and unlock; the memory model of
    the atomic operations is that each is one step. *)

From Stdlib Require Import ZArith Lia Bool.
From stdpp Require Import base list gmap.

Declare Scope kq_scope.
Delimit Scope kq_scope with kq.

(** * Faults and the state monad

    Every operation of the library is a function [M S A] from a state to an
    outcome: [Ret a s] when the C function returns [a] leaving [s], and
    [Fault f] when the C program would have undefined behaviour, fail an
    [assert], block for ever on a mutex it already holds, or (in a model with
    fuel) iterate more often than the fuel allows. *)

Inductive fault :=
  | NullDeref          (** a NULL pointer was dereferenced *)
  | UseAfterFree       (** a freed object was accessed, or freed twice *)
  | BadAddress         (** an array was accessed out of bounds *)
  | Uninitialised      (** a variable was read before it was set *)
  | SignedOverflow     (** a signed integer overflowed *)
  | AssertFail         (** an [assert] of the source failed *)
  | Aborted            (** the source called [abort()] *)
  | Deadlock           (** a mutex was locked twice, or unlocked when free *)
  | OutOfFuel.         (** a fuelled loop did not finish *)

Inductive outcome (S A : Type) :=
  | Ret (a : A) (s : S)
  | Fault (f : fault).
Arguments Ret {S A} a s.
Arguments Fault {S A} f.

Definition M (S A : Type) : Type := S -> outcome S A.

Definition ret {S A : Type} (a : A) : M S A := fun s => Ret a s.
Definition bind {S A B : Type} (m : M S A) (k : A -> M S B) : M S B :=
  fun s => match m s with Ret a s' => k a s' | Fault f => Fault f end.
Definition fail {S A : Type} (f : fault) : M S A := fun _ => Fault f.
Definition gets {S A : Type} (f : S -> A) : M S A := fun s => Ret (f s) s.
Definition modify {S : Type} (f : S -> S) : M S unit := fun s => Ret tt (f s).
Definition assert_ {S : Type} (b : bool) : M S unit :=
  if b then ret tt else fail AssertFail.
Definition deref {S A : Type} (f : fault) (o : option A) : M S A :=
  match o with Some a => ret a | None => fail f end.

Notation "'let!' x ':=' m 'in' k" := (bind m (fun x => k))
  (at level 10, x pattern, m at level 200, k at level 200,
   format "'let!'  x  ':='  m  'in' '//' k") : kq_scope.
Notation "m ';;;' k" := (bind m (fun _ => k))
  (at level 199, k at level 200, right associativity,
   format "m  ';;;' '//' k") : kq_scope.
Open Scope kq_scope.

(** [for (x in l) body]: the body may stop the loop with [Some r], the value
    the enclosing function returns. *)
Fixpoint for_each {S X A : Type} (body : X -> M S (option A)) (l : list X)
    : M S (option A) :=
  match l with
  | [] => ret None
  | x :: l' =>
      let! r := body x in
      match r with Some a => ret (Some a) | None => for_each body l' end
  end.

(** [while]: the body either goes on with a new loop state or leaves. *)
Fixpoint loop {S X A : Type} (fuel : nat) (body : X -> M S (X + A)) (x : X)
    : M S A :=
  match fuel with
  | O => fail OutOfFuel
  | S n =>
      let! r := body x in
      match r with inl x' => loop n body x' | inr a => ret a end
  end.

(** ** Weakest preconditions: the run ends, without a fault, in [Q]. *)
Definition wp {S A : Type} (m : M S A) (Q : A -> S -> Prop) (s : S) : Prop :=
  match m s with Ret a s' => Q a s' | Fault _ => False end.

Section Wp.
Context {S A B : Type}.
Implicit Types (m : M S A) (Q : A -> S -> Prop) (s : S).

Lemma wp_bind m (k : A -> M S B) (Q : B -> S -> Prop) s :
  wp (bind m k) Q s = wp m (fun a s' => wp (k a) Q s') s.
Proof. unfold wp, bind. by destruct (m s). Qed.

Lemma wp_ret (a : A) Q s : wp (ret a) Q s = Q a s.
Proof. done. Qed.

Lemma wp_gets (f : S -> A) Q s : wp (gets f) Q s = Q (f s) s.
Proof. done. Qed.

Lemma wp_modify (f : S -> S) (Q : unit -> S -> Prop) s :
  wp (modify f) Q s = Q tt (f s).
Proof. done. Qed.

Lemma wp_assert (b : bool) (Q : unit -> S -> Prop) s :
  wp (assert_ b) Q s <-> b = true /\ Q tt s.
Proof. destruct b; unfold wp, assert_; simpl; naive_solver. Qed.

Lemma wp_deref f (o : option A) Q s :
  wp (deref f o) Q s <-> exists a, o = Some a /\ Q a s.
Proof. destruct o; unfold wp, deref; simpl; naive_solver. Qed.

Lemma wp_deref_Some f (a : A) Q s : wp (deref f (Some a)) Q s = Q a s.
Proof. done. Qed.

Lemma wp_mono m Q Q' s :
  (forall a s', Q a s' -> Q' a s') -> wp m Q s -> wp m Q' s.
Proof. unfold wp. destruct (m s); naive_solver. Qed.

Lemma wp_conj m Q Q' s :
  wp m Q s -> wp m Q' s -> wp m (fun a s' => Q a s' /\ Q' a s') s.
Proof. unfold wp. by destruct (m s). Qed.

(** The run itself, for a postcondition that speaks of it. *)
Lemma wp_ran m Q s : wp m Q s -> wp m (fun a s' => m s = Ret a s' /\ Q a s') s.
Proof. unfold wp. by destruct (m s). Qed.

Lemma wp_elim m Q s :
  wp m Q s <-> exists a s', m s = Ret a s' /\ Q a s'.
Proof. unfold wp. destruct (m s); naive_solver. Qed.

Lemma wp_run m Q s a s' : m s = Ret a s' -> Q a s' -> wp m Q s.
Proof. unfold wp. by intros ->. Qed.

Lemma wp_Ret m Q s a s' : wp m Q s -> m s = Ret a s' -> Q a s'.
Proof. unfold wp. intros Hw Hr. by rewrite Hr in Hw. Qed.

Lemma bind_Ret m (k : A -> M S B) s b s' :
  bind m k s = Ret b s' <->
  exists a s1, m s = Ret a s1 /\ k a s1 = Ret b s'.
Proof. unfold bind. destruct (m s); naive_solver. Qed.
End Wp.

Create Rewrite HintDb wp.
#[export] Hint Rewrite @wp_bind @wp_ret @wp_gets @wp_modify @wp_deref_Some : wp.

(** One step of symbolic execution, and all of them. *)
Ltac wp_step := autorewrite with wp; cbn beta iota.
Ltac wp_simpl := repeat (progress wp_step).

(** A loop that is not left early keeps an invariant on the number of rounds. *)
Lemma wp_for_each {S X A : Type} (body : X -> M S (option A)) (P : nat -> S -> Prop)
    (l : list X) (s : S) :
  P O s ->
  (forall i x s, l !! i = Some x -> P i s ->
     wp (body x) (fun r s' => r = None /\ P (Datatypes.S i) s') s) ->
  wp (for_each body l) (fun r s' => r = None /\ P (length l) s') s.
Proof.
  revert P s. induction l as [|x l IH]; intros P s H0 Hstep; [done|].
  simpl. rewrite wp_bind. eapply wp_mono; [|by apply (Hstep O)].
  intros r s' [-> Hs']. apply (IH (fun i => P (Datatypes.S i))); [done|].
  intros i y s1 Hi HP. by apply (Hstep (Datatypes.S i)).
Qed.

(** ** Frames: whenever a run returns, the states before and after are related. *)
Definition keeps {S A : Type} (R : S -> S -> Prop) (m : M S A) : Prop :=
  forall s a s', m s = Ret a s' -> R s s'.

Section Keeps.
Context {S : Type} (R : S -> S -> Prop) `{!PreOrder R}.

Lemma keeps_ret {A : Type} (a : A) : keeps R (ret a).
Proof. intros s b s' [= _ <-]. done. Qed.
Lemma keeps_fail {A : Type} f : keeps R (fail (A := A) f).
Proof. by intros s b s'. Qed.
Lemma keeps_gets {A : Type} (f : S -> A) : keeps R (gets f).
Proof. intros s b s' [= _ <-]. done. Qed.
Lemma keeps_deref {A : Type} f (o : option A) : keeps R (deref f o).
Proof. destruct o; [apply keeps_ret|apply keeps_fail]. Qed.
Lemma keeps_assert b : keeps R (assert_ b).
Proof. destruct b; [apply keeps_ret|apply keeps_fail]. Qed.
Lemma keeps_modify f : (forall s, R s (f s)) -> keeps R (modify f).
Proof. intros HR s b s' [= _ <-]. done. Qed.
Lemma keeps_bind {A B : Type} (m : M S A) (k : A -> M S B) :
  keeps R m -> (forall a, keeps R (k a)) -> keeps R (bind m k).
Proof.
  intros Hm Hk s b s' (a & s1 & H1 & H2)%bind_Ret. transitivity s1; [by eapply Hm|by eapply Hk].
Qed.
Lemma keeps_loop {X A : Type} fuel (body : X -> M S (X + A)) x :
  (forall x, keeps R (body x)) -> keeps R (loop fuel body x).
Proof.
  intros Hb. revert x. induction fuel as [|n IH]; intros x; simpl; [apply keeps_fail|].
  apply keeps_bind; [done|]. intros [x'|a]; [apply IH|apply keeps_ret].
Qed.
End Keeps.

Create HintDb keeps.
#[export] Hint Resolve keeps_ret keeps_fail keeps_gets keeps_deref keeps_assert : keeps.

(** Goes through a program, leaving its updates. *)
Ltac keeps_go :=
  repeat lazymatch goal with
    | |- forall _, _ => intro
    | |- keeps _ (bind _ _) => apply keeps_bind; [typeclasses eauto|..]
    | |- keeps _ (loop _ _ _) => apply keeps_loop; [typeclasses eauto|..]
    | |- keeps _ (if ?b then _ else _) => destruct b
    | |- keeps _ (match ?x with _ => _ end) => destruct x
    | |- keeps _ _ => solve [eauto with keeps typeclass_instances]
    end.

(** * Machine integers

    Integers are mathematical [Z]; every store into a field of a fixed width
    goes through the conversion of that width. *)

Open Scope Z_scope.

Definition u16 (z : Z) : Z := z mod 2 ^ 16.
Definition u32 (z : Z) : Z := z mod 2 ^ 32.
Definition u64 (z : Z) : Z := z mod 2 ^ 64.
Definition signed (w z : Z) : Z := (z + 2 ^ (w - 1)) mod 2 ^ w - 2 ^ (w - 1).
Definition s16 : Z -> Z := signed 16.
Definition s32 : Z -> Z := signed 32.
Definition s64 : Z -> Z := signed 64.

Lemma signed_id w z :
  0 < w -> - 2 ^ (w - 1) <= z < 2 ^ (w - 1) -> signed w z = z.
Proof.
  intros Hw Hz. unfold signed.
  assert (2 ^ w = 2 * 2 ^ (w - 1)).
  { rewrite <- Z.pow_succ_r by lia. f_equal. lia. }
  rewrite Z.mod_small; lia.
Qed.

Lemma signed_range w z : 0 < w -> - 2 ^ (w - 1) <= signed w z < 2 ^ (w - 1).
Proof.
  intros Hw. unfold signed.
  assert (2 ^ w = 2 * 2 ^ (w - 1)).
  { rewrite <- Z.pow_succ_r by lia. f_equal. lia. }
  assert (0 < 2 ^ (w - 1)) by (apply Z.pow_pos_nonneg; lia).
  pose proof (Z.mod_pos_bound (z + 2 ^ (w - 1)) (2 ^ w)). lia.
Qed.

(** ** Flag words: [flags & bit], [flags |= bit] and [flags &= ~bit]. *)

Definition has (flags bit : Z) : bool := negb (Z.land flags bit =? 0).
Definition setb (flags bit : Z) : Z := Z.lor flags bit.
Definition clrb (flags bit : Z) : Z := Z.ldiff flags bit.

Lemma has_setb f g b : has (setb f g) b = has f b || has g b.
Proof.
  unfold has, setb. rewrite Z.land_lor_distr_l.
  destruct (Z.land f b =? 0) eqn:E1, (Z.land g b =? 0) eqn:E2; simpl;
    rewrite ?Z.eqb_eq, ?Z.eqb_neq, ?negb_true_iff, ?negb_false_iff in *.
  - by rewrite E1, E2.
  - rewrite Z.eqb_neq, Z.lor_eq_0_iff. tauto.
  - rewrite Z.eqb_neq, Z.lor_eq_0_iff. tauto.
  - rewrite Z.eqb_neq, Z.lor_eq_0_iff. tauto.
Qed.

Lemma has_clrb_same f b : has (clrb f b) b = false.
Proof.
  unfold has, clrb. apply negb_false_iff, Z.eqb_eq.
  apply Z.bits_inj'. intros n Hn.
  rewrite Z.land_spec, Z.ldiff_spec, Z.bits_0.
  by destruct (Z.testbit f n), (Z.testbit b n).
Qed.

Lemma has_clrb_disj f g b : Z.land g b = 0 -> has (clrb f g) b = has f b.
Proof.
  intros Hd. unfold has, clrb. do 2 f_equal.
  apply Z.bits_inj'. intros n Hn.
  assert (Hb : Z.testbit (Z.land g b) n = false) by (by rewrite Hd, Z.bits_0).
  rewrite Z.land_spec in Hb.
  rewrite !Z.land_spec, Z.ldiff_spec.
  by destruct (Z.testbit f n), (Z.testbit g n), (Z.testbit b n).
Qed.

Lemma clrb_setb_same f b : clrb (setb f b) b = clrb f b.
Proof.
  unfold clrb, setb. apply Z.bits_inj'. intros n Hn.
  rewrite !Z.ldiff_spec, Z.lor_spec. by destruct (Z.testbit f n), (Z.testbit b n).
Qed.

Lemma has_0 b : has 0 b = false.
Proof. unfold has. by rewrite Z.land_0_l. Qed.

Create Rewrite HintDb bits.
#[export] Hint Rewrite has_setb has_clrb_same has_0 orb_true_r orb_false_r : bits.

(** * Lists: sorted by a key, and the few facts the queues need *)

Fixpoint sortedZ (l : list Z) : Prop :=
  match l with
  | [] => True
  | x :: l' => Forall (fun y => x < y) l' /\ sortedZ l'
  end.

Lemma sortedZ_app l1 l2 :
  sortedZ (l1 ++ l2) <->
  sortedZ l1 /\ sortedZ l2 /\ Forall (fun x => Forall (fun y => x < y) l2) l1.
Proof.
  induction l1 as [|x l1 IH]; simpl.
  - split; [intros H|tauto]. repeat split; auto.
  - rewrite IH, Forall_app, Forall_cons. tauto.
Qed.

Lemma sortedZ_NoDup l : sortedZ l -> NoDup l.
Proof.
  induction l as [|x l IH]; simpl; [constructor|].
  intros [Hx Hl]. constructor; [|auto].
  intros Hin. rewrite Forall_forall in Hx. specialize (Hx _ Hin). lia.
Qed.
