(* ===== verification/RBTree.v ===== *)
(** * The red-black trees of src/common/tree.h

    [RB_GENERATE] (tree.h, from line 293) instantiated for the knote index
    ([knote_index], knote.c) and for the fd states ([fd_st], linux/platform.c).
    A node is a [Node] with its colour, the element and its two children; the
    parent pointers of the C nodes are the zipper [list frame] from an element
    up to the root: the head of the list is [RB_PARENT(elm)], its side says
    whether [elm] is the left or the right child, and it carries the parent's
    colour, element and other child.  An operation that would dereference a
    NULL pointer returns [None].  The theorems show that a tree that starts
    empty never does, stays a search tree and a red-black tree, and behaves as
    a finite map sorted by key. *)

From Stdlib Require Import ZArith Lia Bool.
From stdpp Require Import base list gmap.
From S2P Require Import Prelude.

(** ** Data *)

Inductive color := RB_BLACK | RB_RED.

Inductive side := LEFT | RIGHT.

Definition other (d : side) : side :=
  match d with LEFT => RIGHT | RIGHT => LEFT end.

Inductive tree (A : Type) :=
  | NULL
  | Node (c : color) (l : tree A) (x : A) (r : tree A).
Arguments NULL {A}.
Arguments Node {A} c l x r.

Record frame (A : Type) := Frame
  { fr_side : side; fr_color : color; fr_elt : A; fr_sib : tree A }.
Arguments Frame {A} _ _ _ _.
Arguments fr_side {A} _.
Arguments fr_color {A} _.
Arguments fr_elt {A} _.
Arguments fr_sib {A} _.

Section Ops.
Context {A : Type} (key : A -> Z).

(** A node whose [d] child is [a] and whose other child is [b]. *)
Definition node (d : side) (c : color) (a : tree A) (x : A) (b : tree A)
    : tree A :=
  match d with LEFT => Node c a x b | RIGHT => Node c b x a end.

Definition child (d : side) (t : tree A) : tree A :=
  match t with
  | NULL => NULL
  | Node _ l _ r => match d with LEFT => l | RIGHT => r end
  end.

(** [tmp && RB_COLOR(tmp) == RB_RED] *)
Definition is_red (t : tree A) : bool :=
  match t with Node RB_RED _ _ _ => true | _ => false end.

(** [RB_COLOR(elm) = c], a fault on NULL *)
Definition set_color (c : color) (t : tree A) : option (tree A) :=
  match t with NULL => None | Node _ l x r => Some (Node c l x r) end.

(** [if (elm) RB_COLOR(elm) = RB_BLACK] *)
Definition blacken (t : tree A) : tree A :=
  match t with NULL => NULL | Node _ l x r => Node RB_BLACK l x r end.

Definition plug1 (t : tree A) (f : frame A) : tree A :=
  node (fr_side f) (fr_color f) t (fr_elt f) (fr_sib f).
Definition plug (p : list (frame A)) (t : tree A) : tree A := foldl plug1 t p.

Definition RB_ROTATE_LEFT (t : tree A) : option (tree A) :=
  match t with
  | Node c a x (Node c' b y e) => Some (Node c' (Node c a x b) y e)
  | _ => None
  end.

Definition RB_ROTATE_RIGHT (t : tree A) : option (tree A) :=
  match t with
  | Node c (Node c' a x b) y e => Some (Node c' a x (Node c b y e))
  | _ => None
  end.

Definition rotate (d : side) : tree A -> option (tree A) :=
  match d with LEFT => RB_ROTATE_LEFT | RIGHT => RB_ROTATE_RIGHT end.

(** [elm] is the red node whose parent is the head of [p].  The two branches
    of the C loop (the parent is the left or the right child of the
    grandparent) are mirror images: [gd] is the parent's side. *)
Fixpoint RB_INSERT_COLOR (p : list (frame A)) (elm : tree A)
    : option (tree A) :=
  match p with
  | Frame d RB_RED px ps :: p1 =>
      match p1 with
      | [] => None
      | Frame gd gc gx gs :: p2 =>
          if is_red gs then
            RB_INSERT_COLOR p2
              (node gd RB_RED (node d RB_BLACK elm px ps) gx (blacken gs))
          else
            let parent := node d RB_RED elm px ps in
            match (match gd, d with
                   | LEFT, RIGHT => RB_ROTATE_LEFT parent
                   | RIGHT, LEFT => RB_ROTATE_RIGHT parent
                   | _, _ => Some parent
                   end) with
            | Some parent' =>
                match rotate (other gd)
                        (node gd RB_RED (blacken parent') gx gs) with
                | Some g => set_color RB_BLACK (plug p2 g)
                | None => None
                end
            | None => None
            end
      end
  | _ => set_color RB_BLACK (plug p elm)
  end.

(** [(a > b) - (a < b)]: knote_cmp and epoll_fd_state_cmp *)
Definition rb_cmp (a b : Z) : Z := Z.b2z (b <? a) - Z.b2z (a <? b).

(** The descent of [RB_INSERT]: the node with key [k], or the NULL where it
    would be linked, with the path of parents. *)
Fixpoint rb_descend (k : Z) (t : tree A) (p : list (frame A))
    : tree A * list (frame A) :=
  match t with
  | NULL => (NULL, p)
  | Node c l x r =>
      let comp := rb_cmp k (key x) in
      if comp <? 0 then rb_descend k l (Frame LEFT c x r :: p)
      else if 0 <? comp then rb_descend k r (Frame RIGHT c x l :: p)
      else (t, p)
  end.

(** [(Some y, t)]: an element [y] with that key was there already. *)
Definition RB_INSERT (t : tree A) (elm : A) : option (option A * tree A) :=
  match rb_descend (key elm) t [] with
  | (Node _ _ y _, _) => Some (Some y, t)
  | (NULL, p) =>
      match RB_INSERT_COLOR p (Node RB_RED NULL elm NULL) with
      | Some t' => Some (None, t')
      | None => None
      end
  end.

Fixpoint RB_FIND (t : tree A) (k : Z) : option A :=
  match t with
  | NULL => None
  | Node c l x r =>
      let comp := rb_cmp k (key x) in
      if comp <? 0 then RB_FIND l k
      else if 0 <? comp then RB_FIND r k
      else Some x
  end.

(** The first element whose key is not smaller than [k]. *)
Fixpoint rb_nfind (t : tree A) (k : Z) (res : option A) : option A :=
  match t with
  | NULL => res
  | Node c l x r =>
      let comp := rb_cmp k (key x) in
      if comp <? 0 then rb_nfind l k (Some x)
      else if 0 <? comp then rb_nfind r k res
      else Some x
  end.
Definition RB_NFIND (t : tree A) (k : Z) : option A := rb_nfind t k None.

Fixpoint rb_minmax (t : tree A) (val : Z) (parent : option A) : option A :=
  match t with
  | NULL => parent
  | Node _ l x r => rb_minmax (if val <? 0 then l else r) val (Some x)
  end.
Definition RB_MINMAX (t : tree A) (val : Z) : option A := rb_minmax t val None.
Definition RB_MIN (t : tree A) : option A := RB_MINMAX t (-1).
Definition RB_MAX (t : tree A) : option A := RB_MINMAX t 1.

(** The parent chain while [elm] is the [d] child, then one step up. *)
Fixpoint rb_climb (d : side) (p : list (frame A)) : option A :=
  match p with
  | [] => None
  | f :: p' =>
      match fr_side f, d with
      | LEFT, LEFT | RIGHT, RIGHT => rb_climb d p'
      | _, _ => Some (fr_elt f)
      end
  end.

(** [RB_NEXT(elm)], [elm] being the node of [t] with key [k]. *)
Definition RB_NEXT (t : tree A) (k : Z) : option A :=
  match rb_descend k t [] with
  | (Node _ _ _ (Node _ _ _ _ as r), _) => RB_MIN r
  | (Node _ _ _ NULL, p) => rb_climb RIGHT p
  | (NULL, _) => None
  end.

Definition RB_PREV (t : tree A) (k : Z) : option A :=
  match rb_descend k t [] with
  | (Node _ (Node _ _ _ _ as l) _ _, _) => RB_MAX l
  | (Node _ NULL _ _, p) => rb_climb LEFT p
  | (NULL, _) => None
  end.

(** [elm], the [d] child of the head of [p], is one black node short. *)
Fixpoint RB_REMOVE_COLOR (fuel : nat) (p : list (frame A)) (elm : tree A)
    : option (tree A) :=
  match fuel with
  | O => None
  | S n =>
      match p with
      | [] => Some (blacken elm)
      | Frame d pc px tmp :: p' =>
          if is_red elm then Some (plug p (blacken elm)) else
          (* a red sibling: recolour and rotate the parent, which is red
             now and hangs below the old sibling *)
          let '(pc, tmp, p') :=
            match tmp with
            | Node RB_RED _ tx _ =>
                (RB_RED, child d tmp,
                 Frame d RB_BLACK tx (child (other d) tmp) :: p')
            | _ => (pc, tmp, p')
            end in
          match tmp with
          | NULL => None
          | Node _ _ tx _ =>
              let near := child d tmp in
              let far := child (other d) tmp in
              if negb (is_red near) && negb (is_red far) then
                RB_REMOVE_COLOR n p'
                  (node d pc elm px (node d RB_RED near tx far))
              else
                match (if negb (is_red far) then
                         rotate (other d)
                           (node d RB_RED (blacken near) tx far)
                       else Some tmp) with
                | Some (Node _ l tx r as tmp') =>
                    let near := child d tmp' in
                    let far := child (other d) tmp' in
                    match rotate d
                            (node d RB_BLACK elm px
                               (node d pc near tx (blacken far))) with
                    | Some s => Some (blacken (plug p' s))
                    | None => None
                    end
                | _ => None
                end
          end
      end
  end.

(** [elm = RB_RIGHT(elm); while (left = RB_LEFT(elm)) elm = left] *)
Fixpoint rb_leftmost (t : tree A) (p : list (frame A))
    : option (color * A * tree A * list (frame A)) :=
  match t with
  | NULL => None
  | Node c NULL x r => Some (c, x, r, p)
  | Node c l x r => rb_leftmost l (Frame LEFT c x r :: p)
  end.

Definition rb_fixup (c : color) (p : list (frame A)) (chd : tree A)
    : option (tree A) :=
  match c with
  | RB_BLACK => RB_REMOVE_COLOR (length p + 2)%nat p chd
  | RB_RED => Some (plug p chd)
  end.

(** Remove the node of [t] with key [k]. *)
Definition RB_REMOVE (t : tree A) (k : Z) : option (tree A) :=
  match rb_descend k t [] with
  | (NULL, _) => None
  | (Node c NULL _ r, p) => rb_fixup c p r
  | (Node c l _ NULL, p) => rb_fixup c p l
  | (Node c l _ r, p) =>
      match rb_leftmost r [] with
      | Some (ec, ex, chd, q) =>
          rb_fixup ec (q ++ Frame RIGHT c ex l :: p) chd
      | None => None
      end
  end.

(** ** The abstract view: the in-order list of elements *)

Fixpoint elements (t : tree A) : list A :=
  match t with
  | NULL => []
  | Node _ l x r => elements l ++ x :: elements r
  end.

Definition keys (t : tree A) : list Z := key <$> elements t.

Definition to_map (t : tree A) : gmap Z A :=
  list_to_map ((fun x => (key x, x)) <$> elements t).

Definition rb_size (t : tree A) : nat := length (elements t).

Fixpoint height (t : tree A) : nat :=
  match t with
  | NULL => O
  | Node _ l _ r => S (Nat.max (height l) (height r))
  end.

Definition search_tree (t : tree A) : Prop := sortedZ (keys t).

(** [t] can hang below a node of colour [c] and every path down from it
    has [h] black nodes. *)
Inductive rb : color -> nat -> tree A -> Prop :=
  | rb_null c : rb c 0 NULL
  | rb_red h l x r :
      rb RB_RED h l -> rb RB_RED h r -> rb RB_BLACK h (Node RB_RED l x r)
  | rb_black c h l x r :
      rb RB_BLACK h l -> rb RB_BLACK h r -> rb c (S h) (Node RB_BLACK l x r).

Definition red_black (t : tree A) : Prop := exists h, rb RB_RED h t.

(** A path whose hole takes a tree [rb c h]. *)
Inductive ctx : list (frame A) -> color -> nat -> Prop :=
  | ctx_root h : ctx [] RB_RED h
  | ctx_black d x s p c h :
      ctx p c (S h) -> rb RB_BLACK h s ->
      ctx (Frame d RB_BLACK x s :: p) RB_BLACK h
  | ctx_red d x s p h :
      ctx p RB_BLACK h -> rb RB_RED h s ->
      ctx (Frame d RB_RED x s :: p) RB_RED h.

Definition wf (t : tree A) : Prop := search_tree t /\ red_black t.
End Ops.

Create HintDb rb.
#[export] Hint Constructors rb ctx : rb.

(** * Elements: every rebalancing step keeps the in-order list *)

Section Elements.
Context {A : Type}.
Implicit Types (t l r : tree A) (p q : list (frame A)) (f : frame A).

Fixpoint before p : list A :=
  match p with
  | [] => []
  | f :: p' => before p' ++ match fr_side f with
                            | LEFT => []
                            | RIGHT => elements (fr_sib f) ++ [fr_elt f]
                            end
  end.

Fixpoint after p : list A :=
  match p with
  | [] => []
  | f :: p' => match fr_side f with
               | LEFT => fr_elt f :: elements (fr_sib f)
               | RIGHT => []
               end ++ after p'
  end.

Lemma elements_plug p t :
  elements (plug p t) = before p ++ elements t ++ after p.
Proof.
  unfold plug. revert t. induction p as [|[[] c x s] p IH]; intros t; simpl.
  - by rewrite app_nil_r.
  - rewrite IH. simpl. by rewrite !app_nil_r, <- !app_assoc.
  - rewrite IH. simpl. by rewrite <- !app_assoc.
Qed.

Lemma plug_cons f p t : plug (f :: p) t = plug p (plug1 t f).
Proof. done. Qed.

Lemma plug_app p q t : plug (p ++ q) t = plug q (plug p t).
Proof. apply foldl_app. Qed.

Lemma elements_blacken t : elements (blacken t) = elements t.
Proof. by destruct t. Qed.

Lemma elements_set_color c t t' :
  set_color c t = Some t' -> elements t' = elements t.
Proof. destruct t; naive_solver. Qed.

Lemma elements_rotate d t t' :
  rotate d t = Some t' -> elements t' = elements t.
Proof.
  destruct d, t as [|c [|c1 l1 x1 r1] x [|c2 l2 x2 r2]]; simpl; intros [= <-];
    simpl; by rewrite <- ?app_assoc.
Qed.

Lemma elements_node d c c' (a b : tree A) x :
  elements (node d c a x b) = elements (node d c' a x b).
Proof. by destruct d. Qed.

(** The elements of a node depend only on those of its children. *)
Lemma elements_node_cong d c c' (a a' b b' : tree A) x :
  elements a = elements a' -> elements b = elements b' ->
  elements (node d c a x b) = elements (node d c' a' x b').
Proof. intros Ha Hb. destruct d; simpl; by rewrite Ha, Hb. Qed.

Lemma elements_plug_cong p t t' :
  elements t = elements t' -> elements (plug p t) = elements (plug p t').
Proof. intros Ht. by rewrite !elements_plug, Ht. Qed.

Lemma node_child d c l x r :
  node d c (child d (Node c l x r)) x (child (other d) (Node c l x r))
  = Node c l x r.
Proof. by destruct d. Qed.

Lemma elements_insert_color p t t' :
  RB_INSERT_COLOR p t = Some t' -> elements t' = elements (plug p t).
Proof.
  remember (length p) as n eqn:Hn. revert p t Hn.
  induction n as [n IH] using lt_wf_ind. intros p t -> H.
  destruct p as [|[d [] px ps] p1]; simpl in H;
    try by rewrite (elements_set_color _ _ _ H).
  destruct p1 as [|[gd gc gx gs] p2]; [done|].
  destruct (is_red gs) eqn:Hgs.
  - apply (IH (length p2)) in H; [|simpl; lia|done]. rewrite H, !plug_cons.
    apply elements_plug_cong, elements_node_cong;
      [apply elements_node | apply elements_blacken].
  - case_match eqn:Hrot; [|done]. case_match eqn:Hrot2; [|done].
    rewrite (elements_set_color _ _ _ H), !plug_cons.
    apply elements_plug_cong. apply elements_rotate in Hrot2.
    rewrite Hrot2. apply elements_node_cong; [|done].
    rewrite elements_blacken.
    destruct gd, d; try (by injection Hrot as <-);
      [by apply (elements_rotate LEFT) in Hrot
      |by apply (elements_rotate RIGHT) in Hrot].
Qed.

(** The two stages of one round of [RB_REMOVE_COLOR]. *)
Lemma elements_remove_color n p t t' :
  RB_REMOVE_COLOR n p t = Some t' -> elements t' = elements (plug p t).
Proof.
  revert p t. induction n as [|n IH]; intros p t H; [done|].
  destruct p as [|[d pc px tmp] p']; cbn [RB_REMOVE_COLOR] in H.
  { simplify_eq. apply elements_blacken. }
  destruct (is_red t) eqn:Ht.
  { simplify_eq. apply elements_plug_cong, elements_blacken. }
  set (st := match tmp with Node RB_RED _ tx _ => _ | _ => _ end) in H.
  destruct st as [[pc1 tmp1] p1] eqn:Hst.
  assert (Hel : elements (plug p1 (node d pc1 t px tmp1))
                = elements (plug (Frame d pc px tmp :: p') t)).
  { subst st. destruct tmp as [|[] l x r]; simplify_eq; try done.
    change (elements (plug p' (plug1 (node d RB_RED t px (child d (Node RB_RED l x r)))
      (Frame d RB_BLACK x (child (other d) (Node RB_RED l x r)))))
      = elements (plug p' (node d pc t px (Node RB_RED l x r)))).
    apply elements_plug_cong. destruct d; simpl; by rewrite <- ?app_assoc. }
  rewrite <- Hel. clear Hel Hst st.
  destruct tmp1 as [|tc l tx r]; [done|].
  destruct (_ && _) eqn:Hbb.
  { apply IH in H. rewrite H. apply elements_plug_cong, elements_node_cong; [done|].
    by destruct d. }
  destruct (if negb _ then _ else _) as [tmp2|] eqn:Hs in H; [|done].
  assert (Hel2 : elements tmp2 = elements (Node tc l tx r)).
  { destruct (negb _) in Hs; [|by simplify_eq].
    rewrite (elements_rotate _ _ _ Hs).
    etrans; [|exact (f_equal elements (node_child d tc l tx r))].
    apply elements_node_cong; [apply elements_blacken|done]. }
  destruct tmp2 as [|tc2 l2 tx2 r2]; [done|].
  case_match eqn:Hr; [|done]. simplify_eq.
  rewrite elements_blacken. apply elements_plug_cong.
  rewrite (elements_rotate _ _ _ Hr). apply elements_node_cong; [done|].
  rewrite <- Hel2.
  etrans; [|exact (f_equal elements (node_child d tc2 l2 tx2 r2))].
  apply elements_node_cong; [done|apply elements_blacken].
Qed.
End Elements.

(** * Search trees: descent, lookup, order *)

Section Search.
Context {A : Type} (key : A -> Z).
Implicit Types (t l r : tree A) (p q : list (frame A)) (x y : A).

Lemma rb_cmp_lt a b : (rb_cmp a b <? 0) = (a <? b).
Proof. unfold rb_cmp. destruct (Z.ltb_spec b a), (Z.ltb_spec a b); simpl; lia. Qed.

Lemma rb_cmp_gt a b : (0 <? rb_cmp a b) = (b <? a).
Proof. unfold rb_cmp. destruct (Z.ltb_spec b a), (Z.ltb_spec a b); simpl; lia. Qed.

Lemma rb_descend_plug k t p t' p' :
  rb_descend key k t p = (t', p') -> plug p' t' = plug p t.
Proof.
  revert p. induction t as [|c l IHl x r IHr]; intros p; simpl.
  - by intros [= <- <-].
  - rewrite rb_cmp_lt, rb_cmp_gt. repeat case_match; intros Hd;
      [apply IHl in Hd | apply IHr in Hd | simplify_eq]; done.
Qed.

Lemma rb_descend_root k t p c l x r p' :
  rb_descend key k t p = (Node c l x r, p') -> key x = k.
Proof.
  revert p. induction t as [|c0 l0 IHl x0 r0 IHr]; intros p; simpl; [done|].
  rewrite rb_cmp_lt, rb_cmp_gt.
  destruct (Z.ltb_spec k (key x0)); [eauto|].
  destruct (Z.ltb_spec (key x0) k); [eauto|].
  intros. simplify_eq. lia.
Qed.

Definition below k (xs : list A) : Prop := Forall (fun x => key x < k) xs.
Definition above k (xs : list A) : Prop := Forall (fun x => k < key x) xs.

Lemma search_tree_node c l x r :
  search_tree key (Node c l x r) <->
  search_tree key l /\ search_tree key r /\
  below (key x) (elements l) /\ above (key x) (elements r).
Proof.
  unfold search_tree, keys, below, above; simpl.
  rewrite fmap_app, fmap_cons, sortedZ_app; simpl.
  rewrite !Forall_fmap. unfold compose. split.
  - intros (Hl & (Hr & Hr') & Hx). repeat split; auto.
    eapply Forall_impl; [exact Hx|]. intros y Hy. by apply Forall_cons in Hy as [??].
  - intros (Hl & Hr & Hx & Hx'). repeat split; auto.
    eapply Forall_impl; [exact Hx|]. intros y Hy. simpl in *.
    constructor; [done|]. rewrite Forall_fmap.
    eapply Forall_impl; [exact Hx'|]. intros; simpl in *; lia.
Qed.

Lemma below_weaken k k' xs : k <= k' -> below k xs -> below k' xs.
Proof. intros ? H. eapply Forall_impl; [exact H|]. simpl. lia. Qed.
Lemma above_weaken k k' xs : k' <= k -> above k xs -> above k' xs.
Proof. intros ? H. eapply Forall_impl; [exact H|]. simpl. lia. Qed.

Lemma rb_descend_bounds k t p t' p' :
  search_tree key t -> below k (before p) -> above k (after p) ->
  rb_descend key k t p = (t', p') ->
  below k (before p') /\ above k (after p').
Proof.
  revert p. induction t as [|c l IHl x r IHr]; intros p Ht Hb Ha H; simpl in H.
  { by simplify_eq. }
  apply search_tree_node in Ht as (Hl & Hr & Hlx & Hrx).
  rewrite rb_cmp_lt, rb_cmp_gt in H.
  destruct (Z.ltb_spec k (key x)); [|destruct (Z.ltb_spec (key x) k)].
  - eapply IHl; [done| | |exact H]; simpl.
    + by rewrite app_nil_r.
    + constructor; [done|]. apply Forall_app; split; [|done].
      eapply above_weaken; [|exact Hrx]; lia.
  - eapply IHr; [done| | |exact H]; simpl; [|done].
    apply Forall_app; split; [done|]. apply Forall_app; split; [|by repeat constructor].
    eapply below_weaken; [|exact Hlx]; lia.
  - by simplify_eq.
Qed.

(** Everything the descent for [k] says about a search tree. *)
Lemma rb_descend_spec k t t' p' :
  search_tree key t -> rb_descend key k t [] = (t', p') ->
  plug p' t' = t /\ elements t = before p' ++ elements t' ++ after p' /\
  below k (before p') /\ above k (after p').
Proof.
  intros Ht H. pose proof (rb_descend_plug _ _ _ _ _ H) as Hp. simpl in Hp.
  apply rb_descend_bounds in H; [|done|constructor|constructor].
  rewrite <- elements_plug, Hp. tauto.
Qed.

Lemma RB_FIND_descend k t p :
  RB_FIND key t k = match (rb_descend key k t p).1 with
                    | Node _ _ x _ => Some x
                    | NULL => None
                    end.
Proof.
  revert p. induction t as [|c l IHl x r IHr]; intros p; simpl; [done|].
  rewrite rb_cmp_lt, rb_cmp_gt.
  destruct (k <? key x); [apply IHl|]. destruct (key x <? k); [apply IHr|done].
Qed.

Lemma not_elem_below k x xs : below k xs -> key x = k -> x ∉ xs.
Proof. unfold below. rewrite Forall_forall. intros H <- Hin. specialize (H _ Hin). lia. Qed.
Lemma not_elem_above k x xs : above k xs -> key x = k -> x ∉ xs.
Proof. unfold above. rewrite Forall_forall. intros H <- Hin. specialize (H _ Hin). lia. Qed.

Lemma RB_FIND_elem k t x :
  search_tree key t ->
  RB_FIND key t k = Some x <-> x ∈ elements t /\ key x = k.
Proof.
  intros Ht. rewrite (RB_FIND_descend k t []).
  destruct (rb_descend key k t []) as [t' p'] eqn:Hd. simpl.
  destruct (rb_descend_spec _ _ _ _ Ht Hd) as (Hp & He & Hb & Ha).
  split.
  - destruct t' as [|c l y r]; [done|]. intros [= ->]. split.
    + rewrite He. simpl. set_solver.
    + by eapply rb_descend_root.
  - intros [Hin Hk]. rewrite He in Hin.
    apply elem_of_app in Hin as [Hin|Hin];
      [by destruct (not_elem_below k x (before p'))|].
    apply elem_of_app in Hin as [Hin|Hin];
      [|by destruct (not_elem_above k x (after p'))].
    destruct t' as [|c l y r]; [by apply elem_of_nil in Hin|].
    pose proof (rb_descend_root _ _ _ _ _ _ _ _ Hd) as Hy.
    assert (Hs : search_tree key (Node c l y r)).
    { unfold search_tree, keys in *. rewrite He, !fmap_app in Ht.
      rewrite !sortedZ_app in Ht. tauto. }
    apply search_tree_node in Hs as (_ & _ & Hl & Hr). simpl in Hin.
    apply elem_of_app in Hin as [Hin|Hin];
      [by destruct (not_elem_below (key y) x (elements l)); [|congruence|]|].
    apply elem_of_cons in Hin as [->|Hin]; [done|].
    by destruct (not_elem_above (key y) x (elements r)); [|congruence|].
Qed.

Lemma to_map_lookup t k : search_tree key t -> to_map key t !! k = RB_FIND key t k.
Proof.
  intros Ht. apply option_eq. intros x. rewrite RB_FIND_elem by done.
  unfold to_map. rewrite <- elem_of_list_to_map.
  - rewrite list_elem_of_fmap. split; [intros (y & ? & ?); simplify_eq; eauto|].
    intros [? <-]. eauto.
  - rewrite <- list_fmap_compose. unfold compose; simpl. apply sortedZ_NoDup, Ht.
Qed.

(** In a sorted list an element is at one place only. *)
Lemma sorted_split_unique (l1 l2 m1 m2 : list A) x y :
  sortedZ (key <$> (l1 ++ x :: l2)) -> l1 ++ x :: l2 = m1 ++ y :: m2 ->
  key x = key y -> l1 = m1 /\ x = y /\ l2 = m2.
Proof.
  revert m1. induction l1 as [|a l1 IH]; intros [|b m1] Hs Heq Hk; simplify_eq/=.
  - done.
  - exfalso. destruct Hs as [Hs _]. rewrite fmap_app, Forall_app in Hs.
    destruct Hs as [_ Hs]. apply Forall_cons in Hs as [??]. lia.
  - exfalso. destruct Hs as [Hs _]. rewrite fmap_app, Forall_app in Hs.
    destruct Hs as [_ Hs]. apply Forall_cons in Hs as [??]. lia.
  - destruct Hs as [_ Hs]. edestruct IH as (-> & -> & ->); eauto.
Qed.

Lemma rb_minmax_head t (o : option A) :
  rb_minmax t (-1) o = match head (elements t) with Some x => Some x | None => o end.
Proof.
  revert o. induction t as [|c l IHl x r IHr]; intros o; simpl; [done|].
  rewrite IHl. by destruct (elements l).
Qed.

Lemma RB_MIN_head t : RB_MIN t = head (elements t).
Proof. unfold RB_MIN, RB_MINMAX. rewrite rb_minmax_head. by destruct (elements t). Qed.

Lemma rb_minmax_last t (o : option A) :
  rb_minmax t 1 o = match last (elements t) with Some x => Some x | None => o end.
Proof.
  revert o. induction t as [|c l IHl x r IHr]; intros o; simpl; [done|].
  rewrite IHr. rewrite last_app_cons, last_cons. by destruct (last (elements r)).
Qed.

Lemma rb_climb_after p : rb_climb RIGHT p = head (after p).
Proof. induction p as [|[[] c x s] p IH]; simpl; done. Qed.

(** [RB_NEXT] is the successor in the in-order list. *)
Lemma RB_NEXT_succ t (l1 l2 : list A) x :
  search_tree key t -> elements t = l1 ++ x :: l2 ->
  RB_NEXT key t (key x) = head l2.
Proof.
  intros Ht He. unfold RB_NEXT.
  destruct (rb_descend key (key x) t []) as [t' p] eqn:Hd.
  destruct (rb_descend_spec _ _ _ _ Ht Hd) as (Hp & He' & Hb & Ha).
  destruct t' as [|c l y r].
  - exfalso. assert (Hin : x ∈ elements t) by (rewrite He; set_solver).
    rewrite He' in Hin. simpl in Hin. apply elem_of_app in Hin as [Hin|Hin];
    [by destruct (not_elem_below (key x) x (before p))
    |by destruct (not_elem_above (key x) x (after p))].
  - pose proof (rb_descend_root _ _ _ _ _ _ _ _ Hd) as Hy.
    simpl in He'. rewrite <- app_assoc in He'. simpl in He'.
    rewrite app_assoc in He'.
    edestruct (sorted_split_unique l1 l2 (before p ++ elements l)
                 (elements r ++ after p) x y) as (-> & -> & ->).
    { rewrite <- He. exact Ht. }
    { by rewrite <- He, He'. }
    { done. }
    destruct r as [|cr lr z rr]; [apply rb_climb_after|].
    rewrite RB_MIN_head. simpl. by destruct (elements lr).
Qed.
End Search.

(** * The red-black invariant *)

Section RedBlack.
Context {A : Type} (key : A -> Z).
Implicit Types (t l r : tree A) (p q : list (frame A)) (x y : A).

Lemma rb_weaken h t : rb RB_RED h t -> rb RB_BLACK h t.
Proof. inversion 1; subst; eauto with rb. Qed.

Lemma rb_any c h t : rb RB_RED h t -> rb c h t.
Proof. destruct c; [apply rb_weaken|done]. Qed.

Lemma rb_node d c h (a b : tree A) x :
  rb RB_BLACK h a -> rb RB_BLACK h b -> rb c (S h) (node d RB_BLACK a x b).
Proof. destruct d; simpl; eauto with rb. Qed.

Lemma rb_node_red d h (a b : tree A) x :
  rb RB_RED h a -> rb RB_RED h b -> rb RB_BLACK h (node d RB_RED a x b).
Proof. destruct d; simpl; eauto with rb. Qed.

Lemma rb_plug p c h t : ctx p c h -> rb c h t -> red_black (plug p t).
Proof.
  intros Hp. revert t. induction Hp as [h|d x s p c h Hp IH Hs|d x s p h Hp IH Hs];
    intros t Ht.
  - by exists h.
  - apply IH. by apply rb_node.
  - apply IH. by apply rb_node_red.
Qed.

(** A valid tree that is not red stays valid under a red parent. *)
Lemma rb_not_red h t : rb RB_BLACK h t -> is_red t = false -> rb RB_RED h t.
Proof. inversion 1; subst; simpl; try done; eauto with rb. Qed.

Lemma red_black_root t :
  red_black t -> t <> NULL -> set_color RB_BLACK t = Some t.
Proof. intros [h Ht] Hn. inversion Ht; subst; done. Qed.

Lemma plug_not_null p t : t <> NULL -> plug p t <> NULL.
Proof.
  revert t. induction p as [|[d c x s] p IH]; intros t Ht; [done|].
  rewrite plug_cons. apply IH. by destruct d.
Qed.

(** A black node may be put in any hole of its height. *)
Lemma rb_plug_black p c h t :
  ctx p c h -> rb RB_RED h t -> t <> NULL ->
  exists t', set_color RB_BLACK (plug p t) = Some t' /\ red_black t'.
Proof.
  intros Hp Ht Hn. assert (red_black (plug p t)) by eauto using rb_plug, rb_any.
  exists (plug p t). split; [|done]. by apply red_black_root, plug_not_null.
Qed.

Lemma is_red_inv t : is_red t = true -> exists l x r, t = Node RB_RED l x r.
Proof. destruct t as [|[] l x r]; naive_solver. Qed.

(** The last step of [RB_INSERT_COLOR]: the one or two rotations. *)
Lemma insert_rotate_ok gd d h (l r ps gs : tree A) x px gx :
  rb RB_RED h l -> rb RB_RED h r -> rb RB_RED h ps -> rb RB_RED h gs ->
  exists g parent,
    (match gd, d with
     | LEFT, RIGHT => RB_ROTATE_LEFT (node d RB_RED (Node RB_RED l x r) px ps)
     | RIGHT, LEFT => RB_ROTATE_RIGHT (node d RB_RED (Node RB_RED l x r) px ps)
     | _, _ => Some (node d RB_RED (Node RB_RED l x r) px ps)
     end) = Some parent /\
    rotate (other gd) (node gd RB_RED (blacken parent) gx gs) = Some g /\
    rb RB_RED (S h) g /\ g <> NULL.
Proof.
  intros. destruct gd, d; simpl; do 2 eexists;
    (split_and!; [reflexivity|reflexivity| |done]); simpl; auto 8 using rb_weaken with rb.
Qed.

Lemma insert_color_ok p c h l x r :
  ctx p c h -> rb RB_RED h l -> rb RB_RED h r ->
  exists t', RB_INSERT_COLOR p (Node RB_RED l x r) = Some t' /\ red_black t'.
Proof.
  remember (length p) as n eqn:Hn. revert p c h l x r Hn.
  induction n as [n IH] using lt_wf_ind. intros p c h l x r -> Hp Hl Hr.
  inversion Hp as [h0|d y s p1 c1 h0 Hp1 Hs|d y s p1 h0 Hp1 Hs]; subst.
  - eexists. split; [reflexivity|]. exists (S h). auto using rb_weaken with rb.
  - assert (Hrb : red_black (plug (Frame d RB_BLACK y s :: p1) (Node RB_RED l x r)))
      by (eapply rb_plug; eauto with rb).
    eexists. split; [|exact Hrb]. by apply red_black_root, plug_not_null.
  - inversion Hp1 as [|gd gy gs p2 c2 h2 Hp2 Hgs|]; subst. simpl.
    destruct (is_red gs) eqn:Hg.
    + apply is_red_inv in Hg as (gl & gz & gr & ->). inversion Hgs; subst.
      destruct gd; simpl;
        (eapply IH; [|reflexivity|exact Hp2| |]; [simpl; lia| |]);
        repeat first [apply rb_node|apply rb_black|apply rb_red|apply rb_weaken]; done.
    + destruct (insert_rotate_ok gd d h l r s gs x y gy)
        as (g & parent & -> & -> & Hg' & Hnn); auto using rb_not_red.
      eapply rb_plug_black; eauto.
Qed.

Lemma rb_blacken c h t : rb RB_BLACK h t -> is_red t = true -> rb c (S h) (blacken t).
Proof. intros Ht Hr. apply is_red_inv in Hr as (l & x & r & ->). inversion Ht; subst.
  simpl. auto using rb_weaken with rb. Qed.

Lemma rb_blacken_root h t : rb RB_BLACK h t -> red_black (blacken t).
Proof.
  inversion 1; subst; simpl; [by exists 0%nat; constructor| |].
  - exists (S h). auto using rb_weaken with rb.
  - exists (S h0). auto with rb.
Qed.

Lemma rb_children d c h l x r :
  rb c (S h) (Node RB_BLACK l x r) ->
  rb RB_BLACK h (child d (Node RB_BLACK l x r)).
Proof. inversion 1; subst. by destruct d. Qed.

Lemma remove_color_red_run n p t :
  is_red t = true -> RB_REMOVE_COLOR (S n) p t = Some (plug p (blacken t)).
Proof. intros Hr. destruct p as [|[d pc px tmp] p']; cbn [RB_REMOVE_COLOR]; by rewrite ?Hr. Qed.

(** The terminal case: the sibling has a red child. *)
Lemma remove_rotate_ok d c pc h t px tc l tx r :
  rb RB_BLACK h t -> is_red t = false ->
  rb RB_RED (S h) (Node tc l tx r) ->
  negb (is_red (child d (Node tc l tx r))) &&
    negb (is_red (child (other d) (Node tc l tx r))) = false ->
  (pc = RB_RED /\ c = RB_BLACK) \/ pc = RB_BLACK ->
  let near := child d (Node tc l tx r) in
  let far := child (other d) (Node tc l tx r) in
  exists tmp l' tx' r' tc' s,
    (if negb (is_red far) then
       rotate (other d) (node d RB_RED (blacken near) tx far)
     else Some (Node tc l tx r)) = Some tmp /\
    tmp = Node tc' l' tx' r' /\
    rotate d (node d RB_BLACK t px
      (node d pc (child d tmp) tx' (blacken (child (other d) tmp)))) = Some s /\
    rb c (match pc with RB_RED => S h | RB_BLACK => S (S h) end) s.
Proof.
  intros Ht Htr Hs Hbb Hpc. cbv zeta. inversion Hs as [| |c0 h0 l0 x0 r0 Hl Hr]; subst.
  destruct (negb (is_red (child (other d) (Node RB_BLACK l tx r)))) eqn:Hf.
  - rewrite andb_true_r in Hbb. apply negb_false_iff, is_red_inv in Hbb
      as (nl & nx & nr & Hn). apply negb_true_iff in Hf.
    destruct d; simpl in *; subst;
      [inversion Hl; subst; apply rb_not_red in Hr; [|done]
      |inversion Hr; subst; apply rb_not_red in Hl; [|done]];
      (do 6 eexists; (split_and!; [reflexivity|reflexivity|reflexivity|]); simpl;
       destruct Hpc as [[-> ->]| ->]; auto 8 using rb_weaken with rb).
  - apply negb_false_iff, is_red_inv in Hf as (fl & fx & fr & Hf).
    destruct d; simpl in *; subst;
      [inversion Hr; subst|inversion Hl; subst];
      (do 6 eexists; (split_and!; [reflexivity|reflexivity|reflexivity|]); simpl;
       destruct Hpc as [[-> ->]| ->]; auto 8 using rb_weaken with rb).
Qed.

(** One round at a black sibling, for a parent of colour [pc]. *)
Definition hole_ok pc p h : Prop :=
  match pc with
  | RB_RED => ctx p RB_BLACK (S h)
  | RB_BLACK => exists c, ctx p c (S (S h))
  end.

Lemma remove_round n d pc px p h t tc l tx r :
  rb RB_BLACK h t -> is_red t = false ->
  rb RB_RED (S h) (Node tc l tx r) -> hole_ok pc p h ->
  n <> O ->
  (pc = RB_BLACK -> forall t', rb RB_BLACK (S h) t' ->
     exists t'', RB_REMOVE_COLOR n p t' = Some t'' /\ red_black t'') ->
  exists t',
    (let tmp := Node tc l tx r in
     let near := child d tmp in
     let far := child (other d) tmp in
     if negb (is_red near) && negb (is_red far) then
       RB_REMOVE_COLOR n p (node d pc t px (node d RB_RED near tx far))
     else
       match (if negb (is_red far) then
                rotate (other d) (node d RB_RED (blacken near) tx far)
              else Some tmp) with
       | Some (Node _ l tx r as tmp') =>
           match rotate d (node d RB_BLACK t px
                   (node d pc (child d tmp') tx (blacken (child (other d) tmp')))) with
           | Some s => Some (blacken (plug p s))
           | None => None
           end
       | _ => None
       end) = Some t' /\ red_black t'.
Proof.
  intros Ht Htr Hs Hp Hn0 Hrec. cbv zeta.
  destruct (_ && _) eqn:Hbb.
  - apply andb_true_iff in Hbb as [Hn Hf]. apply negb_true_iff in Hn, Hf.
    inversion Hs as [| |c0 h0 l0 x0 r0 Hl Hr]; subst.
    assert (Hsib : rb RB_BLACK h (node d RB_RED (child d (Node RB_BLACK l tx r)) tx
                     (child (other d) (Node RB_BLACK l tx r)))).
    { apply rb_node_red; apply rb_not_red; try done; by eapply rb_children. }
    destruct pc; [by apply Hrec, rb_node|]. destruct n as [|n]; [done|].
    rewrite remove_color_red_run by by destruct d.
    eexists. split; [done|]. eapply rb_plug; [exact Hp|].
    destruct d; simpl in *; auto with rb.
  - destruct pc; simpl in Hp.
    + destruct Hp as [c Hp].
      destruct (remove_rotate_ok d c RB_BLACK h t px tc l tx r)
        as (tmp & l' & tx' & r' & tc' & s & -> & -> & -> & Hok); auto.
      eexists. split; [reflexivity|]. 
      assert (red_black (plug p s)) as [H Hrb] by by eapply rb_plug.
      eapply rb_blacken_root, rb_weaken; eauto.
    + destruct (remove_rotate_ok d RB_BLACK RB_RED h t px tc l tx r)
        as (tmp & l' & tx' & r' & tc' & s & -> & -> & -> & Hok); auto.
      eexists. split; [reflexivity|].
      assert (red_black (plug p s)) as [H Hrb] by by eapply rb_plug.
      eapply rb_blacken_root, rb_weaken; eauto.
Qed.

Lemma remove_color_ok n p c h t :
  ctx p c (S h) -> rb RB_BLACK h t -> (length p + 2 <= n)%nat ->
  exists t', RB_REMOVE_COLOR n p t = Some t' /\ red_black t'.
Proof.
  revert n c h t. induction p as [|[d pc px s] p IH]; intros n c h t Hp Ht Hn;
    (destruct n as [|n]; [simpl in *; lia|]).
  { eexists. split; [done|]. by eapply rb_blacken_root. }
  destruct (is_red t) eqn:Hr.
  { rewrite remove_color_red_run by done. eexists. split; [done|].
    eapply rb_plug; [exact Hp|]. by apply rb_blacken. }
  cbn [RB_REMOVE_COLOR]. rewrite Hr. simpl in Hn.
  inversion Hp as [|d0 x0 s0 p0 c0 h0 Hp0 Hs|d0 x0 s0 p0 h0 Hp0 Hs]; subst.
  - inversion Hs as [|h1 l x r Hl Hx|c1 h1 l x r Hl Hx]; subst.
    + assert (Hc : rb RB_RED (S h) (child d (Node RB_RED l x r))) by by destruct d.
      destruct (child d (Node RB_RED l x r)) as [|tc tl tx tr] eqn:Ec; [by inversion Hc|].
      apply remove_round with (h := h); try done; [|lia].
      eapply ctx_black; [exact Hp0|]. apply rb_weaken. by destruct d.
    + apply remove_round with (h := h); try done; [by constructor|by exists c0|lia|].
      intros _ t' Ht'. eapply IH; [exact Hp0|done|lia].
  - inversion Hs as [| |c1 h1 l x r Hl Hx]; subst.
    apply remove_round with (h := h); try done; lia.
Qed.

Lemma descend_ctx k t p c h t' p' :
  ctx p c h -> rb c h t -> rb_descend key k t p = (t', p') ->
  exists c' h', ctx p' c' h' /\ rb c' h' t'.
Proof.
  revert p c h. induction t as [|ct l IHl x r IHr]; intros p c h Hp Ht; simpl.
  { intros [= <- <-]. eauto. }
  destruct (_ <? 0); [|destruct (0 <? _)].
  - inversion Ht; subst; eapply IHl; eauto with rb.
  - inversion Ht; subst; eapply IHr; eauto with rb.
  - intros [= <- <-]. eauto.
Qed.

Lemma fixup_ok p c0 h c l x r chd :
  ctx p c0 h -> rb c0 h (Node c l x r) -> (chd = l \/ chd = r) ->
  exists t', rb_fixup c p chd = Some t' /\ red_black t'.
Proof.
  intros Hp Ht Hc. inversion Ht as [|h0 l0 x0 r0 Hl Hr|c1 h0 l0 x0 r0 Hl Hr]; subst; simpl.
  - eexists. split; [done|]. eapply rb_plug; [exact Hp|]. apply rb_weaken.
    destruct Hc; by subst.
  - eapply remove_color_ok; [exact Hp| |lia]. destruct Hc; by subst.
Qed.

Lemma leftmost_ok t q p c h ec ex chd q' :
  ctx (q ++ p) c h -> rb c h t -> rb_leftmost t q = Some (ec, ex, chd, q') ->
  exists c' h', ctx (q' ++ p) c' h' /\ rb c' h' (Node ec NULL ex chd).
Proof.
  revert q c h. induction t as [|ct l IHl x r IHr]; intros q c h Hp Ht; simpl; [done|].
  destruct l as [|cl ll xl rl]; [intros; simplify_eq; eauto|].
  inversion Ht; subst; eapply IHl; simpl; eauto with rb.
Qed.

Lemma leftmost_some t q : t <> NULL -> exists res, rb_leftmost t q = Some res.
Proof.
  revert q. induction t as [|ct l IHl x r IHr]; intros q Hn; [done|]. simpl.
  destruct l; [eauto|]. by apply IHl.
Qed.

Lemma leftmost_elements t q ec ex chd q' :
  rb_leftmost t q = Some (ec, ex, chd, q') ->
  before q' = before q /\
  elements t ++ after q = ex :: elements chd ++ after q'.
Proof.
  revert q. induction t as [|ct l IHl x r IHr]; intros q; simpl; [done|].
  destruct l as [|cl ll xl rl]; [intros; by simplify_eq|].
  intros H. apply IHl in H as [Hb He]. simpl in Hb, He.
  rewrite app_nil_r in Hb. split; [done|]. rewrite <- He. simpl.
  by rewrite <- !app_assoc.
Qed.

Lemma before_app q p : before (q ++ p) = before p ++ before q.
Proof. induction q as [|f q IH]; simpl; [by rewrite app_nil_r|]. by rewrite IH, app_assoc. Qed.
Lemma after_app q p : after (q ++ p) = after q ++ after p.
Proof. induction q as [|f q IH]; simpl; [done|]. by rewrite IH, app_assoc. Qed.

Lemma fixup_elements c p chd t' :
  rb_fixup c p chd = Some t' -> elements t' = before p ++ elements chd ++ after p.
Proof.
  destruct c; simpl; intros H.
  - by rewrite (elements_remove_color _ _ _ _ H), elements_plug.
  - simplify_eq. apply elements_plug.
Qed.

(** [RB_REMOVE] of a node that is in the tree: no fault, a red-black tree,
    and the list without that element. *)
Lemma RB_REMOVE_ok t (l1 l2 : list A) x :
  wf key t -> elements t = l1 ++ x :: l2 ->
  exists t', RB_REMOVE key t (key x) = Some t' /\ red_black t' /\
    elements t' = l1 ++ l2.
Proof.
  intros [Ht [h Hrb]] He. unfold RB_REMOVE.
  destruct (rb_descend key (key x) t []) as [t' p] eqn:Hd.
  destruct (descend_ctx _ _ _ _ _ _ _ (ctx_root h) Hrb Hd) as (c' & h' & Hp & Hrb').
  destruct (rb_descend_spec _ _ _ _ _ Ht Hd) as (_ & He' & Hb & Ha).
  destruct t' as [|c l y r].
  { exfalso. assert (Hin : x ∈ elements t) by (rewrite He; set_solver).
    rewrite He' in Hin. simpl in Hin. apply elem_of_app in Hin as [Hin|Hin];
    [by destruct (not_elem_below key (key x) x (before p))
    |by destruct (not_elem_above key (key x) x (after p))]. }
  pose proof (rb_descend_root _ _ _ _ _ _ _ _ _ Hd) as Hy.
  simpl in He'. rewrite <- app_assoc in He'. simpl in He'. rewrite app_assoc in He'.
  edestruct (sorted_split_unique key l1 l2 (before p ++ elements l)
               (elements r ++ after p) x y) as (-> & -> & ->);
    [rewrite <- He; exact Ht|by rewrite <- He, He'|done|].
  destruct l as [|lc ll lx lr].
  { destruct (fixup_ok _ _ _ _ _ _ _ r Hp Hrb') as (t' & Ht' & Hok); [auto|].
    exists t'. split_and!; try done. rewrite (fixup_elements _ _ _ _ Ht').
    simpl. by rewrite app_nil_r. }
  destruct r as [|rc rl rx rr].
  { destruct (fixup_ok _ _ _ _ _ _ _ (Node lc ll lx lr) Hp Hrb') as (t' & Ht' & Hok); [auto|].
    exists t'. split_and!; try done. rewrite (fixup_elements _ _ _ _ Ht').
    by rewrite app_assoc. }
  set (l := Node lc ll lx lr) in *. set (r := Node rc rl rx rr) in *.
  destruct (leftmost_some r []) as [[[[ec ex] chd] q] Hq]; [done|]. rewrite Hq.
  assert (exists hr, ctx ([] ++ Frame RIGHT c ex l :: p) c hr /\ rb c hr r) as (hr & Hc & Hr).
  { inversion Hrb'; subst; eauto 6 with rb. }
  destruct (leftmost_ok _ _ _ _ _ _ _ _ _ Hc Hr Hq) as (c1 & h1 & Hc1 & Hr1).
  destruct (fixup_ok _ _ _ _ _ _ _ chd Hc1 Hr1) as (t' & Ht' & Hok); [auto|].
  exists t'. split_and!; try done. rewrite (fixup_elements _ _ _ _ Ht').
  apply leftmost_elements in Hq as [Hbq Heq]. cbn [before after] in Hbq, Heq.
  rewrite app_nil_r in Heq. rewrite before_app, after_app, Hbq, app_nil_r, Heq. simpl.
  by rewrite <- !app_assoc.
Qed.

(** [RB_INSERT] of a new key: no fault, a red-black tree, and the list with
    the element put between the smaller and the larger keys. *)
Lemma RB_INSERT_new t x :
  wf key t -> RB_FIND key t (key x) = None ->
  exists t' (l1 l2 : list A), RB_INSERT key t x = Some (None, t') /\ red_black t' /\
    elements t = l1 ++ l2 /\ elements t' = l1 ++ x :: l2 /\
    below key (key x) l1 /\ above key (key x) l2.
Proof.
  intros [Ht [h Hrb]] Hf. unfold RB_INSERT.
  rewrite (RB_FIND_descend key (key x) t []) in Hf.
  destruct (rb_descend key (key x) t []) as [t' p] eqn:Hd. simpl in Hf.
  destruct t'; [|done].
  destruct (descend_ctx _ _ _ _ _ _ _ (ctx_root h) Hrb Hd) as (c' & h' & Hp & Hrb').
  destruct (rb_descend_spec _ _ _ _ _ Ht Hd) as (_ & He' & Hb & Ha).
  inversion Hrb'; subst.
  destruct (insert_color_ok p c' 0 NULL x NULL) as (t' & Hi & Hok); auto with rb.
  rewrite Hi. exists t', (before p), (after p). split_and!; try done.
  by rewrite (elements_insert_color _ _ _ Hi), elements_plug.
Qed.

Lemma RB_INSERT_dup t x y :
  RB_FIND key t (key x) = Some y -> RB_INSERT key t x = Some (Some y, t).
Proof.
  rewrite (RB_FIND_descend key (key x) t []). unfold RB_INSERT.
  destruct (rb_descend key (key x) t []) as [[|c l z r] p]; naive_solver.
Qed.
End RedBlack.

(** * The tree is a sorted finite map *)

Section Refinement.
Context {A : Type} (key : A -> Z).
Implicit Types (t : tree A) (x y : A).

Lemma sorted_insert (l1 l2 : list A) x :
  sortedZ (key <$> (l1 ++ l2)) -> below key (key x) l1 -> above key (key x) l2 ->
  sortedZ (key <$> (l1 ++ x :: l2)).
Proof.
  rewrite !fmap_app, fmap_cons, !sortedZ_app. unfold below, above. simpl.
  rewrite !Forall_fmap. intros (H1 & H2 & H12) Hb Ha. split_and!; auto.
  apply Forall_forall. intros y Hy. simpl. rewrite Forall_forall in H12, Hb.
  constructor; [by apply Hb|by apply H12].
Qed.

Lemma sorted_remove (l1 l2 : list A) x :
  sortedZ (key <$> (l1 ++ x :: l2)) -> sortedZ (key <$> (l1 ++ l2)).
Proof.
  rewrite !fmap_app, fmap_cons, !sortedZ_app. simpl. rewrite !Forall_fmap.
  intros (H1 & (H2 & H3) & H12). split_and!; auto.
  eapply Forall_impl; [exact H12|]. simpl. intros y Hy.
  by apply Forall_cons in Hy as [_ ?].
Qed.

Lemma to_map_elem t k x :
  search_tree key t -> to_map key t !! k = Some x <-> x ∈ elements t /\ key x = k.
Proof. intros Ht. rewrite to_map_lookup by done. by apply RB_FIND_elem. Qed.

Lemma wf_empty : wf key NULL.
Proof. split; [done|]. exists O. constructor. Qed.

(** Insertion, in the list view clients use. *)
Lemma RB_INSERT_wf t x :
  wf key t -> RB_FIND key t (key x) = None ->
  exists t' (l1 l2 : list A), RB_INSERT key t x = Some (None, t') /\ wf key t' /\
    elements t = l1 ++ l2 /\ elements t' = l1 ++ x :: l2.
Proof.
  intros Hwf Hf. destruct (RB_INSERT_new key t x Hwf Hf)
    as (t' & l1 & l2 & Hi & Hrb & He & He' & Hb & Ha).
  exists t', l1, l2. split_and!; try done. split; [|done].
  unfold search_tree, keys. rewrite He'. destruct Hwf as [Hs _].
  unfold search_tree, keys in Hs. rewrite He in Hs. by apply sorted_insert.
Qed.

Lemma RB_REMOVE_wf t (l1 l2 : list A) x :
  wf key t -> elements t = l1 ++ x :: l2 ->
  exists t', RB_REMOVE key t (key x) = Some t' /\ wf key t' /\ elements t' = l1 ++ l2.
Proof.
  intros Hwf He. destruct (RB_REMOVE_ok key t l1 l2 x Hwf He) as (t' & Hr & Hrb & He').
  exists t'. split_and!; try done. split; [|done].
  destruct Hwf as [Hs _]. unfold search_tree, keys in *. rewrite He'.
  rewrite He in Hs. by eapply sorted_remove.
Qed.

(** C29: [RB_INSERT] on a well-formed tree never dereferences NULL, keeps the
    tree a search tree and a red-black tree, returns the element that already
    has the key if there is one and then leaves the tree alone, and otherwise
    is the insertion of the finite map the tree stands for. *)
Theorem rb_insert_refines t x :
  wf key t ->
  exists r t', RB_INSERT key t x = Some (r, t') /\ wf key t' /\
    r = to_map key t !! key x /\
    to_map key t' = match r with
                    | Some _ => to_map key t
                    | None => <[key x := x]> (to_map key t)
                    end.
Proof.
  intros Hwf. pose proof (proj1 Hwf) as Hs. rewrite (to_map_lookup key t) by done.
  destruct (RB_FIND key t (key x)) as [y|] eqn:Hf.
  { exists (Some y), t. by rewrite (RB_INSERT_dup key t x y Hf). }
  destruct (RB_INSERT_wf t x Hwf Hf) as (t' & l1 & l2 & Hi & Hwf' & He & He').
  exists None, t'. split_and!; try done. pose proof (proj1 Hwf') as Hs'.
  apply map_eq. intros k. apply option_eq. intros z.
  rewrite to_map_elem, lookup_insert by done. rewrite He'.
  rewrite elem_of_app, elem_of_cons.
  assert (Hz : z ∈ l1 \/ z ∈ l2 <-> z ∈ elements t)
    by (rewrite He, elem_of_app; done).
  case_decide as Hk.
  - subst k. split; [|naive_solver]. intros [Hin Hkz].
    destruct Hin as [Hin|[->|Hin]]; [|done|];
      (assert (Hz' : RB_FIND key t (key x) = Some z)
         by (apply RB_FIND_elem; tauto); congruence).
  - rewrite to_map_elem by done. naive_solver.
Qed.

(** C30: [RB_REMOVE] of a key that is in the tree never dereferences NULL,
    needs no more rounds of recolouring than the length of the path to the
    root, keeps both invariants and deletes exactly that key. *)
Theorem rb_remove_refines t k x :
  wf key t -> to_map key t !! k = Some x ->
  exists t', RB_REMOVE key t k = Some t' /\ wf key t' /\
    to_map key t' = delete k (to_map key t).
Proof.
  intros Hwf Hk. pose proof (proj1 Hwf) as Hs. apply to_map_elem in Hk as [Hin <-]; [|done].
  apply list_elem_of_split in Hin as (l1 & l2 & He).
  destruct (RB_REMOVE_wf t l1 l2 x Hwf He) as (t' & Hr & Hwf' & He').
  exists t'. split_and!; try done. pose proof (proj1 Hwf') as Hs'.
  apply map_eq. intros k. apply option_eq. intros z.
  rewrite to_map_elem, lookup_delete by done. rewrite He', elem_of_app.
  unfold search_tree, keys in Hs. rewrite He, fmap_app, fmap_cons, sortedZ_app in Hs.
  simpl in Hs. destruct Hs as (_ & (Ha & _) & Hb).
  rewrite Forall_fmap, Forall_forall in Ha. rewrite Forall_fmap, Forall_forall in Hb.
  case_decide as Hkz.
  - split; [|done]. intros [[Hz|Hz] <-].
    + specialize (Hb _ Hz). simpl in Hb. apply Forall_cons in Hb as [? _]. lia.
    + specialize (Ha _ Hz). simpl in Ha. lia.
  - rewrite to_map_elem by apply Hwf. rewrite He, elem_of_app, elem_of_cons. naive_solver.
Qed.

(** The loop of [RB_FOREACH]: [for (x = RB_MIN; x; x = RB_NEXT(x))]. *)
Fixpoint rb_foreach (fuel : nat) t (o : option A) : option (list A) :=
  match o, fuel with
  | None, _ => Some []
  | Some x, O => None
  | Some x, S n =>
      match rb_foreach n t (RB_NEXT key t (key x)) with
      | Some xs => Some (x :: xs)
      | None => None
      end
  end.
Definition RB_FOREACH (fuel : nat) t : option (list A) := rb_foreach fuel t (RB_MIN t).

Lemma rb_foreach_tail t (l1 l2 : list A) n :
  search_tree key t -> elements t = l1 ++ l2 -> (length l2 <= n)%nat ->
  rb_foreach n t (head l2) = Some l2.
Proof.
  intros Hs. revert l1 l2. induction n as [|n IH]; intros l1 [|x l2] He Hn;
    simpl in *; try done; [lia|].
  rewrite (RB_NEXT_succ key t l1 l2 x Hs He).
  by rewrite (IH (l1 ++ [x]) l2); [| rewrite <- app_assoc | lia].
Qed.

(** C31: iterating with [RB_MIN] and [RB_NEXT] ends after as many steps as
    the tree has elements, and visits each of them once, in strictly
    ascending order of key. *)
Theorem rb_foreach_sorted t :
  wf key t ->
  exists xs, RB_FOREACH (rb_size t) t = Some xs /\ sortedZ (key <$> xs) /\
    forall k x, to_map key t !! k = Some x <-> x ∈ xs /\ key x = k.
Proof.
  intros [Hs _]. exists (elements t). unfold RB_FOREACH.
  rewrite RB_MIN_head. split_and!; [|done|intros; by apply to_map_elem].
  by apply (rb_foreach_tail t [] (elements t)).
Qed.

Lemma rb_size_node c l x r :
  rb_size (Node c l x r) = S (@rb_size A l + rb_size r).
Proof. unfold rb_size. simpl. rewrite length_app. simpl. lia. Qed.

Lemma rb_size_lower c h t : rb c h t -> (2 ^ h <= S (rb_size t))%nat.
Proof.
  induction 1 as [c|h l x r _ IHl _ IHr|c h l x r _ IHl _ IHr].
  - simpl. lia.
  - rewrite rb_size_node. lia.
  - rewrite rb_size_node, Nat.pow_succ_r'. lia.
Qed.

Lemma rb_height_upper c h t :
  rb c h t -> (height t <= 2 * h + match c with RB_RED => 0 | RB_BLACK => 1 end)%nat.
Proof.
  induction 1 as [c|h l x r _ IHl _ IHr|c h l x r _ IHl _ IHr]; simpl in *.
  - lia.
  - lia.
  - destruct c; lia.
Qed.

Lemma rb_wf_height t : wf key t -> (height t <= 2 * Nat.log2 (S (rb_size t)))%nat.
Proof.
  intros [_ [h Hrb]]. pose proof (rb_height_upper _ _ _ Hrb) as Hh. simpl in Hh.
  pose proof (Nat.log2_le_mono _ _ (rb_size_lower _ _ _ Hrb)) as Hl.
  rewrite Nat.log2_pow2 in Hl by lia. lia.
Qed.

(** A use of the tree: [RB_INSERT] of an element, or [RB_REMOVE] of the element with a
    key where [RB_FIND] finds one. *)
Inductive rb_op := rb_ins (x : A) | rb_del (k : Z).

Definition rb_apply (t : tree A) (o : rb_op) : option (tree A) :=
  match o with
  | rb_ins x => snd <$> RB_INSERT key t x
  | rb_del k => match RB_FIND key t k with Some _ => RB_REMOVE key t k | None => Some t end
  end.

Fixpoint rb_run (t : tree A) (ops : list rb_op) : option (tree A) :=
  match ops with
  | [] => Some t
  | o :: ops => match rb_apply t o with Some t' => rb_run t' ops | None => None end
  end.

Lemma rb_apply_wf t o : wf key t -> exists t', rb_apply t o = Some t' /\ wf key t'.
Proof.
  intros Hwf. destruct o as [x|k]; simpl.
  - destruct (RB_FIND key t (key x)) as [y|] eqn:Hf.
    + rewrite (RB_INSERT_dup key t x y Hf). eauto.
    + destruct (RB_INSERT_wf t x Hwf Hf) as (t' & ? & ? & -> & ? & _). eauto.
  - destruct (RB_FIND key t k) as [x|] eqn:Hf; [|eauto]. pose proof (proj1 Hwf) as Hs.
    rewrite <- (to_map_lookup key t) in Hf by done. apply to_map_elem in Hf as [Hin <-]; [|done].
    apply list_elem_of_split in Hin as (l1 & l2 & He).
    destruct (RB_REMOVE_wf t l1 l2 x Hwf He) as (t' & Hr & Hwf' & _). eauto.
Qed.

(** C32: whatever sequence of [RB_INSERT] and [RB_REMOVE] is run from the empty tree, no
    operation gets stuck and the tree it ends with is balanced: with [n] elements its
    height, and so the path any lookup follows, is at most [2 lg (n + 1)], the bound
    tree.h documents. *)
Theorem rb_height_bound ops :
  exists t, rb_run NULL ops = Some t /\ (height t <= 2 * Nat.log2 (S (rb_size t)))%nat.
Proof.
  cut (forall t, wf key t -> exists t', rb_run t ops = Some t' /\ wf key t').
  { intros Hrun. destruct (Hrun NULL wf_empty) as (t & Ht & Hwf). exists t. split; [done|]. by apply rb_wf_height. }
  induction ops as [|o ops IH]; intros t Hwf; simpl; [eauto|].
  destruct (rb_apply_wf t o Hwf) as (t' & -> & Hwf'). by apply IH.
Qed.
End Refinement.
Arguments rb_ins {A} x.
Arguments rb_del {A} k.

(** ** Witnesses: a concrete tree of integers *)

Definition rb_of_list (l : list Z) : tree Z :=
  foldl (fun t x => match RB_INSERT id t x with Some (_, t') => t' | None => t end) NULL l.

Lemma rb_of_list_wf l : wf id (rb_of_list l).
Proof.
  unfold rb_of_list. cut (forall t : tree Z, wf id t ->
    wf id (foldl (fun t x => match RB_INSERT id t x with Some (_, t') => t' | None => t end) t l)).
  { intros H. apply H, wf_empty. }
  induction l as [|x l IH]; intros t Ht; simpl; [done|]. apply IH.
  destruct (RB_FIND id t x) as [y|] eqn:Hf.
  - by rewrite (RB_INSERT_dup id t x y Hf).
  - by destruct (RB_INSERT_wf id t x Ht Hf) as (t' & ? & ? & -> & ? & _).
Qed.

Definition rb_example : tree Z := rb_of_list [5; 2; 8; 1; 9; 3; 7; 4; 6].

Lemma rb_insert_refines_witness :
  wf id rb_example /\
  exists r t', RB_INSERT id rb_example 10 = Some (r, t') /\ wf id t' /\
    r = to_map id rb_example !! 10 /\
    to_map id t' = match r with
                   | Some _ => to_map id rb_example
                   | None => <[10 := 10]> (to_map id rb_example)
                   end.
Proof.
  split; [apply rb_of_list_wf|]. apply (rb_insert_refines id rb_example 10), rb_of_list_wf.
Defined.

Lemma rb_remove_refines_witness :
  exists t', RB_REMOVE id rb_example 5 = Some t' /\ wf id t' /\
    to_map id t' = delete 5 (to_map id rb_example).
Proof.
  apply (rb_remove_refines id rb_example 5 5); [apply rb_of_list_wf|vm_compute; reflexivity].
Defined.

Lemma rb_foreach_sorted_witness :
  exists xs, RB_FOREACH id (rb_size rb_example) rb_example = Some xs /\
    sortedZ (id <$> xs) /\
    forall k x, to_map id rb_example !! k = Some x <-> x ∈ xs /\ id x = k.
Proof. apply (rb_foreach_sorted id rb_example), rb_of_list_wf. Defined.

(** Ten insertions in ascending order and three removals. *)
Example rb_run_example :
  (fun t => (elements t, height t)) <$> rb_run id NULL
    ((rb_ins <$> [1; 2; 3; 4; 5; 6; 7; 8; 9; 10]) ++ (rb_del <$> [4; 1; 20])) =
  Some ([2; 3; 5; 6; 7; 8; 9; 10], 4%nat).
Proof. vm_compute. reflexivity. Qed.

Example rb_example_sorted : elements rb_example = [1; 2; 3; 4; 5; 6; 7; 8; 9].
Proof. vm_compute. reflexivity. Qed.
