(* ===== verification/Event.v ===== *)
(** * The public event structure and its constants

    [struct kevent] and the flag values of include/sys/event.h.in, the internal
    knote flags and flag macros of src/common/private.h, and the errno values
    the library stores.  Every field is the value C keeps in it: [ident] an
    unsigned 64-bit word, [filter] a 16-bit signed number, [flags] and [fflags]
    unsigned words of 16 and 32 bits, [data] a signed 64-bit word, and [udata]
    an opaque pointer. *)

From Stdlib Require Import ZArith Lia Bool.
From stdpp Require Import base list.
From S2P Require Import Prelude.

Record kevent := Kevent
  { ident : Z; filter_ : Z; flags : Z; fflags : Z; data : Z; udata : Z }.

#[export] Instance kevent_eq_dec : EqDecision kevent.
Proof. solve_decision. Defined.

Definition set_filter_ (v : Z) (k : kevent) : kevent :=
  Kevent (ident k) v (flags k) (fflags k) (data k) (udata k).
Definition set_flags (v : Z) (k : kevent) : kevent :=
  Kevent (ident k) (filter_ k) v (fflags k) (data k) (udata k).
Definition set_fflags (v : Z) (k : kevent) : kevent :=
  Kevent (ident k) (filter_ k) (flags k) v (data k) (udata k).
Definition set_data (v : Z) (k : kevent) : kevent :=
  Kevent (ident k) (filter_ k) (flags k) (fflags k) v (udata k).
Definition set_udata (v : Z) (k : kevent) : kevent :=
  Kevent (ident k) (filter_ k) (flags k) (fflags k) (data k) v.

(** A zeroed [struct kevent]. *)
Definition kevent_zero : kevent := Kevent 0 0 0 0 0 0.

(** ** Filters *)
Definition EVFILT_READ : Z := -1.
Definition EVFILT_WRITE : Z := -2.
Definition EVFILT_AIO : Z := -3.
Definition EVFILT_VNODE : Z := -4.
Definition EVFILT_PROC : Z := -5.
Definition EVFILT_SIGNAL : Z := -6.
Definition EVFILT_TIMER : Z := -7.
Definition EVFILT_NETDEV : Z := -8.
Definition EVFILT_FS : Z := -9.
Definition EVFILT_LIO : Z := -10.
Definition EVFILT_USER : Z := -11.
Definition EVFILT_LIBKQUEUE : Z := -12.
Definition EVFILT_SYSCOUNT : Z := 12.

(** ** Actions and flags *)
Definition EV_ADD : Z := 0x0001.
Definition EV_DELETE : Z := 0x0002.
Definition EV_ENABLE : Z := 0x0004.
Definition EV_DISABLE : Z := 0x0008.
Definition EV_ONESHOT : Z := 0x0010.
Definition EV_CLEAR : Z := 0x0020.
Definition EV_RECEIPT : Z := 0x0040.
Definition EV_DISPATCH : Z := 0x0080.
Definition EV_EOF : Z := 0x8000.
Definition EV_ERROR : Z := 0x4000.

(** ** Filter flags *)
Definition NOTE_FFNOP : Z := 0x00000000.
Definition NOTE_FFAND : Z := 0x40000000.
Definition NOTE_FFOR : Z := 0x80000000.
Definition NOTE_FFCOPY : Z := 0xc0000000.
Definition NOTE_FFCTRLMASK : Z := 0xc0000000.
Definition NOTE_FFLAGSMASK : Z := 0x00ffffff.
Definition NOTE_TRIGGER : Z := 0x01000000.
Definition NOTE_LOWAT : Z := 0x0001.
Definition NOTE_DELETE : Z := 0x0001.
Definition NOTE_WRITE : Z := 0x0002.
Definition NOTE_EXTEND : Z := 0x0004.
Definition NOTE_ATTRIB : Z := 0x0008.
Definition NOTE_LINK : Z := 0x0010.
Definition NOTE_RENAME : Z := 0x0020.
Definition NOTE_TRUNCATE : Z := 0x0080.
Definition NOTE_EXIT : Z := 0x80000000.
Definition NOTE_FORK : Z := 0x40000000.
Definition NOTE_EXEC : Z := 0x20000000.
Definition NOTE_SECONDS : Z := 0x0001.
Definition NOTE_USECONDS : Z := 0x0002.
Definition NOTE_NSECONDS : Z := 0x0004.
Definition NOTE_ABSOLUTE : Z := 0x0008.
Definition NOTE_VERSION : Z := 0x0001.
Definition NOTE_VERSION_STR : Z := 0x0002.
Definition NOTE_THREAD_SAFE : Z := 0x0003.
Definition NOTE_FORK_CLEANUP : Z := 0x0004.
Definition NOTE_DEBUG : Z := 0x0005.
Definition NOTE_DEBUG_PREFIX : Z := 0x0006.
Definition NOTE_DEBUG_FUNC : Z := 0x0007.
Definition NOTE_FILE_POLL_INTERVAL : Z := 0x0008.

(** ** Knote flags *)
Definition KNFL_FILE : Z := 1.
Definition KNFL_PIPE : Z := 2.
Definition KNFL_BLOCKDEV : Z := 4.
Definition KNFL_CHARDEV : Z := 8.
Definition KNFL_SOCKET_PASSIVE : Z := 16.
Definition KNFL_SOCKET_STREAM : Z := 32.
Definition KNFL_SOCKET_DGRAM : Z := 64.
Definition KNFL_SOCKET_RDM : Z := 128.
Definition KNFL_SOCKET_SEQPACKET : Z := 256.
Definition KNFL_SOCKET_RAW : Z := 512.
Definition KNFL_ALWAYS_READY_BUMPED : Z := 1024.
Definition KNFL_KNOTE_DELETED : Z := 2147483648.
Definition KNFL_SOCKET : Z :=
  Z.lor KNFL_SOCKET_STREAM (Z.lor KNFL_SOCKET_DGRAM (Z.lor KNFL_SOCKET_RDM
    (Z.lor KNFL_SOCKET_SEQPACKET KNFL_SOCKET_RAW))).

Definition MAX_KEVENT : Z := 512.

(** ** errno (Linux) *)
Definition ENOENT : Z := 2.
Definition ESRCH : Z := 3.
Definition EINTR : Z := 4.
Definition EIO : Z := 5.
Definition EBADF : Z := 9.
Definition ECHILD : Z := 10.
Definition EAGAIN : Z := 11.
Definition ENOMEM : Z := 12.
Definition EFAULT : Z := 14.
Definition EEXIST : Z := 17.
Definition EINVAL : Z := 22.
Definition ENFILE : Z := 23.
Definition EMFILE : Z := 24.
Definition ENOSYS : Z := 38.
Definition ENOTSOCK : Z := 88.
Definition ENOTCONN : Z := 107.

(** [COPY_FLAGS_BIT(dst, src, flag)] *)
Definition COPY_FLAGS_BIT (dst src : kevent) (flag : Z) : kevent :=
  set_flags (Z.lor (clrb (flags dst) flag) (Z.land (flags src) flag)) dst.

Lemma COPY_FLAGS_BIT_has dst src f :
  has (flags (COPY_FLAGS_BIT dst src f)) f = has (flags src) f.
Proof.
  unfold COPY_FLAGS_BIT; simpl. change (Z.lor ?a ?b) with (setb a b).
  rewrite has_setb, has_clrb_same. unfold has. simpl. do 2 f_equal.
  by rewrite <- Z.land_assoc, Z.land_diag.
Qed.
