(* ===== verification/Map.v ===== *)
(** * The descriptor map of src/common/map.c

    [struct map] is an array of [len] atomic words, all NULL at first, indexed
    by a C [int].  A word is modelled by the absence or presence of its index in
    [mdata]; [slot] and [set_slot] are the array accesses and fault when the
    index is outside the array.  A compare-and-swap is one atomic step. *)

From Stdlib Require Import ZArith Lia Bool.
From stdpp Require Import base list gmap.
From S2P Require Import Prelude.

(** Pointers to heap objects; NULL is [None]. *)
Abbreviation ptr := positive (only parsing).

Record map := Map { len : Z; mdata : gmap Z ptr }.

(** [calloc_ok] and [mmap_ok]: whether the two allocations succeed. *)
Definition map_new (calloc_ok mmap_ok : bool) (n : Z) : option map :=
  if negb calloc_ok then None
  else if negb mmap_ok then None
  else Some (Map n ∅).

Definition MAP_IDX_OOB (m : map) (idx : Z) : bool := (idx <? 0) || (len m <=? u64 idx).

Definition in_array (m : map) (idx : Z) : bool := (0 <=? idx) && (idx <? len m).

Definition slot (idx : Z) : M map (option ptr) :=
  let! m := gets id in
  if in_array m idx then ret (mdata m !! idx) else fail BadAddress.

Definition set_slot (idx : Z) (v : option ptr) : M map unit :=
  let! m := gets id in
  if in_array m idx
  then modify (fun m => Map (len m) (partial_alter (fun _ => v) idx (mdata m)))
  else fail BadAddress.

(** [atomic_ptr_cas(&m->data[idx], oval, nval)] *)
Definition atomic_ptr_cas (idx : Z) (oval nval : option ptr) : M map bool :=
  let! cur := slot idx in
  if decide (cur = oval) then set_slot idx nval ;;; ret true else ret false.

Definition map_insert (idx : Z) (p : ptr) : M map Z :=
  let! m := gets id in
  if MAP_IDX_OOB m idx then ret (-1) else
  let! b := atomic_ptr_cas idx None (Some p) in
  ret (if b then 0 else -1).

Definition map_remove (idx : Z) (p : ptr) : M map Z :=
  let! m := gets id in
  if MAP_IDX_OOB m idx then ret (-1) else
  let! b := atomic_ptr_cas idx (Some p) None in
  ret (if b then 0 else -1).

(** The bounds test of this one is [idx < 0 || idx > (int)m->len]. *)
Definition map_replace (idx : Z) (oldp newp : option ptr) : M map Z :=
  let! m := gets id in
  if (idx <? 0) || (s32 (len m) <? idx) then ret (-1) else
  let! b := atomic_ptr_cas idx oldp newp in
  ret (if b then 0 else -1).

Definition map_lookup (idx : Z) : M map (option ptr) :=
  let! m := gets id in
  if MAP_IDX_OOB m idx then ret None else slot idx.

(** [inl tt] is the [(void * )-1] returned for an index out of range. *)
Definition map_delete (idx : Z) : M map (unit + option ptr) :=
  let! m := gets id in
  if MAP_IDX_OOB m idx then ret (inl tt) else
  let! old := slot idx in
  set_slot idx None ;;; ret (inr old).

(** An [int] index. *)
Definition is_int (z : Z) : Prop := - 2 ^ 31 <= z < 2 ^ 31.

Section Facts.
Implicit Types (m : map) (p : ptr).

Lemma u64_int idx : is_int idx -> 0 <= idx -> u64 idx = idx.
Proof. unfold is_int, u64. intros. apply Z.mod_small. lia. Qed.

Lemma MAP_IDX_OOB_spec m idx : is_int idx -> MAP_IDX_OOB m idx = negb (in_array m idx).
Proof.
  intros Hi. unfold MAP_IDX_OOB, in_array.
  destruct (Z.ltb_spec idx 0), (Z.leb_spec 0 idx); simpl; try lia.
  rewrite u64_int by done. destruct (Z.leb_spec (len m) idx), (Z.ltb_spec idx (len m)); lia.
Qed.

Lemma map_lookup_run m idx :
  is_int idx ->
  map_lookup idx m = Ret (if in_array m idx then mdata m !! idx else None) m.
Proof.
  intros Hi. unfold map_lookup, bind, gets, slot, id.
  rewrite MAP_IDX_OOB_spec by done. destruct (in_array m idx) eqn:E; simpl; [|done].
  unfold bind, gets, id. by rewrite E.
Qed.

Lemma map_insert_run m idx p :
  is_int idx ->
  map_insert idx p m =
    if in_array m idx then
      match mdata m !! idx with
      | None => Ret 0 (Map (len m) (<[idx := p]> (mdata m)))
      | Some _ => Ret (-1) m
      end
    else Ret (-1) m.
Proof.
  intros Hi. unfold map_insert, bind, gets, id.
  rewrite MAP_IDX_OOB_spec by done.
  destruct (in_array m idx) eqn:E; simpl; [|done].
  unfold atomic_ptr_cas, slot, set_slot, bind, gets, id. rewrite E.
  unfold ret. destruct (mdata m !! idx) eqn:El; simpl; [done|].
  by rewrite E.
Qed.

Lemma map_remove_run m idx p :
  is_int idx ->
  map_remove idx p m =
    if in_array m idx && bool_decide (mdata m !! idx = Some p)
    then Ret 0 (Map (len m) (delete idx (mdata m)))
    else Ret (-1) m.
Proof.
  intros Hi. unfold map_remove, bind, gets, id.
  rewrite MAP_IDX_OOB_spec by done.
  destruct (in_array m idx) eqn:E; simpl; [|done].
  unfold atomic_ptr_cas, slot, set_slot, bind, gets, id. rewrite E.
  unfold ret. case_decide as Hd; simpl.
  - rewrite bool_decide_eq_true_2 by done. by rewrite E.
  - by rewrite bool_decide_eq_false_2.
Qed.

Lemma map_delete_run m idx :
  is_int idx ->
  map_delete idx m =
    if in_array m idx
    then Ret (inr (mdata m !! idx)) (Map (len m) (delete idx (mdata m)))
    else Ret (inl tt) m.
Proof.
  intros Hi. unfold map_delete, bind, gets, id.
  rewrite MAP_IDX_OOB_spec by done.
  destruct (in_array m idx) eqn:E; simpl; [|done].
  unfold slot, set_slot, bind, gets, id, ret. rewrite E. simpl. by rewrite E.
Qed.
End Facts.

(** C35: with any [int] index, insertion, removal, deletion and lookup stay
    inside the array; an insertion succeeds exactly when the slot is in range
    and empty, a removal exactly when the slot holds that very pointer, a
    failed one changes nothing, and after a successful one a lookup of any
    index sees exactly that change. *)
Theorem map_ops_spec (m : map) (idx j : Z) (p : ptr) :
  is_int idx -> is_int j ->
  wp (map_insert idx p) (fun r m' =>
      (r = 0 <-> in_array m idx = true /\ mdata m !! idx = None) /\
      (r <> 0 -> r = -1 /\ m' = m) /\
      wp (map_lookup j) (fun v _ =>
        v = (if (r =? 0) && (j =? idx) then Some p
             else if in_array m j then mdata m !! j else None)) m') m /\
  wp (map_remove idx p) (fun r m' =>
      (r = 0 <-> in_array m idx = true /\ mdata m !! idx = Some p) /\
      (r <> 0 -> r = -1 /\ m' = m) /\
      wp (map_lookup j) (fun v _ =>
        v = (if (r =? 0) && (j =? idx) then None
             else if in_array m j then mdata m !! j else None)) m') m /\
  wp (map_delete idx) (fun r m' =>
      r = (if in_array m idx then inr (mdata m !! idx) else inl tt) /\
      wp (map_lookup j) (fun v _ =>
        v = (if j =? idx then None
             else if in_array m j then mdata m !! j else None)) m') m.
Proof.
  intros Hi Hj. unfold wp. rewrite map_insert_run, map_remove_run, map_delete_run by done.
  destruct (in_array m idx) eqn:E; simpl.
  2: { rewrite map_lookup_run by done. split_and!; try done; try naive_solver.
       destruct (Z.eqb_spec j idx); [subst; by rewrite E|done]. }
  assert (Hin : forall d, in_array (Map (len m) d) j = in_array m j) by done.
  split_and!.
  - destruct (mdata m !! idx) eqn:El; rewrite map_lookup_run by done.
    + split_and!; naive_solver.
    + split_and!; try naive_solver. rewrite Hin. simpl.
      destruct (Z.eqb_spec j idx); [subst; by rewrite E, lookup_insert_eq|].
      by rewrite lookup_insert_ne.
  - case_bool_decide; rewrite map_lookup_run by done; split_and!; try naive_solver.
    rewrite Hin. simpl. destruct (Z.eqb_spec j idx).
    + subst. by rewrite lookup_delete_eq, E.
    + by rewrite lookup_delete_ne.
  - done.
  - rewrite map_lookup_run by done. rewrite Hin. simpl. destruct (Z.eqb_spec j idx).
    + subst. by rewrite lookup_delete_eq, E.
    + by rewrite lookup_delete_ne.
Qed.

Lemma map_ops_spec_witness :
  let m := Map 16 {[ 3 := 7%positive ]} in
  is_int 5 /\ is_int 3 /\
  wp (map_insert 5 9%positive) (fun r m' => r = 0 /\
     wp (map_lookup 3) (fun v _ => v = Some 7%positive) m') m.
Proof.
  simpl. split; [unfold is_int; lia|]. split; [unfold is_int; lia|].
  eapply wp_mono; [|apply (map_ops_spec (Map 16 {[ 3 := 7%positive ]}) 5 3 9);
    unfold is_int; lia].
  intros r m' (Hr & _ & Hl). assert (r = 0) as -> by (apply Hr; split; vm_compute; reflexivity).
  split; [done|]. eapply wp_mono; [|exact Hl]. intros v s ->. vm_compute. reflexivity.
Defined.

(** C36: [map_replace] is a compare-and-swap at an index of the array whose length fits
    an [int]: it stores [newp] and returns 0 when the slot holds [oldp], and otherwise
    returns -1 and changes nothing.  But it does not bound its index the way the other
    operations do: at the index equal to the length it accesses the word behind the
    array (a fault), and when the length does not fit in an [int] it rejects every
    index, although the array has the slot. *)
Theorem map_replace_bounds (m : map) (oldp newp : option ptr) :
  (is_int (len m) -> forall idx, 0 <= idx < len m -> map_replace idx oldp newp m =
     if bool_decide (mdata m !! idx = oldp) then
       Ret 0 (Map (len m) (match newp with Some p => <[idx := p]> (mdata m) | None => delete idx (mdata m) end))
     else Ret (-1) m) /\
  (is_int (len m) -> 0 <= len m -> map_replace (len m) oldp newp m = Fault BadAddress) /\
  (2 ^ 31 <= len m < 2 ^ 32 ->
   forall idx, 0 <= idx -> map_replace idx oldp newp m = Ret (-1) m).
Proof.
  unfold map_replace, bind, gets, id. split_and!.
  - intros Hi idx Hx. assert (E : s32 (len m) = len m)
      by (apply signed_id; [lia|]; unfold is_int in Hi; simpl; lia). rewrite E.
    destruct (Z.ltb_spec idx 0); [lia|]. destruct (Z.ltb_spec (len m) idx); [lia|]. simpl.
    assert (Ha : in_array m idx = true) by (unfold in_array; lia).
    unfold atomic_ptr_cas, slot, set_slot, bind, gets, id. rewrite Ha. unfold ret.
    case_decide as Hd; [rewrite bool_decide_eq_true_2 by done|by rewrite bool_decide_eq_false_2].
    rewrite Ha. by destruct newp.
  - intros Hi Hl. assert (E : s32 (len m) = len m)
      by (apply signed_id; [lia|]; unfold is_int in Hi; simpl; lia).
    rewrite E, Z.ltb_irrefl. destruct (Z.ltb_spec (len m) 0); [lia|]. simpl.
    unfold atomic_ptr_cas, slot, bind, gets, id, in_array.
    by rewrite Z.ltb_irrefl, andb_false_r.
  - intros Hl idx Hidx.
    assert (s32 (len m) < 0).
    { unfold s32, signed. change (2 ^ (32 - 1)) with (2 ^ 31).
      replace (len m + 2 ^ 31) with ((len m - 2 ^ 31) + 1 * 2 ^ 32) by lia.
      rewrite Z.mod_add by lia. rewrite Z.mod_small by lia. lia. }
    destruct (Z.ltb_spec idx 0); [lia|]. destruct (Z.ltb_spec (s32 (len m)) idx); [done|lia].
Qed.

Lemma map_replace_bounds_witness :
  map_replace 3 (Some 7%positive) (Some 9%positive) (Map 4 {[3 := 7%positive]}) = Ret 0 (Map 4 {[3 := 9%positive]}) /\
  map_replace 4 None (Some 1%positive) (Map 4 ∅) = Fault BadAddress /\
  map_replace 0 None (Some 1%positive) (Map (2 ^ 32 - 1) ∅) = Ret (-1) (Map (2 ^ 32 - 1) ∅).
Proof.
  split_and!.
  - rewrite (proj1 (map_replace_bounds (Map 4 {[3 := 7%positive]}) (Some 7%positive) (Some 9%positive)));
      [vm_compute; reflexivity|unfold is_int; simpl; lia|simpl; lia].
  - apply (map_replace_bounds (Map 4 ∅) None (Some 1%positive)); unfold is_int; simpl; lia.
  - apply (map_replace_bounds (Map (2 ^ 32 - 1) ∅) None (Some 1%positive)); simpl; lia.
Defined.
