(* ===== verification/State.v ===== *)
(** * The state of the library, and the kernel below it

    The structures of src/common/private.h and src/linux/platform.h as records,
    a heap for each kind of object (a pointer is a key of it, a freed object is
    absent), and the process state [world].  The operating system is a
    parameter: [syscall] lists the calls the sources make with the type of what
    they deliver, and a kernel is an instance of [OS], a function that answers a
    call with a result or an errno and a new kernel state.  The allocator is
    modelled here: [alloc] asks the kernel whether memory is left and returns an
    address that was never used before. *)

From Stdlib Require Import ZArith Lia Bool.
From stdpp Require Import base list gmap.
From S2P Require Import Prelude RBTree Event Map.

(** ** System calls *)

Inductive epoll_op := EPOLL_CTL_ADD | EPOLL_CTL_DEL | EPOLL_CTL_MOD.
#[export] Instance epoll_op_eq_dec : EqDecision epoll_op.
Proof. solve_decision. Defined.

Definition EPOLLIN : Z := 0x001.
Definition EPOLLPRI : Z := 0x002.
Definition EPOLLOUT : Z := 0x004.
Definition EPOLLERR : Z := 0x008.
Definition EPOLLHUP : Z := 0x010.
Definition EPOLLRDHUP : Z := 0x2000.
Definition EPOLLONESHOT : Z := 0x40000000.
Definition EPOLLET : Z := 0x80000000.

(** Constants of the system interface (Linux). *)
Definition CLOCK_REALTIME : Z := 0.
Definition CLOCK_MONOTONIC : Z := 1.
Definition S_IFMT : Z := 0xf000.
Definition S_IFIFO : Z := 0x1000.
Definition S_IFCHR : Z := 0x2000.
Definition S_IFDIR : Z := 0x4000.
Definition S_IFBLK : Z := 0x6000.
Definition S_IFREG : Z := 0x8000.
Definition S_IFSOCK : Z := 0xc000.
Definition SOCK_STREAM : Z := 1.
Definition SOCK_DGRAM : Z := 2.
Definition SOCK_RAW : Z := 3.
Definition SOCK_RDM : Z := 4.
Definition SOCK_SEQPACKET : Z := 5.
Definition SO_TYPE : Z := 3.
Definition SO_ERROR : Z := 4.
Definition SO_RCVLOWAT : Z := 18.
Definition SO_ACCEPTCONN : Z := 30.
Definition FIONREAD : Z := 0x541b.
Definition CLD_EXITED : Z := 1.
Definition CLD_KILLED : Z := 2.
Definition CLD_DUMPED : Z := 3.
Definition WNOHANG : Z := 1.
Definition WEXITED : Z := 4.
Definition WNOWAIT : Z := 0x1000000.
Definition F_SETFD : Z := 2.
Definition F_GETFL : Z := 3.
Definition F_SETFL : Z := 4.
Definition FD_CLOEXEC : Z := 1.
Definition O_NONBLOCK : Z := 0x800.
Definition FD_SETSIZE : Z := 1024.
Definition SIGCHLD : Z := 17.

(** [struct epoll_event]: the mask and [data.ptr]. *)
Record epoll_event := EpollEvent { ev_events : Z; ev_ptr : option ptr }.

(** [struct itimerspec]: interval and first expiry, seconds and nanoseconds. *)
Record itimerspec := Itimerspec
  { it_interval_sec : Z; it_interval_nsec : Z; it_value_sec : Z; it_value_nsec : Z }.

Record timespec := Timespec { tv_sec : Z; tv_nsec : Z }.

(** The fields of [struct stat] and [siginfo_t] that are read. *)
Record stat := Stat { st_mode : Z; st_nlink : Z; st_size : Z; st_ctim : timespec }.
Record siginfo := Siginfo { si_pid : Z; si_code : Z; si_status : Z }.

(** Event ports (solaris): the object a source is watched for, an fd or the [fobj] of
    the knote [kn]; the user pointer, which is a udata or a filter; and the event. *)
Inductive port_object := ObjFd (fd : Z) | ObjFile (kn : ptr) (fo_name : option Z) (times : option stat).
Inductive port_user := PuNull | PuUdata (u : ptr) | PuFilter (kq : ptr) (slot : nat).
Record port_event := PortEvent
  { portev_source : Z; portev_events : Z; portev_object : Z; portev_user : port_user }.

(** Completion ports (windows): the [OVERLAPPED *] of a completion is NULL, a knote that
    was posted, the [pipe_ov] of a knote or the [kq_close_ov] of a kqueue; [struct
    event_buf] is a dequeued completion. *)
Inductive overlapped := OvNull | OvKnote (kn : ptr) | OvPipe (kn : ptr) | OvClose (kq : ptr).
#[export] Instance overlapped_eq_dec : EqDecision overlapped.
Proof. solve_decision. Defined.
Record event_buf := EventBuf { io_bytes : Z; io_key : Z; io_overlap : overlapped }.

(** The callbacks that are given to the thread pool, each with its knote. *)
Inductive wait_callback := WaitRead | WaitWrite | WaitVnode | WaitProc | WaitSignal | WaitTimer.
#[export] Instance wait_callback_eq_dec : EqDecision wait_callback.
Proof. solve_decision. Defined.

(** The members of [BY_HANDLE_FILE_INFORMATION] that are read; a wide string. *)
Record file_info := FileInfo { fi_size : Z; fi_attrs : Z; fi_nlink : Z; fi_mtime : Z }.
#[export] Instance file_info_eq_dec : EqDecision file_info.
Proof. solve_decision. Defined.
Definition wstring : Type := list Z.

(** What the [void *] argument of a filter's copyout points to. *)
Inductive raw_event :=
  NoEvent | EvEpoll (ev : epoll_event) | EvPort (ev : port_event) | EvIocp (ev : event_buf).

Inductive syscall : Type -> Type :=
  | SysAlloc : syscall unit                                  (** calloc, malloc *)
  | SysEpollCreate : syscall Z
  | SysEpollCtl (epfd : Z) (op : epoll_op) (fd : Z) (ev : option epoll_event) : syscall unit
  | SysEpollWait (epfd maxevents timeout : Z) : syscall (list epoll_event)
  | SysPpoll (fd : Z) (ts : timespec) : syscall Z
  | SysEventfd (init flags : Z) : syscall Z
  | SysRead8 (fd : Z) : syscall (Z * Z)                      (** bytes read, value *)
  | SysWrite8 (fd value : Z) : syscall Z
  | SysRead (fd n : Z) : syscall Z                           (** bytes read of n *)
  | SysWrite (fd n : Z) : syscall Z                          (** bytes written *)
  | SysClose (fd : Z) : syscall unit
  | SysPipe2 : syscall (Z * Z)
  | SysFcntl (fd cmd arg : Z) : syscall Z
  | SysTimerfdCreate (clockid flags : Z) : syscall Z
  | SysTimerfdSettime (fd flags : Z) (ts : itimerspec) : syscall unit
  | SysFstat (fd : Z) : syscall stat
  | SysLseek (fd : Z) : syscall Z
  | SysIoctl (fd req : Z) : syscall Z                        (** the int stored *)
  | SysGetsockopt (fd opt : Z) : syscall Z
  | SysSetsockopt (fd opt val : Z) : syscall unit
  | SysFdPath (fd : Z) : syscall Z                           (** readlink /proc: path id *)
  | SysInotifyInit (flags : Z) : syscall Z
  | SysInotifyAdd (ifd path mask : Z) : syscall Z
  | SysInotifyRm (ifd wd : Z) : syscall unit
  | SysInotifyRead (ifd want : Z) : syscall Z                (** the mask of one event *)
  | SysPidfdOpen (pid : Z) : syscall Z
  | SysWaitid (pid options : Z) : syscall siginfo
  | SysGetrlimit : syscall (option Z)                        (** rlim_max, None = infinity *)
  | SysPthreadCreate : syscall Z                             (** the tid published *)
  | SysPthreadJoin (thread : Z) : syscall unit
  | SysSocketpair : syscall (Z * Z)
  | SysSigmaskBlock (set : gset Z) : syscall unit
  | SysSigtimedwait (set : gset Z) : syscall Z               (** the signal taken *)
  | SysSignalfd (fd : Z) (set : gset Z) (flags : Z) : syscall Z
  | SysSelect (fd1 fd2 : Z) : syscall (bool * bool)          (** which are readable *)
  | SysSiginfoRead (fd max : Z) : syscall (Z * list Z)       (** bytes read, ssi_signo *)
  | SysPipe : syscall (Z * Z)
  | SysClockGettime (clockid : Z) : syscall timespec
  | SysSchedYield : syscall unit
  | SysPselect (nfds : Z) (rfds wfds : gset Z) (timeout : option timespec)
      : syscall (Z * gset Z * gset Z)                        (** count, the sets left *)
  | SysRecvPeek (fd : Z) : syscall Z                         (** recv of 1, MSG_PEEK *)
  | SysKill (pid : Z) : syscall unit                         (** signal 0 *)
  | SysPthreadCancel (thread : Z) : syscall unit
  | SysPortCreate : syscall Z
  | SysPortAssociate (port source : Z) (obj : port_object) (events : Z) (user : port_user) : syscall unit
  | SysPortDissociate (port source : Z) (obj : port_object) : syscall unit
  | SysPortGetn (port max nget : Z) (timeout : option timespec) : syscall (list port_event)
  | SysPortSend (port events : Z) (user : port_user) : syscall unit
  | SysPortAlert (port flags : Z) : syscall unit
  | SysTimerCreate (clockid port : Z) (user : port_user) : syscall Z
  | SysTimerSettime (timer flags : Z) (ts : itimerspec) : syscall unit
  | SysTimerDelete (timer : Z) : syscall unit
  | SysPoll (fd events : Z) : syscall (Z * Z)                 (** count, revents *)
  | WinCreatePort : syscall Z                                (** CreateIoCompletionPort *)
  | WinAssociate (h port key : Z) : syscall unit
  | WinPost (port bytes key : Z) (ov : overlapped) : syscall unit
  | WinGetQueued (port timeout : Z) : syscall (event_buf * option Z) (** dequeued; error of its i/o *)
  | WinNamedPipe (name : Z) : syscall Z                      (** the server end *)
  | WinOpenPipe (name : Z) : syscall Z                       (** the client end *)
  | WinOpenOsfhandle (h : Z) : syscall Z
  | WinGetOsfhandle (fd : Z) : syscall Z
  | WinReadFile (h n : Z) (ov : overlapped) : syscall unit   (** overlapped *)
  | WinWriteFile (h : Z) : syscall unit                      (** of 0 bytes *)
  | WinCancelIo (h : Z) (ov : overlapped) : syscall unit
  | WinCloseHandle (h : Z) : syscall unit
  | WinIoDone (ov : overlapped) : syscall bool               (** HasOverlappedIoCompleted *)
  | WinIoResult (h : Z) (ov : overlapped) : syscall Z        (** GetOverlappedResult *)
  | WinSubmit (kq : ptr) : syscall unit                      (** TrySubmitThreadpoolCallback *)
  | WinFileType (h : Z) : syscall Z
  | WinCreateTimer : syscall Z
  | WinSetTimer (h due period : Z) : syscall unit
  | WinCancelTimer (h : Z) : syscall unit
  | WinSystemTime : syscall Z                                (** in units of 100 ns *)
  | WinRegisterWait (h : Z) (cb : wait_callback) (kn : ptr) (once : bool) : syscall Z
  | WinUnregisterWait (wh : Z) : syscall unit                (** waits for the callbacks *)
  | WinCreateEvent (name : option (Z * Z)) : syscall Z       (** of a process and a signal *)
  | WinOpenEvent (name : Z * Z) : syscall Z
  | WinSetEvent (h : Z) : syscall unit
  | WinResetEvent (h : Z) : syscall unit
  | WinEventSelect (s evt mask : Z) : syscall unit
  | WinEnumEvents (s evt : Z) : syscall (Z * Z)              (** mask, iErrorCode[FD_CLOSE_BIT] *)
  | WinCloseEvent (evt : Z) : syscall unit
  | WinSelectWrite (s : Z) : syscall Z
  | WinPeekPipe (h : Z) : syscall Z                          (** bytes available *)
  | WinPipeInfo (h : Z) : syscall Z                          (** size of the out buffer *)
  | WinOpenProcess (rights pid : Z) : syscall Z
  | WinExitCode (h : Z) : syscall Z
  | WinTerminate (h code : Z) : syscall unit
  | WinProcessId : syscall Z
  | WinFileInfo (h : Z) : syscall file_info
  | WinDeletePending (h : Z) : syscall bool
  | WinPathLen (h : Z) : syscall Z                           (** GetFinalPathNameByHandleW *)
  | WinPath (h cap : Z) : syscall (Z * wstring)
  | WinFindFirst (dir : wstring) (flags : Z) : syscall Z
  | WinFindNext (h : Z) : syscall unit
  | WinFindClose (h : Z) : syscall unit
  | WinConsoleHandler : syscall unit
  | WinStartup : syscall unit.                               (** WSAStartup *)

Inductive sysres (A : Type) := SOk (a : A) | SErr (e : Z).
Arguments SOk {A} a.
Arguments SErr {A} e.

Class OS (K : Type) := os_call : forall A : Type, syscall A -> K -> sysres A * K.
Arguments os_call {K _ A} _ _.

(** ** Structures *)

(** [enum epoll_udata_type] *)
Inductive epoll_udata_type :=
  | EPOLL_UDATA_KNOTE | EPOLL_UDATA_FD_STATE | EPOLL_UDATA_EVENT_FD | EPOLL_UDATA_KQ_WAKE.
#[export] Instance epoll_udata_type_eq_dec : EqDecision epoll_udata_type.
Proof. solve_decision. Defined.

(** An element of a red-black tree: the object and the key it is found by. *)
Record entry := Entry { e_key : Z; e_ptr : ptr }.
#[export] Instance entry_eq_dec : EqDecision entry.
Proof. solve_decision. Defined.

(** The per-call state [kevent()] keeps on its stack. *)
Record kevent_state := KeventState
  { ks_id : ptr;
    epoch : Z }.

(** The union of [struct epoll_udata]: an eventfd is the [kf_efd] of a slot. *)
Inductive ud_union :=
  | ud_kn (kn : ptr) | ud_fds (fds : ptr) | ud_efd (kq : ptr) (slot : nat) | ud_kq (kq : ptr).
#[export] Instance ud_union_eq_dec : EqDecision ud_union.
Proof. solve_decision. Defined.

(** [struct epoll_udata]: the heap object registered with epoll. *)
Record epoll_udata := EpollUdata
  { ud_type : epoll_udata_type;
    ud_back : ud_union;
    ud_stale : bool;
    ud_boundary_epoch : Z }.

(** [struct fd_state]: the read and the write knote of one descriptor. *)
Record fd_state := FdState
  { fds_fd : Z;
    fds_read : option ptr;
    fds_write : option ptr;
    fds_udata : option ptr }.

(** [struct knote] with the Linux members; the members of its union, of which a
    knote uses the one of its filter, are separate fields. *)
Record knote := Knote
  { kev : kevent;
    kn_flags : Z;
    kn_kq : option ptr;
    kn_ref : Z;
    kn_epollfd : Z;
    kn_registered : Z;
    kn_fds : option ptr;
    epoll_events : Z;
    kn_timerfd : Z;
    kn_user_eventfd : Z;
    kn_read_eventfd : Z;
    kn_write_eventfd : Z;
    kn_nlink : Z;
    kn_size : Z;
    kn_inotifyfd : Z;
    kn_procfd : Z;
    kn_udata : option ptr;
    kn_signal_count : Z }.

(** [struct filter] as registered in a kqueue: [kf_impl] is the identifier
    of the static table whose functions were copied into the slot, if any; [ef_id] and [efd_udata] are the
    members of its [struct eventfd kf_efd]. *)
Record filter := Filter
  { kf_id : Z;
    kf_impl : option Z;
    kf_index : tree entry;
    kf_ready : list ptr;
    ef_id : Z;
    efd_udata : option ptr;
    kf_sig : option ptr }.

(** [struct kqueue] with the Linux members. *)
Record kqueue := Kqueue
  { kq_id : Z;
    kq_filt : list filter;
    kq_locked : bool;
    kq_freeing : bool;
    kq_knote_count : Z;
    epollfd : Z;
    pipefd0 : Z;
    pipefd1 : Z;
    kq_fd_st : tree entry;
    kq_wake_udata : option ptr;
    kq_next_epoch : Z;
    kq_inflight : list kevent_state;
    ud_deferred_free : list ptr }.

(** A [struct filter *]: the kqueue and the index in its [kq_filt] array. *)
Definition filt_ref : Type := ptr * nat.

(** [struct sig_link]: the knotes of one filter for one signal. *)
Record sig_link := SigLink
  { sl_filt : filt_ref;
    kn_enabled : list ptr;
    kn_disabled : list ptr }.

(** [struct sig_filter_state] *)
Record sig_filter_state := SigFilterState
  { sfs_links : list sig_link;
    sfs_pending : list ptr }.

(** The static variables of evfilt_signal.h and evfilt_signalfd.c.  An element of
    [sigtbl] is the list [s_links] of a signal: the links of that signal, each
    given by the [sig_filter_state] it is embedded in. *)
Record sig_globals := SigGlobals
  { sigtbl : list (list ptr);
    sigtbl_mtx : bool;
    sig_init_mtx : bool;
    sig_thread_mtx : bool;
    sig_filter_count : Z;
    sig_dispatch_thread : Z;
    sig_dispatch_thread_created : bool;
    sig_dispatch_started : bool;
    sig_pipe0 : Z;
    sig_pipe1 : Z;
    sig_signalfd : Z;
    sig_active_set : gset Z }.

(** [struct posix_timer] (posix/timer.c) *)
Record posix_timer := PosixTimer
  { pt_kn : ptr;
    next : timespec;
    interval_ns : Z;
    oneshot : bool;
    absolute : bool;
    in_tree : bool;
    fire_count : Z }.

(** The POSIX members of [struct kqueue] (posix/platform_ext.h); an [fd_set] is the
    set of its descriptors, [kq_timers] a tree of addresses of timers. *)
Record posix_kq := PosixKq
  { kq_fds : gset Z;
    kq_rfds : gset Z;
    kq_wfds : gset Z;
    kq_wrfds : gset Z;
    kq_nfds : Z;
    kq_wake_wfd : Z;
    kq_always_ready : Z;
    kq_file_poll_interval_ns : Z;
    kq_timers : tree ptr }.

(** The POSIX members of [struct knote]; [kn_waiting] is
    [LIST_INSERTED(kn, kn_proc.waiter)]. *)
Record posix_knote := PosixKnote
  { kn_timer : option ptr;
    kn_vnode : option ptr;
    kn_waiting : bool;
    kn_proc_status : Z }.

(** The POSIX members of [struct filter] and of its [kf_efd]; the member [ef_filt]
    of an eventfd is the filter it is embedded in. *)
Record posix_filt := PosixFilt
  { kf_pfd : Z;
    ef_wfd : Z }.

(** [struct proc_pid] (posix/proc.c) *)
Record proc_pid := ProcPid
  { ppd_pid : Z;
    ppd_proc_waiters : list ptr }.

(** The members the POSIX backend adds to each structure, by the address of the
    structure (absent: zero, as allocated), its heaps, and the static variables of
    posix/proc.c. *)
Record posix := Posix
  { px_kqs : gmap ptr posix_kq;
    px_knotes : gmap ptr posix_knote;
    px_filts : gmap filt_ref posix_filt;
    px_timers : gmap ptr posix_timer;
    px_vnodes : gmap ptr stat;
    px_ppds : gmap ptr proc_pid;
    proc_pid_index : tree entry;
    proc_init_mtx : bool;
    proc_pid_index_mtx : nat;
    proc_count : Z;
    proc_wait_thread : Z;
    proc_wait_tid : Z;
    proc_wait_thread_created : bool;
    proc_wait_thread_started : bool }.

(** The members the Solaris backend adds to [struct knote] (solaris/platform.h): of
    its timer, its user event and its watched file, whose [fobj] holds the times of
    the last [stat].  [kn_nlink] and [kn_size] are shared with Linux. *)
Record sol_knote := SolKnote
  { timerid : Z;
    user_ctr : Z;
    subport : Z;
    kn_path : option Z;
    kn_fobj : option stat;
    file_events : Z }.

(** The members it adds to a filter's [struct eventfd]. *)
Record sol_filt := SolFilt { efd_events : Z; efd_raised : Z }.

(** These members by the address of their structure, and the running thread's buffer
    of port events. *)
Record solaris := Solaris
  { sl_evbuf : list port_event;
    sl_knotes : gmap ptr sol_knote;
    sl_filts : gmap filt_ref sol_filt }.

(** The members the Windows backend adds to [struct kqueue] (windows/platform.h); a
    HANDLE is a number, NULL is 0. *)
Record win_kq := WinKq
  { kq_iocp : Z;
    kq_filt_ref : list filt_ref;
    kq_filt_count : Z;
    kq_close_read : Z;
    kq_consumer_closed : bool;
    kq_dispatch_seq : Z }.

(** The members it adds to [struct knote]; [kn_handle] is [kn_vs] where it points to a
    [struct vnode_state].  Of the union a knote uses the half of its filter: [rd_] is
    [struct windows_knote_read] and [wr_] [struct windows_knote_write]. *)
Record win_knote := WinKnote
  { kn_event_whandle : Z;
    kn_handle : Z;
    kn_vs : option ptr;
    kn_fire_count : Z;
    kn_dispatch_seq : Z;
    rd_last_data : Z;
    rd_eof : bool;
    rd_so_error : Z;
    rd_file_synthetic : bool;
    wr_file_synthetic : bool;
    wr_pipe_eof : bool }.

(** The members it adds to a filter's [struct eventfd]. *)
Record win_filt := WinFilt
  { efd_filter_id : Z;
    wf_raised : bool }.

(** [struct vnode_state] (windows/vnode.c) *)
Record vnode_state := VnodeState
  { vs_dir_handle : Z;
    vs_full_path : option wstring;
    vs_info : file_info }.

(** These members by the address of their structure, the running thread's variables
    [iocp_buf] and [iocp_wait_timeout_ms] and its last error, and the number of pipes made. *)
Record windows := Windows
  { iocp_buf : event_buf;
    iocp_wait_timeout_ms : Z;
    last_error : Z;
    kq_close_pipe_seq : Z;
    wn_kqs : gmap ptr win_kq;
    wn_knotes : gmap ptr win_knote;
    wn_filts : gmap filt_ref win_filt;
    wn_vnodes : gmap ptr vnode_state }.

(** The whole process: kernel, errno, heap, the caller's event arrays,
    the running thread's buffer of epoll events and the library's globals. *)
Record world (K : Type) := World
  { w_os : K;
    w_errno : Z;
    w_next : ptr;
    w_knotes : gmap ptr knote;
    w_udatas : gmap ptr epoll_udata;
    w_fdss : gmap ptr fd_state;
    w_kqs : gmap ptr kqueue;
    w_mem : gmap Z kevent;
    w_evbuf : list epoll_event;
    w_mtx : bool;
    w_kqmap : map;
    w_kq_list : list ptr;
    w_kq_cnt : Z;
    w_thread_safe : bool;
    w_fork_cleanup : bool;
    w_fork_cleanup_active : bool;
    w_in_child : bool;
    w_debug : bool;
    w_mon_tid : Z;
    w_mon_epfd : Z;
    w_mon_drain_efd : Z;
    w_mon_drain_gen : Z;
    w_sfss : gmap ptr sig_filter_state;
    w_sig : sig_globals;
    w_px : posix;
    w_sl : solaris;
    w_wn : windows }.
Arguments World {K} _ _ _ _ _ _ _ _ _ _ _ _ _ _ _ _ _ _ _ _ _ _ _ _ _ _ _.
Arguments w_os {K} _.
Arguments w_errno {K} _.
Arguments w_next {K} _.
Arguments w_knotes {K} _.
Arguments w_udatas {K} _.
Arguments w_fdss {K} _.
Arguments w_kqs {K} _.
Arguments w_mem {K} _.
Arguments w_evbuf {K} _.
Arguments w_mtx {K} _.
Arguments w_kqmap {K} _.
Arguments w_kq_list {K} _.
Arguments w_kq_cnt {K} _.
Arguments w_thread_safe {K} _.
Arguments w_fork_cleanup {K} _.
Arguments w_fork_cleanup_active {K} _.
Arguments w_in_child {K} _.
Arguments w_debug {K} _.
Arguments w_mon_tid {K} _.
Arguments w_mon_epfd {K} _.
Arguments w_mon_drain_efd {K} _.
Arguments w_mon_drain_gen {K} _.
Arguments w_sfss {K} _.
Arguments w_sig {K} _.
Arguments w_px {K} _.
Arguments w_sl {K} _.
Arguments w_wn {K} _.

(** ** Field updates *)

Definition set_ks_id (v : ptr) (r : kevent_state) : kevent_state :=
  KeventState v (epoch r).
Definition set_epoch (v : Z) (r : kevent_state) : kevent_state :=
  KeventState (ks_id r) v.

Definition set_ud_type (v : epoll_udata_type) (r : epoll_udata) : epoll_udata :=
  EpollUdata v (ud_back r) (ud_stale r) (ud_boundary_epoch r).
Definition set_ud_back (v : ud_union) (r : epoll_udata) : epoll_udata :=
  EpollUdata (ud_type r) v (ud_stale r) (ud_boundary_epoch r).
Definition set_ud_stale (v : bool) (r : epoll_udata) : epoll_udata :=
  EpollUdata (ud_type r) (ud_back r) v (ud_boundary_epoch r).
Definition set_ud_boundary_epoch (v : Z) (r : epoll_udata) : epoll_udata :=
  EpollUdata (ud_type r) (ud_back r) (ud_stale r) v.

Definition set_fds_fd (v : Z) (r : fd_state) : fd_state :=
  FdState v (fds_read r) (fds_write r) (fds_udata r).
Definition set_fds_read (v : option ptr) (r : fd_state) : fd_state :=
  FdState (fds_fd r) v (fds_write r) (fds_udata r).
Definition set_fds_write (v : option ptr) (r : fd_state) : fd_state :=
  FdState (fds_fd r) (fds_read r) v (fds_udata r).
Definition set_fds_udata (v : option ptr) (r : fd_state) : fd_state :=
  FdState (fds_fd r) (fds_read r) (fds_write r) v.

Definition set_kev (v : kevent) (r : knote) : knote :=
  Knote v (kn_flags r) (kn_kq r) (kn_ref r) (kn_epollfd r) (kn_registered r)
    (kn_fds r) (epoll_events r) (kn_timerfd r) (kn_user_eventfd r)
    (kn_read_eventfd r) (kn_write_eventfd r) (kn_nlink r) (kn_size r)
    (kn_inotifyfd r) (kn_procfd r) (kn_udata r) (kn_signal_count r).
Definition set_kn_flags (v : Z) (r : knote) : knote :=
  Knote (kev r) v (kn_kq r) (kn_ref r) (kn_epollfd r) (kn_registered r) (kn_fds r)
    (epoll_events r) (kn_timerfd r) (kn_user_eventfd r) (kn_read_eventfd r)
    (kn_write_eventfd r) (kn_nlink r) (kn_size r) (kn_inotifyfd r) (kn_procfd r)
    (kn_udata r) (kn_signal_count r).
Definition set_kn_kq (v : option ptr) (r : knote) : knote :=
  Knote (kev r) (kn_flags r) v (kn_ref r) (kn_epollfd r) (kn_registered r)
    (kn_fds r) (epoll_events r) (kn_timerfd r) (kn_user_eventfd r)
    (kn_read_eventfd r) (kn_write_eventfd r) (kn_nlink r) (kn_size r)
    (kn_inotifyfd r) (kn_procfd r) (kn_udata r) (kn_signal_count r).
Definition set_kn_ref (v : Z) (r : knote) : knote :=
  Knote (kev r) (kn_flags r) (kn_kq r) v (kn_epollfd r) (kn_registered r) (kn_fds r)
    (epoll_events r) (kn_timerfd r) (kn_user_eventfd r) (kn_read_eventfd r)
    (kn_write_eventfd r) (kn_nlink r) (kn_size r) (kn_inotifyfd r) (kn_procfd r)
    (kn_udata r) (kn_signal_count r).
Definition set_kn_epollfd (v : Z) (r : knote) : knote :=
  Knote (kev r) (kn_flags r) (kn_kq r) (kn_ref r) v (kn_registered r) (kn_fds r)
    (epoll_events r) (kn_timerfd r) (kn_user_eventfd r) (kn_read_eventfd r)
    (kn_write_eventfd r) (kn_nlink r) (kn_size r) (kn_inotifyfd r) (kn_procfd r)
    (kn_udata r) (kn_signal_count r).
Definition set_kn_registered (v : Z) (r : knote) : knote :=
  Knote (kev r) (kn_flags r) (kn_kq r) (kn_ref r) (kn_epollfd r) v (kn_fds r)
    (epoll_events r) (kn_timerfd r) (kn_user_eventfd r) (kn_read_eventfd r)
    (kn_write_eventfd r) (kn_nlink r) (kn_size r) (kn_inotifyfd r) (kn_procfd r)
    (kn_udata r) (kn_signal_count r).
Definition set_kn_fds (v : option ptr) (r : knote) : knote :=
  Knote (kev r) (kn_flags r) (kn_kq r) (kn_ref r) (kn_epollfd r) (kn_registered r) v
    (epoll_events r) (kn_timerfd r) (kn_user_eventfd r) (kn_read_eventfd r)
    (kn_write_eventfd r) (kn_nlink r) (kn_size r) (kn_inotifyfd r) (kn_procfd r)
    (kn_udata r) (kn_signal_count r).
Definition set_epoll_events (v : Z) (r : knote) : knote :=
  Knote (kev r) (kn_flags r) (kn_kq r) (kn_ref r) (kn_epollfd r) (kn_registered r)
    (kn_fds r) v (kn_timerfd r) (kn_user_eventfd r) (kn_read_eventfd r)
    (kn_write_eventfd r) (kn_nlink r) (kn_size r) (kn_inotifyfd r) (kn_procfd r)
    (kn_udata r) (kn_signal_count r).
Definition set_kn_timerfd (v : Z) (r : knote) : knote :=
  Knote (kev r) (kn_flags r) (kn_kq r) (kn_ref r) (kn_epollfd r) (kn_registered r)
    (kn_fds r) (epoll_events r) v (kn_user_eventfd r) (kn_read_eventfd r)
    (kn_write_eventfd r) (kn_nlink r) (kn_size r) (kn_inotifyfd r) (kn_procfd r)
    (kn_udata r) (kn_signal_count r).
Definition set_kn_user_eventfd (v : Z) (r : knote) : knote :=
  Knote (kev r) (kn_flags r) (kn_kq r) (kn_ref r) (kn_epollfd r) (kn_registered r)
    (kn_fds r) (epoll_events r) (kn_timerfd r) v (kn_read_eventfd r)
    (kn_write_eventfd r) (kn_nlink r) (kn_size r) (kn_inotifyfd r) (kn_procfd r)
    (kn_udata r) (kn_signal_count r).
Definition set_kn_read_eventfd (v : Z) (r : knote) : knote :=
  Knote (kev r) (kn_flags r) (kn_kq r) (kn_ref r) (kn_epollfd r) (kn_registered r)
    (kn_fds r) (epoll_events r) (kn_timerfd r) (kn_user_eventfd r) v
    (kn_write_eventfd r) (kn_nlink r) (kn_size r) (kn_inotifyfd r) (kn_procfd r)
    (kn_udata r) (kn_signal_count r).
Definition set_kn_write_eventfd (v : Z) (r : knote) : knote :=
  Knote (kev r) (kn_flags r) (kn_kq r) (kn_ref r) (kn_epollfd r) (kn_registered r)
    (kn_fds r) (epoll_events r) (kn_timerfd r) (kn_user_eventfd r)
    (kn_read_eventfd r) v (kn_nlink r) (kn_size r) (kn_inotifyfd r) (kn_procfd r)
    (kn_udata r) (kn_signal_count r).
Definition set_kn_nlink (v : Z) (r : knote) : knote :=
  Knote (kev r) (kn_flags r) (kn_kq r) (kn_ref r) (kn_epollfd r) (kn_registered r)
    (kn_fds r) (epoll_events r) (kn_timerfd r) (kn_user_eventfd r)
    (kn_read_eventfd r) (kn_write_eventfd r) v (kn_size r) (kn_inotifyfd r)
    (kn_procfd r) (kn_udata r) (kn_signal_count r).
Definition set_kn_size (v : Z) (r : knote) : knote :=
  Knote (kev r) (kn_flags r) (kn_kq r) (kn_ref r) (kn_epollfd r) (kn_registered r)
    (kn_fds r) (epoll_events r) (kn_timerfd r) (kn_user_eventfd r)
    (kn_read_eventfd r) (kn_write_eventfd r) (kn_nlink r) v (kn_inotifyfd r)
    (kn_procfd r) (kn_udata r) (kn_signal_count r).
Definition set_kn_inotifyfd (v : Z) (r : knote) : knote :=
  Knote (kev r) (kn_flags r) (kn_kq r) (kn_ref r) (kn_epollfd r) (kn_registered r)
    (kn_fds r) (epoll_events r) (kn_timerfd r) (kn_user_eventfd r)
    (kn_read_eventfd r) (kn_write_eventfd r) (kn_nlink r) (kn_size r) v
    (kn_procfd r) (kn_udata r) (kn_signal_count r).
Definition set_kn_procfd (v : Z) (r : knote) : knote :=
  Knote (kev r) (kn_flags r) (kn_kq r) (kn_ref r) (kn_epollfd r) (kn_registered r)
    (kn_fds r) (epoll_events r) (kn_timerfd r) (kn_user_eventfd r)
    (kn_read_eventfd r) (kn_write_eventfd r) (kn_nlink r) (kn_size r)
    (kn_inotifyfd r) v (kn_udata r) (kn_signal_count r).
Definition set_kn_udata (v : option ptr) (r : knote) : knote :=
  Knote (kev r) (kn_flags r) (kn_kq r) (kn_ref r) (kn_epollfd r) (kn_registered r)
    (kn_fds r) (epoll_events r) (kn_timerfd r) (kn_user_eventfd r)
    (kn_read_eventfd r) (kn_write_eventfd r) (kn_nlink r) (kn_size r)
    (kn_inotifyfd r) (kn_procfd r) v (kn_signal_count r).
Definition set_kn_signal_count (v : Z) (r : knote) : knote :=
  Knote (kev r) (kn_flags r) (kn_kq r) (kn_ref r) (kn_epollfd r) (kn_registered r)
    (kn_fds r) (epoll_events r) (kn_timerfd r) (kn_user_eventfd r)
    (kn_read_eventfd r) (kn_write_eventfd r) (kn_nlink r) (kn_size r)
    (kn_inotifyfd r) (kn_procfd r) (kn_udata r) v.

Definition set_kf_id (v : Z) (r : filter) : filter :=
  Filter v (kf_impl r) (kf_index r) (kf_ready r) (ef_id r) (efd_udata r) (kf_sig r).
Definition set_kf_impl (v : option Z) (r : filter) : filter :=
  Filter (kf_id r) v (kf_index r) (kf_ready r) (ef_id r) (efd_udata r) (kf_sig r).
Definition set_kf_index (v : tree entry) (r : filter) : filter :=
  Filter (kf_id r) (kf_impl r) v (kf_ready r) (ef_id r) (efd_udata r) (kf_sig r).
Definition set_kf_ready (v : list ptr) (r : filter) : filter :=
  Filter (kf_id r) (kf_impl r) (kf_index r) v (ef_id r) (efd_udata r) (kf_sig r).
Definition set_ef_id (v : Z) (r : filter) : filter :=
  Filter (kf_id r) (kf_impl r) (kf_index r) (kf_ready r) v (efd_udata r) (kf_sig r).
Definition set_efd_udata (v : option ptr) (r : filter) : filter :=
  Filter (kf_id r) (kf_impl r) (kf_index r) (kf_ready r) (ef_id r) v (kf_sig r).
Definition set_kf_sig (v : option ptr) (r : filter) : filter :=
  Filter (kf_id r) (kf_impl r) (kf_index r) (kf_ready r) (ef_id r) (efd_udata r) v.

Definition set_kq_id (v : Z) (r : kqueue) : kqueue :=
  Kqueue v (kq_filt r) (kq_locked r) (kq_freeing r) (kq_knote_count r) (epollfd r)
    (pipefd0 r) (pipefd1 r) (kq_fd_st r) (kq_wake_udata r) (kq_next_epoch r)
    (kq_inflight r) (ud_deferred_free r).
Definition set_kq_filt (v : list filter) (r : kqueue) : kqueue :=
  Kqueue (kq_id r) v (kq_locked r) (kq_freeing r) (kq_knote_count r) (epollfd r)
    (pipefd0 r) (pipefd1 r) (kq_fd_st r) (kq_wake_udata r) (kq_next_epoch r)
    (kq_inflight r) (ud_deferred_free r).
Definition set_kq_locked (v : bool) (r : kqueue) : kqueue :=
  Kqueue (kq_id r) (kq_filt r) v (kq_freeing r) (kq_knote_count r) (epollfd r)
    (pipefd0 r) (pipefd1 r) (kq_fd_st r) (kq_wake_udata r) (kq_next_epoch r)
    (kq_inflight r) (ud_deferred_free r).
Definition set_kq_freeing (v : bool) (r : kqueue) : kqueue :=
  Kqueue (kq_id r) (kq_filt r) (kq_locked r) v (kq_knote_count r) (epollfd r)
    (pipefd0 r) (pipefd1 r) (kq_fd_st r) (kq_wake_udata r) (kq_next_epoch r)
    (kq_inflight r) (ud_deferred_free r).
Definition set_kq_knote_count (v : Z) (r : kqueue) : kqueue :=
  Kqueue (kq_id r) (kq_filt r) (kq_locked r) (kq_freeing r) v (epollfd r)
    (pipefd0 r) (pipefd1 r) (kq_fd_st r) (kq_wake_udata r) (kq_next_epoch r)
    (kq_inflight r) (ud_deferred_free r).
Definition set_epollfd (v : Z) (r : kqueue) : kqueue :=
  Kqueue (kq_id r) (kq_filt r) (kq_locked r) (kq_freeing r) (kq_knote_count r) v
    (pipefd0 r) (pipefd1 r) (kq_fd_st r) (kq_wake_udata r) (kq_next_epoch r)
    (kq_inflight r) (ud_deferred_free r).
Definition set_pipefd0 (v : Z) (r : kqueue) : kqueue :=
  Kqueue (kq_id r) (kq_filt r) (kq_locked r) (kq_freeing r) (kq_knote_count r)
    (epollfd r) v (pipefd1 r) (kq_fd_st r) (kq_wake_udata r) (kq_next_epoch r)
    (kq_inflight r) (ud_deferred_free r).
Definition set_pipefd1 (v : Z) (r : kqueue) : kqueue :=
  Kqueue (kq_id r) (kq_filt r) (kq_locked r) (kq_freeing r) (kq_knote_count r)
    (epollfd r) (pipefd0 r) v (kq_fd_st r) (kq_wake_udata r) (kq_next_epoch r)
    (kq_inflight r) (ud_deferred_free r).
Definition set_kq_fd_st (v : tree entry) (r : kqueue) : kqueue :=
  Kqueue (kq_id r) (kq_filt r) (kq_locked r) (kq_freeing r) (kq_knote_count r)
    (epollfd r) (pipefd0 r) (pipefd1 r) v (kq_wake_udata r) (kq_next_epoch r)
    (kq_inflight r) (ud_deferred_free r).
Definition set_kq_wake_udata (v : option ptr) (r : kqueue) : kqueue :=
  Kqueue (kq_id r) (kq_filt r) (kq_locked r) (kq_freeing r) (kq_knote_count r)
    (epollfd r) (pipefd0 r) (pipefd1 r) (kq_fd_st r) v (kq_next_epoch r)
    (kq_inflight r) (ud_deferred_free r).
Definition set_kq_next_epoch (v : Z) (r : kqueue) : kqueue :=
  Kqueue (kq_id r) (kq_filt r) (kq_locked r) (kq_freeing r) (kq_knote_count r)
    (epollfd r) (pipefd0 r) (pipefd1 r) (kq_fd_st r) (kq_wake_udata r) v
    (kq_inflight r) (ud_deferred_free r).
Definition set_kq_inflight (v : list kevent_state) (r : kqueue) : kqueue :=
  Kqueue (kq_id r) (kq_filt r) (kq_locked r) (kq_freeing r) (kq_knote_count r)
    (epollfd r) (pipefd0 r) (pipefd1 r) (kq_fd_st r) (kq_wake_udata r)
    (kq_next_epoch r) v (ud_deferred_free r).
Definition set_ud_deferred_free (v : list ptr) (r : kqueue) : kqueue :=
  Kqueue (kq_id r) (kq_filt r) (kq_locked r) (kq_freeing r) (kq_knote_count r)
    (epollfd r) (pipefd0 r) (pipefd1 r) (kq_fd_st r) (kq_wake_udata r)
    (kq_next_epoch r) (kq_inflight r) v.

Definition set_w_os {K : Type} (v : K) (r : world K) : world K :=
  World v (w_errno r) (w_next r) (w_knotes r) (w_udatas r) (w_fdss r) (w_kqs r)
    (w_mem r) (w_evbuf r) (w_mtx r) (w_kqmap r) (w_kq_list r) (w_kq_cnt r)
    (w_thread_safe r) (w_fork_cleanup r) (w_fork_cleanup_active r) (w_in_child r)
    (w_debug r) (w_mon_tid r) (w_mon_epfd r) (w_mon_drain_efd r) (w_mon_drain_gen r) (w_sfss r) (w_sig r) (w_px r) (w_sl r) (w_wn r).
Definition set_w_errno {K : Type} (v : Z) (r : world K) : world K :=
  World (w_os r) v (w_next r) (w_knotes r) (w_udatas r) (w_fdss r) (w_kqs r)
    (w_mem r) (w_evbuf r) (w_mtx r) (w_kqmap r) (w_kq_list r) (w_kq_cnt r)
    (w_thread_safe r) (w_fork_cleanup r) (w_fork_cleanup_active r) (w_in_child r)
    (w_debug r) (w_mon_tid r) (w_mon_epfd r) (w_mon_drain_efd r) (w_mon_drain_gen r) (w_sfss r) (w_sig r) (w_px r) (w_sl r) (w_wn r).
Definition set_w_next {K : Type} (v : ptr) (r : world K) : world K :=
  World (w_os r) (w_errno r) v (w_knotes r) (w_udatas r) (w_fdss r) (w_kqs r)
    (w_mem r) (w_evbuf r) (w_mtx r) (w_kqmap r) (w_kq_list r) (w_kq_cnt r)
    (w_thread_safe r) (w_fork_cleanup r) (w_fork_cleanup_active r) (w_in_child r)
    (w_debug r) (w_mon_tid r) (w_mon_epfd r) (w_mon_drain_efd r) (w_mon_drain_gen r) (w_sfss r) (w_sig r) (w_px r) (w_sl r) (w_wn r).
Definition set_w_knotes {K : Type} (v : gmap ptr knote) (r : world K) : world K :=
  World (w_os r) (w_errno r) (w_next r) v (w_udatas r) (w_fdss r) (w_kqs r)
    (w_mem r) (w_evbuf r) (w_mtx r) (w_kqmap r) (w_kq_list r) (w_kq_cnt r)
    (w_thread_safe r) (w_fork_cleanup r) (w_fork_cleanup_active r) (w_in_child r)
    (w_debug r) (w_mon_tid r) (w_mon_epfd r) (w_mon_drain_efd r) (w_mon_drain_gen r) (w_sfss r) (w_sig r) (w_px r) (w_sl r) (w_wn r).
Definition set_w_udatas {K : Type} (v : gmap ptr epoll_udata) (r : world K) : world K :=
  World (w_os r) (w_errno r) (w_next r) (w_knotes r) v (w_fdss r) (w_kqs r)
    (w_mem r) (w_evbuf r) (w_mtx r) (w_kqmap r) (w_kq_list r) (w_kq_cnt r)
    (w_thread_safe r) (w_fork_cleanup r) (w_fork_cleanup_active r) (w_in_child r)
    (w_debug r) (w_mon_tid r) (w_mon_epfd r) (w_mon_drain_efd r) (w_mon_drain_gen r) (w_sfss r) (w_sig r) (w_px r) (w_sl r) (w_wn r).
Definition set_w_fdss {K : Type} (v : gmap ptr fd_state) (r : world K) : world K :=
  World (w_os r) (w_errno r) (w_next r) (w_knotes r) (w_udatas r) v (w_kqs r)
    (w_mem r) (w_evbuf r) (w_mtx r) (w_kqmap r) (w_kq_list r) (w_kq_cnt r)
    (w_thread_safe r) (w_fork_cleanup r) (w_fork_cleanup_active r) (w_in_child r)
    (w_debug r) (w_mon_tid r) (w_mon_epfd r) (w_mon_drain_efd r) (w_mon_drain_gen r) (w_sfss r) (w_sig r) (w_px r) (w_sl r) (w_wn r).
Definition set_w_kqs {K : Type} (v : gmap ptr kqueue) (r : world K) : world K :=
  World (w_os r) (w_errno r) (w_next r) (w_knotes r) (w_udatas r) (w_fdss r) v
    (w_mem r) (w_evbuf r) (w_mtx r) (w_kqmap r) (w_kq_list r) (w_kq_cnt r)
    (w_thread_safe r) (w_fork_cleanup r) (w_fork_cleanup_active r) (w_in_child r)
    (w_debug r) (w_mon_tid r) (w_mon_epfd r) (w_mon_drain_efd r) (w_mon_drain_gen r) (w_sfss r) (w_sig r) (w_px r) (w_sl r) (w_wn r).
Definition set_w_mem {K : Type} (v : gmap Z kevent) (r : world K) : world K :=
  World (w_os r) (w_errno r) (w_next r) (w_knotes r) (w_udatas r) (w_fdss r)
    (w_kqs r) v (w_evbuf r) (w_mtx r) (w_kqmap r) (w_kq_list r) (w_kq_cnt r)
    (w_thread_safe r) (w_fork_cleanup r) (w_fork_cleanup_active r) (w_in_child r)
    (w_debug r) (w_mon_tid r) (w_mon_epfd r) (w_mon_drain_efd r) (w_mon_drain_gen r) (w_sfss r) (w_sig r) (w_px r) (w_sl r) (w_wn r).
Definition set_w_evbuf {K : Type} (v : list epoll_event) (r : world K) : world K :=
  World (w_os r) (w_errno r) (w_next r) (w_knotes r) (w_udatas r) (w_fdss r)
    (w_kqs r) (w_mem r) v (w_mtx r) (w_kqmap r) (w_kq_list r) (w_kq_cnt r)
    (w_thread_safe r) (w_fork_cleanup r) (w_fork_cleanup_active r) (w_in_child r)
    (w_debug r) (w_mon_tid r) (w_mon_epfd r) (w_mon_drain_efd r) (w_mon_drain_gen r) (w_sfss r) (w_sig r) (w_px r) (w_sl r) (w_wn r).
Definition set_w_mtx {K : Type} (v : bool) (r : world K) : world K :=
  World (w_os r) (w_errno r) (w_next r) (w_knotes r) (w_udatas r) (w_fdss r)
    (w_kqs r) (w_mem r) (w_evbuf r) v (w_kqmap r) (w_kq_list r) (w_kq_cnt r)
    (w_thread_safe r) (w_fork_cleanup r) (w_fork_cleanup_active r) (w_in_child r)
    (w_debug r) (w_mon_tid r) (w_mon_epfd r) (w_mon_drain_efd r) (w_mon_drain_gen r) (w_sfss r) (w_sig r) (w_px r) (w_sl r) (w_wn r).
Definition set_w_kqmap {K : Type} (v : map) (r : world K) : world K :=
  World (w_os r) (w_errno r) (w_next r) (w_knotes r) (w_udatas r) (w_fdss r)
    (w_kqs r) (w_mem r) (w_evbuf r) (w_mtx r) v (w_kq_list r) (w_kq_cnt r)
    (w_thread_safe r) (w_fork_cleanup r) (w_fork_cleanup_active r) (w_in_child r)
    (w_debug r) (w_mon_tid r) (w_mon_epfd r) (w_mon_drain_efd r) (w_mon_drain_gen r) (w_sfss r) (w_sig r) (w_px r) (w_sl r) (w_wn r).
Definition set_w_kq_list {K : Type} (v : list ptr) (r : world K) : world K :=
  World (w_os r) (w_errno r) (w_next r) (w_knotes r) (w_udatas r) (w_fdss r)
    (w_kqs r) (w_mem r) (w_evbuf r) (w_mtx r) (w_kqmap r) v (w_kq_cnt r)
    (w_thread_safe r) (w_fork_cleanup r) (w_fork_cleanup_active r) (w_in_child r)
    (w_debug r) (w_mon_tid r) (w_mon_epfd r) (w_mon_drain_efd r) (w_mon_drain_gen r) (w_sfss r) (w_sig r) (w_px r) (w_sl r) (w_wn r).
Definition set_w_kq_cnt {K : Type} (v : Z) (r : world K) : world K :=
  World (w_os r) (w_errno r) (w_next r) (w_knotes r) (w_udatas r) (w_fdss r)
    (w_kqs r) (w_mem r) (w_evbuf r) (w_mtx r) (w_kqmap r) (w_kq_list r) v
    (w_thread_safe r) (w_fork_cleanup r) (w_fork_cleanup_active r) (w_in_child r)
    (w_debug r) (w_mon_tid r) (w_mon_epfd r) (w_mon_drain_efd r) (w_mon_drain_gen r) (w_sfss r) (w_sig r) (w_px r) (w_sl r) (w_wn r).
Definition set_w_thread_safe {K : Type} (v : bool) (r : world K) : world K :=
  World (w_os r) (w_errno r) (w_next r) (w_knotes r) (w_udatas r) (w_fdss r)
    (w_kqs r) (w_mem r) (w_evbuf r) (w_mtx r) (w_kqmap r) (w_kq_list r) (w_kq_cnt r)
    v (w_fork_cleanup r) (w_fork_cleanup_active r) (w_in_child r) (w_debug r)
    (w_mon_tid r) (w_mon_epfd r) (w_mon_drain_efd r) (w_mon_drain_gen r) (w_sfss r) (w_sig r) (w_px r) (w_sl r) (w_wn r).
Definition set_w_fork_cleanup {K : Type} (v : bool) (r : world K) : world K :=
  World (w_os r) (w_errno r) (w_next r) (w_knotes r) (w_udatas r) (w_fdss r)
    (w_kqs r) (w_mem r) (w_evbuf r) (w_mtx r) (w_kqmap r) (w_kq_list r) (w_kq_cnt r)
    (w_thread_safe r) v (w_fork_cleanup_active r) (w_in_child r) (w_debug r)
    (w_mon_tid r) (w_mon_epfd r) (w_mon_drain_efd r) (w_mon_drain_gen r) (w_sfss r) (w_sig r) (w_px r) (w_sl r) (w_wn r).
Definition set_w_fork_cleanup_active {K : Type} (v : bool) (r : world K) : world K :=
  World (w_os r) (w_errno r) (w_next r) (w_knotes r) (w_udatas r) (w_fdss r)
    (w_kqs r) (w_mem r) (w_evbuf r) (w_mtx r) (w_kqmap r) (w_kq_list r) (w_kq_cnt r)
    (w_thread_safe r) (w_fork_cleanup r) v (w_in_child r) (w_debug r) (w_mon_tid r)
    (w_mon_epfd r) (w_mon_drain_efd r) (w_mon_drain_gen r) (w_sfss r) (w_sig r) (w_px r) (w_sl r) (w_wn r).
Definition set_w_in_child {K : Type} (v : bool) (r : world K) : world K :=
  World (w_os r) (w_errno r) (w_next r) (w_knotes r) (w_udatas r) (w_fdss r)
    (w_kqs r) (w_mem r) (w_evbuf r) (w_mtx r) (w_kqmap r) (w_kq_list r) (w_kq_cnt r)
    (w_thread_safe r) (w_fork_cleanup r) (w_fork_cleanup_active r) v (w_debug r)
    (w_mon_tid r) (w_mon_epfd r) (w_mon_drain_efd r) (w_mon_drain_gen r) (w_sfss r) (w_sig r) (w_px r) (w_sl r) (w_wn r).
Definition set_w_debug {K : Type} (v : bool) (r : world K) : world K :=
  World (w_os r) (w_errno r) (w_next r) (w_knotes r) (w_udatas r) (w_fdss r)
    (w_kqs r) (w_mem r) (w_evbuf r) (w_mtx r) (w_kqmap r) (w_kq_list r) (w_kq_cnt r)
    (w_thread_safe r) (w_fork_cleanup r) (w_fork_cleanup_active r) (w_in_child r) v
    (w_mon_tid r) (w_mon_epfd r) (w_mon_drain_efd r) (w_mon_drain_gen r) (w_sfss r) (w_sig r) (w_px r) (w_sl r) (w_wn r).
Definition set_w_mon_tid {K : Type} (v : Z) (r : world K) : world K :=
  World (w_os r) (w_errno r) (w_next r) (w_knotes r) (w_udatas r) (w_fdss r)
    (w_kqs r) (w_mem r) (w_evbuf r) (w_mtx r) (w_kqmap r) (w_kq_list r) (w_kq_cnt r)
    (w_thread_safe r) (w_fork_cleanup r) (w_fork_cleanup_active r) (w_in_child r)
    (w_debug r) v (w_mon_epfd r) (w_mon_drain_efd r) (w_mon_drain_gen r) (w_sfss r) (w_sig r) (w_px r) (w_sl r) (w_wn r).
Definition set_w_mon_epfd {K : Type} (v : Z) (r : world K) : world K :=
  World (w_os r) (w_errno r) (w_next r) (w_knotes r) (w_udatas r) (w_fdss r)
    (w_kqs r) (w_mem r) (w_evbuf r) (w_mtx r) (w_kqmap r) (w_kq_list r) (w_kq_cnt r)
    (w_thread_safe r) (w_fork_cleanup r) (w_fork_cleanup_active r) (w_in_child r)
    (w_debug r) (w_mon_tid r) v (w_mon_drain_efd r) (w_mon_drain_gen r) (w_sfss r) (w_sig r) (w_px r) (w_sl r) (w_wn r).
Definition set_w_mon_drain_efd {K : Type} (v : Z) (r : world K) : world K :=
  World (w_os r) (w_errno r) (w_next r) (w_knotes r) (w_udatas r) (w_fdss r)
    (w_kqs r) (w_mem r) (w_evbuf r) (w_mtx r) (w_kqmap r) (w_kq_list r) (w_kq_cnt r)
    (w_thread_safe r) (w_fork_cleanup r) (w_fork_cleanup_active r) (w_in_child r)
    (w_debug r) (w_mon_tid r) (w_mon_epfd r) v (w_mon_drain_gen r) (w_sfss r) (w_sig r) (w_px r) (w_sl r) (w_wn r).
Definition set_w_mon_drain_gen {K : Type} (v : Z) (r : world K) : world K :=
  World (w_os r) (w_errno r) (w_next r) (w_knotes r) (w_udatas r) (w_fdss r)
    (w_kqs r) (w_mem r) (w_evbuf r) (w_mtx r) (w_kqmap r) (w_kq_list r) (w_kq_cnt r)
    (w_thread_safe r) (w_fork_cleanup r) (w_fork_cleanup_active r) (w_in_child r)
    (w_debug r) (w_mon_tid r) (w_mon_epfd r) (w_mon_drain_efd r) v (w_sfss r) (w_sig r) (w_px r) (w_sl r) (w_wn r).
Definition set_w_sfss {K : Type} (v : gmap ptr sig_filter_state) (r : world K) : world K :=
  World (w_os r) (w_errno r) (w_next r) (w_knotes r) (w_udatas r) (w_fdss r)
    (w_kqs r) (w_mem r) (w_evbuf r) (w_mtx r) (w_kqmap r) (w_kq_list r) (w_kq_cnt r)
    (w_thread_safe r) (w_fork_cleanup r) (w_fork_cleanup_active r) (w_in_child r)
    (w_debug r) (w_mon_tid r) (w_mon_epfd r) (w_mon_drain_efd r) (w_mon_drain_gen r)
    v (w_sig r) (w_px r) (w_sl r) (w_wn r).
Definition set_w_sig {K : Type} (v : sig_globals) (r : world K) : world K :=
  World (w_os r) (w_errno r) (w_next r) (w_knotes r) (w_udatas r) (w_fdss r)
    (w_kqs r) (w_mem r) (w_evbuf r) (w_mtx r) (w_kqmap r) (w_kq_list r) (w_kq_cnt r)
    (w_thread_safe r) (w_fork_cleanup r) (w_fork_cleanup_active r) (w_in_child r)
    (w_debug r) (w_mon_tid r) (w_mon_epfd r) (w_mon_drain_efd r) (w_mon_drain_gen r)
    (w_sfss r) v (w_px r) (w_sl r) (w_wn r).

Definition set_w_px {K : Type} (v : posix) (r : world K) : world K :=
  World (w_os r) (w_errno r) (w_next r) (w_knotes r) (w_udatas r) (w_fdss r)
    (w_kqs r) (w_mem r) (w_evbuf r) (w_mtx r) (w_kqmap r) (w_kq_list r) (w_kq_cnt r)
    (w_thread_safe r) (w_fork_cleanup r) (w_fork_cleanup_active r) (w_in_child r)
    (w_debug r) (w_mon_tid r) (w_mon_epfd r) (w_mon_drain_efd r) (w_mon_drain_gen r)
    (w_sfss r) (w_sig r) v (w_sl r) (w_wn r).
Definition set_w_sl {K : Type} (v : solaris) (r : world K) : world K :=
  World (w_os r) (w_errno r) (w_next r) (w_knotes r) (w_udatas r) (w_fdss r)
    (w_kqs r) (w_mem r) (w_evbuf r) (w_mtx r) (w_kqmap r) (w_kq_list r) (w_kq_cnt r)
    (w_thread_safe r) (w_fork_cleanup r) (w_fork_cleanup_active r) (w_in_child r)
    (w_debug r) (w_mon_tid r) (w_mon_epfd r) (w_mon_drain_efd r) (w_mon_drain_gen r)
    (w_sfss r) (w_sig r) (w_px r) v (w_wn r).
Definition set_w_wn {K : Type} (v : windows) (r : world K) : world K :=
  World (w_os r) (w_errno r) (w_next r) (w_knotes r) (w_udatas r) (w_fdss r)
    (w_kqs r) (w_mem r) (w_evbuf r) (w_mtx r) (w_kqmap r) (w_kq_list r) (w_kq_cnt r)
    (w_thread_safe r) (w_fork_cleanup r) (w_fork_cleanup_active r) (w_in_child r)
    (w_debug r) (w_mon_tid r) (w_mon_epfd r) (w_mon_drain_efd r) (w_mon_drain_gen r)
    (w_sfss r) (w_sig r) (w_px r) (w_sl r) v.

Definition set_timerid (v : Z) (r : sol_knote) : sol_knote :=
  SolKnote v (user_ctr r) (subport r) (kn_path r) (kn_fobj r) (file_events r).
Definition set_user_ctr (v : Z) (r : sol_knote) : sol_knote :=
  SolKnote (timerid r) v (subport r) (kn_path r) (kn_fobj r) (file_events r).
Definition set_subport (v : Z) (r : sol_knote) : sol_knote :=
  SolKnote (timerid r) (user_ctr r) v (kn_path r) (kn_fobj r) (file_events r).
Definition set_kn_path (v : option Z) (r : sol_knote) : sol_knote :=
  SolKnote (timerid r) (user_ctr r) (subport r) v (kn_fobj r) (file_events r).
Definition set_kn_fobj (v : option stat) (r : sol_knote) : sol_knote :=
  SolKnote (timerid r) (user_ctr r) (subport r) (kn_path r) v (file_events r).
Definition set_file_events (v : Z) (r : sol_knote) : sol_knote :=
  SolKnote (timerid r) (user_ctr r) (subport r) (kn_path r) (kn_fobj r) v.

Definition set_efd_events (v : Z) (r : sol_filt) : sol_filt :=
  SolFilt v (efd_raised r).
Definition set_efd_raised (v : Z) (r : sol_filt) : sol_filt :=
  SolFilt (efd_events r) v.

Definition set_sl_evbuf (v : list port_event) (r : solaris) : solaris :=
  Solaris v (sl_knotes r) (sl_filts r).
Definition set_sl_knotes (v : gmap ptr sol_knote) (r : solaris) : solaris :=
  Solaris (sl_evbuf r) v (sl_filts r).
Definition set_sl_filts (v : gmap filt_ref sol_filt) (r : solaris) : solaris :=
  Solaris (sl_evbuf r) (sl_knotes r) v.

Definition set_kq_iocp (v : Z) (r : win_kq) : win_kq :=
  WinKq v (kq_filt_ref r) (kq_filt_count r) (kq_close_read r) (kq_consumer_closed r)
    (kq_dispatch_seq r).
Definition set_kq_filt_ref (v : list filt_ref) (r : win_kq) : win_kq :=
  WinKq (kq_iocp r) v (kq_filt_count r) (kq_close_read r) (kq_consumer_closed r)
    (kq_dispatch_seq r).
Definition set_kq_filt_count (v : Z) (r : win_kq) : win_kq :=
  WinKq (kq_iocp r) (kq_filt_ref r) v (kq_close_read r) (kq_consumer_closed r)
    (kq_dispatch_seq r).
Definition set_kq_close_read (v : Z) (r : win_kq) : win_kq :=
  WinKq (kq_iocp r) (kq_filt_ref r) (kq_filt_count r) v (kq_consumer_closed r)
    (kq_dispatch_seq r).
Definition set_kq_consumer_closed (v : bool) (r : win_kq) : win_kq :=
  WinKq (kq_iocp r) (kq_filt_ref r) (kq_filt_count r) (kq_close_read r) v
    (kq_dispatch_seq r).
Definition set_kq_dispatch_seq (v : Z) (r : win_kq) : win_kq :=
  WinKq (kq_iocp r) (kq_filt_ref r) (kq_filt_count r) (kq_close_read r)
    (kq_consumer_closed r) v.

Definition set_kn_event_whandle (v : Z) (r : win_knote) : win_knote :=
  WinKnote v (kn_handle r) (kn_vs r) (kn_fire_count r) (kn_dispatch_seq r)
    (rd_last_data r) (rd_eof r) (rd_so_error r) (rd_file_synthetic r)
    (wr_file_synthetic r) (wr_pipe_eof r).
Definition set_kn_handle (v : Z) (r : win_knote) : win_knote :=
  WinKnote (kn_event_whandle r) v (kn_vs r) (kn_fire_count r) (kn_dispatch_seq r)
    (rd_last_data r) (rd_eof r) (rd_so_error r) (rd_file_synthetic r)
    (wr_file_synthetic r) (wr_pipe_eof r).
Definition set_kn_vs (v : option ptr) (r : win_knote) : win_knote :=
  WinKnote (kn_event_whandle r) (kn_handle r) v (kn_fire_count r) (kn_dispatch_seq r)
    (rd_last_data r) (rd_eof r) (rd_so_error r) (rd_file_synthetic r)
    (wr_file_synthetic r) (wr_pipe_eof r).
Definition set_kn_fire_count (v : Z) (r : win_knote) : win_knote :=
  WinKnote (kn_event_whandle r) (kn_handle r) (kn_vs r) v (kn_dispatch_seq r)
    (rd_last_data r) (rd_eof r) (rd_so_error r) (rd_file_synthetic r)
    (wr_file_synthetic r) (wr_pipe_eof r).
Definition set_kn_dispatch_seq (v : Z) (r : win_knote) : win_knote :=
  WinKnote (kn_event_whandle r) (kn_handle r) (kn_vs r) (kn_fire_count r) v
    (rd_last_data r) (rd_eof r) (rd_so_error r) (rd_file_synthetic r)
    (wr_file_synthetic r) (wr_pipe_eof r).
Definition set_rd_last_data (v : Z) (r : win_knote) : win_knote :=
  WinKnote (kn_event_whandle r) (kn_handle r) (kn_vs r) (kn_fire_count r)
    (kn_dispatch_seq r) v (rd_eof r) (rd_so_error r) (rd_file_synthetic r)
    (wr_file_synthetic r) (wr_pipe_eof r).
Definition set_rd_eof (v : bool) (r : win_knote) : win_knote :=
  WinKnote (kn_event_whandle r) (kn_handle r) (kn_vs r) (kn_fire_count r)
    (kn_dispatch_seq r) (rd_last_data r) v (rd_so_error r) (rd_file_synthetic r)
    (wr_file_synthetic r) (wr_pipe_eof r).
Definition set_rd_so_error (v : Z) (r : win_knote) : win_knote :=
  WinKnote (kn_event_whandle r) (kn_handle r) (kn_vs r) (kn_fire_count r)
    (kn_dispatch_seq r) (rd_last_data r) (rd_eof r) v (rd_file_synthetic r)
    (wr_file_synthetic r) (wr_pipe_eof r).
Definition set_rd_file_synthetic (v : bool) (r : win_knote) : win_knote :=
  WinKnote (kn_event_whandle r) (kn_handle r) (kn_vs r) (kn_fire_count r)
    (kn_dispatch_seq r) (rd_last_data r) (rd_eof r) (rd_so_error r) v
    (wr_file_synthetic r) (wr_pipe_eof r).
Definition set_wr_file_synthetic (v : bool) (r : win_knote) : win_knote :=
  WinKnote (kn_event_whandle r) (kn_handle r) (kn_vs r) (kn_fire_count r)
    (kn_dispatch_seq r) (rd_last_data r) (rd_eof r) (rd_so_error r)
    (rd_file_synthetic r) v (wr_pipe_eof r).
Definition set_wr_pipe_eof (v : bool) (r : win_knote) : win_knote :=
  WinKnote (kn_event_whandle r) (kn_handle r) (kn_vs r) (kn_fire_count r)
    (kn_dispatch_seq r) (rd_last_data r) (rd_eof r) (rd_so_error r)
    (rd_file_synthetic r) (wr_file_synthetic r) v.

Definition set_efd_filter_id (v : Z) (r : win_filt) : win_filt :=
  WinFilt v (wf_raised r).
Definition set_wf_raised (v : bool) (r : win_filt) : win_filt :=
  WinFilt (efd_filter_id r) v.

Definition set_vs_dir_handle (v : Z) (r : vnode_state) : vnode_state :=
  VnodeState v (vs_full_path r) (vs_info r).
Definition set_vs_full_path (v : option wstring) (r : vnode_state) : vnode_state :=
  VnodeState (vs_dir_handle r) v (vs_info r).
Definition set_vs_info (v : file_info) (r : vnode_state) : vnode_state :=
  VnodeState (vs_dir_handle r) (vs_full_path r) v.

Definition set_iocp_buf (v : event_buf) (r : windows) : windows :=
  Windows v (iocp_wait_timeout_ms r) (last_error r) (kq_close_pipe_seq r) (wn_kqs r)
    (wn_knotes r) (wn_filts r) (wn_vnodes r).
Definition set_iocp_wait_timeout_ms (v : Z) (r : windows) : windows :=
  Windows (iocp_buf r) v (last_error r) (kq_close_pipe_seq r) (wn_kqs r) (wn_knotes r)
    (wn_filts r) (wn_vnodes r).
Definition set_last_error (v : Z) (r : windows) : windows :=
  Windows (iocp_buf r) (iocp_wait_timeout_ms r) v (kq_close_pipe_seq r) (wn_kqs r)
    (wn_knotes r) (wn_filts r) (wn_vnodes r).
Definition set_kq_close_pipe_seq (v : Z) (r : windows) : windows :=
  Windows (iocp_buf r) (iocp_wait_timeout_ms r) (last_error r) v (wn_kqs r)
    (wn_knotes r) (wn_filts r) (wn_vnodes r).
Definition set_wn_kqs (v : gmap ptr win_kq) (r : windows) : windows :=
  Windows (iocp_buf r) (iocp_wait_timeout_ms r) (last_error r) (kq_close_pipe_seq r) v
    (wn_knotes r) (wn_filts r) (wn_vnodes r).
Definition set_wn_knotes (v : gmap ptr win_knote) (r : windows) : windows :=
  Windows (iocp_buf r) (iocp_wait_timeout_ms r) (last_error r) (kq_close_pipe_seq r)
    (wn_kqs r) v (wn_filts r) (wn_vnodes r).
Definition set_wn_filts (v : gmap filt_ref win_filt) (r : windows) : windows :=
  Windows (iocp_buf r) (iocp_wait_timeout_ms r) (last_error r) (kq_close_pipe_seq r)
    (wn_kqs r) (wn_knotes r) v (wn_vnodes r).
Definition set_wn_vnodes (v : gmap ptr vnode_state) (r : windows) : windows :=
  Windows (iocp_buf r) (iocp_wait_timeout_ms r) (last_error r) (kq_close_pipe_seq r)
    (wn_kqs r) (wn_knotes r) (wn_filts r) v.

Definition set_pt_kn (v : ptr) (r : posix_timer) : posix_timer :=
  PosixTimer v (next r) (interval_ns r) (oneshot r) (absolute r) (in_tree r)
    (fire_count r) .
Definition set_next (v : timespec) (r : posix_timer) : posix_timer :=
  PosixTimer (pt_kn r) v (interval_ns r) (oneshot r) (absolute r) (in_tree r)
    (fire_count r) .
Definition set_interval_ns (v : Z) (r : posix_timer) : posix_timer :=
  PosixTimer (pt_kn r) (next r) v (oneshot r) (absolute r) (in_tree r) (fire_count r) .
Definition set_oneshot (v : bool) (r : posix_timer) : posix_timer :=
  PosixTimer (pt_kn r) (next r) (interval_ns r) v (absolute r) (in_tree r)
    (fire_count r) .
Definition set_absolute (v : bool) (r : posix_timer) : posix_timer :=
  PosixTimer (pt_kn r) (next r) (interval_ns r) (oneshot r) v (in_tree r)
    (fire_count r) .
Definition set_in_tree (v : bool) (r : posix_timer) : posix_timer :=
  PosixTimer (pt_kn r) (next r) (interval_ns r) (oneshot r) (absolute r) v
    (fire_count r) .
Definition set_fire_count (v : Z) (r : posix_timer) : posix_timer :=
  PosixTimer (pt_kn r) (next r) (interval_ns r) (oneshot r) (absolute r) (in_tree r) v.

Definition set_kq_fds (v : gset Z) (r : posix_kq) : posix_kq :=
  PosixKq v (kq_rfds r) (kq_wfds r) (kq_wrfds r) (kq_nfds r) (kq_wake_wfd r)
    (kq_always_ready r) (kq_file_poll_interval_ns r) (kq_timers r) .
Definition set_kq_rfds (v : gset Z) (r : posix_kq) : posix_kq :=
  PosixKq (kq_fds r) v (kq_wfds r) (kq_wrfds r) (kq_nfds r) (kq_wake_wfd r)
    (kq_always_ready r) (kq_file_poll_interval_ns r) (kq_timers r) .
Definition set_kq_wfds (v : gset Z) (r : posix_kq) : posix_kq :=
  PosixKq (kq_fds r) (kq_rfds r) v (kq_wrfds r) (kq_nfds r) (kq_wake_wfd r)
    (kq_always_ready r) (kq_file_poll_interval_ns r) (kq_timers r) .
Definition set_kq_wrfds (v : gset Z) (r : posix_kq) : posix_kq :=
  PosixKq (kq_fds r) (kq_rfds r) (kq_wfds r) v (kq_nfds r) (kq_wake_wfd r)
    (kq_always_ready r) (kq_file_poll_interval_ns r) (kq_timers r) .
Definition set_kq_nfds (v : Z) (r : posix_kq) : posix_kq :=
  PosixKq (kq_fds r) (kq_rfds r) (kq_wfds r) (kq_wrfds r) v (kq_wake_wfd r)
    (kq_always_ready r) (kq_file_poll_interval_ns r) (kq_timers r) .
Definition set_kq_wake_wfd (v : Z) (r : posix_kq) : posix_kq :=
  PosixKq (kq_fds r) (kq_rfds r) (kq_wfds r) (kq_wrfds r) (kq_nfds r) v
    (kq_always_ready r) (kq_file_poll_interval_ns r) (kq_timers r) .
Definition set_kq_always_ready (v : Z) (r : posix_kq) : posix_kq :=
  PosixKq (kq_fds r) (kq_rfds r) (kq_wfds r) (kq_wrfds r) (kq_nfds r) (kq_wake_wfd r) v
    (kq_file_poll_interval_ns r) (kq_timers r) .
Definition set_kq_file_poll_interval_ns (v : Z) (r : posix_kq) : posix_kq :=
  PosixKq (kq_fds r) (kq_rfds r) (kq_wfds r) (kq_wrfds r) (kq_nfds r) (kq_wake_wfd r)
    (kq_always_ready r) v (kq_timers r) .
Definition set_kq_timers (v : tree ptr) (r : posix_kq) : posix_kq :=
  PosixKq (kq_fds r) (kq_rfds r) (kq_wfds r) (kq_wrfds r) (kq_nfds r) (kq_wake_wfd r)
    (kq_always_ready r) (kq_file_poll_interval_ns r) v.

Definition set_kn_timer (v : option ptr) (r : posix_knote) : posix_knote :=
  PosixKnote v (kn_vnode r) (kn_waiting r) (kn_proc_status r) .
Definition set_kn_vnode (v : option ptr) (r : posix_knote) : posix_knote :=
  PosixKnote (kn_timer r) v (kn_waiting r) (kn_proc_status r) .
Definition set_kn_waiting (v : bool) (r : posix_knote) : posix_knote :=
  PosixKnote (kn_timer r) (kn_vnode r) v (kn_proc_status r) .
Definition set_kn_proc_status (v : Z) (r : posix_knote) : posix_knote :=
  PosixKnote (kn_timer r) (kn_vnode r) (kn_waiting r) v.

Definition set_kf_pfd (v : Z) (r : posix_filt) : posix_filt :=
  PosixFilt v (ef_wfd r) .
Definition set_ef_wfd (v : Z) (r : posix_filt) : posix_filt :=
  PosixFilt (kf_pfd r) v.

Definition set_ppd_pid (v : Z) (r : proc_pid) : proc_pid :=
  ProcPid v (ppd_proc_waiters r) .
Definition set_ppd_proc_waiters (v : list ptr) (r : proc_pid) : proc_pid :=
  ProcPid (ppd_pid r) v.

Definition set_px_kqs (v : gmap ptr posix_kq) (r : posix) : posix :=
  Posix v (px_knotes r) (px_filts r) (px_timers r) (px_vnodes r) (px_ppds r)
    (proc_pid_index r) (proc_init_mtx r) (proc_pid_index_mtx r) (proc_count r)
    (proc_wait_thread r) (proc_wait_tid r) (proc_wait_thread_created r)
    (proc_wait_thread_started r) .
Definition set_px_knotes (v : gmap ptr posix_knote) (r : posix) : posix :=
  Posix (px_kqs r) v (px_filts r) (px_timers r) (px_vnodes r) (px_ppds r)
    (proc_pid_index r) (proc_init_mtx r) (proc_pid_index_mtx r) (proc_count r)
    (proc_wait_thread r) (proc_wait_tid r) (proc_wait_thread_created r)
    (proc_wait_thread_started r) .
Definition set_px_filts (v : gmap filt_ref posix_filt) (r : posix) : posix :=
  Posix (px_kqs r) (px_knotes r) v (px_timers r) (px_vnodes r) (px_ppds r)
    (proc_pid_index r) (proc_init_mtx r) (proc_pid_index_mtx r) (proc_count r)
    (proc_wait_thread r) (proc_wait_tid r) (proc_wait_thread_created r)
    (proc_wait_thread_started r) .
Definition set_px_timers (v : gmap ptr posix_timer) (r : posix) : posix :=
  Posix (px_kqs r) (px_knotes r) (px_filts r) v (px_vnodes r) (px_ppds r)
    (proc_pid_index r) (proc_init_mtx r) (proc_pid_index_mtx r) (proc_count r)
    (proc_wait_thread r) (proc_wait_tid r) (proc_wait_thread_created r)
    (proc_wait_thread_started r) .
Definition set_px_vnodes (v : gmap ptr stat) (r : posix) : posix :=
  Posix (px_kqs r) (px_knotes r) (px_filts r) (px_timers r) v (px_ppds r)
    (proc_pid_index r) (proc_init_mtx r) (proc_pid_index_mtx r) (proc_count r)
    (proc_wait_thread r) (proc_wait_tid r) (proc_wait_thread_created r)
    (proc_wait_thread_started r) .
Definition set_px_ppds (v : gmap ptr proc_pid) (r : posix) : posix :=
  Posix (px_kqs r) (px_knotes r) (px_filts r) (px_timers r) (px_vnodes r) v
    (proc_pid_index r) (proc_init_mtx r) (proc_pid_index_mtx r) (proc_count r)
    (proc_wait_thread r) (proc_wait_tid r) (proc_wait_thread_created r)
    (proc_wait_thread_started r) .
Definition set_proc_pid_index (v : tree entry) (r : posix) : posix :=
  Posix (px_kqs r) (px_knotes r) (px_filts r) (px_timers r) (px_vnodes r) (px_ppds r) v
    (proc_init_mtx r) (proc_pid_index_mtx r) (proc_count r) (proc_wait_thread r)
    (proc_wait_tid r) (proc_wait_thread_created r) (proc_wait_thread_started r) .
Definition set_proc_init_mtx (v : bool) (r : posix) : posix :=
  Posix (px_kqs r) (px_knotes r) (px_filts r) (px_timers r) (px_vnodes r) (px_ppds r)
    (proc_pid_index r) v (proc_pid_index_mtx r) (proc_count r) (proc_wait_thread r)
    (proc_wait_tid r) (proc_wait_thread_created r) (proc_wait_thread_started r) .
Definition set_proc_pid_index_mtx (v : nat) (r : posix) : posix :=
  Posix (px_kqs r) (px_knotes r) (px_filts r) (px_timers r) (px_vnodes r) (px_ppds r)
    (proc_pid_index r) (proc_init_mtx r) v (proc_count r) (proc_wait_thread r)
    (proc_wait_tid r) (proc_wait_thread_created r) (proc_wait_thread_started r) .
Definition set_proc_count (v : Z) (r : posix) : posix :=
  Posix (px_kqs r) (px_knotes r) (px_filts r) (px_timers r) (px_vnodes r) (px_ppds r)
    (proc_pid_index r) (proc_init_mtx r) (proc_pid_index_mtx r) v (proc_wait_thread r)
    (proc_wait_tid r) (proc_wait_thread_created r) (proc_wait_thread_started r) .
Definition set_proc_wait_thread (v : Z) (r : posix) : posix :=
  Posix (px_kqs r) (px_knotes r) (px_filts r) (px_timers r) (px_vnodes r) (px_ppds r)
    (proc_pid_index r) (proc_init_mtx r) (proc_pid_index_mtx r) (proc_count r) v
    (proc_wait_tid r) (proc_wait_thread_created r) (proc_wait_thread_started r) .
Definition set_proc_wait_tid (v : Z) (r : posix) : posix :=
  Posix (px_kqs r) (px_knotes r) (px_filts r) (px_timers r) (px_vnodes r) (px_ppds r)
    (proc_pid_index r) (proc_init_mtx r) (proc_pid_index_mtx r) (proc_count r)
    (proc_wait_thread r) v (proc_wait_thread_created r) (proc_wait_thread_started r) .
Definition set_proc_wait_thread_created (v : bool) (r : posix) : posix :=
  Posix (px_kqs r) (px_knotes r) (px_filts r) (px_timers r) (px_vnodes r) (px_ppds r)
    (proc_pid_index r) (proc_init_mtx r) (proc_pid_index_mtx r) (proc_count r)
    (proc_wait_thread r) (proc_wait_tid r) v (proc_wait_thread_started r) .
Definition set_proc_wait_thread_started (v : bool) (r : posix) : posix :=
  Posix (px_kqs r) (px_knotes r) (px_filts r) (px_timers r) (px_vnodes r) (px_ppds r)
    (proc_pid_index r) (proc_init_mtx r) (proc_pid_index_mtx r) (proc_count r)
    (proc_wait_thread r) (proc_wait_tid r) (proc_wait_thread_created r) v.

Definition set_kn_enabled (v : list ptr) (r : sig_link) : sig_link :=
  SigLink (sl_filt r) v (kn_disabled r).
Definition set_kn_disabled (v : list ptr) (r : sig_link) : sig_link :=
  SigLink (sl_filt r) (kn_enabled r) v.
Definition set_sfs_links (v : list sig_link) (r : sig_filter_state) : sig_filter_state :=
  SigFilterState v (sfs_pending r).
Definition set_sfs_pending (v : list ptr) (r : sig_filter_state) : sig_filter_state :=
  SigFilterState (sfs_links r) v.

Definition set_sigtbl (v : list (list ptr)) (r : sig_globals) : sig_globals :=
  SigGlobals v (sigtbl_mtx r) (sig_init_mtx r) (sig_thread_mtx r)
    (sig_filter_count r) (sig_dispatch_thread r) (sig_dispatch_thread_created r)
    (sig_dispatch_started r) (sig_pipe0 r) (sig_pipe1 r) (sig_signalfd r)
    (sig_active_set r).
Definition set_sigtbl_mtx (v : bool) (r : sig_globals) : sig_globals :=
  SigGlobals (sigtbl r) v (sig_init_mtx r) (sig_thread_mtx r) (sig_filter_count r)
    (sig_dispatch_thread r) (sig_dispatch_thread_created r) (sig_dispatch_started r)
    (sig_pipe0 r) (sig_pipe1 r) (sig_signalfd r) (sig_active_set r).
Definition set_sig_init_mtx (v : bool) (r : sig_globals) : sig_globals :=
  SigGlobals (sigtbl r) (sigtbl_mtx r) v (sig_thread_mtx r) (sig_filter_count r)
    (sig_dispatch_thread r) (sig_dispatch_thread_created r) (sig_dispatch_started r)
    (sig_pipe0 r) (sig_pipe1 r) (sig_signalfd r) (sig_active_set r).
Definition set_sig_thread_mtx (v : bool) (r : sig_globals) : sig_globals :=
  SigGlobals (sigtbl r) (sigtbl_mtx r) (sig_init_mtx r) v (sig_filter_count r)
    (sig_dispatch_thread r) (sig_dispatch_thread_created r) (sig_dispatch_started r)
    (sig_pipe0 r) (sig_pipe1 r) (sig_signalfd r) (sig_active_set r).
Definition set_sig_filter_count (v : Z) (r : sig_globals) : sig_globals :=
  SigGlobals (sigtbl r) (sigtbl_mtx r) (sig_init_mtx r) (sig_thread_mtx r) v
    (sig_dispatch_thread r) (sig_dispatch_thread_created r) (sig_dispatch_started r)
    (sig_pipe0 r) (sig_pipe1 r) (sig_signalfd r) (sig_active_set r).
Definition set_sig_dispatch_thread (v : Z) (r : sig_globals) : sig_globals :=
  SigGlobals (sigtbl r) (sigtbl_mtx r) (sig_init_mtx r) (sig_thread_mtx r)
    (sig_filter_count r) v (sig_dispatch_thread_created r) (sig_dispatch_started r)
    (sig_pipe0 r) (sig_pipe1 r) (sig_signalfd r) (sig_active_set r).
Definition set_sig_dispatch_thread_created (v : bool) (r : sig_globals) : sig_globals :=
  SigGlobals (sigtbl r) (sigtbl_mtx r) (sig_init_mtx r) (sig_thread_mtx r)
    (sig_filter_count r) (sig_dispatch_thread r) v (sig_dispatch_started r)
    (sig_pipe0 r) (sig_pipe1 r) (sig_signalfd r) (sig_active_set r).
Definition set_sig_dispatch_started (v : bool) (r : sig_globals) : sig_globals :=
  SigGlobals (sigtbl r) (sigtbl_mtx r) (sig_init_mtx r) (sig_thread_mtx r)
    (sig_filter_count r) (sig_dispatch_thread r) (sig_dispatch_thread_created r) v
    (sig_pipe0 r) (sig_pipe1 r) (sig_signalfd r) (sig_active_set r).
Definition set_sig_pipe0 (v : Z) (r : sig_globals) : sig_globals :=
  SigGlobals (sigtbl r) (sigtbl_mtx r) (sig_init_mtx r) (sig_thread_mtx r)
    (sig_filter_count r) (sig_dispatch_thread r) (sig_dispatch_thread_created r)
    (sig_dispatch_started r) v (sig_pipe1 r) (sig_signalfd r) (sig_active_set r).
Definition set_sig_pipe1 (v : Z) (r : sig_globals) : sig_globals :=
  SigGlobals (sigtbl r) (sigtbl_mtx r) (sig_init_mtx r) (sig_thread_mtx r)
    (sig_filter_count r) (sig_dispatch_thread r) (sig_dispatch_thread_created r)
    (sig_dispatch_started r) (sig_pipe0 r) v (sig_signalfd r) (sig_active_set r).
Definition set_sig_signalfd (v : Z) (r : sig_globals) : sig_globals :=
  SigGlobals (sigtbl r) (sigtbl_mtx r) (sig_init_mtx r) (sig_thread_mtx r)
    (sig_filter_count r) (sig_dispatch_thread r) (sig_dispatch_thread_created r)
    (sig_dispatch_started r) (sig_pipe0 r) (sig_pipe1 r) v (sig_active_set r).
Definition set_sig_active_set (v : gset Z) (r : sig_globals) : sig_globals :=
  SigGlobals (sigtbl r) (sigtbl_mtx r) (sig_init_mtx r) (sig_thread_mtx r)
    (sig_filter_count r) (sig_dispatch_thread r) (sig_dispatch_thread_created r)
    (sig_dispatch_started r) (sig_pipe0 r) (sig_pipe1 r) (sig_signalfd r) v.

(** A zeroed knote, as [calloc] returns it. *)
Definition knote_zero : knote :=
  Knote kevent_zero 0 None 0 0 0 None 0 0 0 0 0 0 0 0 0 None 0.

(** A zeroed [struct filter]. *)
Definition filter_zero : filter := Filter 0 None NULL [] 0 None None.

(** The signal filter's static variables at load time: [SIGNAL_MAX] is NSIG, 65. *)
Definition SIGNAL_MAX : Z := 65.
Definition sig_static : sig_globals :=
  SigGlobals (replicate (Z.to_nat SIGNAL_MAX) []) false false false 0 0 false false (-1) (-1) (-1) ∅.

(** The zeroed POSIX members, and the static variables at load time. *)
Definition posix_kq_zero : posix_kq := PosixKq ∅ ∅ ∅ ∅ 0 0 0 0 NULL.
Definition posix_knote_zero : posix_knote := PosixKnote None None false 0.
Definition posix_filt_zero : posix_filt := PosixFilt 0 0.
Definition solaris_static : solaris := Solaris [] ∅ ∅.
Definition win_kq_zero : win_kq := WinKq 0 [] 0 0 false 0.
Definition win_knote_zero : win_knote := WinKnote 0 0 None 0 0 0 false 0 false false false.
Definition win_filt_zero : win_filt := WinFilt 0 false.
Definition event_buf_zero : event_buf := EventBuf 0 0 OvNull.
Definition windows_static : windows := Windows event_buf_zero 0 0 0 ∅ ∅ ∅ ∅.
Definition posix_static : posix := Posix ∅ ∅ ∅ ∅ ∅ ∅ NULL false 0 0 0 0 false false.

(** A zeroed kqueue: every filter slot is empty. *)
Definition kqueue_zero : kqueue :=
  Kqueue 0 (replicate 12 filter_zero) false false 0 0 0 0 NULL None 0 [] [].

(** ** Primitive steps *)

Section Prim.
Context {K : Type} `{OS K}.
Implicit Types (w : world K) (p : ptr) (kn : knote) (kq : kqueue).

(** A system call: [None] when it fails, errno set. *)
Definition sys {A : Type} (c : syscall A) : M (world K) (option A) :=
  fun w => match os_call c (w_os w) with
           | (SOk a, k) => Ret (Some a) (set_w_os k w)
           | (SErr e, k) => Ret None (set_w_errno e (set_w_os k w))
           end.

Definition set_errno (e : Z) : M (world K) unit := modify (set_w_errno e).
Definition errno : M (world K) Z := gets w_errno.

(** A fresh address, or [None] (errno set by the allocator). *)
Definition alloc : M (world K) (option ptr) :=
  let! r := sys SysAlloc in
  match r with
  | None => ret None
  | Some _ =>
      let! p := gets w_next in
      modify (set_w_next (Pos.succ p)) ;;; ret (Some p)
  end.

Definition get_kn p : M (world K) knote :=
  let! o := gets (fun w => w_knotes w !! p) in deref UseAfterFree o.
Definition put_kn p kn : M (world K) unit :=
  modify (fun w => set_w_knotes (<[p := kn]> (w_knotes w)) w).
Definition upd_kn p (f : knote -> knote) : M (world K) unit :=
  let! kn := get_kn p in put_kn p (f kn).
Definition free_kn p : M (world K) unit :=
  let! _ := get_kn p in modify (fun w => set_w_knotes (delete p (w_knotes w)) w).

Definition get_kq p : M (world K) kqueue :=
  let! o := gets (fun w => w_kqs w !! p) in deref UseAfterFree o.
Definition put_kq p kq : M (world K) unit :=
  modify (fun w => set_w_kqs (<[p := kq]> (w_kqs w)) w).
Definition upd_kq p (f : kqueue -> kqueue) : M (world K) unit :=
  let! kq := get_kq p in put_kq p (f kq).

Definition get_ud p : M (world K) epoll_udata :=
  let! o := gets (fun w => w_udatas w !! p) in deref UseAfterFree o.
Definition put_ud p (u : epoll_udata) : M (world K) unit :=
  modify (fun w => set_w_udatas (<[p := u]> (w_udatas w)) w).
Definition free_ud p : M (world K) unit :=
  let! _ := get_ud p in modify (fun w => set_w_udatas (delete p (w_udatas w)) w).

Definition get_fds p : M (world K) fd_state :=
  let! o := gets (fun w => w_fdss w !! p) in deref UseAfterFree o.
Definition put_fds p (s : fd_state) : M (world K) unit :=
  modify (fun w => set_w_fdss (<[p := s]> (w_fdss w)) w).
Definition free_fds p : M (world K) unit :=
  let! _ := get_fds p in modify (fun w => set_w_fdss (delete p (w_fdss w)) w).

(** The event arrays of the caller; addresses count whole [struct kevent]s. *)
Definition load (a : Z) : M (world K) kevent :=
  let! o := gets (fun w => w_mem w !! a) in deref BadAddress o.
Definition store (a : Z) (k : kevent) : M (world K) unit :=
  let! _ := load a in modify (fun w => set_w_mem (<[a := k]> (w_mem w)) w).

(** [dst->field = ...] on an event of the caller's array *)
Definition upd_mem (a : Z) (g : kevent -> kevent) : M (world K) unit :=
  let! k := load a in store a (g k).

Definition get_filt (f : filt_ref) : M (world K) filter :=
  let! kq := get_kq f.1 in deref BadAddress (kq_filt kq !! f.2).
Definition put_filt (f : filt_ref) (x : filter) : M (world K) unit :=
  upd_kq f.1 (fun kq => set_kq_filt (<[f.2 := x]> (kq_filt kq)) kq).

Definition upd_filt (f : filt_ref) (g : filter -> filter) : M (world K) unit :=
  let! x := get_filt f in put_filt f (g x).

(** [kqueue_lock], [kqueue_unlock], [kqueue_mutex_assert(kq, MTX_LOCKED)] *)
Definition kqueue_lock p : M (world K) unit :=
  let! kq := get_kq p in
  if kq_locked kq then fail Deadlock else put_kq p (set_kq_locked true kq).
Definition kqueue_unlock p : M (world K) unit :=
  let! kq := get_kq p in
  if kq_locked kq then put_kq p (set_kq_locked false kq) else fail Deadlock.
Definition kqueue_mutex_assert p : M (world K) unit :=
  let! kq := get_kq p in assert_ (kq_locked kq).

(** [tracing_mutex_lock(&kq_mtx)] and its converse, for the global mutex *)
Definition mtx_lock : M (world K) unit :=
  let! b := gets w_mtx in if b then fail Deadlock else modify (set_w_mtx true).
Definition mtx_unlock : M (world K) unit :=
  let! b := gets w_mtx in if b then modify (set_w_mtx false) else fail Deadlock.

(** An operation of map.c on the global [kqmap]. *)
Definition on_kqmap {A : Type} (m : M map A) : M (world K) A :=
  fun w => match m (w_kqmap w) with
           | Ret a mp => Ret a (set_w_kqmap mp w)
           | Fault f => Fault f
           end.

(** *** Rules *)

Lemma wp_sys {A : Type} (c : syscall A) (Q : option A -> world K -> Prop) w :
  (forall a k, os_call c (w_os w) = (SOk a, k) -> Q (Some a) (set_w_os k w)) ->
  (forall e k, os_call c (w_os w) = (SErr e, k) ->
     Q None (set_w_errno e (set_w_os k w))) ->
  wp (sys c) Q w.
Proof. intros H1 H2. unfold wp, sys. destruct (os_call c (w_os w)) as [[a|e] k] eqn:E; auto. Qed.

Lemma wp_get_kn p kn (Q : knote -> world K -> Prop) w :
  w_knotes w !! p = Some kn -> Q kn w -> wp (get_kn p) Q w.
Proof. intros E HQ. unfold get_kn. wp_simpl. by rewrite E. Qed.

Lemma wp_upd_kn p kn f (Q : unit -> world K -> Prop) w :
  w_knotes w !! p = Some kn ->
  Q tt (set_w_knotes (<[p := f kn]> (w_knotes w)) w) -> wp (upd_kn p f) Q w.
Proof. intros E HQ. unfold upd_kn. wp_simpl. by eapply wp_get_kn. Qed.

Lemma wp_get_kq p kq (Q : kqueue -> world K -> Prop) w :
  w_kqs w !! p = Some kq -> Q kq w -> wp (get_kq p) Q w.
Proof. intros E HQ. unfold get_kq. wp_simpl. by rewrite E. Qed.

Lemma wp_upd_kq p kq f (Q : unit -> world K -> Prop) w :
  w_kqs w !! p = Some kq ->
  Q tt (set_w_kqs (<[p := f kq]> (w_kqs w)) w) -> wp (upd_kq p f) Q w.
Proof. intros E HQ. unfold upd_kq. wp_simpl. by eapply wp_get_kq. Qed.

Lemma wp_get_ud p u (Q : epoll_udata -> world K -> Prop) w :
  w_udatas w !! p = Some u -> Q u w -> wp (get_ud p) Q w.
Proof. intros E HQ. unfold get_ud. wp_simpl. by rewrite E. Qed.

Lemma wp_get_fds p s (Q : fd_state -> world K -> Prop) w :
  w_fdss w !! p = Some s -> Q s w -> wp (get_fds p) Q w.
Proof. intros E HQ. unfold get_fds. wp_simpl. by rewrite E. Qed.

Lemma wp_load a k (Q : kevent -> world K -> Prop) w :
  w_mem w !! a = Some k -> Q k w -> wp (load a) Q w.
Proof. intros E HQ. unfold load. wp_simpl. by rewrite E. Qed.

Lemma wp_store a k k0 (Q : unit -> world K -> Prop) w :
  w_mem w !! a = Some k0 ->
  Q tt (set_w_mem (<[a := k]> (w_mem w)) w) -> wp (store a k) Q w.
Proof. intros E HQ. unfold store. wp_simpl. by eapply wp_load. Qed.

Lemma wp_get_filt p i kq x (Q : filter -> world K -> Prop) w :
  w_kqs w !! p = Some kq -> kq_filt kq !! i = Some x -> Q x w ->
  wp (get_filt (p, i)) Q w.
Proof. intros E Ei HQ. unfold get_filt. wp_simpl. eapply wp_get_kq; [exact E|]. simpl. by rewrite Ei. Qed.

Lemma wp_put_filt p i kq x (Q : unit -> world K -> Prop) w :
  w_kqs w !! p = Some kq ->
  Q tt (set_w_kqs (<[p := set_kq_filt (<[i := x]> (kq_filt kq)) kq]> (w_kqs w)) w) ->
  wp (put_filt (p, i) x) Q w.
Proof. intros E HQ. unfold put_filt. by eapply wp_upd_kq. Qed.

Lemma wp_upd_filt p i kq x g (Q : unit -> world K -> Prop) w :
  w_kqs w !! p = Some kq -> kq_filt kq !! i = Some x ->
  Q tt (set_w_kqs (<[p := set_kq_filt (<[i := g x]> (kq_filt kq)) kq]> (w_kqs w)) w) ->
  wp (upd_filt (p, i) g) Q w.
Proof.
  intros E Ei HQ. unfold upd_filt. wp_simpl. eapply wp_get_filt; [done..|].
  by eapply wp_put_filt.
Qed.

Lemma wp_kqueue_lock p kq (Q : unit -> world K -> Prop) w :
  w_kqs w !! p = Some kq -> kq_locked kq = false ->
  Q tt (set_w_kqs (<[p := set_kq_locked true kq]> (w_kqs w)) w) ->
  wp (kqueue_lock p) Q w.
Proof. intros E El HQ. unfold kqueue_lock. wp_simpl. eapply wp_get_kq; [exact E|]. by rewrite El. Qed.

Lemma wp_kqueue_unlock p kq (Q : unit -> world K -> Prop) w :
  w_kqs w !! p = Some kq -> kq_locked kq = true ->
  Q tt (set_w_kqs (<[p := set_kq_locked false kq]> (w_kqs w)) w) ->
  wp (kqueue_unlock p) Q w.
Proof. intros E El HQ. unfold kqueue_unlock. wp_simpl. eapply wp_get_kq; [exact E|]. by rewrite El. Qed.

Lemma kqueue_lock_run p kq w :
  w_kqs w !! p = Some kq -> kq_locked kq = false ->
  kqueue_lock p w = Ret tt (set_w_kqs (<[p := set_kq_locked true kq]> (w_kqs w)) w).
Proof.
  intros E El. destruct (proj1 (wp_elim _ _ _) (wp_kqueue_lock p kq (fun _ w' => w' = _) w E El eq_refl)) as ([] & w' & -> & ->). done.
Qed.

Lemma kqueue_unlock_run p kq w :
  w_kqs w !! p = Some kq -> kq_locked kq = true ->
  kqueue_unlock p w = Ret tt (set_w_kqs (<[p := set_kq_locked false kq]> (w_kqs w)) w).
Proof.
  intros E El. destruct (proj1 (wp_elim _ _ _) (wp_kqueue_unlock p kq (fun _ w' => w' = _) w E El eq_refl)) as ([] & w' & -> & ->). done.
Qed.

Lemma wp_mutex_assert p kq (Q : unit -> world K -> Prop) w :
  w_kqs w !! p = Some kq -> kq_locked kq = true -> Q tt w ->
  wp (kqueue_mutex_assert p) Q w.
Proof.
  intros E El HQ. unfold kqueue_mutex_assert. wp_simpl.
  eapply wp_get_kq; [exact E|]. by rewrite El.
Qed.

Lemma wp_alloc (Q : option ptr -> world K -> Prop) w :
  (forall k, Q (Some (w_next w)) (set_w_next (Pos.succ (w_next w)) (set_w_os k w))) ->
  (forall e k, Q None (set_w_errno e (set_w_os k w))) ->
  wp alloc Q w.
Proof.
  intros H1 H2. unfold alloc. wp_simpl. apply wp_sys; intros; wp_simpl; [apply H1|apply H2].
Qed.
End Prim.


(** Consecutive updates of the same heap. *)
Section Twice.
Context {K : Type}.
Implicit Types w : world K.
Lemma set_w_knotes_twice a b w : set_w_knotes a (set_w_knotes b w) = set_w_knotes a w.
Proof. done. Qed.
Lemma set_w_kqs_twice a b w : set_w_kqs a (set_w_kqs b w) = set_w_kqs a w.
Proof. done. Qed.
Lemma set_w_udatas_twice a b w : set_w_udatas a (set_w_udatas b w) = set_w_udatas a w.
Proof. done. Qed.
Lemma set_w_errno_twice a b w : set_w_errno a (set_w_errno b w) = set_w_errno a w.
Proof. done. Qed.
Lemma set_w_mem_twice a b w : set_w_mem a (set_w_mem b w) = set_w_mem a w.
Proof. done. Qed.
End Twice.
#[export] Hint Rewrite @set_w_knotes_twice @set_w_kqs_twice @set_w_udatas_twice
  @set_w_errno_twice @set_w_mem_twice : wp.

(** Symbolic execution of the primitives on a state whose objects are known. *)
Ltac wp_lookup :=
  simpl; simplify_map_eq;
  repeat (rewrite list_lookup_insert_eq
            by (rewrite ?length_insert; eapply lookup_lt_Some; eassumption));
  first [reflexivity | eassumption].
Ltac wp_prim :=
  first
    [ eapply wp_get_kn; [solve [wp_lookup]|]
    | eapply wp_upd_kn; [solve [wp_lookup]|]
    | eapply wp_get_filt; [solve [wp_lookup]|solve [wp_lookup]|]
    | eapply wp_put_filt; [solve [wp_lookup]|]
    | eapply wp_upd_filt; [solve [wp_lookup]|solve [wp_lookup]|]
    | eapply wp_mutex_assert; [solve [wp_lookup]|solve [wp_lookup]|]
    | eapply wp_get_kq; [solve [wp_lookup]|]
    | eapply wp_upd_kq; [solve [wp_lookup]|]
    | eapply wp_get_ud; [solve [wp_lookup]|]
    | eapply wp_get_fds; [solve [wp_lookup]|] ].
Ltac wp_go := cbn [fst snd]; wp_simpl; wp_prim; wp_simpl.
