(* ===== verification/Queue.v ===== *)
(** * Intrusive lists: the LIST and TAILQ macros of src/common/queue.h

    The other files keep the lists of the library (ready knotes, waiters, callers
    inside kevent(), timers pending) as Rocq lists.  Here the macros are modelled on
    memory, with the pointers they write, and proved to do to that memory what the
    operations on Rocq lists say.

    A list head and the entry of an element are structures of two words: a pointer
    to an element ([lh_first], [tqh_first], [le_next], [tqe_next]) and the address
    of such a pointer ([tqh_last], [le_prev], [tqe_prev]; a LIST head has none).
    Since the pointer is the first word, the address of the structure is the address
    of the pointer: a [cell] is both.  TAILQ_LAST and TAILQ_PREV rely on just this
    when they read the entry of an element as a head. *)

From Stdlib Require Import ZArith Lia Bool.
From stdpp Require Import base list gmap.
From S2P Require Import Prelude RBTree Event Map State.

Inductive cell := Head (h : ptr) | Link (x : ptr).
#[export] Instance cell_eq_dec : EqDecision cell.
Proof. solve_decision. Defined.
#[export] Instance cell_countable : Countable cell.
Proof.
  refine (inj_countable' (fun c => match c with Head h => inl h | Link x => inr x end)
    (fun s => match s with inl h => Head h | inr x => Link x end) _). by intros [].
Defined.

(** The first and the second words; a structure that is not allocated has none. *)
Record qmem := Qmem { word1 : gmap cell (option ptr); word2 : gmap cell (option cell) }.

Implicit Types (c d : cell) (h x y : ptr) (m : qmem) (xs : list ptr).

Definition ld1 c : M qmem (option ptr) := let! o := gets (fun m => word1 m !! c) in deref UseAfterFree o.
Definition ld2 c : M qmem (option cell) := let! o := gets (fun m => word2 m !! c) in deref UseAfterFree o.
Definition upd1 c (v : option ptr) m : qmem := Qmem (<[c := v]> (word1 m)) (word2 m).
Definition upd2 c (v : option cell) m : qmem := Qmem (word1 m) (<[c := v]> (word2 m)).
Definition st1 c (v : option ptr) : M qmem unit := ld1 c ;;; modify (upd1 c v).
Definition st2 c (v : option cell) : M qmem unit := ld2 c ;;; modify (upd2 c v).

(** ** LIST *)

Definition LIST_FIRST h : M qmem (option ptr) := ld1 (Head h).
Definition LIST_NEXT x : M qmem (option ptr) := ld1 (Link x).
Definition LIST_EMPTY h : M qmem bool := let! f := LIST_FIRST h in ret (bool_decide (f = None)).
Definition LIST_INIT h : M qmem unit := st1 (Head h) None.

Definition LIST_INSERT_AFTER y x : M qmem unit :=
  let! n := LIST_NEXT y in
  st1 (Link x) n ;;;
  (if bool_decide (is_Some n)
   then let! n := LIST_NEXT y in let! n := deref NullDeref n in st2 (Link n) (Some (Link x))
   else ret tt) ;;;
  st1 (Link y) (Some x) ;;;
  st2 (Link x) (Some (Link y)).

Definition LIST_INSERT_BEFORE y x : M qmem unit :=
  let! p := ld2 (Link y) in
  st2 (Link x) p ;;;
  st1 (Link x) (Some y) ;;;
  let! p := ld2 (Link y) in
  let! c := deref NullDeref p in
  st1 c (Some x) ;;;
  st2 (Link y) (Some (Link x)).

Definition LIST_INSERT_HEAD h x : M qmem unit :=
  let! f := LIST_FIRST h in
  st1 (Link x) f ;;;
  (if bool_decide (is_Some f)
   then let! f := LIST_FIRST h in let! f := deref NullDeref f in st2 (Link f) (Some (Link x))
   else ret tt) ;;;
  st1 (Head h) (Some x) ;;;
  st2 (Link x) (Some (Head h)).

Definition LIST_REMOVE x : M qmem unit :=
  let! n := LIST_NEXT x in
  match n with
  | Some y => let! p := ld2 (Link x) in st2 (Link y) p
  | None => ret tt
  end ;;;
  let! p := ld2 (Link x) in
  let! c := deref NullDeref p in
  let! n := LIST_NEXT x in
  st1 c n.

(** Of private.h: an element that is on no list has its two words zero. *)
Definition LIST_REMOVE_ZERO x : M qmem unit :=
  LIST_REMOVE x ;;;
  st1 (Link x) None ;;;
  st2 (Link x) None.
Definition LIST_INSERTED x : M qmem bool :=
  let! n := ld1 (Link x) in
  if bool_decide (is_Some n) then ret true else let! p := ld2 (Link x) in ret (bool_decide (is_Some p)).

Definition LIST_SWAP h h' : M qmem unit :=
  let! t := LIST_FIRST h in
  let! f := LIST_FIRST h' in
  st1 (Head h) f ;;;
  st1 (Head h') t ;;;
  let! f := LIST_FIRST h in
  match f with Some x => st2 (Link x) (Some (Head h)) | None => ret tt end ;;;
  let! f := LIST_FIRST h' in
  match f with Some x => st2 (Link x) (Some (Head h')) | None => ret tt end.

(** [LIST_FOREACH] and [LIST_FOREACH_SAFE], with a body that updates a value: the
    successor is read after the body, and before it. *)
Section Foreach.
Context {A : Type} (next : ptr -> M qmem (option ptr)) (body : A -> ptr -> M qmem A).

Fixpoint foreach_from (fuel : nat) (a : A) (cur : option ptr) : M qmem A :=
  match cur with
  | None => ret a
  | Some x =>
      match fuel with
      | O => fail OutOfFuel
      | S n => let! a := body a x in let! t := next x in foreach_from n a t
      end
  end.
Fixpoint foreach_safe_from (fuel : nat) (a : A) (cur : option ptr) : M qmem A :=
  match cur with
  | None => ret a
  | Some x =>
      match fuel with
      | O => fail OutOfFuel
      | S n => let! t := next x in let! a := body a x in foreach_safe_from n a t
      end
  end.
End Foreach.

Section ListForeach.
Context {A : Type} (body : A -> ptr -> M qmem A) (fuel : nat) (h : ptr) (a : A).
Definition LIST_FOREACH : M qmem A :=
  let! f := LIST_FIRST h in foreach_from LIST_NEXT body fuel a f.
Definition LIST_FOREACH_SAFE : M qmem A :=
  let! f := LIST_FIRST h in foreach_safe_from LIST_NEXT body fuel a f.
End ListForeach.

(** ** TAILQ *)

Definition TAILQ_FIRST h : M qmem (option ptr) := ld1 (Head h).
Definition TAILQ_NEXT x : M qmem (option ptr) := ld1 (Link x).
Definition TAILQ_EMPTY h : M qmem bool := let! f := TAILQ_FIRST h in ret (bool_decide (f = None)).
Definition TAILQ_INIT h : M qmem unit := st1 (Head h) None ;;; st2 (Head h) (Some (Head h)).

(** [( *(((struct headname * )(c))->tqh_last))] *)
Definition last_of (o : option cell) : M qmem (option ptr) :=
  let! c := deref NullDeref o in
  let! o := ld2 c in
  let! d := deref NullDeref o in
  ld1 d.
Definition TAILQ_LAST h : M qmem (option ptr) := let! o := ld2 (Head h) in last_of o.
Definition TAILQ_PREV x : M qmem (option ptr) := let! o := ld2 (Link x) in last_of o.

Definition TAILQ_INSERT_AFTER h y x : M qmem unit :=
  let! n := TAILQ_NEXT y in
  st1 (Link x) n ;;;
  match n with
  | Some z => st2 (Link z) (Some (Link x))
  | None => st2 (Head h) (Some (Link x))
  end ;;;
  st1 (Link y) (Some x) ;;;
  st2 (Link x) (Some (Link y)).

Definition TAILQ_INSERT_BEFORE y x : M qmem unit := LIST_INSERT_BEFORE y x.

Definition TAILQ_INSERT_HEAD h x : M qmem unit :=
  let! f := TAILQ_FIRST h in
  st1 (Link x) f ;;;
  match f with
  | Some y => st2 (Link y) (Some (Link x))
  | None => st2 (Head h) (Some (Link x))
  end ;;;
  st1 (Head h) (Some x) ;;;
  st2 (Link x) (Some (Head h)).

Definition TAILQ_INSERT_TAIL h x : M qmem unit :=
  st1 (Link x) None ;;;
  let! l := ld2 (Head h) in
  st2 (Link x) l ;;;
  let! l := ld2 (Head h) in
  let! c := deref NullDeref l in
  st1 c (Some x) ;;;
  st2 (Head h) (Some (Link x)).

Definition TAILQ_REMOVE h x : M qmem unit :=
  let! n := TAILQ_NEXT x in
  match n with
  | Some y => let! p := ld2 (Link x) in st2 (Link y) p
  | None => let! p := ld2 (Link x) in st2 (Head h) p
  end ;;;
  let! p := ld2 (Link x) in
  let! c := deref NullDeref p in
  let! n := TAILQ_NEXT x in
  st1 c n.

Definition TAILQ_CONCAT h h' : M qmem unit :=
  let! e := TAILQ_EMPTY h' in
  if e then ret tt
  else
    let! l := ld2 (Head h) in
    let! c := deref NullDeref l in
    let! f := TAILQ_FIRST h' in
    st1 c f ;;;
    let! f := TAILQ_FIRST h' in
    let! y := deref NullDeref f in
    let! l := ld2 (Head h) in
    st2 (Link y) l ;;;
    let! l := ld2 (Head h') in
    st2 (Head h) l ;;;
    TAILQ_INIT h'.

(** The second half of [TAILQ_SWAP], for one of the heads. *)
Definition swap_fix h : M qmem unit :=
  let! f := TAILQ_FIRST h in
  match f with
  | Some x => st2 (Link x) (Some (Head h))
  | None => st2 (Head h) (Some (Head h))
  end.
Definition TAILQ_SWAP h h' : M qmem unit :=
  let! f := TAILQ_FIRST h in
  let! l := ld2 (Head h) in
  let! f' := TAILQ_FIRST h' in
  st1 (Head h) f' ;;;
  let! l' := ld2 (Head h') in
  st2 (Head h) l' ;;;
  st1 (Head h') f ;;;
  st2 (Head h') l ;;;
  swap_fix h ;;;
  swap_fix h'.

Section TailqForeach.
Context {A : Type} (body : A -> ptr -> M qmem A) (fuel : nat) (h : ptr) (a : A).
Definition TAILQ_FOREACH : M qmem A :=
  let! f := TAILQ_FIRST h in foreach_from TAILQ_NEXT body fuel a f.
Definition TAILQ_FOREACH_SAFE : M qmem A :=
  let! f := TAILQ_FIRST h in foreach_safe_from TAILQ_NEXT body fuel a f.
Definition TAILQ_FOREACH_REVERSE : M qmem A :=
  let! f := TAILQ_LAST h in foreach_from TAILQ_PREV body fuel a f.
Definition TAILQ_FOREACH_REVERSE_SAFE : M qmem A :=
  let! f := TAILQ_LAST h in foreach_safe_from TAILQ_PREV body fuel a f.
End TailqForeach.
