(* ===== verification/QueueSpec.v ===== *)
(** * The LIST and TAILQ macros do what lists do

    [chain m c xs]: from the pointer at [c] the elements [xs] follow each other, each
    with the address of the pointer to it, up to NULL.  Every macro is proved against
    the operation on [xs] that the other files use in its place, first on one list,
    then on the lists of a whole memory ([list_macros_refine], [tailq_macros_refine]). *)

From Stdlib Require Import ZArith Lia Bool.
From stdpp Require Import base list gmap.
From S2P Require Import Prelude RBTree Event Map State Queue.

Implicit Types (c d : cell) (h x y z : ptr) (m : qmem) (xs l : list ptr).

(** The pointer after the last element. *)
Fixpoint endc c xs : cell :=
  match xs with [] => c | x :: xs => endc (Link x) xs end.

Fixpoint seg m c xs : Prop :=
  match xs with
  | [] => True
  | x :: xs => word1 m !! c = Some (Some x) /\ word2 m !! Link x = Some (Some c) /\ seg m (Link x) xs
  end.

Definition chain m c xs : Prop := seg m c xs /\ word1 m !! endc c xs = Some None.

(** The cells of a list. *)
Definition cells c xs : list cell := c :: (Link <$> xs).

#[export] Instance Link_inj : Inj (=) (=) Link.
Proof. by intros x y [=]. Qed.

Lemma endc_app c l1 l2 : endc c (l1 ++ l2) = endc (endc c l1) l2.
Proof. revert c. induction l1 as [|x l1 IH]; intros c; simpl; [done|apply IH]. Qed.
Lemma endc_In c xs : endc c xs ∈ cells c xs.
Proof.
  revert c. induction xs as [|x xs IH]; intros c; [by left|]. right. apply IH.
Qed.
Lemma endc_last c xs : endc c xs = match last xs with Some x => Link x | None => c end.
Proof.
  induction xs as [|x xs IH] using rev_ind; [done|]. by rewrite endc_app, last_snoc.
Qed.

Lemma seg_app m c l1 l2 : seg m c (l1 ++ l2) <-> seg m c l1 /\ seg m (endc c l1) l2.
Proof.
  revert c. induction l1 as [|x l1 IH]; intros c; simpl; [tauto|]. rewrite IH. tauto.
Qed.
Lemma chain_app m c l1 l2 : chain m c (l1 ++ l2) <-> seg m c l1 /\ chain m (endc c l1) l2.
Proof. unfold chain. rewrite seg_app, endc_app. tauto. Qed.
Lemma chain_cons m c x xs :
  chain m c (x :: xs) <-> word1 m !! c = Some (Some x) /\ word2 m !! Link x = Some (Some c) /\ chain m (Link x) xs.
Proof. unfold chain. simpl. tauto. Qed.

Lemma chain_first m c xs : chain m c xs -> word1 m !! c = Some (head xs).
Proof. intros [Hs He]. destruct xs; [done|apply Hs]. Qed.

Lemma cells_app c l1 l2 :
  NoDup (cells c (l1 ++ l2)) -> NoDup (cells c l1) /\ NoDup (cells (endc c l1) l2) /\
  (forall d, d ∈ cells c l1 -> d ∉ Link <$> l2).
Proof.
  unfold cells. rewrite fmap_app. intros Hnd.
  change (c :: (Link <$> l1) ++ (Link <$> l2)) with ((c :: (Link <$> l1)) ++ (Link <$> l2)) in Hnd.
  apply NoDup_app in Hnd as (H1 & H2 & H3). split_and!; [done| |done]. constructor; [|done].
  apply H2, endc_In.
Qed.

(** A segment does not see changes elsewhere, nor of the pointer at its end. *)
Lemma seg_ext m m' c xs :
  NoDup (cells c xs) ->
  (forall d, d ∈ cells c xs -> d <> endc c xs -> word1 m' !! d = word1 m !! d) ->
  (forall x, x ∈ xs -> word2 m' !! Link x = word2 m !! Link x) ->
  seg m c xs -> seg m' c xs.
Proof.
  revert c. induction xs as [|x xs IH]; intros c Hnd H1 H2 Hs; [done|].
  destruct Hs as (Hc & Hx & Hs). apply NoDup_cons in Hnd as [Hni Hnd]. simpl. split_and!.
  - rewrite H1; [done|by left|]. simpl. intros ->. apply Hni, endc_In.
  - rewrite H2; [done|by left].
  - apply IH; [done| | |done].
    + intros d Hd Hne. apply H1; [by right|done].
    + intros y Hy. apply H2. by right.
Qed.
Lemma chain_ext m m' c xs :
  NoDup (cells c xs) -> (forall d, d ∈ cells c xs -> word1 m' !! d = word1 m !! d) ->
  (forall x, x ∈ xs -> word2 m' !! Link x = word2 m !! Link x) ->
  chain m c xs -> chain m' c xs.
Proof.
  intros Hnd H1 H2 [Hs He]. split; [|by rewrite H1 by apply endc_In].
  apply (seg_ext m); [done| |done|done]. intros d Hd _. by apply H1.
Qed.

(** [x] comes between [l1] and [l2], or leaves that place.  What is said of [m'] are
    the words the macros write. *)
Definition next_prev m l (v : option cell) : Prop := forall y, head l = Some y -> word2 m !! Link y = Some v.

Lemma chain_tail m m' c l v :
  NoDup (cells c l) -> chain m c l ->
  word1 m' !! v = Some (head l) -> next_prev m' l (Some v) ->
  (forall x, x ∈ l -> word1 m' !! Link x = word1 m !! Link x) ->
  (forall x, x ∈ l -> head l <> Some x -> word2 m' !! Link x = word2 m !! Link x) ->
  chain m' v l.
Proof.
  intros Hnd Hc Hv Hp H1 H2. destruct l as [|y l]; [by split|].
  apply chain_cons in Hc as (Hy & Hy2 & Hc). apply chain_cons. split_and!; [done|by apply Hp|].
  apply NoDup_cons in Hnd as [_ Hnd]. apply (chain_ext m); [done| | |done].
  - intros d Hd. change (d ∈ Link <$> (y :: l)) in Hd. apply list_elem_of_fmap in Hd as (x & -> & Hx). by apply H1.
  - intros x Hx. apply H2; [by right|]. intros [= ->]. apply NoDup_cons in Hnd as [Hni _].
    apply Hni. by apply list_elem_of_fmap_2.
Qed.

(** What is distinct around the place of [x]. *)
Record splice c l1 x l2 : Prop :=
  { sp_l1 : NoDup (cells c l1);
    sp_x : NoDup (cells (Link x) l2);
    sp_l2 : NoDup (cells (endc c l1) l2);
    sp_cell : forall d, d ∈ cells c l1 -> d <> Link x;
    sp_before : forall y, y ∈ l1 -> y <> x /\ head l2 <> Some y;
    sp_after : forall y, y ∈ l2 -> y <> x /\ Link y <> endc c l1 }.

Lemma splice_intro c l1 x l2 : NoDup (cells c (l1 ++ x :: l2)) -> splice c l1 x l2.
Proof.
  intros Hnd. apply cells_app in Hnd as (Hnd1 & Hnd2 & Hdis).
  pose proof (proj1 (NoDup_cons _ _) Hnd2) as [Hni Hx]. pose proof (proj1 (NoDup_cons _ _) Hx) as [Hxn Hl2].
  split; try done.
  - constructor; [set_solver|done].
  - intros d Hd ->. apply (Hdis _ Hd). by left.
  - intros y Hy. assert (Hne : y ∉ x :: l2).
    { intros Hin. apply (Hdis (Link y)); [right|]; by apply list_elem_of_fmap_2. }
    split; [set_solver|]. destruct l2; [done|]. intros [= ->]. set_solver.
  - intros y Hy. split; [intros ->|intros Heq].
    + apply Hxn. by apply list_elem_of_fmap_2.
    + apply Hni. rewrite <- Heq. right. by apply list_elem_of_fmap_2.
Qed.

(** Words written around the place of [x] leave the elements before it alone. *)
Lemma splice_before m m' c l1 x l2 :
  splice c l1 x l2 -> seg m c l1 ->
  (forall d, d <> endc c l1 -> d <> Link x -> word1 m' !! d = word1 m !! d) ->
  (forall y, y <> x -> head l2 <> Some y -> word2 m' !! Link y = word2 m !! Link y) -> seg m' c l1.
Proof.
  intros [S1 _ _ S2 S3 _] Hs H1 H2. apply (seg_ext m); [done| | |done].
  - intros d Hd Hne. apply H1; [done|by apply S2].
  - intros y Hy. by apply H2; apply S3.
Qed.

Lemma sp_next c l1 x l2 : splice c l1 x l2 ->
  forall y, head l2 = Some y -> y <> x /\ Link y <> endc c l1.
Proof. intros [_ _ _ _ _ S] y Hy. apply S. destruct l2; simplify_eq/=. by left. Qed.

Lemma chain_insert m m' c l1 l2 x :
  NoDup (cells c (l1 ++ x :: l2)) -> chain m c (l1 ++ l2) ->
  word1 m' !! endc c l1 = Some (Some x) -> word2 m' !! Link x = Some (Some (endc c l1)) ->
  word1 m' !! Link x = Some (head l2) -> next_prev m' l2 (Some (Link x)) ->
  (forall d, d <> endc c l1 -> d <> Link x -> word1 m' !! d = word1 m !! d) ->
  (forall y, y <> x -> head l2 <> Some y -> word2 m' !! Link y = word2 m !! Link y) ->
  chain m' c (l1 ++ x :: l2).
Proof.
  intros Hnd Hc He Hx Hx1 Hp H1 H2. apply splice_intro in Hnd as Hsp.
  apply chain_app in Hc as [Hs Hc]. apply chain_app.
  split; [by eapply splice_before|apply chain_cons; split_and!; [done..|]].
  destruct Hsp as [_ _ S2 _ _ S3]. apply (chain_tail m m' (endc c l1)); [done..| |].
  - intros y Hy. apply H1; [by apply S3|]. intros ?%(inj Link). by destruct (S3 y Hy).
  - intros y Hy Hh. apply H2; [by apply S3|done].
Qed.

Lemma chain_remove m m' c l1 l2 x :
  NoDup (cells c (l1 ++ x :: l2)) -> chain m c (l1 ++ x :: l2) ->
  word1 m' !! endc c l1 = Some (head l2) -> next_prev m' l2 (Some (endc c l1)) ->
  (forall d, d <> endc c l1 -> d <> Link x -> word1 m' !! d = word1 m !! d) ->
  (forall y, y <> x -> head l2 <> Some y -> word2 m' !! Link y = word2 m !! Link y) ->
  chain m' c (l1 ++ l2).
Proof.
  intros Hnd Hc He Hp H1 H2. apply splice_intro in Hnd as Hsp.
  apply chain_app in Hc as [Hs Hc]. apply chain_cons in Hc as (_ & _ & Hc). apply chain_app.
  split; [by eapply splice_before|]. destruct Hsp as [_ S1 _ _ _ S3].
  apply (chain_tail m m' (Link x)); [done..| |].
  - intros y Hy. apply H1; [by apply S3|]. intros ?%(inj Link). by destruct (S3 y Hy).
  - intros y Hy Hh. apply H2; [by apply S3|done].
Qed.

(** ** Running the macros *)

Lemma wp_ld1 c v (Q : option ptr -> qmem -> Prop) m : word1 m !! c = Some v -> Q v m -> wp (ld1 c) Q m.
Proof. intros E HQ. unfold ld1. wp_simpl. by rewrite E. Qed.
Lemma wp_ld2 c v (Q : option cell -> qmem -> Prop) m : word2 m !! c = Some v -> Q v m -> wp (ld2 c) Q m.
Proof. intros E HQ. unfold ld2. wp_simpl. by rewrite E. Qed.
Lemma wp_st1 c v (Q : unit -> qmem -> Prop) m :
  is_Some (word1 m !! c) -> Q tt (upd1 c v m) -> wp (st1 c v) Q m.
Proof. intros [o E] HQ. unfold st1. wp_simpl. by eapply wp_ld1. Qed.
Lemma wp_st2 c v (Q : unit -> qmem -> Prop) m :
  is_Some (word2 m !! c) -> Q tt (upd2 c v m) -> wp (st2 c v) Q m.
Proof. intros [o E] HQ. unfold st2. wp_simpl. by eapply wp_ld2. Qed.

(** A lookup through the writes made so far. *)
Ltac q_look := cbn [word1 word2 upd1 upd2];
  repeat first [rewrite lookup_insert_eq | rewrite lookup_insert_ne by congruence]; eauto; done.
Ltac q_step := wp_simpl;
  first [eapply wp_ld1; [q_look|] | eapply wp_ld2; [q_look|]
       | eapply wp_st1; [q_look|] | eapply wp_st2; [q_look|]].
Ltac q_go := repeat q_step; wp_simpl.

(** The memory of an element. *)
Definition live m x : Prop := is_Some (word1 m !! Link x) /\ is_Some (word2 m !! Link x).

(** The words of [m'] outside the cells of a list are those of [m]. *)
Definition local m m' (cs : list cell) : Prop :=
  (forall d, d ∉ cs -> word1 m' !! d = word1 m !! d /\ word2 m' !! d = word2 m !! d) /\
  (forall d, is_Some (word1 m !! d) -> is_Some (word1 m' !! d)) /\
  (forall d, is_Some (word2 m !! d) -> is_Some (word2 m' !! d)).

Lemma local_refl m cs : local m m cs.
Proof. by split_and!. Qed.
Lemma local_upd1 m m' c v cs : c ∈ cs -> local m m' cs -> local m (upd1 c v m') cs.
Proof.
  intros Hc (H1 & H2 & H3). split_and!; [| |done]; cbn [word1 word2 upd1].
  - intros d Hd. rewrite lookup_insert_ne by (by intros <-). by apply H1.
  - intros d Hd. destruct (decide (d = c)) as [->|Hne]; [by rewrite lookup_insert_eq|].
    rewrite lookup_insert_ne by done. by apply H2.
Qed.
Lemma local_upd2 m m' c v cs : c ∈ cs -> local m m' cs -> local m (upd2 c v m') cs.
Proof.
  intros Hc (H1 & H2 & H3). split_and!; [|done|]; cbn [word1 word2 upd2].
  - intros d Hd. rewrite lookup_insert_ne by (by intros <-). by apply H1.
  - intros d Hd. destruct (decide (d = c)) as [->|Hne]; [by rewrite lookup_insert_eq|].
    rewrite lookup_insert_ne by done. by apply H3.
Qed.
Lemma cells_Link c x xs : x ∈ xs -> Link x ∈ cells c xs.
Proof. intros Hx. right. by apply list_elem_of_fmap_2. Qed.
Lemma cells_endc c l1 l2 : endc c l1 ∈ cells c (l1 ++ l2).
Proof. unfold cells. rewrite fmap_app. pose proof (endc_In c l1). set_solver. Qed.

Ltac q_in := first [by left | apply cells_Link; set_solver | apply cells_endc | set_solver].
Ltac q_local := repeat first [apply local_refl | apply local_upd1; [q_in|] | apply local_upd2; [q_in|]].
(** The hypotheses of [chain_insert] and [chain_remove]. *)
Ltac q_word := simpl; intros; cbn [word1 word2 upd1 upd2] in *; unfold next_prev in *; simplify_eq/=; intros;
  simplify_eq/=;
  repeat first [rewrite lookup_insert_eq | rewrite lookup_insert_ne by congruence]; eauto; done.

Lemma LIST_INSERT_HEAD_ok m h x xs :
  NoDup (cells (Head h) (x :: xs)) -> chain m (Head h) xs -> live m x ->
  wp (LIST_INSERT_HEAD h x) (fun _ m' => chain m' (Head h) (x :: xs) /\ local m m' (cells (Head h) (x :: xs))) m.
Proof.
  intros Hnd Hc [[n1 L1] [n2 L2]]. pose proof (chain_first _ _ _ Hc) as Hf. unfold LIST_INSERT_HEAD, LIST_FIRST.
  pose proof (sp_next _ _ _ _ (splice_intro (Head h) [] x xs Hnd)) as Hy. q_go. destruct xs as [|y xs].
  - simpl. q_go. split; [|q_local].
    apply (chain_insert m _ (Head h) [] [] x); try done; q_word.
  - destruct (Hy y eq_refl) as [Hyx _]. pose proof (proj1 (proj2 (proj1 Hc))) as Hy2.
    rewrite bool_decide_eq_true_2 by done. simpl. q_go. split; [|q_local].
    apply (chain_insert m _ (Head h) [] (y :: xs) x); try done; try q_word.
Qed.

(** The words around an element. *)
Lemma chain_at m c l1 x l2 :
  chain m c (l1 ++ x :: l2) ->
  word1 m !! endc c l1 = Some (Some x) /\ word2 m !! Link x = Some (Some (endc c l1)) /\
  word1 m !! Link x = Some (head l2) /\ next_prev m l2 (Some (Link x)).
Proof.
  intros [Hs Hc]%chain_app. apply chain_cons in Hc as (H1 & H2 & Hc). split_and!; [done..|by apply chain_first|].
  intros y Hy. destruct l2 as [|z l2]; simplify_eq/=. apply Hc.
Qed.

Lemma snoc_app l1 y l2 : (l1 ++ [y]) ++ l2 = l1 ++ y :: l2.
Proof. by rewrite <- app_assoc. Qed.
Lemma endc_snoc c l1 y : endc c (l1 ++ [y]) = Link y.
Proof. by rewrite endc_app. Qed.

Lemma LIST_INSERT_AFTER_ok m h l1 y l2 x :
  NoDup (cells (Head h) (l1 ++ y :: x :: l2)) -> chain m (Head h) (l1 ++ y :: l2) -> live m x ->
  wp (LIST_INSERT_AFTER y x) (fun _ m' => chain m' (Head h) (l1 ++ y :: x :: l2) /\
    local m m' (cells (Head h) (l1 ++ y :: x :: l2))) m.
Proof.
  intros Hnd Hc [[n1 L1] [n2 L2]]. destruct (chain_at _ _ _ _ _ Hc) as (_ & _ & Hy & Hp).
  rewrite <- (snoc_app l1 y l2) in Hc. rewrite <- (snoc_app l1 y (x :: l2)) in *. pose proof (splice_intro _ _ _ _ Hnd) as Hsp. pose proof (sp_next _ _ _ _ Hsp) as Hn.
  pose proof (sp_before _ _ _ _ Hsp y ltac:(set_solver)) as [Hyx _]. rewrite endc_snoc in Hn.
  assert (Hin : y ∈ (l1 ++ [y]) ++ x :: l2) by set_solver.
  unfold LIST_INSERT_AFTER, LIST_NEXT. q_go. destruct l2 as [|z l2].
  - simpl. q_go. split; [|q_local].
    apply (chain_insert m); rewrite ?endc_snoc; try done; try q_word.
  - destruct (Hn z eq_refl) as [Hzx Hzy]. specialize (Hp z eq_refl).
    rewrite bool_decide_eq_true_2 by done. simpl. q_go. split; [|q_local].
    apply (chain_insert m); rewrite ?endc_snoc; try done; try q_word.
Qed.

Lemma LIST_INSERT_BEFORE_ok m h l1 y l2 x :
  NoDup (cells (Head h) (l1 ++ x :: y :: l2)) -> chain m (Head h) (l1 ++ y :: l2) -> live m x ->
  wp (LIST_INSERT_BEFORE y x) (fun _ m' => chain m' (Head h) (l1 ++ x :: y :: l2) /\
    local m m' (cells (Head h) (l1 ++ x :: y :: l2))) m.
Proof.
  intros Hnd Hc [[n1 L1] [n2 L2]]. destruct (chain_at _ _ _ _ _ Hc) as (H1 & H2 & H3 & Hp).
  pose proof (splice_intro _ _ _ _ Hnd) as Hsp. destruct (sp_next _ _ _ _ Hsp y eq_refl) as [Hyx Hye].
  pose proof (sp_cell _ _ _ _ Hsp _ (endc_In _ _)) as Hex.
  unfold LIST_INSERT_BEFORE. q_go. split; [|q_local].
  apply (chain_insert m); try done; try q_word.
Qed.

Lemma LIST_REMOVE_ok m h l1 x l2 :
  NoDup (cells (Head h) (l1 ++ x :: l2)) -> chain m (Head h) (l1 ++ x :: l2) ->
  wp (LIST_REMOVE x) (fun _ m' => chain m' (Head h) (l1 ++ l2) /\ local m m' (cells (Head h) (l1 ++ x :: l2))) m.
Proof.
  intros Hnd Hc. destruct (chain_at _ _ _ _ _ Hc) as (H1 & H2 & H3 & Hp).
  pose proof (splice_intro _ _ _ _ Hnd) as Hsp. pose proof (sp_next _ _ _ _ Hsp) as Hn.
  pose proof (sp_cell _ _ _ _ Hsp _ (endc_In _ _)) as Hex.
  unfold LIST_REMOVE, LIST_NEXT. q_step. destruct l2 as [|y l2].
  - simpl. q_go. split; [|q_local]. apply (chain_remove m _ _ _ _ x); try done; try q_word.
  - destruct (Hn y eq_refl) as [Hyx Hye]. specialize (Hp y eq_refl). simpl. q_go. split; [|q_local].
    apply (chain_remove m _ _ _ _ x); try done; try q_word.
Qed.

Lemma NoDup_cells c l1 x l2 : NoDup (cells c (l1 ++ x :: l2)) -> NoDup (cells c (l1 ++ l2)) /\ x ∉ l1 ++ l2.
Proof.
  unfold cells. rewrite !fmap_app, fmap_cons. intros [Hc Hnd]%NoDup_cons.
  apply NoDup_app in Hnd as (H1 & H2 & [H3 H4]%NoDup_cons). split.
  - constructor; [set_solver|]. apply NoDup_app. split_and!; [done|set_solver|done].
  - intros [Hx|Hx]%elem_of_app.
    + apply (H2 (Link x)); [by apply list_elem_of_fmap_2|by left].
    + apply H3. by apply list_elem_of_fmap_2.
Qed.

Lemma LIST_REMOVE_ZERO_ok m h l1 x l2 :
  NoDup (cells (Head h) (l1 ++ x :: l2)) -> chain m (Head h) (l1 ++ x :: l2) ->
  wp (LIST_REMOVE_ZERO x) (fun _ m' => chain m' (Head h) (l1 ++ l2) /\
    (word1 m' !! Link x = Some None /\ word2 m' !! Link x = Some None) /\
    local m m' (cells (Head h) (l1 ++ x :: l2))) m.
Proof.
  intros Hnd Hc. unfold LIST_REMOVE_ZERO. wp_simpl. destruct (chain_at _ _ _ _ _ Hc) as (_ & H2 & H3 & _).
  eapply wp_mono; [|by eapply LIST_REMOVE_ok]. intros _ m1 (Hc1 & Hl).
  pose proof Hl as (_ & L1 & L2). wp_simpl. apply wp_st1; [apply L1; eauto|]. apply wp_st2; [apply L2; eauto|].
  destruct (NoDup_cells _ _ _ _ Hnd) as [Hnd' Hx]. split_and!.
  - apply (chain_ext m1); [done| | |done].
    + intros d Hd. cbn. rewrite lookup_insert_ne; [done|]. intros <-. apply elem_of_cons in Hd as [?|Hd]; [done|].
      apply list_elem_of_fmap in Hd as (y & ->%(inj Link) & Hy). done.
    + intros y Hy. cbn. rewrite lookup_insert_ne; [done|]. intros ?%(inj Link). congruence.
  - cbn. by rewrite lookup_insert_eq.
  - cbn. by rewrite lookup_insert_eq.
  - apply local_upd2, local_upd1, Hl; apply cells_Link; set_solver.
Qed.

(** *** Tail queues *)

Definition tailq m h xs : Prop :=
  chain m (Head h) xs /\ word2 m !! Head h = Some (Some (endc (Head h) xs)).

Lemma TAILQ_INSERT_HEAD_ok m h x xs :
  NoDup (cells (Head h) (x :: xs)) -> tailq m h xs -> live m x ->
  wp (TAILQ_INSERT_HEAD h x) (fun _ m' => tailq m' h (x :: xs) /\ local m m' (cells (Head h) (x :: xs))) m.
Proof.
  intros Hnd [Hc Ht] [[n1 L1] [n2 L2]]. pose proof (chain_first _ _ _ Hc) as Hf.
  pose proof (sp_next _ _ _ _ (splice_intro (Head h) [] x xs Hnd)) as Hy.
  unfold TAILQ_INSERT_HEAD, TAILQ_FIRST. q_go. destruct xs as [|y xs].
  - simpl. q_go. split; [split|q_local]; [|q_word].
    apply (chain_insert m _ (Head h) [] [] x); try done; q_word.
  - destruct (Hy y eq_refl) as [Hyx _]. pose proof (proj1 (proj2 (proj1 Hc))) as Hy2.
    simpl. q_go. split; [split|q_local]; [|q_word].
    apply (chain_insert m _ (Head h) [] (y :: xs) x); try done; try q_word.
Qed.

Lemma TAILQ_INSERT_AFTER_ok m h l1 y l2 x :
  NoDup (cells (Head h) (l1 ++ y :: x :: l2)) -> tailq m h (l1 ++ y :: l2) -> live m x ->
  wp (TAILQ_INSERT_AFTER h y x) (fun _ m' => tailq m' h (l1 ++ y :: x :: l2) /\
    local m m' (cells (Head h) (l1 ++ y :: x :: l2))) m.
Proof.
  intros Hnd [Hc Ht] [[n1 L1] [n2 L2]]. destruct (chain_at _ _ _ _ _ Hc) as (_ & _ & Hy & Hp).
  unfold tailq. rewrite <- (snoc_app l1 y l2) in Hc, Ht. rewrite <- (snoc_app l1 y (x :: l2)) in *.
  pose proof (splice_intro _ _ _ _ Hnd) as Hsp. pose proof (sp_next _ _ _ _ Hsp) as Hn.
  pose proof (sp_before _ _ _ _ Hsp y ltac:(set_solver)) as [Hyx _]. rewrite endc_snoc in Hn.
  assert (Hin : y ∈ (l1 ++ [y]) ++ x :: l2) by set_solver. rewrite endc_app, endc_snoc in *. simpl in Ht.
  unfold TAILQ_INSERT_AFTER, TAILQ_NEXT. q_go. destruct l2 as [|z l2].
  - simpl. q_go. split; [split|q_local]; [|q_word].
    apply (chain_insert m); rewrite ?endc_snoc; try done; try q_word.
  - destruct (Hn z eq_refl) as [Hzx Hzy]. specialize (Hp z eq_refl). simpl. q_go.
    split; [split|q_local]; [|q_word].
    apply (chain_insert m); rewrite ?endc_snoc; try done; try q_word.
Qed.

Lemma TAILQ_INSERT_BEFORE_ok m h l1 y l2 x :
  NoDup (cells (Head h) (l1 ++ x :: y :: l2)) -> tailq m h (l1 ++ y :: l2) -> live m x ->
  wp (TAILQ_INSERT_BEFORE y x) (fun _ m' => tailq m' h (l1 ++ x :: y :: l2) /\
    local m m' (cells (Head h) (l1 ++ x :: y :: l2))) m.
Proof.
  intros Hnd [Hc Ht] [[n1 L1] [n2 L2]]. destruct (chain_at _ _ _ _ _ Hc) as (H1 & H2 & H3 & Hp).
  pose proof (splice_intro _ _ _ _ Hnd) as Hsp. destruct (sp_next _ _ _ _ Hsp y eq_refl) as [Hyx Hye].
  pose proof (sp_cell _ _ _ _ Hsp _ (endc_In _ _)) as Hex. rewrite endc_app in Ht. simpl in Ht.
  unfold TAILQ_INSERT_BEFORE, LIST_INSERT_BEFORE. q_go. split; [split|q_local].
  - apply (chain_insert m); try done; try q_word.
  - rewrite endc_app. q_word.
Qed.

Lemma TAILQ_INSERT_TAIL_ok m h x xs :
  NoDup (cells (Head h) (xs ++ [x])) -> tailq m h xs -> live m x ->
  wp (TAILQ_INSERT_TAIL h x) (fun _ m' => tailq m' h (xs ++ [x]) /\ local m m' (cells (Head h) (xs ++ [x]))) m.
Proof.
  intros Hnd [Hc Ht] [[n1 L1] [n2 L2]]. pose proof (splice_intro _ _ _ _ Hnd) as Hsp.
  pose proof (sp_cell _ _ _ _ Hsp _ (endc_In _ _)) as Hex. pose proof (proj2 Hc) as He.
  unfold TAILQ_INSERT_TAIL. q_go. split; [split|q_local].
  - apply (chain_insert m); rewrite ?app_nil_r; try done; q_word.
  - rewrite endc_snoc. q_word.
Qed.

Lemma TAILQ_REMOVE_ok m h l1 x l2 :
  NoDup (cells (Head h) (l1 ++ x :: l2)) -> tailq m h (l1 ++ x :: l2) ->
  wp (TAILQ_REMOVE h x) (fun _ m' => tailq m' h (l1 ++ l2) /\ local m m' (cells (Head h) (l1 ++ x :: l2))) m.
Proof.
  intros Hnd [Hc Ht]. destruct (chain_at _ _ _ _ _ Hc) as (H1 & H2 & H3 & Hp).
  pose proof (splice_intro _ _ _ _ Hnd) as Hsp. pose proof (sp_next _ _ _ _ Hsp) as Hn.
  pose proof (sp_cell _ _ _ _ Hsp _ (endc_In _ _)) as Hex. unfold tailq. rewrite endc_app in *. simpl in Ht.
  unfold TAILQ_REMOVE, TAILQ_NEXT. q_step. destruct l2 as [|y l2].
  - simpl. q_go. split; [split|q_local]; [|q_word]. apply (chain_remove m _ _ _ _ x); try done; try q_word.
  - destruct (Hn y eq_refl) as [Hyx Hye]. specialize (Hp y eq_refl). simpl. q_go.
    split; [split|q_local]; [|q_word]. apply (chain_remove m _ _ _ _ x); try done; try q_word.
Qed.

(** *** Two lists *)

(** The elements of two lists, and the heads. *)
Record two h h' xs ys : Prop :=
  { two_heads : h <> h';
    two_xs : NoDup xs;
    two_ys : NoDup ys;
    two_disj : forall x, x ∈ xs -> x ∉ ys }.

Lemma Head_cells h xs : Head h ∉ Link <$> xs.
Proof. intros (x & ? & _)%list_elem_of_fmap. done. Qed.
Lemma cells_NoDup h xs : NoDup xs -> NoDup (cells (Head h) xs).
Proof. intros Hnd. constructor; [apply Head_cells|]. by apply (NoDup_fmap_2 Link). Qed.
Lemma NoDup_of_cells c xs : NoDup (cells c xs) -> NoDup xs.
Proof. intros [_ Hnd]%NoDup_cons. by apply NoDup_fmap_1 in Hnd. Qed.

Lemma chain_live m c xs x : chain m c xs -> x ∈ xs -> live m x.
Proof.
  intros Hc Hx. apply list_elem_of_split in Hx as (l1 & l2 & ->).
  destruct (chain_at _ _ _ _ _ Hc) as (_ & H2 & H1 & _). split; eauto.
Qed.

(** The list at [h] moves to [h'], whose words are written. *)
Lemma chain_move m m' h h' xs :
  NoDup xs -> chain m (Head h) xs -> word1 m' !! Head h' = Some (head xs) -> next_prev m' xs (Some (Head h')) ->
  (forall x, x ∈ xs -> word1 m' !! Link x = word1 m !! Link x) ->
  (forall x, x ∈ xs -> head xs <> Some x -> word2 m' !! Link x = word2 m !! Link x) ->
  chain m' (Head h') xs.
Proof. intros Hnd. apply chain_tail. by apply cells_NoDup. Qed.

(** Writes to the first element of one list are not seen in the other. *)
Ltac q_other Hd := intros; cbn [word1 word2 upd1 upd2];
  repeat rewrite lookup_insert_ne by first [congruence | intros ?%(inj Link); subst;
    first [by match goal with H : _ ∈ [] |- _ => apply elem_of_nil in H end | by eapply Hd; [|left] | by eapply Hd; [left|]]]; done.
Ltac q_move m h Hd := apply (chain_move m _ h); try done; first [q_word | q_other Hd].

Lemma LIST_SWAP_ok m h h' xs ys :
  two h h' xs ys -> chain m (Head h) xs -> chain m (Head h') ys ->
  wp (LIST_SWAP h h') (fun _ m' => chain m' (Head h) ys /\ chain m' (Head h') xs /\
    local m m' (cells (Head h) xs ++ cells (Head h') ys)) m.
Proof.
  intros [Hh Hx Hy Hd] Hcx Hcy. pose proof (chain_first _ _ _ Hcx) as Hfx. pose proof (chain_first _ _ _ Hcy) as Hfy.
  assert (Hlx : forall x, x ∈ xs -> is_Some (word2 m !! Link x)) by (intros x; by apply (chain_live _ _ _ x Hcx)).
  assert (Hly : forall y, y ∈ ys -> is_Some (word2 m !! Link y)) by (intros y; by apply (chain_live _ _ _ y Hcy)).
  unfold LIST_SWAP, LIST_FIRST. destruct xs as [|x xs], ys as [|y ys]; simpl in Hfx, Hfy.
  - q_go. split_and!; [q_move m h' Hd|q_move m h Hd|q_local].
  - pose proof (Hly y ltac:(by left)). q_go. split_and!; [q_move m h' Hd|q_move m h Hd|q_local].
  - pose proof (Hlx x ltac:(by left)). q_go. split_and!; [q_move m h' Hd|q_move m h Hd|q_local].
  - pose proof (Hlx x ltac:(by left)). pose proof (Hly y ltac:(by left)).
    assert (x <> y) by (intros ->; apply (Hd y); by left).
    q_go. split_and!; [q_move m h' Hd|q_move m h Hd|q_local].
Qed.

Lemma endc_cons_head c c' x xs : endc c (x :: xs) = endc c' (x :: xs).
Proof. done. Qed.

Lemma endc_Link c x xs : exists y, endc c (x :: xs) = Link y /\ y ∈ x :: xs.
Proof.
  pose proof (endc_In (Link x) xs) as He. simpl. apply elem_of_cons in He as [->|He]; [exists x; set_solver|].
  apply list_elem_of_fmap in He as (y & -> & Hy). exists y. set_solver.
Qed.

Lemma TAILQ_SWAP_ok m h h' xs ys :
  two h h' xs ys -> tailq m h xs -> tailq m h' ys ->
  wp (TAILQ_SWAP h h') (fun _ m' => tailq m' h ys /\ tailq m' h' xs /\
    local m m' (cells (Head h) xs ++ cells (Head h') ys)) m.
Proof.
  intros [Hh Hx Hy Hd] [Hcx Htx] [Hcy Hty].
  pose proof (chain_first _ _ _ Hcx) as Hfx. pose proof (chain_first _ _ _ Hcy) as Hfy.
  assert (Hlx : forall x, x ∈ xs -> is_Some (word2 m !! Link x)) by (intros x; by apply (chain_live _ _ _ x Hcx)).
  assert (Hly : forall y, y ∈ ys -> is_Some (word2 m !! Link y)) by (intros y; by apply (chain_live _ _ _ y Hcy)).
  unfold TAILQ_SWAP, swap_fix, TAILQ_FIRST. destruct xs as [|x xs], ys as [|y ys]; simpl in Hfx, Hfy.
  - q_go. split_and!; [split; [q_move m h' Hd|q_word]|split; [q_move m h Hd|q_word]|q_local].
  - pose proof (Hly y ltac:(by left)). q_go.
    split_and!; [split; [q_move m h' Hd|q_word]|split; [q_move m h Hd|q_word]|q_local].
  - pose proof (Hlx x ltac:(by left)). q_go.
    split_and!; [split; [q_move m h' Hd|q_word]|split; [q_move m h Hd|q_word]|q_local].
  - pose proof (Hlx x ltac:(by left)). pose proof (Hly y ltac:(by left)).
    assert (x <> y) by (intros ->; apply (Hd y); by left). q_go.
    split_and!; [split; [q_move m h' Hd|q_word]|split; [q_move m h Hd|q_word]|q_local].
Qed.

Lemma TAILQ_INIT_ok m h xs :
  tailq m h xs -> wp (TAILQ_INIT h) (fun _ m' => tailq m' h [] /\ local m m' [Head h]) m.
Proof.
  intros [Hc Ht]. pose proof (chain_first _ _ _ Hc). unfold TAILQ_INIT. q_go.
  split; [split; [split|]; [done|q_word..]|q_local].
Qed.
Lemma LIST_INIT_ok m h xs :
  chain m (Head h) xs -> wp (LIST_INIT h) (fun _ m' => chain m' (Head h) [] /\ local m m' [Head h]) m.
Proof.
  intros Hc. pose proof (chain_first _ _ _ Hc). unfold LIST_INIT. q_go. split; [split; [done|q_word]|q_local].
Qed.

Lemma two_cells h h' xs ys : two h h' xs ys ->
  forall d, d ∈ cells (Head h) xs -> d <> Head h' /\ forall z, z ∈ ys -> d <> Link z.
Proof.
  intros [Hh _ _ Hd] d Hin. apply elem_of_cons in Hin as [->|Hin]; [split; [congruence|done]|].
  apply list_elem_of_fmap in Hin as (x & -> & Hx). split; [done|]. intros z Hz [= ->]. by apply (Hd z).
Qed.

Lemma TAILQ_CONCAT_ok m h h' xs ys :
  two h h' xs ys -> tailq m h xs -> tailq m h' ys ->
  wp (TAILQ_CONCAT h h') (fun _ m' => tailq m' h (xs ++ ys) /\ tailq m' h' [] /\
    local m m' (cells (Head h) xs ++ cells (Head h') ys)) m.
Proof.
  intros [Hh Hx Hy Hd] [Hcx Htx] [Hcy Hty]. pose proof (chain_first _ _ _ Hcy) as Hfy.
  unfold TAILQ_CONCAT, TAILQ_EMPTY, TAILQ_INIT, TAILQ_FIRST. q_step. destruct ys as [|y ys].
  - simpl. wp_simpl. rewrite app_nil_r. split_and!; [done|done|apply local_refl].
  - simpl in Hfy. destruct (chain_live _ _ _ y Hcy) as [_ Hy2]; [by left|].
    pose proof (proj2 Hcx) as He. pose proof (two_cells _ _ _ _ (Build_two _ _ _ _ Hh Hx Hy Hd)) as Hcell.
    destruct (Hcell _ (endc_In (Head h) xs)) as [Hne' Hne]. simpl. q_go.
    split_and!; [split; [apply chain_app; split|]|split; [split|]; [done|q_word..]|].
    + apply (seg_ext m); [by apply cells_NoDup| | |apply Hcx].
      * intros d Hin Hde. destruct (Hcell d Hin). q_word.
      * intros z Hz. assert (z <> y) by (intros ->; apply (Hd y); [done|by left]). q_word.
    + apply (chain_tail m _ (Head h')); [by apply cells_NoDup|done| | | |].
      * q_word.
      * q_word.
      * intros z Hz. pose proof (Hne z Hz). q_word.
      * q_word.
    + rewrite endc_app. q_word.
    + pose proof (endc_In (Head h) xs). q_local.
Qed.

(** ** Reading a tail queue backwards *)

(** Before [l2] comes the last element of [l1]: reading the cell of a pointer as a
    head gives the address of the pointer before. *)
Lemma last_of_ok m h l1 l2 (Q : option ptr -> qmem -> Prop) :
  tailq m h (l1 ++ l2) -> Q (last l1) m -> wp (last_of (Some (endc (Head h) l1))) Q m.
Proof.
  intros [Hc Ht] HQ. unfold last_of. wp_simpl. destruct l1 as [|z l1 _] using rev_ind.
  - simpl in *. pose proof (proj2 Hc). by q_go.
  - rewrite <- app_assoc in Hc. destruct (chain_at _ _ _ _ _ Hc) as (H1 & H2 & _).
    rewrite endc_snoc. rewrite last_snoc in HQ. by q_go.
Qed.

Lemma TAILQ_LAST_ok m h xs (Q : option ptr -> qmem -> Prop) :
  tailq m h xs -> Q (last xs) m -> wp (TAILQ_LAST h) Q m.
Proof.
  intros Ht HQ. unfold TAILQ_LAST. pose proof (proj2 Ht). q_step.
  apply (last_of_ok _ _ xs []); [by rewrite app_nil_r|done].
Qed.
Lemma TAILQ_PREV_ok m h l1 x l2 (Q : option ptr -> qmem -> Prop) :
  tailq m h (l1 ++ x :: l2) -> Q (last l1) m -> wp (TAILQ_PREV x) Q m.
Proof.
  intros Ht HQ. unfold TAILQ_PREV. destruct (chain_at _ _ _ _ _ (proj1 Ht)) as (_ & H2 & _). q_step.
  by eapply last_of_ok.
Qed.

(** ** Traversals *)

Section Traversal.
Context {A : Type} (next : ptr -> M qmem (option ptr)) (body : A -> ptr -> M qmem A).

(** [P l1 l2 a m]: [l1] has been visited with the result [a] and [l2] is to come. *)
Lemma foreach_ok (P : list ptr -> list ptr -> A -> qmem -> Prop) l2 : forall fuel l1 a m,
  (length l2 <= fuel)%nat -> P l1 l2 a m ->
  (forall l1 x l2 a m, P l1 (x :: l2) a m -> wp (body a x) (fun a' m' =>
     wp (next x) (fun r m2 => r = head l2 /\ P (l1 ++ [x]) l2 a' m2) m') m) ->
  wp (foreach_from next body fuel a (head l2)) (fun a' m' => P (l1 ++ l2) [] a' m') m.
Proof.
  induction l2 as [|x l2 IH]; intros fuel l1 a m Hn HP Hb.
  { rewrite app_nil_r. by destruct fuel. }
  destruct fuel as [|n]; simpl in Hn; [lia|]. change (head (x :: l2)) with (Some x). simpl. wp_simpl.
  eapply wp_mono; [|by apply (Hb l1 x l2)]. intros a' m' Hm'. wp_simpl. eapply wp_mono; [|exact Hm'].
  intros r m2 [-> HP2]. specialize (IH n (l1 ++ [x]) a' m2). rewrite snoc_app in IH. apply IH; [lia|done..].
Qed.

Lemma foreach_safe_ok (P : list ptr -> list ptr -> A -> qmem -> Prop) l2 : forall fuel l1 a m,
  (length l2 <= fuel)%nat -> P l1 l2 a m ->
  (forall l1 x l2 a m, P l1 (x :: l2) a m -> wp (next x) (fun r m' => r = head l2 /\
     wp (body a x) (fun a' m2 => P (l1 ++ [x]) l2 a' m2) m') m) ->
  wp (foreach_safe_from next body fuel a (head l2)) (fun a' m' => P (l1 ++ l2) [] a' m') m.
Proof.
  induction l2 as [|x l2 IH]; intros fuel l1 a m Hn HP Hb.
  { rewrite app_nil_r. by destruct fuel. }
  destruct fuel as [|n]; simpl in Hn; [lia|]. change (head (x :: l2)) with (Some x). simpl. wp_simpl.
  eapply wp_mono; [|by apply (Hb l1 x l2)]. intros r m' [-> Hm']. wp_simpl. eapply wp_mono; [|exact Hm'].
  intros a' m2 HP2. specialize (IH n (l1 ++ [x]) a' m2). rewrite snoc_app in IH. apply IH; [lia|done..].
Qed.
End Traversal.

(** ** The lists of a memory *)

(** The lists of the heads of a memory. *)
Abbreviation lists := (gmap ptr (list ptr)).

(** No list holds [x]. *)
Definition unused (A : lists) x : Prop := forall h xs, A !! h = Some xs -> x ∉ xs.

(** [R m h xs]: the head [h] stands for [xs]; it depends on the cells of the list. *)
Class LocalRep (R : qmem -> ptr -> list ptr -> Prop) :=
  local_rep : forall m m' h xs, NoDup xs -> R m h xs ->
    (forall d, d ∈ cells (Head h) xs -> word1 m' !! d = word1 m !! d /\ word2 m' !! d = word2 m !! d) ->
    R m' h xs.

Definition list_at m h xs : Prop := chain m (Head h) xs.
#[export] Instance list_local : LocalRep list_at.
Proof.
  intros m m' h xs Hnd Hc Hd. apply (chain_ext m); [by apply cells_NoDup| | |done].
  - intros d Hin. by apply Hd.
  - intros x Hx. by apply Hd, cells_Link.
Qed.
#[export] Instance tailq_local : LocalRep tailq.
Proof.
  intros m m' h xs Hnd [Hc Ht] Hd. split; [by apply (list_local m)|]. rewrite (proj2 (Hd _ ltac:(by left))). done.
Qed.

(** Every list is represented, no element is on two lists or twice on one, and the
    elements [E] have memory. *)
Record rep (R : qmem -> ptr -> list ptr -> Prop) (E : gset ptr) m (A : lists) : Prop :=
  { rep_list : forall h xs, A !! h = Some xs -> R m h xs;
    rep_nodup : forall h xs, A !! h = Some xs -> NoDup xs;
    rep_disj : forall h h' xs ys x, A !! h = Some xs -> A !! h' = Some ys -> x ∈ xs -> x ∈ ys -> h = h';
    rep_live : forall x, x ∈ E -> live m x }.

(** [x] may be on a list of one of the heads [H], and on no other. *)
Definition owned (A : lists) (H : list ptr) x : Prop :=
  unused A x \/ exists h xs, h ∈ H /\ A !! h = Some xs /\ x ∈ xs.
Definition cell_owned (A : lists) (H : list ptr) d : Prop :=
  match d with Head h => h ∈ H | Link x => owned A H x end.

Section Rep.
Context (R : qmem -> ptr -> list ptr -> Prop) `{!LocalRep R} (E : gset ptr).

(** An operation on the lists of [H] does not disturb the others. *)
Lemma queue_rep_change m m' (A A' : lists) H cs :
  rep R E m A -> local m m' cs -> Forall (cell_owned A H) cs ->
  (forall h, h ∉ H -> A' !! h = A !! h) ->
  (forall h xs, h ∈ H -> A' !! h = Some xs -> R m' h xs /\ NoDup xs /\ Forall (owned A H) xs) ->
  (forall h h' xs ys x, h ∈ H -> h' ∈ H -> A' !! h = Some xs -> A' !! h' = Some ys -> x ∈ xs -> x ∈ ys -> h = h') ->
  rep R E m' A'.
Proof.
  intros [R1 R2 R3 R4] (L1 & L2 & L3) Hcs Ho Hn Hdis. rewrite Forall_forall in Hcs.
  assert (Hout : forall h xs x, h ∉ H -> A !! h = Some xs -> x ∈ xs -> ~ owned A H x).
  { intros h xs x Hh Ea Hx [Hu|(h0 & ys & Hh0 & E0 & Hy)]; [by apply (Hu h xs)|].
    assert (h = h0) as -> by (by eapply R3). done. }
  split.
  - intros h xs Ea. destruct (decide (h ∈ H)) as [Hh|Hh]; [by apply Hn|]. rewrite Ho in Ea by done.
    apply (local_rep m); [by eapply R2|by apply R1|]. intros d Hd. apply L1. intros Hin. specialize (Hcs _ Hin).
    apply elem_of_cons in Hd as [->|Hd]; [done|]. apply list_elem_of_fmap in Hd as (x & -> & Hx).
    by eapply Hout.
  - intros h xs Ea. destruct (decide (h ∈ H)) as [Hh|Hh]; [by apply (Hn h)|]. rewrite Ho in Ea by done. by eapply R2.
  - intros h h' xs ys x Ea Ea' Hx Hy.
    assert (Hin : forall h xs, h ∈ H -> A' !! h = Some xs -> x ∈ xs -> owned A H x).
    { intros k zs Hk Ek Hz. destruct (Hn k zs Hk Ek) as (_ & _ & Hf). rewrite Forall_forall in Hf. by apply Hf. }
    destruct (decide (h ∈ H)) as [Hh|Hh], (decide (h' ∈ H)) as [Hh'|Hh'].
    + by eapply (Hdis h h').
    + rewrite Ho in Ea' by done. exfalso. eapply (Hout h'); eauto.
    + rewrite Ho in Ea by done. exfalso. eapply (Hout h); eauto.
    + rewrite Ho in Ea, Ea' by done. by eapply R3.
  - intros x Hx. destruct (R4 x Hx) as [H1 H2]. split; [by apply L2|by apply L3].
Qed.

Lemma cells_owned (A : lists) H h xs :
  h ∈ H -> Forall (owned A H) xs -> Forall (cell_owned A H) (cells (Head h) xs).
Proof. intros Hh Hxs. constructor; [done|]. by apply Forall_fmap. Qed.

(** The list of [h] becomes [xs']; [ys] are elements of the old and the new list. *)
Lemma rep_one m m' (A : lists) h xs xs' ys :
  rep R E m A -> A !! h = Some xs -> local m m' (cells (Head h) ys) -> R m' h xs' -> NoDup xs' ->
  (forall x, x ∈ xs' \/ x ∈ ys -> x ∈ xs \/ unused A x) -> rep R E m' (<[h := xs']> A).
Proof.
  intros Hr Ea Hl HR Hnd Hown.
  assert (Ho : forall x, x ∈ xs' \/ x ∈ ys -> owned A [h] x).
  { intros x Hx. destruct (Hown x Hx) as [?|?]; [right; exists h, xs; set_solver|by left]. }
  apply (queue_rep_change m m' A _ [h] (cells (Head h) ys)); try done.
  - apply cells_owned; [by left|]. apply Forall_forall. auto.
  - intros k Hk. rewrite lookup_insert_ne; [done|]. set_solver.
  - intros k zs Hk Ek. assert (k = h) as -> by set_solver. rewrite lookup_insert_eq in Ek. simplify_eq.
    split_and!; [done..|]. apply Forall_forall. auto.
  - set_solver.
Qed.
End Rep.

(** ** LIST *)

Inductive list_op :=
  | Op_INIT (h : ptr) | Op_INSERT_HEAD (h x : ptr) | Op_INSERT_AFTER (y x : ptr) | Op_INSERT_BEFORE (y x : ptr)
  | Op_REMOVE (x : ptr) | Op_REMOVE_ZERO (x : ptr) | Op_SWAP (h h' : ptr).

Definition run_list (o : list_op) : M qmem unit :=
  match o with
  | Op_INIT h => LIST_INIT h
  | Op_INSERT_HEAD h x => LIST_INSERT_HEAD h x
  | Op_INSERT_AFTER y x => LIST_INSERT_AFTER y x
  | Op_INSERT_BEFORE y x => LIST_INSERT_BEFORE y x
  | Op_REMOVE x => LIST_REMOVE x
  | Op_REMOVE_ZERO x => LIST_REMOVE_ZERO x
  | Op_SWAP h h' => LIST_SWAP h h'
  end.

(** What each macro means on lists.  An element must be on no list to be inserted. *)
Inductive list_step (E : gset ptr) : list_op -> lists -> lists -> Prop :=
  | step_INIT h xs (A : lists) : A !! h = Some xs -> list_step E (Op_INIT h) A (<[h := []]> A)
  | step_INSERT_HEAD h x xs (A : lists) : A !! h = Some xs -> x ∈ E -> unused A x ->
      list_step E (Op_INSERT_HEAD h x) A (<[h := x :: xs]> A)
  | step_INSERT_AFTER h l1 y l2 x (A : lists) : A !! h = Some (l1 ++ y :: l2) -> x ∈ E -> unused A x ->
      list_step E (Op_INSERT_AFTER y x) A (<[h := l1 ++ y :: x :: l2]> A)
  | step_INSERT_BEFORE h l1 y l2 x (A : lists) : A !! h = Some (l1 ++ y :: l2) -> x ∈ E -> unused A x ->
      list_step E (Op_INSERT_BEFORE y x) A (<[h := l1 ++ x :: y :: l2]> A)
  | step_REMOVE h l1 x l2 (A : lists) : A !! h = Some (l1 ++ x :: l2) ->
      list_step E (Op_REMOVE x) A (<[h := l1 ++ l2]> A)
  | step_REMOVE_ZERO h l1 x l2 (A : lists) : A !! h = Some (l1 ++ x :: l2) ->
      list_step E (Op_REMOVE_ZERO x) A (<[h := l1 ++ l2]> A)
  | step_SWAP h h' xs ys (A : lists) : A !! h = Some xs -> A !! h' = Some ys -> h <> h' ->
      list_step E (Op_SWAP h h') A (<[h := ys]> (<[h' := xs]> A)).

(** Elements that are on no list, before and after, keep their words. *)
Definition quiet (A A' : lists) m m' : Prop := forall x, unused A x -> unused A' x ->
  word1 m' !! Link x = word1 m !! Link x /\ word2 m' !! Link x = word2 m !! Link x.

Lemma local_quiet (A A' : lists) m m' h xs :
  local m m' (cells (Head h) xs) -> (forall x, unused A x -> unused A' x -> x ∉ xs) -> quiet A A' m m'.
Proof.
  intros [Hl _] Hx x Hu Hu'. apply Hl. intros [?|Hin]%elem_of_cons; [done|].
  apply list_elem_of_fmap in Hin as (y & [= <-] & Hy). by eapply (Hx x).
Qed.

Section Insert.
Context (R : qmem -> ptr -> list ptr -> Prop) `{!LocalRep R} (E : gset ptr).

(** The new element keeps the elements of a list distinct. *)
Lemma NoDup_insert (A : lists) m h l1 l2 x :
  rep R E m A -> A !! h = Some (l1 ++ l2) -> unused A x -> NoDup (l1 ++ x :: l2).
Proof.
  intros Hr Ea Hu. pose proof (rep_nodup _ _ _ _ Hr _ _ Ea) as Hnd. specialize (Hu _ _ Ea).
  rewrite <- Permutation_middle. by constructor.
Qed.

(** A step that puts [x] at a place of the list of [h]. *)
Lemma rep_insert (A : lists) m h l1 l2 x (op : M qmem unit) :
  rep R E m A -> A !! h = Some (l1 ++ l2) -> unused A x -> x ∈ E ->
  (NoDup (cells (Head h) (l1 ++ x :: l2)) -> R m h (l1 ++ l2) -> live m x ->
   wp op (fun _ m' => R m' h (l1 ++ x :: l2) /\ local m m' (cells (Head h) (l1 ++ x :: l2))) m) ->
  wp op (fun _ m' => rep R E m' (<[h := l1 ++ x :: l2]> A) /\ quiet A (<[h := l1 ++ x :: l2]> A) m m') m.
Proof.
  intros Hr Ea Hu Hx Hop. pose proof (NoDup_insert _ _ _ _ _ _ Hr Ea Hu) as Hnd.
  eapply wp_mono; [|apply Hop; [by apply cells_NoDup|by eapply rep_list|by eapply rep_live]].
  intros _ m' [HR Hl]. split.
  2: { eapply local_quiet; [exact Hl|]. intros z _ Hz. eapply Hz, lookup_insert_eq. }
  apply (rep_one R E m m' A h (l1 ++ l2) _ (l1 ++ x :: l2)); try done. intros z Hz.
  assert (z = x \/ z ∈ l1 ++ l2) as [->|?] by set_solver; auto.
Qed.

Lemma rep_remove (A : lists) m h l1 x l2 (op : M qmem unit) :
  rep R E m A -> A !! h = Some (l1 ++ x :: l2) ->
  (NoDup (cells (Head h) (l1 ++ x :: l2)) -> R m h (l1 ++ x :: l2) ->
   wp op (fun _ m' => R m' h (l1 ++ l2) /\ local m m' (cells (Head h) (l1 ++ x :: l2))) m) ->
  wp op (fun _ m' => rep R E m' (<[h := l1 ++ l2]> A) /\ quiet A (<[h := l1 ++ l2]> A) m m') m.
Proof.
  intros Hr Ea Hop. pose proof (rep_nodup _ _ _ _ Hr _ _ Ea) as Hnd.
  eapply wp_mono; [|apply Hop; [by apply cells_NoDup|by eapply rep_list]].
  intros _ m' [HR Hl]. split.
  2: { eapply local_quiet; [exact Hl|]. intros z Hz _. by eapply Hz. }
  apply (rep_one R E m m' A h (l1 ++ x :: l2) _ (l1 ++ x :: l2)); try done.
  - rewrite <- Permutation_middle in Hnd. by apply NoDup_cons in Hnd as [_ ?].
  - set_solver.
Qed.

Lemma rep_two (A : lists) m h h' xs ys : rep R E m A -> A !! h = Some xs -> A !! h' = Some ys -> h <> h' ->
  two h h' xs ys /\ R m h xs /\ R m h' ys.
Proof.
  intros [R1 R2 R3 _] Ex Ey Hne. split_and!; [|by apply R1..].
  split; [done|by eapply R2..|]. intros x Hx Hy. by apply Hne, (R3 h h' xs ys x).
Qed.

(** A step on two lists whose elements stay on them. *)
Lemma rep_step_two (A : lists) m h h' xs ys xs' ys' (op : M qmem unit) :
  rep R E m A -> A !! h = Some xs -> A !! h' = Some ys -> h <> h' -> Permutation (xs' ++ ys') (xs ++ ys) ->
  (two h h' xs ys -> R m h xs -> R m h' ys -> wp op (fun _ m' => R m' h xs' /\ R m' h' ys' /\
     local m m' (cells (Head h) xs ++ cells (Head h') ys)) m) ->
  wp op (fun _ m' => rep R E m' (<[h := xs']> (<[h' := ys']> A)) /\
    quiet A (<[h := xs']> (<[h' := ys']> A)) m m') m.
Proof.
  intros Hr Ex Ey Hne Hp Hop. destruct (rep_two _ _ _ _ _ _ Hr Ex Ey Hne) as (Ht & HRx & HRy).
  eapply wp_mono; [|by apply Hop]. intros _ m' (H1 & H2 & Hl). destruct Ht as [_ Nx Ny Nd].
  assert (Hnd : NoDup (xs' ++ ys')) by (rewrite Hp; apply NoDup_app; naive_solver).
  assert (Ho : forall x, x ∈ xs' ++ ys' \/ x ∈ xs ++ ys -> owned A [h; h'] x).
  { intros x Hx. assert (x ∈ xs ++ ys) as [?|?]%elem_of_app.
    { destruct Hx as [Hx|?]; [by rewrite <- Hp|done]. }
    - right. exists h, xs. set_solver.
    - right. exists h', ys. set_solver. }
  apply NoDup_app in Hnd as (N1 & N2 & N3). split.
  2: { intros z Hz _. apply Hl. intros Hin. apply elem_of_app in Hin.
       assert ((z ∉ xs) /\ (z ∉ ys)) as [] by (split; by eapply Hz).
       destruct Hin as [Hin|Hin]; apply elem_of_cons in Hin as [?|Hin]; try done;
         apply list_elem_of_fmap in Hin as (u & [= ->] & Hu); done. }
  eapply (queue_rep_change _ _ m m' A _ [h; h']); [done|exact Hl| | | |].
  - apply Forall_app. split; (apply cells_owned; [set_solver|]); apply Forall_forall; intros x Hx; apply Ho; set_solver.
  - intros k Hk. rewrite !lookup_insert_ne by set_solver. done.
  - intros k zs Hk Ek. assert (k = h \/ k = h') as [->| ->] by set_solver; simplify_map_eq;
      (split_and!; [done..|]); apply Forall_forall; intros x Hx; apply Ho; set_solver.
  - intros k k' zs zs' x Hk Hk' Ek Ek' Hx Hx'.
    assert (k = h \/ k = h') as [->| ->] by set_solver; assert (k' = h \/ k' = h') as [->| ->] by set_solver;
      simplify_map_eq; try done; exfalso; eapply N2; eauto.
Qed.
End Insert.

(** The words of elements that are on no list, when elements are removed with
    LIST_REMOVE_ZERO only. *)
Definition zeroed (E : gset ptr) m (A : lists) : Prop :=
  forall x, x ∈ E -> unused A x -> word1 m !! Link x = Some None /\ word2 m !! Link x = Some None.
Definition tidy (o : list_op) : Prop :=
  match o with Op_INIT _ | Op_REMOVE _ => False | _ => True end.

Lemma list_step_ok E o m (A A' : lists) :
  list_step E o A A' -> rep list_at E m A ->
  wp (run_list o) (fun _ m' => rep list_at E m' A' /\ quiet A A' m m') m.
Proof.
  intros Hst Hr. destruct Hst as [h xs A Ea|h x xs A Ea Hx Hu|h l1 y l2 x A Ea Hx Hu|h l1 y l2 x A Ea Hx Hu
    |h l1 x l2 A Ea|h l1 x l2 A Ea|h h' xs ys A Ex Ey Hne]; simpl.
  - eapply wp_mono; [|eapply LIST_INIT_ok, (rep_list _ _ _ _ Hr _ _ Ea)]. intros _ m' [HR Hl]. split.
    + eapply (rep_one _ _ m m' A h xs [] []); try done; [constructor|set_solver].
    + eapply (local_quiet _ _ _ _ h []); [exact Hl|set_solver].
  - apply (rep_insert _ _ A m h [] xs); try done. apply LIST_INSERT_HEAD_ok.
  - rewrite <- (snoc_app l1 y (x :: l2)). rewrite <- (snoc_app l1 y l2) in Ea.
    apply (rep_insert _ _ A m h _ l2); try done. rewrite !snoc_app. apply LIST_INSERT_AFTER_ok.
  - apply (rep_insert _ _ A m h l1 (y :: l2)); try done. apply LIST_INSERT_BEFORE_ok.
  - apply (rep_remove _ _ A m h l1 x l2); try done. apply LIST_REMOVE_ok.
  - apply (rep_remove _ _ A m h l1 x l2); try done. intros Hnd HR.
    eapply wp_mono; [|by apply LIST_REMOVE_ZERO_ok]. naive_solver.
  - apply (rep_step_two list_at E A m h h' xs ys ys xs); try done; [apply Permutation_app_comm|apply LIST_SWAP_ok].
Qed.

(** An element that leaves its list is the one that is removed. *)
Lemma list_step_unused E o (A A' : lists) x :
  list_step E o A A' -> tidy o -> unused A' x -> unused A x \/ o = Op_REMOVE_ZERO x.
Proof.
  intros Hst Ht Hu.
  assert (Hone : forall h xs, (forall h', h' <> h -> A' !! h' = A !! h') -> A !! h = Some xs -> x ∉ xs -> unused A x).
  { intros h xs Ho Ea Hx k zs Ek. destruct (decide (k = h)) as [->|Hne]; [by simplify_eq|].
    apply (Hu k). by rewrite Ho. }
  destruct Hst as [|h z xs A Ea Hz _|h l1 y l2 z A Ea Hz _|h l1 y l2 z A Ea Hz _| |h l1 z l2 A Ea|h h' xs ys A Ex Ey Hne];
    try done.
  1-3: left; eapply (Hone h); [intros; by rewrite lookup_insert_ne|exact Ea|];
    pose proof (Hu h _ (lookup_insert_eq _ _ _)); set_solver.
  - destruct (decide (x = z)) as [->|Hxz]; [by right|]. left.
    eapply (Hone h); [intros; by rewrite lookup_insert_ne|exact Ea|].
    pose proof (Hu h _ (lookup_insert_eq _ _ _)). set_solver.
  - left. intros k zs Ek. destruct (decide (k = h)) as [->|Hk]; [simplify_eq; apply (Hu h'); by simplify_map_eq|].
    destruct (decide (k = h')) as [->|Hk']; [simplify_eq; apply (Hu h); by simplify_map_eq|].
    apply (Hu k). by simplify_map_eq.
Qed.

Lemma list_step_zeroed E o m (A A' : lists) :
  list_step E o A A' -> rep list_at E m A -> tidy o -> zeroed E m A ->
  wp (run_list o) (fun _ m' => rep list_at E m' A' /\ zeroed E m' A') m.
Proof.
  intros Hst Hr Ht Hz. pose proof (list_step_ok _ _ _ _ _ Hst Hr) as Hok.
  assert (Hq : wp (run_list o) (fun _ m' => forall x, o = Op_REMOVE_ZERO x ->
    word1 m' !! Link x = Some None /\ word2 m' !! Link x = Some None) m).
  { destruct Hst as [| | | | |h l1 x l2 A Ea|]; try (eapply wp_mono; [|exact Hok]; done).
    eapply wp_mono; [|apply (LIST_REMOVE_ZERO_ok m h l1 x l2)]; [naive_solver| |apply (rep_list _ _ _ _ Hr _ _ Ea)].
    apply cells_NoDup, (rep_nodup _ _ _ _ Hr _ _ Ea). }
  eapply wp_mono; [|exact (wp_conj _ _ _ _ Hok Hq)]. intros _ m' [[Hr' Hqt] Hrz]. split; [done|].
  intros x Hx Hu. destruct (list_step_unused _ _ _ _ _ Hst Ht Hu) as [Hu0|Ho]; [|by apply Hrz].
  destruct (Hqt x Hu0 Hu) as [-> ->]. by apply Hz.
Qed.

Inductive list_steps (E : gset ptr) : list list_op -> lists -> lists -> Prop :=
  | steps_nil (A : lists) : list_steps E [] A A
  | steps_cons o os (A A1 A' : lists) : list_step E o A A1 -> list_steps E os A1 A' -> list_steps E (o :: os) A A'.

Fixpoint run_lists (os : list list_op) : M qmem unit :=
  match os with [] => ret tt | o :: os => run_list o ;;; run_lists os end.

Lemma list_steps_ok E os : forall m (A A' : lists),
  list_steps E os A A' -> rep list_at E m A -> wp (run_lists os) (fun _ m' => rep list_at E m' A' /\
    (Forall tidy os -> zeroed E m A -> zeroed E m' A')) m.
Proof.
  induction os as [|o os IH]; intros m A A' Hs Hr; inversion Hs as [|? ? ? A1 ? H1 H2]; subst; simpl; wp_simpl; [done|].
  pose proof (list_step_ok _ _ _ _ _ H1 Hr) as Hok. apply wp_elim in Hok as (u & m1 & Hrun & Hr1 & _).
  apply (wp_run _ _ _ u m1 Hrun). eapply wp_mono; [|by apply (IH m1 A1 A')]. intros _ m' [Hr' Hz]. split; [done|].
  intros [Ht Hts]%Forall_cons Hz0. apply Hz; [done|].
  pose proof (list_step_zeroed _ _ _ _ _ H1 Hr Ht Hz0) as Hw. apply (wp_Ret _ _ _ _ _ Hw Hrun).
Qed.

Lemma LIST_INSERTED_ok E m (A : lists) x :
  rep list_at E m A -> zeroed E m A -> x ∈ E ->
  wp (LIST_INSERTED x) (fun b m' => m' = m /\ (b = true <-> ~ unused A x)) m.
Proof.
  intros Hr Hz Hx. unfold LIST_INSERTED. destruct (rep_live _ _ _ _ Hr x Hx) as [[n1 L1] [n2 L2]].
  assert (Hu : ~ unused A x <-> is_Some n1 \/ is_Some n2).
  { split.
    - intros Hu. destruct n2 as [c|]; [eauto|]. exfalso. apply Hu. intros h xs Ea Hin.
      apply list_elem_of_split in Hin as (l1 & l2 & ->).
      destruct (chain_at _ _ _ _ _ (rep_list _ _ _ _ Hr _ _ Ea)) as (_ & H2 & _). congruence.
    - intros Hn Hu. destruct (Hz x Hx Hu) as [H1 H2]. destruct Hn as [[? ->]|[? ->]]; congruence. }
  q_step. destruct n1 as [y|]; simpl; [wp_simpl; split; [done|]; rewrite Hu; naive_solver|].
  q_go. split; [done|]. rewrite Hu, bool_decide_eq_true. split; [by right|].
  by intros [[? [=]]|?].
Qed.

(** C33: the LIST macros on memory do what the operations on lists say.  From a memory
    that represents disjoint lists, any sequence of macros (LIST_INIT, LIST_INSERT_HEAD,
    LIST_INSERT_AFTER, LIST_INSERT_BEFORE, LIST_REMOVE, LIST_REMOVE_ZERO, LIST_SWAP) that
    inserts only elements that are on no list runs without touching an unallocated
    structure, and the memory then represents the lists the operations give.  When
    elements are removed with LIST_REMOVE_ZERO only, LIST_INSERTED says of every
    element whether it is on a list. *)
Theorem list_macros_refine E os m (A A' : lists) :
  rep list_at E m A -> list_steps E os A A' ->
  wp (run_lists os) (fun _ m' => rep list_at E m' A' /\
    (zeroed E m A -> Forall tidy os -> forall x, x ∈ E ->
       wp (LIST_INSERTED x) (fun b m2 => m2 = m' /\ (b = true <-> ~ unused A' x)) m')) m.
Proof.
  intros Hr Hs. eapply wp_mono; [|by apply list_steps_ok]. intros _ m' [Hr' Hz]. split; [done|].
  intros Hz0 Ht x Hx. apply (LIST_INSERTED_ok E); auto.
Qed.

(** A body that leaves the memory alone computes a fold over the list. *)
Section Visits.
Context {B : Type} (body : B -> ptr -> M qmem B) (f : B -> ptr -> B).
Context (Hbody : forall b x m, wp (body b x) (fun b' m' => m' = m /\ b' = f b x) m).

(** Along [order], whose successors [next] gives. *)
Lemma visit_ok (next : ptr -> M qmem (option ptr)) order n b m :
  (forall l1 x l2, order = l1 ++ x :: l2 -> wp (next x) (fun r m' => m' = m /\ r = head l2) m) ->
  (length order <= n)%nat ->
  wp (foreach_from next body n b (head order)) (fun b' m' => m' = m /\ b' = foldl f b order) m.
Proof.
  intros Hn Hl. eapply wp_mono; [|apply (foreach_ok next body
    (fun l1 l2 b' m' => m' = m /\ order = l1 ++ l2 /\ b' = foldl f b l1) order n [] b m Hl); [done|]]; [naive_solver|].
  intros l1 x l2 b' m' (-> & Ho & ->). eapply wp_mono; [|apply Hbody]. intros b' m' [-> ->].
  eapply wp_mono; [|by eapply Hn]. intros r m' [-> ->]. split_and!; [done|done|by rewrite snoc_app|by rewrite foldl_app].
Qed.
Lemma visit_safe_ok (next : ptr -> M qmem (option ptr)) order n b m :
  (forall l1 x l2, order = l1 ++ x :: l2 -> wp (next x) (fun r m' => m' = m /\ r = head l2) m) ->
  (length order <= n)%nat ->
  wp (foreach_safe_from next body n b (head order)) (fun b' m' => m' = m /\ b' = foldl f b order) m.
Proof.
  intros Hn Hl. eapply wp_mono; [|apply (foreach_safe_ok next body
    (fun l1 l2 b' m' => m' = m /\ order = l1 ++ l2 /\ b' = foldl f b l1) order n [] b m Hl); [done|]]; [naive_solver|].
  intros l1 x l2 b' m' (-> & Ho & ->). eapply wp_mono; [|by eapply Hn]. intros r m' [-> ->]. split; [done|].
  eapply wp_mono; [|apply Hbody]. intros b' m' [-> ->]. split_and!; [done|by rewrite snoc_app|by rewrite foldl_app].
Qed.
End Visits.

(** LIST_FOREACH and LIST_FOREACH_SAFE terminate and visit every element once, in
    the order of the list: a body that leaves the memory alone computes the fold over
    the list, and LIST_FOREACH_SAFE does so with a body that removes each element it
    visits, which leaves the list empty and the others as they were.  As many rounds
    as there are elements are enough. *)
Theorem list_traversals {B : Type} (body : B -> ptr -> M qmem B) (f : B -> ptr -> B) E m (A : lists) h xs b :
  rep list_at E m A -> A !! h = Some xs ->
  (forall b x m, wp (body b x) (fun b' m' => m' = m /\ b' = f b x) m) ->
  wp (LIST_FOREACH body (length xs) h b) (fun b' m' => m' = m /\ b' = foldl f b xs) m /\
  wp (LIST_FOREACH_SAFE body (length xs) h b) (fun b' m' => m' = m /\ b' = foldl f b xs) m /\
  wp (LIST_FOREACH_SAFE (fun b x => LIST_REMOVE_ZERO x ;;; ret (f b x)) (length xs) h b)
    (fun b' m' => rep list_at E m' (<[h := []]> A) /\ b' = foldl f b xs) m.
Proof.
  intros Hr Ea Hb. pose proof (rep_list _ _ _ _ Hr _ _ Ea) as Hc. pose proof (chain_first _ _ _ Hc) as Hf.
  assert (Hn : forall l1 x l2, xs = l1 ++ x :: l2 -> wp (LIST_NEXT x) (fun r m' => m' = m /\ r = head l2) m).
  { intros l1 x l2 ->. destruct (chain_at _ _ _ _ _ Hc) as (_ & _ & Hx & _). unfold LIST_NEXT. by q_go. }
  unfold LIST_FOREACH, LIST_FOREACH_SAFE, LIST_FIRST. split_and!; q_step.
  - by apply (visit_ok body f Hb).
  - by apply (visit_safe_ok body f Hb).
  - eapply wp_mono; [|apply (foreach_safe_ok LIST_NEXT (fun b x => LIST_REMOVE_ZERO x ;;; ret (f b x))
      (fun l1 l2 b' m' => rep list_at E m' (<[h := l2]> A) /\ b' = foldl f b l1) xs _ [] b m); [done|..]]; [done| |].
    + split; [|done]. by rewrite insert_id.
    + intros l1 x l2 b' m' [Hr' ->]. pose proof (rep_list _ _ _ _ Hr' h _ (lookup_insert_eq _ _ _)) as Hc'.
      destruct (chain_at _ _ [] _ _ Hc') as (_ & _ & Hx & _). unfold LIST_NEXT. q_step. split; [done|]. wp_simpl.
      eapply wp_mono; [|eapply (list_step_ok E (Op_REMOVE_ZERO x)); [|exact Hr'];
        eapply (step_REMOVE_ZERO _ h [] x l2), lookup_insert_eq].
      intros _ m2 [Hr2 _]. wp_simpl. rewrite insert_insert_eq in Hr2. by rewrite foldl_app.
Qed.

(** ** TAILQ *)

Inductive tailq_op :=
  | Tq_INIT (h : ptr) | Tq_INSERT_HEAD (h x : ptr) | Tq_INSERT_TAIL (h x : ptr) | Tq_INSERT_AFTER (h y x : ptr)
  | Tq_INSERT_BEFORE (y x : ptr) | Tq_REMOVE (h x : ptr) | Tq_CONCAT (h h' : ptr) | Tq_SWAP (h h' : ptr).

Definition run_tailq (o : tailq_op) : M qmem unit :=
  match o with
  | Tq_INIT h => TAILQ_INIT h
  | Tq_INSERT_HEAD h x => TAILQ_INSERT_HEAD h x
  | Tq_INSERT_TAIL h x => TAILQ_INSERT_TAIL h x
  | Tq_INSERT_AFTER h y x => TAILQ_INSERT_AFTER h y x
  | Tq_INSERT_BEFORE y x => TAILQ_INSERT_BEFORE y x
  | Tq_REMOVE h x => TAILQ_REMOVE h x
  | Tq_CONCAT h h' => TAILQ_CONCAT h h'
  | Tq_SWAP h h' => TAILQ_SWAP h h'
  end.

Inductive tailq_step (E : gset ptr) : tailq_op -> lists -> lists -> Prop :=
  | tq_INIT h xs (A : lists) : A !! h = Some xs -> tailq_step E (Tq_INIT h) A (<[h := []]> A)
  | tq_INSERT_HEAD h x xs (A : lists) : A !! h = Some xs -> x ∈ E -> unused A x ->
      tailq_step E (Tq_INSERT_HEAD h x) A (<[h := x :: xs]> A)
  | tq_INSERT_TAIL h x xs (A : lists) : A !! h = Some xs -> x ∈ E -> unused A x ->
      tailq_step E (Tq_INSERT_TAIL h x) A (<[h := xs ++ [x]]> A)
  | tq_INSERT_AFTER h l1 y l2 x (A : lists) : A !! h = Some (l1 ++ y :: l2) -> x ∈ E -> unused A x ->
      tailq_step E (Tq_INSERT_AFTER h y x) A (<[h := l1 ++ y :: x :: l2]> A)
  | tq_INSERT_BEFORE h l1 y l2 x (A : lists) : A !! h = Some (l1 ++ y :: l2) -> x ∈ E -> unused A x ->
      tailq_step E (Tq_INSERT_BEFORE y x) A (<[h := l1 ++ x :: y :: l2]> A)
  | tq_REMOVE h l1 x l2 (A : lists) : A !! h = Some (l1 ++ x :: l2) ->
      tailq_step E (Tq_REMOVE h x) A (<[h := l1 ++ l2]> A)
  | tq_CONCAT h h' xs ys (A : lists) : A !! h = Some xs -> A !! h' = Some ys -> h <> h' ->
      tailq_step E (Tq_CONCAT h h') A (<[h := xs ++ ys]> (<[h' := []]> A))
  | tq_SWAP h h' xs ys (A : lists) : A !! h = Some xs -> A !! h' = Some ys -> h <> h' ->
      tailq_step E (Tq_SWAP h h') A (<[h := ys]> (<[h' := xs]> A)).

Lemma tailq_step_ok E o m (A A' : lists) :
  tailq_step E o A A' -> rep tailq E m A ->
  wp (run_tailq o) (fun _ m' => rep tailq E m' A' /\ quiet A A' m m') m.
Proof.
  intros Hst Hr. destruct Hst as [h xs A Ea|h x xs A Ea Hx Hu|h x xs A Ea Hx Hu|h l1 y l2 x A Ea Hx Hu
    |h l1 y l2 x A Ea Hx Hu|h l1 x l2 A Ea|h h' xs ys A Ex Ey Hne|h h' xs ys A Ex Ey Hne]; simpl.
  - eapply wp_mono; [|eapply TAILQ_INIT_ok, (rep_list _ _ _ _ Hr _ _ Ea)]. intros _ m' [HR Hl]. split.
    + eapply (rep_one _ _ m m' A h xs [] []); try done; [constructor|set_solver].
    + eapply (local_quiet _ _ _ _ h []); [exact Hl|set_solver].
  - apply (rep_insert _ _ A m h [] xs); try done. apply TAILQ_INSERT_HEAD_ok.
  - apply (rep_insert _ _ A m h xs []); rewrite ?app_nil_r; try done. apply TAILQ_INSERT_TAIL_ok.
  - rewrite <- (snoc_app l1 y (x :: l2)). rewrite <- (snoc_app l1 y l2) in Ea.
    apply (rep_insert _ _ A m h _ l2); try done. rewrite !snoc_app. apply TAILQ_INSERT_AFTER_ok.
  - apply (rep_insert _ _ A m h l1 (y :: l2)); try done. apply TAILQ_INSERT_BEFORE_ok.
  - apply (rep_remove _ _ A m h l1 x l2); try done. apply TAILQ_REMOVE_ok.
  - apply (rep_step_two tailq E A m h h' xs ys (xs ++ ys) []); try done; [by rewrite app_nil_r|apply TAILQ_CONCAT_ok].
  - apply (rep_step_two tailq E A m h h' xs ys ys xs); try done; [apply Permutation_app_comm|apply TAILQ_SWAP_ok].
Qed.

Inductive tailq_steps (E : gset ptr) : list tailq_op -> lists -> lists -> Prop :=
  | tqs_nil (A : lists) : tailq_steps E [] A A
  | tqs_cons o os (A A1 A' : lists) : tailq_step E o A A1 -> tailq_steps E os A1 A' -> tailq_steps E (o :: os) A A'.

Fixpoint run_tailqs (os : list tailq_op) : M qmem unit :=
  match os with [] => ret tt | o :: os => run_tailq o ;;; run_tailqs os end.

(** What the reading macros say of the list [xs] of [h]. *)
Definition tailq_reads m h xs : Prop :=
  wp (TAILQ_FIRST h) (fun r m' => m' = m /\ r = head xs) m /\
  wp (TAILQ_LAST h) (fun r m' => m' = m /\ r = last xs) m /\
  wp (TAILQ_EMPTY h) (fun b m' => m' = m /\ b = bool_decide (xs = [])) m /\
  forall l1 x l2, xs = l1 ++ x :: l2 ->
    wp (TAILQ_NEXT x) (fun r m' => m' = m /\ r = head l2) m /\
    wp (TAILQ_PREV x) (fun r m' => m' = m /\ r = last l1) m.

(** The traversals, forwards and backwards, with a body that leaves the memory alone. *)
Definition tailq_visits m h xs : Prop :=
  forall (B : Type) (body : B -> ptr -> M qmem B) (f : B -> ptr -> B) (b : B),
    (forall b x m, wp (body b x) (fun b' m' => m' = m /\ b' = f b x) m) ->
    wp (TAILQ_FOREACH body (length xs) h b) (fun b' m' => m' = m /\ b' = foldl f b xs) m /\
    wp (TAILQ_FOREACH_SAFE body (length xs) h b) (fun b' m' => m' = m /\ b' = foldl f b xs) m /\
    wp (TAILQ_FOREACH_REVERSE body (length xs) h b) (fun b' m' => m' = m /\ b' = foldl f b (reverse xs)) m /\
    wp (TAILQ_FOREACH_REVERSE_SAFE body (length xs) h b) (fun b' m' => m' = m /\ b' = foldl f b (reverse xs)) m.

Lemma tailq_visits_ok m h xs : tailq m h xs -> tailq_visits m h xs.
Proof.
  intros Ht B body f b Hb. pose proof (chain_first _ _ _ (proj1 Ht)) as Hf.
  assert (Hn : forall l1 x l2, xs = l1 ++ x :: l2 -> wp (TAILQ_NEXT x) (fun r m' => m' = m /\ r = head l2) m).
  { intros l1 x l2 ->. destruct (chain_at _ _ _ _ _ (proj1 Ht)) as (_ & _ & Hx & _). unfold TAILQ_NEXT. by q_go. }
  assert (Hp : forall l1 x l2, reverse xs = l1 ++ x :: l2 -> wp (TAILQ_PREV x) (fun r m' => m' = m /\ r = head l2) m).
  { intros l1 x l2 He. apply (f_equal reverse) in He. rewrite reverse_involutive, reverse_app, reverse_cons, snoc_app in He.
    subst xs. eapply TAILQ_PREV_ok; [exact Ht|]. by rewrite last_reverse. }
  unfold TAILQ_FOREACH, TAILQ_FOREACH_SAFE, TAILQ_FOREACH_REVERSE, TAILQ_FOREACH_REVERSE_SAFE, TAILQ_FIRST.
  split_and!; wp_simpl; first [eapply wp_ld1; [exact Hf|] | eapply TAILQ_LAST_ok; [exact Ht|]; rewrite <- head_reverse].
  - by apply (visit_ok body f Hb).
  - by apply (visit_safe_ok body f Hb).
  - apply (visit_ok body f Hb); [done|]. by rewrite length_reverse.
  - apply (visit_safe_ok body f Hb); [done|]. by rewrite length_reverse.
Qed.

Lemma tailq_reads_ok m h xs : tailq m h xs -> tailq_reads m h xs.
Proof.
  intros Ht. pose proof (chain_first _ _ _ (proj1 Ht)) as Hf. split_and!.
  - unfold TAILQ_FIRST. by q_go.
  - by eapply TAILQ_LAST_ok.
  - unfold TAILQ_EMPTY, TAILQ_FIRST. q_go. split; [done|]. apply bool_decide_ext. by destruct xs.
  - intros l1 x l2 ->. destruct (chain_at _ _ _ _ _ (proj1 Ht)) as (_ & _ & Hn & _). split.
    + unfold TAILQ_NEXT. by q_go.
    + by eapply TAILQ_PREV_ok.
Qed.

(** C34: the TAILQ macros on memory do what the operations on lists say: from a memory
    that represents disjoint tail queues, any sequence of macros (TAILQ_INIT,
    TAILQ_INSERT_HEAD, _TAIL, _AFTER and _BEFORE, TAILQ_REMOVE, TAILQ_CONCAT,
    TAILQ_SWAP) that inserts only elements on no queue runs without touching an
    unallocated structure and leaves a memory that represents the queues the
    operations give; TAILQ_FIRST, TAILQ_LAST, TAILQ_EMPTY, TAILQ_NEXT and TAILQ_PREV
    then read the first and last element and the neighbours of each one, and the
    traversals visit every element once, forwards or backwards. *)
Theorem tailq_macros_refine E os m (A A' : lists) :
  rep tailq E m A -> tailq_steps E os A A' ->
  wp (run_tailqs os) (fun _ m' => rep tailq E m' A' /\
    forall h xs, A' !! h = Some xs -> tailq_reads m' h xs /\ tailq_visits m' h xs) m.
Proof.
  intros Hr Hs. revert m Hr. induction Hs as [A|o os A A1 A' H1 _ IH]; intros m Hr; simpl; wp_simpl.
  - split; [done|]. intros h xs Ea. pose proof (rep_list _ _ _ _ Hr _ _ Ea).
    split; [by apply tailq_reads_ok|by apply tailq_visits_ok].
  - eapply wp_mono; [|by eapply tailq_step_ok]. intros _ m1 [Hr1 _]. by apply IH.
Qed.

