(* ===== verification/Ops.v ===== *)
(** * Tables of operations and the contract between common and platform code

    The function pointers of [struct filter] and [struct kqueue_vtable]
    (src/common/private.h) as records of operations on the [world], the list of
    filters of a build ([filter_list.h], which CMake generates, is a parameter),
    the invariant [winv] of the data that common code owns, and the contract
    [FilterContract] under which common code calls a filter: private.h says that
    the callbacks neither allocate, free nor index knotes, and leave the common
    members of knotes and kqueues alone. *)

From Stdlib Require Import ZArith Lia Bool.
From stdpp Require Import base list gmap.
From S2P Require Import Prelude RBTree Event Map State.

(** ** Function tables *)

(** The callbacks of [struct filter]. *)
Record filter_ops (K : Type) := FilterOps
  { kf_init : option (filt_ref -> M (world K) Z);
    kf_destroy : option (filt_ref -> M (world K) unit);
    kf_copyout : Z -> Z -> filt_ref -> option ptr -> raw_event -> M (world K) Z;
    kn_create : filt_ref -> ptr -> M (world K) Z;
    kn_modify : filt_ref -> ptr -> kevent -> M (world K) Z;
    kn_delete : filt_ref -> ptr -> M (world K) Z;
    kn_enable : filt_ref -> ptr -> M (world K) Z;
    kn_disable : filt_ref -> ptr -> M (world K) Z }.
Arguments FilterOps {K} _ _ _ _ _ _ _ _.
Arguments kf_init {K} _.
Arguments kf_destroy {K} _.
Arguments kf_copyout {K} _ _ _ _ _ _.
Arguments kn_create {K} _ _ _.
Arguments kn_modify {K} _ _ _ _.
Arguments kn_delete {K} _ _ _.
Arguments kn_enable {K} _ _ _.
Arguments kn_disable {K} _ _ _.

(** One entry of [filter_list.h]: the [kf_id] of the static structure (0 for
    [EVFILT_NOTIMPL]) and its functions. *)
Record filter_src (K : Type) := FilterSrc { fs_id : Z; fs_ops : filter_ops K }.
Arguments FilterSrc {K} _ _.
Arguments fs_id {K} _.
Arguments fs_ops {K} _.

(** [struct kqueue_vtable], the members the common code calls, and the two
    platform macros around [kevent()]. *)
Record kqueue_vtable (K : Type) := KqueueVtable
  { kqops_kqueue_init : ptr -> M (world K) Z;
    kqops_kqueue_free : ptr -> M (world K) unit;
    kqops_close_async : bool;
    kqops_kqueue_interrupt : option (ptr -> M (world K) unit);
    kqops_kevent_wait : ptr -> Z -> option timespec -> M (world K) Z;
    kqops_kevent_copyout : ptr -> Z -> Z -> Z -> M (world K) Z;
    kqops_filter_init : option (ptr -> filt_ref -> M (world K) Z);
    kqops_filter_free : option (ptr -> filt_ref -> M (world K) unit);
    kqops_set_file_poll_interval : option (ptr -> Z -> M (world K) Z);
    kqops_libkqueue_fork : M (world K) unit;
    kqueue_kevent_enter : ptr -> ptr -> M (world K) unit;
    kqueue_kevent_exit : ptr -> ptr -> M (world K) unit }.
Arguments KqueueVtable {K} _ _ _ _ _ _ _ _ _ _ _ _.
Arguments kqops_kqueue_init {K} _ _.
Arguments kqops_kqueue_free {K} _ _.
Arguments kqops_close_async {K} _.
Arguments kqops_kqueue_interrupt {K} _.
Arguments kqops_kevent_wait {K} _ _ _ _.
Arguments kqops_kevent_copyout {K} _ _ _ _ _.
Arguments kqops_filter_init {K} _.
Arguments kqops_filter_free {K} _.
Arguments kqops_set_file_poll_interval {K} _.
Arguments kqops_libkqueue_fork {K} _.
Arguments kqueue_kevent_enter {K} _ _ _.
Arguments kqueue_kevent_exit {K} _ _ _.

(** The filters compiled into a build. *)
Class FilterList (K : Type) := filter_list : list (filter_src K).

Section Tables.
Context {K : Type} `{FilterList K}.

(** The static structure with identifier [id]. *)
Definition ops_table (id : Z) : option (filter_ops K) :=
  fs_ops <$> find (fun s => Z.eqb (fs_id s) id) filter_list.

(** The function pointers a [struct filter *] holds: all NULL in an empty slot. *)
Definition filt_ops (f : filt_ref) : M (world K) (filter_ops K) :=
  let! x := get_filt f in deref NullDeref (kf_impl x ≫= ops_table).

(** The table of a filter that is in the slot of its identifier. *)
Definition slot_ops (i : nat) (x : filter) : option (filter_ops K) :=
  match kf_impl x with
  | Some id => if Z.lnot id =? Z.of_nat i then ops_table id else None
  | None => None
  end.

Lemma slot_ops_Some i x o :
  slot_ops i x = Some o <-> exists id, kf_impl x = Some id /\ Z.lnot id = Z.of_nat i /\ ops_table id = Some o.
Proof.
  unfold slot_ops. destruct (kf_impl x) as [id|]; [|naive_solver].
  destruct (Z.eqb_spec (Z.lnot id) (Z.of_nat i)); naive_solver.
Qed.
End Tables.

(** Two lists with the same identifiers have the same slots in use. *)
Lemma slot_ops_ids {K : Type} (l l' : FilterList K) i x :
  fs_id <$> (l : list (filter_src K)) = fs_id <$> (l' : list (filter_src K)) ->
  is_Some (slot_ops (H := l) i x) -> is_Some (slot_ops (H := l') i x).
Proof.
  intros Hl. unfold slot_ops. destruct (kf_impl x) as [id|]; [|done]. destruct (_ =? _); [|done].
  unfold ops_table. rewrite !fmap_is_Some. unfold filter_list, FilterList in *. revert l' Hl.
  induction l as [|s l IH]; intros [|s' l'] Hl; try done. injection Hl as Hs Hl. simpl. rewrite Hs.
  destruct (fs_id s' =? id); [by eauto|]. by apply IH.
Qed.

(** ** The invariant of the common data *)

(** What an entry of slot [i] of kqueue [q] promises of its knote. *)
Definition knote_ok (m : gmap ptr knote) (q : ptr) (i : nat) (e : entry) : Prop :=
  exists kn, m !! e_ptr e = Some kn /\ ident (kev kn) = e_key e /\
    Z.lnot (filter_ (kev kn)) = Z.of_nat i /\ kn_kq kn = Some q /\
    has (kn_flags kn) KNFL_KNOTE_DELETED = false /\ 0 < kn_ref kn.

Record slot_ok (m : gmap ptr knote) (q : ptr) (i : nat) (f : filter) : Prop :=
  { slot_wf : wf e_key (kf_index f);
    slot_kn : Forall (knote_ok m q i) (elements (kf_index f));
    slot_ready : Forall (fun p => p ∈ e_ptr <$> elements (kf_index f)) (kf_ready f);
    slot_zero : kf_id f = 0 -> elements (kf_index f) = [] }.

Definition knotes_of (fs : list filter) : nat :=
  sum_list (rb_size <$> (kf_index <$> fs)).

Record kq_inv (m : gmap ptr knote) (q : ptr) (kq : kqueue) : Prop :=
  { inv_slots : length (kq_filt kq) = Z.to_nat EVFILT_SYSCOUNT;
    inv_slot : forall i f, kq_filt kq !! i = Some f -> slot_ok m q i f;
    inv_count : kq_knote_count kq = Z.of_nat (knotes_of (kq_filt kq)) }.

(** [winv]: every kqueue is consistent, and addresses from [w_next] on are unused. *)
Record winv {K : Type} (w : world K) : Prop :=
  { wi_kq : forall q kq, w_kqs w !! q = Some kq -> kq_inv (w_knotes w) q kq;
    wi_fresh_kn : forall p, (w_next w <= p)%positive -> w_knotes w !! p = None;
    wi_fresh_kq : forall p, (w_next w <= p)%positive -> w_kqs w !! p = None }.

(** The slot [i] of kqueue [q]. *)
Definition slot_of {K : Type} (w : world K) (q : ptr) (i : nat) : option filter :=
  w_kqs w !! q ≫= fun kq => kq_filt kq !! i.

(** ** What a callback may change *)

Definition kn_common (kn : knote) : Z * Z * Z * option ptr * bool :=
  (ident (kev kn), filter_ (kev kn), kn_ref kn, kn_kq kn,
   has (kn_flags kn) KNFL_KNOTE_DELETED).

Definition kq_common (kq : kqueue)
    : Z * list filter * bool * bool * Z * list kevent_state :=
  (kq_id kq, kq_filt kq, kq_locked kq, kq_freeing kq, kq_knote_count kq, kq_inflight kq).

(** [frame_ p]: the step of a callback on the knote at [p]. *)
Record frame_ {K : Type} (p : ptr) (w w' : world K) : Prop :=
  { fr_knote : kn_common <$> w_knotes w' !! p = kn_common <$> w_knotes w !! p;
    fr_others : forall q, q <> p -> w_knotes w' !! q = w_knotes w !! q;
    fr_kqs : kq_common <$> w_kqs w' = kq_common <$> w_kqs w;
    fr_next : (w_next w <= w_next w')%positive;
    fr_mem : w_mem w' = w_mem w;
    fr_evbuf : w_evbuf w' = w_evbuf w;
    fr_mtx : w_mtx w' = w_mtx w;
    fr_kqmap : w_kqmap w' = w_kqmap w;
    fr_kq_list : w_kq_list w' = w_kq_list w }.

(** The members of a knote and of a kqueue that belong to the platform. *)
Definition kn_plat (kn : knote) : knote :=
  set_kev (Kevent (ident (kev kn)) (filter_ (kev kn)) 0 0 0 0)
    (set_kn_ref 0 (set_kn_flags (clrb (kn_flags kn) KNFL_KNOTE_DELETED) kn)).

Definition kq_plat (kq : kqueue) : list (Z * option ptr) * kqueue :=
  ((fun f => (ef_id f, efd_udata f)) <$> kq_filt kq,
   set_kq_filt [] (set_kq_locked false (set_kq_freeing false (set_kq_knote_count 0 kq)))).

(** The entry [e] is in the index of slot [i] of kqueue [q]. *)
Definition indexed {K : Type} (w : world K) (q : ptr) (i : nat) (e : entry) : Prop :=
  exists x, slot_of w q i = Some x /\ e ∈ elements (kf_index x).

(** [plat_eq w w']: [w'] differs from [w] in common data only, and no knote has
    left an index. *)
Record plat_eq {K : Type} (w w' : world K) : Prop :=
  { pe_knotes : kn_plat <$> w_knotes w' = kn_plat <$> w_knotes w;
    pe_kqs : kq_plat <$> w_kqs w' = kq_plat <$> w_kqs w;
    pe_udatas : w_udatas w' = w_udatas w;
    pe_fdss : w_fdss w' = w_fdss w;
    pe_next : (w_next w <= w_next w')%positive;
    pe_sfss : w_sfss w' = w_sfss w;
    pe_sig : w_sig w' = w_sig w;
    pe_px : w_px w' = w_px w;
    pe_sl : w_sl w' = w_sl w;
    pe_wn : w_wn w' = w_wn w;
    pe_index : forall q i e, indexed w q i e -> indexed w' q i e }.

(** The slot [i] of the kqueue [kq] at [q] is replaced. *)
Definition with_slot {K : Type} (w : world K) (q : ptr) (kq : kqueue) (i : nat) (x : filter)
    (count : Z) : world K :=
  set_w_kqs (<[q := set_kq_knote_count count
    (set_kq_filt (<[i := x]> (kq_filt kq)) kq)]> (w_kqs w)) w.

(** [linking q i p w w']: [knote_insert] has put the knote [p] into its index. *)
Definition linking {K : Type} (q : ptr) (i : nat) (p : ptr) (w w' : world K) : Prop :=
  exists kq x t c kn, w_kqs w !! q = Some kq /\ kq_filt kq !! i = Some x /\
    w_knotes w !! p = Some kn /\ w' = with_slot w q kq i (set_kf_index t x) c /\
    forall e, e ∈ elements t <-> e = Entry (ident (kev kn)) p \/ e ∈ elements (kf_index x).

(** [unlinking q i p w w']: [knote_delete] has taken it out of its index. *)
Definition unlinking {K : Type} (q : ptr) (i : nat) (p : ptr) (w w' : world K) : Prop :=
  exists kq x t r c kn, w_kqs w !! q = Some kq /\ kq_filt kq !! i = Some x /\
    w_knotes w !! p = Some kn /\ Entry (ident (kev kn)) p ∈ elements (kf_index x) /\
    w' = with_slot w q kq i (set_kf_ready r (set_kf_index t x)) c /\
    forall e, e ∈ elements t <-> e ∈ elements (kf_index x) /\ e_ptr e <> p.

(** A change to a filter of descriptors names an [int]. *)
Definition fd_ident (k : kevent) : Prop :=
  filter_ k = EVFILT_READ \/ filter_ k = EVFILT_WRITE -> 0 <= ident k < 2 ^ 31.

(** The knote [p] is in the index of slot [i]. *)
Definition listed {K : Type} (w : world K) (q : ptr) (i : nat) (p : ptr) : Prop :=
  forall kn, w_knotes w !! p = Some kn -> indexed w q i (Entry (ident (kev kn)) p).

(** The knote [p], about to be created in slot [i], has an identifier that is not
    registered there. *)
Definition absent {K : Type} (w : world K) (q : ptr) (i : nat) (p : ptr) : Prop :=
  forall kn e, w_knotes w !! p = Some kn -> indexed w q i e -> e_key e <> ident (kev kn).

(** The state in which a callback of slot [i] of kqueue [q] is called on [p]. *)
Definition cb_pre {K : Type} (w : world K) (q : ptr) (i : nat) (p : ptr) : Prop :=
  exists kq f kn, w_kqs w !! q = Some kq /\ kq_locked kq = true /\
    kq_filt kq !! i = Some f /\ w_knotes w !! p = Some kn /\ kn_kq kn = Some q /\
    Z.lnot (filter_ (kev kn)) = Z.of_nat i /\
    has (kn_flags kn) KNFL_KNOTE_DELETED = false.

(** The knote [kevent_copyin_one] hands to [kn_create]. *)
Definition new_knote (src : kevent) (q : ptr) : knote :=
  set_kn_kq (Some q) (set_kev (set_flags (clrb (flags src) EV_ENABLE) src)
    (set_kn_ref 1 knote_zero)).

(** No fd_state refers to the knote: only the read and write filters share one. *)
Definition unshared (kn : knote) : Prop :=
  kn_fds kn = None \/ filter_ (kev kn) <> EVFILT_READ /\ filter_ (kev kn) <> EVFILT_WRITE.

(** [PlatInv I]: an invariant of the platform's data that common code keeps.  A
    knote is freed only when no fd_state refers to it any more. *)
Class PlatInv {K : Type} (I : world K -> Prop) :=
  { pi_stable : forall w w', I w -> plat_eq w w' -> I w';
    pi_new : forall w p src q, I w -> w_knotes w !! p = None -> fd_ident src ->
      I (set_w_knotes (<[p := new_knote src q]> (w_knotes w)) w);
    pi_free : forall w p kn, I w -> w_knotes w !! p = Some kn -> unshared kn ->
      I (set_w_knotes (delete p (w_knotes w)) w);
    pi_unlink : forall w w' q i p kn, I w -> unlinking q i p w w' -> w_knotes w !! p = Some kn ->
      filter_ (kev kn) <> EVFILT_READ -> filter_ (kev kn) <> EVFILT_WRITE -> I w';
    pi_kq_free : forall w q, I w -> I (set_w_kqs (delete q (w_kqs w)) w);
    pi_slots : forall w q kq fs, I w -> w_kqs w !! q = Some kq ->
      (forall x, x ∈ kq_filt kq -> elements (kf_index x) = []) ->
      I (set_w_kqs (<[q := set_kq_filt fs kq]> (w_kqs w)) w) }.

(** What the per-kqueue callbacks of a filter, [kf_init] and [kf_destroy], may
    change: the members of the slot other than its identity and its index. *)
Record slot_frame_ {K : Type} (q : ptr) (i : nat) (w w' : world K) : Prop :=
  { sf_knotes : w_knotes w' = w_knotes w;
    sf_others : forall r, r <> q -> w_kqs w' !! r = w_kqs w !! r;
    sf_kq : forall kq, w_kqs w !! q = Some kq -> exists kq', w_kqs w' !! q = Some kq' /\
      (kq_id kq', kq_locked kq', kq_freeing kq', kq_knote_count kq', kq_inflight kq') =
      (kq_id kq, kq_locked kq, kq_freeing kq, kq_knote_count kq, kq_inflight kq) /\
      (fun f => (kf_id f, kf_impl f, kf_index f, kf_ready f)) <$> kq_filt kq' =
      (fun f => (kf_id f, kf_impl f, kf_index f, kf_ready f)) <$> kq_filt kq;
    sf_next : (w_next w <= w_next w')%positive;
    sf_mem : w_mem w' = w_mem w;
    sf_evbuf : w_evbuf w' = w_evbuf w;
    sf_mtx : w_mtx w' = w_mtx w;
    sf_kqmap : w_kqmap w' = w_kqmap w;
    sf_kq_list : w_kq_list w' = w_kq_list w }.

(** What a filter promises in slot [i]: called under [cb_pre], each callback returns without
    a fault, stays within [frame_] and keeps the platform's invariant, which holds
    of a new knote once it is in the index and of a deleted one before it has left
    it; after a failed creation and after a deletion no fd_state refers to the knote.  Disabling
    leaves the registered event alone (the common code reads its flags again).  The
    result 1 asks for a copy of the knote's event, which [kn_delete] must not do:
    common code has freed the knote by then. *)
Class FilterContract {K : Type} (I : world K -> Prop) (i : nat) (o : filter_ops K) :=
  { fc_create : forall w q p, winv w -> I w -> cb_pre w q i p ->
      kn_fds <$> w_knotes w !! p = Some None -> absent w q i p ->
      wp (kn_create o (q, i) p) (fun rv w' => frame_ p w w' /\
        (rv < 0 -> I w' /\ forall kn, w_knotes w' !! p = Some kn -> unshared kn) /\
        forall w2, linking q i p w' w2 -> I w2) w;
    fc_modify : forall w q p k, winv w -> I w -> cb_pre w q i p -> listed w q i p ->
      (forall kn, w_knotes w !! p = Some kn ->
         ident (kev kn) = ident k /\ filter_ (kev kn) = filter_ k) ->
      wp (kn_modify o (q, i) p k) (fun _ w' => frame_ p w w' /\ I w') w;
    fc_delete : forall w0 w q p, winv w0 -> winv w -> I w0 -> unlinking q i p w0 w ->
      cb_pre w q i p ->
      wp (kn_delete o (q, i) p) (fun rv w' => rv <> 1 /\ frame_ p w w' /\ I w' /\
        forall kn, w_knotes w' !! p = Some kn -> unshared kn) w;
    fc_enable : forall w q p, winv w -> I w -> cb_pre w q i p -> listed w q i p ->
      wp (kn_enable o (q, i) p) (fun _ w' => frame_ p w w' /\ I w') w;
    fc_disable : forall w q p, winv w -> I w -> cb_pre w q i p -> listed w q i p ->
      wp (kn_disable o (q, i) p) (fun _ w' => frame_ p w w' /\ I w' /\
        kev <$> w_knotes w' !! p = kev <$> w_knotes w !! p) w;
    fc_init : forall m w q, kf_init o = Some m -> winv w -> I w ->
      is_Some (w_kqs w !! q) ->
      wp (m (q, i)) (fun _ w' => slot_frame_ q i w w' /\ I w') w;
    fc_destroy : forall m w q f, kf_destroy o = Some m -> winv w -> I w ->
      slot_of w q i = Some f -> elements (kf_index f) = [] ->
      wp (m (q, i)) (fun _ w' => slot_frame_ q i w w' /\ I w') w }.

(** The global mutex, the descriptor map and the list of kqueues. *)
Definition globals {K : Type} (w : world K) : bool * map * list ptr := (w_mtx w, w_kqmap w, w_kq_list w).

(** What the optional per-filter hooks of a platform promise. *)
Class VtableContract {K : Type} (I : world K -> Prop) (V : kqueue_vtable K) :=
  { vc_filter_init : forall m w q i, kqops_filter_init V = Some m -> winv w -> I w ->
      is_Some (w_kqs w !! q) ->
      wp (m q (q, i)) (fun _ w' => slot_frame_ q i w w' /\ I w') w;
    vc_filter_free : forall m w q i, kqops_filter_free V = Some m -> winv w -> I w ->
      is_Some (w_kqs w !! q) ->
      wp (m q (q, i)) (fun _ w' => slot_frame_ q i w w' /\ I w') w }.

(** Every filter of the build keeps the contract. *)
Class BuildContract {K : Type} `{FilterList K} (I : world K -> Prop) :=
  { bc_inv :: PlatInv I;
    bc_filter : forall i id o, ops_table id = Some o -> Z.lnot id = Z.of_nat i ->
      FilterContract I i o }.

Lemma slot_contract {K : Type} `{FilterList K} (I : world K -> Prop) `{!BuildContract I} i x o :
  slot_ops i x = Some o -> FilterContract I i o.
Proof. intros (id & _ & Hi & Ho)%slot_ops_Some. by eapply bc_filter. Qed.

(** ** Frames *)

Section Frame.
Context {K : Type}.
Implicit Types (w : world K) (p q : ptr).

#[export] Instance frame_preorder p : PreOrder (frame_ (K := K) p).
Proof.
  split.
  - intros w. split; done || lia.
  - intros w1 w2 w3 [A1 B1 C1 D1 E1 F1 G1 H1 I1] [A2 B2 C2 D2 E2 F2 G2 H2 I2].
    split; try congruence; [|lia]. intros q Hq. by rewrite B2, B1.
Qed.

Lemma frame_kq p w w' q kq :
  frame_ p w w' -> w_kqs w !! q = Some kq ->
  exists kq', w_kqs w' !! q = Some kq' /\ kq_common kq' = kq_common kq.
Proof.
  intros Hf Hq. pose proof (fr_kqs _ _ _ Hf) as He.
  apply (f_equal (lookup q)) in He. rewrite !lookup_fmap, Hq in He.
  destruct (w_kqs w' !! q) as [kq'|] eqn:E; [|done]. apply (inj Some) in He. eauto.
Qed.

Lemma frame_kn p w w' kn :
  frame_ p w w' -> w_knotes w !! p = Some kn ->
  exists kn', w_knotes w' !! p = Some kn' /\ kn_common kn' = kn_common kn.
Proof.
  intros Hf Hq. pose proof (fr_knote _ _ _ Hf) as He. rewrite Hq in He.
  destruct (w_knotes w' !! p) as [kn'|] eqn:E; [|done]. apply (inj Some) in He. eauto.
Qed.

Lemma frame_common p w w' : frame_ p w w' ->
  forall r, kn_common <$> w_knotes w' !! r = kn_common <$> w_knotes w !! r.
Proof.
  intros Hf r. destruct (decide (r = p)) as [->|Hr]; [apply Hf|].
  by rewrite (fr_others _ _ _ Hf).
Qed.

Lemma frame_os p w k : frame_ p w (set_w_os k w).
Proof. by split. Qed.
Lemma frame_errno p w e : frame_ p w (set_w_errno e w).
Proof. by split. Qed.
Lemma frame_next p w : frame_ p w (set_w_next (Pos.succ (w_next w)) w).
Proof. split; simpl; done || lia. Qed.
Lemma frame_udatas p w m : frame_ p w (set_w_udatas m w).
Proof. by split. Qed.
Lemma frame_fdss p w m : frame_ p w (set_w_fdss m w).
Proof. by split. Qed.

Lemma frame_knotes p w kn kn' :
  w_knotes w !! p = Some kn -> kn_common kn' = kn_common kn ->
  frame_ p w (set_w_knotes (<[p := kn']> (w_knotes w)) w).
Proof.
  intros E Hc. split; simpl; try done.
  - rewrite lookup_insert_eq, E. simpl. by f_equal.
  - intros q Hq. by rewrite lookup_insert_ne.
Qed.

Lemma frame_kqueue p w q kq kq' :
  w_kqs w !! q = Some kq -> kq_common kq' = kq_common kq ->
  frame_ p w (set_w_kqs (<[q := kq']> (w_kqs w)) w).
Proof.
  intros E Hc. split; simpl; try done.
  rewrite fmap_insert, Hc. apply insert_id. by rewrite lookup_fmap, E.
Qed.
End Frame.

Create HintDb frame.
#[export] Hint Resolve frame_os frame_errno frame_next frame_udatas frame_fdss
  frame_knotes frame_kqueue : frame.

(** ** The invariant under frames and updates of one knote or one slot *)

Section Inv.
Context {K : Type}.
Implicit Types (w : world K) (p q : ptr) (m : gmap ptr knote).

Lemma knote_ok_common m m' q i e :
  kn_common <$> m' !! e_ptr e = kn_common <$> m !! e_ptr e ->
  knote_ok m q i e -> knote_ok m' q i e.
Proof.
  intros Hc (kn & E & Hi & Hf & Hq & Hd & Hr). rewrite E in Hc. simpl in Hc.
  destruct (m' !! e_ptr e) as [kn'|] eqn:E'; [|done].
  unfold kn_common in Hc. simplify_eq/=.
  exists kn'. split_and!; congruence.
Qed.

Lemma slot_ok_common m m' q i f :
  (forall e, e ∈ elements (kf_index f) ->
     kn_common <$> m' !! e_ptr e = kn_common <$> m !! e_ptr e) ->
  slot_ok m q i f -> slot_ok m' q i f.
Proof.
  intros Hc [Hw Hk Hr Hz]. split; [done| |done|done].
  rewrite Forall_forall in Hk |- *. intros e He. by apply (knote_ok_common m); [apply Hc|apply Hk].
Qed.

Lemma kq_inv_common m m' q kq kq' :
  (forall p, kn_common <$> m' !! p = kn_common <$> m !! p) ->
  kq_filt kq' = kq_filt kq -> kq_knote_count kq' = kq_knote_count kq ->
  kq_inv m q kq -> kq_inv m' q kq'.
Proof.
  intros Hm Hf Hc [H1 H2 H3]. split; rewrite ?Hf, ?Hc; try done.
  intros i f Hi. apply (slot_ok_common m); [done|by apply H2].
Qed.

Lemma winv_frame p w w' : frame_ p w w' -> winv w -> winv w'.
Proof.
  intros Hf [Hk Hn Hq]. pose proof (frame_common _ _ _ Hf) as Hc. split.
  - intros q kq' E'. pose proof (fr_kqs _ _ _ Hf) as He.
    apply (f_equal (lookup q)) in He. rewrite !lookup_fmap, E' in He.
    destruct (w_kqs w !! q) as [kq|] eqn:E; [|done]. unfold kq_common in He. simplify_eq/=.
    eapply kq_inv_common; [exact Hc|done|done|by apply Hk].
  - intros r Hr. specialize (Hn r). pose proof (fr_next _ _ _ Hf).
    specialize (Hc r). rewrite Hn in Hc by lia. by destruct (w_knotes w' !! r).
  - intros r Hr. pose proof (fr_kqs _ _ _ Hf) as He. pose proof (fr_next _ _ _ Hf).
    apply (f_equal (lookup r)) in He. rewrite !lookup_fmap, (Hq r) in He by lia.
    by destruct (w_kqs w' !! r).
Qed.

Lemma cb_pre_frame p w w' q i : frame_ p w w' -> cb_pre w q i p -> cb_pre w' q i p.
Proof.
  intros Hf (kq & f & kn & E & Hl & Ei & Ek & Hq & Hi & Hd).
  destruct (frame_kq _ _ _ _ _ Hf E) as (kq' & E' & Hc).
  destruct (frame_kn _ _ _ _ Hf Ek) as (kn' & Ek' & Hc').
  unfold kq_common, kn_common in *. simplify_eq/=.
  exists kq', f, kn'. split_and!; congruence.
Qed.

(** An entry of the index gives the precondition of its callbacks. *)
Lemma slot_cb_pre w q kq i f e :
  winv w -> w_kqs w !! q = Some kq -> kq_locked kq = true ->
  kq_filt kq !! i = Some f -> e ∈ elements (kf_index f) -> cb_pre w q i (e_ptr e).
Proof.
  intros Hw E Hl Ei He. destruct (wi_kq _ Hw _ _ E) as [_ Hs _].
  destruct (Hs _ _ Ei) as [_ Hk _ _]. rewrite Forall_forall in Hk.
  destruct (Hk _ He) as (kn & Ek & ? & ? & ? & ? & ?). by exists kq, f, kn.
Qed.

(** The entry of a knote: its slot and its key determine it. *)
Lemma entry_unique m q i f e e' :
  slot_ok m q i f -> e ∈ elements (kf_index f) -> e' ∈ elements (kf_index f) ->
  e_ptr e = e_ptr e' -> e = e'.
Proof.
  intros [_ Hk _ _] He He' Hp. rewrite Forall_forall in Hk.
  destruct (Hk _ He) as (kn & Ek & Hi & _). destruct (Hk _ He') as (kn' & Ek' & Hi' & _).
  destruct e, e'; simpl in *; subst. by simplify_eq.
Qed.

Lemma slot_unique m q q' i i' f f' e e' :
  slot_ok m q i f -> slot_ok m q' i' f' -> e ∈ elements (kf_index f) ->
  e' ∈ elements (kf_index f') -> e_ptr e = e_ptr e' -> q = q' /\ i = i'.
Proof.
  intros [_ Hk _ _] [_ Hk' _] He He' Hp. rewrite Forall_forall in Hk, Hk'.
  destruct (Hk _ He) as (kn & Ek & _ & Hf & Hq & _).
  destruct (Hk' _ He') as (kn' & Ek' & _ & Hf' & Hq' & _).
  rewrite <- Hp in Ek'. simplify_eq. split; [congruence|lia].
Qed.

(** Replacing the slot [i], whose new index has [n] knotes. *)
Lemma knotes_of_insert fs i f f' :
  fs !! i = Some f ->
  (knotes_of (<[i := f']> fs) + rb_size (kf_index f) =
   knotes_of fs + rb_size (kf_index f'))%nat.
Proof.
  intros Hi. unfold knotes_of. revert i Hi.
  induction fs as [|g fs IH]; intros [|i] Hi; simplify_eq/=; [lia|].
  specialize (IH _ Hi). lia.
Qed.
End Inv.

(** ** Steps of common code on one kqueue *)

(** The map from identifiers to knotes a slot stands for. *)
Definition index_of (f : filter) : gmap Z ptr := e_ptr <$> to_map e_key (kf_index f).

Definition view {K : Type} (w : world K) (q : ptr) (i : nat) : gmap Z ptr :=
  default ∅ (index_of <$> slot_of w q i).

(** Members of a kqueue that no operation on its knotes changes. *)
Definition kq_fixed (kq : kqueue) : Z * bool * bool * list kevent_state * list (Z * option Z) :=
  (kq_id kq, kq_locked kq, kq_freeing kq, kq_inflight kq,
   (fun f => (kf_id f, kf_impl f)) <$> kq_filt kq).

(** [step_q q w w']: only kqueue [q] and its knotes changed. *)
Record step_q {K : Type} (q : ptr) (w w' : world K) : Prop :=
  { sq_self : kq_fixed <$> w_kqs w' !! q = kq_fixed <$> w_kqs w !! q;
    sq_kqs : forall r, r <> q -> kq_common <$> w_kqs w' !! r = kq_common <$> w_kqs w !! r;
    sq_kn : forall p kn, w_knotes w !! p = Some kn -> kn_kq kn <> Some q ->
              w_knotes w' !! p = Some kn;
    sq_next : (w_next w <= w_next w')%positive;
    sq_mem : w_mem w' = w_mem w;
    sq_evbuf : w_evbuf w' = w_evbuf w;
    sq_mtx : w_mtx w' = w_mtx w;
    sq_kqmap : w_kqmap w' = w_kqmap w;
    sq_kq_list : w_kq_list w' = w_kq_list w }.

Section Step.
Context {K : Type}.
Implicit Types (w : world K) (p q : ptr) (m : gmap ptr knote).

#[export] Instance step_preorder q : PreOrder (step_q (K := K) q).
Proof.
  split.
  - intros w. split; done || lia.
  - intros w1 w2 w3 [A1 B1 C1 D1 E1 F1 G1 H1 I1] [A2 B2 C2 D2 E2 F2 G2 H2 I2].
    split; try congruence; [| |lia].
    + intros r Hr. by rewrite B2, B1.
    + intros p kn Hp Hk. by apply C2; [apply C1|].
Qed.

Lemma step_of_frame p q w w' kn :
  frame_ p w w' -> w_knotes w !! p = Some kn -> kn_kq kn = Some q -> step_q q w w'.
Proof.
  intros Hf Hp Hq. pose proof (fr_kqs _ _ _ Hf) as Hk.
  assert (Hr : forall r, kq_common <$> w_kqs w' !! r = kq_common <$> w_kqs w !! r).
  { intros r. apply (f_equal (lookup r)) in Hk. by rewrite !lookup_fmap in Hk. }
  destruct Hf. split; try done.
  - specialize (Hr q). destruct (w_kqs w' !! q), (w_kqs w !! q); try done; simpl in *.
    unfold kq_common, kq_fixed in *. simplify_eq. congruence.
  - intros r kn' Hr' Hkn'. rewrite fr_others0; [done|]. intros ->. by simplify_eq.
Qed.

Lemma step_kq q w kq kq' :
  w_kqs w !! q = Some kq -> kq_fixed kq' = kq_fixed kq ->
  step_q q w (set_w_kqs (<[q := kq']> (w_kqs w)) w).
Proof.
  intros E Hf. split; simpl; try done.
  - rewrite lookup_insert_eq, E. simpl. by f_equal.
  - intros r Hr. by rewrite lookup_insert_ne.
Qed.

(** Changing or freeing a knote of [q]. *)
Lemma step_knotes q w p m :
  (forall kn, w_knotes w !! p = Some kn -> kn_kq kn = Some q) ->
  (forall r, r <> p -> m !! r = w_knotes w !! r) ->
  step_q q w (set_w_knotes m w).
Proof.
  intros Hp Hm. split; simpl; try done. intros r kn Hr Hk.
  rewrite Hm; [done|]. intros ->. by apply Hk, Hp.
Qed.

Lemma step_self q w w' kq :
  step_q q w w' -> w_kqs w !! q = Some kq ->
  exists kq', w_kqs w' !! q = Some kq' /\ kq_fixed kq' = kq_fixed kq.
Proof.
  intros Hs Hq. pose proof (sq_self _ _ _ Hs) as He. rewrite Hq in He.
  destruct (w_kqs w' !! q) as [kq'|] eqn:E; [|done]. apply (inj Some) in He. eauto.
Qed.

Lemma view_slot w q kq i f :
  w_kqs w !! q = Some kq -> kq_filt kq !! i = Some f -> view w q i = index_of f.
Proof. intros E Ei. unfold view, slot_of. rewrite E. simpl. by rewrite Ei. Qed.

Lemma view_set_slot w q kq i f f' kq' j :
  w_kqs w !! q = Some kq -> kq_filt kq !! i = Some f ->
  kq_filt kq' = <[i := f']> (kq_filt kq) ->
  view (set_w_kqs (<[q := kq']> (w_kqs w)) w) q j =
    if decide (j = i) then index_of f' else view w q j.
Proof.
  intros E Ei Hf. unfold view, slot_of. simpl. rewrite lookup_insert_eq, E. simpl. rewrite Hf.
  case_decide as Hj.
  - subst. rewrite list_lookup_insert_eq; [done|]. by eapply lookup_lt_Some.
  - by rewrite list_lookup_insert_ne.
Qed.

Lemma slot_frame p w w' q i : frame_ p w w' -> slot_of w' q i = slot_of w q i.
Proof.
  intros Hf. pose proof (fr_kqs _ _ _ Hf) as Hk. apply (f_equal (lookup q)) in Hk.
  rewrite !lookup_fmap in Hk. unfold slot_of.
  destruct (w_kqs w' !! q), (w_kqs w !! q); try done; simpl in *.
  apply (inj Some) in Hk. injection Hk as _ Hfl _ _ _ _. by rewrite Hfl.
Qed.

Lemma slot_set_kq w q kq' i :
  slot_of (set_w_kqs (<[q := kq']> (w_kqs w)) w) q i = kq_filt kq' !! i.
Proof. unfold slot_of. simpl. by rewrite lookup_insert_eq. Qed.

Lemma view_frame p w w' q i : frame_ p w w' -> view w' q i = view w q i.
Proof. intros Hf. unfold view. by rewrite (slot_frame _ _ _ _ _ Hf). Qed.

Lemma index_of_lookup m q i f k p :
  slot_ok m q i f ->
  index_of f !! k = Some p <-> Entry k p ∈ elements (kf_index f).
Proof.
  intros [Hw _ _ _]. unfold index_of. rewrite lookup_fmap, fmap_Some. split.
  - intros (e & He & ->). apply to_map_elem in He as [He <-]; [|apply Hw]. by destruct e.
  - intros He. exists (Entry k p). split; [|done]. apply to_map_elem; [apply Hw|done].
Qed.

(** A slot of one kqueue is replaced. *)
Lemma winv_slot w q kq i f f' c :
  winv w -> w_kqs w !! q = Some kq -> kq_filt kq !! i = Some f ->
  slot_ok (w_knotes w) q i f' ->
  c = kq_knote_count kq + Z.of_nat (rb_size (kf_index f')) - Z.of_nat (rb_size (kf_index f)) ->
  winv (set_w_kqs (<[q := set_kq_knote_count c
          (set_kq_filt (<[i := f']> (kq_filt kq)) kq)]> (w_kqs w)) w).
Proof.
  intros [Hk Hn Hq] E Ei Hs ->. split; simpl; [|done|].
  - intros r kq' Hr. destruct (decide (r = q)) as [->|Hne].
    + rewrite lookup_insert_eq in Hr. simplify_eq. destruct (Hk _ _ E) as [H1 H2 H3].
      split; simpl.
      * by rewrite length_insert.
      * intros j g Hj. destruct (decide (j = i)) as [->|Hij].
        -- rewrite list_lookup_insert_eq in Hj by (by eapply lookup_lt_Some). by simplify_eq.
        -- rewrite list_lookup_insert_ne in Hj by done. eauto.
      * pose proof (knotes_of_insert _ _ _ f' Ei). lia.
    + rewrite lookup_insert_ne in Hr by done. eauto.
  - intros r Hr. rewrite lookup_insert_ne; [by apply Hq|]. intros ->.
    specialize (Hq r Hr). congruence.
Qed.

Lemma winv_kq w q kq kq' :
  winv w -> w_kqs w !! q = Some kq -> kq_filt kq' = kq_filt kq ->
  kq_knote_count kq' = kq_knote_count kq ->
  winv (set_w_kqs (<[q := kq']> (w_kqs w)) w).
Proof.
  intros [Hk Hn Hq] E Hf Hc. split; [|done|].
  - intros r kr Er. simpl in Er. destruct (decide (r = q)) as [->|Hne]; simplify_map_eq; [|by apply Hk].
    by eapply kq_inv_common; [| | |by apply Hk].
  - intros r Hr. simpl. destruct (decide (r = q)) as [->|Hne]; simplify_map_eq; [|by apply Hq].
    by rewrite (Hq q Hr) in E.
Qed.

Lemma winv_kq_free w q : winv w -> winv (set_w_kqs (delete q (w_kqs w)) w).
Proof.
  intros [Hk Hn Hq]. split; [|done|].
  - intros r kr Er. simpl in Er. apply lookup_delete_Some in Er as [_ Er]. by apply Hk.
  - intros r Hr. simpl. destruct (decide (r = q)) as [->|Hne]; simplify_map_eq; [done|by apply Hq].
Qed.

(** No index holds the knote at [p]. *)
Definition detached (w : world K) (p : ptr) : Prop :=
  forall q kq i f e, w_kqs w !! q = Some kq -> kq_filt kq !! i = Some f ->
    e ∈ elements (kf_index f) -> e_ptr e <> p.

Lemma detached_frame p r w w' : frame_ p w w' -> detached w r -> detached w' r.
Proof.
  intros Hf Hd q kq' i f e E' Ei He. pose proof (fr_kqs _ _ _ Hf) as Hk.
  apply (f_equal (lookup q)) in Hk. rewrite !lookup_fmap, E' in Hk.
  destruct (w_kqs w !! q) as [kq|] eqn:E; [|done]. apply (inj Some) in Hk.
  injection Hk as _ Hfl _ _ _ _. rewrite Hfl in Ei. by eapply Hd.
Qed.

Lemma detached_fresh w p : winv w -> w_knotes w !! p = None -> detached w p.
Proof.
  intros Hw Hp q kq i f e E Ei He <-. destruct (wi_kq _ Hw _ _ E) as [_ Hs _].
  destruct (Hs _ _ Ei) as [_ Hk _ _]. rewrite Forall_forall in Hk.
  destruct (Hk _ He) as (kn & Ek & _). congruence.
Qed.

Lemma winv_knotes w p m :
  winv w -> detached w p -> (forall r, r <> p -> m !! r = w_knotes w !! r) ->
  (is_Some (m !! p) -> (p < w_next w)%positive) -> winv (set_w_knotes m w).
Proof.
  intros [Hk Hn Hq] Hd Hm Hp. split; simpl; [| |done].
  - intros q kq E. destruct (Hk _ _ E) as [H1 H2 H3]. split; try done.
    intros i f Hi. apply (slot_ok_common (w_knotes w)); [|by apply H2].
    intros e He. f_equal. apply Hm. by eapply Hd.
  - intros r Hr. destruct (decide (r = p)) as [->|Hne].
    + destruct (m !! p) eqn:E; [|done].
      assert (p < w_next w)%positive by (apply Hp; eauto). lia.
    + by rewrite Hm, Hn.
Qed.

(** The platform's view is blind to the common members. *)
Lemma plat_knotes w p kn kn' :
  w_knotes w !! p = Some kn -> kn_plat kn' = kn_plat kn ->
  plat_eq w (set_w_knotes (<[p := kn']> (w_knotes w)) w).
Proof.
  intros E Hp. split; simpl; try done.
  rewrite fmap_insert, Hp. apply insert_id. by rewrite lookup_fmap, E.
Qed.

Lemma indexed_kq w q kq kq' :
  w_kqs w !! q = Some kq ->
  (forall i x e, kq_filt kq !! i = Some x -> e ∈ elements (kf_index x) ->
     exists x', kq_filt kq' !! i = Some x' /\ e ∈ elements (kf_index x')) ->
  forall r i e, indexed w r i e -> indexed (set_w_kqs (<[q := kq']> (w_kqs w)) w) r i e.
Proof.
  intros E Hx r i e (x & Hs & He). unfold indexed, slot_of in *. simpl.
  destruct (decide (r = q)) as [->|Hne].
  - rewrite E in Hs. simpl in Hs. rewrite lookup_insert_eq. simpl. by eapply Hx.
  - rewrite lookup_insert_ne by done. eauto.
Qed.

Lemma plat_kq_grow w q kq kq' :
  w_kqs w !! q = Some kq -> kq_plat kq' = kq_plat kq ->
  (forall i x e, kq_filt kq !! i = Some x -> e ∈ elements (kf_index x) ->
     exists x', kq_filt kq' !! i = Some x' /\ e ∈ elements (kf_index x')) ->
  plat_eq w (set_w_kqs (<[q := kq']> (w_kqs w)) w).
Proof.
  intros E Hp Hx. split; simpl; try done; [|by eapply indexed_kq].
  rewrite fmap_insert, Hp. apply insert_id. by rewrite lookup_fmap, E.
Qed.

Lemma plat_kq w q kq kq' :
  w_kqs w !! q = Some kq -> kq_plat kq' = kq_plat kq -> kq_filt kq' = kq_filt kq ->
  plat_eq w (set_w_kqs (<[q := kq']> (w_kqs w)) w).
Proof. intros E Hp Hf. eapply plat_kq_grow; [done..|]. rewrite Hf. eauto. Qed.

(** Replacing a slot by one of the same filter. *)
Lemma step_slot w q kq i x x' c :
  w_kqs w !! q = Some kq -> kq_filt kq !! i = Some x ->
  kf_id x' = kf_id x -> kf_impl x' = kf_impl x ->
  step_q q w (set_w_kqs (<[q := set_kq_knote_count c
    (set_kq_filt (<[i := x']> (kq_filt kq)) kq)]> (w_kqs w)) w).
Proof.
  intros E Ei Hi Hm. eapply step_kq; [done|]. unfold kq_fixed; simpl. f_equal.
  rewrite list_fmap_insert. apply list_insert_id. rewrite list_lookup_fmap, Ei. simpl. congruence.
Qed.

Lemma plat_slot w q kq i x x' c :
  w_kqs w !! q = Some kq -> kq_filt kq !! i = Some x ->
  ef_id x' = ef_id x -> efd_udata x' = efd_udata x ->
  (forall e, e ∈ elements (kf_index x) -> e ∈ elements (kf_index x')) ->
  plat_eq w (with_slot w q kq i x' c).
Proof.
  intros E Ei Hi Hm He. eapply plat_kq_grow; [done|..].
  - unfold kq_plat; simpl. f_equal.
    rewrite list_fmap_insert. apply list_insert_id. rewrite list_lookup_fmap, Ei. simpl. congruence.
  - intros j y e Hj Hin. simpl. destruct (decide (j = i)) as [->|Hne].
    + rewrite list_lookup_insert_eq by (by eapply lookup_lt_Some). simplify_eq. eauto.
    + rewrite list_lookup_insert_ne by done. eauto.
Qed.

Lemma linking_plat q i p w w' : linking q i p w w' -> plat_eq w w'.
Proof.
  intros (kq & x & t & c & kn & E & Ei & Ek & -> & Ht). eapply plat_slot; [done..|].
  intros e He. simpl. apply Ht. by right.
Qed.

(** Every other knote keeps its entry, and the platform's data is the same. *)
Lemma unlinking_index q i p w w' :
  unlinking q i p w w' -> forall r j e, indexed w r j e -> e_ptr e <> p -> indexed w' r j e.
Proof.
  intros (kq & x & t & rd & c & kn & E & Ei & Ek & Hin & -> & Ht) r j e (y & Hs & He) Hne.
  unfold indexed, slot_of, with_slot in *. simpl. destruct (decide (r = q)) as [->|Hr].
  2: { rewrite lookup_insert_ne by done. eauto. }
  rewrite E in Hs. simpl in Hs. rewrite lookup_insert_eq. simpl.
  destruct (decide (j = i)) as [->|Hj].
  - rewrite list_lookup_insert_eq by (by eapply lookup_lt_Some). simplify_eq. eexists.
    split; [done|]. simpl. by apply Ht.
  - rewrite list_lookup_insert_ne by done. eauto.
Qed.

Lemma plat_next w : plat_eq w (set_w_next (Pos.succ (w_next w)) w).
Proof. split; simpl; done || lia. Qed.
Lemma plat_errno w e : plat_eq w (set_w_errno e w).
Proof. by split. Qed.
Lemma plat_os w k : plat_eq w (set_w_os k w).
Proof. by split. Qed.
Lemma plat_mem w x : plat_eq w (set_w_mem x w).
Proof. by split. Qed.
End Step.

(** ** Slot frames *)

Section SlotFrame.
Context {K : Type}.
Implicit Types (w : world K) (q : ptr) (i : nat).

Lemma slot_frame_slot q i w w' j :
  slot_frame_ q i w w' -> is_Some (w_kqs w !! q) ->
  (fun f => (kf_id f, kf_impl f, kf_index f, kf_ready f)) <$> slot_of w' q j =
  (fun f => (kf_id f, kf_impl f, kf_index f, kf_ready f)) <$> slot_of w q j.
Proof.
  intros Hf [kq E]. destruct (sf_kq _ _ _ _ Hf _ E) as (kq' & E' & _ & Hfs).
  unfold slot_of. rewrite E, E'. simpl. by rewrite <- !list_lookup_fmap, Hfs.
Qed.

Lemma slot_frame_index q i w w' j :
  slot_frame_ q i w w' -> is_Some (w_kqs w !! q) ->
  kf_index <$> slot_of w' q j = kf_index <$> slot_of w q j.
Proof.
  intros Hf Hq. pose proof (slot_frame_slot _ _ _ _ j Hf Hq) as Hs.
  destruct (slot_of w' q j), (slot_of w q j); try done. simpl in *.
  injection Hs as _ _ Hx _. by rewrite Hx.
Qed.

Lemma slot_frame_step q i w w' :
  slot_frame_ q i w w' -> is_Some (w_kqs w !! q) -> step_q q w w'.
Proof.
  intros Hf [kq E]. destruct (sf_kq _ _ _ _ Hf _ E) as (kq' & E' & Hc & Hfs).
  destruct Hf. split; try done.
  - rewrite E, E'. simpl. f_equal. unfold kq_fixed. injection Hc as -> -> -> _ ->. f_equal.
    apply (f_equal (fmap (fun t : Z * option Z * tree entry * list ptr => t.1.1))) in Hfs.
    by rewrite <- !list_fmap_compose in Hfs.
  - intros r Hr. by rewrite sf_others0.
  - intros p kn Hp _. congruence.
Qed.

Lemma slot_frame_winv q i w w' :
  slot_frame_ q i w w' -> is_Some (w_kqs w !! q) -> winv w -> winv w'.
Proof.
  intros Hf [kq E] [Hk Hn Hq]. destruct (sf_kq _ _ _ _ Hf _ E) as (kq' & E' & Hc & Hfs).
  destruct (Hk _ _ E) as [H1 H2 H3]. pose proof (sf_next _ _ _ _ Hf). split.
  - intros r kr Er. rewrite (sf_knotes _ _ _ _ Hf). destruct (decide (r = q)) as [->|Hne].
    2: { rewrite (sf_others _ _ _ _ Hf) in Er by done. by apply Hk. }
    assert (kr = kq') as -> by congruence. injection Hc as _ _ _ Hc _. split.
    + by rewrite <- H1, <- (length_fmap (fun f => (kf_id f, kf_impl f, kf_index f, kf_ready f))),
        Hfs, length_fmap.
    + intros j f Hj. apply (f_equal (lookup j)) in Hfs. rewrite !list_lookup_fmap, Hj in Hfs.
      destruct (kq_filt kq !! j) as [f0|] eqn:Ej; [|done]. simpl in Hfs. injection Hfs as Hi _ Hx Hr.
      destruct (H2 _ _ Ej) as [A B C D]. split; rewrite ?Hx, ?Hr; try done. intros H0. apply D. congruence.
    + rewrite Hc, H3. unfold knotes_of. do 2 f_equal.
      apply (f_equal (fmap (fun t : Z * option Z * tree entry * list ptr => rb_size t.1.2))) in Hfs.
      rewrite <- !list_fmap_compose in Hfs. rewrite <- !list_fmap_compose. exact (eq_sym Hfs).
  - intros r Hr. rewrite (sf_knotes _ _ _ _ Hf). apply Hn. lia.
  - intros r Hr. destruct (decide (r = q)) as [->|Hne].
    + rewrite (Hq q) in E by lia. done.
    + rewrite (sf_others _ _ _ _ Hf) by done. apply Hq. lia.
Qed.
End SlotFrame.
