(* ===== verification/Knote.v ===== *)
(** * Knotes: src/common/knote.c

    Allocation and reference counting, the index of a filter (the red-black tree
    of tree.h keyed by [ident]), deletion, disabling and enabling, and the
    iteration [RB_FOREACH_SAFE] the file builds its traversals from.  The
    callbacks of a filter come from its table; what they may do is
    [FilterContract]. *)

From Stdlib Require Import ZArith Lia Bool.
From stdpp Require Import base list gmap.
From S2P Require Import Prelude RBTree Event Map State Ops.

Definition INT_MAX : Z := 2147483647.

(** ** Flags of a knote *)

Definition KNOTE_ENABLED (kn : knote) : bool := negb (has (flags (kev kn)) EV_DISABLE).
Definition KNOTE_DISABLED (kn : knote) : bool := has (flags (kev kn)) EV_DISABLE.
Definition upd_flags (g : Z -> Z) (kn : knote) : knote :=
  set_kev (set_flags (g (flags (kev kn))) (kev kn)) kn.
Definition KNOTE_ENABLE : knote -> knote := upd_flags (fun f => clrb f EV_DISABLE).
Definition KNOTE_DISABLE : knote -> knote := upd_flags (fun f => setb f EV_DISABLE).
Definition KNOTE_EOF_CLEAR : knote -> knote := upd_flags (fun f => clrb f EV_EOF).
Definition KNOTE_EOF_SET : knote -> knote := upd_flags (fun f => setb f EV_EOF).
Definition KNOTE_IS_EOF (kn : knote) : bool := has (flags (kev kn)) EV_EOF.
Definition KNOTE_NOT_EOF (kn : knote) : bool := negb (has (flags (kev kn)) EV_EOF).

Section Knote.
Context {K : Type} `{OS K} `{FilterList K}.
Implicit Types (w : world K) (p q : ptr) (f : filt_ref).

Definition knote_new : M (world K) (option ptr) :=
  let! r := alloc in
  match r with
  | None => ret None
  | Some p => put_kn p (set_kn_ref 1 knote_zero) ;;; ret (Some p)
  end.

Definition knote_retain (p : ptr) : M (world K) unit :=
  upd_kn p (fun kn => set_kn_ref (u32 (kn_ref kn + 1)) kn).

Definition knote_release (p : ptr) : M (world K) unit :=
  let! kn := get_kn p in
  assert_ (0 <? kn_ref kn) ;;;
  put_kn p (set_kn_ref (kn_ref kn - 1) kn) ;;;
  if kn_ref kn - 1 =? 0 then
    if has (kn_flags kn) KNFL_KNOTE_DELETED then free_kn p else ret tt
  else ret tt.

Definition knote_insert f (p : ptr) : M (world K) unit :=
  kqueue_mutex_assert f.1 ;;;
  let! x := get_filt f in
  let! kn := get_kn p in
  let! res := deref NullDeref
    (RB_INSERT e_key (kf_index x) (Entry (ident (kev kn)) p)) in
  put_filt f (set_kf_index res.2 x) ;;;
  let! kq := get_kq f.1 in
  if kq_knote_count kq =? INT_MAX then fail SignedOverflow
  else put_kq f.1 (set_kq_knote_count (kq_knote_count kq + 1) kq).

Definition knote_lookup f (ident : Z) : M (world K) (option ptr) :=
  kqueue_mutex_assert f.1 ;;;
  let! x := get_filt f in
  ret (e_ptr <$> RB_FIND e_key (kf_index x) ident).

(** A knote that is not the one in the tree is only logged, and RB_REMOVE then follows
    the pointers of an entry that is in no tree or in another: a fault here. *)
Definition knote_delete f (p : ptr) : M (world K) Z :=
  let! kn := get_kn p in
  if has (kn_flags kn) KNFL_KNOTE_DELETED then ret (-1)
  else
    kqueue_mutex_assert f.1 ;;;
    let! x := get_filt f in
    match RB_FIND e_key (kf_index x) (ident (kev kn)) with
    | Some e =>
        if decide (e_ptr e = p) then
          let! t := deref NullDeref (RB_REMOVE e_key (kf_index x) (ident (kev kn))) in
          put_filt f (set_kf_index t x) ;;;
          upd_kq f.1 (fun kq =>
            if 0 <? kq_knote_count kq
            then set_kq_knote_count (kq_knote_count kq - 1) kq else kq) ;;;
          upd_filt f (fun x => set_kf_ready (base.filter (fun r => r <> p) (kf_ready x)) x) ;;;
          let! o := filt_ops f in
          let! rv := kn_delete o f p in
          upd_kn p (fun kn => set_kn_flags (setb (kn_flags kn) KNFL_KNOTE_DELETED) kn) ;;;
          knote_release p ;;;
          ret rv
        else fail BadAddress
    | None => fail BadAddress
    end.

Definition knote_disable f (p : ptr) : M (world K) Z :=
  let! kn := get_kn p in
  if KNOTE_DISABLED kn then ret 0
  else
    let! o := filt_ops f in
    let! rv := kn_disable o f p in
    if rv =? 0 then
      kqueue_mutex_assert f.1 ;;;
      upd_filt f (fun x => set_kf_ready (base.filter (fun r => r <> p) (kf_ready x)) x) ;;;
      upd_kn p KNOTE_DISABLE ;;;
      ret rv
    else ret rv.

Definition knote_enable f (p : ptr) : M (world K) Z :=
  let! kn := get_kn p in
  if KNOTE_ENABLED kn then ret 0
  else
    let! o := filt_ops f in
    let! rv := kn_enable o f p in
    if rv =? 0 then upd_kn p KNOTE_ENABLE ;;; ret rv else ret rv.

(** [knote_get_filter]: the slot its [kev.filter] selects. *)
Definition knote_get_filter (p : ptr) : M (world K) filt_ref :=
  let! kn := get_kn p in
  let! q := deref NullDeref (kn_kq kn) in
  if Z.lnot (filter_ (kev kn)) <? 0 then fail BadAddress
  else ret (q, Z.to_nat (Z.lnot (filter_ (kev kn)))).

Definition knote_copyout_flag_actions f (p : ptr) : M (world K) Z :=
  let! kn := get_kn p in
  let! rv := (if has (flags (kev kn)) EV_DISPATCH then knote_disable f p else ret 0) in
  let! kn := get_kn p in
  if has (flags (kev kn)) EV_ONESHOT then knote_delete f p else ret rv.

(** [RB_FOREACH_SAFE(kn, knote_index, &filt->kf_index, tmp)]: the successor is
    read before the body runs; the body ends the loop with [Some]. *)
Fixpoint foreach_safe {A : Type} (fuel : nat) f (body : ptr -> M (world K) (option A))
    (cur : option entry) : M (world K) (option A) :=
  match cur with
  | None => ret None
  | Some e =>
      match fuel with
      | O => fail OutOfFuel
      | S n =>
          let! x := get_filt f in
          if decide (RB_FIND e_key (kf_index x) (e_key e) = Some e) then
            let! r := body (e_ptr e) in
            match r with
            | Some a => ret (Some a)
            | None => foreach_safe n f body (RB_NEXT e_key (kf_index x) (e_key e))
            end
          else fail UseAfterFree
      end
  end.

Definition RB_FOREACH_SAFE {A : Type} f (body : ptr -> M (world K) (option A))
    : M (world K) (option A) :=
  let! x := get_filt f in
  foreach_safe (rb_size (kf_index x)) f body (RB_MIN (kf_index x)).

Definition knote_delete_all f : M (world K) Z :=
  kqueue_mutex_assert f.1 ;;;
  RB_FOREACH_SAFE (A := unit) f (fun p => knote_delete f p ;;; ret None) ;;;
  ret 0.

Definition knote_mark_disabled_all f : M (world K) Z :=
  RB_FOREACH_SAFE (A := unit) f (fun p => upd_kn p KNOTE_DISABLE ;;; ret None) ;;;
  ret 0.

Definition knote_foreach f (cb : ptr -> M (world K) Z) : M (world K) Z :=
  let! r := RB_FOREACH_SAFE f (fun p =>
    let! rv := cb p in ret (if rv =? 0 then None else Some rv)) in
  ret (default 0 r).

(** The kqueue [q] is locked and its slot [i] is [x], of a filter with table [o]. *)
Definition at_slot (w : world K) (q : ptr) (i : nat) (x : filter) (o : filter_ops K) : Prop :=
  exists kq, w_kqs w !! q = Some kq /\ kq_locked kq = true /\ kq_filt kq !! i = Some x /\
    slot_ops i x = Some o /\ kf_id x <> 0.

Lemma at_slot_slot w q i x o : at_slot w q i x o -> slot_of w q i = Some x.
Proof. intros (kq & E & _ & Ei & _ & _). unfold slot_of. by rewrite E. Qed.

Lemma at_slot_ok w q i x o : winv w -> at_slot w q i x o -> slot_ok (w_knotes w) q i x.
Proof. intros Hw (kq & E & _ & Ei & _ & _). by apply (inv_slot _ _ _ (wi_kq _ Hw _ _ E)). Qed.

Lemma at_slot_step w w' q i x o :
  at_slot w q i x o -> step_q q w w' -> exists x', at_slot w' q i x' o.
Proof.
  intros (kq & E & Hl & Ei & Ho & Hnz) Hs. destruct (step_self _ _ _ _ Hs E) as (kq' & E' & Hf).
  injection Hf as _ Hl' _ _ Hfs. apply (f_equal (lookup i)) in Hfs.
  rewrite !list_lookup_fmap, Ei in Hfs. destruct (kq_filt kq' !! i) as [x'|] eqn:Ei'; [|done].
  simpl in Hfs. injection Hfs as Hid Him. exists x', kq'. unfold slot_ops in *. rewrite Him.
  split_and!; congruence.
Qed.

Lemma at_slot_unique w q i x x' o :
  at_slot w q i x o -> slot_of w q i = Some x' -> x' = x.
Proof. intros Ha Hx. apply at_slot_slot in Ha. congruence. Qed.

(** ** Reference counting *)

Lemma wp_knote_new (Q : option ptr -> world K -> Prop) w :
  (forall k, Q (Some (w_next w))
     (set_w_knotes (<[w_next w := set_kn_ref 1 knote_zero]> (w_knotes w))
        (set_w_next (Pos.succ (w_next w)) (set_w_os k w)))) ->
  (forall e k, Q None (set_w_errno e (set_w_os k w))) ->
  wp knote_new Q w.
Proof. intros H1 H2. unfold knote_new. wp_simpl. apply wp_alloc; intros; wp_simpl; [apply H1|apply H2]. Qed.

Lemma wp_knote_release p kn (Q : unit -> world K -> Prop) w :
  w_knotes w !! p = Some kn -> 0 < kn_ref kn ->
  has (kn_flags kn) KNFL_KNOTE_DELETED = true ->
  (kn_ref kn = 1 -> Q tt (set_w_knotes (delete p (w_knotes w)) w)) ->
  (1 < kn_ref kn ->
     Q tt (set_w_knotes (<[p := set_kn_ref (kn_ref kn - 1) kn]> (w_knotes w)) w)) ->
  wp (knote_release p) Q w.
Proof.
  intros E Hr Hd H1 H2. unfold knote_release. wp_go. apply wp_assert.
  split; [by apply Z.ltb_lt|]. unfold put_kn. wp_simpl. destruct (Z.eqb_spec (kn_ref kn - 1) 0).
  - rewrite Hd. unfold free_kn. wp_go. simpl. rewrite delete_insert_eq. apply H1. lia.
  - wp_simpl. apply H2. lia.
Qed.

Lemma wp_filt_ops q i kq x o (Q : filter_ops K -> world K -> Prop) w :
  w_kqs w !! q = Some kq -> kq_filt kq !! i = Some x -> slot_ops i x = Some o ->
  Q o w -> wp (filt_ops (q, i)) Q w.
Proof.
  intros E Ei (id & Hid & _ & Ho)%slot_ops_Some HQ. unfold filt_ops. wp_go. rewrite Hid. simpl. by rewrite Ho.
Qed.

(** ** Deletion *)

Lemma ready_ok m q i x t p :
  slot_ok m q i x -> wf e_key t ->
  (forall e, e ∈ elements t <-> e ∈ elements (kf_index x) /\ e_ptr e <> p) ->
  slot_ok m q i (set_kf_ready (base.filter (fun r => r <> p) (kf_ready x)) (set_kf_index t x)).
Proof.
  intros [Hw Hk Hr Hz] Ht He. split; simpl; [done| | |].
  - rewrite Forall_forall in Hk |- *. intros e Hin. apply Hk. by apply He.
  - rewrite Forall_forall in Hr |- *. intros r Hin.
    apply list_elem_of_filter in Hin as [Hne Hin]. specialize (Hr _ Hin).
    apply list_elem_of_fmap in Hr as (e & -> & Hin'). apply list_elem_of_fmap_2, He. done.
  - intros H0'. specialize (Hz H0'). destruct (elements t) as [|e l]; [done|].
    assert (He' : e ∈ elements (kf_index x)) by (apply He; set_solver).
    rewrite Hz in He'. by apply elem_of_nil in He'.
Qed.

Lemma removed_elements m q i x e l1 l2 :
  slot_ok m q i x -> elements (kf_index x) = l1 ++ e :: l2 ->
  forall e', e' ∈ l1 ++ l2 <-> e' ∈ elements (kf_index x) /\ e_ptr e' <> e_ptr e.
Proof.
  intros Hs He e'. assert (Hin : e ∈ elements (kf_index x)) by (rewrite He; set_solver).
  pose proof (sortedZ_NoDup _ (proj1 (slot_wf _ _ _ _ Hs))) as Hnd. unfold keys in Hnd.
  apply NoDup_fmap_1 in Hnd. rewrite He in Hnd. apply NoDup_app in Hnd as (_ & Hd & Hnd).
  apply NoDup_cons in Hnd as [Hn _]. split.
  - intros H'. assert (Hin' : e' ∈ elements (kf_index x)) by (rewrite He; set_solver).
    split; [done|]. intros Hp. assert (e' = e) as -> by (by eapply entry_unique).
    set_solver.
  - intros [Hin' Hp]. rewrite He in Hin'. set_solver.
Qed.

(** The state in which [kn_delete] is called: the entry has left the index. *)
Definition unlinked (w : world K) (q : ptr) (kq : kqueue) (i : nat) (x : filter)
    (t : tree entry) (p : ptr) : world K :=
  with_slot w q kq i (set_kf_ready (base.filter (fun r => r <> p) (kf_ready x))
    (set_kf_index t x)) (kq_knote_count kq - 1).

Lemma unlinked_ok w q kq i x e l1 l2 t :
  winv w -> w_kqs w !! q = Some kq -> kq_filt kq !! i = Some x ->
  elements (kf_index x) = l1 ++ e :: l2 -> wf e_key t -> elements t = l1 ++ l2 ->
  winv (unlinked w q kq i x t (e_ptr e)) /\ unlinking q i (e_ptr e) w (unlinked w q kq i x t (e_ptr e)) /\
  step_q q w (unlinked w q kq i x t (e_ptr e)) /\
  detached (unlinked w q kq i x t (e_ptr e)) (e_ptr e).
Proof.
  intros Hw E Ei He Ht Het. pose proof (inv_slot _ _ _ (wi_kq _ Hw _ _ E) _ _ Ei) as Hs.
  pose proof (removed_elements _ _ _ _ _ _ _ Hs He) as Hrm. rewrite <- Het in Hrm.
  split_and!.
  - eapply winv_slot; [done|done|done|by apply ready_ok|]. simpl. unfold rb_size.
    rewrite He, Het, !length_app. simpl. lia.
  - pose proof (proj1 (Forall_forall _ _) (slot_kn _ _ _ _ Hs) e) as Hk.
    destruct Hk as (kn & Ek & Hi & _); [rewrite He; set_solver|].
    exists kq, x, t, (base.filter (fun r => r <> e_ptr e) (kf_ready x)), (kq_knote_count kq - 1), kn.
    split_and!; try done. rewrite Hi, He. destruct e; simpl. set_solver.
  - by eapply step_slot.
  - intros q' kq' j g e' E' Ej He'. unfold unlinked, with_slot in E'. simpl in E'.
    assert (Hin : e ∈ elements (kf_index x)) by (rewrite He; set_solver).
    destruct (decide (q' = q)) as [->|Hq]; [destruct (decide (j = i)) as [->|Hj]|];
      simplify_map_eq.
    + rewrite list_lookup_insert_eq in Ej by (by eapply lookup_lt_Some). simplify_eq/=.
      by apply Hrm.
    + rewrite list_lookup_insert_ne in Ej by done. intros Hp.
      pose proof (inv_slot _ _ _ (wi_kq _ Hw _ _ E) _ _ Ej) as Hs'.
      by destruct (slot_unique _ _ _ _ _ _ _ _ _ Hs' Hs He' Hin Hp).
    + intros Hp. pose proof (inv_slot _ _ _ (wi_kq _ Hw _ _ E') _ _ Ej) as Hs'.
      by destruct (slot_unique _ _ _ _ _ _ _ _ _ Hs' Hs He' Hin Hp).
Qed.

(** [knote_delete] of an indexed knote up to and from the call of [kn_delete]. *)
Lemma wp_knote_delete (Q : Z -> world K -> Prop) w q kq i x o e kn l1 l2 :
  winv w -> w_kqs w !! q = Some kq -> kq_locked kq = true -> kq_filt kq !! i = Some x ->
  slot_ops i x = Some o -> elements (kf_index x) = l1 ++ e :: l2 -> w_knotes w !! e_ptr e = Some kn ->
  (forall t, wf e_key t -> elements t = l1 ++ l2 -> cb_pre (unlinked w q kq i x t (e_ptr e)) q i (e_ptr e) ->
     wp (kn_delete o (q, i) (e_ptr e)) (fun rv w2 =>
       wp (upd_kn (e_ptr e) (fun kn => set_kn_flags (setb (kn_flags kn) KNFL_KNOTE_DELETED) kn)) (fun _ w3 =>
         wp (bind (knote_release (e_ptr e)) (fun _ => ret rv)) Q w3) w2) (unlinked w q kq i x t (e_ptr e))) ->
  wp (knote_delete (q, i) (e_ptr e)) Q w.
Proof.
  intros Hw E Hl Ei Ho He Ek HQ. pose proof (inv_slot _ _ _ (wi_kq _ Hw _ _ E) _ _ Ei) as Hs.
  assert (Hin : e ∈ elements (kf_index x)) by (rewrite He; set_solver).
  pose proof (proj1 (Forall_forall _ _) (slot_kn _ _ _ _ Hs) _ Hin) as (kn0 & Ek0 & Hi & Hf & Hq & Hd & Hr).
  assert (kn0 = kn) as -> by congruence.
  destruct (RB_REMOVE_wf e_key _ _ _ _ (slot_wf _ _ _ _ Hs) He) as (t & Hrm & Ht & Het).
  unfold knote_delete. wp_go. rewrite Hd. wp_go. wp_go.
  replace (RB_FIND e_key (kf_index x) (ident (kev kn))) with (Some e).
  2: { symmetry. apply RB_FIND_elem; [apply Hs|done]. }
  rewrite decide_True by done. wp_simpl. rewrite Hi, Hrm. wp_simpl. wp_go. wp_go. simpl.
  assert (Hc : 0 < kq_knote_count kq).
  { rewrite (inv_count _ _ _ (wi_kq _ Hw _ _ E)).
    pose proof (knotes_of_insert _ _ _ (set_kf_index NULL x) Ei). unfold rb_size in *.
    rewrite He, length_app in *. simpl in *. lia. }
  rewrite (proj2 (Z.ltb_lt _ _) Hc). simpl. wp_go. simpl. rewrite !insert_insert_eq, list_insert_insert_eq.
  change (set_w_kqs _ w) with (unlinked w q kq i x t (e_ptr e)).
  eapply wp_filt_ops with (o := o); [solve [wp_lookup]|solve [wp_lookup]|done|]. wp_simpl.
  eapply wp_mono; [|apply (HQ t Ht Het)].
  - intros rv w2 Hw2. rewrite wp_bind. eapply wp_mono; [|exact Hw2]. done.
  - eexists _, _, kn. split_and!; [wp_lookup|done|wp_lookup|done..].
Qed.

Context (I : world K -> Prop) `{!BuildContract I}.

(** A detached knote is marked deleted and released. *)
Lemma wp_retire {B : Type} (k : unit -> M (world K) B) (Q : B -> world K -> Prop) w q p kn :
  winv w -> I w -> detached w p -> w_knotes w !! p = Some kn -> kn_kq kn = Some q ->
  0 < kn_ref kn -> unshared kn ->
  (forall w', winv w' -> I w' -> step_q q w w' -> w_kqs w' = w_kqs w ->
     (forall r, r <> p -> w_knotes w' !! r = w_knotes w !! r) ->
     w_knotes w' !! p = (if kn_ref kn =? 1 then None else
        Some (set_kn_ref (kn_ref kn - 1)
          (set_kn_flags (setb (kn_flags kn) KNFL_KNOTE_DELETED) kn))) -> w_errno w' = w_errno w ->
     wp (k tt) Q w') ->
  wp (upd_kn p (fun kn => set_kn_flags (setb (kn_flags kn) KNFL_KNOTE_DELETED) kn))
    (fun _ s => wp (bind (knote_release p) k) Q s) w.
Proof.
  intros Hw HI Hd E Hq Hr Hfds HQ.
  assert (Hlt : (p < w_next w)%positive).
  { apply Pos.lt_nle. intros Hle. pose proof (wi_fresh_kn _ Hw _ Hle). congruence. }
  wp_go. eapply wp_knote_release; simpl; [by rewrite lookup_insert_eq|done|..].
  - simpl. by rewrite has_setb, orb_true_r.
  - simpl. intros Hr1. rewrite delete_insert_eq, set_w_knotes_twice. apply HQ; simpl; try done.
    + apply (winv_knotes w p); [done|done| |by rewrite lookup_delete_eq; intros []].
      intros r Hne. by rewrite lookup_delete_ne.
    + by eapply pi_free.
    + apply (step_knotes q w p); [by intros ? ?; simplify_eq|].
      intros r Hne. by rewrite lookup_delete_ne.
    + intros r Hne. by rewrite lookup_delete_ne.
    + rewrite lookup_delete_eq. by rewrite Hr1.
  - simpl. intros Hr1. rewrite insert_insert_eq, set_w_knotes_twice. apply HQ; simpl; try done.
    + apply (winv_knotes w p); [done|done| |done]. intros r Hne. by rewrite lookup_insert_ne.
    + eapply pi_stable; [exact HI|]. eapply plat_knotes; [done|]. unfold kn_plat; simpl.
      by rewrite clrb_setb_same.
    + apply (step_knotes q w p); [by intros ? ?; simplify_eq|].
      intros r Hne. by rewrite lookup_insert_ne.
    + intros r Hne. by rewrite lookup_insert_ne.
    + rewrite lookup_insert_eq. destruct (Z.eqb_spec (kn_ref kn) 1); [lia|done].
Qed.

(** [knote_delete] of an indexed knote. *)
Record deleted (w w' : world K) (q : ptr) (i : nat) (p : ptr) (es : list entry) : Prop :=
  { de_winv : winv w';
    de_plat : I w';
    de_step : step_q q w w';
    de_slot : exists x', slot_of w' q i = Some x' /\ elements (kf_index x') = es;
    de_slots : forall j, j <> i -> slot_of w' q j = slot_of w q j;
    de_kn : forall r, r <> p -> w_knotes w' !! r = w_knotes w !! r;
    de_freed : forall kn, w_knotes w !! p = Some kn -> kn_ref kn = 1 -> w_knotes w' !! p = None }.

Lemma knote_delete_ok w q i x o e l1 l2 :
  winv w -> I w -> at_slot w q i x o -> elements (kf_index x) = l1 ++ e :: l2 ->
  wp (knote_delete (q, i) (e_ptr e)) (fun rv w' => rv <> 1 /\ deleted w w' q i (e_ptr e) (l1 ++ l2)) w.
Proof.
  intros Hw HI (kq & E & Hl & Ei & Ho & Hnz) He.
  pose proof (inv_slot _ _ _ (wi_kq _ Hw _ _ E) _ _ Ei) as Hs.
  assert (Hin : e ∈ elements (kf_index x)) by (rewrite He; set_solver).
  pose proof (proj1 (Forall_forall _ _) (slot_kn _ _ _ _ Hs) _ Hin) as (kn & Ek & Hi & Hf & Hq & Hd & Hr).
  eapply wp_knote_delete; [done..|]. intros t Ht Het Hcb1.
  destruct (unlinked_ok w q kq i x e l1 l2 t Hw E Ei He Ht Het) as (Hw1 & Hun1 & Hs1 & Hd1).
  pose proof (slot_contract I _ _ _ Ho) as Hfc.
  eapply wp_mono; [|by eapply (fc_delete w)]. intros rv w2 (Hrv & Hf2 & HI2 & Hfds2).
  destruct (frame_kn _ _ _ kn Hf2 Ek) as (kn2 & Ek2 & Hc2). unfold kn_common in Hc2.
  specialize (Hfds2 _ Ek2). simplify_eq.
  eapply (wp_retire _ _ w2 q (e_ptr e) kn2); try congruence; try done.
  - by eapply winv_frame.
  - by eapply detached_frame.
  - intros w3 Hw3 HI3 Hs3 Hkq3 Hkn3 Hp3 _. wp_simpl.
    assert (Hsl : forall j, slot_of w3 q j = slot_of (unlinked w q kq i x t (e_ptr e)) q j).
    { intros j. rewrite <- (slot_frame _ _ _ _ _ Hf2). unfold slot_of. by rewrite Hkq3. }
    unfold unlinked, with_slot in Hsl. split; [done|]. split; try done.
    + etrans; [exact Hs1|]. etrans; [|exact Hs3]. by eapply step_of_frame.
    + eexists. rewrite Hsl, slot_set_kq. simpl. split; [wp_lookup|done].
    + intros j Hj. rewrite Hsl, slot_set_kq. simpl. rewrite list_lookup_insert_ne by done.
      unfold slot_of. by rewrite E.
    + intros r Hne. rewrite Hkn3 by done. by apply (fr_others _ _ _ Hf2).
    + intros kn' Ek' Hr1. simplify_eq. rewrite Hp3. by destruct (Z.eqb_spec (kn_ref kn2) 1); [|lia].
Qed.

(** ** Deleting every knote of a filter *)

Record deleted_all (w w' : world K) (q : ptr) (i : nat) (es : list entry) : Prop :=
  { da_winv : winv w';
    da_plat : I w';
    da_step : step_q q w w';
    da_slot : exists x', slot_of w' q i = Some x' /\ elements (kf_index x') = [];
    da_slots : forall j, j <> i -> slot_of w' q j = slot_of w q j;
    da_kn : forall r, r ∉ e_ptr <$> es -> w_knotes w' !! r = w_knotes w !! r;
    da_freed : forall e kn, e ∈ es -> w_knotes w !! e_ptr e = Some kn -> kn_ref kn = 1 ->
      w_knotes w' !! e_ptr e = None }.

Lemma slot_ptrs_NoDup m q i x : slot_ok m q i x -> NoDup (e_ptr <$> elements (kf_index x)).
Proof.
  intros Hs. pose proof (sortedZ_NoDup _ (proj1 (slot_wf _ _ _ _ Hs))) as Hnd.
  apply NoDup_fmap_1 in Hnd. apply NoDup_fmap_2_strong; [|done].
  intros e e' He He' Hp. by eapply entry_unique.
Qed.

Lemma foreach_delete_ok l : forall fuel w q i x o,
  winv w -> I w -> at_slot w q i x o -> elements (kf_index x) = l -> (length l <= fuel)%nat ->
  wp (foreach_safe (A := unit) fuel (q, i) (fun p => knote_delete (q, i) p ;;; ret None) (head l))
     (fun _ w' => deleted_all w w' q i l) w.
Proof.
  induction l as [|e l IH]; intros fuel w q i x o Hw HI Ha He Hn.
  { assert (deleted_all w w q i []) as Hd.
    { split; [done..|exists x; by rewrite (at_slot_slot _ _ _ _ _ Ha)|done|done|].
      intros e kn Hin. by apply elem_of_nil in Hin. }
    by destruct fuel. }
  destruct fuel as [|n]; simpl in Hn; [lia|]. pose proof (at_slot_ok _ _ _ _ _ Hw Ha) as Hs.
  assert (Hin : e ∈ elements (kf_index x)) by (rewrite He; set_solver).
  simpl. pose proof Ha as (kq & E & Hl & Ei & Ho & Hnz). wp_go.
  rewrite decide_True by (apply RB_FIND_elem; [apply Hs|done]).
  rewrite (RB_NEXT_succ e_key _ [] l e (proj1 (slot_wf _ _ _ _ Hs)) He). wp_simpl.
  eapply wp_mono; [|by eapply (knote_delete_ok _ _ _ _ _ _ [] l)]. intros rv w1 [_ Hd]. wp_simpl.
  destruct Hd as [Hw1 HI1 Hs1 (x1 & Hx1 & He1) Ho1 Hk1 Hf1]. simpl in He1.
  destruct (at_slot_step _ _ _ _ _ _ Ha Hs1) as (x1' & Ha1).
  assert (x1' = x1) as -> by (symmetry; by eapply at_slot_unique).
  eapply wp_mono; [|apply (IH n w1 q i x1 o); [done..|lia]]. intros rv2 w2 [Hw2 HI2 Hs2 Hx2 Ho2 Hk2 Hf2].
  pose proof (slot_ptrs_NoDup _ _ _ _ Hs) as Hnd. rewrite He in Hnd. simpl in Hnd.
  apply NoDup_cons in Hnd as [Hnin _]. split; try done.
  - by etrans.
  - intros j Hj. by rewrite Ho2, Ho1.
  - intros r Hr. simpl in Hr. apply not_elem_of_cons in Hr as [? ?]. by rewrite Hk2, Hk1.
  - intros e' kn Hin' Ek Hr. destruct (decide (e' = e)) as [->|Hne].
    + rewrite Hk2 by done. by eapply Hf1.
    + apply elem_of_cons in Hin' as [->|Hin']; [done|]. eapply Hf2; [done| |done].
      rewrite Hk1; [done|]. intros Hp. apply Hnin. rewrite <- Hp. by apply list_elem_of_fmap_2.
Qed.

Lemma knote_delete_all_ok w q i x o :
  winv w -> I w -> at_slot w q i x o ->
  wp (knote_delete_all (q, i))
     (fun rv w' => rv = 0 /\ deleted_all w w' q i (elements (kf_index x))) w.
Proof.
  intros Hw HI Ha. pose proof Ha as (kq & E & Hl & Ei & Ho & Hnz).
  unfold knote_delete_all, RB_FOREACH_SAFE. wp_go. wp_go. rewrite RB_MIN_head.
  eapply wp_mono; [|by eapply foreach_delete_ok]. intros rv w' Hd. by wp_simpl.
Qed.

(** ** Lookup and insertion *)

Lemma view_lookup w q i x o k p :
  winv w -> at_slot w q i x o ->
  view w q i !! k = Some p <-> Entry k p ∈ elements (kf_index x).
Proof.
  intros Hw Ha. unfold view. rewrite (at_slot_slot _ _ _ _ _ Ha). simpl.
  by eapply index_of_lookup, at_slot_ok.
Qed.

Lemma wp_knote_lookup (Q : option ptr -> world K -> Prop) w q i x o k :
  winv w -> at_slot w q i x o -> Q (view w q i !! k) w -> wp (knote_lookup (q, i) k) Q w.
Proof.
  intros Hw Ha HQ. pose proof (at_slot_ok _ _ _ _ _ Hw Ha) as Hs.
  pose proof Ha as (kq & E & Hl & Ei & Ho & Hnz). unfold knote_lookup. wp_go. wp_go.
  unfold view in HQ. rewrite (at_slot_slot _ _ _ _ _ Ha) in HQ. simpl in HQ.
  unfold index_of in HQ. rewrite lookup_fmap, to_map_lookup in HQ by apply Hs. done.
Qed.

(** Slots whose index is the same give the same map. *)
Lemma view_index w w' q j :
  kf_index <$> slot_of w' q j = kf_index <$> slot_of w q j -> view w' q j = view w q j.
Proof.
  unfold view, index_of. destruct (slot_of w' q j), (slot_of w q j); intros; by simplify_eq/=; congruence.
Qed.

Lemma index_insert m q i x t l1 l2 k p :
  slot_ok m q i x -> wf e_key t -> elements (kf_index x) = l1 ++ l2 ->
  elements t = l1 ++ Entry k p :: l2 -> index_of x !! k = None ->
  index_of (set_kf_index t x) = <[k := p]> (index_of x).
Proof.
  intros Hs Ht He Het Hk. unfold index_of. simpl. apply map_eq. intros k'. apply option_eq.
  intros p'. destruct (decide (k' = k)) as [->|Hne].
  - rewrite lookup_insert_eq, lookup_fmap, fmap_Some. split.
    + intros (e & Hin & ->). apply to_map_elem in Hin as [Hin Hk']; [|apply Ht].
      rewrite Het in Hin. apply elem_of_app in Hin as [Hin|Hin];
        [|apply elem_of_cons in Hin as [->|Hin]; [done|]]; exfalso;
        (assert (Hx : index_of x !! k = Some (e_ptr e));
         [eapply index_of_lookup; [done|]; rewrite He; destruct e; simpl in *; set_solver|congruence]).
    + intros [= <-]. exists (Entry k p). split; [|done]. apply to_map_elem; [apply Ht|].
      split; [rewrite Het; set_solver|done].
  - rewrite lookup_insert_ne by done. rewrite !lookup_fmap, !fmap_Some.
    split; intros (e & Hin & ->); exists e; (split; [|done]);
      apply to_map_elem in Hin as [Hin Hk']; try apply Ht; try apply Hs;
      apply to_map_elem; try apply Ht; try apply Hs; (split; [|done]); subst;
      rewrite ?Het, ?He in *; destruct e; simpl in *; set_solver.
Qed.

Lemma index_remove m m' q i x x' l1 l2 k p :
  slot_ok m q i x -> slot_ok m' q i x' -> elements (kf_index x) = l1 ++ Entry k p :: l2 ->
  elements (kf_index x') = l1 ++ l2 -> index_of x' = delete k (index_of x).
Proof.
  intros Hs Hs' He He'.
  assert (Hn : index_of x' !! k = None).
  { apply eq_None_not_Some. intros [p' Hp']. apply (index_of_lookup _ _ _ _ _ _ Hs') in Hp'.
    pose proof (sortedZ_NoDup _ (proj1 (slot_wf _ _ _ _ Hs))) as Hnd. unfold keys in Hnd.
    rewrite He, fmap_app in Hnd. simpl in Hnd. apply NoDup_app in Hnd as (_ & Hd & Hnd).
    apply NoDup_cons in Hnd as [Hnin _]. rewrite He' in Hp'.
    apply elem_of_app in Hp' as [Hp'|Hp']; apply (list_elem_of_fmap_2 e_key) in Hp'; simpl in Hp'.
    - apply (Hd _ Hp'). set_solver.
    - done. }
  assert (Hx : index_of x = <[k := p]> (index_of x')).
  { pose proof (index_insert m' q i x' (kf_index x) l1 l2 k p Hs' (slot_wf _ _ _ _ Hs) He' He Hn) as Hx.
    exact Hx. }
  rewrite Hx. by rewrite delete_insert_id.
Qed.

(** [knote_delete] removes exactly the identifier of its knote. *)
Lemma deleted_view w w' q i x o k p l1 l2 :
  winv w -> at_slot w q i x o -> elements (kf_index x) = l1 ++ Entry k p :: l2 ->
  deleted w w' q i p (l1 ++ l2) ->
  view w' q i = delete k (view w q i) /\ forall j, j <> i -> view w' q j = view w q j.
Proof.
  intros Hw Ha He [A B C (x' & Hx' & He') D E F]. destruct (at_slot_step _ _ _ _ _ _ Ha C) as (x1 & Ha1).
  assert (x' = x1) as -> by (by eapply at_slot_unique). split.
  - unfold view. rewrite (at_slot_slot _ _ _ _ _ Ha), (at_slot_slot _ _ _ _ _ Ha1). simpl.
    eapply index_remove; [exact (at_slot_ok _ _ _ _ _ Hw Ha)|exact (at_slot_ok _ _ _ _ _ A Ha1)|done|done].
  - intros j Hj. unfold view. by rewrite D.
Qed.

Record inserted (w w' : world K) (q : ptr) (i : nat) (k : Z) (p : ptr) : Prop :=
  { in_winv : winv w';
    in_plat : I w';
    in_step : step_q q w w';
    in_view : view w' q i = <[k := p]> (view w q i);
    in_views : forall j, j <> i -> view w' q j = view w q j;
    in_kn : w_knotes w' = w_knotes w }.

Lemma knote_insert_ok w q kq i x o p kn :
  winv w -> (forall w', linking q i p w w' -> I w') -> at_slot w q i x o -> w_kqs w !! q = Some kq ->
  w_knotes w !! p = Some kn -> kn_kq kn = Some q ->
  Z.lnot (filter_ (kev kn)) = Z.of_nat i -> has (kn_flags kn) KNFL_KNOTE_DELETED = false ->
  0 < kn_ref kn -> view w q i !! ident (kev kn) = None -> kq_knote_count kq < INT_MAX ->
  wp (knote_insert (q, i) p) (fun _ w' => inserted w w' q i (ident (kev kn)) p) w.
Proof.
  intros Hw HI Ha E Ek Hq Hi Hd Hr Hnone Hc. pose proof (at_slot_ok _ _ _ _ _ Hw Ha) as Hs.
  pose proof Ha as (kq' & E' & Hl & Ei & Ho & Hnz). simplify_eq.
  rewrite (view_slot _ _ _ _ _ E Ei) in Hnone.
  assert (Hf : RB_FIND e_key (kf_index x) (ident (kev kn)) = None).
  { unfold index_of in Hnone. rewrite lookup_fmap, to_map_lookup in Hnone by apply Hs.
    by destruct (RB_FIND _ _ _). }
  destruct (RB_INSERT_wf e_key _ (Entry (ident (kev kn)) p) (slot_wf _ _ _ _ Hs) Hf)
    as (t & l1 & l2 & Hins & Ht & He & Het).
  unfold knote_insert. wp_go. wp_go. wp_go. rewrite Hins. wp_simpl. simpl.
  wp_go. wp_go. simpl. destruct (Z.eqb_spec (kq_knote_count kq) INT_MAX); [lia|].
  unfold put_kq. wp_simpl. simpl. rewrite insert_insert_eq. split.
  - eapply winv_slot; [done|done|done| |].
    + destruct Hs as [Hwf Hk Hrd Hz]. split; simpl; [done| | |done].
      * rewrite Het, Forall_app, Forall_cons. rewrite He, Forall_app in Hk.
        destruct Hk as [? ?]. split_and!; try done. by exists kn.
      * rewrite Forall_forall in Hrd |- *. intros r Hin. specialize (Hrd _ Hin).
        rewrite He in Hrd. rewrite Het. rewrite !fmap_app in *. simpl. set_solver.
    + simpl. unfold rb_size. rewrite He, Het, !length_app. simpl. lia.
  - apply HI. exists kq, x, t, (kq_knote_count kq + 1), kn. split_and!; try done.
    intros e. rewrite Het, He. set_solver.
  - by eapply step_slot.
  - rewrite (view_set_slot _ _ kq i x (set_kf_index t x)), decide_True by done.
    rewrite (view_slot _ _ _ _ _ E Ei). by eapply index_insert.
  - intros j Hj. by rewrite (view_set_slot _ _ kq i x (set_kf_index t x)), decide_False by done.
  - done.
Qed.

(** ** Disabling and enabling *)

(** The knote at [p] may have changed, its place in the index has not. *)
Record kept (w w' : world K) (q p : ptr) : Prop :=
  { ke_winv : winv w';
    ke_plat : I w';
    ke_step : step_q q w w';
    ke_index : forall j, kf_index <$> slot_of w' q j = kf_index <$> slot_of w q j;
    ke_kn : kn_common <$> w_knotes w' !! p = kn_common <$> w_knotes w !! p;
    ke_others : forall r, r <> p -> w_knotes w' !! r = w_knotes w !! r }.

Lemma kept_refl w q p : winv w -> I w -> kept w w q p.
Proof. by split. Qed.

Lemma kept_trans w1 w2 w3 q p : kept w1 w2 q p -> kept w2 w3 q p -> kept w1 w3 q p.
Proof.
  intros [A1 B1 C1 D1 E1 F1] [A2 B2 C2 D2 E2 F2]. split; try done.
  - by etrans.
  - intros j. by rewrite D2.
  - by rewrite E2.
  - intros r Hr. by rewrite F2, F1.
Qed.

Lemma kept_frame w w' q p kn :
  winv w -> frame_ p w w' -> I w' -> w_knotes w !! p = Some kn -> kn_kq kn = Some q ->
  kept w w' q p.
Proof.
  intros Hw Hf HI Ek Hq. split; [by eapply winv_frame|done|by eapply step_of_frame| | |].
  - intros j. by rewrite (slot_frame _ _ _ _ _ Hf).
  - apply Hf.
  - apply Hf.
Qed.

Lemma kept_view w w' q p i : kept w w' q p -> view w' q i = view w q i.
Proof. intros Hk. by apply view_index, ke_index with (p := p). Qed.

(** Setting caller-visible flags of a knote. *)
Lemma kept_upd w q p kn kn' :
  winv w -> I w -> w_knotes w !! p = Some kn -> kn_kq kn = Some q ->
  kn_common kn' = kn_common kn -> kn_plat kn' = kn_plat kn ->
  kept w (set_w_knotes (<[p := kn']> (w_knotes w)) w) q p.
Proof.
  intros Hw HI Ek Hq Hc Hp. eapply kept_frame; [done|by eapply frame_knotes| |done|done].
  eapply pi_stable; [exact HI|]. by eapply plat_knotes.
Qed.

Lemma kept_ready w q kq i x p (P : list ptr -> list ptr) :
  winv w -> I w -> w_kqs w !! q = Some kq -> kq_filt kq !! i = Some x ->
  (forall r l, r ∈ P l -> r ∈ l) ->
  kept w (set_w_kqs (<[q := set_kq_filt (<[i := set_kf_ready (P (kf_ready x)) x]>
    (kq_filt kq)) kq]> (w_kqs w)) w) q p.
Proof.
  intros Hw HI E Ei HP. pose proof (inv_slot _ _ _ (wi_kq _ Hw _ _ E) _ _ Ei) as Hs.
  change (set_kq_filt ?v kq) with (set_kq_knote_count (kq_knote_count kq) (set_kq_filt v kq)).
  split; try done.
  - eapply winv_slot; [done|done|done| |simpl; lia]. destruct Hs as [H1 H2 H3 H4].
    split; try done. rewrite Forall_forall in H3 |- *. intros r Hr. by apply H3, HP.
  - eapply pi_stable; [exact HI|]. by eapply plat_slot.
  - by eapply step_slot.
  - intros j. rewrite slot_set_kq. simpl. unfold slot_of. rewrite E. simpl.
    destruct (decide (j = i)) as [->|Hj]; [|by rewrite list_lookup_insert_ne].
    rewrite list_lookup_insert_eq by (by eapply lookup_lt_Some). by rewrite Ei.
Qed.

Lemma at_slot_frame w w' q i x o p : frame_ p w w' -> at_slot w q i x o -> at_slot w' q i x o.
Proof.
  intros Hf (kq & E & Hl & Ei & Ho & Hnz). destruct (frame_kq _ _ _ _ _ Hf E) as (kq' & E' & Hc).
  injection Hc as _ Hfl Hl' _ _ _. exists kq'. split_and!; congruence.
Qed.

Lemma entry_cb_pre w q i x o e :
  winv w -> at_slot w q i x o -> e ∈ elements (kf_index x) ->
  cb_pre w q i (e_ptr e) /\ exists kn, w_knotes w !! e_ptr e = Some kn /\ kn_kq kn = Some q.
Proof.
  intros Hw Ha He. pose proof (at_slot_ok _ _ _ _ _ Hw Ha) as Hs.
  pose proof Ha as (kq & E & Hl & Ei & Ho & Hnz). split; [by eapply slot_cb_pre|].
  pose proof (slot_kn _ _ _ _ Hs) as Hk. rewrite Forall_forall in Hk.
  destruct (Hk _ He) as (kn & Ek & _ & _ & Hq & _). eauto.
Qed.

Lemma entry_listed w q i x o e :
  winv w -> at_slot w q i x o -> e ∈ elements (kf_index x) -> listed w q i (e_ptr e).
Proof.
  intros Hw Ha He kn Ek. pose proof (slot_kn _ _ _ _ (at_slot_ok _ _ _ _ _ Hw Ha)) as Hk.
  rewrite Forall_forall in Hk. destruct (Hk _ He) as (kn' & Ek' & Hi & _). simplify_eq. exists x.
  rewrite (at_slot_slot _ _ _ _ _ Ha), Hi. split; [done|]. by destruct e.
Qed.

Lemma upd_flags_common g kn : kn_common (upd_flags g kn) = kn_common kn.
Proof. done. Qed.
Lemma upd_flags_plat g kn : kn_plat (upd_flags g kn) = kn_plat kn.
Proof. done. Qed.
Lemma KNOTE_DISABLE_spec kn : KNOTE_DISABLED (KNOTE_DISABLE kn) = true.
Proof. unfold KNOTE_DISABLED, KNOTE_DISABLE, upd_flags; simpl. by rewrite has_setb, orb_true_r. Qed.
Lemma KNOTE_ENABLE_spec kn : KNOTE_ENABLED (KNOTE_ENABLE kn) = true.
Proof. unfold KNOTE_ENABLED, KNOTE_ENABLE, upd_flags; simpl. by rewrite has_clrb_same. Qed.

Lemma knote_disable_ok w q i x o e kn :
  winv w -> I w -> at_slot w q i x o -> e ∈ elements (kf_index x) ->
  w_knotes w !! e_ptr e = Some kn ->
  wp (knote_disable (q, i) (e_ptr e)) (fun rv w' => kept w w' q (e_ptr e) /\
     (KNOTE_DISABLED kn = true -> rv = 0 /\ w' = w) /\
     (rv = 0 -> exists kn', w_knotes w' !! e_ptr e = Some kn' /\ KNOTE_DISABLED kn' = true) /\
     exists kn', w_knotes w' !! e_ptr e = Some kn' /\
       (kev kn' = kev kn \/ kev kn' = kev (KNOTE_DISABLE kn))) w.
Proof.
  intros Hw HI Ha He Ek. destruct (entry_cb_pre _ _ _ _ _ _ Hw Ha He) as (Hcb & kn0 & Ek0 & Hq).
  simplify_eq. pose proof Ha as (kq & E & Hl & Ei & Ho & Hnz). unfold knote_disable. wp_go.
  destruct (KNOTE_DISABLED kn) eqn:Hdis.
  { wp_simpl. split_and!; [by apply kept_refl|done|eauto|eauto]. }
  wp_simpl. eapply wp_filt_ops; [done..|]. 
  pose proof (slot_contract I _ _ _ Ho) as Hfc. wp_simpl.
  pose proof (entry_listed _ _ _ _ _ _ Hw Ha He) as Hls.
  eapply wp_mono; [|by apply fc_disable]. intros rv w1 (Hf1 & HI1 & Hkev).
  pose proof (kept_frame _ _ _ _ _ Hw Hf1 HI1 Ek Hq) as Hk1.
  destruct (frame_kn _ _ _ _ Hf1 Ek) as (kn1 & Ek1 & Hc1).
  rewrite Ek, Ek1 in Hkev. apply (inj Some) in Hkev.
  destruct (Z.eqb_spec rv 0) as [->|Hrv]; [|wp_simpl; split_and!; eauto; done].
  pose proof (at_slot_frame _ _ _ _ _ _ _ Hf1 Ha) as (kq1 & E1 & Hl1 & Ei1 & _ & _).
  wp_go. wp_go.
  assert (Hsub : forall (r : ptr) (l : list ptr), r ∈ base.filter (fun r => r <> e_ptr e) l -> r ∈ l).
  { intros r l Hr. by apply list_elem_of_filter in Hr as [_ Hr]. }
  pose proof (kept_ready w1 q kq1 i x (e_ptr e) _ (ke_winv _ _ _ _ Hk1) HI1 E1 Ei1 Hsub) as Hk2.
  wp_go. split_and!; [|done| |].
  - eapply kept_trans; [exact Hk1|]. eapply kept_trans; [exact Hk2|].
    injection Hc1 as _ _ _ Hq1 _. eapply (kept_upd _ _ _ kn1); try done; [apply Hk2|apply Hk2|congruence].
  - intros _. simpl. exists (KNOTE_DISABLE kn1). by rewrite lookup_insert_eq, KNOTE_DISABLE_spec.
  - simpl. exists (KNOTE_DISABLE kn1). rewrite lookup_insert_eq. split; [done|]. right.
    unfold KNOTE_DISABLE, upd_flags. simpl. by rewrite Hkev.
Qed.

Lemma knote_enable_ok w q i x o e kn :
  winv w -> I w -> at_slot w q i x o -> e ∈ elements (kf_index x) ->
  w_knotes w !! e_ptr e = Some kn ->
  wp (knote_enable (q, i) (e_ptr e)) (fun rv w' => kept w w' q (e_ptr e) /\
     (KNOTE_ENABLED kn = true -> rv = 0 /\ w' = w) /\
     (rv = 0 -> exists kn', w_knotes w' !! e_ptr e = Some kn' /\ KNOTE_ENABLED kn' = true)) w.
Proof.
  intros Hw HI Ha He Ek. destruct (entry_cb_pre _ _ _ _ _ _ Hw Ha He) as (Hcb & kn0 & Ek0 & Hq).
  simplify_eq. pose proof Ha as (kq & E & Hl & Ei & Ho & Hnz). unfold knote_enable. wp_go.
  destruct (KNOTE_ENABLED kn) eqn:Hdis.
  { wp_simpl. split_and!; [by apply kept_refl|done|eauto]. }
  wp_simpl. eapply wp_filt_ops; [done..|]. 
  pose proof (slot_contract I _ _ _ Ho) as Hfc. wp_simpl.
  pose proof (entry_listed _ _ _ _ _ _ Hw Ha He) as Hls.
  eapply wp_mono; [|by apply fc_enable]. intros rv w1 [Hf1 HI1].
  pose proof (kept_frame _ _ _ _ _ Hw Hf1 HI1 Ek Hq) as Hk1.
  destruct (Z.eqb_spec rv 0) as [->|Hrv]; [|by wp_simpl].
  destruct (frame_kn _ _ _ _ Hf1 Ek) as (kn1 & Ek1 & Hc1). wp_go. split_and!; [|done|].
  - eapply kept_trans; [exact Hk1|]. injection Hc1 as _ _ _ Hq1 _.
    eapply (kept_upd _ _ _ kn1); try done; [apply Hk1|congruence].
  - intros _. simpl. exists (KNOTE_ENABLE kn1). by rewrite lookup_insert_eq, KNOTE_ENABLE_spec.
Qed.
End Knote.
