(* ===== verification/Filter.v ===== *)
(** * Filters of a kqueue: src/common/filter.c

    Registration of the build's filters in the [kq_filt] array of a kqueue,
    lookup by [EVFILT_*] number, the names used in debug output, and the
    teardown that deletes every knote before it destroys its filter. *)

From Stdlib Require Import ZArith Lia Bool String.
From stdpp Require Import base list gmap.
From S2P Require Import Prelude RBTree Event Map State Ops Knote.

(** The array of names; EVFILT_LIBKQUEUE has no entry, so its name is NULL. *)
Definition fname : list (option string) :=
  [Some "EVFILT_READ"%string; Some "EVFILT_WRITE"%string; Some "EVFILT_AIO"%string;
   Some "EVFILT_VNODE"%string; Some "EVFILT_PROC"%string; Some "EVFILT_SIGNAL"%string;
   Some "EVFILT_TIMER"%string; Some "EVFILT_NETDEV"%string; Some "EVFILT_FS"%string;
   Some "EVFILT_LIO"%string; Some "EVFILT_USER"%string; None].

Definition filter_name (filt : Z) : option string :=
  let id := Z.lnot filt in
  if (id <? 0) || (EVFILT_SYSCOUNT <=? id) then Some "EVFILT_INVALID"%string
  else default None (fname !! Z.to_nat id).

Section Filter.
Context {K : Type} `{OS K} `{FilterList K} (V : kqueue_vtable K).
Implicit Types (w : world K) (p q : ptr) (f : filt_ref).

(** The slot after [memcpy(dst, src)], [dst->kf_kqueue = kq] and [RB_INIT]. *)
Definition filter_copy (id : Z) : filter := Filter id (Some id) NULL [] 0 None None.

Definition filter_register (kq : ptr) (src : filter_src K) : M (world K) Z :=
  if fs_id src =? 0 then ret 0
  else
    let filt := u32 (-1 * fs_id src - 1) in
    if EVFILT_SYSCOUNT <=? filt then ret (-1)
    else
      let dst := (kq, Z.to_nat filt) in
      put_filt dst (filter_copy (fs_id src)) ;;;
      let! rv := match kf_init (fs_ops src) with Some m => m dst | None => ret 0 end in
      if rv <? 0 then upd_filt dst (set_kf_id 0) ;;; ret (-1)
      else
        match kqops_filter_init V with
        | Some m => let! rv := m kq dst in ret (if rv <? 0 then -1 else 0)
        | None => ret 0
        end.

(** One round of the teardown loop. *)
Definition unregister_one (kq : ptr) (i : nat) : M (world K) unit :=
  let! x := get_filt (kq, i) in
  if kf_id x =? 0 then ret tt
  else
    knote_delete_all (kq, i) ;;;
    let! o := filt_ops (kq, i) in
    match kf_destroy o with Some m => m (kq, i) | None => ret tt end ;;;
    match kqops_filter_free V with Some m => m kq (kq, i) | None => ret tt end.

Definition filter_unregister_all (kq : ptr) : M (world K) unit :=
  for_each (A := unit) (fun i => unregister_one kq i ;;; ret None)
    (seq 0 (Z.to_nat EVFILT_SYSCOUNT)) ;;;
  upd_kq kq (set_kq_filt (replicate (Z.to_nat EVFILT_SYSCOUNT) filter_zero)).

Fixpoint filter_register_list (kq : ptr) (l : list (filter_src K)) : M (world K) Z :=
  match l with
  | [] => ret 0
  | s :: l' =>
      let! rv := filter_register kq s in
      let! rest := filter_register_list kq l' in
      ret (rv + rest)
  end.

Definition filter_register_all (kq : ptr) : M (world K) Z :=
  let! rv := filter_register_list kq filter_list in
  if negb (rv =? 0) then
    kqueue_lock kq ;;;
    filter_unregister_all kq ;;;
    kqueue_unlock kq ;;;
    ret (-1)
  else ret 0.

(** [filter_lookup]: the slot, or [None] with errno set where the C function
    returns -1. *)
Definition filter_lookup (kq : ptr) (id : Z) : M (world K) (option filt_ref) :=
  if (Z.lnot id <? 0) || (EVFILT_SYSCOUNT <=? Z.lnot id)
  then set_errno EINVAL ;;; ret None
  else
    let filt := (kq, Z.to_nat (Z.lnot id)) in
    let! x := get_filt filt in
    match kf_impl x with
    | None => set_errno ENOSYS ;;; ret None
    | Some _ => ret (Some filt)
    end.

(** ** Teardown *)

Context (I : world K -> Prop) `{!BuildContract I} `{!VtableContract I V}.

(** Every filter in use has a table of the build. *)
Definition tabled (kq : kqueue) : Prop :=
  forall i x, kq_filt kq !! i = Some x -> kf_id x <> 0 -> is_Some (slot_ops i x).

Lemma tabled_fixed kq kq' : kq_fixed kq' = kq_fixed kq -> tabled kq -> tabled kq'.
Proof.
  intros Hf Ht i x Hi Hz. injection Hf as _ _ _ _ Hf. apply (f_equal (lookup i)) in Hf.
  rewrite !list_lookup_fmap, Hi in Hf. destruct (kq_filt kq !! i) as [x0|] eqn:E; [|done].
  simpl in Hf. injection Hf as Hid Him. unfold slot_ops. rewrite Him. apply (Ht i x0); congruence.
Qed.

(** The slots below [n] of kqueue [q] have been emptied since [w]. *)
Record emptied (w w' : world K) (q : ptr) (n : nat) : Prop :=
  { em_winv : winv w';
    em_plat : I w';
    em_step : step_q q w w';
    em_done : forall j x, (j < n)%nat -> slot_of w' q j = Some x -> elements (kf_index x) = [];
    em_todo : forall j, (n <= j)%nat ->
      kf_index <$> slot_of w' q j = kf_index <$> slot_of w q j;
    em_freed : forall j x e kn, (j < n)%nat -> slot_of w q j = Some x ->
      e ∈ elements (kf_index x) -> w_knotes w !! e_ptr e = Some kn -> kn_ref kn = 1 ->
      w_knotes w' !! e_ptr e = None;
    em_kn : forall j x e, (n <= j)%nat -> slot_of w q j = Some x ->
      e ∈ elements (kf_index x) -> w_knotes w' !! e_ptr e = w_knotes w !! e_ptr e }.

Lemma slot_frame_refl q i w : slot_frame_ q i w w.
Proof. split; try done. eauto. Qed.

Lemma emptied_refl w q : winv w -> I w -> emptied w w q 0.
Proof. intros. split; try done; intros; lia. Qed.

Lemma emptied_slot_frame w w1 w2 q i n :
  is_Some (w_kqs w !! q) -> emptied w w1 q n -> slot_frame_ q i w1 w2 -> I w2 ->
  emptied w w2 q n.
Proof.
  intros [kq E] [A B C D F G L] Hf HI. destruct (step_self _ _ _ _ C E) as (kq1 & E1 & _).
  assert (Hq : is_Some (w_kqs w1 !! q)) by eauto.
  assert (Hx : forall j, kf_index <$> slot_of w2 q j = kf_index <$> slot_of w1 q j)
    by (intros; by eapply slot_frame_index).
  split; [by eapply slot_frame_winv|done| |..].
  - etrans; [exact C|]. by eapply slot_frame_step.
  - intros j x Hj Hs. specialize (Hx j). rewrite Hs in Hx.
    destruct (slot_of w1 q j) as [x1|] eqn:E1'; [|done]. simpl in Hx. injection Hx as ->.
    by apply (D j).
  - intros j Hj. by rewrite Hx, F.
  - rewrite (sf_knotes _ _ _ _ Hf). exact G.
  - rewrite (sf_knotes _ _ _ _ Hf). exact L.
Qed.

Lemma slot_of_ok w q i x : winv w -> slot_of w q i = Some x -> slot_ok (w_knotes w) q i x.
Proof.
  intros Hw Hs. unfold slot_of in Hs. apply bind_Some in Hs as (kq & E & Ei).
  by apply (inv_slot _ _ _ (wi_kq _ Hw _ _ E)).
Qed.

(** The slot of [w'] that stands for a slot of [w] with the same index. *)
Lemma same_index w w' q j x :
  kf_index <$> slot_of w' q j = kf_index <$> slot_of w q j -> slot_of w q j = Some x ->
  exists x', slot_of w' q j = Some x' /\ kf_index x' = kf_index x.
Proof.
  intros Hx Hs. rewrite Hs in Hx. destruct (slot_of w' q j) as [x'|]; [|done].
  simpl in Hx. injection Hx as Hx. eauto.
Qed.

Lemma emptied_next w w' w1 q n x :
  emptied w w' q n -> slot_of w' q n = Some x ->
  deleted_all I w' w1 q n (elements (kf_index x)) -> emptied w w1 q (S n).
Proof.
  intros [A B C D F G L] Hsx [A1 B1 C1 (x1 & Hx1 & He1) D1 K1 R1].
  pose proof (slot_of_ok _ _ _ _ A Hsx) as Hok. split; try done.
  - by etrans.
  - intros j y Hj Hy. destruct (decide (j = n)) as [->|Hne]; [congruence|].
    rewrite D1 in Hy by done. apply (D j); [lia|done].
  - intros j Hj. rewrite D1 by lia. apply F. lia.
  - intros j y e kn Hj Hy He Ek Hr. destruct (decide (j = n)) as [->|Hne].
    + destruct (same_index _ _ _ _ _ (F n ltac:(lia)) Hy) as (y' & Hy' & Hi).
      assert (y' = x) as -> by congruence.
      apply (R1 e kn); [by rewrite Hi| |done]. by rewrite (L n y e).
    + pose proof (G j y e kn ltac:(lia) Hy He Ek Hr) as Hn'. rewrite K1; [done|].
      intros (e' & Hp & Hin)%list_elem_of_fmap. pose proof (slot_kn _ _ _ _ Hok) as Hk.
      rewrite Forall_forall in Hk. destruct (Hk _ Hin) as (kn' & Ek' & _). congruence.
  - intros j y e Hj Hy He. rewrite K1; [apply (L j y e); [lia|done|done]|].
    intros (e' & Hp & Hin)%list_elem_of_fmap.
    destruct (same_index _ _ _ _ _ (F j ltac:(lia)) Hy) as (y' & Hy' & Hi).
    pose proof (slot_of_ok _ _ _ _ A Hy') as Hok'. rewrite <- Hi in He.
    destruct (slot_unique _ _ _ _ _ _ _ _ _ Hok' Hok He Hin Hp). lia.
Qed.

Lemma emptied_skip w w' q n x :
  emptied w w' q n -> slot_of w' q n = Some x -> elements (kf_index x) = [] ->
  emptied w w' q (S n).
Proof.
  intros Hem Hsx He. eapply emptied_next; [done|done|]. pose proof Hem as [A B C D F G L].
  rewrite He. split; try done; [eauto|]. intros e kn Hin. by apply elem_of_nil in Hin.
Qed.

Lemma unregister_one_ok w w' q kq n :
  w_kqs w !! q = Some kq -> kq_locked kq = true -> tabled kq ->
  (n < Z.to_nat EVFILT_SYSCOUNT)%nat -> emptied w w' q n ->
  wp (unregister_one q n) (fun _ w'' => emptied w w'' q (S n)) w'.
Proof.
  intros E Hl Ht Hn Hem. pose proof Hem as [A B C D F G L].
  destruct (step_self _ _ _ _ C E) as (kq' & E' & Hfx).
  pose proof (wi_kq _ A _ _ E') as Hinv.
  destruct (lookup_lt_is_Some_2 (kq_filt kq') n) as [x Hx].
  { by rewrite (inv_slots _ _ _ Hinv). }
  assert (Hsx : slot_of w' q n = Some x) by (unfold slot_of; by rewrite E').
  pose proof (slot_of_ok _ _ _ _ A Hsx) as Hok. unfold unregister_one. wp_go.
  destruct (Z.eqb_spec (kf_id x) 0) as [H0'|Hz].
  { wp_simpl. eapply emptied_skip; [done|done|by apply Hok]. }
  destruct (tabled_fixed _ _ Hfx Ht n x Hx Hz) as [o Ho].
  assert (Ha : at_slot w' q n x o).
  { exists kq'. split_and!; try done. injection Hfx as _ ? _ _ _. congruence. }
  wp_simpl. eapply wp_mono; [|by eapply (knote_delete_all_ok I)]. intros rv w1 [_ Hd].
  pose proof (emptied_next _ _ _ _ _ _ Hem Hsx Hd) as Hem1.
  destruct (at_slot_step _ _ _ _ _ _ Ha (da_step _ _ _ _ _ _ Hd)) as (x1 & Ha1).
  pose proof Ha1 as (kq1 & E1 & Hl1 & Ei1 & Ho1 & Hz1). wp_simpl.
  eapply wp_filt_ops; [done..|]. 
  pose proof (slot_contract I _ _ _ Ho1) as Hfc. wp_simpl.
  assert (Hk : wp (match kf_destroy o with Some m => m (q, n) | None => ret tt end)
                 (fun _ w2 => slot_frame_ q n w1 w2 /\ I w2) w1).
  { destruct (kf_destroy o) as [m|] eqn:Em;
      [|split; [apply slot_frame_refl|apply Hem1]].
    destruct (da_slot _ _ _ _ _ _ Hd) as (x1' & Hx1' & He1').
    eapply fc_destroy; [done|apply Hem1|apply Hem1|done|done]. }
  eapply wp_mono; [|exact Hk]. clear Hk. intros _ w2 [Hf2 HI2].
  assert (Hem2 := emptied_slot_frame w w1 w2 q n (S n) (mk_is_Some _ _ E) Hem1 Hf2 HI2).
  destruct (kqops_filter_free V) as [m|] eqn:Em; [|by wp_simpl].
  destruct (sf_kq _ _ _ _ Hf2 _ E1) as (kq2 & E2 & _).
  eapply wp_mono; [|eapply vc_filter_free; [done|apply Hem2|apply Hem2|by rewrite E2]].
  intros u w3 [Hf3 HI3]. by eapply (emptied_slot_frame w w2 w3 q n).
Qed.

Lemma knotes_of_empty fs :
  (forall j x, fs !! j = Some x -> elements (kf_index x) = []) -> knotes_of fs = 0%nat.
Proof.
  intros Hall. induction fs as [|x fs IH]; [done|].
  change (knotes_of (x :: fs)) with (rb_size (kf_index x) + knotes_of fs)%nat.
  unfold rb_size. rewrite (Hall O x) by done. rewrite IH; [done|].
  intros j y Hj. by apply (Hall (S j)).
Qed.

Lemma slot_ok_zero m q i : slot_ok m q i filter_zero.
Proof. split; simpl; try constructor; apply (wf_empty e_key). Qed.

Lemma winv_zero_slots w q kq fs :
  winv w -> w_kqs w !! q = Some kq ->
  length fs = Z.to_nat EVFILT_SYSCOUNT -> (forall i x, fs !! i = Some x -> x = filter_zero) ->
  (forall j x, kq_filt kq !! j = Some x -> elements (kf_index x) = []) ->
  winv (set_w_kqs (<[q := set_kq_filt fs kq]> (w_kqs w)) w).
Proof.
  intros [Hk Hn Hq] E Hlen Hz He. destruct (Hk _ _ E) as [H1 H2 H3]. split; [|done|].
  - intros r kr Er. simpl in Er. destruct (decide (r = q)) as [->|Hne]; simplify_map_eq; [|by apply Hk].
    split; [done| |].
    + intros i f Hi. simpl in Hi. rewrite (Hz _ _ Hi). apply slot_ok_zero.
    + simpl. rewrite H3, (knotes_of_empty _ He), knotes_of_empty; [done|].
      intros j x Hj. by rewrite (Hz _ _ Hj).
  - intros r Hr. simpl. destruct (decide (r = q)) as [->|Hne]; simplify_map_eq; [|by apply Hq].
    by rewrite (Hq q Hr) in E.
Qed.

Lemma filter_unregister_all_ok w q kq :
  winv w -> I w -> w_kqs w !! q = Some kq -> kq_locked kq = true -> tabled kq ->
  wp (filter_unregister_all q) (fun _ w' => winv w' /\ I w' /\ globals w' = globals w /\
    (exists kq', w_kqs w' !! q = Some kq' /\ kq_locked kq' = true /\ kq_knote_count kq' = 0 /\
       kq_inflight kq' = kq_inflight kq /\ kq_freeing kq' = kq_freeing kq /\
       kq_filt kq' = replicate (Z.to_nat EVFILT_SYSCOUNT) filter_zero) /\
    (forall r, r <> q -> kq_common <$> w_kqs w' !! r = kq_common <$> w_kqs w !! r) /\
    (forall p kn, w_knotes w !! p = Some kn -> kn_kq kn <> Some q -> w_knotes w' !! p = Some kn) /\
    (forall j x e kn, slot_of w q j = Some x -> e ∈ elements (kf_index x) ->
       w_knotes w !! e_ptr e = Some kn -> kn_ref kn = 1 -> w_knotes w' !! e_ptr e = None)) w.
Proof.
  intros Hw HI E Hl Ht. unfold filter_unregister_all. wp_simpl.
  eapply wp_mono; [|apply (wp_for_each _ (fun n w' => emptied w w' q n))].
  2: { by apply emptied_refl. }
  2: { intros i n w' Hin Hem. apply lookup_seq in Hin as [-> Hlt]. simpl. wp_simpl.
       eapply wp_mono; [|by eapply unregister_one_ok]. by intros. }
  intros r w' [_ [A B C D F G L]]. rewrite length_seq in *.
  destruct (step_self _ _ _ _ C E) as (kq' & E' & Hfx). injection Hfx as _ Hl' Hfr Hin _.
  pose proof (wi_kq _ A _ _ E') as [Hlen _ Hcnt].
  assert (Hemp : forall j x, kq_filt kq' !! j = Some x -> elements (kf_index x) = []).
  { intros j x Hj. apply (D j); [|unfold slot_of; by rewrite E'].
    rewrite <- Hlen. by eapply lookup_lt_Some. }
  wp_go. split_and!.
  - apply winv_zero_slots; try done. by intros i f [-> _]%lookup_replicate.
  - apply pi_slots; [done..|]. intros x (j & Hj)%list_elem_of_lookup. by apply (Hemp j).
  - unfold globals. simpl. by rewrite (sq_mtx _ _ _ C), (sq_kqmap _ _ _ C), (sq_kq_list _ _ _ C).
  - eexists. simpl. rewrite lookup_insert_eq. split_and!; [done|simpl; congruence| |done..].
    simpl. by rewrite Hcnt, (knotes_of_empty _ Hemp).
  - intros r' Hr. simpl. rewrite lookup_insert_ne by done. by apply (sq_kqs _ _ _ C).
  - intros p kn. simpl. apply (sq_kn _ _ _ C).
  - intros j x e kn Hs He Ek Hr. simpl. apply (G j x e kn); try done.
    unfold slot_of in Hs. rewrite E in Hs. simpl in Hs. apply lookup_lt_Some in Hs.
    by rewrite (inv_slots _ _ _ (wi_kq _ Hw _ _ E)) in Hs.
Qed.
End Filter.
