(* ===== verification/Kqueue.v ===== *)
(** * Kqueues: src/common/kqueue.c

    Creation, lookup and destruction of kqueues, the deferral of the destruction
    while callers are inside [kevent()], the fork handlers and the size of the
    map from descriptors to kqueues.  Debug output, thread cancellation and
    [atexit] registration are not modelled. *)

From Stdlib Require Import ZArith Lia Bool.
From stdpp Require Import base list gmap.
From S2P Require Import Prelude RBTree Event Map State Ops Knote Filter.

Section Kqueue.
Context {K : Type} `{OS K} `{FilterList K} (V : kqueue_vtable K).
Implicit Types (w : world K) (p q : ptr).

Definition get_fd_limit : M (world K) Z :=
  let! r := sys SysGetrlimit in
  match r with
  | None => ret 65536
  | Some None => ret (2 ^ 20)
  | Some (Some rlim_max) => ret (if 2 ^ 20 <? rlim_max then 2 ^ 20 else rlim_max)
  end.

Definition F_GETFD : Z := 1.

(** The loop over every descriptor number; [errno] is preserved. *)
Fixpoint fd_used_loop (fuel : nat) (i used : Z) : M (world K) Z :=
  match fuel with
  | O => ret used
  | S n =>
      let! r := sys (SysFcntl i F_GETFD 0) in
      fd_used_loop n (i + 1) (if bool_decide (r = Some 0) then used + 1 else used)
  end.

Definition get_fd_used : M (world K) Z :=
  let! fd_max := get_fd_limit in
  let! our_errno := errno in
  let! used := fd_used_loop (Z.to_nat fd_max) 0 0 in
  set_errno our_errno ;;; ret used.

(** [libkqueue_init]: the map gets one slot per possible descriptor. *)
Definition libkqueue_init : M (world K) unit :=
  let! n := get_fd_limit in
  let! m := deref AssertFail (map_new true true n) in
  modify (set_w_kqmap m).

Definition free_kq (p : ptr) : M (world K) unit :=
  let! _ := get_kq p in modify (fun w => set_w_kqs (delete p (w_kqs w)) w).

Definition libkqueue_pre_fork : M (world K) unit :=
  let! b := gets w_fork_cleanup in
  modify (set_w_fork_cleanup_active b) ;;;
  if negb b then ret tt else mtx_lock.

Definition libkqueue_parent_fork : M (world K) unit :=
  let! b := gets w_fork_cleanup_active in
  if negb b then ret tt else mtx_unlock.

(** [filter_fork_all] is the parameter of the child handler. *)
Definition libkqueue_child_fork (filter_fork_all : M (world K) unit) : M (world K) unit :=
  modify (set_w_in_child true) ;;;
  let! b := gets w_fork_cleanup_active in
  if negb b then ret tt
  else filter_fork_all ;;; kqops_libkqueue_fork V ;;; mtx_unlock.

Definition kqueue_knote_mark_disabled_all (kq : ptr) : M (world K) unit :=
  for_each (A := unit) (fun i => knote_mark_disabled_all (kq, i) ;;; ret None)
    (seq 0 (Z.to_nat EVFILT_SYSCOUNT)) ;;; ret tt.

(** The common end of the two ways a kqueue is destroyed. *)
Definition kqueue_destroy (kq : ptr) : M (world K) unit :=
  filter_unregister_all V kq ;;;
  kqops_kqueue_free V kq ;;;
  kqueue_unlock kq ;;;
  free_kq kq.

Definition kqueue_free (kq : ptr) : M (world K) unit :=
  let! locked := gets w_mtx in
  assert_ locked ;;;
  modify (fun w => set_w_kq_cnt (u32 (w_kq_cnt w - 1)) w) ;;;
  modify (fun w => set_w_kq_list (base.filter (fun r => r <> kq) (w_kq_list w)) w) ;;;
  let! k := get_kq kq in
  on_kqmap (map_remove (kq_id k) kq) ;;;
  kqueue_lock kq ;;;
  let! k := get_kq kq in
  match kq_inflight k with
  | _ :: _ =>
      upd_kq kq (set_kq_freeing true) ;;;
      match kqops_kqueue_interrupt V with Some m => m kq | None => ret tt end ;;;
      kqueue_unlock kq
  | [] => kqueue_destroy kq
  end.

Definition kqueue_complete_deferred_free (kq : ptr) : M (world K) unit :=
  kqueue_lock kq ;;; kqueue_destroy kq.

(** [map_delete] answers [(void * )-1] for an index out of range, which is not
    NULL: [kqueue_free] would then be called on a wild pointer. *)
Definition kqueue_free_by_id (id : Z) : M (world K) unit :=
  let! r := on_kqmap (map_delete id) in
  match r with
  | inr None => ret tt
  | inr (Some kq) => if kqops_close_async V then ret tt else kqueue_free kq
  | inl tt => if kqops_close_async V then ret tt else fail BadAddress
  end.

Definition kqueue_lookup (kq : Z) : M (world K) (option ptr) := on_kqmap (map_lookup kq).

(** [kqueue()], after [pthread_once]. *)
Definition kqueue_ : M (world K) Z :=
  let! r := alloc in
  match r with
  | None => ret (-1)
  | Some kq =>
      modify (fun w => set_w_kqs (<[kq := kqueue_zero]> (w_kqs w)) w) ;;;
      mtx_lock ;;;
      let! rv := kqops_kqueue_init V kq in
      if rv <? 0 then mtx_unlock ;;; free_kq kq ;;; ret (-1)
      else
        let! k := get_kq kq in
        kqueue_free_by_id (kq_id k) ;;;
        let! rv := on_kqmap (map_insert (kq_id k) kq) in
        if rv <? 0 then
          kqueue_lock kq ;;;
          filter_unregister_all V kq ;;;
          kqueue_unlock kq ;;;
          mtx_unlock ;;;
          free_kq kq ;;; ret (-1)
        else
          modify (fun w => set_w_kq_list (kq :: w_kq_list w) w) ;;;
          modify (fun w => set_w_kq_cnt (u32 (w_kq_cnt w + 1)) w) ;;;
          mtx_unlock ;;;
          ret (kq_id k)
  end.
End Kqueue.
