(* ===== verification/Kevent.v ===== *)
(** * kevent(): src/common/kevent.c

    One change, the change list with its receipts, and the whole call: lock,
    apply the changes, wait with the kqueue unlocked, copy events out, and let
    the last caller of a kqueue that was freed meanwhile finish its destruction.
    The caller's arrays live in [w_mem], so one array may serve as change list
    and event list.  Debug output and thread cancellation are not modelled. *)

From Stdlib Require Import ZArith Lia Bool.
From stdpp Require Import base list gmap.
From S2P Require Import Prelude RBTree Event Map State Ops Knote Filter Kqueue.

(** The address of the static [null_kev]. *)
Definition null_kev : Z := -1.

Section Kevent.
Context {K : Type} `{OS K} `{FilterList K} (V : kqueue_vtable K).
Implicit Types (w : world K) (p q : ptr) (f : filt_ref) (src : kevent).

(** The part of [kevent_copyin_one] for an identifier without a knote. *)
Definition copyin_new (kq : ptr) f src : M (world K) (Z * option ptr) :=
  if has (flags src) EV_ADD then
    let! r := knote_new in
    match r with
    | None => set_errno ENOENT ;;; ret (-1, None)
    | Some kn =>
        upd_kn kn (fun k => set_kn_kq (Some kq)
          (set_kev (set_flags (clrb (flags src) EV_ENABLE) src) k)) ;;;
        let! o := filt_ops f in
        let! rv := kn_create o f kn in
        if rv <? 0 then
          let! saved_errno := errno in
          upd_kn kn (fun k => set_kn_flags (setb (kn_flags k) KNFL_KNOTE_DELETED) k) ;;;
          knote_release kn ;;;
          set_errno (if saved_errno =? 0 then EFAULT else saved_errno) ;;;
          ret (-1, None)
        else
          knote_insert f kn ;;;
          if has (flags src) EV_DISABLE then
            upd_kn kn KNOTE_DISABLE ;;;
            let! o := filt_ops f in
            let! rv := kn_disable o f kn in
            ret (rv, Some kn)
          else ret (rv, Some kn)
    end
  else set_errno ENOENT ;;; ret (-1, None).

(** Whether a change to an existing knote reaches [kn_modify]. *)
Definition wants_modify src : bool :=
  has (flags src) EV_ADD || (flags src =? 0) || has (flags src) EV_RECEIPT ||
  (has (flags src) EV_ENABLE && has (fflags src) NOTE_TRIGGER).

Definition copyin_modify f (kn : ptr) src : M (world K) Z :=
  let! o := filt_ops f in
  let! rv := kn_modify o f kn src in
  if rv =? 0 then
    upd_kn kn (fun k =>
      let e := set_udata (udata src) (kev k) in
      set_kev (if has (flags src) EV_ADD then COPY_FLAGS_BIT e src EV_DISPATCH else e) k) ;;;
    ret rv
  else ret rv.

(** The part for an identifier that has the knote [kn]. *)
Definition copyin_existing f (kn : ptr) src : M (world K) Z :=
  if has (flags src) EV_DELETE then knote_delete f kn
  else if has (flags src) EV_DISABLE then knote_disable f kn
  else
    let! rv := (if has (flags src) EV_ENABLE then knote_enable f kn else ret 0) in
    if negb (rv =? 0) then ret rv
    else if wants_modify src then copyin_modify f kn src
    else ret rv.

Definition kevent_copyin_one (kq : ptr) src : M (world K) (Z * option ptr) :=
  if has (flags src) EV_DISPATCH && has (flags src) EV_ONESHOT
  then set_errno EINVAL ;;; ret (-1, None)
  else
    let! filt := filter_lookup kq (filter_ src) in
    match filt with
    | None => ret (-1, None)
    | Some f =>
        let! kn := knote_lookup f (ident src) in
        match kn with
        | None => copyin_new kq f src
        | Some kn => let! rv := copyin_existing f kn src in ret (rv, Some kn)
        end
    end.

(** The entry written for an error or for EV_RECEIPT. *)
Definition receipt (cl : kevent) (status : Z) : kevent :=
  set_data status (set_flags (setb (flags cl) EV_ERROR) cl).

(** One round of the loop over the change list: the next free entry of the
    event list, or [None] where the function returns -1. *)
Definition copyin_step (kq : ptr) (cl_p el_p el_end : Z) : M (world K) (option Z) :=
  let! src := load cl_p in
  let! res := kevent_copyin_one kq src in
  if res.1 =? 1 then
    if el_p =? el_end then set_errno EFAULT ;;; ret None
    else
      let! p := deref NullDeref res.2 in
      let! kn := get_kn p in
      store el_p (set_flags (setb (flags (kev kn)) EV_RECEIPT) (kev kn)) ;;;
      ret (Some (el_p + 1))
  else if res.1 <? 0 then
    if el_p =? el_end then ret None
    else
      let! status := errno in
      set_errno 0 ;;;
      let! cl := load cl_p in
      store el_p (receipt cl status) ;;;
      ret (Some (el_p + 1))
  else
    let! cl := load cl_p in
    if has (flags cl) EV_RECEIPT then
      if el_p =? el_end then set_errno EFAULT ;;; ret None
      else store el_p (receipt cl 0) ;;; ret (Some (el_p + 1))
    else ret (Some el_p).

Fixpoint copyin_loop (kq : ptr) (n : nat) (cl_p el_p el_end : Z) : M (world K) (option Z) :=
  match n with
  | O => ret (Some el_p)
  | S n' =>
      let! r := copyin_step kq cl_p el_p el_end in
      match r with
      | None => ret None
      | Some el_p' => copyin_loop kq n' (cl_p + 1) el_p' el_end
      end
  end.

Definition kevent_copyin (kq : ptr) (changelist nchanges eventlist nevents : Z)
    : M (world K) Z :=
  let! r := copyin_loop kq (Z.to_nat nchanges) changelist eventlist (eventlist + nevents) in
  ret (match r with None => -1 | Some el_p => el_p - eventlist end).

(** From the label [out]: leave, and finish a deferred destruction. *)
Definition kevent_out (kq me : ptr) (rv : Z) : M (world K) Z :=
  kqueue_kevent_exit V kq me ;;;
  let! k := get_kq kq in
  let needs_free := kq_freeing k && bool_decide (kq_inflight k = []) in
  kqueue_unlock kq ;;;
  (if needs_free then kqueue_complete_deferred_free V kq else ret tt) ;;;
  ret rv.

(** The change list. *)
Definition kevent_changes (kq : ptr) (changelist nchanges eventlist el_end : Z) : M (world K) Z :=
  if 0 <? nchanges
  then kevent_copyin kq changelist nchanges eventlist (el_end - eventlist)
  else ret 0.

(** The call between the two critical sections on the global mutex and [out]. *)
Definition kevent_body (kq : ptr) (changelist nchanges eventlist el_end nevents : Z)
    (timeout : option timespec) : M (world K) Z :=
  let! rv := kevent_changes kq changelist nchanges eventlist el_end in
  if rv <? 0 then ret rv
  else
    let el_p := eventlist + rv in
    if 0 <? el_end - el_p then
      kqueue_unlock kq ;;;
      let! rv := kqops_kevent_wait V kq nevents timeout in
      kqueue_lock kq ;;;
      if 0 <? rv then
        let! rv := kqops_kevent_copyout V kq rv el_p (el_end - el_p) in
        ret (if 0 <=? rv then el_p + rv - eventlist else rv)
      else ret rv
    else ret (el_p - eventlist).

Definition lock_global : M (world K) unit :=
  let! b := gets w_thread_safe in if b then mtx_lock else ret tt.
Definition unlock_global : M (world K) unit :=
  let! b := gets w_thread_safe in if b then mtx_unlock else ret tt.

(** The kqueue is found under the global mutex, locked, and entered. *)
Definition kevent_begin (me : ptr) (kqfd : Z) : M (world K) (option ptr) :=
  lock_global ;;;
  let! k := kqueue_lookup kqfd in
  match k with
  | None => set_errno ENOENT ;;; unlock_global ;;; ret None
  | Some kq =>
      kqueue_lock kq ;;;
      unlock_global ;;;
      kqueue_kevent_enter V kq me ;;;
      ret (Some kq)
  end.

(** [kevent()]; [me] is the address of the [state] on the caller's stack. *)
Definition kevent_ (me : ptr) (kqfd : Z) (changelist : option Z) (nchanges : Z)
    (eventlist : option Z) (nevents : Z) (timeout : option timespec) : M (world K) Z :=
  if (nchanges <? 0) || (nevents <? 0) then set_errno EINVAL ;;; ret (-1)
  else
    let nev := match eventlist with Some _ => Z.min nevents MAX_KEVENT | None => nevents end in
    let el := default null_kev eventlist in
    let el_end := match eventlist with Some a => a + nev | None => null_kev end in
    let! k := kevent_begin me kqfd in
    match k with
    | None => ret (-1)
    | Some kq =>
        let! rv := kevent_body kq (default null_kev changelist) nchanges el el_end nev timeout in
        kevent_out kq me rv
    end.

(** ** One change *)

Context (I : world K -> Prop) `{!BuildContract I}.

(** What one change does to the map of its filter. *)
Inductive change_rel src (v : gmap Z ptr) : gmap Z ptr -> Z -> option ptr -> Prop :=
  | ch_absent : v !! ident src = None -> has (flags src) EV_ADD = false ->
      change_rel src v v (-1) None
  | ch_add_fail : v !! ident src = None -> has (flags src) EV_ADD = true ->
      change_rel src v v (-1) None
  | ch_add p rv : v !! ident src = None -> has (flags src) EV_ADD = true ->
      change_rel src v (<[ident src := p]> v) rv (Some p)
  | ch_delete p rv : v !! ident src = Some p -> has (flags src) EV_DELETE = true -> rv <> 1 ->
      change_rel src v (delete (ident src) v) rv (Some p)
  | ch_keep p rv : v !! ident src = Some p -> has (flags src) EV_DELETE = false ->
      change_rel src v v rv (Some p).

(** The state after a change, and the change of the maps. *)
Record changed (w w' : world K) (q : ptr) (i : nat) src (rv : Z) (out : option ptr) : Prop :=
  { cg_winv : winv w';
    cg_plat : I w';
    cg_step : step_q q w w';
    cg_rel : change_rel src (view w q i) (view w' q i) rv out;
    cg_views : forall j, j <> i -> view w' q j = view w q j }.

Definition fresh_world (w : world K) (k : K) (src : kevent) (q : ptr) : world K :=
  set_w_knotes (<[w_next w := new_knote src q]> (w_knotes w))
    (set_w_next (Pos.succ (w_next w)) (set_w_os k w)).

Lemma fresh_world_ok w k src q i x o :
  winv w -> I w -> at_slot w q i x o -> Z.lnot (filter_ src) = Z.of_nat i -> fd_ident src ->
  winv (fresh_world w k src q) /\ I (fresh_world w k src q) /\
  step_q q w (fresh_world w k src q) /\ detached (fresh_world w k src q) (w_next w) /\
  at_slot (fresh_world w k src q) q i x o /\ cb_pre (fresh_world w k src q) q i (w_next w).
Proof.
  intros Hw HI Ha Hi Hfd. set (w1 := set_w_next (Pos.succ (w_next w)) (set_w_os k w)).
  assert (Hf1 : frame_ (w_next w) w w1) by (etrans; [apply frame_os|apply (frame_next _ (set_w_os k w))]).
  pose proof (winv_frame _ _ _ Hf1 Hw) as Hw1.
  assert (Hnone : w_knotes w !! w_next w = None) by (apply (wi_fresh_kn _ Hw); lia).
  assert (Hd : detached w1 (w_next w)) by (by apply detached_fresh).
  assert (Hlk : forall r, r <> w_next w ->
    (<[w_next w := new_knote src q]> (w_knotes w1)) !! r = w_knotes w1 !! r)
    by (intros; by rewrite lookup_insert_ne).
  pose proof Ha as (kq & E & Hl & Ei & Ho & Hz). split_and!.
  - apply (winv_knotes w1 (w_next w)); [done..|simpl; lia].
  - apply (pi_new w1); [|done|done]. eapply pi_stable; [exact HI|]. split; simpl; done || lia.
  - etrans; [|apply (step_knotes q w1 (w_next w)); [|exact Hlk]].
    + split; simpl; done || lia.
    + simpl. congruence.
  - exact Hd.
  - by exists kq.
  - exists kq, x, (new_knote src q). split_and!; try done. simpl. by rewrite lookup_insert_eq.
Qed.

Lemma changed_fail w w' q i src e :
  winv w' -> I w' -> step_q q w w' -> (forall j, view w' q j = view w q j) ->
  view w q i !! ident src = None ->
  changed w (set_w_errno e w') q i src (-1) None.
Proof.
  intros Hw HI Hs Hv Hn. split.
  - eapply winv_frame; [apply (frame_errno 1)|done].
  - eapply pi_stable; [exact HI|apply plat_errno].
  - etrans; [exact Hs|]. by split.
  - change (view (set_w_errno e w') q i) with (view w' q i). rewrite Hv.
    destruct (has (flags src) EV_ADD) eqn:Ha; [by apply ch_add_fail|by apply ch_absent].
  - intros j _. apply Hv.
Qed.

Lemma view_of_eq w w' q : w_kqs w' = w_kqs w -> forall j, view w' q j = view w q j.
Proof. intros Hk j. unfold view, slot_of. by rewrite Hk. Qed.

Lemma changed_kept w w1 w2 q i src rv out p :
  changed w w1 q i src rv out -> kept I w1 w2 q p ->
  (forall rv', change_rel src (view w q i) (view w1 q i) rv' out) ->
  forall rv', changed w w2 q i src rv' out.
Proof.
  intros [A B C D E] Hk Hrel rv'. pose proof (kept_view _ _ _ _ _ i Hk) as Hv.
  split; [apply Hk|apply Hk|etrans; [exact C|apply Hk]| |].
  - by rewrite Hv.
  - intros j Hj. rewrite (kept_view _ _ _ _ _ j Hk). by apply E.
Qed.

(** The tail of [copyin_new] after a successful [kn_create]. *)
Lemma copyin_added_ok w w3 q kq i x o src p kn3 rv :
  winv w3 -> (forall w', linking q i p w3 w' -> I w') -> step_q q w w3 -> (forall j, view w3 q j = view w q j) ->
  at_slot w3 q i x o -> w_kqs w3 !! q = Some kq -> kq_knote_count kq < INT_MAX ->
  w_knotes w3 !! p = Some kn3 -> kn_common kn3 = kn_common (new_knote src q) ->
  Z.lnot (filter_ src) = Z.of_nat i -> view w q i !! ident src = None ->
  has (flags src) EV_ADD = true ->
  wp (knote_insert (q, i) p ;;;
      if has (flags src) EV_DISABLE then
        upd_kn p KNOTE_DISABLE ;;;
        let! o := filt_ops (q, i) in
        let! rv := kn_disable o (q, i) p in
        ret (rv, Some p)
      else ret (rv, Some p))
     (fun r w' => changed w w' q i src r.1 r.2) w3.
Proof.
  intros Hw3 HI3 Hs3 Hv Ha3 E3 Hc Ek3 Hc3 Hi Hnone Hadd. injection Hc3 as Hid Hfl Hrf Hkq Hdel.
  simpl in *. wp_simpl.
  eapply wp_mono; [|eapply (knote_insert_ok I w3 q kq i x o p kn3)]; try done; try congruence; try lia.
  intros u w4 [A B C D E F]. rewrite Hid in D.
  assert (Hrel : forall rv', changed w w4 q i src rv' (Some p)).
  { intros rv'. split; try done; [by etrans| |].
    - rewrite D, Hv. by apply ch_add.
    - intros j Hj. by rewrite E, Hv. }
  destruct (has (flags src) EV_DISABLE); [|by wp_simpl].
  destruct (at_slot_step _ _ _ _ _ _ Ha3 C) as (x4 & Ha4).
  assert (Hin : Entry (ident src) p ∈ elements (kf_index x4)).
  { eapply view_lookup; [exact A|exact Ha4|]. by rewrite D, lookup_insert_eq. }
  rewrite <- F in Ek3. wp_go. set (w5 := set_w_knotes _ w4).
  assert (Hk5 : kept I w4 w5 q p) by (by apply (kept_upd I w4 q p kn3)).
  assert (Ha5 : at_slot w5 q i x4 o) by exact Ha4.
  pose proof Ha5 as (kq5 & E5 & _ & Ei5 & Ho5 & _). eapply wp_filt_ops; [done..|].
  pose proof (slot_contract I _ _ _ Ho5) as Hfc. wp_simpl.
  destruct (entry_cb_pre w5 q i x4 o (Entry (ident src) p) (ke_winv _ _ _ _ _ Hk5) Ha5 Hin)
    as (Hcb & kn5 & Ek5 & Hq5).
  eapply wp_mono; [|apply fc_disable; [apply Hk5|apply Hk5|done|
    exact (entry_listed w5 q i x4 o (Entry (ident src) p) (ke_winv _ _ _ _ _ Hk5) Ha5 Hin)]].
  intros rv' w6 (Hf6 & HI6 & _). wp_simpl. simpl.
  eapply (changed_kept w w5 w6 q i src rv _ p); [|by apply (kept_frame I w5 w6 q p kn5 (ke_winv _ _ _ _ _ Hk5))|].
  - by eapply changed_kept; [apply (Hrel rv)|exact Hk5|apply Hrel].
  - intros rv''. rewrite (kept_view _ _ _ _ _ i Hk5). apply (Hrel rv'').
Qed.

(** An identifier that is not in the map of a slot is not in its index. *)
Lemma absent_fresh w k q i x o src :
  winv w -> at_slot w q i x o -> view w q i !! ident src = None ->
  absent (fresh_world w k src q) q i (w_next w).
Proof.
  intros Hw Ha Hn kn [id p] Ek (y & Hy & He) Hid. simpl in *. rewrite lookup_insert_eq in Ek. simplify_eq.
  change (slot_of (fresh_world w k src q) q i) with (slot_of w q i) in Hy.
  rewrite (at_slot_slot _ _ _ _ _ Ha) in Hy. simplify_eq. simpl in Hn.
  apply (view_lookup _ _ _ _ _ _ _ Hw Ha) in He. simpl in He. congruence.
Qed.

Lemma copyin_new_ok w q kq i x o src :
  winv w -> I w -> at_slot w q i x o -> w_kqs w !! q = Some kq ->
  kq_knote_count kq < INT_MAX -> Z.lnot (filter_ src) = Z.of_nat i ->
  view w q i !! ident src = None -> fd_ident src ->
  wp (copyin_new q (q, i) src) (fun r w' => changed w w' q i src r.1 r.2) w.
Proof.
  intros Hw HI Ha E Hc Hi Hnone Hfd. unfold copyin_new.
  destruct (has (flags src) EV_ADD) eqn:Hadd.
  2: { unfold set_errno. wp_simpl. by apply changed_fail. }
  wp_simpl. apply wp_knote_new.
  2: { intros e k. unfold set_errno. wp_simpl.
       apply (changed_fail w (set_w_os k w)); [|by eapply pi_stable; [exact HI|apply plat_os]|by split|done|done].
       by eapply winv_frame; [apply (frame_os 1)|]. }
  intros k. wp_go. simpl. rewrite insert_insert_eq.
  change (set_w_knotes _ _) with (fresh_world w k src q). set (w2 := fresh_world w k src q).
  destruct (fresh_world_ok w k src q i x o Hw HI Ha Hi Hfd) as (Hw2 & HI2 & Hs2 & Hd2 & Ha2 & Hcb2).
  fold w2 in Hw2, HI2, Hs2, Hd2, Ha2, Hcb2.
  pose proof Ha2 as (kq2 & E2 & _ & Ei2 & Ho2 & _). eapply wp_filt_ops; [done..|].
  pose proof (slot_contract I _ _ _ Ho2) as Hfc. wp_simpl.
  assert (Ek2 : w_knotes w2 !! w_next w = Some (new_knote src q)) by (simpl; by rewrite lookup_insert_eq).
  assert (Hab : absent w2 q i (w_next w)) by (by eapply absent_fresh).
  eapply wp_mono; [|apply fc_create; try done; by rewrite Ek2].
  intros rv w3 (Hf3 & Hfail & Hlink).
  pose proof (winv_frame _ _ _ Hf3 Hw2) as Hw3.
  destruct (frame_kn _ _ _ _ Hf3 Ek2) as (kn3 & Ek3 & Hc3).
  assert (Hs3 : step_q q w w3) by (etrans; [exact Hs2|by eapply step_of_frame]).
  assert (Hv3 : forall j, view w3 q j = view w q j).
  { intros j. rewrite (view_frame _ _ _ _ _ Hf3). by apply view_of_eq. }
  destruct (Z.ltb_spec rv 0) as [Hneg|Hpos].
  - unfold errno. wp_simpl. injection Hc3 as _ _ Hrf Hkq _. simpl in Hrf, Hkq.
    eapply (wp_retire I _ _ w3 q (w_next w) kn3); try done; [by apply Hfail|by eapply detached_frame|lia| |].
    { by apply Hfail. }
    intros w4 Hw4 HI4 Hs4 Hkq4 _ _ _. unfold set_errno. wp_simpl. apply changed_fail; try done.
    + by etrans.
    + intros j. rewrite <- Hv3. by apply view_of_eq.
  - destruct (frame_kq _ _ _ _ _ Hf3 E2) as (kq3 & E3 & Hcm). injection Hcm as _ _ _ _ Hcnt _.
    eapply copyin_added_ok; try done; [by eapply at_slot_frame|].
    assert (kq2 = kq) as -> by (simpl in E2; congruence). lia.
Qed.

Lemma changed_of_kept w w' q i src p :
  kept I w w' q p -> view w q i !! ident src = Some p -> has (flags src) EV_DELETE = false ->
  forall rv, changed w w' q i src rv (Some p).
Proof.
  intros Hk Hp Hd rv. split; [apply Hk|apply Hk|apply Hk| |].
  - rewrite (kept_view _ _ _ _ _ i Hk). by apply ch_keep.
  - intros j _. apply (kept_view _ _ _ _ _ j Hk).
Qed.

(** A knote of the slot, seen through the map. *)
Lemma view_knote w q i x o k p :
  winv w -> at_slot w q i x o -> view w q i !! k = Some p ->
  Entry k p ∈ elements (kf_index x) /\ exists kn, w_knotes w !! p = Some kn /\
    kn_kq kn = Some q /\ ident (kev kn) = k /\ Z.lnot (filter_ (kev kn)) = Z.of_nat i.
Proof.
  intros Hw Ha Hp. apply (view_lookup _ _ _ _ _ _ _ Hw Ha) in Hp. split; [done|].
  pose proof (slot_kn _ _ _ _ (at_slot_ok _ _ _ _ _ Hw Ha)) as Hk. rewrite Forall_forall in Hk.
  destruct (Hk _ Hp) as (kn & Ek & Hi & Hf & Hq & _). by exists kn.
Qed.

Lemma copyin_modify_ok w q i x o src p :
  winv w -> I w -> at_slot w q i x o -> view w q i !! ident src = Some p ->
  Z.lnot (filter_ src) = Z.of_nat i ->
  wp (copyin_modify (q, i) p src) (fun _ w' => kept I w w' q p) w.
Proof.
  intros Hw HI Ha Hp Hi. destruct (view_knote _ _ _ _ _ _ _ Hw Ha Hp) as (Hin & kn & Ek & Hq & Hid & Hf).
  pose proof Ha as (kq & E & Hl & Ei & Ho & Hz). unfold copyin_modify. wp_simpl.
  eapply wp_filt_ops; [done..|]. pose proof (slot_contract I _ _ _ Ho) as Hfc. wp_simpl.
  destruct (entry_cb_pre _ _ _ _ _ _ Hw Ha Hin) as [Hcb _].
  eapply wp_mono; [|apply fc_modify; try done; [exact (entry_listed w q i x o _ Hw Ha Hin)|]].
  2: { simpl. intros kn' Ek'. simplify_eq. split; [done|]. unfold Z.lnot in *. lia. }
  intros rv w1 [Hf1 HI1]. pose proof (kept_frame I _ _ _ _ _ Hw Hf1 HI1 Ek Hq) as Hk1.
  destruct (rv =? 0); [|by wp_simpl].
  destruct (frame_kn _ _ _ _ Hf1 Ek) as (kn1 & Ek1 & Hc1). wp_go.
  eapply kept_trans; [exact Hk1|]. injection Hc1 as _ _ _ Hq1 _.
  apply (kept_upd I w1 q p kn1); try done; [apply Hk1|congruence|..];
    by destruct (has (flags src) EV_ADD).
Qed.

Lemma copyin_existing_ok w q i x o src p :
  winv w -> I w -> at_slot w q i x o -> view w q i !! ident src = Some p ->
  Z.lnot (filter_ src) = Z.of_nat i ->
  wp (copyin_existing (q, i) p src) (fun rv w' => changed w w' q i src rv (Some p)) w.
Proof.
  intros Hw HI Ha Hp Hi. destruct (view_knote _ _ _ _ _ _ _ Hw Ha Hp) as (Hin & kn & Ek & _).
  unfold copyin_existing. destruct (has (flags src) EV_DELETE) eqn:Hdel.
  { pose proof Hin as (l1 & l2 & He)%list_elem_of_split.
    eapply wp_mono; [|by eapply (knote_delete_ok I w q i x o (Entry (ident src) p) l1 l2)].
    intros rv w' [Hrv Hd]. destruct (deleted_view I _ _ _ _ _ _ _ _ _ _ Hw Ha He Hd) as [Hv Hvs].
    split; [apply Hd|apply Hd|apply Hd| |done]. rewrite Hv. by apply ch_delete. }
  destruct (has (flags src) EV_DISABLE).
  { eapply wp_mono; [|by eapply (knote_disable_ok I w q i x o (Entry (ident src) p))].
    intros rv w' [Hk _]. by eapply changed_of_kept. }
  assert (Hen : wp (if has (flags src) EV_ENABLE then knote_enable (q, i) p else ret 0)
                  (fun _ w1 => kept I w w1 q p) w).
  { destruct (has (flags src) EV_ENABLE); [|by apply kept_refl].
    eapply wp_mono; [|by eapply (knote_enable_ok I w q i x o (Entry (ident src) p))].
    by intros rv w' [Hk _]. }
  wp_simpl. eapply wp_mono; [|exact Hen]. intros rv w1 Hk1.
  destruct (negb (rv =? 0)); [wp_simpl; by eapply changed_of_kept|].
  destruct (wants_modify src); [|wp_simpl; by eapply changed_of_kept].
  destruct (at_slot_step _ _ _ _ _ _ Ha (ke_step _ _ _ _ _ Hk1)) as (x1 & Ha1).
  eapply wp_mono; [|eapply (copyin_modify_ok w1 q i x1 o src p); try apply Hk1; try done].
  2: { by rewrite (kept_view _ _ _ _ _ i Hk1). }
  intros rv' w2 Hk2. apply (changed_of_kept w w2 q i src p); [|done|done]. by apply (kept_trans I w w1 w2).
Qed.

(** ** Routing a change to its filter *)

(** Every slot is empty or holds a registered filter of the build. *)
Definition usable (kq : kqueue) : Prop :=
  forall i x, kq_filt kq !! i = Some x ->
    kf_id x = 0 /\ kf_impl x = None \/ kf_id x <> 0 /\ is_Some (slot_ops i x).

Lemma usable_tabled kq : usable kq -> tabled kq.
Proof. intros Hu i x Hi Hz. by destruct (Hu i x Hi) as [[? _]|[_ ?]]. Qed.

(** The slot a change is for, or the errno with which it is refused. *)
Definition route (kq : kqueue) src : Z + nat :=
  if has (flags src) EV_DISPATCH && has (flags src) EV_ONESHOT then inl EINVAL
  else if (Z.lnot (filter_ src) <? 0) || (EVFILT_SYSCOUNT <=? Z.lnot (filter_ src)) then inl EINVAL
  else match kq_filt kq !! Z.to_nat (Z.lnot (filter_ src)) ≫= kf_impl with
       | None => inl ENOSYS
       | Some _ => inr (Z.to_nat (Z.lnot (filter_ src)))
       end.

Lemma usable_fixed kq kq' : kq_fixed kq' = kq_fixed kq -> usable kq -> usable kq'.
Proof.
  intros Hf Hu i x Hi. injection Hf as _ _ _ _ Hf. apply (f_equal (lookup i)) in Hf.
  rewrite !list_lookup_fmap, Hi in Hf. destruct (kq_filt kq !! i) as [x0|] eqn:E; [|done].
  simpl in Hf. injection Hf as Hid Him. unfold slot_ops. rewrite Hid, Him in *. by apply (Hu i x0).
Qed.

Lemma kevent_copyin_one_ok w q kq src :
  winv w -> I w -> w_kqs w !! q = Some kq -> kq_locked kq = true -> usable kq ->
  kq_knote_count kq < INT_MAX -> fd_ident src ->
  wp (kevent_copyin_one q src) (fun r w' =>
    match route kq src with
    | inl e => r = (-1, None) /\ w' = set_w_errno e w
    | inr i => Z.lnot (filter_ src) = Z.of_nat i /\ changed w w' q i src r.1 r.2
    end) w.
Proof.
  intros Hw HI E Hl Hu Hc Hfd. unfold kevent_copyin_one, route.
  destruct (has (flags src) EV_DISPATCH && has (flags src) EV_ONESHOT); [done|].
  unfold filter_lookup.
  destruct ((Z.lnot (filter_ src) <? 0) || (EVFILT_SYSCOUNT <=? Z.lnot (filter_ src))) eqn:Hr.
  { unfold set_errno. by wp_simpl. }
  apply orb_false_iff in Hr as [Hr1 Hr2]. apply Z.ltb_ge in Hr1. apply Z.leb_gt in Hr2.
  set (i := Z.to_nat (Z.lnot (filter_ src))).
  destruct (lookup_lt_is_Some_2 (kq_filt kq) i) as [x Hx].
  { rewrite (inv_slots _ _ _ (wi_kq _ Hw _ _ E)). unfold i. lia. }
  rewrite Hx. simpl. wp_go. destruct (kf_impl x) as [id|] eqn:Hid.
  2: { unfold set_errno. by wp_simpl. }
  wp_simpl. destruct (Hu i x Hx) as [[_ Hn]|[Hz [o Ho]]]; [congruence|].
  assert (Ha : at_slot w q i x o) by (by exists kq).
  assert (Hi : Z.lnot (filter_ src) = Z.of_nat i) by (unfold i; lia).
  eapply wp_knote_lookup; [done|done|]. destruct (view w q i !! ident src) as [p|] eqn:Hp.
  - wp_simpl. eapply wp_mono; [|by eapply copyin_existing_ok]. intros rv w' Hch. by wp_simpl.
  - eapply wp_mono; [|by eapply copyin_new_ok]. done.
Qed.

(** ** The number of knotes *)

Lemma index_size m q i x : slot_ok m q i x -> size (index_of x) = rb_size (kf_index x).
Proof.
  intros [[Hs _] _ _ _]. unfold index_of, to_map. rewrite map_size_fmap, map_size_list_to_map.
  - by rewrite length_fmap.
  - rewrite <- list_fmap_compose. by apply sortedZ_NoDup.
Qed.

Definition registered (w : world K) (q : ptr) : nat :=
  sum_list ((fun i => size (view w q i)) <$> seq 0 (Z.to_nat EVFILT_SYSCOUNT)).

Lemma sum_list_pointwise (f g : nat -> nat) l (d : nat) i :
  NoDup l -> (forall j, j <> i -> f j = g j) -> (f i <= g i + d)%nat ->
  (sum_list (f <$> l) <= sum_list (g <$> l) + d)%nat.
Proof.
  intros Hnd Hne Hi. induction l as [|j l IH]; [simpl; lia|].
  rewrite !fmap_cons. change (sum_list (?a :: ?b)) with (a + sum_list b)%nat.
  apply NoDup_cons in Hnd as [Hj Hnd]. destruct (decide (j = i)) as [->|Hji].
  - assert (Heq : f <$> l = g <$> l).
    { apply list_fmap_ext. intros k y Hk. apply Hne. intros ->. apply Hj. by eapply list_elem_of_lookup_2. }
    rewrite Heq. lia.
  - rewrite (Hne j Hji). specialize (IH Hnd). lia.
Qed.

Lemma count_registered w q kq :
  winv w -> w_kqs w !! q = Some kq -> kq_knote_count kq = Z.of_nat (registered w q).
Proof.
  intros Hw E. pose proof (wi_kq _ Hw _ _ E) as [Hlen Hs Hc]. rewrite Hc. f_equal.
  unfold knotes_of, registered. f_equal. rewrite <- Hlen. apply list_eq. intros i.
  rewrite !list_lookup_fmap. destruct (kq_filt kq !! i) as [x|] eqn:Ei.
  - rewrite lookup_seq_lt by (by eapply lookup_lt_Some). simpl. f_equal.
    rewrite (view_slot _ _ _ _ _ E Ei). symmetry. by eapply index_size, Hs.
  - rewrite lookup_seq_ge by (by apply lookup_ge_None). done.
Qed.

Lemma changed_count w w' q kq kq' i src rv out :
  winv w -> changed w w' q i src rv out -> w_kqs w !! q = Some kq -> w_kqs w' !! q = Some kq' ->
  kq_knote_count kq' <= kq_knote_count kq + 1.
Proof.
  intros Hw [A B C D F] E E'. rewrite (count_registered _ _ _ Hw E), (count_registered _ _ _ A E').
  assert (Hle : (registered w' q <= registered w q + 1)%nat); [|lia].
  apply (sum_list_pointwise _ _ _ 1 i); [apply NoDup_seq|intros j Hj; by rewrite F|].
  cbn beta. generalize dependent (view w' q i). intros v' D.
  destruct D as [| |p rv' Hn Ha|p rv' Hp Hd|p rv' Hp Hd]; try lia.
  - rewrite map_size_insert_None by done. lia.
  - rewrite map_size_delete_Some by eauto. lia.
Qed.

(** A result of 1 comes with a knote that can be read. *)
Lemma changed_out w w' q kq i src out :
  w_kqs w !! q = Some kq -> kq_locked kq = true -> usable kq -> route kq src = inr i ->
  changed w w' q i src 1 out -> exists p kn, out = Some p /\ w_knotes w' !! p = Some kn /\
    ident (kev kn) = ident src /\ Z.lnot (filter_ (kev kn)) = Z.of_nat i.
Proof.
  intros E Hl Hu Hr [A B C D F]. destruct (step_self _ _ _ _ C E) as (kq' & E' & Hfx).
  assert (Hp : exists p, out = Some p /\ view w' q i !! ident src = Some p).
  { clear F. generalize dependent (view w' q i). intros v' D.
    inversion D as [| |p rv' Hn Ha|p rv' Hp Hd|p rv' Hp Hd]; subst; try done; exists p;
      [by rewrite lookup_insert_eq|done]. }
  destruct Hp as (p & -> & Hp). unfold view in Hp.
  destruct (slot_of w' q i) as [x'|] eqn:Hx'; simpl in Hp; [|by rewrite lookup_empty in Hp].
  pose proof (slot_of_ok _ _ _ _ A Hx') as Hok.
  apply (index_of_lookup _ _ _ _ _ _ Hok) in Hp. pose proof (slot_kn _ _ _ _ Hok) as Hk.
  rewrite Forall_forall in Hk. destruct (Hk _ Hp) as (kn & Ek & Hid & Hf & _). by exists p, kn.
Qed.

(** ** The change list *)

(** A kqueue on which [n] more changes may be made. *)
Definition ready (w : world K) (q : ptr) (n : nat) : Prop :=
  winv w /\ I w /\ exists kq, w_kqs w !! q = Some kq /\ kq_locked kq = true /\ usable kq /\
    kq_knote_count kq + Z.of_nat n <= INT_MAX.

(** [step_q], up to the caller's memory. *)
Definition stepm (q : ptr) (w w' : world K) : Prop := step_q q w (set_w_mem (w_mem w) w').

Lemma stepm_trans q w1 w2 w3 : stepm q w1 w2 -> stepm q w2 w3 -> stepm q w1 w3.
Proof.
  intros [A1 B1 C1 D1 M1 E1 F1 G1 H1] [A2 B2 C2 D2 M2 E2 F2 G2 H2]. unfold stepm.
  split; simpl in *; try congruence; [| |lia].
  - intros r Hr. by rewrite B2, B1.
  - intros p kn Hp Hk. by apply C2; [apply C1|].
Qed.

Lemma stepm_step q w w' m e : step_q q w w' -> stepm q w (set_w_mem m (set_w_errno e w')).
Proof. intros []. by split. Qed.

Lemma ready_upd w q n m e : ready w q n -> ready (set_w_mem m (set_w_errno e w)) q n.
Proof.
  intros (Hw & HI & Hk). split_and!; [|eapply pi_stable; [exact HI|]; by split|done].
  destruct Hw. by split.
Qed.

Lemma ready_changed w w' q n kq i src rv out :
  ready w q (S n) -> w_kqs w !! q = Some kq -> changed w w' q i src rv out -> ready w' q n.
Proof.
  intros (Hw & HI & kq0 & E0 & Hl & Hu & Hc) E Hch. assert (kq0 = kq) as -> by congruence.
  destruct (step_self _ _ _ _ (cg_step _ _ _ _ _ _ _ Hch) E) as (kq' & E' & Hfx).
  pose proof (changed_count _ _ _ _ _ _ _ _ _ Hw Hch E E') as Hle. pose proof (usable_fixed _ _ Hfx Hu).
  injection Hfx as _ Hl' _ _ _. split_and!; [apply Hch|apply Hch|].
  exists kq'. split_and!; try done; [congruence|lia].
Qed.

(** The event a change is answered with, [w1] being the state after it. *)
Definition entry_of (w1 : world K) src (rv : Z) (out : option ptr) : option kevent :=
  if rv =? 1 then
    (fun kn => set_flags (setb (flags (kev kn)) EV_RECEIPT) (kev kn)) <$>
      (out ≫= fun p => w_knotes w1 !! p)
  else if rv <? 0 then Some (receipt src (w_errno w1))
  else if has (flags src) EV_RECEIPT then Some (receipt src 0) else None.

(** The changes [srcs] applied in order, with their answers [es]; between two
    changes only the caller's memory and errno are touched. *)
Inductive copyin_trace (q : ptr) : world K -> list kevent -> list kevent -> world K -> Prop :=
  | tr_nil w : copyin_trace q w [] [] w
  | tr_cons w src rv out w1 m e srcs es w' :
      kevent_copyin_one q src w = Ret (rv, out) w1 ->
      copyin_trace q (set_w_mem m (set_w_errno e w1)) srcs es w' ->
      copyin_trace q w (src :: srcs) (option_list (entry_of w1 src rv out) ++ es) w'.

Lemma copyin_one_ready w q n src :
  ready w q (S n) -> fd_ident src -> wp (kevent_copyin_one q src) (fun r w1 =>
    ready w1 q n /\ step_q q w w1 /\
    (r.1 = 1 -> exists p kn, r.2 = Some p /\ w_knotes w1 !! p = Some kn)) w.
Proof.
  intros Hr Hfd. pose proof Hr as (Hw & HI & kq & E & Hl & Hu & Hc).
  eapply wp_mono; [|apply (kevent_copyin_one_ok w q kq); try done; lia].
  intros [rv out] w1 Hpost. destruct (route kq src) as [e|i] eqn:Hro.
  - destruct Hpost as [[= -> ->] ->]. split_and!; [|by split|done].
    apply (ready_upd w q n (w_mem w) e). split_and!; [done|done|]. exists kq. split_and!; try done. lia.
  - destruct Hpost as [Hi Hch]. split_and!; [by eapply ready_changed|apply Hch|].
    simpl in *. intros ->. destruct (changed_out _ _ _ _ _ _ _ E Hl Hu Hro Hch) as (p & kn & -> & Ek & _).
    eauto.
Qed.

(** The postcondition of a round that has written the entry [k]. *)
Lemma copyin_entry e w q n el_p el_end src rv out w1 k w' :
  kevent_copyin_one q src w = Ret (rv, out) w1 -> entry_of w1 src rv out = Some k ->
  el_p < el_end -> w_mem w1 = w_mem w ->
  (forall m e, ready (set_w_mem m (set_w_errno e w1)) q n /\ stepm q w (set_w_mem m (set_w_errno e w1))) ->
  w' = set_w_mem (<[el_p := k]> (w_mem w1)) (set_w_errno e w1) ->
  ready w' q n /\ stepm q w w' /\
  (Some (el_p + 1) = None -> el_p = el_end /\ w_mem w' = w_mem w) /\
  forall el', Some (el_p + 1) = Some el' -> exists rv out w1 m e,
    kevent_copyin_one q src w = Ret (rv, out) w1 /\ w' = set_w_mem m (set_w_errno e w1) /\
    match entry_of w1 src rv out with
    | None => el' = el_p /\ m = w_mem w
    | Some k => el' = el_p + 1 /\ el_p < el_end /\ m = <[el_p := k]> (w_mem w)
    end.
Proof.
  intros Hrun Hent Hlt Hm Hst ->. split_and!; try apply Hst; try done. intros el' [= <-].
  eexists rv, out, w1, _, e. by rewrite Hent, Hm.
Qed.

Lemma copyin_step_ok w q n cl_p el_p el_end src :
  ready w q (S n) -> w_mem w !! cl_p = Some src -> fd_ident src -> el_p <= el_end ->
  (forall a, el_p <= a < el_end -> is_Some (w_mem w !! a)) ->
  wp (copyin_step q cl_p el_p el_end) (fun r w' => ready w' q n /\ stepm q w w' /\
    (r = None -> el_p = el_end /\ w_mem w' = w_mem w) /\
    forall el', r = Some el' -> exists rv out w1 m e,
      kevent_copyin_one q src w = Ret (rv, out) w1 /\ w' = set_w_mem m (set_w_errno e w1) /\
      match entry_of w1 src rv out with
      | None => el' = el_p /\ m = w_mem w
      | Some k => el' = el_p + 1 /\ el_p < el_end /\ m = <[el_p := k]> (w_mem w)
      end) w.
Proof.
  intros Hr Hsrc Hfd Hle Hval. unfold copyin_step. wp_simpl. eapply wp_load; [done|].
  pose proof (copyin_one_ready w q n src Hr Hfd) as Hone. apply wp_elim in Hone as ([rv out] & w1 & Hrun & Hr1 & Hs1 & Hout).
  wp_simpl. eapply wp_run; [exact Hrun|]. simpl in *. pose proof (sq_mem _ _ _ Hs1) as Hm1.
  assert (Hst : forall m e, ready (set_w_mem m (set_w_errno e w1)) q n /\
    stepm q w (set_w_mem m (set_w_errno e w1))).
  { intros m e. split; [by apply ready_upd|by apply stepm_step]. }
  assert (Hst' : ready w1 q n /\ stepm q w w1).
  { split; [done|]. destruct Hs1. by split. }
  assert (Hent := eq_refl (entry_of w1 src rv out)). unfold entry_of at 2 in Hent. revert Hent.
  destruct (Z.eqb_spec rv 1) as [->|Hn1].
  { intros Hent. destruct (Z.eqb_spec el_p el_end) as [Hend|Hend].
    - unfold set_errno. wp_simpl. destruct (Hst (w_mem w1) EFAULT). split_and!; done.
    - destruct (Hout eq_refl) as (p & kn & -> & Ek). wp_simpl. wp_go. simpl in Hent. rewrite Ek in Hent.
      destruct (Hval el_p) as [k0 Hk0]; [lia|]. eapply wp_store; [simpl; by rewrite Hm1|]. wp_simpl.
      by eapply (copyin_entry (w_errno w1)); [exact Hrun|exact Hent|lia|done|done|destruct w1]. }
  destruct (Z.ltb_spec rv 0) as [Hneg|Hpos].
  { intros Hent. destruct (Z.eqb_spec el_p el_end) as [Hend|Hend].
    - wp_simpl. destruct Hst'. split_and!; try done.
    - unfold errno, set_errno. wp_simpl. eapply wp_load; [simpl; by rewrite Hm1|]. wp_simpl.
      destruct (Hval el_p) as [k0 Hk0]; [lia|]. eapply wp_store; [simpl; by rewrite Hm1|]. wp_simpl.
      by eapply (copyin_entry 0); [exact Hrun|exact Hent|lia|done|done|]. }
  destruct (has (flags src) EV_RECEIPT) eqn:Hrec; intros Hent; wp_simpl;
    (eapply wp_load; [simpl; by rewrite Hm1|]); rewrite Hrec.
  - destruct (Z.eqb_spec el_p el_end) as [Hend|Hend].
    + unfold set_errno. wp_simpl. destruct (Hst (w_mem w1) EFAULT). split_and!; done.
    + wp_simpl. destruct (Hval el_p) as [k0 Hk0]; [lia|]. eapply wp_store; [simpl; by rewrite Hm1|]. wp_simpl.
      by eapply (copyin_entry (w_errno w1)); [exact Hrun|exact Hent|lia|done|done|destruct w1].
  - wp_simpl. destruct Hst'. split_and!; try done. intros el' [= <-].
    exists rv, out, w1, (w_mem w1), (w_errno w1). rewrite Hent. split_and!; [done|by destruct w1|done|done].
Qed.

Lemma entry_of_length w1 src rv out : (length (option_list (entry_of w1 src rv out)) <= 1)%nat.
Proof. destruct (entry_of w1 src rv out); simpl; lia. Qed.

(** The event list holds [es] from [el_p] on, and nothing else was written. *)
Definition written (w w' : world K) (el_p : Z) (es : list kevent) : Prop :=
  (forall j k, es !! j = Some k -> w_mem w' !! (el_p + Z.of_nat j) = Some k) /\
  (forall a, a < el_p \/ el_p + Z.of_nat (length es) <= a -> w_mem w' !! a = w_mem w !! a).

Lemma written_cons w w1 w' el_p o es :
  w_mem w1 = match o with Some k => <[el_p := k]> (w_mem w) | None => w_mem w end ->
  written w1 w' (el_p + Z.of_nat (length (option_list o))) es ->
  written w w' el_p (option_list o ++ es).
Proof.
  intros Hm [Ha Hb]. destruct o as [k|]; simpl in *.
  2: { split; [intros j k Hj; rewrite <- (Ha j k Hj); f_equal; lia|].
       intros a Hr. rewrite Hb by lia. by rewrite Hm. }
  split.
  - intros [|j] k' Hj; simpl in Hj.
    + simplify_eq. rewrite Hb, Hm by lia. by rewrite Z.add_0_r, lookup_insert_eq.
    + rewrite <- (Ha j k' Hj). f_equal. lia.
  - intros a Hr. simpl in Hr. rewrite Hb by lia. rewrite Hm. rewrite lookup_insert_ne by lia. done.
Qed.

Lemma copyin_loop_ok srcs : forall w q cl_p el_p el_end,
  ready w q (length srcs) -> Forall fd_ident srcs ->
  (forall j s, srcs !! j = Some s -> w_mem w !! (cl_p + Z.of_nat j) = Some s) ->
  el_p <= el_end -> (forall a, el_p <= a < el_end -> is_Some (w_mem w !! a)) ->
  el_p <= cl_p \/ cl_p + Z.of_nat (length srcs) <= el_p ->
  wp (copyin_loop q (length srcs) cl_p el_p el_end) (fun r w' =>
    ready w' q 0 /\ stepm q w w' /\
    (r = None -> el_end - el_p < Z.of_nat (length srcs)) /\
    forall el', r = Some el' -> exists es, copyin_trace q w srcs es w' /\
      el' = el_p + Z.of_nat (length es) /\ el' <= el_end /\ written w w' el_p es) w.
Proof.
  induction srcs as [|src srcs IH]; intros w q cl_p el_p el_end Hr Hfd Hcl Hle Hval Hdis.
  { simpl. wp_simpl. split_and!; [done|by split|done|]. intros el' [= <-]. exists [].
    split_and!; [constructor|simpl; lia|done|by split]. }
  apply Forall_cons in Hfd as [Hfd1 Hfds]. simpl. wp_simpl. simpl in Hdis. assert (Hsrc : w_mem w !! cl_p = Some src).
  { rewrite <- (Z.add_0_r cl_p). by apply (Hcl O). }
  eapply wp_mono; [|by eapply (copyin_step_ok w q (length srcs))].
  intros r w1 (Hr1 & Hs1 & Hnone & Hsome). destruct r as [el1|].
  2: { wp_simpl. split_and!; [|done|simpl; destruct (Hnone eq_refl); lia|done].
       destruct Hr1 as (? & ? & kq & ? & ? & ? & ?). split_and!; try done. exists kq.
       split_and!; try done. lia. }
  destruct (Hsome _ eq_refl) as (rv & out & w0 & m & e & Hrun & -> & Hent).
  set (o := entry_of w0 src rv out) in *.
  assert (Hm : m = match o with Some k => <[el_p := k]> (w_mem w) | None => w_mem w end)
    by (destruct o; naive_solver).
  assert (Hel : el1 = el_p + Z.of_nat (length (option_list o)) /\ el1 <= el_end)
    by (destruct o; simpl; destruct Hent as [-> Hent]; [destruct Hent|]; lia).
  destruct Hel as [Hel Hel1]. pose proof (entry_of_length w0 src rv out) as Hlen. fold o in Hlen.
  assert (Hlk : forall a, a <> el_p -> m !! a = w_mem w !! a).
  { intros a Ha. rewrite Hm. destruct o; [by rewrite lookup_insert_ne by lia|done]. }
  eapply wp_mono; [|apply (IH _ q (cl_p + 1) el1 el_end Hr1 Hfds)]; simpl; try lia.
  - intros r w2 (Hr2 & Hs2 & Hn2 & Hs'). split_and!; [done|by eapply stepm_trans| |].
    + intros ->. specialize (Hn2 eq_refl). lia.
    + intros el' ->. destruct (Hs' _ eq_refl) as (es & Htr & Hel' & Hle' & Hwr).
      exists (option_list o ++ es). split_and!.
      * by eapply tr_cons.
      * rewrite length_app. lia.
      * done.
      * eapply written_cons; [|rewrite <- Hel; exact Hwr]. done.
  - intros j s Hj. pose proof (lookup_lt_Some _ _ _ Hj). rewrite Hlk by lia. rewrite <- (Hcl (S j) s Hj). f_equal. lia.
  - intros a Ha. destruct (decide (a = el_p)) as [->|Hne]; [|rewrite Hlk by lia; apply Hval; lia].
    rewrite Hm. destruct o; [rewrite lookup_insert_eq; eauto|apply Hval; lia].
Qed.

(** ** The whole call *)

(** A kqueue with the caller [me] inside [kevent()]. *)
Definition inside (w : world K) (q me : ptr) (locked : bool) : Prop :=
  winv w /\ I w /\ exists kq, w_kqs w !! q = Some kq /\ kq_locked kq = locked /\ usable kq /\
    me ∈ ks_id <$> kq_inflight kq.

(** A timeout of at most 2^53 seconds, whose milliseconds fit a [long]. *)
Definition timeout_ok (ts : option timespec) : Prop :=
  match ts with
  | Some t => 0 <= tv_sec t <= 2 ^ 53 /\ 0 <= tv_nsec t < 1000000000
  | None => True
  end.

(** What [kevent()] relies on: the entry hook registers the caller; a wait returns and
    keeps the invariant, the caller's registration and the validity of memory; when what
    it reported is deliverable ([kc_ready], which the platform chooses), [kevent_copyout]
    fills at most the entries it was given; the exit hook removes the caller. *)
Class KeventContract :=
  { kc_ready : world K -> ptr -> Z -> Prop;
    kc_enter : forall w q me kq, winv w -> I w -> w_kqs w !! q = Some kq ->
      kq_locked kq = true -> usable kq ->
      wp (kqueue_kevent_enter V q me) (fun _ w' => inside w' q me true /\ w_mem w' = w_mem w /\
        w_mtx w' = w_mtx w /\ exists kq', w_kqs w' !! q = Some kq' /\
        kq_knote_count kq' = kq_knote_count kq) w;
    kc_wait : forall w q me n ts, inside w q me false -> timeout_ok ts ->
      wp (kqops_kevent_wait V q n ts) (fun rv w' => inside w' q me false /\
        w_mtx w' = w_mtx w /\ (forall a, is_Some (w_mem w !! a) -> is_Some (w_mem w' !! a))) w;
    kc_copyout : forall w q me nready el n, inside w q me true -> 0 < nready ->
      kc_ready w q nready -> 0 < n ->
      (forall a, el <= a < el + n -> is_Some (w_mem w !! a)) ->
      wp (kqops_kevent_copyout V q nready el n) (fun rv w' => inside w' q me true /\
        w_mtx w' = w_mtx w /\ -1 <= rv <= n) w;
    kc_exit : forall w q me kq, inside w q me true -> w_kqs w !! q = Some kq ->
      wp (kqueue_kevent_exit V q me) (fun _ w' => winv w' /\ I w' /\ w_mtx w' = w_mtx w /\
        exists kq', w_kqs w' !! q = Some kq' /\ kq_locked kq' = true /\ usable kq' /\
          kq_freeing kq' = kq_freeing kq /\
          ks_id <$> kq_inflight kq' = base.filter (fun r => r <> me) (ks_id <$> kq_inflight kq)) w;
    kc_interrupt : forall m w q, kqops_kqueue_interrupt V = Some m -> is_Some (w_kqs w !! q) ->
      wp (m q) (fun _ w' => exists k e, w' = set_w_os k (set_w_errno e w)) w;
    kc_kqueue_free : forall w q kq, winv w -> I w -> w_kqs w !! q = Some kq ->
      kq_locked kq = true -> kq_inflight kq = [] ->
      kq_filt kq = replicate (Z.to_nat EVFILT_SYSCOUNT) filter_zero ->
      wp (kqops_kqueue_free V q) (fun _ w' => winv w' /\ I w' /\ globals w' = globals w /\
        w_knotes w' = w_knotes w /\
        exists kq', w_kqs w' !! q = Some kq' /\ kq_locked kq' = true /\ kq_filt kq' = kq_filt kq /\
        kq_knote_count kq' = kq_knote_count kq) w }.

Context `{!VtableContract I V} `{!KeventContract}.

(** Taking and leaving the mutex of a kqueue. *)
Lemma set_locked_ok w q kq b :
  winv w -> I w -> w_kqs w !! q = Some kq ->
  winv (set_w_kqs (<[q := set_kq_locked b kq]> (w_kqs w)) w) /\
  I (set_w_kqs (<[q := set_kq_locked b kq]> (w_kqs w)) w).
Proof.
  intros Hw HI E. split; [by eapply winv_kq|]. eapply pi_stable; [exact HI|]. by eapply plat_kq.
Qed.

Lemma inside_lock w q me b c :
  inside w q me b -> exists kq, w_kqs w !! q = Some kq /\ kq_locked kq = b /\
    inside (set_w_kqs (<[q := set_kq_locked c kq]> (w_kqs w)) w) q me c.
Proof.
  intros (Hw & HI & kq & E & Hl & Hu & Hin). exists kq. split_and!; try done.
  destruct (set_locked_ok w q kq c Hw HI E) as [Hw' HI']. split_and!; [done|done|].
  exists (set_kq_locked c kq). split_and!; try done. simpl. by rewrite lookup_insert_eq.
Qed.

(** Destroying a kqueue: its knotes go with it. *)
Lemma kqueue_destroy_ok w q kq :
  winv w -> I w -> w_kqs w !! q = Some kq -> kq_locked kq = true -> kq_inflight kq = [] -> tabled kq ->
  wp (kqueue_destroy V q) (fun _ w' => winv w' /\ I w' /\ globals w' = globals w /\
    w_kqs w' !! q = None /\
    (forall j x e kn, slot_of w q j = Some x -> e ∈ elements (kf_index x) ->
       w_knotes w !! e_ptr e = Some kn -> kn_ref kn = 1 -> w_knotes w' !! e_ptr e = None) /\
    (forall p kn, w_knotes w !! p = Some kn -> kn_kq kn <> Some q -> w_knotes w' !! p = Some kn)) w.
Proof.
  intros Hw HI E Hl Hnil Ht. unfold kqueue_destroy. wp_simpl.
  eapply wp_mono; [|by apply (filter_unregister_all_ok V I w q kq)].
  intros u w1 (Hw1 & HI1 & Hm1 & (kq1 & E1 & Hl1 & Hc1 & Hin1 & _ & Hf1) & _ & Hkn1 & Hfree1). wp_simpl.
  eapply wp_mono; [|eapply kc_kqueue_free; [done..|congruence|done]].
  intros u2 w2 (Hw2 & HI2 & Hm2 & Hk2 & kq2 & E2 & Hl2 & _). wp_simpl.
  eapply wp_kqueue_unlock; [done..|]. destruct (set_locked_ok w2 q kq2 false Hw2 HI2 E2) as [Hw3 HI3].
  unfold free_kq. wp_go. split_and!.
  - simpl. rewrite delete_insert_eq. by apply winv_kq_free.
  - simpl. rewrite delete_insert_eq. by apply pi_kq_free.
  - unfold globals in *. simpl. congruence.
  - simpl. by rewrite lookup_delete_eq.
  - simpl. rewrite Hk2. apply Hfree1.
  - simpl. rewrite Hk2. apply Hkn1.
Qed.

(** The caller's arrays: [srcs] is the change list, whose descriptors are ints,
    the event list is writable, and an event list that overlaps the change list
    does not run ahead of it. *)
Definition arrays (m : gmap Z kevent) (cl : Z) (srcs : list kevent) (el el_end : Z) : Prop :=
  (forall j s, srcs !! j = Some s -> m !! (cl + Z.of_nat j) = Some s) /\ el <= el_end /\
  (forall a, el <= a < el_end -> is_Some (m !! a)) /\
  (el <= cl \/ cl + Z.of_nat (length srcs) <= el) /\ Forall fd_ident srcs.

Lemma stepm_inside w w' q me :
  stepm q w w' -> winv w' -> I w' -> inside w q me true -> inside w' q me true.
Proof.
  intros Hs Hw' HI' (_ & _ & kq & E & Hl & Hu & Hin).
  destruct (step_self _ _ _ _ Hs E) as (kq' & E' & Hfx). simpl in E'. split_and!; [done|done|].
  exists kq'. pose proof (usable_fixed _ _ Hfx Hu). injection Hfx as _ Hl' _ Hin' _.
  split_and!; try done; congruence.
Qed.

Lemma kevent_copyin_ok w q me kq cl srcs el el_end :
  inside w q me true -> w_kqs w !! q = Some kq ->
  kq_knote_count kq + Z.of_nat (length srcs) <= INT_MAX -> arrays (w_mem w) cl srcs el el_end ->
  wp (kevent_copyin q cl (Z.of_nat (length srcs)) el (el_end - el)) (fun rv w' =>
    inside w' q me true /\ w_mtx w' = w_mtx w /\ -1 <= rv <= el_end - el /\
    (Z.of_nat (length srcs) <= el_end - el -> rv <> -1) /\
    (forall a, is_Some (w_mem w !! a) -> rv <> -1 -> is_Some (w_mem w' !! a)) /\
    (rv <> -1 -> exists es, copyin_trace q w srcs es w' /\ rv = Z.of_nat (length es) /\
       written w w' el es)) w.
Proof.
  intros Hin E Hc (Hcl & Hle & Hval & Hdis & Hfd). unfold kevent_copyin. wp_simpl. rewrite Nat2Z.id.
  replace (el + (el_end - el)) with el_end by lia.
  eapply wp_mono; [|apply copyin_loop_ok; try done].
  2: { destruct Hin as (Hw & HI & kq0 & E0 & Hl & Hu & _). split_and!; [done|done|].
       exists kq0. split_and!; try done. assert (kq0 = kq) as -> by congruence. done. }
  intros r w' ((Hw' & HI' & _) & Hs & Hn & Hsm). wp_simpl.
  split_and!; [by eapply stepm_inside|apply (sq_mtx _ _ _ Hs)|..].
  all: destruct r as [el'|]; [destruct (Hsm _ eq_refl) as (es & Htr & -> & Hle' & Hwr)|].
  all: try (intros; lia); try (intros; specialize (Hn eq_refl); lia); try done.
  - intros a Ha _. destruct (decide (el <= a < el + Z.of_nat (length es))) as [Hr|Hr].
    + destruct (lookup_lt_is_Some_2 es (Z.to_nat (a - el))) as [k Hk]; [lia|].
      pose proof (proj1 Hwr _ _ Hk) as Hk'. replace (el + Z.of_nat (Z.to_nat (a - el))) with a in Hk' by lia.
      by rewrite Hk'.
    + by rewrite (proj2 Hwr) by lia.
  - intros _. exists es. split_and!; [done|lia|done].
Qed.

(** The changes of a call: a NULL change list with [nchanges = 0] has none. *)
Lemma copyin_or_skip w q me kq cl srcs el el_end :
  inside w q me true -> w_kqs w !! q = Some kq ->
  kq_knote_count kq + Z.of_nat (length srcs) <= INT_MAX -> arrays (w_mem w) cl srcs el el_end ->
  wp (kevent_changes q cl (Z.of_nat (length srcs)) el el_end) (fun rv w' => inside w' q me true /\ w_mtx w' = w_mtx w /\ -1 <= rv <= el_end - el /\
        (forall a, is_Some (w_mem w !! a) -> rv <> -1 -> is_Some (w_mem w' !! a))) w.
Proof.
  intros Hin E Hc Ha. unfold kevent_changes. destruct (Z.ltb_spec 0 (Z.of_nat (length srcs))) as [Hpos|Hz].
  - eapply wp_mono; [|by eapply kevent_copyin_ok]. intros rv w' (A1 & A2 & A3 & _ & A5 & _). done.
  - wp_simpl. destruct Ha as (_ & Hle & _). split_and!; try done; lia.
Qed.

(** The state in which the call waits: the changes are made and the mutex is left. *)
Definition waits_in q cl n el el_end w w2 : Prop :=
  exists rv w1, kevent_changes q cl n el el_end w = Ret rv w1 /\ 0 <= rv < el_end - el /\
    kqueue_unlock q w1 = Ret tt w2.

(** What a wait from [w2] reports is deliverable once the mutex is taken again. *)
Definition reports_ready q n ts w2 : Prop :=
  forall rv w3 w4, kqops_kevent_wait V q n ts w2 = Ret rv w3 -> 0 < rv ->
    kqueue_lock q w3 = Ret tt w4 -> kc_ready w4 q rv.

Lemma kevent_body_ok w q me kq cl srcs el el_end n ts :
  inside w q me true -> w_kqs w !! q = Some kq ->
  kq_knote_count kq + Z.of_nat (length srcs) <= INT_MAX -> arrays (w_mem w) cl srcs el el_end ->
  timeout_ok ts ->
  (forall w2, waits_in q cl (Z.of_nat (length srcs)) el el_end w w2 -> reports_ready q n ts w2) ->
  wp (kevent_body q cl (Z.of_nat (length srcs)) el el_end n ts) (fun rv w' =>
    inside w' q me true /\ w_mtx w' = w_mtx w /\ rv <= el_end - el) w.
Proof.
  intros Hin E Hc Ha Hts Hrep. unfold kevent_body. rewrite wp_bind.
  eapply wp_mono; [|by apply wp_ran; eapply copyin_or_skip]. intros rv w1 [Hrun1 (Hin1 & Hm1 & Hrv & Hv1)].
  destruct (Z.ltb_spec rv 0) as [Hneg|Hpos]; [wp_simpl; split_and!; [done|done|lia]|].
  destruct (Z.ltb_spec 0 (el_end - (el + rv))) as [Hroom|Hfull]; [|wp_simpl; split_and!; [done|done|lia]].
  destruct (inside_lock w1 q me true false Hin1) as (kq1 & E1 & Hl1 & Hin2). wp_simpl.
  set (w2 := set_w_kqs _ w1) in *. assert (Hun : kqueue_unlock q w1 = Ret tt w2) by (by eapply kqueue_unlock_run).
  apply (wp_run _ _ _ _ _ Hun). wp_simpl.
  eapply wp_mono; [|by apply wp_ran, kc_wait]. intros rvw w3 [Hrun3 (Hin3 & Hm3 & Hv3)]. wp_simpl.
  destruct (inside_lock w3 q me false true Hin3) as (kq3 & E3 & Hl3 & Hin4).
  set (w4 := set_w_kqs _ w3) in *. assert (Hlk : kqueue_lock q w3 = Ret tt w4) by (by eapply kqueue_lock_run).
  apply (wp_run _ _ _ _ _ Hlk). simpl in Hm3.
  destruct (Z.ltb_spec 0 rvw) as [Hw|Hw]; [|wp_simpl; split_and!; [done|simpl; congruence|lia]].
  wp_simpl. destruct Ha as (_ & Hle & Hval & _).
  eapply wp_mono; [|apply (kc_copyout _ q me rvw); [done|done| |lia|]].
  - intros rvc w5 (Hin5 & Hm5 & Hrc). wp_simpl. simpl in Hm5. split_and!; [done|congruence|].
    destruct (Z.leb_spec 0 rvc); lia.
  - eapply (Hrep w2); [|exact Hrun3|done|exact Hlk]. exists rv, w1. split_and!; [done|lia..|done].
  - intros a Haa. simpl. apply Hv3. simpl. apply Hv1; [apply Hval; lia|lia].
Qed.

Lemma kevent_out_ok w q me kq rv :
  inside w q me true -> w_kqs w !! q = Some kq ->
  wp (kevent_out q me rv) (fun r w' => r = rv /\ winv w' /\ I w' /\ w_mtx w' = w_mtx w /\
    (w_kqs w' !! q = None <-> kq_freeing kq = true /\ forall s, s ∈ kq_inflight kq -> ks_id s = me) /\
    forall kq', w_kqs w' !! q = Some kq' -> kq_locked kq' = false /\ me ∉ ks_id <$> kq_inflight kq') w.
Proof.
  intros Hin E. unfold kevent_out. wp_simpl. eapply wp_mono; [|by apply kc_exit].
  intros u w1 (Hw1 & HI1 & Hm1 & kq1 & E1 & Hl1 & Hu1 & Hfr & Hfl). wp_go.
  assert (Hme : me ∉ ks_id <$> kq_inflight kq1).
  { rewrite Hfl. intros [Hne _]%list_elem_of_filter. done. }
  assert (Hlast : kq_inflight kq1 = [] <-> forall s, s ∈ kq_inflight kq -> ks_id s = me).
  { split.
    - intros Hnil s Hs. rewrite Hnil in Hfl. simpl in Hfl. symmetry in Hfl.
      destruct (decide (ks_id s = me)) as [|Hne]; [done|]. exfalso.
      assert (ks_id s ∈ @nil ptr) as Hn; [|by apply elem_of_nil in Hn]. rewrite <- Hfl.
      apply list_elem_of_filter. split; [done|]. by apply list_elem_of_fmap_2.
    - intros Hall. apply (fmap_nil_inv ks_id). rewrite Hfl.
      apply elem_of_nil_inv. intros r [Hne (s & -> & Hs)%list_elem_of_fmap]%list_elem_of_filter. by apply Hne, Hall. }
  eapply wp_kqueue_unlock; [done..|]. destruct (set_locked_ok w1 q kq1 false Hw1 HI1 E1) as [Hw2 HI2].
  wp_simpl. destruct (kq_freeing kq1 && bool_decide (kq_inflight kq1 = [])) eqn:Hb.
  2: { wp_simpl. split_and!; try done; simpl; rewrite lookup_insert_eq.
       - split; [done|]. intros [Hf Hall%Hlast]. rewrite Hfr, Hf, Hall in Hb. done.
       - by intros kq' [= <-]. }
  apply andb_true_iff in Hb as [Hb1 Hb2%bool_decide_eq_true].
  unfold kqueue_complete_deferred_free. wp_simpl.
  eapply wp_kqueue_lock; [simpl; by rewrite lookup_insert_eq|done|]. simpl. rewrite insert_insert_eq.
  change (set_w_kqs ?a (set_w_kqs ?b w1)) with (set_w_kqs a w1).
  change (set_kq_locked true (set_kq_locked false kq1)) with (set_kq_locked true kq1).
  destruct (set_locked_ok w1 q kq1 true Hw1 HI1 E1) as [Hw3 HI3].
  eapply wp_mono; [|eapply kqueue_destroy_ok; [done|done|simpl; by rewrite lookup_insert_eq|done|done|]].
  2: { apply usable_tabled. exact Hu1. }
  intros u2 w4 (Hw4 & HI4 & Hg4 & Hgone & _). wp_simpl. injection Hg4 as Hm4 _ _. simpl in Hm4.
  split_and!; try done; [congruence| |intros kq' E'; congruence].
  split; [|done]. intros _. split; [congruence|by apply Hlast].
Qed.
End Kevent.
