(* ===== verification/Lifecycle.v ===== *)
(** * Claims about changes, calls and the life of a kqueue

    The theorems on src/common/knote.c, filter.c, kevent.c and kqueue.c, against
    any platform and any filters that keep the contracts of [Ops] and [Kevent]:
    what one change does, what a change list does, that [kevent()] cannot
    fault, and when a kqueue is destroyed. *)

From Stdlib Require Import ZArith Lia Bool.
From stdpp Require Import base list gmap.
From S2P Require Import Prelude RBTree Event Map State Ops Knote Filter Kqueue Kevent.

Section Lifecycle.
Context {K : Type} `{OS K} `{FilterList K} (V : kqueue_vtable K).
Context (I : world K -> Prop) `{!BuildContract I} `{!VtableContract I V} `{!KeventContract V I}.
Implicit Types (w : world K) (p q me : ptr).

(** The kqueue a descriptor stands for. *)
Definition mapped w (fd : Z) q : Prop :=
  in_array (w_kqmap w) fd = true /\ mdata (w_kqmap w) !! fd = Some q.

Lemma wp_kqueue_lookup (Q : option ptr -> world K -> Prop) w fd :
  is_int fd -> (forall q, mapped w fd q -> Q (Some q) w) ->
  ((forall q, ~ mapped w fd q) -> Q None w) -> wp (kqueue_lookup fd) Q w.
Proof.
  intros Hi H1 H2. unfold kqueue_lookup, wp, on_kqmap. rewrite map_lookup_run by done.
  assert (set_w_kqmap (w_kqmap w) w = w) as -> by (by destruct w).
  unfold mapped in *. destruct (in_array (w_kqmap w) fd) eqn:E; [|apply H2; naive_solver].
  destruct (mdata (w_kqmap w) !! fd) as [q|] eqn:El; [by apply H1|apply H2; naive_solver].
Qed.

Lemma wp_lock_global (Q : unit -> world K -> Prop) w :
  w_mtx w = false ->
  Q tt (if w_thread_safe w then set_w_mtx true w else w) -> wp lock_global Q w.
Proof.
  intros Hm HQ. unfold lock_global, mtx_lock. wp_simpl.
  destruct (w_thread_safe w); [|done]. wp_simpl. rewrite Hm. done.
Qed.

Lemma wp_unlock_global (Q : unit -> world K -> Prop) w :
  w_mtx w = w_thread_safe w -> Q tt (set_w_mtx false w) -> wp unlock_global Q w.
Proof.
  intros Hm HQ. unfold unlock_global, mtx_unlock. wp_simpl. rewrite <- Hm.
  destruct (w_mtx w) eqn:E; wp_simpl; [by rewrite E|].
  replace w with (set_w_mtx false w); [done|]. rewrite <- E. by destruct w.
Qed.

Lemma winv_mtx w b : winv w -> winv (set_w_mtx b w).
Proof. intros []. by split. Qed.

Lemma plat_mtx w b : I w -> I (set_w_mtx b w).
Proof. intros HI. eapply pi_stable; [exact HI|]. by split. Qed.

(** [kevent_begin] finds and enters the kqueue of a descriptor, or fails. *)
Lemma kevent_begin_ok w me fd :
  winv w -> I w -> w_mtx w = false -> is_int fd ->
  (forall q, mapped w fd q -> exists kq, w_kqs w !! q = Some kq /\ kq_locked kq = false /\ usable kq) ->
  wp (kevent_begin V me fd) (fun o w' => w_mtx w' = false /\ w_mem w' = w_mem w /\
    match o with
    | None => (forall q, ~ mapped w fd q) /\ winv w' /\ I w'
    | Some q => mapped w fd q /\ inside I w' q me true /\
        exists kq kq', w_kqs w !! q = Some kq /\ w_kqs w' !! q = Some kq' /\ kq_knote_count kq' = kq_knote_count kq
    end) w.
Proof.
  intros Hw HI Hm Hi Hmap. unfold kevent_begin. wp_simpl. apply wp_lock_global; [done|].
  set (w1 := if w_thread_safe w then set_w_mtx true w else w).
  assert (Hw1 : winv w1) by (unfold w1; destruct (w_thread_safe w); [by apply winv_mtx|done]).
  assert (HI1 : I w1) by (unfold w1; destruct (w_thread_safe w); [by apply plat_mtx|done]).
  assert (Hsame : w_mtx w1 = w_thread_safe w1 /\ w_kqs w1 = w_kqs w /\ w_mem w1 = w_mem w /\
    w_kqmap w1 = w_kqmap w) by (unfold w1; destruct (w_thread_safe w) eqn:Hts; simpl; by rewrite ?Hts).
  destruct Hsame as (Hm1 & Hk1 & Hme1 & Hmp1). clearbody w1. wp_simpl.
  apply wp_kqueue_lookup; [done| |].
  2: { intros Hno. unfold set_errno. wp_simpl. apply wp_unlock_global; [done|]. wp_simpl.
       split_and!; [done|done| | |apply plat_mtx; eapply pi_stable; [exact HI1|by split]].
       - intros q Hq. apply (Hno q). unfold mapped in *. by rewrite Hmp1.
       - apply winv_mtx. by eapply winv_frame; [apply (frame_errno 1)|]. }
  intros q Hq. assert (Hq0 : mapped w fd q) by (unfold mapped in *; by rewrite <- Hmp1).
  destruct (Hmap q Hq0) as (kq & E & Hl & Hu). rewrite <- Hk1 in E. wp_simpl.
  eapply wp_kqueue_lock; [done..|]. destruct (set_locked_ok I w1 q kq true Hw1 HI1 E) as [Hw2 HI2].
  wp_simpl. apply wp_unlock_global; [done|]. wp_simpl.
  set (w3 := set_w_mtx false _).
  assert (E3 : w_kqs w3 !! q = Some (set_kq_locked true kq)) by (simpl; by rewrite lookup_insert_eq).
  eapply wp_mono; [|eapply (kc_enter V I w3 q me); [exact (winv_mtx _ false Hw2)|exact (plat_mtx _ false HI2)|done|done|exact Hu]].
  intros u w4 (Hin4 & Hmem4 & Hmtx4 & kq4 & E4 & Hc4). wp_simpl. simpl in Hmem4, Hmtx4, Hc4.
  split_and!; [done|congruence|done|done|]. exists kq, kq4. rewrite <- Hk1. done.
Qed.

(** The whole call, for any platform that keeps the contracts: it returns, keeps the
    invariants, leaves no lock held and the caller outside, and returns no more events
    than fit, provided that what its own wait reports is deliverable. *)
Lemma kevent_ok w me fd cl srcs el nev ts :
  winv w -> I w -> w_mtx w = false -> is_int fd -> 0 <= nev -> timeout_ok ts ->
  (forall q, mapped w fd q -> exists kq, w_kqs w !! q = Some kq /\ kq_locked kq = false /\
     usable kq /\ kq_knote_count kq + Z.of_nat (length srcs) <= INT_MAX) ->
  let nv := match el with Some _ => Z.min nev MAX_KEVENT | None => nev end in
  let el_end := match el with Some a => a + nv | None => null_kev end in
  arrays (w_mem w) (default null_kev cl) srcs (default null_kev el) el_end ->
  (forall q w1 w2, kevent_begin V me fd w = Ret (Some q) w1 ->
     waits_in q (default null_kev cl) (Z.of_nat (length srcs)) (default null_kev el) el_end w1 w2 ->
     reports_ready V I q nv ts w2) ->
  wp (kevent_ V me fd cl (Z.of_nat (length srcs)) el nev ts) (fun rv w' =>
    winv w' /\ I w' /\ w_mtx w' = false /\
    rv <= (match el with Some _ => Z.min nev MAX_KEVENT | None => 0 end) /\
    forall q kq', mapped w fd q -> w_kqs w' !! q = Some kq' ->
      kq_locked kq' = false /\ me ∉ ks_id <$> kq_inflight kq') w.
Proof.
  intros Hw HI Hm Hi Hnev Htok Hmap nv el_end Harr Hrep. unfold kevent_.
  destruct (Z.ltb_spec (Z.of_nat (length srcs)) 0); [lia|].
  destruct (Z.ltb_spec nev 0); [lia|]. simpl orb. cbv iota. fold nv el_end. wp_simpl.
  eapply wp_mono; [|apply wp_ran, kevent_begin_ok; try done].
  2: { intros q Hq. destruct (Hmap q Hq) as (kq & ? & ? & ? & _). eauto. }
  intros o w4 [Hbeg (Hmtx4 & Hmem4 & Ho)]. destruct o as [q|].
  2: { destruct Ho as (Hno & Hw4 & HI4). wp_simpl. split_and!; [done|done|done| |].
       - destruct el; unfold MAX_KEVENT; lia.
       - intros q kq' Hq. by destruct (Hno q). }
  destruct Ho as (Hq & Hin4 & kq & kq4 & E & E4 & Hc4). wp_simpl.
  destruct (Hmap q Hq) as (kq0 & E0 & _ & _ & Hc). assert (kq0 = kq) as -> by congruence.
  eapply wp_mono; [|eapply (kevent_body_ok V I w4 q me kq4 _ srcs); [done|done|lia|by rewrite Hmem4|done|]].
  2: { intros w2. by apply Hrep. }
  intros rv w5 (Hin5 & Hmtx5 & Hrv). pose proof Hin5 as (_ & _ & kq5 & E5 & _).
  eapply wp_mono; [|by eapply kevent_out_ok].
  intros r w6 (-> & Hw6 & HI6 & Hmtx6 & _ & Hpost). split_and!; try done; [congruence| |].
  - unfold el_end, nv in Hrv. destruct el; simpl in *; lia.
  - intros q' kq' Hq' E'. assert (q' = q) as -> by (unfold mapped in *; naive_solver congruence).
    by apply Hpost.
Qed.

(** [kqueue_free] up to the test for callers inside [kevent()]. *)
Definition unlisted w q (kq : kqueue) : world K :=
  set_w_kqs (<[q := set_kq_locked true kq]> (w_kqs w))
    (set_w_kqmap (if in_array (w_kqmap w) (kq_id kq) && bool_decide (mdata (w_kqmap w) !! kq_id kq = Some q)
                  then Map (len (w_kqmap w)) (delete (kq_id kq) (mdata (w_kqmap w))) else w_kqmap w)
      (set_w_kq_list (base.filter (fun r => r <> q) (w_kq_list w))
        (set_w_kq_cnt (u32 (w_kq_cnt w - 1)) w))).

Lemma unlisted_mapped w q kq : ~ mapped (unlisted w q kq) (kq_id kq) q.
Proof.
  unfold mapped, unlisted. simpl. intros [Ha Hm].
  destruct (in_array (w_kqmap w) (kq_id kq)) eqn:Hi; simpl in *; [|congruence].
  case_bool_decide; simpl in *; [|done]. by rewrite lookup_delete_eq in Hm.
Qed.

Lemma unlisted_others w q kq fd r : r <> q -> mapped w fd r -> mapped (unlisted w q kq) fd r.
Proof.
  unfold mapped, unlisted. simpl. intros Hne [Ha Hm]. destruct (_ && _) eqn:Hb; [|done].
  apply andb_true_iff in Hb as [_ Hq%bool_decide_eq_true]. split; [done|]. simpl.
  rewrite lookup_delete_ne; [done|]. intros <-. congruence.
Qed.

Lemma unlisted_ok w q kq :
  winv w -> I w -> w_kqs w !! q = Some kq -> winv (unlisted w q kq) /\ I (unlisted w q kq).
Proof.
  intros Hw HI E. destruct (set_locked_ok I w q kq true Hw HI E) as [[A B C] HI'].
  split; [by split|]. eapply pi_stable; [exact HI'|]. by split.
Qed.

Lemma wp_kqueue_free (Q : unit -> world K -> Prop) w q kq :
  w_mtx w = true -> w_kqs w !! q = Some kq -> kq_locked kq = false -> is_int (kq_id kq) ->
  wp (match kq_inflight kq with
      | _ :: _ =>
          upd_kq q (set_kq_freeing true) ;;;
          match kqops_kqueue_interrupt V with Some m => m q | None => ret tt end ;;;
          kqueue_unlock q
      | [] => kqueue_destroy V q
      end) Q (unlisted w q kq) ->
  wp (kqueue_free V q) Q w.
Proof.
  intros Hm E Hl Hi HQ. unfold kqueue_free. wp_simpl. apply wp_assert. split; [done|]. wp_go.
  unfold wp at 1, on_kqmap. simpl. rewrite map_remove_run by done. unfold unlisted in HQ.
  destruct (in_array (w_kqmap w) (kq_id kq) && bool_decide (mdata (w_kqmap w) !! kq_id kq = Some q));
    wp_simpl; (eapply wp_kqueue_lock; [exact E|exact Hl|]); wp_go; exact HQ.
Qed.

(** C8: [kqueue_free] with no caller inside [kevent()] removes the descriptor's
    mapping, the kqueue, its entry in the list of kqueues and every knote it holds the
    last reference to, and leaves the mappings and the knotes of other kqueues alone. *)
Theorem kqueue_free_now w q kq :
  winv w -> I w -> w_mtx w = true -> w_kqs w !! q = Some kq -> kq_locked kq = false ->
  usable kq -> is_int (kq_id kq) -> kq_inflight kq = [] ->
  wp (kqueue_free V q) (fun _ w' => winv w' /\ I w' /\ w_kqs w' !! q = None /\
    ~ mapped w' (kq_id kq) q /\ (q ∉ w_kq_list w') /\
    (forall fd r, r <> q -> mapped w fd r -> mapped w' fd r) /\
    (forall j k p kn, view w q j !! k = Some p -> w_knotes w !! p = Some kn -> kn_ref kn = 1 ->
       w_knotes w' !! p = None) /\
    (forall p kn, w_knotes w !! p = Some kn -> kn_kq kn <> Some q -> w_knotes w' !! p = Some kn)) w.
Proof.
  intros Hw HI Hm E Hl Hu Hi Hnil. apply (wp_kqueue_free _ w q kq); try done. rewrite Hnil.
  destruct (unlisted_ok w q kq Hw HI E) as [Hw1 HI1].
  eapply wp_mono; [|eapply (kqueue_destroy_ok V I _ q (set_kq_locked true kq)); try done].
  2: { simpl. by rewrite lookup_insert_eq. }
  2: { by apply usable_tabled. }
  intros u w' (Hw' & HI' & Hg & Hgone & Hfree & Hkeep). injection Hg as _ Hmp Hls.
  pose proof (unlisted_mapped w q kq) as Hum. split_and!; try done.
  { unfold mapped in *. by rewrite Hmp. }
  { rewrite Hls. simpl. intros [? _]%list_elem_of_filter. done. }
  { intros fd r Hne Hr. pose proof (unlisted_others w q kq fd r Hne Hr) as Ho. unfold mapped in *. by rewrite Hmp. }
  intros j k p kn Hv Ek Hr. unfold view in Hv.
  destruct (slot_of w q j) as [x|] eqn:Hx; simpl in Hv; [|by rewrite lookup_empty in Hv].
  apply (index_of_lookup _ _ _ _ _ _ (slot_of_ok _ _ _ _ Hw Hx)) in Hv.
  apply (Hfree j x (Entry k p) kn); try done. unfold slot_of in *. simpl.
  rewrite lookup_insert_eq. simpl. by rewrite E in Hx.
Qed.

(** C9: [kqueue_free] while callers are inside [kevent()] destroys nothing: it
    unmaps the descriptor, marks the kqueue and leaves its filters, its knotes
    and the list of callers as they are, unlocked. *)
Theorem kqueue_free_deferred w q kq :
  winv w -> I w -> w_mtx w = true -> w_kqs w !! q = Some kq -> kq_locked kq = false ->
  is_int (kq_id kq) -> kq_inflight kq <> [] ->
  wp (kqueue_free V q) (fun _ w' => winv w' /\ I w' /\ ~ mapped w' (kq_id kq) q /\
    (q ∉ w_kq_list w') /\ w_knotes w' = w_knotes w /\
    w_kqs w' !! q = Some (set_kq_freeing true kq)) w.
Proof.
  intros Hw HI Hm E Hl Hi Hne. apply (wp_kqueue_free _ w q kq); try done.
  destruct (kq_inflight kq) as [|s l] eqn:Hf; [done|].
  destruct (unlisted_ok w q kq Hw HI E) as [Hw1 HI1]. pose proof (unlisted_mapped w q kq) as Hum.
  assert (Hnl : q ∉ w_kq_list (unlisted w q kq)) by (simpl; intros [? _]%list_elem_of_filter; done).
  assert (Hkn : w_knotes (unlisted w q kq) = w_knotes w) by done.
  assert (E1 : w_kqs (unlisted w q kq) !! q = Some (set_kq_locked true kq)) by (simpl; by rewrite lookup_insert_eq).
  set (w1 := unlisted w q kq) in *. clearbody w1. wp_go.
  set (kq2 := set_kq_freeing true (set_kq_locked true kq)).
  assert (Hint : wp (match kqops_kqueue_interrupt V with Some m => m q | None => ret tt end)
    (fun _ w3 => exists k e, w3 = set_w_os k (set_w_errno e (set_w_kqs (<[q:=kq2]> (w_kqs w1)) w1)))
    (set_w_kqs (<[q:=kq2]> (w_kqs w1)) w1)).
  { destruct (kqops_kqueue_interrupt V) as [m|] eqn:Hk; [|wp_simpl; exists (w_os w1), (w_errno w1); by destruct w1].
    apply (kc_interrupt V I); [done|]. simpl. by rewrite lookup_insert_eq. }
  eapply wp_mono; [|exact Hint]. intros u w3 (k & e & ->). wp_simpl.
  eapply wp_kqueue_unlock; [simpl; by rewrite lookup_insert_eq|done|]. simpl. rewrite insert_insert_eq.
  assert (set_kq_locked false kq2 = set_kq_freeing true kq) as -> by (destruct kq; simpl in *; by subst).
  split_and!; try done.
  - destruct (winv_kq w1 q _ (set_kq_freeing true kq) Hw1 E1) as [A B C]; [done|done|]. by split.
  - eapply pi_stable; [exact (pi_stable _ _ HI1 (plat_kq w1 q _ (set_kq_freeing true kq) E1 eq_refl eq_refl))|].
    by split.
  - simpl. by rewrite lookup_insert_eq.
Qed.

(** ** Changes *)

(** C2: one entry of a change list never faults.  A change that is malformed or
    names an unknown or unimplemented filter is refused with EINVAL or ENOSYS and
    changes nothing but errno; any other change keeps the invariant and does to
    the map from identifiers to knotes of its filter what [change_rel] says
    (EV_ADD on an absent identifier inserts it or fails, EV_DELETE removes it,
    everything else leaves it), and to no other filter or kqueue anything. *)
Theorem kevent_copyin_one_refines w q kq src :
  winv w -> I w -> w_kqs w !! q = Some kq -> kq_locked kq = true -> usable kq ->
  kq_knote_count kq < INT_MAX -> fd_ident src ->
  wp (kevent_copyin_one q src) (fun r w' =>
    match route kq src with
    | inl e => r = (-1, None) /\ w' = set_w_errno e w
    | inr i => winv w' /\ I w' /\ step_q q w w' /\
        change_rel src (view w q i) (view w' q i) r.1 r.2 /\
        forall j, j <> i -> view w' q j = view w q j
    end) w.
Proof.
  intros Hw HI E Hl Hu Hc Hfd. eapply wp_mono; [|by apply (kevent_copyin_one_ok I w q kq)].
  intros r w'. destruct (route kq src); [done|]. intros [_ [A B C D F]]. by split_and!.
Qed.

(** C11: [kq_knote_count] is, in every state that satisfies the invariant, the
    exact number of (filter, identifier) pairs registered in the kqueue, and a
    change adds at most one to it. *)
Theorem knote_count_exact w q kq src :
  winv w -> I w -> w_kqs w !! q = Some kq -> kq_locked kq = true -> usable kq ->
  kq_knote_count kq < INT_MAX -> fd_ident src ->
  kq_knote_count kq = Z.of_nat (registered w q) /\
  wp (kevent_copyin_one q src) (fun _ w' => exists kq', w_kqs w' !! q = Some kq' /\
    kq_knote_count kq' = Z.of_nat (registered w' q) /\
    (registered w' q <= S (registered w q))%nat) w.
Proof.
  intros Hw HI E Hl Hu Hc Hfd. split; [by apply count_registered|].
  eapply wp_mono; [|by apply (kevent_copyin_one_ok I w q kq)]. intros r w' Hpost.
  destruct (route kq src) as [e|i].
  - destruct Hpost as [_ ->]. exists kq. split_and!; [done|exact (count_registered w q kq Hw E)|].
    change (registered (set_w_errno e w) q) with (registered w q). lia.
  - destruct Hpost as [_ Hch]. destruct (step_self _ _ _ _ (cg_step _ _ _ _ _ _ _ _ Hch) E) as (kq' & E' & _).
    pose proof (changed_count I _ _ _ _ _ _ _ _ _ Hw Hch E E') as Hle.
    pose proof (count_registered _ _ _ (cg_winv _ _ _ _ _ _ _ _ Hch) E') as Hc'.
    pose proof (count_registered _ _ _ Hw E). exists kq'. split_and!; [done|done|lia].
Qed.

(** C7: with one array as change list and event list, with disjoint arrays, or
    with an event list that starts before the change list, [kevent_copyin]
    applies the changes as the caller wrote them, in order, and the first
    entries of the event list are exactly their answers, in order; nothing else
    of the caller's memory is written, and with room for one answer per change
    the call cannot fail. *)
Theorem kevent_copyin_in_order w q me kq cl srcs el el_end :
  inside I w q me true -> w_kqs w !! q = Some kq ->
  kq_knote_count kq + Z.of_nat (length srcs) <= INT_MAX -> arrays (w_mem w) cl srcs el el_end ->
  wp (kevent_copyin q cl (Z.of_nat (length srcs)) el (el_end - el)) (fun rv w' =>
    inside I w' q me true /\ -1 <= rv <= el_end - el /\
    (Z.of_nat (length srcs) <= el_end - el -> rv <> -1) /\
    (rv <> -1 -> exists es, copyin_trace q w srcs es w' /\ rv = Z.of_nat (length es) /\
       written w w' el es)) w.
Proof.
  intros Hin E Hc Ha. eapply wp_mono; [|by eapply (kevent_copyin_ok I w q me kq)].
  intros rv w' (A1 & _ & A3 & A4 & _ & A6). done.
Qed.

(** C13: a knote in the index is deleted without a fault: exactly its identifier
    leaves the map of its filter, the other filters and the other knotes are
    untouched, the invariant (and so the count) holds again, and the memory is
    freed when the index held the only reference. *)
Theorem knote_delete_refines w q i x o k p :
  winv w -> I w -> at_slot w q i x o -> view w q i !! k = Some p ->
  wp (knote_delete (q, i) p) (fun _ w' => winv w' /\ I w' /\ step_q q w w' /\
    view w' q i = delete k (view w q i) /\ (forall j, j <> i -> view w' q j = view w q j) /\
    (forall r, r <> p -> w_knotes w' !! r = w_knotes w !! r) /\
    (forall kn, w_knotes w !! p = Some kn -> kn_ref kn = 1 -> w_knotes w' !! p = None)) w.
Proof.
  intros Hw HI Ha Hp. apply (view_lookup _ _ _ _ _ _ _ Hw Ha) in Hp.
  apply list_elem_of_split in Hp as (l1 & l2 & He).
  eapply wp_mono; [|by eapply (knote_delete_ok I w q i x o (Entry k p) l1 l2)].
  intros rv w' [_ Hd]. destruct (deleted_view I _ _ _ _ _ _ _ _ _ _ Hw Ha He Hd) as [Hv Hvs].
  destruct Hd. by split_and!.
Qed.

(** C14: [filter_unregister_all] empties every filter before it destroys it (a
    filter's [kf_destroy] is only called when its index is empty), zeroes the
    array of filters, frees every knote the kqueue held the last reference to,
    and leaves other kqueues and their knotes alone. *)
Theorem filter_unregister_all_frees w q kq :
  winv w -> I w -> w_kqs w !! q = Some kq -> kq_locked kq = true -> usable kq ->
  wp (filter_unregister_all V q) (fun _ w' => winv w' /\ I w' /\
    (forall j, view w' q j = ∅) /\
    (exists kq', w_kqs w' !! q = Some kq' /\ kq_knote_count kq' = 0 /\
       kq_filt kq' = replicate (Z.to_nat EVFILT_SYSCOUNT) filter_zero) /\
    (forall r, r <> q -> kq_common <$> w_kqs w' !! r = kq_common <$> w_kqs w !! r) /\
    (forall p kn, w_knotes w !! p = Some kn -> kn_kq kn <> Some q -> w_knotes w' !! p = Some kn) /\
    (forall j k p kn, view w q j !! k = Some p -> w_knotes w !! p = Some kn -> kn_ref kn = 1 ->
       w_knotes w' !! p = None)) w.
Proof.
  intros Hw HI E Hl Hu.
  eapply wp_mono; [|apply (filter_unregister_all_ok V I w q kq); try done; by apply usable_tabled].
  intros u w' (Hw' & HI' & _ & (kq' & E' & _ & Hc & _ & _ & Hf) & Hoth & Hkeep & Hfree).
  split_and!; try done; [|by exists kq'|].
  - intros j. unfold view, slot_of. rewrite E'. simpl. rewrite Hf.
    destruct (replicate _ filter_zero !! j) as [x|] eqn:Hx; [|done].
    apply lookup_replicate in Hx as [-> _]. done.
  - intros j k p kn Hv Ek Hr. unfold view in Hv.
    destruct (slot_of w q j) as [x|] eqn:Hx; simpl in Hv; [|by rewrite lookup_empty in Hv].
    apply (index_of_lookup _ _ _ _ _ _ (slot_of_ok _ _ _ _ Hw Hx)) in Hv.
    by apply (Hfree j x (Entry k p) kn).
Qed.

(** What a delivered event does to its knote: EV_DISPATCH disables it and
    keeps it registered, EV_ONESHOT deletes it, neither leaves it as it is. *)
Theorem flag_actions w q i x o k p kn :
  winv w -> I w -> at_slot w q i x o -> view w q i !! k = Some p -> w_knotes w !! p = Some kn ->
  has (flags (kev kn)) EV_DISPATCH && has (flags (kev kn)) EV_ONESHOT = false ->
  wp (knote_copyout_flag_actions (q, i) p) (fun rv w' => winv w' /\ I w' /\ step_q q w w' /\
    (forall j, j <> i -> view w' q j = view w q j) /\
    (if has (flags (kev kn)) EV_ONESHOT then view w' q i = delete k (view w q i)
     else view w' q i = view w q i /\
       if has (flags (kev kn)) EV_DISPATCH
       then rv = 0 -> exists kn', w_knotes w' !! p = Some kn' /\ KNOTE_DISABLED kn' = true
       else rv = 0 /\ w' = w)) w.
Proof.
  intros Hw HI Ha Hp Ek Hx. apply (view_lookup _ _ _ _ _ _ _ Hw Ha) in Hp.
  unfold knote_copyout_flag_actions. wp_go. destruct (has (flags (kev kn)) EV_DISPATCH) eqn:Hdi.
  - simpl in Hx. rewrite Hx. eapply wp_mono; [|by eapply (knote_disable_ok I w q i x o (Entry k p))].
    intros rv w1 (Hk & _ & Hd & kn1 & Ek1 & Hkev). simpl in *. wp_go.
    assert (has (flags (kev kn1)) EV_ONESHOT = false) as ->.
    { destruct Hkev as [-> | ->]; [done|]. unfold KNOTE_DISABLE, upd_flags. simpl.
      by rewrite has_setb, Hx. }
    wp_simpl. split_and!; try apply Hk; try done; [intros j _|..]; by eapply kept_view.
  - wp_go. destruct (has (flags (kev kn)) EV_ONESHOT).
    + apply list_elem_of_split in Hp as (l1 & l2 & He).
      eapply wp_mono; [|by eapply (knote_delete_ok I w q i x o (Entry k p) l1 l2)].
      intros rv w' [_ Hd]. destruct (deleted_view I _ _ _ _ _ _ _ _ _ _ Hw Ha He Hd) as [Hv Hvs].
      destruct Hd. by split_and!.
    + wp_simpl. by split_and!.
Qed.

(** ** Leaving, and the results of a call *)

(** C10: on the way out of [kevent()], the kqueue is destroyed exactly when it was
    freed while callers were inside and this caller was the last of them;
    otherwise it stays, unlocked, without this caller. *)
Theorem kevent_last_out_frees w q me kq rv :
  inside I w q me true -> w_kqs w !! q = Some kq ->
  wp (kevent_out V q me rv) (fun r w' => r = rv /\ winv w' /\ I w' /\
    (w_kqs w' !! q = None <-> kq_freeing kq = true /\ forall s, s ∈ kq_inflight kq -> ks_id s = me) /\
    forall kq', w_kqs w' !! q = Some kq' -> kq_locked kq' = false /\ me ∉ ks_id <$> kq_inflight kq') w.
Proof.
  intros Hin E. eapply wp_mono; [|by eapply kevent_out_ok].
  intros r w' (A & B & C & _ & D & F). done.
Qed.

(** When the changes have put [n] answers in the event list, with room
    for more, and the wait ends without an event, [kevent()] returns 0: the
    caller is not told of the [n] answers. *)
Theorem timeout_drops_receipts w w1 w3 q cl nch el el_end nev ts n kq kq3 :
  0 < nch -> 0 < n < el_end - el -> kevent_copyin q cl nch el (el_end - el) w = Ret n w1 ->
  w_kqs w1 !! q = Some kq -> kq_locked kq = true ->
  kqops_kevent_wait V q nev ts (set_w_kqs (<[q := set_kq_locked false kq]> (w_kqs w1)) w1) = Ret 0 w3 ->
  w_kqs w3 !! q = Some kq3 -> kq_locked kq3 = false ->
  wp (kevent_body V q cl nch el el_end nev ts) (fun rv w' => rv = 0 /\ w_mem w' = w_mem w3) w.
Proof.
  intros Hnch Hn Hrun E Hl Hwait E3 Hl3. unfold kevent_body, kevent_changes.
  destruct (Z.ltb_spec 0 nch); [|lia]. wp_simpl. eapply wp_run; [exact Hrun|].
  destruct (Z.ltb_spec n 0); [lia|]. destruct (Z.ltb_spec 0 (el_end - (el + n))); [|lia]. wp_simpl.
  eapply wp_kqueue_unlock; [done..|]. wp_simpl. eapply wp_run; [exact Hwait|].
  wp_simpl. eapply wp_kqueue_lock; [done..|]. by wp_simpl.
Qed.

(** [kqueue_free_by_id] on a number outside the map: a platform that closes
    asynchronously ignores it, any other frees the address [(void * )-1]. *)
Theorem free_by_id_out_of_range w id :
  is_int id -> in_array (w_kqmap w) id = false ->
  kqueue_free_by_id V id w = (if kqops_close_async V then Ret tt w else Fault BadAddress).
Proof.
  intros Hi Ha. unfold kqueue_free_by_id, bind, on_kqmap. rewrite map_delete_run by done. rewrite Ha.
  assert (set_w_kqmap (w_kqmap w) w = w) as -> by (by destruct w).
  by destruct (kqops_close_async V).
Qed.
End Lifecycle.
