(* ===== verification/LibkqueueFilter.v ===== *)
(** * The EVFILT_LIBKQUEUE filter: src/common/libkqueue.c

    The filter through which a program reads the library's version and sets its
    process-wide switches.  The version constants and [NDEBUG] come from the
    build ([config.h], generated by CMake) and are a parameter.  The prefix and
    the callback of the debug output (src/common/debug.c) are not modelled:
    [NOTE_DEBUG_PREFIX] and [NOTE_DEBUG_FUNC] change nothing here. *)

From Stdlib Require Import ZArith Lia Bool.
From stdpp Require Import base list gmap.
From S2P Require Import Prelude RBTree Event Map State Ops Knote.

(** The constants of the generated [config.h]. *)
Record version := Version
  { LIBKQUEUE_VERSION_STRING : Z;      (** the address of the literal *)
    LIBKQUEUE_VERSION_MAJOR : Z;
    LIBKQUEUE_VERSION_MINOR : Z;
    LIBKQUEUE_VERSION_PATCH : Z;
    LIBKQUEUE_VERSION_RELEASE : option Z;
    NDEBUG : bool }.

Section Libkqueue.
Context {K : Type} `{OS K} (V : kqueue_vtable K) (C : version).
Implicit Types (w : world K) (p q : ptr) (f : filt_ref).

(** The number NOTE_VERSION answers with, in 32-bit arithmetic. *)
Definition version_number : Z :=
  Z.lor (Z.lor (Z.lor (u32 (Z.shiftl (u32 (LIBKQUEUE_VERSION_MAJOR C)) 24))
    (u32 (Z.shiftl (u32 (LIBKQUEUE_VERSION_MINOR C)) 16)))
    (u32 (Z.shiftl (u32 (LIBKQUEUE_VERSION_PATCH C)) 8)))
    (match LIBKQUEUE_VERSION_RELEASE C with Some r => u32 r | None => 0 end).

(** Exchange a global switch with the knote's [data]. *)
Definition swap_switch (get : world K -> bool) (set : bool -> world K -> world K) p
    : M (world K) Z :=
  let! old := gets get in
  let! kn := get_kn p in
  modify (set (0 <? data (kev kn))) ;;;
  upd_kn p (fun k => set_kev (set_data (Z.b2z old) (kev k)) k) ;;; ret 0.

(** [return (kn->kev.flags & EV_RECEIPT ? 1 : 0)] *)
Definition receipt_result p : M (world K) Z :=
  let! kn := get_kn p in ret (if has (flags (kev kn)) EV_RECEIPT then 1 else 0).

Definition common_libkqueue_knote_create f p : M (world K) Z :=
  let! kn := get_kn p in
  let ff := fflags (kev kn) in
  let! rv :=
    (if ff =? NOTE_VERSION_STR then
       upd_kn p (fun k => set_kev (set_flags (setb (flags (kev k)) EV_RECEIPT)
         (set_udata (LIBKQUEUE_VERSION_STRING C) (kev k))) k) ;;; ret 0
     else if ff =? NOTE_VERSION then
       upd_kn p (fun k => set_kev (set_flags (setb (flags (kev k)) EV_RECEIPT)
         (set_data version_number (kev k))) k) ;;; ret 0
     else if ff =? NOTE_THREAD_SAFE then swap_switch w_thread_safe set_w_thread_safe p
     else if ff =? NOTE_FORK_CLEANUP then swap_switch w_fork_cleanup set_w_fork_cleanup p
     else if ff =? NOTE_FILE_POLL_INTERVAL then
       match kqops_set_file_poll_interval V with
       | None => set_errno ENOSYS ;;; ret (-1)
       | Some m => let! rv := m f.1 (data (kev kn)) in ret (if rv <? 0 then -1 else 0)
       end
     else if negb (NDEBUG C) then
       if ff =? NOTE_DEBUG then swap_switch w_debug set_w_debug p
       else if ff =? NOTE_DEBUG_PREFIX then ret 0
       else if ff =? NOTE_DEBUG_FUNC then ret 0
       else ret (-1)
     else ret (-1)) in
  if rv =? 0 then receipt_result p else ret (-1).

Definition common_libkqueue_knote_copyout (dst nevents : Z) f (kn : option ptr)
    (ev : raw_event) : M (world K) Z := ret (-1).

Definition common_libkqueue_knote_modify f p (kev : kevent) : M (world K) Z :=
  upd_kn p (set_kev kev) ;;; common_libkqueue_knote_create f p.

Definition common_libkqueue_knote_delete f p : M (world K) Z := ret 0.
Definition common_libkqueue_knote_enable f p : M (world K) Z := ret 0.
Definition common_libkqueue_knote_disable f p : M (world K) Z := ret 0.

Definition evfilt_libkqueue : filter_src K :=
  FilterSrc EVFILT_LIBKQUEUE (FilterOps None None common_libkqueue_knote_copyout
    common_libkqueue_knote_create common_libkqueue_knote_modify common_libkqueue_knote_delete
    common_libkqueue_knote_enable common_libkqueue_knote_disable).

(** ** The contract *)

Context (I : world K -> Prop) `{!PlatInv I}.

(** A step of this filter on its knote: the platform's members stay. *)
Definition kept_plat (p : ptr) (w w' : world K) : Prop :=
  frame_ p w w' /\ kn_plat <$> w_knotes w' !! p = kn_plat <$> w_knotes w !! p.

#[local] Instance kept_plat_preorder p : PreOrder (kept_plat p).
Proof. split; [done|]. intros w1 w2 w3 [A1 B1] [A2 B2]. split; [by etrans|congruence]. Qed.

Lemma kept_plat_fds p w w' kn :
  kept_plat p w w' -> w_knotes w !! p = Some kn -> kn_fds <$> w_knotes w' !! p = Some (kn_fds kn).
Proof.
  intros [_ Hp] E. rewrite E in Hp. destruct (w_knotes w' !! p) as [kn'|]; [|done]. simpl in *.
  apply (inj Some), (f_equal kn_fds) in Hp. simpl in Hp. congruence.
Qed.

(** The platform's hook keeps the frame, where it exists. *)
Hypothesis poll_ok : forall m w p q v, kqops_set_file_poll_interval V = Some m -> winv w -> I w ->
  is_Some (w_kqs w !! q) -> wp (m q v) (fun _ w' => kept_plat p w w' /\ I w') w.

Lemma frame_kev p w kn k :
  w_knotes w !! p = Some kn -> ident k = ident (kev kn) -> filter_ k = filter_ (kev kn) ->
  let w' := set_w_knotes (<[p := set_kev k kn]> (w_knotes w)) w in kept_plat p w w' /\ plat_eq w w'.
Proof.
  intros E Hi Hf. assert (Hp : kn_plat (set_kev k kn) = kn_plat kn).
  { unfold kn_plat. simpl. by rewrite Hi, Hf. }
  split; [split|by eapply plat_knotes].
  - eapply frame_knotes; [exact E|]. unfold kn_common. simpl. congruence.
  - simpl. rewrite lookup_insert_eq, E. simpl. by f_equal.
Qed.

Lemma switch_frame p w w1 :
  w1 = set_w_thread_safe (w_thread_safe w1) (set_w_fork_cleanup (w_fork_cleanup w1)
    (set_w_debug (w_debug w1) w)) -> kept_plat p w w1 /\ plat_eq w w1.
Proof. intros ->. by split. Qed.

Lemma swap_switch_ok get set p kn w :
  I w -> w_knotes w !! p = Some kn ->
  (forall b, set b w = set_w_thread_safe (w_thread_safe (set b w))
    (set_w_fork_cleanup (w_fork_cleanup (set b w)) (set_w_debug (w_debug (set b w)) w))) ->
  wp (swap_switch get set p) (fun _ w' => kept_plat p w w' /\ I w') w.
Proof.
  intros HI E Hset. unfold swap_switch. wp_go.
  destruct (switch_frame p w (set (0 <? data (kev kn)) w) (Hset _)) as [Hf Hp].
  assert (E1 : w_knotes (set (0 <? data (kev kn)) w) !! p = Some kn) by (by rewrite Hset).
  wp_go. destruct (frame_kev p _ kn (set_data (Z.b2z (get w)) (kev kn)) E1 eq_refl eq_refl) as [Hf2 Hp2].
  split; [by etrans|]. eapply pi_stable; [|exact Hp2]. by eapply pi_stable.
Qed.

Lemma libkqueue_create_ok w q i p :
  winv w -> I w -> cb_pre w q i p ->
  wp (common_libkqueue_knote_create (q, i) p) (fun _ w' => kept_plat p w w' /\ I w') w.
Proof.
  intros Hw HI (kq & x & kn & E & _ & _ & Ek & _). unfold common_libkqueue_knote_create. wp_go.
  apply (wp_mono _ (fun _ w' => kept_plat p w w' /\ I w')).
  { intros rv w' [Hf HI']. destruct (rv =? 0); [|by wp_simpl]. pose proof Hf as [Hf0 _].
    destruct (frame_kn _ _ _ _ Hf0 Ek) as (kn' & Ek' & _). unfold receipt_result. by wp_go. }
  repeat match goal with |- context [if (?a =? ?b) then _ else _] => destruct (a =? b) end.
  - wp_go. destruct (frame_kev p w kn (set_flags (setb (flags (kev kn)) EV_RECEIPT)
      (set_udata (LIBKQUEUE_VERSION_STRING C) (kev kn))) Ek eq_refl eq_refl). split; [done|by eapply pi_stable].
  - wp_go. destruct (frame_kev p w kn (set_flags (setb (flags (kev kn)) EV_RECEIPT)
      (set_data version_number (kev kn))) Ek eq_refl eq_refl). split; [done|by eapply pi_stable].
  - by eapply swap_switch_ok.
  - by eapply swap_switch_ok.
  - destruct (kqops_set_file_poll_interval V) as [m|] eqn:Hm.
    + wp_simpl. eapply wp_mono; [|by eapply (poll_ok m w p q)]. intros rv w' Hx. by wp_simpl.
    + unfold set_errno. wp_simpl. split; [by split; [apply frame_errno|]|]. eapply pi_stable; [exact HI|apply plat_errno].
  - destruct (negb (NDEBUG C)); [by eapply swap_switch_ok|by wp_simpl].
  - destruct (negb (NDEBUG C)); by wp_simpl.
  - destruct (negb (NDEBUG C)); by wp_simpl.
  - destruct (negb (NDEBUG C)); by wp_simpl.
Qed.

#[export] Instance libkqueue_contract : FilterContract I 11 (fs_ops evfilt_libkqueue).
Proof.
  split; simpl; try done.
  { intros w q p Hw HI Hcb Hfds _. pose proof Hcb as (kq & x & kn & _ & _ & _ & Ek & _).
    eapply wp_mono; [|by apply libkqueue_create_ok]. intros rv w' [Hk HI'].
    split_and!; [apply Hk| |]; [|intros w2 Hl; by eapply pi_stable, linking_plat].
    intros _. split; [done|]. intros kn' Ek'. left. pose proof (kept_plat_fds _ _ _ _ Hk Ek) as Hx.
    rewrite Ek in Hfds. rewrite Ek' in Hx. simpl in *. congruence. }
  2: { intros w0 w q p _ Hw HI Hun (kq & x & kn & _ & _ & _ & Ek & _ & Hf & _). wp_simpl.
       assert (Ek0 : w_knotes w0 !! p = Some kn) by (by destruct Hun as (? & ? & ? & ? & ? & ? & ? & ? & ? & ? & -> & ?)).
       split_and!; [done|done| |].
       { eapply pi_unlink; [exact HI|exact Hun|exact Ek0|..]; unfold Z.lnot, EVFILT_READ, EVFILT_WRITE in *; lia. }
       intros kn' Ek'. simplify_eq. right. unfold Z.lnot, EVFILT_READ, EVFILT_WRITE in *. lia. }
  intros w q p k Hw HI Hcb _ Hk. unfold common_libkqueue_knote_modify.
  pose proof Hcb as (kq & x & kn & E & Hl & Ei & Ek & Hq & Hf & Hd).
  destruct (Hk kn Ek) as [Hki Hkf]. wp_go.
  destruct (frame_kev p w kn k Ek) as [[Hf1 _] Hp1]; [congruence..|].
  eapply wp_mono; [|apply libkqueue_create_ok; [by eapply winv_frame|by eapply pi_stable|by eapply cb_pre_frame]].
  intros rv w' [[Hf' _] HI']. split; [by etrans|done].
Qed.

(** ** What the requests answer *)

Lemma lor_shiftl a b n : 0 <= n -> 0 <= b < 2 ^ n -> Z.lor (Z.shiftl a n) b = a * 2 ^ n + b.
Proof.
  intros Hn Hb. pose proof (Z.add_lor_land (Z.shiftl a n) b) as Hadd.
  assert (Z.land (Z.shiftl a n) b = 0) as Hz.
  { apply Z.bits_inj'. intros k Hk. rewrite Z.land_spec, Z.bits_0.
    destruct (Z.lt_ge_cases k n); [by rewrite Z.shiftl_spec_low|].
    rewrite <- (Z.mod_small b (2 ^ n)) by lia. rewrite Z.mod_pow2_bits_high by lia. apply andb_false_r. }
  rewrite Z.shiftl_mul_pow2 in * by lia. lia.
Qed.

Definition is_byte (z : Z) : Prop := 0 <= z < 256.

Lemma version_number_eq :
  is_byte (LIBKQUEUE_VERSION_MAJOR C) -> is_byte (LIBKQUEUE_VERSION_MINOR C) ->
  is_byte (LIBKQUEUE_VERSION_PATCH C) -> is_byte (default 0 (LIBKQUEUE_VERSION_RELEASE C)) ->
  version_number = ((LIBKQUEUE_VERSION_MAJOR C * 256 + LIBKQUEUE_VERSION_MINOR C) * 256 +
    LIBKQUEUE_VERSION_PATCH C) * 256 + default 0 (LIBKQUEUE_VERSION_RELEASE C).
Proof.
  unfold is_byte, version_number, u32. intros H1 H2 H3 H4.
  assert ((match LIBKQUEUE_VERSION_RELEASE C with Some r => r mod 2 ^ 32 | None => 0 end) =
    default 0 (LIBKQUEUE_VERSION_RELEASE C)) as ->.
  { destruct (LIBKQUEUE_VERSION_RELEASE C); simpl in *; [|done]. rewrite Z.mod_small; lia. }
  set (a := LIBKQUEUE_VERSION_MAJOR C) in *. set (b := LIBKQUEUE_VERSION_MINOR C) in *.
  set (c := LIBKQUEUE_VERSION_PATCH C) in *. set (d := default 0 _) in *.
  rewrite (Z.mod_small a), (Z.mod_small b), (Z.mod_small c) by lia.
  rewrite !(Z.mod_small (Z.shiftl _ _)) by (rewrite Z.shiftl_mul_pow2 by lia; lia).
  replace (Z.shiftl a 24) with (Z.shiftl (Z.shiftl (Z.shiftl a 8) 8) 8) by (by rewrite !Z.shiftl_shiftl).
  replace (Z.shiftl b 16) with (Z.shiftl (Z.shiftl b 8) 8) by (by rewrite !Z.shiftl_shiftl).
  rewrite <- !Z.shiftl_lor. rewrite (lor_shiftl _ d) by lia. rewrite (lor_shiftl _ c) by lia.
  rewrite (lor_shiftl _ b) by lia. lia.
Qed.

(** C40: NOTE_VERSION is answered with a receipt whose [data] has the four parts
    of the version in its four bytes, most significant first. *)
Theorem version_bytes w f p kn :
  w_knotes w !! p = Some kn -> fflags (kev kn) = NOTE_VERSION ->
  is_byte (LIBKQUEUE_VERSION_MAJOR C) -> is_byte (LIBKQUEUE_VERSION_MINOR C) ->
  is_byte (LIBKQUEUE_VERSION_PATCH C) -> is_byte (default 0 (LIBKQUEUE_VERSION_RELEASE C)) ->
  wp (common_libkqueue_knote_create f p) (fun rv w' => rv = 1 /\
    exists k, w_knotes w' !! p = Some (set_kev k kn) /\
      has (flags k) EV_RECEIPT = true /\
      Z.shiftr (data k) 24 = LIBKQUEUE_VERSION_MAJOR C /\
      (Z.shiftr (data k) 16) mod 256 = LIBKQUEUE_VERSION_MINOR C /\
      (Z.shiftr (data k) 8) mod 256 = LIBKQUEUE_VERSION_PATCH C /\
      (data k) mod 256 = default 0 (LIBKQUEUE_VERSION_RELEASE C)) w.
Proof.
  intros E Hf H1 H2 H3 H4. unfold common_libkqueue_knote_create. wp_go. rewrite Hf. simpl.
  wp_go. unfold receipt_result. simpl. wp_go. simpl.
  assert (Hr : has (setb (flags (kev kn)) EV_RECEIPT) EV_RECEIPT = true) by (rewrite has_setb; apply orb_true_r).
  rewrite Hr. split; [done|]. eexists. rewrite lookup_insert_eq. split; [done|]. split; [done|].
  simpl. rewrite version_number_eq by done. unfold is_byte in *.
  rewrite !Z.shiftr_div_pow2 by lia. split_and!; Z.div_mod_to_equations; lia.
Qed.

(** NOTE_THREAD_SAFE exchanges the switch: it becomes whether [data] is
    positive and [data] becomes its old value; the result asks for a receipt
    exactly when the change did. *)
Lemma thread_safe_exchanged w f p kn :
  w_knotes w !! p = Some kn -> fflags (kev kn) = NOTE_THREAD_SAFE ->
  wp (common_libkqueue_knote_create f p) (fun rv w' =>
    w_thread_safe w' = (0 <? data (kev kn)) /\
    w_knotes w' !! p = Some (set_kev (set_data (Z.b2z (w_thread_safe w)) (kev kn)) kn) /\
    rv = Z.b2z (has (flags (kev kn)) EV_RECEIPT)) w.
Proof.
  intros E Hf. unfold common_libkqueue_knote_create. wp_go. rewrite Hf. simpl.
  unfold swap_switch. wp_go. wp_go. unfold receipt_result. simpl. wp_go. simpl. rewrite lookup_insert_eq.
  split_and!; [done|done|]. by destruct (has _ _).
Qed.
End Libkqueue.
