(* ===== verification/LinuxUdata.v ===== *)
(** * The life of an epoll_udata: src/linux/platform.c and platform.h

    What the kernel hands back with an event is the address of an
    [epoll_udata].  It outlives the knote it was registered for: EV_DELETE marks
    it stale and queues it on the kqueue, and the sweep at the end of a
    [kevent()] call frees what no caller still inside can hold.  This file has
    the operations on udatas and epochs, and the invariant [udata_inv] that the
    Linux filters keep. *)

From Stdlib Require Import ZArith Lia Bool.
From stdpp Require Import base list gmap.
From S2P Require Import Prelude RBTree Event Map State Ops Knote.

Definition UINT64_MAX : Z := 2 ^ 64 - 1.

Section Udata.
Context {K : Type} `{OS K}.
Implicit Types (w : world K) (p q : ptr).

Definition epoll_udata_alloc (type : epoll_udata_type) (parent : ud_union)
    : M (world K) (option ptr) :=
  let! r := alloc in
  match r with
  | None => ret None
  | Some u => put_ud u (EpollUdata type parent false 0) ;;; ret (Some u)
  end.

(** [free(p)] on a udata pointer that may be NULL. *)
Definition free_udata (o : option ptr) : M (world K) unit :=
  match o with Some u => free_ud u | None => ret tt end.

Definition epoll_udata_defer_free q (o : option ptr) : M (world K) unit :=
  kqueue_mutex_assert q ;;;
  match o with
  | None => ret tt
  | Some u =>
      let! d := get_ud u in
      assert_ (negb (ud_stale d)) ;;;
      let! kq := get_kq q in
      put_ud u (set_ud_boundary_epoch (kq_next_epoch kq) (set_ud_stale true d)) ;;;
      upd_kq q (fun kq => set_ud_deferred_free (ud_deferred_free kq ++ [u]) kq)
  end.

(** The macros of platform.h. *)
Definition KN_UDATA_ALLOC p : M (world K) (option ptr) :=
  let! u := epoll_udata_alloc EPOLL_UDATA_KNOTE (ud_kn p) in
  upd_kn p (set_kn_udata u) ;;; ret u.

Definition FDS_UDATA_ALLOC (s : ptr) : M (world K) (option ptr) :=
  let! u := epoll_udata_alloc EPOLL_UDATA_FD_STATE (ud_fds s) in
  let! d := get_fds s in
  put_fds s (set_fds_udata u d) ;;; ret u.

Definition EVENTFD_UDATA_ALLOC (f : filt_ref) : M (world K) (option ptr) :=
  let! u := epoll_udata_alloc EPOLL_UDATA_EVENT_FD (ud_efd f.1 f.2) in
  upd_filt f (set_efd_udata u) ;;; ret u.

Definition KN_UDATA_FREE p : M (world K) unit :=
  let! kn := get_kn p in
  free_udata (kn_udata kn) ;;; upd_kn p (set_kn_udata None).

Definition EVENTFD_UDATA_FREE (f : filt_ref) : M (world K) unit :=
  let! x := get_filt f in
  free_udata (efd_udata x) ;;; upd_filt f (set_efd_udata None).

Definition KN_UDATA_DEFER_FREE q p : M (world K) unit :=
  let! kn := get_kn p in
  epoll_udata_defer_free q (kn_udata kn) ;;; upd_kn p (set_kn_udata None).

Definition FDS_UDATA_DEFER_FREE q (s : ptr) : M (world K) unit :=
  let! d := get_fds s in
  epoll_udata_defer_free q (fds_udata d) ;;;
  let! d := get_fds s in put_fds s (set_fds_udata None d).

Definition EVENTFD_UDATA_DEFER_FREE q (f : filt_ref) : M (world K) unit :=
  let! x := get_filt f in
  epoll_udata_defer_free q (efd_udata x) ;;; upd_filt f (set_efd_udata None).

(** ** Epochs *)

(** The two loops of the sweep: [limit] is the epoch of the oldest caller. *)
Fixpoint sweep_loop q (limit : option Z) (l : list ptr) : M (world K) unit :=
  match l with
  | [] => ret tt
  | u :: l' =>
      let! d := get_ud u in
      if match limit with None => true | Some e => ud_boundary_epoch d <? e end then
        upd_kq q (set_ud_deferred_free l') ;;; free_ud u ;;; sweep_loop q limit l'
      else ret tt
  end.

Definition linux_kqueue_sweep_deferred q : M (world K) unit :=
  kqueue_mutex_assert q ;;;
  let! kq := get_kq q in
  sweep_loop q (epoch <$> head (kq_inflight kq)) (ud_deferred_free kq).

Definition linux_kqueue_epoch_rebase q : M (world K) unit :=
  kqueue_mutex_assert q ;;;
  let! kq := get_kq q in
  let base := match head (kq_inflight kq) with
              | Some s => u64 (epoch s - 1)
              | None => kq_next_epoch kq
              end in
  upd_kq q (fun kq => set_kq_inflight
    ((fun s => set_epoch (u64 (epoch s - base)) s) <$> kq_inflight kq) kq) ;;;
  for_each (A := unit) (fun u =>
    let! d := get_ud u in
    put_ud u (set_ud_boundary_epoch (u64 (ud_boundary_epoch d - base)) d) ;;; ret None)
    (ud_deferred_free kq) ;;;
  upd_kq q (fun kq => set_kq_next_epoch (u64 (kq_next_epoch kq - base)) kq).

(** [me] is the address of the caller's [struct kqueue_kevent_state]. *)
Definition linux_kevent_enter q (me : ptr) : M (world K) unit :=
  kqueue_mutex_assert q ;;;
  let! kq := get_kq q in
  (if kq_next_epoch kq =? UINT64_MAX then linux_kqueue_epoch_rebase q else ret tt) ;;;
  upd_kq q (fun kq =>
    let e := u64 (kq_next_epoch kq + 1) in
    set_kq_inflight (kq_inflight kq ++ [KeventState me e]) (set_kq_next_epoch e kq)).

(** [TAILQ_REMOVE] of an element that is not in the queue corrupts it. *)
Definition linux_kevent_exit q (me : ptr) : M (world K) unit :=
  kqueue_mutex_assert q ;;;
  let! kq := get_kq q in
  if decide (me ∈ ks_id <$> kq_inflight kq) then
    upd_kq q (fun kq => set_kq_inflight
      (base.filter (fun s => ks_id s <> me) (kq_inflight kq)) kq) ;;;
    linux_kqueue_sweep_deferred q
  else fail BadAddress.
End Udata.

(** ** The invariant of the Linux data *)

Section Inv.
Context {K : Type}.
Implicit Types (w : world K) (p q : ptr).

(** What the tree of fd_states promises of the node [e] with contents [d]. *)
Record node_ok (m : gmap ptr knote) q (e : entry) (d : fd_state) : Prop :=
  { no_fd : fds_fd d = e_key e;
    no_used : ~ (fds_read d = None /\ fds_write d = None);
    no_read : forall p, fds_read d = Some p -> exists kn, m !! p = Some kn /\ kn_kq kn = Some q /\
      kn_fds kn = Some (e_ptr e) /\ filter_ (kev kn) = EVFILT_READ;
    no_write : forall p, fds_write d = Some p -> exists kn, m !! p = Some kn /\ kn_kq kn = Some q /\
      kn_fds kn = Some (e_ptr e) /\ filter_ (kev kn) = EVFILT_WRITE }.

(** A udata in use belongs to one object, which it points back to; a queued one
    is stale, live, and queued once; the tree of fd_states and the knotes refer
    to each other; addresses from [w_next] on are unused. *)
Record linux_data w : Prop :=
  { li_kn : forall p kn u, w_knotes w !! p = Some kn -> kn_udata kn = Some u ->
      exists e, w_udatas w !! u = Some (EpollUdata EPOLL_UDATA_KNOTE (ud_kn p) false e);
    li_fds : forall s d u, w_fdss w !! s = Some d -> fds_udata d = Some u ->
      exists e, w_udatas w !! u = Some (EpollUdata EPOLL_UDATA_FD_STATE (ud_fds s) false e);
    li_wake : forall q kq u, w_kqs w !! q = Some kq -> kq_wake_udata kq = Some u ->
      exists e, w_udatas w !! u = Some (EpollUdata EPOLL_UDATA_KQ_WAKE (ud_kq q) false e);
    li_def : forall q kq u, w_kqs w !! q = Some kq -> u ∈ ud_deferred_free kq ->
      exists d, w_udatas w !! u = Some d /\ ud_stale d = true;
    li_nodup : forall q kq, w_kqs w !! q = Some kq -> NoDup (ud_deferred_free kq);
    li_disj : forall q q' kq kq' u, w_kqs w !! q = Some kq -> w_kqs w !! q' = Some kq' ->
      u ∈ ud_deferred_free kq -> u ∈ ud_deferred_free kq' -> q = q';
    li_fresh : forall p, (w_next w <= p)%positive -> w_udatas w !! p = None /\ w_fdss w !! p = None;
    li_tree : forall q kq, w_kqs w !! q = Some kq -> wf e_key (kq_fd_st kq);
    li_node : forall q kq e, w_kqs w !! q = Some kq -> e ∈ elements (kq_fd_st kq) ->
      exists d, w_fdss w !! e_ptr e = Some d /\ node_ok (w_knotes w) q e d;
    li_own : forall p kn s q kq, w_knotes w !! p = Some kn -> kn_fds kn = Some s ->
      kn_kq kn = Some q -> w_kqs w !! q = Some kq ->
      Entry (s32 (ident (kev kn))) s ∈ elements (kq_fd_st kq) /\
      exists d, w_fdss w !! s = Some d /\
        (filter_ (kev kn) = EVFILT_READ /\ fds_read d = Some p \/
         filter_ (kev kn) = EVFILT_WRITE /\ fds_write d = Some p) }.

(** The members of a knote and a kqueue the invariant reads. *)
Definition kn_view (kn : knote) : option ptr * option ptr * option ptr * Z * Z :=
  (kn_udata kn, kn_fds kn, kn_kq kn, ident (kev kn), filter_ (kev kn)).
Definition kq_view (kq : kqueue) : option ptr * list ptr * tree entry :=
  (kq_wake_udata kq, ud_deferred_free kq, kq_fd_st kq).

Lemma fmap_lookup_eq {A B : Type} (g : A -> B) (m m' : gmap ptr A) k y :
  g <$> m' = g <$> m -> m' !! k = Some y -> exists x, m !! k = Some x /\ g x = g y.
Proof.
  intros He Hk. apply (f_equal (lookup k)) in He. rewrite !lookup_fmap, Hk in He.
  destruct (m !! k) as [x|]; [|done]. simpl in He. exists x. split; congruence.
Qed.

Lemma node_ok_view m m' q e d :
  kn_view <$> m' = kn_view <$> m -> node_ok m q e d -> node_ok m' q e d.
Proof.
  intros Hm [A B C D]. split; [done|done|..]; intros p Hp.
  - destruct (C p Hp) as (kn & E & Hr). destruct (fmap_lookup_eq kn_view m' m p kn (eq_sym Hm) E) as (kn' & E' & Hv).
    exists kn'. injection Hv as _ -> -> _ ->. done.
  - destruct (D p Hp) as (kn & E & Hr). destruct (fmap_lookup_eq kn_view m' m p kn (eq_sym Hm) E) as (kn' & E' & Hv).
    exists kn'. injection Hv as _ -> -> _ ->. done.
Qed.

Lemma li_views w w' :
  kn_view <$> w_knotes w' = kn_view <$> w_knotes w -> kq_view <$> w_kqs w' = kq_view <$> w_kqs w ->
  w_udatas w' = w_udatas w -> w_fdss w' = w_fdss w -> (w_next w <= w_next w')%positive ->
  linux_data w -> linux_data w'.
Proof.
  intros Hn Hq Hu Hf Hx [A B C D E F G L M N].
  assert (Hkq : forall q kq', w_kqs w' !! q = Some kq' ->
    exists kq, w_kqs w !! q = Some kq /\ kq_view kq = kq_view kq') by (intros; by eapply fmap_lookup_eq).
  split.
  - intros p kn u Hp Hk. rewrite Hu. destruct (fmap_lookup_eq _ _ _ _ _ Hn Hp) as (kn0 & E0 & Hv).
    injection Hv as Hv _ _ _ _. apply (A p kn0); congruence.
  - rewrite Hf, Hu. done.
  - intros q kq u Hk Hw. rewrite Hu. destruct (Hkq _ _ Hk) as (kq0 & E0 & [= Hv _ _]). apply (C q kq0); congruence.
  - intros q kq u Hk Hw. rewrite Hu. destruct (Hkq _ _ Hk) as (kq0 & E0 & [= _ Hv _]). apply (D q kq0); congruence.
  - intros q kq Hk. destruct (Hkq _ _ Hk) as (kq0 & E0 & [= _ Hv _]). rewrite <- Hv. by apply (E q).
  - intros q q' kq kq' u Hk Hk' H1 H2. destruct (Hkq _ _ Hk) as (kq0 & E0 & [= _ Hv _]).
    destruct (Hkq _ _ Hk') as (kq1 & E1 & [= _ Hv' _]). apply (F q q' kq0 kq1 u); congruence.
  - intros p Hp. rewrite Hu, Hf. apply G. lia.
  - intros q kq Hk. destruct (Hkq _ _ Hk) as (kq0 & E0 & [= _ _ Hv]). rewrite <- Hv. by apply (L q).
  - intros q kq e Hk He. destruct (Hkq _ _ Hk) as (kq0 & E0 & [= _ _ Hv]). rewrite Hf.
    destruct (M q kq0 e E0) as (d & Hd & Hok); [congruence|]. exists d. split; [done|]. by eapply node_ok_view.
  - intros p kn s q kq Hp Hs Hkk Hk. destruct (Hkq _ _ Hk) as (kq0 & E0 & [= _ _ Hv]).
    destruct (fmap_lookup_eq _ _ _ _ _ Hn Hp) as (kn0 & Ek0 & [= _ V2 V3 V4 V5]).
    rewrite <- Hv, <- V4, <- V5, Hf. apply (N p kn0 s q kq0); congruence.
Qed.
End Inv.

(** ** Common code keeps the invariant *)

Section Plat.
Context {K : Type}.
Implicit Types (w : world K) (p q : ptr).

Lemma kn_plat_view kn kn' : kn_plat kn' = kn_plat kn -> kn_view kn' = kn_view kn.
Proof.
  intros Hp. unfold kn_view. pose proof (f_equal kn_udata Hp). pose proof (f_equal kn_fds Hp).
  pose proof (f_equal kn_kq Hp). pose proof (f_equal (fun k => ident (kev k)) Hp).
  pose proof (f_equal (fun k => filter_ (kev k)) Hp). simpl in *. congruence.
Qed.

Lemma kq_plat_view kq kq' : kq_plat kq' = kq_plat kq -> kq_view kq' = kq_view kq.
Proof.
  intros [= _ Hp]. unfold kq_view. congruence.
Qed.

Lemma fmap_weaken {A B C : Type} (g : A -> B) (h : A -> C) (m m' : gmap ptr A) :
  (forall x y, g y = g x -> h y = h x) -> g <$> m' = g <$> m -> h <$> m' = h <$> m.
Proof.
  intros Hgh He. apply map_eq. intros k. apply (f_equal (lookup k)) in He. rewrite !lookup_fmap in *.
  destruct (m' !! k), (m !! k); try done. simpl in *. f_equal. apply Hgh. congruence.
Qed.

Lemma node_ok_keep m m' q e d :
  (forall p kn, m !! p = Some kn -> kn_fds kn = Some (e_ptr e) -> m' !! p = Some kn) ->
  node_ok m q e d -> node_ok m' q e d.
Proof.
  intros Hm [A B C D]. split; [done|done|..]; intros p Hp.
  - destruct (C p Hp) as (kn & E & ? & ? & ?). exists kn. split_and!; try done. by apply Hm.
  - destruct (D p Hp) as (kn & E & ? & ? & ?). exists kn. split_and!; try done. by apply Hm.
Qed.

#[export] Instance linux_plat : PlatInv (K := K) linux_data.
Proof.
  split.
  - intros w w' Hi [A B C D E _ _ _]. apply (li_views w w'); try done.
    + by eapply fmap_weaken; [|exact A]; apply kn_plat_view.
    + by eapply fmap_weaken; [|exact B]; apply kq_plat_view.
  - intros w p src q Hi Hp _. destruct Hi as [A B C D E F G L M N]. split; try done; simpl.
    + intros r kn u Hr Hu. destruct (decide (r = p)) as [->|Hne]; simplify_map_eq. by apply (A r kn).
    + intros r kq e Hr He. destruct (M r kq e Hr He) as (d & Hd & Hok). exists d. split; [done|].
      apply (node_ok_keep (w_knotes w)); [|done]. intros p' kn' Hp' _. rewrite lookup_insert_ne; [done|]. congruence.
    + intros r kn s q' kq Hr Hs Hk Hq. destruct (decide (r = p)) as [->|Hne]; simplify_map_eq. by apply (N r kn s q').
  - intros w p kn0 Hi Hp Hun. destruct Hi as [A B C D E F G L M N]. split; try done; simpl.
    + intros r kn u [_ Hr]%lookup_delete_Some Hu. by apply (A r kn).
    + intros r kq e Hr He. destruct (M r kq e Hr He) as (d & Hd & Hok). exists d. split; [done|].
      assert (Hk : forall p' kn', w_knotes w !! p' = Some kn' -> kn_fds kn' = Some (e_ptr e) ->
        filter_ (kev kn') = EVFILT_READ \/ filter_ (kev kn') = EVFILT_WRITE -> delete p (w_knotes w) !! p' = Some kn').
      { intros p' kn' Hp' Hf Hfl. rewrite lookup_delete_ne; [done|]. intros <-. simplify_eq.
        unfold unshared in Hun. naive_solver congruence. }
      destruct Hok as [O1 O2 O3 O4]. split; [done|done|..]; intros p' Hp'.
      * destruct (O3 p' Hp') as (kn' & ? & ? & ? & ?). exists kn'. split_and!; try done. apply Hk; auto.
      * destruct (O4 p' Hp') as (kn' & ? & ? & ? & ?). exists kn'. split_and!; try done. apply Hk; auto.
    + intros r kn s q' kq [_ Hr]%lookup_delete_Some Hs Hk Hq. by apply (N r kn s q').
  - intros w w' q i p kn Hi (kq & x & t & rd & c & kn0 & E & _ & _ & _ & -> & _) _ _ _.
    apply (li_views w); try done. simpl. rewrite fmap_insert. apply insert_id. by rewrite lookup_fmap, E.
  - intros w q Hi. destruct Hi as [A B C D E F G L M N].
    assert (Hq : forall r kq, delete q (w_kqs w) !! r = Some kq -> w_kqs w !! r = Some kq)
      by (by intros r kq [_ Hr]%lookup_delete_Some).
    split; simpl; try done.
    + intros r kq u Hr%Hq. by apply (C r).
    + intros r kq u Hr%Hq. by apply (D r).
    + intros r kq Hr%Hq. by apply (E r).
    + intros r r' kq kq' u Hr%Hq Hr'%Hq. by apply (F r r' kq kq').
    + intros r kq Hr%Hq. by apply (L r).
    + intros r kq e Hr%Hq. by apply (M r kq).
    + intros r kn s q' kq Hr Hs Hk Hr'%Hq. by apply (N r kn s q').
  - intros w q kq fs Hi Hq _. apply (li_views w); try done. simpl. rewrite fmap_insert.
    apply insert_id. by rewrite lookup_fmap, Hq.
Qed.
End Plat.
