(* ===== verification/LinuxEpoll.v ===== *)
(** * Sharing a descriptor between two filters: src/linux/platform.c

    epoll takes a descriptor once, so the read and the write knote of a
    descriptor share an [fd_state], kept in a red-black tree per kqueue, and one
    epoll registration whose mask [epoll_update] recomputes.  Event masks are
    32-bit patterns. *)

From Stdlib Require Import ZArith Lia Bool.
From stdpp Require Import base list gmap.
From S2P Require Import Prelude RBTree Event Map State Ops Knote LinuxUdata.

Definition EPOLLINOUT : Z := Z.lor EPOLLIN EPOLLOUT.

(** [EV_EPOLLINOUT] *)
Definition EV_EPOLLINOUT (x : Z) : Z := Z.land x EPOLLINOUT.

Definition fd_state_zero : fd_state := FdState 0 None None None.

Section Epoll.
Context {K : Type} `{OS K}.
Implicit Types (w : world K) (p q : ptr) (f : filt_ref).

Definition filter_epoll_fd f : M (world K) Z := let! kq := get_kq f.1 in ret (epollfd kq).

(** [epoll_ctl(2)]: whether it succeeded. *)
Definition epoll_ctl (epfd : Z) (op : epoll_op) (fd : Z) (ev : option epoll_event)
    : M (world K) bool :=
  let! r := sys (SysEpollCtl epfd op fd ev) in ret (bool_decide (r = Some tt)).

(** The [struct epoll_event] that the last argument of a copyout points to. *)
Definition epoll_ev (ev : raw_event) : M (world K) epoll_event :=
  match ev with EvEpoll ev => ret ev | _ => fail BadAddress end.

(** [EPOLL_EV_KN] and [EPOLL_EV_FDS] *)
Definition EPOLL_EV_KN (events : Z) p : M (world K) (option epoll_event) :=
  let! kn := get_kn p in ret (Some (EpollEvent (u32 events) (kn_udata kn))).
Definition EPOLL_EV_FDS (events : Z) (fds : option ptr) : M (world K) (option epoll_event) :=
  let! s := deref NullDeref fds in
  let! d := get_fds s in ret (Some (EpollEvent (u32 events) (fds_udata d))).

(** One term of [epoll_fd_state]: the event, if the knote is there and is
    disabled (or at end of file) exactly when asked for. *)
Definition fds_slot (o : option ptr) (disabled : bool) (ev : Z) : M (world K) Z :=
  match o with
  | None => ret 0
  | Some p =>
      let! kn := get_kn p in
      ret (if Bool.eqb disabled (has (flags (kev kn)) (Z.lor EV_DISABLE EV_EOF)) then ev else 0)
  end.

(** The fd_state of a knote: the one at hand, its own, or the tree's. *)
Definition find_fds (fds_p : option ptr) p : M (world K) (option ptr) :=
  match fds_p with
  | Some s => ret (Some s)
  | None =>
      let! kn := get_kn p in
      match kn_fds kn with
      | Some s => ret (Some s)
      | None =>
          let! q := deref NullDeref (kn_kq kn) in
          let! kq := get_kq q in
          ret (e_ptr <$> RB_FIND e_key (kq_fd_st kq) (s32 (ident (kev kn))))
      end
  end.

(** The result and the new [*fds_p]. *)
Definition epoll_fd_state (fds_p : option ptr) p (disabled : bool)
    : M (world K) (Z * option ptr) :=
  let! fds := find_fds fds_p p in
  match fds with
  | None => ret (0, None)
  | Some s =>
      let! d := get_fds s in
      let! r := fds_slot (fds_read d) disabled EPOLLIN in
      let! x := fds_slot (fds_write d) disabled EPOLLOUT in
      ret (Z.lor r x, Some s)
  end.

(** A new fd_state in the tree, or [None] when [malloc] fails. *)
Definition new_fds p : M (world K) (option ptr) :=
  let! kn := get_kn p in
  let! q := deref NullDeref (kn_kq kn) in
  let! r := alloc in
  match r with
  | None => ret None
  | Some s =>
      let fd := s32 (ident (kev kn)) in
      put_fds s (set_fds_fd fd fd_state_zero) ;;;
      FDS_UDATA_ALLOC s ;;;
      let! kq := get_kq q in
      let! t := deref NullDeref (RB_INSERT e_key (kq_fd_st kq) (Entry fd s)) in
      put_kq q (set_kq_fd_st t.2 kq) ;;; ret (Some s)
  end.

(** [assert(!slot || slot == kn)] *)
Definition free_or (o : option ptr) p : bool := bool_decide (o = None \/ o = Some p).

(** The status and the new [*fds_p]. *)
Definition epoll_fd_state_mod (fds_p : option ptr) p (ev : Z) : M (world K) (Z * option ptr) :=
  assert_ (has ev EPOLLINOUT) ;;;
  let! found := find_fds fds_p p in
  let! fds := match found with Some s => ret (Some s) | None => new_fds p end in
  match fds with
  | None => ret (-1, fds_p)
  | Some s =>
      (if has ev EPOLLIN then
         let! d := get_fds s in
         assert_ (free_or (fds_read d) p) ;;; put_fds s (set_fds_read (Some p) d)
       else ret tt) ;;;
      (if has ev EPOLLOUT then
         let! d := get_fds s in
         assert_ (free_or (fds_write d) p) ;;; put_fds s (set_fds_write (Some p) d)
       else ret tt) ;;;
      upd_kn p (set_kn_fds (Some s)) ;;;
      ret (0, Some s)
  end.

(** The new [*fds_p]. *)
Definition epoll_fd_state_del (fds_p : option ptr) p (ev : Z) : M (world K) (option ptr) :=
  let! kn := get_kn p in
  assert_ (has ev EPOLLINOUT) ;;;
  assert_ (bool_decide (kn_fds kn <> None)) ;;;
  assert_ (bool_decide (fds_p = None \/ fds_p = kn_fds kn)) ;;;
  let! s := deref NullDeref (kn_fds kn) in
  let! q := deref NullDeref (kn_kq kn) in
  (if has ev EPOLLIN then
     let! d := get_fds s in
     assert_ (bool_decide (fds_read d <> None)) ;;; put_fds s (set_fds_read None d)
   else ret tt) ;;;
  (if has ev EPOLLOUT then
     let! d := get_fds s in
     assert_ (bool_decide (fds_write d <> None)) ;;; put_fds s (set_fds_write None d)
   else ret tt) ;;;
  let! d := get_fds s in
  let! out :=
    (if bool_decide (fds_read d = None /\ fds_write d = None) then
       let! kq := get_kq q in
       match RB_FIND e_key (kq_fd_st kq) (fds_fd d) with
       | Some e =>
           if decide (e_ptr e = s) then
             let! t := deref NullDeref (RB_REMOVE e_key (kq_fd_st kq) (fds_fd d)) in
             put_kq q (set_kq_fd_st t kq) ;;;
             FDS_UDATA_DEFER_FREE q s ;;;
             free_fds s ;;; ret None
           else fail BadAddress
       | None => fail BadAddress
       end
     else ret fds_p) in
  upd_kn p (set_kn_fds None) ;;; ret out.

Definition epoll_fd_registered f p : M (world K) bool :=
  let! kn := get_kn p in
  match kn_fds kn with
  | None => ret false
  | Some _ =>
      let! r := epoll_fd_state None p false in
      if r.1 =? 0 then ret false
      else
        let! epfd := filter_epoll_fd f in
        let! ev := EPOLL_EV_FDS r.1 r.2 in
        epoll_ctl epfd EPOLL_CTL_MOD (s32 (ident (kev kn))) ev
  end.

(** The removal of fd state of disabled knotes when a knote is deleted: the new
    [*fds_p]. *)
Definition epoll_drop_disabled (fds_p : option ptr) p (mask : Z -> Z) : M (world K) (option ptr) :=
  let! r := epoll_fd_state fds_p p true in
  let to_delete := mask r.1 in
  if to_delete =? 0 then ret r.2 else epoll_fd_state_del r.2 p to_delete.

(** The mask asked for, and [*fds_p] after the first switch of [epoll_update]. *)
Definition epoll_want (op : epoll_op) (fds_p : option ptr) p (have_ev ev : Z) (delete : bool)
    : M (world K) (Z * option ptr) :=
  match op with
  | EPOLL_CTL_ADD => ret (Z.lor have_ev ev, fds_p)
  | EPOLL_CTL_DEL =>
      let! fds := (if delete then epoll_drop_disabled fds_p p (fun d => Z.land d (EV_EPOLLINOUT ev))
                   else ret fds_p) in
      ret (clrb have_ev ev, fds)
  | EPOLL_CTL_MOD =>
      let! fds := (if delete then epoll_drop_disabled fds_p p (fun d => clrb d ev)
                   else ret fds_p) in
      ret (ev, fds)
  end.

(** The operation that takes the registration from [have] to [want]. *)
Definition epoll_opn (have want : Z) : option epoll_op :=
  if (have =? 0) && negb (want =? 0) then Some EPOLL_CTL_ADD
  else if negb (have =? 0) && (want =? 0) then Some EPOLL_CTL_DEL
  else if negb (have =? want) then Some EPOLL_CTL_MOD
  else None.

(** The rest of [epoll_update] when [epoll_ctl] failed. *)
Definition epoll_update_failed (opn : epoll_op) (fds : option ptr) p (have_ev want_ev : Z)
    : M (world K) Z :=
  match opn with
  | EPOLL_CTL_ADD => epoll_fd_state_del fds p (clrb want_ev have_ev) ;;; ret (-1)
  | _ =>
      let! e := errno in
      if (e =? EBADF) || (e =? ENOENT) then
        let! s := deref NullDeref fds in
        let! d := get_fds s in
        let kn_ev := if bool_decide (fds_read d = Some p) then EPOLLIN
                     else if bool_decide (fds_write d = Some p) then EPOLLOUT else 0 in
        let kn_ev := clrb kn_ev want_ev in
        if kn_ev =? 0 then ret (-1)
        else epoll_fd_state_del fds p kn_ev ;;; ret 0
      else ret (-1)
  end.

(** The rest when it succeeded. *)
Definition epoll_update_done (opn : epoll_op) (fds : option ptr) p (have_ev want_ev : Z)
    (delete : bool) : M (world K) Z :=
  match opn with
  | EPOLL_CTL_ADD => ret 0
  | EPOLL_CTL_DEL =>
      (if delete then epoll_fd_state_del fds p (clrb have_ev want_ev) else ret fds) ;;; ret 0
  | EPOLL_CTL_MOD =>
      let add := clrb want_ev have_ev in
      let del := clrb have_ev want_ev in
      let! fds := (if add =? 0 then ret fds
                   else let! r := epoll_fd_state_mod fds p add in ret r.2) in
      (if negb (del =? 0) && delete then epoll_fd_state_del fds p del else ret fds) ;;; ret 0
  end.

Definition epoll_update (op : epoll_op) f p (ev : Z) (delete : bool) : M (world K) Z :=
  let! kn := get_kn p in
  let fd := s32 (ident (kev kn)) in
  let! r := epoll_fd_state None p false in
  let have_ev := r.1 in
  let! r := epoll_want op r.2 p have_ev ev delete in
  let want := r.1 in
  let want_ev := EV_EPOLLINOUT want in
  match epoll_opn have_ev want_ev with
  | None => ret 0
  | Some opn =>
      let! fds := (match opn with
                   | EPOLL_CTL_ADD => let! m := epoll_fd_state_mod r.2 p (clrb want_ev have_ev) in ret m.2
                   | _ => ret r.2
                   end) in
      let! epfd := filter_epoll_fd f in
      let! evt := EPOLL_EV_FDS want fds in
      let! ok := epoll_ctl epfd opn fd evt in
      if ok then epoll_update_done opn fds p have_ev want_ev delete
      else epoll_update_failed opn fds p have_ev want_ev
  end.
End Epoll.
