(* ===== verification/LinuxShared.v ===== *)
(** * The invariant of the Linux backend

    [linux_data] says how knotes, udatas and fd_states refer to each other.
    [shared_ok] adds what the read and write filters rely on: a knote with an
    fd_state is in the index of its filter under a descriptor that fits an [int],
    so no two knotes of a filter compete for the slot of one fd_state.  Together
    they are [linux_inv], the invariant against which the filters and the common
    code are proved. *)

From Stdlib Require Import ZArith Lia Bool.
From stdpp Require Import base list gmap.
From S2P Require Import Prelude RBTree Event Map State Ops Knote LinuxUdata LinuxEpoll.

(** The two directions that share a descriptor. *)
Inductive dir := Rd | Wr.
Definition dir_ev (d : dir) : Z := match d with Rd => EPOLLIN | Wr => EPOLLOUT end.
Definition dir_filter (d : dir) : Z := match d with Rd => EVFILT_READ | Wr => EVFILT_WRITE end.
Definition dir_get (d : dir) (x : fd_state) : option ptr :=
  match d with Rd => fds_read x | Wr => fds_write x end.
Definition dir_set (d : dir) (o : option ptr) (x : fd_state) : fd_state :=
  match d with Rd => set_fds_read o x | Wr => set_fds_write o x end.
Definition other (d : dir) : dir := match d with Rd => Wr | Wr => Rd end.
Definition dir_slot (d : dir) : nat := match d with Rd => 0%nat | Wr => 1%nat end.

(** The knote has an fd_state and its kqueue is alive. *)
Definition attached {K : Type} (w : world K) (p : ptr) (kn : knote) (q : ptr) : Prop :=
  w_knotes w !! p = Some kn /\ kn_fds kn <> None /\ kn_kq kn = Some q /\ is_Some (w_kqs w !! q).

(** A knote that is not a file's asks for the events of its direction only, and it
    is registered through an fd_state: it has no udata of its own. *)
Definition plain (d : dir) (kn : knote) : Prop :=
  (EV_EPOLLINOUT (epoll_events kn) = 0 \/ EV_EPOLLINOUT (epoll_events kn) = dir_ev d) /\ kn_udata kn = None.

(** [o] is a knote on its way into or out of its index. *)
Record shared_ok {K : Type} (o : option ptr) (w : world K) : Prop :=
  { so_index : forall p kn q, attached w p kn q -> Some p <> o ->
      indexed w q (Z.to_nat (Z.lnot (filter_ (kev kn)))) (Entry (ident (kev kn)) p);
    so_ident : forall p kn, w_knotes w !! p = Some kn -> fd_ident (kev kn);
    so_file : forall p kn q, attached w p kn q -> has (kn_flags kn) KNFL_FILE = false;
    so_events : forall p kn d, w_knotes w !! p = Some kn -> filter_ (kev kn) = dir_filter d ->
      has (kn_flags kn) KNFL_FILE = false -> plain d kn }.

Record linux_inv {K : Type} (w : world K) : Prop :=
  { li_data : linux_data w;
    li_shared : shared_ok None w }.

Section Shared.
Context {K : Type}.
Implicit Types (w : world K) (p q : ptr).

(** The members of a knote [shared_ok] reads. *)
Definition kn_shared (kn : knote) : option ptr * option ptr * Z * Z * bool * Z * option ptr :=
  (kn_fds kn, kn_kq kn, ident (kev kn), filter_ (kev kn), has (kn_flags kn) KNFL_FILE, epoll_events kn, kn_udata kn).

Lemma kn_plat_shared kn kn' : kn_plat kn' = kn_plat kn -> kn_shared kn' = kn_shared kn.
Proof.
  intros Hp. unfold kn_shared. pose proof (f_equal kn_fds Hp). pose proof (f_equal kn_kq Hp).
  pose proof (f_equal (fun k => ident (kev k)) Hp). pose proof (f_equal (fun k => filter_ (kev k)) Hp).
  pose proof (f_equal epoll_events Hp). pose proof (f_equal kn_udata Hp). pose proof (f_equal (fun k => has (kn_flags k) KNFL_FILE) Hp) as Hf.
  simpl in *. rewrite !has_clrb_disj in Hf by done. congruence.
Qed.

(** The knotes of [w'] other than those named by [o] are those of [w], seen
    through [kn_shared], and no index has lost one of them. *)
Lemma shared_views o w w' :
  (forall p kn', w_knotes w' !! p = Some kn' ->
     (exists kn, w_knotes w !! p = Some kn /\ kn_shared kn' = kn_shared kn) \/
     kn_fds kn' = None /\ epoll_events kn' = 0 /\ kn_udata kn' = None /\ fd_ident (kev kn')) ->
  (forall q, is_Some (w_kqs w' !! q) -> is_Some (w_kqs w !! q)) ->
  (forall p kn q, attached w p kn q -> Some p <> o -> is_Some (w_kqs w' !! q) ->
     indexed w q (Z.to_nat (Z.lnot (filter_ (kev kn)))) (Entry (ident (kev kn)) p) ->
     indexed w' q (Z.to_nat (Z.lnot (filter_ (kev kn)))) (Entry (ident (kev kn)) p)) ->
  shared_ok o w -> shared_ok o w'.
Proof.
  intros Hk Hq Hi [A B C D].
  assert (Ha : forall p kn' q, attached w' p kn' q -> exists kn, attached w p kn q /\ kn_shared kn' = kn_shared kn).
  { intros p kn' q (E & Hf & Hkq & Hl). destruct (Hk p kn' E) as [(kn & E' & Hs)|(Hf' & _)]; [|done].
    exists kn. split; [|done]. injection Hs as V1 V2 _ _ _ _ _. split_and!; try done; try congruence. by apply Hq. }
  split.
  - intros p kn' q Hat Hne. destruct (Ha p kn' q Hat) as (kn & Hat0 & Hs). injection Hs as _ _ V3 V4 _ _ _.
    rewrite V3, V4. apply Hi; try done; [apply Hat|by apply A].
  - intros p kn' E. destruct (Hk p kn' E) as [(kn & E' & Hs)|(_ & _ & _ & Hid)]; [|done].
    injection Hs as _ _ V3 V4 _ _ _. unfold fd_ident in *. rewrite V3, V4. by apply (B p kn).
  - intros p kn' q Hat. destruct (Ha p kn' q Hat) as (kn & Hat0 & Hs). injection Hs as _ _ _ _ V5 _ _.
    rewrite V5. by apply (C p kn q).
  - intros p kn' d E Hf Hfl. unfold plain. destruct (Hk p kn' E) as [(kn & E' & Hs)|(_ & -> & -> & _)]; [|by auto].
    injection Hs as _ _ _ V4 V5 V6 V7. rewrite V6, V7. apply (D p kn); congruence.
Qed.

(** A change that keeps the knotes. *)
Lemma shared_same o w w' :
  w_knotes w' = w_knotes w -> (forall q, is_Some (w_kqs w' !! q) -> is_Some (w_kqs w !! q)) ->
  (forall q i e, is_Some (w_kqs w' !! q) -> indexed w q i e -> indexed w' q i e) ->
  shared_ok o w -> shared_ok o w'.
Proof.
  intros Hk Hq Hi. apply shared_views; [|done|].
  - intros p kn'. rewrite Hk. eauto.
  - intros p kn q _ _ Hl. by apply Hi.
Qed.

(** A kqueue keeps its filters. *)
Lemma shared_kq o w w' q kq kq' :
  w_kqs w !! q = Some kq -> w_kqs w' = <[q := kq']> (w_kqs w) -> kq_filt kq' = kq_filt kq ->
  w_knotes w' = w_knotes w -> shared_ok o w -> shared_ok o w'.
Proof.
  intros E Hq Hf Hk. apply shared_same; [done|..]; setoid_rewrite Hq.
  - intros r. destruct (decide (r = q)) as [->|Hne]; [by rewrite E|by rewrite lookup_insert_ne].
  - intros r i e _ (x & Hx & He). exists x. split; [|done]. unfold slot_of in *. rewrite Hq.
    destruct (decide (r = q)) as [->|Hne]; [|by rewrite lookup_insert_ne].
    rewrite lookup_insert_eq. rewrite E in Hx. simpl in *. by rewrite Hf.
Qed.

Lemma fmap_kqs_Some (w w' : world K) {B : Type} (g : kqueue -> B) q :
  g <$> w_kqs w' = g <$> w_kqs w -> is_Some (w_kqs w' !! q) -> is_Some (w_kqs w !! q).
Proof.
  intros He. apply (f_equal (lookup q)) in He. rewrite !lookup_fmap in He.
  destruct (w_kqs w' !! q), (w_kqs w !! q); simpl in *; by intros [? ?] || eauto.
Qed.

#[export] Instance linux_inv_plat : PlatInv (K := K) linux_inv.
Proof.
  split.
  - intros w w' [Hd Hs] Hp. split; [by eapply pi_stable|]. apply (shared_views None w); [| | |done].
    + intros p kn' E. left. destruct (fmap_lookup_eq _ _ _ _ _ (pe_knotes _ _ Hp) E) as (kn & E' & Hk).
      exists kn. split; [done|]. by apply kn_plat_shared.
    + intros q. by apply (fmap_kqs_Some _ _ kq_plat), (pe_kqs _ _ Hp).
    + intros p kn q _ _ _. apply Hp.
  - intros w p src q [Hd Hs] Hp Hid. split; [by apply pi_new|]. apply (shared_views None w); [|done|done|done].
    intros r kn'. simpl. destruct (decide (r = p)) as [->|Hne].
    + rewrite lookup_insert_eq. intros [= <-]. by right.
    + rewrite lookup_insert_ne by done. eauto.
  - intros w p kn [Hd Hs] Hp Hun. split; [by eapply pi_free|]. apply (shared_views None w); [|done|done|done].
    intros r kn'. simpl. intros [_ E]%lookup_delete_Some. eauto.
  - intros w w' q i p kn [Hd Hs] Hun Ek H1 H2. split; [by eapply pi_unlink|].
    pose proof (unlinking_index _ _ _ _ _ Hun) as Hix.
    destruct Hun as (kq & x & t & rd & c & kn0 & E & _ & _ & _ & -> & _). apply (shared_views None w); [| | |done].
    + simpl. eauto.
    + intros r. simpl. destruct (decide (r = q)) as [->|Hne]; [by rewrite E|by rewrite lookup_insert_ne].
    + intros r kr q' Hat _ _ Hin. apply Hix; [done|]. simpl. intros ->.
      destruct Hat as (Er & Hf & Hkq & [kq' Hl]). assert (kr = kn) as -> by congruence.
      destruct (kn_fds kn) as [s|] eqn:Hfs; [|done].
      destruct (li_own _ Hd p kn s q' kq' Er Hfs Hkq Hl) as (_ & ? & _ & [[? _]|[? _]]); done.
  - intros w q [Hd Hs]. split; [by apply pi_kq_free|]. apply (shared_views None w); [| | |done]; simpl.
    + eauto.
    + intros r [kr [_ Hr]%lookup_delete_Some]. eauto.
    + intros p kn r _ _ [kr [Hne Hr]%lookup_delete_Some] (x & Hx & He). exists x.
      unfold slot_of in *. simpl. by rewrite lookup_delete_ne.
  - intros w q kq fs [Hd Hs] Hq Hemp. split; [by apply pi_slots|].
    apply (shared_views None w); [| | |done]; simpl.
    + eauto.
    + intros r. destruct (decide (r = q)) as [->|Hne]; [by rewrite Hq|by rewrite lookup_insert_ne].
    + intros p kn r _ _ _ (x & Hx & He). destruct (decide (r = q)) as [->|Hne].
      * unfold slot_of in Hx. rewrite Hq in Hx. simpl in Hx. apply list_elem_of_lookup_2 in Hx.
        rewrite (Hemp _ Hx) in He. by apply elem_of_nil in He.
      * exists x. unfold slot_of in *. simpl. by rewrite lookup_insert_ne.
Qed.

Lemma indexed_frame p w w' q i e : frame_ p w w' -> indexed w' q i e <-> indexed w q i e.
Proof. intros Hf. unfold indexed. by rewrite (slot_frame _ _ _ _ _ Hf). Qed.

Lemma shared_weaken w p : shared_ok None w -> shared_ok (Some p) w.
Proof. intros [A B C D]. split; try done. intros r kn q Ha _. by apply A. Qed.

(** After a callback on [p] it is enough to look at [p]. *)
Lemma shared_frame o w w' p kn' :
  frame_ p w w' -> shared_ok (Some p) w -> w_knotes w' !! p = Some kn' ->
  (forall q, attached w' p kn' q ->
     (Some p <> o -> indexed w' q (Z.to_nat (Z.lnot (filter_ (kev kn')))) (Entry (ident (kev kn')) p)) /\
     has (kn_flags kn') KNFL_FILE = false) ->
  (forall d, filter_ (kev kn') = dir_filter d -> has (kn_flags kn') KNFL_FILE = false -> plain d kn') ->
  shared_ok o w'.
Proof.
  intros Hf [A B C D] Ek Hat Hev.
  assert (Ho : forall r kn q, r <> p -> attached w' r kn q -> attached w r kn q).
  { intros r kn q Hr (E & F & G & L). split_and!; try done; [by rewrite <- (fr_others _ _ _ Hf)|].
    apply (fmap_kqs_Some w w' kq_common); [apply (fr_kqs _ _ _ Hf)|done]. }
  split.
  - intros r kn q Hr Hne. destruct (decide (r = p)) as [->|Hrp].
    + assert (kn = kn') as -> by (destruct Hr; congruence). by apply Hat.
    + apply (indexed_frame p w w'); [done|]. apply A; [by apply Ho|congruence].
  - intros r kn E. pose proof (frame_common _ _ _ Hf r) as Hc. rewrite E in Hc.
    destruct (w_knotes w !! r) as [k0|] eqn:E0; [|done]. apply (inj Some) in Hc. injection Hc as V1 V2 _ _ _.
    unfold fd_ident. rewrite V1, V2. by apply (B r k0).
  - intros r kn q Hr. destruct (decide (r = p)) as [->|Hrp]; [|by apply (C r kn q), Ho].
    assert (kn = kn') as -> by (destruct Hr; congruence). by apply (Hat q).
  - intros r kn d E. destruct (decide (r = p)) as [->|Hrp].
    + assert (kn = kn') as -> by congruence. apply Hev.
    + rewrite (fr_others _ _ _ Hf) in E by done. by apply (D r).
Qed.

(** A knote of another filter has no fd_state. *)
Lemma shared_own w w' p kn' :
  frame_ p w w' -> linux_data w' -> shared_ok (Some p) w -> w_knotes w' !! p = Some kn' ->
  filter_ (kev kn') <> EVFILT_READ -> filter_ (kev kn') <> EVFILT_WRITE -> shared_ok None w'.
Proof.
  intros Hf Hd Hs Ek H1 H2. eapply shared_frame; [done..| |].
  - intros q (_ & Hfd & Hkq & [kq Hl]). destruct (kn_fds kn') as [s|] eqn:Es; [|done].
    by destruct (li_own _ Hd p kn' s q kq Ek Es Hkq Hl) as (_ & ? & _ & [[? _]|[? _]]).
  - intros d. by destruct d.
Qed.
End Shared.
