(* ===== verification/LinuxRules.v ===== *)
(** * Rules for the callbacks of the Linux filters

    How the operations on udatas keep [linux_data], and the state [cbst] of a
    callback on the knote [p]: every primitive of a filter takes such a state to
    such a state, and the tactic [cb_go] runs a callback by these rules. *)

From Stdlib Require Import ZArith Lia Bool.
From stdpp Require Import base list gmap.
From S2P Require Import Prelude RBTree Event Map State Ops Knote LinuxUdata LinuxEpoll LinuxShared.

Section Ud.
Context {K : Type} `{OS K}.
Implicit Types (w : world K) (p q u : ptr).

(** Nothing that is in use refers to the udata [u]. *)
Record unref w u : Prop :=
  { un_kn : forall p kn, w_knotes w !! p = Some kn -> kn_udata kn <> Some u;
    un_fds : forall s d, w_fdss w !! s = Some d -> fds_udata d <> Some u;
    un_wake : forall q kq, w_kqs w !! q = Some kq -> kq_wake_udata kq <> Some u }.

Lemma li_new_ud w d :
  linux_data w -> linux_data (set_w_udatas (<[w_next w := d]> (w_udatas w))
    (set_w_next (Pos.succ (w_next w)) w)).
Proof.
  intros [A B C D E F G L M N].
  assert (Hn : w_udatas w !! w_next w = None) by (apply G; lia).
  assert (Hl : forall u x, w_udatas w !! u = Some x -> <[w_next w := d]> (w_udatas w) !! u = Some x).
  { intros u x Hu. rewrite lookup_insert_ne; [done|]. congruence. }
  split; simpl; try done.
  - intros p kn u Hp Hk. destruct (A p kn u Hp Hk) as (e & He). eauto.
  - intros s x u Hp Hk. destruct (B s x u Hp Hk) as (e & He). eauto.
  - intros q kq u Hp Hk. destruct (C q kq u Hp Hk) as (e & He). eauto.
  - intros q kq u Hp Hk. destruct (D q kq u Hp Hk) as (e & He & Hs). eauto.
  - intros p Hp. rewrite lookup_insert_ne by lia. apply G. lia.
Qed.

Lemma li_knote w p kn kn' :
  linux_data w -> w_knotes w !! p = Some kn ->
  (kn_fds kn', kn_kq kn', ident (kev kn'), filter_ (kev kn')) =
  (kn_fds kn, kn_kq kn, ident (kev kn), filter_ (kev kn)) ->
  (forall u, kn_udata kn' = Some u ->
     exists e, w_udatas w !! u = Some (EpollUdata EPOLL_UDATA_KNOTE (ud_kn p) false e)) ->
  linux_data (set_w_knotes (<[p := kn']> (w_knotes w)) w).
Proof.
  intros [A B C D E F G L M N] Hp [= V1 V2 V3 V4] Hu. split; simpl; try done.
  - intros r kr u Hr. destruct (decide (r = p)) as [->|Hne]; simplify_map_eq; [apply Hu|by apply A].
  - intros r kq e Hr He. destruct (M r kq e Hr He) as (d & Hd & [O1 O2 O3 O4]). exists d. split; [done|].
    split; [done|done|..]; intros p' Hp'.
    + destruct (O3 p' Hp') as (k & Ek & Hk). destruct (decide (p' = p)) as [->|Hne]; simplify_map_eq; eauto.
      exists kn'. rewrite V1, V2, V4. by destruct Hk.
    + destruct (O4 p' Hp') as (k & Ek & Hk). destruct (decide (p' = p)) as [->|Hne]; simplify_map_eq; eauto.
      exists kn'. rewrite V1, V2, V4. by destruct Hk.
  - intros r kr s q kq Hr Hs Hk Hq. destruct (decide (r = p)) as [->|Hne]; simplify_map_eq.
    + rewrite V3, V4. apply (N p kn s q); congruence.
    + by apply (N r kr s q).
Qed.

Lemma li_drop_ud w u :
  linux_data w -> unref w u -> (forall q kq, w_kqs w !! q = Some kq -> u ∉ ud_deferred_free kq) ->
  linux_data (set_w_udatas (delete u (w_udatas w)) w).
Proof.
  intros [A B C D E F G L M N] [U1 U2 U3] Hd.
  assert (Hl : forall v x, v <> u -> w_udatas w !! v = Some x -> delete u (w_udatas w) !! v = Some x).
  { intros v x Hv Hx. by rewrite lookup_delete_ne. }
  split; simpl; try done.
  - intros p kn v Hp Hk. destruct (A p kn v Hp Hk) as (e & He). exists e. apply Hl; [|done].
    intros ->. by apply (U1 p kn).
  - intros s x v Hp Hk. destruct (B s x v Hp Hk) as (e & He). exists e. apply Hl; [|done].
    intros ->. by apply (U2 s x).
  - intros q kq v Hp Hk. destruct (C q kq v Hp Hk) as (e & He). exists e. apply Hl; [|done].
    intros ->. by apply (U3 q kq).
  - intros q kq v Hp Hk. destruct (D q kq v Hp Hk) as (e & He & Hs). exists e. split; [|done].
    apply Hl; [|done]. intros ->. by apply (Hd q kq).
  - intros p Hp. destruct (G p Hp) as [G1 G2]. split; [|done]. by apply lookup_delete_None; right.
Qed.

(** Queueing a udata that was in use until now. *)
Lemma li_defer w q kq u d b :
  linux_data w -> unref w u -> w_kqs w !! q = Some kq -> w_udatas w !! u = Some d -> ud_stale d = false ->
  linux_data (set_w_kqs (<[q := set_ud_deferred_free (ud_deferred_free kq ++ [u]) kq]> (w_kqs w))
    (set_w_udatas (<[u := set_ud_boundary_epoch b (set_ud_stale true d)]> (w_udatas w)) w)).
Proof.
  intros [A B C D E F G L M N] [U1 U2 U3] Hq Hu Hs.
  assert (Hnd : forall r kr, w_kqs w !! r = Some kr -> u ∉ ud_deferred_free kr).
  { intros r kr Hr Hin. destruct (D r kr u Hr Hin) as (x & Hx & Hxs). congruence. }
  assert (Hl : forall v x, v <> u -> w_udatas w !! v = Some x ->
    <[u := set_ud_boundary_epoch b (set_ud_stale true d)]> (w_udatas w) !! v = Some x).
  { intros v x Hv Hx. by rewrite lookup_insert_ne. }
  assert (Hkq : forall r kr, <[q := set_ud_deferred_free (ud_deferred_free kq ++ [u]) kq]> (w_kqs w) !! r = Some kr ->
    exists k0, w_kqs w !! r = Some k0 /\ kq_wake_udata kr = kq_wake_udata k0 /\ kq_fd_st kr = kq_fd_st k0 /\
      ud_deferred_free kr = ud_deferred_free k0 ++ (if decide (r = q) then [u] else [])).
  { intros r kr Hr. case_decide; [subst|]; simplify_map_eq; eexists; rewrite ?app_nil_r; done. }
  split; simpl.
  - intros p kn v Hp Hk. destruct (A p kn v Hp Hk) as (e & He). exists e. apply Hl; [|done].
    intros ->. by apply (U1 p kn).
  - intros s x v Hp Hk. destruct (B s x v Hp Hk) as (e & He). exists e. apply Hl; [|done].
    intros ->. by apply (U2 s x).
  - intros r kr v Hr Hk. destruct (Hkq r kr Hr) as (k0 & E0 & W0 & _). rewrite W0 in Hk.
    destruct (C r k0 v E0 Hk) as (e & He). exists e. apply Hl; [|done]. intros ->. by apply (U3 r k0).
  - intros r kr v Hr Hv. destruct (Hkq r kr Hr) as (k0 & E0 & _ & _ & D0). rewrite D0 in Hv.
    apply elem_of_app in Hv as [Hv|Hv].
    + destruct (D r k0 v E0 Hv) as (x & Hx & Hxs). exists x. split; [|done]. apply Hl; [|done].
      intros ->. by apply (Hnd r k0).
    + destruct (decide (r = q)); [|by apply elem_of_nil in Hv]. apply list_elem_of_singleton in Hv as ->.
      rewrite lookup_insert_eq. eauto.
  - intros r kr Hr. destruct (Hkq r kr Hr) as (k0 & E0 & _ & _ & ->). apply NoDup_app. split_and!.
    + by apply (E r).
    + intros v Hv Hv'. destruct (decide (r = q)); [|by apply elem_of_nil in Hv'].
      apply list_elem_of_singleton in Hv' as ->. by apply (Hnd r k0).
    + destruct (decide (r = q)); [apply NoDup_singleton|constructor].
  - intros r r' kr kr' v Hr Hr' Hv Hv'. destruct (Hkq r kr Hr) as (k0 & E0 & _ & _ & D0).
    destruct (Hkq r' kr' Hr') as (k0' & E0' & _ & _ & D0'). rewrite D0 in Hv. rewrite D0' in Hv'.
    apply elem_of_app in Hv as [Hv|Hv]; apply elem_of_app in Hv' as [Hv'|Hv'].
    + by apply (F r r' k0 k0' v).
    + destruct (decide (r' = q)); [|by apply elem_of_nil in Hv']. apply list_elem_of_singleton in Hv' as ->. by destruct (Hnd r k0).
    + destruct (decide (r = q)); [|by apply elem_of_nil in Hv]. apply list_elem_of_singleton in Hv as ->. by destruct (Hnd r' k0').
    + destruct (decide (r = q)); [|by apply elem_of_nil in Hv].
      destruct (decide (r' = q)); [|by apply elem_of_nil in Hv']. congruence.
  - intros p Hp. destruct (G p Hp) as [G1 G2]. rewrite lookup_insert_ne; [done|]. congruence.
  - intros r kr Hr. destruct (Hkq r kr Hr) as (k0 & E0 & _ & -> & _). by apply (L r).
  - intros r kr e Hr. destruct (Hkq r kr Hr) as (k0 & E0 & _ & -> & _). by apply M.
  - intros p kn s r kr Hp Hs' Hk Hr. destruct (Hkq r kr Hr) as (k0 & E0 & _ & -> & _). by apply (N p kn s r).
Qed.

(** The udata of a knote has no other user. *)
Lemma kn_unref w p kn u :
  linux_data w -> w_knotes w !! p = Some kn -> kn_udata kn = Some u ->
  unref (set_w_knotes (<[p := set_kn_udata None kn]> (w_knotes w)) w) u /\
  (exists e, w_udatas w !! u = Some (EpollUdata EPOLL_UDATA_KNOTE (ud_kn p) false e)) /\
  forall q kq, w_kqs w !! q = Some kq -> u ∉ ud_deferred_free kq.
Proof.
  intros [A B C D _ _ _ _ _ _] Hp Hu. destruct (A p kn u Hp Hu) as (e & He). split_and!; [|eauto|].
  - split; simpl.
    + intros r kr Hr Hk. destruct (decide (r = p)) as [->|Hne]; simplify_map_eq.
      destruct (A r kr u Hr Hk) as (e' & He'). congruence.
    + intros s d Hs Hk. destruct (B s d u Hs Hk) as (e' & He'). congruence.
    + intros q kq Hq Hk. destruct (C q kq u Hq Hk) as (e' & He'). congruence.
  - intros q kq Hq Hin. destruct (D q kq u Hq Hin) as (x & Hx & Hs). rewrite He in Hx. by simplify_eq.
Qed.
End Ud.

(** ** What a callback does to udatas *)

(** A udata that does not belong to the knote [p] outlives a callback on [p]: it
    becomes stale, or stays what it is, with its fd_state where it was. *)
Definition ud_kept {K : Type} (w w' : world K) (u : ptr) (d : epoll_udata) : Prop :=
  exists d', w_udatas w' !! u = Some d' /\ ud_type d' = ud_type d /\ ud_back d' = ud_back d /\
    (ud_stale d' = true \/ ud_stale d' = ud_stale d /\
       forall s x q kq fd, ud_back d = ud_fds s -> w_fdss w !! s = Some x -> fds_udata x = Some u ->
         w_kqs w !! q = Some kq -> Entry fd s ∈ elements (kq_fd_st kq) ->
         exists x' kq', w_fdss w' !! s = Some x' /\ fds_udata x' = Some u /\
           w_kqs w' !! q = Some kq' /\ Entry fd s ∈ elements (kq_fd_st kq')).

(** [u] is not the udata of the knote [p]. *)
Definition not_own {K : Type} (w : world K) (p u : ptr) : Prop :=
  forall kn, w_knotes w !! p = Some kn -> kn_udata kn <> Some u.

Definition keep {K : Type} (p : ptr) (w w' : world K) : Prop :=
  forall u d, w_udatas w !! u = Some d -> not_own w p u -> not_own w' p u /\ ud_kept w w' u d.

Section Keep.
Context {K : Type}.
Implicit Types (w : world K) (p q u : ptr).

Lemma ud_kept_refl w u d : w_udatas w !! u = Some d -> ud_kept w w u d.
Proof. intros Hu. exists d. split_and!; try done. right. split; [done|]. intros s x q kq. by exists x, kq. Qed.

#[export] Instance keep_preorder p : PreOrder (keep (K := K) p).
Proof.
  split.
  - intros w u d Hu Hn. split; [done|by apply ud_kept_refl].
  - intros w1 w2 w3 H12 H23 u d Hu Hn. destruct (H12 u d Hu Hn) as (Hn2 & d2 & Hu2 & T2 & B2 & S2).
    destruct (H23 u d2 Hu2 Hn2) as (Hn3 & d3 & Hu3 & T3 & B3 & S3). split; [done|].
    exists d3. split_and!; [done|congruence|congruence|]. destruct S3 as [?|[S3 F3]]; [by left|].
    destruct S2 as [S2|[S2 F2]]; [left; congruence|]. right. split; [congruence|].
    intros s x q kq fd Hb Hx Hux Hq He. destruct (F2 s x q kq fd Hb Hx Hux Hq He) as (x2 & kq2 & Hx2 & Hux2 & Hq2 & He2).
    apply (F3 s x2 q kq2 fd); congruence.
Qed.

(** A step that leaves udatas, fd_states and their trees alone. *)
Lemma keep_plain p w w' :
  w_udatas w' = w_udatas w -> w_fdss w' = w_fdss w -> kq_fd_st <$> w_kqs w' = kq_fd_st <$> w_kqs w ->
  (forall kn', w_knotes w' !! p = Some kn' ->
     kn_udata kn' = None \/ exists kn, w_knotes w !! p = Some kn /\ kn_udata kn' = kn_udata kn) ->
  keep p w w'.
Proof.
  intros Hu Hf Hq Hk u d Hd Hn. split.
  - intros kn' E'. destruct (Hk kn' E') as [->|(kn & E & ->)]; [done|by apply Hn].
  - exists d. rewrite Hu. split_and!; try done. right. split; [done|].
    intros s x q kq fd _ Hx Hux Eq He. rewrite Hf. apply (f_equal (lookup q)) in Hq. rewrite !lookup_fmap, Eq in Hq.
    destruct (w_kqs w' !! q) as [kq'|] eqn:Eq'; [|done]. injection Hq as Ht. exists x, kq'. by rewrite Ht.
Qed.

(** A udata is added, and perhaps given to the knote. *)
Lemma keep_new p w w' v y :
  w_udatas w !! v = None -> w_udatas w' = <[v := y]> (w_udatas w) -> w_fdss w' = w_fdss w -> w_kqs w' = w_kqs w ->
  (forall kn', w_knotes w' !! p = Some kn' -> kn_udata kn' = Some v) -> keep p w w'.
Proof.
  intros Hv Hu Hf Hq Hk u d Hd Hn. assert (u <> v) by congruence. split.
  - intros kn' E'. rewrite (Hk kn' E'). congruence.
  - exists d. rewrite Hu, lookup_insert_ne by done. split_and!; try done. right. split; [done|].
    intros s x q kq fd _ Hx Hux Eq He. rewrite Hf, Hq. by exists x, kq.
Qed.

(** The udata of the knote is taken from it and freed or queued. *)
Lemma keep_give_up p w w' v kn :
  w_knotes w !! p = Some kn -> kn_udata kn = Some v -> (forall u, u <> v -> w_udatas w' !! u = w_udatas w !! u) ->
  w_fdss w' = w_fdss w -> kq_fd_st <$> w_kqs w' = kq_fd_st <$> w_kqs w ->
  (forall kn', w_knotes w' !! p = Some kn' -> kn_udata kn' = None) -> keep p w w'.
Proof.
  intros E Ev Hu Hf Hq Hk u d Hd Hn. assert (u <> v) by (intros ->; by apply (Hn kn)). split.
  - intros kn' E'. by rewrite (Hk kn' E').
  - exists d. rewrite Hu by done. split_and!; try done. right. split; [done|].
    intros s x q kq fd _ Hx Hux Eq He. rewrite Hf. apply (f_equal (lookup q)) in Hq. rewrite !lookup_fmap, Eq in Hq.
    destruct (w_kqs w' !! q) as [kq'|] eqn:Eq'; [|done]. injection Hq as Ht. exists x, kq'. by rewrite Ht.
Qed.

(** The knote gives up its udata pointer or keeps it. *)
Lemma keep_upd p w kn kn' :
  w_knotes w !! p = Some kn -> kn_udata kn' = kn_udata kn \/ kn_udata kn' = None ->
  keep p w (set_w_knotes (<[p := kn']> (w_knotes w)) w).
Proof.
  intros E Hk. apply keep_plain; try done. simpl. rewrite lookup_insert_eq. intros k [= <-].
  destruct Hk as [->| ->]; eauto.
Qed.
End Keep.

(** ** The state of a callback *)

(** The callback called in [w0] on the knote [p] of [q] has reached [w], where
    the knote is [kn]. *)
Record cbst {K : Type} (w0 : world K) (q p : ptr) (kn : knote) (w : world K) : Prop :=
  { cs_frame : frame_ p w0 w;
    cs_inv : linux_data w;
    cs_kn : w_knotes w !! p = Some kn;
    cs_kq : exists kq, w_kqs w !! q = Some kq /\ kq_locked kq = true;
    cs_keep : keep p w0 w }.

Section Rules.
Context {K : Type} `{OS K}.
Implicit Types (w : world K) (p q : ptr).

Lemma cbst_start w q i p :
  linux_data w -> cb_pre w q i p -> exists kn, cbst w q p kn w /\ kn_kq kn = Some q /\
    Z.lnot (filter_ (kev kn)) = Z.of_nat i.
Proof. intros Hi (kq & x & kn & E & Hl & Ei & Ek & Hq & Hf & _). exists kn. split_and!; try done. by split; eauto. Qed.

Lemma cbst_move w0 q p kn w w' :
  cbst w0 q p kn w -> frame_ p w w' -> linux_data w' -> w_knotes w' = w_knotes w -> keep p w w' ->
  cbst w0 q p kn w'.
Proof.
  intros [A B C (kq & E & Hl) D] Hf Hi Hk Hke. split; [by etrans|done|congruence| |by etrans].
  destruct (frame_kq _ _ _ _ _ Hf E) as (kq' & E' & Hc). exists kq'. injection Hc as _ _ Hl' _ _ _. split; congruence.
Qed.

Lemma cbst_knote w0 q p kn w w' kn' :
  cbst w0 q p kn w -> frame_ p w w' -> linux_data w' -> w_knotes w' !! p = Some kn' -> keep p w w' ->
  cbst w0 q p kn' w'.
Proof.
  intros [A B C (kq & E & Hl) D] Hf Hi Hk Hke. split; [by etrans|done|congruence| |by etrans].
  destruct (frame_kq _ _ _ _ _ Hf E) as (kq' & E' & Hc). exists kq'. injection Hc as _ _ Hl' _ _ _. split; congruence.
Qed.

Lemma cb_sys {A : Type} (c : syscall A) (Q : option A -> world K -> Prop) w0 q p kn w :
  cbst w0 q p kn w -> (forall r w', cbst w0 q p kn w' -> Q r w') -> wp (sys c) Q w.
Proof.
  intros Hs HQ. apply wp_sys.
  - intros a k _. apply HQ. eapply cbst_move; [exact Hs|apply frame_os| |done|apply keep_plain; by eauto].
    by eapply pi_stable; [apply Hs|apply plat_os].
  - intros e k _. apply HQ. eapply cbst_move; [exact Hs| | |done|apply keep_plain; by eauto].
    + etrans; [apply frame_os|apply (frame_errno _ (set_w_os k w))].
    + eapply pi_stable; [apply Hs|]. by split.
Qed.

Lemma cb_epoll_ctl epfd op fd ev (Q : bool -> world K -> Prop) w0 q p kn w :
  cbst w0 q p kn w -> (forall b w', cbst w0 q p kn w' -> Q b w') -> wp (epoll_ctl epfd op fd ev) Q w.
Proof. intros Hs HQ. unfold epoll_ctl. wp_simpl. eapply cb_sys; [exact Hs|]. intros r w' Hs'. wp_simpl. by apply HQ. Qed.

Lemma cb_set_errno e (Q : unit -> world K -> Prop) w0 q p kn w :
  cbst w0 q p kn w -> (forall w', cbst w0 q p kn w' -> Q tt w') -> wp (set_errno e) Q w.
Proof.
  intros Hs HQ. unfold set_errno. wp_simpl. apply HQ. eapply cbst_move; [exact Hs|apply frame_errno| |done|apply keep_plain; by eauto].
  by eapply pi_stable; [apply Hs|apply plat_errno].
Qed.

Lemma cb_get_kn (Q : knote -> world K -> Prop) w0 q p kn w :
  cbst w0 q p kn w -> Q kn w -> wp (get_kn p) Q w.
Proof. intros Hs HQ. by eapply wp_get_kn; [apply Hs|]. Qed.

Lemma cb_upd_kn g (Q : unit -> world K -> Prop) w0 q p kn w :
  cbst w0 q p kn w -> kn_common (g kn) = kn_common kn -> kn_udata (g kn) = kn_udata kn ->
  kn_fds (g kn) = kn_fds kn ->
  (forall w', cbst w0 q p (g kn) w' -> Q tt w') -> wp (upd_kn p g) Q w.
Proof.
  intros Hs Hc Hu Hf HQ. eapply wp_upd_kn; [apply Hs|]. apply HQ.
  eapply cbst_knote; [exact Hs| | |simpl; by rewrite lookup_insert_eq|eapply keep_upd; [apply Hs|by left]].
  - eapply frame_knotes; [apply Hs|done].
  - eapply li_knote; [apply Hs|apply Hs| |].
    + injection Hc as V1 V2 _ V3 _. congruence.
    + intros u Hk. eapply li_kn; [apply Hs|apply Hs|congruence].
Qed.

Lemma cb_epoll_fd i (Q : Z -> world K -> Prop) w0 q p kn w :
  cbst w0 q p kn w -> (forall fd, Q fd w) -> wp (filter_epoll_fd (q, i)) Q w.
Proof.
  intros Hs HQ. destruct (cs_kq _ _ _ _ _ Hs) as (kq & E & _). unfold filter_epoll_fd. wp_simpl.
  eapply wp_get_kq; [exact E|]. wp_simpl. apply HQ.
Qed.

Lemma cb_ev_kn e (Q : option epoll_event -> world K -> Prop) w0 q p kn w :
  cbst w0 q p kn w -> (forall ev, Q ev w) -> wp (EPOLL_EV_KN e p) Q w.
Proof. intros Hs HQ. unfold EPOLL_EV_KN. wp_simpl. eapply cb_get_kn; [exact Hs|]. wp_simpl. apply HQ. Qed.

(** ** The udata of the knote *)

Lemma cb_udata_alloc (Q : option ptr -> world K -> Prop) w0 q p kn w :
  cbst w0 q p kn w -> (forall u w', cbst w0 q p (set_kn_udata u kn) w' -> Q u w') ->
  wp (KN_UDATA_ALLOC p) Q w.
Proof.
  intros Hs HQ. unfold KN_UDATA_ALLOC, epoll_udata_alloc, put_ud. wp_simpl. apply wp_alloc.
  - intros k. wp_simpl. eapply wp_upd_kn; [simpl; apply Hs|]. apply HQ.
    set (w1 := set_w_os k w). assert (Hi1 : linux_data w1) by (eapply pi_stable; [apply Hs|apply plat_os]).
    pose proof (li_new_ud w1 (EpollUdata EPOLL_UDATA_KNOTE (ud_kn p) false 0) Hi1) as Hi2.
    eapply cbst_knote; [exact Hs| | |simpl; by rewrite lookup_insert_eq|].
    3: { eapply keep_new; [apply (li_fresh _ Hi1 (w_next w)); simpl; lia|done..|].
         simpl. rewrite lookup_insert_eq. by intros kn' [= <-]. }
    + etrans; [apply frame_os|]. etrans; [apply (frame_next _ w1)|]. etrans; [eapply frame_udatas|].
      eapply frame_knotes; [simpl; apply Hs|done].
    + eapply (li_knote _ p kn); [exact Hi2|apply Hs|done|]. intros u [= <-]. simpl. rewrite lookup_insert_eq. eauto.
  - intros e k. wp_simpl. eapply wp_upd_kn; [simpl; apply Hs|]. apply HQ.
    assert (Hi1 : linux_data (set_w_errno e (set_w_os k w))) by (eapply pi_stable; [apply Hs|by split]).
    eapply cbst_knote; [exact Hs| | |simpl; by rewrite lookup_insert_eq|].
    3: { apply keep_plain; try done. simpl. rewrite lookup_insert_eq. intros kn' [= <-]. by left. }
    + etrans; [apply frame_os|]. etrans; [apply frame_errno|]. eapply frame_knotes; [simpl; apply Hs|done].
    + by eapply (li_knote _ p kn); [exact Hi1|apply Hs|done|].
Qed.

Lemma li_clear_udata w p kn :
  linux_data w -> w_knotes w !! p = Some kn ->
  linux_data (set_w_knotes (<[p := set_kn_udata None kn]> (w_knotes w)) w).
Proof. intros Hi Hp. by eapply li_knote. Qed.

Lemma cb_udata_free (Q : unit -> world K -> Prop) w0 q p kn w :
  cbst w0 q p kn w -> (forall w', cbst w0 q p (set_kn_udata None kn) w' -> Q tt w') ->
  wp (KN_UDATA_FREE p) Q w.
Proof.
  intros Hs HQ. unfold KN_UDATA_FREE, free_udata. wp_simpl. eapply cb_get_kn; [exact Hs|]. wp_simpl.
  pose proof (li_clear_udata w p kn (cs_inv _ _ _ _ _ Hs) (cs_kn _ _ _ _ _ Hs)) as Hi1.
  destruct (kn_udata kn) as [u|] eqn:Hu.
  - destruct (kn_unref w p kn u (cs_inv _ _ _ _ _ Hs) (cs_kn _ _ _ _ _ Hs) Hu) as (Hun & (e & He) & Hnd).
    unfold free_ud. wp_simpl. eapply wp_get_ud; [exact He|]. wp_simpl.
    eapply wp_upd_kn; [simpl; apply Hs|]. apply HQ.
    eapply cbst_knote; [exact Hs| | |simpl; by rewrite lookup_insert_eq|].
    3: { eapply keep_give_up; [apply Hs|exact Hu| |done..|].
         - intros v Hv. simpl. by rewrite lookup_delete_ne.
         - simpl. rewrite lookup_insert_eq. by intros kn' [= <-]. }
    + etrans; [apply frame_udatas|]. eapply frame_knotes; [simpl; apply Hs|done].
    + exact (li_drop_ud _ u Hi1 Hun Hnd).
  - wp_simpl. eapply wp_upd_kn; [simpl; apply Hs|]. apply HQ.
    eapply cbst_knote; [exact Hs| |exact Hi1|simpl; by rewrite lookup_insert_eq|eapply keep_upd; [apply Hs|by right]].
    eapply frame_knotes; [simpl; apply Hs|done].
Qed.

Lemma cb_udata_defer (Q : unit -> world K -> Prop) w0 q p kn w :
  cbst w0 q p kn w -> (forall w', cbst w0 q p (set_kn_udata None kn) w' -> Q tt w') ->
  wp (KN_UDATA_DEFER_FREE q p) Q w.
Proof.
  intros Hs HQ. unfold KN_UDATA_DEFER_FREE, epoll_udata_defer_free. wp_simpl. eapply cb_get_kn; [exact Hs|].
  pose proof (cs_kq _ _ _ _ _ Hs) as (kq & E & Hl). wp_simpl. eapply wp_mutex_assert; [exact E|exact Hl|].
  pose proof (li_clear_udata w p kn (cs_inv _ _ _ _ _ Hs) (cs_kn _ _ _ _ _ Hs)) as Hi1.
  destruct (kn_udata kn) as [u|] eqn:Hu.
  - destruct (kn_unref w p kn u (cs_inv _ _ _ _ _ Hs) (cs_kn _ _ _ _ _ Hs) Hu) as (Hun & (e & He) & Hnd).
    wp_simpl. eapply wp_get_ud; [exact He|]. wp_simpl. apply wp_assert. split; [done|]. wp_simpl.
    eapply wp_get_kq; [exact E|]. unfold put_ud. wp_simpl. eapply wp_upd_kq; [simpl; exact E|]. wp_simpl.
    eapply wp_upd_kn; [simpl; apply Hs|]. apply HQ.
    eapply cbst_knote; [exact Hs| | |simpl; by rewrite lookup_insert_eq|].
    3: { eapply keep_give_up; [apply Hs|exact Hu| |done| |].
         - intros v Hv. simpl. by rewrite lookup_insert_ne.
         - simpl. rewrite fmap_insert. apply insert_id. by rewrite lookup_fmap, E.
         - simpl. rewrite lookup_insert_eq. by intros kn' [= <-]. }
    + etrans; [eapply frame_udatas|]. 
      etrans; [eapply (frame_kqueue _ _ q kq (set_ud_deferred_free (ud_deferred_free kq ++ [u]) kq)); [simpl; exact E|done]|].
      eapply frame_knotes; [simpl; apply Hs|done].
    + exact (li_defer _ q kq u _ (kq_next_epoch kq) Hi1 Hun E He eq_refl).
  - wp_simpl. eapply wp_upd_kn; [simpl; apply Hs|]. apply HQ.
    eapply cbst_knote; [exact Hs| |exact Hi1|simpl; by rewrite lookup_insert_eq|eapply keep_upd; [apply Hs|by right]].
    eapply frame_knotes; [simpl; apply Hs|done].
Qed.
End Rules.

(** One step of a callback; branches on what a call or a condition gives. *)
Ltac cb_step :=
  cbn [fst snd]; wp_simpl;
  first
    [ eapply cb_get_kn; [eassumption|]
    | eapply cb_upd_kn; [eassumption|reflexivity|reflexivity|reflexivity|intros ? ?]
    | eapply cb_epoll_fd; [eassumption|intros ?]
    | eapply cb_ev_kn; [eassumption|intros ?]
    | eapply cb_epoll_ctl; [eassumption|intros ? ? ?]
    | eapply cb_udata_alloc; [eassumption|intros ? ? ?]
    | eapply cb_udata_free; [eassumption|intros ? ?]
    | eapply cb_udata_defer; [eassumption|intros ? ?]
    | eapply cb_set_errno; [eassumption|intros ? ?]
    | eapply cb_sys; [eassumption|intros ? ? ?]
    | match goal with
      | |- wp (if ?b then _ else _) _ _ => destruct b eqn:?
      | |- wp (match ?o with Some _ => _ | None => _ end) _ _ => destruct o eqn:?
      end ].
Ltac cb_go := repeat cb_step; wp_simpl.

(** From a callback run in [cbst] to the clauses of [FilterContract]. *)
Section Clauses.
Context {K : Type}.
Implicit Types (w : world K) (p q : ptr).

Lemma cbst_unshared w q p kn w' :
  cbst w q p kn w' -> filter_ (kev kn) <> EVFILT_READ -> filter_ (kev kn) <> EVFILT_WRITE ->
  forall k, w_knotes w' !! p = Some k -> unshared k.
Proof. intros Hs H1 H2 k Hk. rewrite (cs_kn _ _ _ _ _ Hs) in Hk. simplify_eq. by right. Qed.

Lemma cbst_filter w q p kn kn' w' : 
  cbst w q p kn w -> cbst w q p kn' w' -> filter_ (kev kn') = filter_ (kev kn).
Proof.
  intros H1 H2. pose proof (fr_knote _ _ _ (cs_frame _ _ _ _ _ H2)) as Hf.
  rewrite (cs_kn _ _ _ _ _ H1), (cs_kn _ _ _ _ _ H2) in Hf. simpl in Hf. by injection Hf as _ -> _ _ _.
Qed.

(** A filter with its own registration per knote keeps the contract when its
    callbacks run in [cbst]. *)
Lemma own_contract (i : nat) (o : filter_ops K) :
  (1 < i)%nat -> kf_init o = None -> kf_destroy o = None ->
  (forall w0 q p kn w, cbst w0 q p kn w -> wp (kn_create o (q, i) p) (fun _ w' => exists kn', cbst w0 q p kn' w') w) ->
  (forall w0 q p kn w k, cbst w0 q p kn w -> wp (kn_modify o (q, i) p k) (fun _ w' => exists kn', cbst w0 q p kn' w') w) ->
  (forall w0 q p kn w, cbst w0 q p kn w -> wp (kn_delete o (q, i) p) (fun rv w' => rv <> 1 /\ exists kn', cbst w0 q p kn' w') w) ->
  (forall w0 q p kn w, cbst w0 q p kn w -> wp (kn_enable o (q, i) p) (fun _ w' => exists kn', cbst w0 q p kn' w') w) ->
  (forall w0 q p kn w, cbst w0 q p kn w -> wp (kn_disable o (q, i) p)
     (fun _ w' => exists kn', cbst w0 q p kn' w' /\ kev kn' = kev kn) w) ->
  FilterContract linux_inv i o.
Proof.
  intros Hi Hin Hde Hc Hm Hd He Hdi.
  assert (Hrw : forall kn, Z.lnot (filter_ (kev kn)) = Z.of_nat i ->
    filter_ (kev kn) <> EVFILT_READ /\ filter_ (kev kn) <> EVFILT_WRITE).
  { intros kn Hf. unfold EVFILT_READ, EVFILT_WRITE, Z.lnot in *. lia. }
  assert (Hend : forall w q p kn w' kn', cbst w q p kn w -> Z.lnot (filter_ (kev kn)) = Z.of_nat i ->
    shared_ok (Some p) w -> cbst w q p kn' w' ->
    linux_inv w' /\ forall k, w_knotes w' !! p = Some k -> unshared k).
  { intros w q p kn w' kn' Hs Hf Hsh Hs'. pose proof (cbst_filter _ _ _ _ _ _ Hs Hs') as Hf'.
    destruct (Hrw kn Hf) as [H1 H2]. rewrite <- Hf' in H1, H2. split; [|by eapply cbst_unshared].
    split; [apply Hs'|]. eapply shared_own; [apply Hs'|apply Hs'|done|apply Hs'|done|done]. }
  assert (Hst : forall w q p, linux_inv w -> cb_pre w q i p -> exists kn, cbst w q p kn w /\
    Z.lnot (filter_ (kev kn)) = Z.of_nat i /\ shared_ok (Some p) w).
  { intros w q p [HI Hsh] Hcb. destruct (cbst_start w q i p HI Hcb) as (kn & Hs & _ & Hf).
    exists kn. split_and!; [done..|by apply shared_weaken]. }
  split; try congruence.
  - intros w q p Hw HI Hcb _ _. destruct (Hst w q p HI Hcb) as (kn & Hs & Hf & Hsh).
    eapply wp_mono; [|by eapply Hc]. intros rv w' (kn' & Hs').
    destruct (Hend _ _ _ _ _ _ Hs Hf Hsh Hs') as [HI' Hun].
    split_and!; [apply Hs'|by eauto|]. intros w2 Hl. by eapply pi_stable, linking_plat.
  - intros w q p k Hw HI Hcb _ _. destruct (Hst w q p HI Hcb) as (kn & Hs & Hf & Hsh).
    eapply wp_mono; [|by eapply Hm]. intros rv w' (kn' & Hs').
    destruct (Hend _ _ _ _ _ _ Hs Hf Hsh Hs'). split; [apply Hs'|done].
  - intros w0 w q p _ Hw HI0 Hun Hcb. pose proof Hcb as (_ & _ & kn0 & _ & _ & _ & Ek & _ & Hfi & _).
    assert (Ek0 : w_knotes w0 !! p = Some kn0)
      by (by destruct Hun as (? & ? & ? & ? & ? & ? & ? & ? & ? & ? & -> & ?)).
    destruct (Hrw kn0 Hfi) as [H1 H2]. pose proof (pi_unlink _ _ _ _ _ _ HI0 Hun Ek0 H1 H2) as HI.
    destruct (Hst w q p HI Hcb) as (kn & Hs & Hf & Hsh).
    eapply wp_mono; [|by eapply Hd]. intros rv w' (Hrv & kn' & Hs').
    destruct (Hend _ _ _ _ _ _ Hs Hf Hsh Hs'). split_and!; [done|apply Hs'|done|done].
  - intros w q p Hw HI Hcb _. destruct (Hst w q p HI Hcb) as (kn & Hs & Hf & Hsh).
    eapply wp_mono; [|by eapply He]. intros rv w' (kn' & Hs').
    destruct (Hend _ _ _ _ _ _ Hs Hf Hsh Hs'). split; [apply Hs'|done].
  - intros w q p Hw HI Hcb _. destruct (Hst w q p HI Hcb) as (kn & Hs & Hf & Hsh).
    eapply wp_mono; [|by eapply Hdi]. intros rv w' (kn' & Hs' & Hk).
    destruct (Hend _ _ _ _ _ _ Hs Hf Hsh Hs'). split_and!; [apply Hs'|done|].
    rewrite (cs_kn _ _ _ _ _ Hs), (cs_kn _ _ _ _ _ Hs'). simpl. by f_equal.
Qed.
End Clauses.
