(* ===== verification/LinuxTimer.v ===== *)
(** * EVFILT_TIMER on Linux: src/linux/timer.c

    A timerfd per enabled knote.  [convert_timedata_to_itimerspec] turns the
    [data] and [fflags] of an event into the two times of the timerfd; C's
    division truncates towards zero, which is [Z.quot]. *)

From Stdlib Require Import ZArith Lia Bool.
From stdpp Require Import base list gmap.
From S2P Require Import Prelude RBTree Event Map State Ops Knote LinuxUdata LinuxEpoll LinuxShared LinuxRules.

Definition NOTE_TIMER_MASK : Z := NOTE_ABSOLUTE - 1.
Definition TFD_NONBLOCK : Z := 0x800.
Definition TFD_CLOEXEC : Z := 0x80000.
Definition TFD_TIMER_ABSTIME : Z := 1.

(** Seconds and nanoseconds of a time in the unit [flags] selects. *)
Definition timedata_split (src flags : Z) : Z * Z :=
  let unit_ := Z.land flags NOTE_TIMER_MASK in
  if unit_ =? NOTE_USECONDS then (Z.quot src 1000000, Z.rem src 1000000 * 1000)
  else if unit_ =? NOTE_NSECONDS then (Z.quot src 1000000000, Z.rem src 1000000000)
  else if unit_ =? NOTE_SECONDS then (src, 0)
  else (Z.quot src 1000, Z.rem src 1000 * 1000000).

Definition convert_timedata_to_itimerspec (src flags : Z) (oneshot : bool) : itimerspec :=
  let '(sec, nsec) := timedata_split src flags in
  if oneshot || has flags NOTE_ABSOLUTE then Itimerspec 0 0 sec nsec
  else Itimerspec sec nsec sec nsec.

Section Timer.
Context {K : Type} `{OS K} `{FilterList K}.
Implicit Types (w : world K) (p q : ptr) (f : filt_ref).

Definition timer_clock (ff : Z) : Z := if has ff NOTE_ABSOLUTE then CLOCK_REALTIME else CLOCK_MONOTONIC.
Definition timer_settime_flags (ff : Z) : Z := if has ff NOTE_ABSOLUTE then TFD_TIMER_ABSTIME else 0.
Definition timer_events (fl : Z) : Z :=
  let e := Z.lor EPOLLIN EPOLLET in
  if has fl (Z.lor EV_ONESHOT EV_DISPATCH) then Z.lor e EPOLLONESHOT else e.

Definition evfilt_timer_copyout (dst nevents : Z) f (src : option ptr) (ev : raw_event)
    : M (world K) Z :=
  let! p := deref NullDeref src in
  let! kn := get_kn p in
  store dst (kev kn) ;;;
  let! ev := epoll_ev ev in
  (if has (ev_events ev) EPOLLERR then upd_mem dst (set_fflags 1) else ret tt) ;;;
  let! r := sys (SysRead8 (kn_timerfd kn)) in
  let! e := errno in
  if bool_decide (r = None) && (e =? EAGAIN) then ret 0
  else
    let expired := match r with Some (n, v) => if n =? 8 then v else 1 | None => 1 end in
    upd_mem dst (set_data (s64 expired)) ;;;
    let! rv := knote_copyout_flag_actions f p in
    ret (if rv <? 0 then -1 else 1).

Definition evfilt_timer_knote_create f p : M (world K) Z :=
  upd_kn p (fun kn => set_kev (set_flags (setb (flags (kev kn)) EV_CLEAR) (kev kn)) kn) ;;;
  let! kn := get_kn p in
  let! tfd := sys (SysTimerfdCreate (timer_clock (fflags (kev kn))) (Z.lor TFD_CLOEXEC TFD_NONBLOCK)) in
  match tfd with
  | None => ret (-1)
  | Some tfd =>
      let ts := convert_timedata_to_itimerspec (data (kev kn)) (fflags (kev kn))
                  (has (flags (kev kn)) EV_ONESHOT) in
      let! r := sys (SysTimerfdSettime tfd (timer_settime_flags (fflags (kev kn))) ts) in
      match r with
      | None => sys (SysClose tfd) ;;; ret (-1)
      | Some _ =>
          KN_UDATA_ALLOC p ;;;
          let! epfd := filter_epoll_fd f in
          let! ev := EPOLL_EV_KN (timer_events (flags (kev kn))) p in
          let! ok := epoll_ctl epfd EPOLL_CTL_ADD tfd ev in
          if ok then upd_kn p (set_kn_timerfd tfd) ;;; ret 0
          else sys (SysClose tfd) ;;; KN_UDATA_FREE p ;;; ret (-1)
      end
  end.

(** The replacement of the timerfd when NOTE_ABSOLUTE is toggled: false where
    the function returns -1. *)
Definition timer_change_clock f p (k : kevent) : M (world K) bool :=
  let! newfd := sys (SysTimerfdCreate (timer_clock (fflags k)) (Z.lor TFD_CLOEXEC TFD_NONBLOCK)) in
  match newfd with
  | None => ret false
  | Some newfd =>
      let! kn := get_kn p in
      let! epfd := filter_epoll_fd f in
      epoll_ctl epfd EPOLL_CTL_DEL (kn_timerfd kn) None ;;;
      sys (SysClose (kn_timerfd kn)) ;;;
      let! ev := EPOLL_EV_KN (timer_events (flags k)) p in
      let! ok := epoll_ctl epfd EPOLL_CTL_ADD newfd ev in
      if ok then upd_kn p (set_kn_timerfd newfd) ;;; ret true
      else sys (SysClose newfd) ;;; ret false
  end.

Definition evfilt_timer_knote_modify f p (k : kevent) : M (world K) Z :=
  let! kn := get_kn p in
  let clk_changed := has (Z.lxor (fflags k) (fflags (kev kn))) NOTE_ABSOLUTE in
  let! go := (if clk_changed then timer_change_clock f p k else ret true) in
  if negb go then ret (-1)
  else
    let! kn := get_kn p in
    let ts := convert_timedata_to_itimerspec (data k) (fflags k) (has (flags k) EV_ONESHOT) in
    let! r := sys (SysTimerfdSettime (kn_timerfd kn) (timer_settime_flags (fflags k)) ts) in
    match r with
    | None => ret (-1)
    | Some _ =>
        upd_kn p (fun kn =>
          let e := kev kn in
          set_kev (Kevent (ident e) (filter_ e)
            (Z.lor (Z.lor (flags k) EV_CLEAR) (Z.land (flags e) EV_RECEIPT))
            (fflags k) (data k) (udata e)) kn) ;;;
        ret 0
    end.

Definition evfilt_timer_knote_delete f p : M (world K) Z :=
  let! kn := get_kn p in
  if kn_timerfd kn =? -1 then ret 0
  else
    let! epfd := filter_epoll_fd f in
    let! ok := epoll_ctl epfd EPOLL_CTL_DEL (kn_timerfd kn) None in
    KN_UDATA_DEFER_FREE f.1 p ;;;
    let! r := sys (SysClose (kn_timerfd kn)) in
    upd_kn p (set_kn_timerfd (-1)) ;;;
    ret (if ok && bool_decide (r = Some tt) then 0 else -1).

Definition evfilt_timer_knote_enable f p : M (world K) Z := evfilt_timer_knote_create f p.
Definition evfilt_timer_knote_disable f p : M (world K) Z := evfilt_timer_knote_delete f p.

Definition evfilt_timer : filter_src K :=
  FilterSrc EVFILT_TIMER (FilterOps None None evfilt_timer_copyout evfilt_timer_knote_create
    evfilt_timer_knote_modify evfilt_timer_knote_delete evfilt_timer_knote_enable
    evfilt_timer_knote_disable).

(** ** The contract *)

Lemma timer_create_ok w0 q i p kn w :
  cbst w0 q p kn w -> wp (evfilt_timer_knote_create (q, i) p) (fun _ w' => exists kn', cbst w0 q p kn' w') w.
Proof. intros Hs. unfold evfilt_timer_knote_create. cb_go; eauto. Qed.

Lemma timer_delete_ok w0 q i p kn w :
  cbst w0 q p kn w -> wp (evfilt_timer_knote_delete (q, i) p)
    (fun rv w' => rv <> 1 /\ exists kn', cbst w0 q p kn' w' /\ kev kn' = kev kn) w.
Proof.
  intros Hs. unfold evfilt_timer_knote_delete. cb_go; [by eauto|].
  split; [by destruct (_ && _)|]. eauto.
Qed.

Lemma timer_modify_ok w0 q i p kn w k :
  cbst w0 q p kn w -> wp (evfilt_timer_knote_modify (q, i) p k) (fun _ w' => exists kn', cbst w0 q p kn' w') w.
Proof. intros Hs. unfold evfilt_timer_knote_modify, timer_change_clock. cb_go; eauto. Qed.

#[export] Instance timer_contract : FilterContract linux_inv 6 (fs_ops evfilt_timer).
Proof.
  apply own_contract; simpl; try done; [lia|..].
  - intros. by eapply timer_create_ok.
  - intros. by eapply timer_modify_ok.
  - intros. eapply wp_mono; [|by eapply timer_delete_ok]. naive_solver.
  - intros. by eapply timer_create_ok.
  - intros. eapply wp_mono; [|by eapply timer_delete_ok]. naive_solver.
Qed.
End Timer.
