(* ===== verification/LinuxUser.v ===== *)
(** * EVFILT_USER on Linux: src/linux/user.c

    An eventfd per knote: NOTE_TRIGGER raises it, delivery lowers it. *)

From Stdlib Require Import ZArith Lia Bool.
From stdpp Require Import base list gmap.
From S2P Require Import Prelude RBTree Event Map State Ops Knote LinuxUdata LinuxEpoll LinuxShared LinuxRules LinuxTimer.

Definition EFD_CLOEXEC : Z := 0x80000.
Definition EFD_NONBLOCK : Z := 0x800.

(** The new [fflags] for the control bits of a change: None for a control value
    the switch does not know. *)
Definition user_fflags (old change : Z) : option Z :=
  let ffctrl := Z.land change NOTE_FFCTRLMASK in
  let ff := Z.land change NOTE_FFLAGSMASK in
  if ffctrl =? NOTE_FFNOP then Some old
  else if ffctrl =? NOTE_FFAND then Some (Z.land old ff)
  else if ffctrl =? NOTE_FFOR then Some (Z.lor old ff)
  else if ffctrl =? NOTE_FFCOPY then Some ff
  else None.

Section User.
Context {K : Type} `{OS K} `{FilterList K}.
Implicit Types (w : world K) (p q : ptr) (f : filt_ref).

Definition eventfd_raise (evfd : Z) : M (world K) Z :=
  let! r := sys (SysWrite8 evfd 1) in
  match r with
  | Some _ => ret 0
  | None =>
      let! e := errno in
      ret (if e =? EAGAIN then 0 else if e =? EINTR then - EINTR else -1)
  end.

Definition eventfd_lower (evfd : Z) : M (world K) Z :=
  let! r := sys (SysRead8 evfd) in
  match r with
  | None =>
      let! e := errno in
      ret (if e =? EAGAIN then 0 else if e =? EINTR then - EINTR else -1)
  | Some (n, _) => ret (if n =? 8 then 1 else -1)
  end.

Definition upd_fflags (g : Z -> Z) (kn : knote) : knote :=
  set_kev (set_fflags (g (fflags (kev kn))) (kev kn)) kn.

Definition linux_evfilt_user_copyout (dst nevents : Z) f (src : option ptr) (ev : raw_event)
    : M (world K) Z :=
  let! p := deref NullDeref src in
  let! kn := get_kn p in
  store dst (kev kn) ;;;
  upd_mem dst (fun k => set_fflags (clrb (fflags k) NOTE_FFCTRLMASK) k) ;;;
  upd_mem dst (fun k => set_fflags (clrb (fflags k) NOTE_TRIGGER) k) ;;;
  (if has (flags (kev kn)) EV_CLEAR then upd_kn p (upd_fflags (fun x => clrb x NOTE_TRIGGER))
   else ret tt) ;;;
  let! rv := (if has (flags (kev kn)) (Z.lor EV_DISPATCH (Z.lor EV_CLEAR EV_ONESHOT))
              then eventfd_lower (kn_user_eventfd kn) else ret 1) in
  if rv <? 0 then ret (-1)
  else if rv =? 0 then ret 0
  else
    (if has (flags (kev kn)) EV_DISPATCH then upd_kn p (upd_fflags (fun x => clrb x NOTE_TRIGGER))
     else ret tt) ;;;
    let! rv := knote_copyout_flag_actions f p in
    ret (if rv <? 0 then -1 else 1).

Definition linux_evfilt_user_knote_enable f p : M (world K) Z :=
  let! kn := get_kn p in
  let! epfd := filter_epoll_fd f in
  let! ev := EPOLL_EV_KN EPOLLIN p in
  let! ok := epoll_ctl epfd EPOLL_CTL_ADD (kn_user_eventfd kn) ev in
  ret (if ok then 0 else -1).

Definition linux_evfilt_user_knote_disable f p : M (world K) Z :=
  let! kn := get_kn p in
  let! epfd := filter_epoll_fd f in
  let! ok := epoll_ctl epfd EPOLL_CTL_DEL (kn_user_eventfd kn) None in
  ret (if ok then 0 else -1).

Definition linux_evfilt_user_knote_create f p : M (world K) Z :=
  let! r := sys (SysEventfd 0 (Z.lor EFD_CLOEXEC EFD_NONBLOCK)) in
  match r with
  | None => sys (SysClose (-1)) ;;; upd_kn p (set_kn_user_eventfd (-1)) ;;; ret (-1)
  | Some evfd =>
      upd_kn p (set_kn_user_eventfd evfd) ;;;
      KN_UDATA_ALLOC p ;;;
      let! kn := get_kn p in
      if KNOTE_ENABLED kn then
        let! rv := linux_evfilt_user_knote_enable f p in
        (if rv <? 0 then KN_UDATA_FREE p else ret tt) ;;; ret rv
      else ret 0
  end.

Definition linux_evfilt_user_knote_modify f p (k : kevent) : M (world K) Z :=
  let! kn := get_kn p in
  match user_fflags (fflags (kev kn)) (fflags k) with
  | None => set_errno EINVAL ;;; ret (-1)
  | Some ff =>
      upd_kn p (upd_fflags (fun _ => ff)) ;;;
      if negb (has (flags (kev kn)) EV_DISABLE) && has (fflags k) NOTE_TRIGGER then
        upd_kn p (upd_fflags (fun x => setb x NOTE_TRIGGER)) ;;;
        let! rv := eventfd_raise (kn_user_eventfd kn) in
        ret (if rv <? 0 then -1 else 0)
      else ret 0
  end.

Definition linux_evfilt_user_knote_delete f p : M (world K) Z :=
  let! kn := get_kn p in
  (if KNOTE_ENABLED kn then linux_evfilt_user_knote_disable f p else ret 0) ;;;
  KN_UDATA_DEFER_FREE f.1 p ;;;
  let! r := sys (SysClose (kn_user_eventfd kn)) in
  match r with
  | None => ret (-1)
  | Some _ => upd_kn p (set_kn_user_eventfd (-1)) ;;; ret 0
  end.

Definition evfilt_user : filter_src K :=
  FilterSrc EVFILT_USER (FilterOps None None linux_evfilt_user_copyout
    linux_evfilt_user_knote_create linux_evfilt_user_knote_modify linux_evfilt_user_knote_delete
    linux_evfilt_user_knote_enable linux_evfilt_user_knote_disable).

(** ** The contract *)

Lemma user_disable_ok w0 q i p kn w :
  cbst w0 q p kn w -> wp (linux_evfilt_user_knote_disable (q, i) p) (fun _ w' => cbst w0 q p kn w') w.
Proof. intros Hs. unfold linux_evfilt_user_knote_disable. by cb_go. Qed.

Lemma user_delete_ok w0 q i p kn w :
  cbst w0 q p kn w -> wp (linux_evfilt_user_knote_delete (q, i) p)
    (fun rv w' => rv <> 1 /\ exists kn', cbst w0 q p kn' w') w.
Proof.
  intros Hs. unfold linux_evfilt_user_knote_delete. cb_step. wp_simpl.
  apply (wp_mono _ (fun _ w' => cbst w0 q p kn w')).
  - intros _ w1 Hs1. cb_go; eauto.
  - destruct (KNOTE_ENABLED kn); [by apply user_disable_ok|done].
Qed.

#[export] Instance user_contract : FilterContract linux_inv 10 (fs_ops evfilt_user).
Proof.
  apply own_contract; simpl; try done; [lia|..]; intros.
  - unfold linux_evfilt_user_knote_create, linux_evfilt_user_knote_enable. cb_go; eauto.
  - unfold linux_evfilt_user_knote_modify, eventfd_raise, errno. cb_go; eauto.
  - by eapply user_delete_ok.
  - unfold linux_evfilt_user_knote_enable. cb_go; eauto.
  - eapply wp_mono; [|by eapply user_disable_ok]. intros rv w' Hs'. by exists kn.
Qed.
End User.
