(* ===== verification/LinuxProc.v ===== *)
(** * EVFILT_PROC on Linux: src/linux/proc.c

    A pidfd per armed knote; delivery reads the exit state with [waitid] and
    rebuilds the status word [waitpid] would have stored. *)

From Stdlib Require Import ZArith Lia Bool.
From stdpp Require Import base list gmap.
From S2P Require Import Prelude RBTree Event Map State Ops Knote LinuxUdata LinuxEpoll LinuxShared LinuxRules LinuxTimer.


(** The status word for a [siginfo_t], None for the states that do not end a
    process. *)
Definition proc_status (info : siginfo) : option Z :=
  if si_code info =? CLD_EXITED then Some (u32 (Z.shiftl (si_status info) 8))
  else if si_code info =? CLD_DUMPED then Some (Z.lor 0x80 (Z.land (si_status info) 0x7f))
  else if si_code info =? CLD_KILLED then Some (Z.land (si_status info) 0x7f)
  else None.

Section Proc.
Context {K : Type} `{OS K} `{FilterList K}.
Implicit Types (w : world K) (p q : ptr) (f : filt_ref).

Definition evfilt_proc_copyout (dst nevents : Z) f (src : option ptr) (ev : raw_event)
    : M (world K) Z :=
  let! p := deref NullDeref src in
  let! kn := get_kn p in
  if KNOTE_DISABLED kn then ret 0
  else
    store dst (kev kn) ;;;
    let pid := u32 (ident (kev kn)) in
    let! info := sys (SysWaitid pid (Z.lor WEXITED (Z.lor WNOHANG WNOWAIT))) in
    let! info := (match info with
                  | Some i => if si_pid i =? 0 then sys (SysWaitid pid (Z.lor WEXITED WNOWAIT))
                              else ret (Some i)
                  | None => ret None
                  end) in
    match info with
    | None => ret (-1)
    | Some i =>
        match proc_status i with
        | None => ret 0
        | Some status =>
            upd_mem dst (fun k => set_flags (setb (flags k) EV_EOF) (set_data status k)) ;;;
            let! rv := knote_copyout_flag_actions f p in
            ret (if rv <? 0 then -1 else 1)
        end
    end.

Definition evfilt_proc_knote_enable f p : M (world K) Z :=
  let! kn := get_kn p in
  let! epfd := filter_epoll_fd f in
  let! ev := EPOLL_EV_KN EPOLLIN p in
  let! ok := epoll_ctl epfd EPOLL_CTL_ADD (kn_procfd kn) ev in
  ret (if ok then 0 else -1).

Definition evfilt_proc_knote_disable f p : M (world K) Z :=
  let! kn := get_kn p in
  if kn_procfd kn <? 0 then ret 0
  else
    let! epfd := filter_epoll_fd f in
    let! ok := epoll_ctl epfd EPOLL_CTL_DEL (kn_procfd kn) None in
    ret (if ok then 0 else -1).

(** The label [error_1] of [linux_proc_arm]. *)
Definition proc_arm_error (pfd : Z) p : M (world K) Z :=
  sys (SysClose pfd) ;;; upd_kn p (set_kn_procfd (-1)) ;;; ret (-1).

Definition linux_proc_arm f p : M (world K) Z :=
  let! kn := get_kn p in
  let! pfd := sys (SysPidfdOpen (s32 (ident (kev kn)))) in
  match pfd with
  | None => ret (-1)
  | Some pfd =>
      let! r := sys (SysFcntl pfd F_SETFD FD_CLOEXEC) in
      match r with
      | None => proc_arm_error pfd p
      | Some _ =>
          upd_kn p (set_kn_procfd pfd) ;;;
          let! u := KN_UDATA_ALLOC p in
          match u with
          | None => proc_arm_error pfd p
          | Some _ =>
              let! rv := evfilt_proc_knote_enable f p in
              if rv <? 0 then KN_UDATA_FREE p ;;; proc_arm_error pfd p else ret 0
          end
      end
  end.

Definition linux_proc_disarm f p : M (world K) unit :=
  let! kn := get_kn p in
  if kn_procfd kn <? 0 then ret tt
  else
    (if KNOTE_ENABLED kn then evfilt_proc_knote_disable f p else ret 0) ;;;
    KN_UDATA_DEFER_FREE f.1 p ;;;
    sys (SysClose (kn_procfd kn)) ;;;
    upd_kn p (set_kn_procfd (-1)).

Definition evfilt_proc_knote_create f p : M (world K) Z :=
  let! kn := get_kn p in
  if negb (has (fflags (kev kn)) NOTE_EXIT) then upd_kn p (set_kn_procfd (-1)) ;;; ret 0
  else
    let! rv := linux_proc_arm f p in
    if rv <? 0 then ret (-1)
    else upd_kn p (upd_flags (fun x => setb (setb x EV_ONESHOT) EV_CLEAR)) ;;; ret 0.

Definition proc_preserve : Z := Z.lor EV_ONESHOT (Z.lor EV_CLEAR EV_RECEIPT).

Definition evfilt_proc_knote_modify f p (k : kevent) : M (world K) Z :=
  let! kn := get_kn p in
  let was_armed := 0 <=? kn_procfd kn in
  let want_armed := has (fflags k) NOTE_EXIT in
  upd_kn p (fun kn => set_kev (set_fflags (fflags k)
    (set_flags (Z.lor (clrb (flags k) proc_preserve) (Z.land (flags (kev kn)) proc_preserve))
      (kev kn))) kn) ;;;
  if want_armed && negb was_armed then
    let! rv := linux_proc_arm f p in
    if rv <? 0 then ret (-1)
    else upd_kn p (upd_flags (fun x => setb x (Z.lor EV_ONESHOT EV_CLEAR))) ;;; ret 0
  else if negb want_armed && was_armed then linux_proc_disarm f p ;;; ret 0
  else ret 0.

Definition evfilt_proc_knote_delete f p : M (world K) Z := linux_proc_disarm f p ;;; ret 0.

Definition evfilt_proc : filter_src K :=
  FilterSrc EVFILT_PROC (FilterOps None None evfilt_proc_copyout evfilt_proc_knote_create
    evfilt_proc_knote_modify evfilt_proc_knote_delete evfilt_proc_knote_enable
    evfilt_proc_knote_disable).

(** ** The contract *)

Lemma proc_disable_ok w0 q i p kn w :
  cbst w0 q p kn w -> wp (evfilt_proc_knote_disable (q, i) p) (fun _ w' => cbst w0 q p kn w') w.
Proof. intros Hs. unfold evfilt_proc_knote_disable. by cb_go. Qed.

Lemma proc_arm_ok w0 q i p kn w :
  cbst w0 q p kn w -> wp (linux_proc_arm (q, i) p) (fun _ w' => exists kn', cbst w0 q p kn' w') w.
Proof. intros Hs. unfold linux_proc_arm, proc_arm_error, evfilt_proc_knote_enable. cb_go; eauto. Qed.

Lemma proc_disarm_ok w0 q i p kn w :
  cbst w0 q p kn w -> wp (linux_proc_disarm (q, i) p) (fun _ w' => exists kn', cbst w0 q p kn' w') w.
Proof.
  intros Hs. unfold linux_proc_disarm. cb_step. cb_step; [wp_simpl; eauto|]. wp_simpl.
  apply (wp_mono _ (fun _ w' => cbst w0 q p kn w')).
  - intros _ w1 Hs1. cb_go; eauto.
  - destruct (KNOTE_ENABLED kn); [by apply proc_disable_ok|done].
Qed.

#[export] Instance proc_contract : FilterContract linux_inv 4 (fs_ops evfilt_proc).
Proof.
  apply own_contract; simpl; try done; [lia|..]; intros.
  - unfold evfilt_proc_knote_create. cb_step. cb_step; [cb_go; eauto|].
    wp_simpl. eapply wp_mono; [|by eapply proc_arm_ok]. intros rv w' [kn' Hs']. cb_go; eauto.
  - unfold evfilt_proc_knote_modify. cb_step. cb_step. cb_step.
    + wp_simpl. eapply wp_mono; [|by eapply proc_arm_ok]. intros rv w2 [kn' Hs']. cb_go; eauto.
    + cb_step; [|wp_simpl; eauto]. wp_simpl. eapply wp_mono; [|by eapply proc_disarm_ok].
      intros rv w2 [kn' Hs']. wp_simpl. eauto.
  - unfold evfilt_proc_knote_delete. wp_simpl. eapply wp_mono; [|by eapply proc_disarm_ok].
    intros rv w' [kn' Hs']. wp_simpl. eauto.
  - unfold evfilt_proc_knote_enable. cb_go; eauto.
  - eapply wp_mono; [|by eapply proc_disable_ok]. intros rv w' Hs'. by exists kn.
Qed.
End Proc.
