(* ===== verification/LinuxReadWrite.v ===== *)
(** * EVFILT_READ and EVFILT_WRITE on Linux: src/linux/read.c, src/linux/write.c

    Sockets, pipes and devices go through the shared registration of
    [LinuxEpoll]; a regular file, which epoll refuses, gets an eventfd that is
    always readable.  Also [linux_get_descriptor_type] of src/linux/platform.c. *)

From Stdlib Require Import ZArith Lia Bool.
From stdpp Require Import base list gmap.
From S2P Require Import Prelude RBTree Event Map State Ops Knote LinuxUdata LinuxEpoll LinuxShared LinuxRules LinuxTimer LinuxUser.

Definition SO_SNDLOWAT : Z := 19.
Definition SO_GET_FILTER : Z := 26.
Definition SIOCINQ : Z := 0x541b.
Definition SIOCOUTQ : Z := 0x5411.
Definition F_GETPIPE_SZ : Z := 1032.

(** The flag of a descriptor that is not a socket, by [st_mode & S_IFMT]. *)
Definition mode_flag (fmt : Z) : option Z :=
  if fmt =? S_IFREG then Some KNFL_FILE
  else if fmt =? S_IFIFO then Some KNFL_PIPE
  else if fmt =? S_IFBLK then Some KNFL_BLOCKDEV
  else if fmt =? S_IFCHR then Some KNFL_CHARDEV
  else if fmt =? 0 then Some (Z.lor KNFL_SOCKET KNFL_SOCKET_PASSIVE)
  else None.

(** The flag of a socket, by SO_TYPE. *)
Definition socket_flag (stype : Z) : option Z :=
  if stype =? SOCK_STREAM then Some KNFL_SOCKET_STREAM
  else if stype =? SOCK_DGRAM then Some KNFL_SOCKET_DGRAM
  else if stype =? SOCK_RDM then Some KNFL_SOCKET_RDM
  else if stype =? SOCK_SEQPACKET then Some KNFL_SOCKET_SEQPACKET
  else if stype =? SOCK_RAW then Some KNFL_SOCKET_RAW
  else None.

Section ReadWrite.
Context {K : Type} `{OS K} `{FilterList K}.
Implicit Types (w : world K) (p q : ptr) (f : filt_ref).

Definition add_flags (fl : Z) p : M (world K) unit :=
  upd_kn p (fun kn => set_kn_flags (setb (kn_flags kn) fl) kn).

(** A socket option that marks the socket as passive when it is set: false
    where the function returns -1. *)
Definition passive_option (fd opt : Z) p : M (world K) bool :=
  let! r := sys (SysGetsockopt fd opt) in
  match r with
  | None => let! e := errno in ret (e =? ENOTSOCK)
  | Some v => (if v =? 0 then ret tt else add_flags KNFL_SOCKET_PASSIVE p) ;;; ret true
  end.

Definition linux_get_descriptor_type p : M (world K) Z :=
  let! kn := get_kn p in
  let fd := s32 (ident (kev kn)) in
  let! sb := sys (SysFstat fd) in
  match sb with
  | None => ret (-1)
  | Some sb =>
      let fmt := Z.land (st_mode sb) S_IFMT in
      match mode_flag fmt with
      | Some fl => add_flags fl p ;;; ret 0
      | None =>
          if negb (fmt =? S_IFSOCK) then set_errno EBADF ;;; ret (-1)
          else
            let! stype := sys (SysGetsockopt fd SO_TYPE) in
            match stype with
            | None => ret (-1)
            | Some stype =>
                match socket_flag stype with
                | None => set_errno EBADF ;;; ret (-1)
                | Some fl =>
                    add_flags fl p ;;;
                    let! ok := passive_option fd SO_ACCEPTCONN p in
                    if negb ok then ret (-1)
                    else
                      let! ok := passive_option fd SO_GET_FILTER p in
                      ret (if ok then 0 else -1)
                end
            end
      end
  end.

(** ** Read *)

Definition get_eof_offset (fd : Z) : M (world K) Z :=
  let! cur := sys (SysLseek fd) in
  let curpos := default 0 cur in
  let! sb := sys (SysFstat fd) in
  let size := match sb with Some sb => st_size sb | None => 1 end in
  ret (if size <=? curpos then 0 else size - curpos).

(** The [fflags] and EV_EOF of an event with EPOLLERR. *)
Definition copyout_error (dst : Z) (kn : knote) : M (world K) unit :=
  (if has (kn_flags kn) KNFL_SOCKET then
     let! r := sys (SysGetsockopt (s32 (ident (kev kn))) SO_ERROR) in
     let! e := errno in
     upd_mem dst (set_fflags (u32 (default e r)))
   else upd_mem dst (set_fflags EIO)) ;;;
  upd_mem dst (fun k => set_flags (setb (flags k) EV_EOF) k).

Definition evfilt_read_copyout (dst nevents : Z) f (src : option ptr) (ev : raw_event)
    : M (world K) Z :=
  let! p := deref NullDeref src in
  let! kn := get_kn p in
  if has (kn_flags kn) KNFL_FILE then
    store dst (kev kn) ;;;
    let! off := get_eof_offset (s32 (ident (kev kn))) in
    upd_mem dst (set_data off) ;;;
    if off =? 0 then
      upd_mem dst (set_filter_ 0) ;;;
      let! ok := epoll_ctl (kn_epollfd kn) EPOLL_CTL_DEL (kn_read_eventfd kn) None in
      if ok then upd_kn p (set_kn_registered 0) ;;; ret 1 else ret (-1)
    else ret 1
  else
    let! ev := epoll_ev ev in
    store dst (kev kn) ;;;
    (if has (ev_events ev) EPOLLRDHUP || has (ev_events ev) EPOLLHUP
     then upd_mem dst (fun k => set_flags (setb (flags k) EV_EOF) k) else ret tt) ;;;
    (if has (ev_events ev) EPOLLERR then copyout_error dst kn else ret tt) ;;;
    (if has (kn_flags kn) KNFL_SOCKET_PASSIVE then upd_mem dst (set_data 1)
     else
       let! r := sys (SysIoctl (s32 (ident (kev kn))) SIOCINQ) in
       match r with
       | None => upd_mem dst (set_data 0)
       | Some i =>
           upd_mem dst (set_data i) ;;;
           if (i =? 0) && has (kn_flags kn) KNFL_SOCKET_STREAM
           then upd_mem dst (fun k => set_flags (setb (flags k) EV_EOF) k) else ret tt
       end) ;;;
    let! rv := knote_copyout_flag_actions f p in
    ret (if rv <? 0 then -1 else 1).

(** The surrogate eventfd of a regular file: [set] stores it in the knote. *)
Definition file_eventfd_create f p (set : Z -> knote -> knote) : M (world K) Z :=
  let! kn := get_kn p in
  (if has (flags (kev kn)) (Z.lor EV_ONESHOT EV_DISPATCH)
   then upd_kn p (fun kn => set_epoll_events (Z.lor (epoll_events kn) EPOLLONESHOT) kn) else ret tt) ;;;
  let! epfd := filter_epoll_fd f in
  upd_kn p (set_kn_epollfd epfd) ;;;
  let! evfd := sys (SysEventfd 0 EFD_CLOEXEC) in
  match evfd with
  | None => ret (-1)
  | Some evfd =>
      let! r := sys (SysWrite8 evfd 1) in
      match r with
      | None => sys (SysClose evfd) ;;; ret (-1)
      | Some _ =>
          upd_kn p (set evfd) ;;;
          KN_UDATA_ALLOC p ;;;
          let! kn := get_kn p in
          let! ev := EPOLL_EV_KN (epoll_events kn) p in
          let! ok := epoll_ctl epfd EPOLL_CTL_ADD evfd ev in
          if ok then upd_kn p (set_kn_registered 1) ;;; ret 0
          else sys (SysClose evfd) ;;; KN_UDATA_FREE p ;;; ret (-1)
      end
  end.

Definition evfilt_read_knote_create f p : M (world K) Z :=
  let! rv := linux_get_descriptor_type p in
  if rv <? 0 then ret (-1)
  else
    upd_kn p (fun kn => set_epoll_events (Z.lor (Z.lor EPOLLIN EPOLLRDHUP)
      (if has (flags (kev kn)) EV_CLEAR then EPOLLET else 0)) kn) ;;;
    let! kn := get_kn p in
    (if has (fflags (kev kn)) NOTE_LOWAT && negb (has (kn_flags kn) KNFL_FILE)
     then sys (SysSetsockopt (s32 (ident (kev kn))) SO_RCVLOWAT (s32 (data (kev kn)))) ;;; ret tt
     else ret tt) ;;;
    if has (kn_flags kn) KNFL_FILE then file_eventfd_create f p set_kn_read_eventfd
    else epoll_update EPOLL_CTL_ADD f p (epoll_events kn) false.

Definition evfilt_read_knote_modify f p (k : kevent) : M (world K) Z :=
  let! kn := get_kn p in
  if negb (has (kn_flags kn) KNFL_FILE) then
    if has (flags k) EV_CLEAR then
      (if has (kn_flags kn) KNFL_SOCKET then
         let new_lwm := if has (fflags k) NOTE_LOWAT then s32 (data k) else 1 in
         let old_lwm := if has (fflags (kev kn)) NOTE_LOWAT then s32 (data (kev kn)) else 1 in
         if negb (new_lwm =? old_lwm)
         then sys (SysSetsockopt (s32 (ident (kev kn))) SO_RCVLOWAT new_lwm) ;;; ret tt
         else ret tt
       else ret tt) ;;;
      upd_kn p (fun kn => set_kev (set_data (data k) (set_fflags (fflags k) (kev kn))) kn) ;;;
      ret 0
    else ret (-1)
  else ret (-1).

(** Restoring the low-water mark of a socket on deletion. *)
Definition restore_lowat (opt : Z) (kn : knote) : M (world K) unit :=
  if has (fflags (kev kn)) NOTE_LOWAT && has (kn_flags kn) KNFL_SOCKET
  then sys (SysSetsockopt (s32 (ident (kev kn))) opt 1) ;;; ret tt else ret tt.

(** The deletion of a surrogate eventfd: [get] and [set] access its number. *)
Definition file_eventfd_delete f p (get : knote -> Z) (set : Z -> knote -> knote) : M (world K) Z :=
  let! kn := get_kn p in
  let! ok := (if negb (kn_registered kn =? 0)
              then epoll_ctl (kn_epollfd kn) EPOLL_CTL_DEL (get kn) None else ret true) in
  if negb ok then ret (-1)
  else
    upd_kn p (set_kn_registered 0) ;;;
    KN_UDATA_DEFER_FREE f.1 p ;;;
    sys (SysClose (get kn)) ;;;
    upd_kn p (set (-1)) ;;; ret 0.

Definition evfilt_read_knote_delete f p : M (world K) Z :=
  let! kn := get_kn p in
  restore_lowat SO_RCVLOWAT kn ;;;
  if has (kn_flags kn) KNFL_FILE && negb (kn_read_eventfd kn =? -1)
  then file_eventfd_delete f p kn_read_eventfd set_kn_read_eventfd
  else epoll_update EPOLL_CTL_DEL f p EPOLLIN true.

(** Arming and disarming a surrogate eventfd. *)
Definition file_eventfd_enable p (get : knote -> Z) : M (world K) Z :=
  let! kn := get_kn p in
  let! ev := EPOLL_EV_KN (epoll_events kn) p in
  let! ok := epoll_ctl (kn_epollfd kn) EPOLL_CTL_ADD (get kn) ev in
  if ok then upd_kn p (set_kn_registered 1) ;;; ret 0 else ret (-1).

Definition file_eventfd_disable p (get : knote -> Z) : M (world K) Z :=
  let! kn := get_kn p in
  let! ok := epoll_ctl (kn_epollfd kn) EPOLL_CTL_DEL (get kn) None in
  if ok then upd_kn p (set_kn_registered 0) ;;; ret 0 else ret (-1).

Definition evfilt_read_knote_enable f p : M (world K) Z :=
  let! kn := get_kn p in
  if has (kn_flags kn) KNFL_FILE then file_eventfd_enable p kn_read_eventfd
  else epoll_update EPOLL_CTL_ADD f p (epoll_events kn) false.

Definition evfilt_read_knote_disable f p : M (world K) Z :=
  let! kn := get_kn p in
  if has (kn_flags kn) KNFL_FILE then file_eventfd_disable p kn_read_eventfd
  else epoll_update EPOLL_CTL_DEL f p EPOLLIN false.

Definition evfilt_read : filter_src K :=
  FilterSrc EVFILT_READ (FilterOps None None evfilt_read_copyout evfilt_read_knote_create
    evfilt_read_knote_modify evfilt_read_knote_delete evfilt_read_knote_enable
    evfilt_read_knote_disable).

(** ** Write *)

(** The free space of the write buffer, where the event is not at EOF. *)
Definition write_space (dst : Z) (kn : knote) : M (world K) unit :=
  let fd := s32 (ident (kev kn)) in
  if has (kn_flags kn) KNFL_PIPE then
    let! sz := sys (SysFcntl fd F_GETPIPE_SZ 0) in
    match sz with
    | None => upd_mem dst (set_data 0)
    | Some sz =>
        let! pending := sys (SysIoctl fd FIONREAD) in
        match pending with
        | None => upd_mem dst (set_data 0)
        | Some n => upd_mem dst (set_data (if sz - n <? 0 then 0 else sz - n))
        end
    end
  else
    let! r := sys (SysIoctl fd SIOCOUTQ) in
    match r with
    | None => upd_mem dst (set_data 0)
    | Some v => upd_mem dst (fun k => set_data (s64 (Z.lor (clrb (u64 (data k)) (2 ^ 32 - 1)) (u32 v))) k)
    end.

Definition evfilt_write_copyout (dst nevents : Z) f (src : option ptr) (ev : raw_event)
    : M (world K) Z :=
  let! p := deref NullDeref src in
  let! kn := get_kn p in
  store dst (kev kn) ;;;
  (if has (kn_flags kn) KNFL_FILE then ret tt
   else
     let! ev := epoll_ev ev in
     (if has (ev_events ev) EPOLLHUP
      then upd_mem dst (fun k => set_flags (setb (flags k) EV_EOF) k) else ret tt) ;;;
     (if has (ev_events ev) EPOLLERR then copyout_error dst kn else ret tt) ;;;
     let! k := load dst in
     if has (flags k) EV_EOF then ret tt else write_space dst kn) ;;;
  let! rv := knote_copyout_flag_actions f p in
  ret (if rv <? 0 then -1 else 1).

Definition evfilt_write_knote_create f p : M (world K) Z :=
  let! rv := linux_get_descriptor_type p in
  if rv <? 0 then ret (-1)
  else
    let! kn := get_kn p in
    let et := if has (flags (kev kn)) EV_CLEAR then EPOLLET else 0 in
    if has (kn_flags kn) KNFL_FILE then
      upd_kn p (set_epoll_events (Z.lor (Z.lor EPOLLIN EPOLLRDHUP) et)) ;;;
      file_eventfd_create f p set_kn_write_eventfd
    else
      upd_kn p (set_epoll_events (Z.lor EPOLLOUT et)) ;;;
      epoll_update EPOLL_CTL_ADD f p (Z.lor EPOLLOUT et) false.

Definition evfilt_write_knote_modify f p (k : kevent) : M (world K) Z :=
  let! kn := get_kn p in
  if negb (has (kn_flags kn) KNFL_FILE) then
    if has (flags k) EV_CLEAR then
      upd_kn p (fun kn => set_kev (set_data (data k) (set_fflags (fflags k) (kev kn))) kn) ;;;
      ret 0
    else ret (-1)
  else ret (-1).

Definition evfilt_write_knote_delete f p : M (world K) Z :=
  let! kn := get_kn p in
  restore_lowat SO_SNDLOWAT kn ;;;
  if has (kn_flags kn) KNFL_FILE && negb (kn_write_eventfd kn =? -1)
  then file_eventfd_delete f p kn_write_eventfd set_kn_write_eventfd
  else epoll_update EPOLL_CTL_DEL f p EPOLLOUT true.

Definition evfilt_write_knote_enable f p : M (world K) Z :=
  let! kn := get_kn p in
  if has (kn_flags kn) KNFL_FILE then file_eventfd_enable p kn_write_eventfd
  else epoll_update EPOLL_CTL_ADD f p (epoll_events kn) false.

Definition evfilt_write_knote_disable f p : M (world K) Z :=
  let! kn := get_kn p in
  if has (kn_flags kn) KNFL_FILE then file_eventfd_disable p kn_write_eventfd
  else epoll_update EPOLL_CTL_DEL f p EPOLLOUT false.

Definition evfilt_write : filter_src K :=
  FilterSrc EVFILT_WRITE (FilterOps None None evfilt_write_copyout evfilt_write_knote_create
    evfilt_write_knote_modify evfilt_write_knote_delete evfilt_write_knote_enable
    evfilt_write_knote_disable).
End ReadWrite.
