(* ===== verification/LinuxSocket.v ===== *)
(** * The fd_state shared by the read and the write knote

    How [epoll_fd_state_mod] and [epoll_fd_state_del] of src/linux/platform.c keep
    the invariant: attaching a knote to the fd_state of its descriptor, which is
    created with the first knote, and detaching it, which frees the fd_state with
    the last.  On this the callbacks of the read and write filters keep the
    contract of the common code. *)

From Stdlib Require Import ZArith Lia Bool.
From stdpp Require Import base list gmap.
From S2P Require Import Prelude RBTree Event Map State Ops Knote LinuxUdata LinuxEpoll LinuxShared LinuxRules LinuxTimer LinuxUser LinuxReadWrite.

Section Reshape.
Context {K : Type}.
Implicit Types (w : world K) (p q s : ptr) (x : fd_state).

Lemma dir_get_set d o x : dir_get d (dir_set d o x) = o.
Proof. by destruct d. Qed.
Lemma dir_get_other d o x : dir_get (other d) (dir_set d o x) = dir_get (other d) x.
Proof. by destruct d. Qed.
Lemma dir_set_fd d o x : fds_fd (dir_set d o x) = fds_fd x.
Proof. by destruct d. Qed.
Lemma dir_set_udata d o x : fds_udata (dir_set d o x) = fds_udata x.
Proof. by destruct d. Qed.

Lemma dir_cases d e : e = d \/ e = other d.
Proof. destruct d, e; auto. Qed.

(** [node_ok] by directions. *)
Lemma node_dir m q e x :
  node_ok m q e x <-> fds_fd x = e_key e /\ ~ (fds_read x = None /\ fds_write x = None) /\
    forall d p, dir_get d x = Some p -> exists kn, m !! p = Some kn /\ kn_kq kn = Some q /\
      kn_fds kn = Some (e_ptr e) /\ filter_ (kev kn) = dir_filter d.
Proof.
  split.
  - intros [A B C D]. split_and!; try done. intros []; [apply C|apply D].
  - intros (A & B & C). split; [done|done|apply (C Rd)|apply (C Wr)].
Qed.

Lemma li_own_dir w p kn s q kq :
  linux_data w -> w_knotes w !! p = Some kn -> kn_fds kn = Some s -> kn_kq kn = Some q ->
  w_kqs w !! q = Some kq -> Entry (s32 (ident (kev kn))) s ∈ elements (kq_fd_st kq) /\
  exists x d, w_fdss w !! s = Some x /\ filter_ (kev kn) = dir_filter d /\ dir_get d x = Some p.
Proof.
  intros Hi E Hs Hq Hk. destruct (li_own _ Hi p kn s q kq E Hs Hq Hk) as (Hin & x & Hx & [[? ?]|[? ?]]);
    (split; [done|]); [by exists x, Rd|by exists x, Wr].
Qed.

Lemma dir_filter_inj d d' : dir_filter d = dir_filter d' -> d = d'.
Proof. by destruct d, d'. Qed.

(** An fd_state is in one tree, once. *)
Lemma node_unique w q q' kq kq' e e' :
  linux_data w -> w_kqs w !! q = Some kq -> w_kqs w !! q' = Some kq' ->
  e ∈ elements (kq_fd_st kq) -> e' ∈ elements (kq_fd_st kq') -> e_ptr e = e_ptr e' -> q = q' /\ e = e'.
Proof.
  intros Hi Hq Hq' He He' Hp. destruct (li_node _ Hi q kq e Hq He) as (x & Hx & (F1 & U & N1)%node_dir).
  destruct (li_node _ Hi q' kq' e' Hq' He') as (x' & Hx' & (F2 & _ & N2)%node_dir).
  rewrite Hp in Hx. simplify_eq. assert (Hs : exists d p, dir_get d x = Some p).
  { destruct (fds_read x) as [r|] eqn:Er; [by exists Rd, r|].
    destruct (fds_write x) as [r|] eqn:Ew; [by exists Wr, r|]. naive_solver. }
  destruct Hs as (d & p & Hd). destruct (N1 d p Hd) as (kn & E & Hk & _). destruct (N2 d p Hd) as (kn' & E' & Hk' & _).
  simplify_eq. split; [congruence|]. destruct e, e'; simpl in *. congruence.
Qed.

Definition in_use x : bool := negb (bool_decide (fds_read x = None /\ fds_write x = None)).

(** The slot [d] of the fd_state [s] of descriptor [fd] is given to [p] ([b]) or
    cleared: a new fd_state enters the tree, an unused one leaves it. *)
Lemma li_reshape w q kq p kn d fd s x t (b : bool) :
  linux_data w -> w_kqs w !! q = Some kq -> w_knotes w !! p = Some kn -> kn_kq kn = Some q ->
  filter_ (kev kn) = dir_filter d -> fd = s32 (ident (kev kn)) ->
  kn_fds kn = None \/ kn_fds kn = Some s -> dir_get d x = None \/ dir_get d x = Some p ->
  Entry fd s ∈ elements (kq_fd_st kq) /\ w_fdss w !! s = Some x \/
  w_fdss w !! s = None /\ (s < w_next w)%positive /\ fds_fd x = fd /\ in_use x = false /\
    (forall u, fds_udata x = Some u ->
       exists e, w_udatas w !! u = Some (EpollUdata EPOLL_UDATA_FD_STATE (ud_fds s) false e)) ->
  let x1 := dir_set d (if b then Some p else None) x in
  wf e_key t ->
  (forall e, e ∈ elements t <-> e = Entry fd s /\ in_use x1 = true \/
     e ∈ elements (kq_fd_st kq) /\ e <> Entry fd s) ->
  linux_data (set_w_knotes (<[p := set_kn_fds (if b then Some s else None) kn]> (w_knotes w))
    (set_w_kqs (<[q := set_kq_fd_st t kq]> (w_kqs w))
      (set_w_fdss (if in_use x1 then <[s := x1]> (w_fdss w) else delete s (w_fdss w)) w))).
Proof.
  intros Hi Hq Hp Hkq Hf -> Hkf Hown Hold x1 Hwf Ht. set (fd := s32 (ident (kev kn))) in *.
  set (kn' := set_kn_fds _ kn).
  assert (Hm : forall r y, (if in_use x1 then <[s := x1]> (w_fdss w) else delete s (w_fdss w)) !! r = Some y ->
    r = s /\ y = x1 /\ in_use x1 = true \/ r <> s /\ w_fdss w !! r = Some y).
  { intros r y. destruct (in_use x1); intros Hr.
    - destruct (decide (r = s)) as [->|Hne]; simplify_map_eq; auto.
    - apply lookup_delete_Some in Hr as [? ?]. auto. }
  assert (Hm' : forall r, r <> s ->
    (if in_use x1 then <[s := x1]> (w_fdss w) else delete s (w_fdss w)) !! r = w_fdss w !! r).
  { intros r Hr. destruct (in_use x1); [by rewrite lookup_insert_ne|by rewrite lookup_delete_ne]. }
  assert (Hs1 : in_use x1 = true -> (if in_use x1 then <[s := x1]> (w_fdss w) else delete s (w_fdss w)) !! s = Some x1).
  { intros ->. by rewrite lookup_insert_eq. }
  assert (Hkqs : forall r kr, <[q := set_kq_fd_st t kq]> (w_kqs w) !! r = Some kr -> exists k0,
    w_kqs w !! r = Some k0 /\ kq_wake_udata kr = kq_wake_udata k0 /\ ud_deferred_free kr = ud_deferred_free k0 /\
    (r = q -> kq_fd_st kr = t) /\ (r <> q -> kq_fd_st kr = kq_fd_st k0)).
  { intros r kr Hr. destruct (decide (r = q)) as [->|Hne]; simplify_map_eq; eexists; done. }
  assert (Hudx : forall u, fds_udata x = Some u ->
    exists e, w_udatas w !! u = Some (EpollUdata EPOLL_UDATA_FD_STATE (ud_fds s) false e)).
  { destruct Hold as [[_ Hx]|(_ & _ & _ & _ & Hu)]; [|done]. intros u. by apply (li_fds _ Hi). }
  (* entries of the old trees other than the one at hand do not meet s *)
  assert (Hdis : forall r kr e, w_kqs w !! r = Some kr -> e ∈ elements (kq_fd_st kr) -> e_ptr e = s ->
    r = q /\ e = Entry fd s /\ w_fdss w !! s = Some x).
  { intros r kr e Hr He Hes. destruct (li_node _ Hi r kr e Hr He) as (y & Hy & _). rewrite Hes in Hy.
    destruct Hold as [[Hin Hx]|(Hn & _)]; [|congruence].
    destruct (node_unique w r q kr kq e (Entry fd s) Hi Hr Hq He Hin Hes). done. }
  assert (Hnode : forall r kr e y, w_kqs w !! r = Some kr -> e ∈ elements (kq_fd_st kr) ->
    w_fdss w !! e_ptr e = Some y -> node_ok (w_knotes w) r e y).
  { intros r kr e y Hr He Hy. destruct (li_node _ Hi r kr e Hr He) as (y' & Hy' & Hok). congruence. }
  (* the knotes other than p are the same *)
  assert (Hmono : forall r e y, e_ptr e <> s -> node_ok (w_knotes w) r e y ->
    node_ok (<[p := kn']> (w_knotes w)) r e y).
  { intros r e y Hne (A & B & C)%node_dir. apply node_dir. split_and!; try done. intros d' p' Hd'.
    destruct (C d' p' Hd') as (k & Ek & Hk & Hfk & Hfl). exists k. split_and!; try done.
    rewrite lookup_insert_ne; [done|]. intros <-. assert (k = kn) as -> by congruence.
    destruct Hkf as [Hkf|Hkf]; congruence. }
  pose proof Hi as [A B C D E F G L M N]. split; simpl.
  - intros r kr u Hr Hu. destruct (decide (r = p)) as [->|Hne]; simplify_map_eq; [by apply (A p kn)|by apply (A r kr)].
  - intros r y u Hr Hu. destruct (Hm r y Hr) as [(-> & -> & _)|[_ Hr']]; [|by apply (B r y)].
    apply Hudx. unfold x1 in Hu. by rewrite dir_set_udata in Hu.
  - intros r kr u Hr Hu. destruct (Hkqs r kr Hr) as (k0 & E0 & W & _). apply (C r k0); congruence.
  - intros r kr u Hr Hu. destruct (Hkqs r kr Hr) as (k0 & E0 & _ & W & _). apply (D r k0); congruence.
  - intros r kr Hr. destruct (Hkqs r kr Hr) as (k0 & E0 & _ & -> & _). by apply (E r).
  - intros r r' kr kr' u Hr Hr' Hu Hu'. destruct (Hkqs r kr Hr) as (k0 & E0 & _ & W & _).
    destruct (Hkqs r' kr' Hr') as (k0' & E0' & _ & W' & _). apply (F r r' k0 k0' u); congruence.
  - intros r Hr. destruct (G r Hr) as [G1 G2]. split; [done|].
    apply eq_None_not_Some. intros [y Ey]. destruct (Hm r y Ey) as [(-> & _ & _)|[_ ?]]; [|congruence].
    destruct Hold as [[_ Hx]|(_ & Hlt & _)]; [congruence|lia].
  - intros r kr Hr. destruct (Hkqs r kr Hr) as (k0 & E0 & _ & _ & W1 & W2).
    destruct (decide (r = q)) as [Hrq|Hne]; [by rewrite W1|rewrite W2 by done; by apply (L r)].
  - intros r kr e Hr He. destruct (Hkqs r kr Hr) as (k0 & E0 & _ & _ & W1 & W2).
    assert (He' : r = q /\ e = Entry fd s /\ in_use x1 = true \/
      e ∈ elements (kq_fd_st k0) /\ (r = q -> e <> Entry fd s)).
    { destruct (decide (r = q)) as [Hrq|Hne]; [|rewrite W2 in He by done; by right].
      rewrite W1 in He by done. assert (k0 = kq) as -> by congruence. apply Ht in He as [[-> ?]|[? ?]]; auto. }
    destruct He' as [(-> & -> & Hu)|[He' Hne]].
    + exists x1. split; [by apply Hs1|]. apply node_dir. unfold x1. rewrite dir_set_fd.
      assert (Hold' : fds_fd x = fd /\ forall p', dir_get (other d) x = Some p' -> exists k, w_knotes w !! p' = Some k /\
        kn_kq k = Some q /\ kn_fds k = Some s /\ filter_ (kev k) = dir_filter (other d)).
      { destruct Hold as [[Hin Hx]|(_ & _ & Hfd & Hun & _)].
        - destruct (Hnode q kq (Entry fd s) x Hq Hin Hx) as [A1 _ C1 D1]. split; [done|]. by destruct d; [apply D1|apply C1].
        - split; [done|]. intros p' Hp'. unfold in_use in Hun. apply negb_false_iff, bool_decide_eq_true in Hun as [U1 U2].
          destruct d; simpl in Hp'; congruence. }
      destruct Hold' as [Hfd Hoth]. split_and!; [done| |].
      * unfold in_use in Hu. apply negb_true_iff, bool_decide_eq_false in Hu. done.
      * intros d' p'. destruct (dir_cases d d') as [->| ->].
        -- rewrite dir_get_set. intros Hp'. destruct b; [|done]. simplify_eq. exists kn'.
           rewrite lookup_insert_eq. done.
        -- rewrite dir_get_other. intros Hp'. destruct (Hoth p' Hp') as (k & Ek & ? & ? & Hfk).
           exists k. split_and!; try done. rewrite lookup_insert_ne; [done|]. intros <-. simplify_eq.
           rewrite Hf in Hfk. by destruct d.
    + assert (Hes : e_ptr e <> s). { intros Hes. destruct (Hdis r k0 e E0 He' Hes) as (Hrq & -> & _). by apply Hne. }
      destruct (M r k0 e E0 He') as (y & Hy & Hok). exists y. split; [by rewrite Hm'|by apply Hmono].
  - intros r kr s' q' kr' Hr Hs' Hk' Hq'. destruct (Hkqs q' kr' Hq') as (k0 & E0 & _ & _ & W1 & W2).
    assert (Hgoal : forall d' y, Entry (s32 (ident (kev kr))) s' ∈ elements (kq_fd_st kr') ->
      (if in_use x1 then <[s := x1]> (w_fdss w) else delete s (w_fdss w)) !! s' = Some y ->
      filter_ (kev kr) = dir_filter d' -> dir_get d' y = Some r ->
      Entry (s32 (ident (kev kr))) s' ∈ elements (kq_fd_st kr') /\ exists y,
      (if in_use x1 then <[s := x1]> (w_fdss w) else delete s (w_fdss w)) !! s' = Some y /\
      (filter_ (kev kr) = EVFILT_READ /\ fds_read y = Some r \/ filter_ (kev kr) = EVFILT_WRITE /\ fds_write y = Some r)).
    { intros [] y H1 H2 H3 H4; (split; [done|]); exists y; auto. }
    destruct (decide (r = p)) as [->|Hrp].
    + rewrite lookup_insert_eq in Hr. injection Hr as <-. unfold kn' in Hs', Hk'. simpl in Hs', Hk'.
      destruct b; [|done]. injection Hs' as <-. assert (q' = q) as -> by congruence.
      assert (Hu : in_use x1 = true).
      { unfold in_use, x1. apply negb_true_iff, bool_decide_eq_false. destruct d; simpl; naive_solver. }
      apply (Hgoal d x1); [|by apply Hs1|done|unfold x1; by rewrite dir_get_set].
      rewrite W1 by done. apply Ht. by left.
    + rewrite lookup_insert_ne in Hr by done.
      destruct (li_own_dir w r kr s' q' k0 Hi Hr Hs' Hk' E0) as (Hin & y & d' & Hy & Hf' & Hd').
      destruct (decide (s' = s)) as [->|Hss].
      * destruct (Hdis q' k0 _ E0 Hin eq_refl) as (-> & [= Hid] & Hx). assert (y = x) as -> by congruence.
        assert (d' = other d) as ->.
        { destruct d, d'; simpl in *; try done; destruct Hown; congruence. }
        assert (Hu : in_use x1 = true).
        { unfold in_use, x1. apply negb_true_iff, bool_decide_eq_false. destruct d; simpl in *; rewrite Hd'; naive_solver. }
        apply (Hgoal (other d) x1); [|by apply Hs1|done|unfold x1; by rewrite dir_get_other].
        rewrite W1 by done. apply Ht. left. split; [by f_equal|done].
      * apply (Hgoal d' y); [|by rewrite Hm'|done|done]. destruct (decide (q' = q)) as [->|Hqq]; [|by rewrite W2].
        rewrite W1 by done. apply Ht. right. assert (k0 = kq) as -> by congruence. split; [done|]. congruence.
Qed.
End Reshape.

(** ** Event masks *)

(** The mask of an fd_state with the own ([a]) and the other ([c]) direction. *)
Definition dmask (d : dir) (a c : bool) : Z :=
  Z.lor (if a then dir_ev d else 0) (if c then dir_ev (other d) else 0).

Lemma dmask_clr d a c : clrb (dmask d a c) (dir_ev d) = dmask d false c.
Proof. by destruct d, a, c. Qed.
Lemma dmask_inout d a c : EV_EPOLLINOUT (dmask d a c) = dmask d a c.
Proof. by destruct d, a, c. Qed.
Lemma dmask_del d c : epoll_opn (dmask d true c) (dmask d false c) = Some (if c then EPOLL_CTL_MOD else EPOLL_CTL_DEL).
Proof. by destruct d, c. Qed.
Lemma dmask_add d c : epoll_opn (dmask d false c) (dmask d true c) = Some (if c then EPOLL_CTL_MOD else EPOLL_CTL_ADD).
Proof. by destruct d, c. Qed.
Lemma dmask_same d a c : epoll_opn (dmask d a c) (dmask d a c) = None.
Proof. by destruct d, a, c. Qed.
Lemma dmask_own d c : clrb (dmask d true c) (dmask d false c) = dir_ev d.
Proof. by destruct d, c. Qed.
Lemma dmask_none d c : clrb (dmask d false c) (dmask d true c) = 0.
Proof. by destruct d, c. Qed.
Lemma dmask_land d a c : Z.land (dmask d a c) (EV_EPOLLINOUT (dir_ev d)) = if a then dir_ev d else 0.
Proof. by destruct d, a, c. Qed.
Lemma dmask_or d a c : Z.lor (dmask d a c) (dir_ev d) = dmask d true c.
Proof. by destruct d, a, c. Qed.
Lemma dir_ev_nz d : (dir_ev d =? 0) = false.
Proof. by destruct d. Qed.
Lemma dir_ev_clr d c : clrb (dir_ev d) (dmask d false c) = dir_ev d.
Proof. by destruct d, c. Qed.

(** The mask asked for when the knote's own events [ev] are added. *)
Lemma dmask_want d a c ev :
  EV_EPOLLINOUT ev = 0 \/ EV_EPOLLINOUT ev = dir_ev d ->
  EV_EPOLLINOUT (Z.lor (dmask d a c) ev) = dmask d a c /\ EV_EPOLLINOUT ev = 0 \/
  EV_EPOLLINOUT (Z.lor (dmask d a c) ev) = dmask d true c /\ EV_EPOLLINOUT ev = dir_ev d.
Proof.
  unfold EV_EPOLLINOUT. rewrite Z.land_lor_distr_l. intros [->| ->]; [left|right]; split; try done.
  - rewrite Z.lor_0_r. apply dmask_inout.
  - rewrite <- dmask_or with (a := a). f_equal. apply dmask_inout.
Qed.

(** ** The state of a callback of the read or the write filter *)

(** What is relied on of the kernel: memory for the bookkeeping, and that changing or
    removing a registration fails only when it is already gone, with the two errors that
    [epoll_update] looks for.  The code does not stand either failure: without memory it
    dereferences a null fd_state, and on another errno (EPERM when the number of a closed
    socket now names a regular file) it frees the knote and keeps the fd_state that points
    to it; both are run in LinuxDangling. *)
Class SocketKernel (K : Type) `{OS K} : Prop :=
  { sk_alloc : forall k : K, exists k', os_call SysAlloc k = (SOk tt, k');
    sk_errno : forall epfd op fd ev (k : K) e k', op <> EPOLL_CTL_ADD ->
      os_call (SysEpollCtl epfd op fd ev) k = (SErr e, k') -> e = EBADF \/ e = ENOENT }.

(** The fd_state [x] at [s] is the one of the knote's descriptor. *)
Definition fds_of {K : Type} (w : world K) (q : ptr) (kn : knote) (s : ptr) (x : fd_state) : Prop :=
  exists kq, w_kqs w !! q = Some kq /\ Entry (s32 (ident (kev kn))) s ∈ elements (kq_fd_st kq) /\
    w_fdss w !! s = Some x.

Record rwst {K : Type} (w0 : world K) (q p : ptr) (d : dir) (kn : knote) (w : world K) : Prop :=
  { rs_cb : cbst w0 q p kn w;
    rs_kq : kn_kq kn = Some q;
    rs_dir : filter_ (kev kn) = dir_filter d;
    rs_slot : forall s x, fds_of w q kn s x -> dir_get d x = None \/ dir_get d x = Some p }.

(** What [find_fds] answers. *)
Definition found {K : Type} (w : world K) (q p : ptr) (d : dir) (kn : knote) (o : option ptr) : Prop :=
  match o with
  | None => kn_fds kn = None /\ forall s x, ~ fds_of w q kn s x
  | Some s => exists x, fds_of w q kn s x /\
      (kn_fds kn = Some s /\ dir_get d x = Some p \/ kn_fds kn = None /\ dir_get d x = None)
  end.

Section RW.
Context {K : Type} `{OS K} `{!SocketKernel K}.
Implicit Types (w : world K) (p q s : ptr) (x : fd_state).

Lemma rw_kqueue w0 q p d kn w :
  rwst w0 q p d kn w -> exists kq, w_kqs w !! q = Some kq /\ kq_locked kq = true /\
    w_knotes w !! p = Some kn /\ linux_data w /\ frame_ p w0 w.
Proof. intros Hs. destruct (cs_kq _ _ _ _ _ (rs_cb _ _ _ _ _ _ Hs)) as (kq & E & Hl). exists kq. split_and!; try done; apply Hs. Qed.

(** Steps that touch neither knotes, kqueues nor fd_states. *)
Lemma rw_move w0 q p d kn w w' :
  rwst w0 q p d kn w -> frame_ p w w' -> linux_data w' -> w_knotes w' = w_knotes w ->
  w_kqs w' = w_kqs w -> w_fdss w' = w_fdss w -> w_udatas w' = w_udatas w -> rwst w0 q p d kn w'.
Proof.
  intros [A B C D] Hf Hi Hk Hq Hfd Hu. split; [|done|done|].
  { eapply cbst_move; [done..|]. apply keep_plain; try done; [by rewrite Hq|]. rewrite Hk. eauto. }
  intros s x (kq & E & Hin & Hx). apply (D s). exists kq. split_and!; congruence.
Qed.

Lemma rw_epoll_ctl epfd op fd ev (Q : bool -> world K -> Prop) w0 q p d kn w :
  rwst w0 q p d kn w -> (forall w', rwst w0 q p d kn w' -> w_fdss w' = w_fdss w -> w_kqs w' = w_kqs w -> Q true w') ->
  (forall w', rwst w0 q p d kn w' -> w_fdss w' = w_fdss w -> w_kqs w' = w_kqs w ->
     (op <> EPOLL_CTL_ADD -> w_errno w' = EBADF \/ w_errno w' = ENOENT) -> Q false w') ->
  wp (epoll_ctl epfd op fd ev) Q w.
Proof.
  intros Hs H1 H2. unfold epoll_ctl. wp_simpl. apply wp_sys.
  - intros [] k _. wp_simpl. apply H1; try done. eapply rw_move; [exact Hs|apply frame_os| |done..].
    eapply pi_stable; [apply Hs|apply plat_os].
  - intros e k Hc. wp_simpl. apply H2; try done.
    + eapply rw_move; [exact Hs|etrans; [apply frame_os|apply (frame_errno _ (set_w_os k w))]| |done..].
      eapply pi_stable; [apply Hs|]. by split.
    + intros Hop. by eapply sk_errno.
Qed.

Lemma rw_find (Q : option ptr -> world K -> Prop) w0 q p d kn w :
  rwst w0 q p d kn w -> (forall o, found w q p d kn o -> Q o w) -> wp (find_fds None p) Q w.
Proof.
  intros Hs HQ. destruct (rw_kqueue _ _ _ _ _ _ Hs) as (kq & E & Hl & Ek & Hi & Hf). pose proof Hs as [Hcb Hkq Hd Hsl].
  unfold find_fds. wp_go. pose proof (li_tree _ Hi q kq E) as [Hst _].
  destruct (kn_fds kn) as [s|] eqn:Hfs.
  { wp_simpl. apply HQ. destruct (li_own_dir w p kn s q kq Hi Ek Hfs Hkq E) as (Hin & x & d' & Hx & Hf' & Hg).
    rewrite Hd in Hf'. apply dir_filter_inj in Hf' as <-. exists x. split; [by exists kq|by left]. }
  rewrite Hkq. wp_simpl. wp_go. apply HQ. destruct (RB_FIND _ _ _) as [e|] eqn:Hr.
  - apply RB_FIND_elem in Hr as [Hin Hk]; [|done]. destruct e as [fd s]. simpl in *. subst fd.
    destruct (li_node _ Hi q kq _ E Hin) as (x & Hx & (_ & _ & Hn)%node_dir). exists x.
    assert (Hof : fds_of w q kn s x) by (by exists kq). split; [done|]. right. split; [done|].
    destruct (Hsl s x Hof) as [Hg|Hg]; [done|]. destruct (Hn d p Hg) as (k & Ek' & _ & Hfk & _). simplify_eq.
  - split; [done|]. intros s x (kq' & E' & Hin & Hx). simplify_eq.
    assert (RB_FIND e_key (kq_fd_st kq) (s32 (ident (kev kn))) = Some (Entry (s32 (ident (kev kn))) s)) as Hr'
      by (by apply RB_FIND_elem). congruence.
Qed.

(** Whether [epoll_fd_state] counts the knote of a slot. *)
Definition counted w (disabled : bool) (o : option ptr) : bool :=
  match o ≫= fun p => w_knotes w !! p with
  | Some kn => Bool.eqb disabled (has (flags (kev kn)) (Z.lor EV_DISABLE EV_EOF))
  | None => false
  end.

Lemma wp_fds_slot (Q : Z -> world K -> Prop) w o b ev :
  (forall p, o = Some p -> is_Some (w_knotes w !! p)) ->
  Q (if counted w b o then ev else 0) w -> wp (fds_slot o b ev) Q w.
Proof.
  intros Hlive HQ. destruct o as [p|]; [|done]. destruct (Hlive p eq_refl) as [kn E]. simpl. wp_go.
  unfold counted in HQ. simpl in HQ. by rewrite E in HQ.
Qed.

Lemma rw_state_some (Q : Z * option ptr -> world K -> Prop) w0 q p d kn w s x b :
  rwst w0 q p d kn w -> fds_of w q kn s x ->
  Q (dmask d (counted w b (dir_get d x)) (counted w b (dir_get (other d) x)), Some s) w ->
  wp (epoll_fd_state (Some s) p b) Q w.
Proof.
  intros Hs (kq & E & Hin & Hx) HQ. destruct (rw_kqueue _ _ _ _ _ _ Hs) as (_ & _ & _ & _ & Hi & _).
  destruct (li_node _ Hi q kq _ E Hin) as (x' & Hx' & Hn). simpl in Hx'. assert (x' = x) as -> by congruence.
  assert (Hlive : forall d' p', dir_get d' x = Some p' -> is_Some (w_knotes w !! p')).
  { apply node_dir in Hn as (_ & _ & Hn). intros d' p' Hp'. destruct (Hn d' p' Hp') as (k & Ek & _). eauto. }
  unfold epoll_fd_state, find_fds. wp_simpl. eapply wp_get_fds; [done|]. wp_simpl.
  apply wp_fds_slot; [apply (Hlive Rd)|]. wp_simpl. apply wp_fds_slot; [apply (Hlive Wr)|]. wp_simpl.
  unfold dmask in HQ. destruct d; simpl in *; [done|]. by rewrite Z.lor_comm.
Qed.

Lemma rw_state (Q : Z * option ptr -> world K -> Prop) w0 q p d kn w b :
  rwst w0 q p d kn w -> (found w q p d kn None -> Q (dmask d false false, None) w) ->
  (forall s x, fds_of w q kn s x -> (kn_fds kn = Some s /\ dir_get d x = Some p \/ kn_fds kn = None /\ dir_get d x = None) ->
     Q (dmask d (counted w b (dir_get d x)) (counted w b (dir_get (other d) x)), Some s) w) ->
  wp (epoll_fd_state None p b) Q w.
Proof.
  intros Hs H1 H2. unfold epoll_fd_state. wp_simpl. eapply rw_find; [exact Hs|]. intros o Ho.
  destruct o as [s|]; [|wp_simpl; by destruct d; apply H1].
  destruct Ho as (x & Hof & Hor). specialize (H2 s x Hof Hor).
  by apply (rw_state_some Q w0 q p d kn w s x b Hs Hof) in H2.
Qed.

(** ** Detaching *)

Lemma rw_slots_kept w0 q p d kn w w' kn' :
  cbst w0 q p kn' w' -> rwst w0 q p d kn w -> kn_kq kn' = kn_kq kn -> kev kn' = kev kn ->
  (forall s x, fds_of w' q kn' s x -> dir_get d x = None \/ dir_get d x = Some p) ->
  rwst w0 q p d kn' w'.
Proof. intros Hcb [A B C D] H1 H2 H3. split; [done|congruence|congruence|done]. Qed.

(** The two tests of [epoll_fd_state_del] and of [epoll_fd_state_mod] pick the
    slot of the direction. *)
Lemma wp_clear_slot {B : Type} (k : M (world K) B) (Q : B -> world K -> Prop) w d s x :
  w_fdss w !! s = Some x -> dir_get d x <> None ->
  wp k Q (set_w_fdss (<[s := dir_set d None x]> (w_fdss w)) w) ->
  wp (if has (dir_ev d) EPOLLIN then
         let! y := get_fds s in
         assert_ (bool_decide (fds_read y <> None)) ;;; put_fds s (set_fds_read None y)
       else ret tt) (fun _ w1 => wp (
      (if has (dir_ev d) EPOLLOUT then
         let! y := get_fds s in
         assert_ (bool_decide (fds_write y <> None)) ;;; put_fds s (set_fds_write None y)
       else ret tt) ;;; k) Q w1) w.
Proof.
  intros Hx Hg HQ. destruct d; simpl; wp_simpl; (eapply wp_get_fds; [done|]); wp_simpl; apply wp_assert;
    (split; [by apply bool_decide_eq_true|]); unfold put_fds; by wp_simpl.
Qed.

Lemma wp_take_slot {B : Type} (k : M (world K) B) (Q : B -> world K -> Prop) w d s x p :
  w_fdss w !! s = Some x -> dir_get d x = None \/ dir_get d x = Some p ->
  wp k Q (set_w_fdss (<[s := dir_set d (Some p) x]> (w_fdss w)) w) ->
  wp (if has (dir_ev d) EPOLLIN then
         let! y := get_fds s in
         assert_ (free_or (fds_read y) p) ;;; put_fds s (set_fds_read (Some p) y)
       else ret tt) (fun _ w1 => wp (
      (if has (dir_ev d) EPOLLOUT then
         let! y := get_fds s in
         assert_ (free_or (fds_write y) p) ;;; put_fds s (set_fds_write (Some p) y)
       else ret tt) ;;; k) Q w1) w.
Proof.
  intros Hx Hg HQ. destruct d; simpl; wp_simpl; (eapply wp_get_fds; [done|]); wp_simpl; apply wp_assert;
    (split; [by apply bool_decide_eq_true|]); unfold put_fds; by wp_simpl.
Qed.

Lemma fd_entry_unique w q kq e e' :
  linux_data w -> w_kqs w !! q = Some kq -> e ∈ elements (kq_fd_st kq) -> e' ∈ elements (kq_fd_st kq) ->
  e_key e = e_key e' -> e = e'.
Proof.
  intros Hi E He He' Hk. destruct (li_tree _ Hi q kq E) as [Hst _].
  assert (RB_FIND e_key (kq_fd_st kq) (e_key e) = Some e) as H1 by (by apply RB_FIND_elem).
  assert (RB_FIND e_key (kq_fd_st kq) (e_key e) = Some e') as H2 by (by apply RB_FIND_elem). congruence.
Qed.

(** Only the fd_state [s], its place in the tree and its udata may change. *)
Lemma reshape_keep w w' p kn q kq kq' s x fd d (o : option ptr) :
  w_knotes w !! p = Some kn -> w_kqs w !! q = Some kq ->
  let x1 := dir_set d o x in
  (forall k, w_knotes w' !! p = Some k -> kn_udata k = kn_udata kn) ->
  w_fdss w' = (if in_use x1 then <[s := x1]> (w_fdss w) else delete s (w_fdss w)) ->
  w_kqs w' = <[q := kq']> (w_kqs w) ->
  (forall e, e ∈ elements (kq_fd_st kq') <-> e = Entry fd s /\ in_use x1 = true \/
     e ∈ elements (kq_fd_st kq) /\ e <> Entry fd s) ->
  (forall y, w_fdss w !! s = Some y -> y = x) ->
  (forall u y, w_udatas w !! u = Some y -> w_udatas w' !! u = Some y \/
     exists y', w_udatas w' !! u = Some y' /\ ud_type y' = ud_type y /\ ud_back y' = ud_back y /\ ud_stale y' = true) ->
  (in_use x1 = false -> forall u y, fds_udata x = Some u -> w_udatas w' !! u = Some y -> ud_stale y = true) ->
  keep p w w'.
Proof.
  intros Ek Eq x1 Hk Hf Hq Ht Hx Hud Hst u y Hu Hn. split.
  { intros k Ek'. rewrite (Hk k Ek'). by apply Hn. }
  destruct (Hud u y Hu) as [Hu'|(y' & ? & ? & ? & ?)]; [|exists y'; split_and!; auto].
  exists y. split_and!; try done. destruct (ud_stale y) eqn:Hsy; [by left|]. right. split; [done|].
  intros r z q' kr fd' Hb Hz Hzu Er He.
  assert (Hin : in_use x1 = true \/ r <> s).
  { destruct (in_use x1) eqn:Hiu; [by left|]. right. intros ->. rewrite (Hx z Hz) in Hzu.
    by rewrite (Hst eq_refl u y Hzu Hu') in Hsy. }
  assert (He' : forall kr', w_kqs w' !! q' = Some kr' -> Entry fd' r ∈ elements (kq_fd_st kr')).
  { intros kr'. rewrite Hq. destruct (decide (q' = q)) as [->|Hne].
    - rewrite lookup_insert_eq. intros [= <-]. assert (kr = kq) as -> by congruence. apply Ht.
      destruct (decide (Entry fd' r = Entry fd s)) as [[= -> ->]|]; [left; split; [done|by destruct Hin]|by right].
    - rewrite lookup_insert_ne by done. congruence. }
  assert (Hr : is_Some (w_kqs w' !! q')).
  { rewrite Hq. destruct (decide (q' = q)) as [->|Hne]; [by rewrite lookup_insert_eq|rewrite lookup_insert_ne by done; eauto]. }
  destruct Hr as [kr' Er']. specialize (He' kr' Er'). destruct (decide (r = s)) as [->|Hne].
  - destruct Hin as [Hiu|?]; [|done]. exists x1, kr'. rewrite Hf, Hiu, lookup_insert_eq. unfold x1. rewrite dir_set_udata.
    by rewrite (Hx z Hz) in Hzu.
  - exists z, kr'. rewrite Hf. destruct (in_use x1); [by rewrite lookup_insert_ne|by rewrite lookup_delete_ne].
Qed.

(** The state after [li_reshape]; the udata may have been queued on the way. *)
Lemma rw_reshaped w0 q p d kn w kq kq' s x t (b : bool) w' :
  rwst w0 q p d kn w -> w_kqs w !! q = Some kq ->
  (forall r y, fds_of w q kn r y -> r = s) ->
  let x1 := dir_set d (if b then Some p else None) x in
  (forall e, e ∈ elements t <-> e = Entry (s32 (ident (kev kn))) s /\ in_use x1 = true \/
     e ∈ elements (kq_fd_st kq) /\ e <> Entry (s32 (ident (kev kn))) s) ->
  w_knotes w' = <[p := set_kn_fds (if b then Some s else None) kn]> (w_knotes w) ->
  w_fdss w' = (if in_use x1 then <[s := x1]> (w_fdss w) else delete s (w_fdss w)) ->
  w_kqs w' = <[q := kq']> (w_kqs w) -> kq_fd_st kq' = t ->
  linux_data w' -> frame_ p w w' -> (forall y, w_fdss w !! s = Some y -> y = x) ->
  (forall u y, w_udatas w !! u = Some y -> w_udatas w' !! u = Some y \/
     exists y', w_udatas w' !! u = Some y' /\ ud_type y' = ud_type y /\ ud_back y' = ud_back y /\ ud_stale y' = true) ->
  (in_use x1 = false -> forall u y, fds_udata x = Some u -> w_udatas w' !! u = Some y -> ud_stale y = true) ->
  rwst w0 q p d (set_kn_fds (if b then Some s else None) kn) w'.
Proof.
  intros Hs E Huq x1 Ht Hkn Hfd Hkq Htr Hi' Hf Hxs Hud Hst. destruct (rw_kqueue _ _ _ _ _ _ Hs) as (_ & _ & _ & _ & Hi & _).
  apply (rw_slots_kept w0 q p d kn w); try done.
  - eapply cbst_knote; [apply Hs|done|done|by rewrite Hkn, lookup_insert_eq|].
    apply (reshape_keep w w' p kn q kq kq' s x (s32 (ident (kev kn))) d (if b then Some p else None)); try done;
      [apply Hs|intros k Hk; rewrite Hkn, lookup_insert_eq in Hk; by injection Hk as <-|by rewrite Htr].
  - intros r y (kr & Er & Hin & Hy). rewrite Hkq, lookup_insert_eq in Er. injection Er as <-. rewrite Htr in Hin.
    apply Ht in Hin as [[[= ->] Hu]|[Hin Hne]].
    + rewrite Hfd, Hu, lookup_insert_eq in Hy. injection Hy as <-. unfold x1. rewrite dir_get_set.
      destruct b; auto.
    + destruct (li_node _ Hi q kq _ E Hin) as (z & Hz & _). simpl in *.
      assert (r = s) as -> by (apply (Huq r z); by exists kq). done.
Qed.

(** The udata of an fd_state that has left the tree has no user. *)
Lemma fds_unref w w2 s x u :
  linux_data w -> w_fdss w !! s = Some x -> fds_udata x = Some u ->
  (forall r kr, w_knotes w2 !! r = Some kr -> exists k0, w_knotes w !! r = Some k0 /\ kn_udata kr = kn_udata k0) ->
  (forall r kr, w_kqs w2 !! r = Some kr -> exists k0, w_kqs w !! r = Some k0 /\ kq_wake_udata kr = kq_wake_udata k0) ->
  w_fdss w2 = delete s (w_fdss w) -> unref w2 u.
Proof.
  intros Hi Hx Hu Hk Hq Hf. destruct (li_fds _ Hi s x u Hx Hu) as (e & He). split.
  - intros r kr Hr Hru. destruct (Hk r kr Hr) as (k0 & E0 & V). rewrite V in Hru.
    destruct (li_kn _ Hi r k0 u E0 Hru) as (e' & He'). congruence.
  - intros r y Hr Hru. rewrite Hf in Hr. apply lookup_delete_Some in Hr as [Hne Hr].
    destruct (li_fds _ Hi r y u Hr Hru) as (e' & He'). congruence.
  - intros r kr Hr Hru. destruct (Hq r kr Hr) as (k0 & E0 & V). rewrite V in Hru.
    destruct (li_wake _ Hi r k0 u E0 Hru) as (e' & He'). congruence.
Qed.

Lemma set_fd_st_id kq : set_kq_fd_st (kq_fd_st kq) kq = kq.
Proof. by destruct kq. Qed.

Lemma frame_shape w p kn kn' q kq kq' ud fd :
  w_knotes w !! p = Some kn -> kn_common kn' = kn_common kn -> w_kqs w !! q = Some kq ->
  kq_common kq' = kq_common kq ->
  frame_ p w (set_w_knotes (<[p := kn']> (w_knotes w)) (set_w_kqs (<[q := kq']> (w_kqs w))
    (set_w_udatas ud (set_w_fdss fd w)))).
Proof.
  intros Ek Hk E Hq. split; simpl; try done; try lia.
  - rewrite lookup_insert_eq, Ek. simpl. by f_equal.
  - intros r Hr. by rewrite lookup_insert_ne.
  - rewrite fmap_insert, Hq. apply insert_id. by rewrite lookup_fmap, E.
Qed.

Lemma rw_unique w0 q p d kn w s x r y :
  rwst w0 q p d kn w -> fds_of w q kn s x -> fds_of w q kn r y -> r = s /\ y = x.
Proof.
  intros Hs (kq & E & Hin & Hx) (kq' & E' & Hin' & Hy). assert (kq' = kq) as -> by congruence.
  destruct (rw_kqueue _ _ _ _ _ _ Hs) as (_ & _ & _ & _ & Hi & _).
  pose proof (fd_entry_unique w q kq _ _ Hi E Hin' Hin eq_refl) as [= ->]. split; congruence.
Qed.

Lemma rw_detach o w0 q p d kn w s x :
  rwst w0 q p d kn w -> fds_of w q kn s x -> kn_fds kn = Some s -> dir_get d x = Some p ->
  o = None \/ o = Some s ->
  wp (epoll_fd_state_del o p (dir_ev d)) (fun _ w' => rwst w0 q p d (set_kn_fds None kn) w') w.
Proof.
  intros Hs Hof Hkf Hg Ho. pose proof Hof as (kq & E & Hin & Hx).
  destruct (rw_kqueue _ _ _ _ _ _ Hs) as (kq0 & E0 & Hl & Ek & Hi & Hf).
  assert (kq0 = kq) as -> by congruence. pose proof Hs as [Hcb Hkq Hd Hsl].
  assert (Huq : forall r y, fds_of w q kn r y -> r = s) by (intros r y Hr; by eapply rw_unique).
  set (fd := s32 (ident (kev kn))) in *. set (x1 := dir_set d None x).
  unfold epoll_fd_state_del. wp_go. apply wp_assert. split; [by destruct d|]. wp_simpl.
  apply wp_assert. split; [apply bool_decide_eq_true; congruence|]. wp_simpl.
  apply wp_assert. split; [apply bool_decide_eq_true; rewrite Hkf; done|]. wp_simpl. rewrite Hkf, Hkq. wp_simpl.
  eapply wp_clear_slot; [done|congruence|]. fold x1. wp_simpl. eapply wp_get_fds; [simpl; by rewrite lookup_insert_eq|].
  pose proof (li_reshape w q kq p kn d fd s x) as Hre.
  destruct (in_use x1) eqn:Hu.
  - unfold in_use in Hu. apply negb_true_iff in Hu. rewrite Hu. wp_simpl. eapply wp_upd_kn; [simpl; exact Ek|].
    assert (Ht : forall e, e ∈ elements (kq_fd_st kq) <-> e = Entry fd s /\ in_use x1 = true \/
      e ∈ elements (kq_fd_st kq) /\ e <> Entry fd s).
    { intros e. unfold in_use. rewrite Hu. destruct (decide (e = Entry fd s)) as [->|]; naive_solver. }
    specialize (Hre (kq_fd_st kq) false Hi E Ek Hkq Hd eq_refl (or_intror Hkf) (or_intror Hg)
      (or_introl (conj Hin Hx)) (li_tree _ Hi q kq E) Ht).
    cbv beta iota zeta in Hre. fold x1 in Hre. unfold in_use in Hre. rewrite Hu, set_fd_st_id in Hre. rewrite (insert_id (w_kqs w)) in Hre by done.
    eapply (rw_reshaped w0 q p d kn w kq kq s x (kq_fd_st kq) false); simpl; try done.
    + fold x1. unfold in_use. by rewrite Hu.
    + by rewrite insert_id.
    + pose proof (frame_shape w p kn (set_kn_fds None kn) q kq kq (w_udatas w) (<[s := x1]> (w_fdss w)) Ek eq_refl E eq_refl) as Hfr.
      rewrite (insert_id (w_kqs w)) in Hfr by done. exact Hfr.
    + intros y Hy. congruence.
    + auto.
    + fold x1. unfold in_use. by rewrite Hu.
  - unfold in_use in Hu. apply negb_false_iff in Hu. rewrite Hu. wp_simpl. eapply wp_get_kq; [simpl; exact E|].
    apply list_elem_of_split in Hin as Hsp. destruct Hsp as (l1 & l2 & Hel).
    destruct (RB_REMOVE_wf e_key _ l1 l2 (Entry fd s) (li_tree _ Hi q kq E) Hel) as (t & Hrm & Hwf & Het).
    assert (Hfd : fds_fd x1 = fd).
    { unfold x1. rewrite dir_set_fd. destruct (li_node _ Hi q kq _ E Hin) as (y & Hy & [Hfy _ _ _]).
      simpl in *. congruence. }
    rewrite Hfd. rewrite (proj2 (RB_FIND_elem e_key fd (kq_fd_st kq) (Entry fd s) (proj1 (li_tree _ Hi q kq E)))) by done.
    rewrite decide_True by done. simpl in Hrm. rewrite Hrm. unfold put_kq. wp_simpl.
    assert (Ht : forall e, e ∈ elements t <-> e = Entry fd s /\ in_use x1 = true \/
      e ∈ elements (kq_fd_st kq) /\ e <> Entry fd s).
    { intros e. unfold in_use. rewrite Hu. pose proof (sortedZ_NoDup _ (proj1 (li_tree _ Hi q kq E))) as Hnd.
      apply NoDup_fmap_1 in Hnd. rewrite Hel in Hnd. apply NoDup_app in Hnd as (_ & Hdj & Hnd).
      apply NoDup_cons in Hnd as [Hn2 _]. rewrite Het, Hel. set_solver. }
    specialize (Hre t false Hi E Ek Hkq Hd eq_refl (or_intror Hkf) (or_intror Hg) (or_introl (conj Hin Hx)) Hwf Ht).
    cbv beta iota zeta in Hre. fold x1 in Hre. unfold in_use in Hre. rewrite Hu in Hre. simpl negb in Hre. cbv iota in Hre.
    unfold FDS_UDATA_DEFER_FREE, epoll_udata_defer_free. wp_simpl. eapply wp_get_fds; [simpl; by rewrite lookup_insert_eq|].
    wp_simpl. eapply wp_mutex_assert; [simpl; by rewrite lookup_insert_eq|done|]. unfold x1 at 1. rewrite dir_set_udata.
    assert (Hend : forall w' kq', w_knotes w' = <[p := set_kn_fds None kn]> (w_knotes w) ->
      w_fdss w' = delete s (w_fdss w) -> w_kqs w' = <[q := kq']> (w_kqs w) -> kq_fd_st kq' = t ->
      linux_data w' -> frame_ p w w' ->
      (forall u y, w_udatas w !! u = Some y -> w_udatas w' !! u = Some y \/
         exists y', w_udatas w' !! u = Some y' /\ ud_type y' = ud_type y /\ ud_back y' = ud_back y /\ ud_stale y' = true) ->
      (forall u y, fds_udata x = Some u -> w_udatas w' !! u = Some y -> ud_stale y = true) ->
      rwst w0 q p d (set_kn_fds None kn) w').
    { intros w' kq' V1 V2 V3 V4 V5 V6 V7 V8. apply (rw_reshaped w0 q p d kn w kq kq' s x t false w'); try done.
      - fold x1. unfold in_use. by rewrite Hu.
      - intros y Hy. congruence. }
    assert (Ep2 : forall r kr, <[p := set_kn_fds None kn]> (w_knotes w) !! r = Some kr ->
      exists k0, w_knotes w !! r = Some k0 /\ kn_udata kr = kn_udata k0).
    { intros r kr Hr. destruct (decide (r = p)) as [->|Hne]; simplify_map_eq; eauto. }
    assert (Eq2 : forall r kr, <[q := set_kq_fd_st t kq]> (w_kqs w) !! r = Some kr ->
      exists k0, w_kqs w !! r = Some k0 /\ kq_wake_udata kr = kq_wake_udata k0).
    { intros r kr Hr. destruct (decide (r = q)) as [->|Hne]; simplify_map_eq; eauto. }
    set (w2 := set_w_knotes (<[p := set_kn_fds None kn]> (w_knotes w)) (set_w_kqs (<[q := set_kq_fd_st t kq]> (w_kqs w))
      (set_w_fdss (delete s (w_fdss w)) w))) in *.
    assert (E2 : w_kqs w2 !! q = Some (set_kq_fd_st t kq)) by (simpl; by rewrite lookup_insert_eq).
    destruct (fds_udata x) as [u|] eqn:Hux.
    + destruct (li_fds _ Hi s x u Hx Hux) as (e & He). wp_simpl. eapply wp_get_ud; [simpl; exact He|]. wp_simpl.
      apply wp_assert. split; [done|]. wp_simpl. eapply wp_get_kq; [simpl; by rewrite lookup_insert_eq|].
      unfold put_ud. wp_simpl. eapply wp_upd_kq; [simpl; by rewrite lookup_insert_eq|]. wp_simpl.
      eapply wp_get_fds; [simpl; by rewrite lookup_insert_eq|]. unfold put_fds, free_fds. wp_simpl.
      eapply wp_get_fds; [simpl; by rewrite lookup_insert_eq|]. wp_simpl. eapply wp_upd_kn; [simpl; exact Ek|].
      pose proof (li_defer w2 q (set_kq_fd_st t kq) u _ (kq_next_epoch kq) Hre (fds_unref w w2 s x u Hi Hx Hux Ep2 Eq2 eq_refl) E2 He eq_refl) as Hi3.
      simpl in Hi3. rewrite insert_insert_eq in Hi3.
      eapply Hend; simpl; rewrite ?insert_insert_eq, ?delete_insert_eq; try done.
      2: { intros v y Hv. destruct (decide (v = u)) as [->|Hne]; [|left; by rewrite lookup_insert_ne].
           right. rewrite lookup_insert_eq. assert (y = EpollUdata EPOLL_UDATA_FD_STATE (ud_fds s) false e) as -> by congruence.
           by eexists. }
      2: { intros v y [= <-]. rewrite lookup_insert_eq. by intros [= <-]. }
      exact (frame_shape w p kn (set_kn_fds None kn) q kq (set_ud_deferred_free (ud_deferred_free kq ++ [u]) (set_kq_fd_st t kq))
        (<[u := _]> (w_udatas w)) (delete s (w_fdss w)) Ek eq_refl E eq_refl).
    + wp_simpl. eapply wp_get_fds; [simpl; by rewrite lookup_insert_eq|]. unfold put_fds, free_fds. wp_simpl.
      eapply wp_get_fds; [simpl; by rewrite lookup_insert_eq|]. wp_simpl. eapply wp_upd_kn; [simpl; exact Ek|].
      eapply Hend; simpl; rewrite ?insert_insert_eq, ?delete_insert_eq; try done; [|by auto].
      by eapply (frame_shape w p kn (set_kn_fds None kn) q kq (set_kq_fd_st t kq) (w_udatas w) (delete s (w_fdss w))).
Qed.

(** ** Attaching *)

Lemma wp_alloc_some (Q : option ptr -> world K -> Prop) w :
  (forall k, Q (Some (w_next w)) (set_w_next (Pos.succ (w_next w)) (set_w_os k w))) -> wp alloc Q w.
Proof.
  intros HQ. unfold alloc, sys. wp_simpl. unfold wp at 1. destruct (sk_alloc (w_os w)) as [k' ->]. wp_simpl. apply HQ.
Qed.

Lemma frame_trans p w1 w2 w3 : frame_ p w1 w2 -> frame_ p w2 w3 -> frame_ p w1 w3.
Proof. intros H1 H2. by etrans. Qed.

Lemma rw_attach_old w0 q p d kn w s x :
  rwst w0 q p d kn w -> fds_of w q kn s x -> kn_fds kn = None \/ kn_fds kn = Some s ->
  rwst w0 q p d (set_kn_fds (Some s) kn) (set_w_knotes (<[p := set_kn_fds (Some s) kn]> (w_knotes w))
    (set_w_fdss (<[s := dir_set d (Some p) x]> (w_fdss w)) w)).
Proof.
  intros Hs Hof Hkf. pose proof Hof as (kq & E & Hin & Hx).
  destruct (rw_kqueue _ _ _ _ _ _ Hs) as (kq0 & E0 & Hl & Ek & Hi & Hf).
  assert (kq0 = kq) as -> by congruence. pose proof Hs as [Hcb Hkq Hd Hsl].
  set (fd := s32 (ident (kev kn))) in *. set (x1 := dir_set d (Some p) x).
  assert (Hu : in_use x1 = true).
  { unfold in_use, x1. apply negb_true_iff, bool_decide_eq_false. destruct d; simpl; naive_solver. }
  assert (Ht : forall e, e ∈ elements (kq_fd_st kq) <-> e = Entry fd s /\ in_use x1 = true \/
    e ∈ elements (kq_fd_st kq) /\ e <> Entry fd s).
  { intros e. rewrite Hu. destruct (decide (e = Entry fd s)) as [->|]; naive_solver. }
  pose proof (li_reshape w q kq p kn d fd s x (kq_fd_st kq) true Hi E Ek Hkq Hd eq_refl Hkf (Hsl s x Hof)
    (or_introl (conj Hin Hx)) (li_tree _ Hi q kq E) Ht) as Hre.
  cbv beta iota zeta in Hre. fold x1 in Hre. rewrite Hu, set_fd_st_id in Hre. rewrite (insert_id (w_kqs w)) in Hre by done.
  eapply (rw_reshaped w0 q p d kn w kq kq s x (kq_fd_st kq) true); simpl; try done.
  - intros r y Hr. by eapply rw_unique.
  - fold x1. by rewrite Hu.
  - by rewrite insert_id.
  - pose proof (frame_shape w p kn (set_kn_fds (Some s) kn) q kq kq (w_udatas w) (<[s := x1]> (w_fdss w)) Ek eq_refl E eq_refl) as Hfr.
    rewrite (insert_id (w_kqs w)) in Hfr by done. exact Hfr.
  - intros y Hy. congruence.
  - auto.
  - fold x1. by rewrite Hu.
Qed.

(** The first knote of a descriptor: [s] and [u] are the two objects allocated. *)
Lemma rw_attach_new w0 q p d kn w kq t k k2 l1 l2 :
  rwst w0 q p d kn w -> found w q p d kn None -> w_kqs w !! q = Some kq ->
  let s := w_next w in let u := Pos.succ s in let fd := s32 (ident (kev kn)) in
  wf e_key t -> elements (kq_fd_st kq) = l1 ++ l2 -> elements t = l1 ++ Entry fd s :: l2 ->
  rwst w0 q p d (set_kn_fds (Some s) kn) (set_w_knotes (<[p := set_kn_fds (Some s) kn]> (w_knotes w))
    (set_w_fdss (<[s := dir_set d (Some p) (FdState fd None None (Some u))]> (w_fdss w))
      (set_w_kqs (<[q := set_kq_fd_st t kq]> (w_kqs w))
        (set_w_udatas (<[u := EpollUdata EPOLL_UDATA_FD_STATE (ud_fds s) false 0]> (w_udatas w))
          (set_w_next (Pos.succ u) (set_w_os k2 (set_w_os k w))))))).
Proof.
  intros Hs [Hkf Hno] E s u fd Hwf Hel Het.
  destruct (rw_kqueue _ _ _ _ _ _ Hs) as (kq0 & E0 & Hl & Ek & Hi & Hf).
  assert (kq0 = kq) as -> by congruence. pose proof Hs as [Hcb Hkq Hd Hsl].
  set (w1 := set_w_next u (set_w_os k w)).
  assert (Hi1 : linux_data (set_w_os k2 w1)).
  { eapply pi_stable; [exact Hi|]. split; simpl; try done. unfold u, s. lia. }
  pose proof (li_new_ud _ (EpollUdata EPOLL_UDATA_FD_STATE (ud_fds s) false 0) Hi1) as Hi2. simpl in Hi2.
  set (w2 := set_w_udatas _ _) in Hi2.
  set (x := FdState fd None None (Some u)). set (x1 := dir_set d (Some p) x).
  assert (Hu : in_use x1 = true) by (by destruct d).
  assert (Hnin : forall e, e ∈ elements (kq_fd_st kq) -> e <> Entry fd s).
  { intros e He ->. destruct (li_node _ Hi q kq _ E He) as (y & Hy & _). simpl in Hy.
    apply (Hno s y). by exists kq. }
  assert (Ht : forall e, e ∈ elements t <-> e = Entry fd s /\ in_use x1 = true \/
    e ∈ elements (kq_fd_st kq) /\ e <> Entry fd s).
  { intros e. rewrite Hu, Het, Hel. specialize (Hnin e). rewrite Hel in Hnin. set_solver. }
  assert (Hsn : w_fdss w !! s = None) by (apply (li_fresh _ Hi); unfold s; lia).
  pose proof (li_reshape w2 q kq p kn d fd s x t true Hi2 E Ek Hkq Hd eq_refl (or_introl Hkf)) as Hre.
  cbv beta iota zeta in Hre. fold x1 in Hre. rewrite Hu in Hre.
  eapply (rw_reshaped w0 q p d kn w kq (set_kq_fd_st t kq) s x t true); simpl; try done.
  - intros r y Hr. by destruct (Hno r y).
  - fold x1. by rewrite Hu.
  - refine (Hre _ _ Hwf _).
    + by destruct d; left.
    + right. split_and!; [done|simpl; unfold u; lia|done|done|]. intros v [= <-]. simpl. rewrite lookup_insert_eq. eauto.
    + intros e. specialize (Ht e). by rewrite Hu in Ht.
  - assert (Hfr : frame_ p w w2) by (unfold w2; split; simpl; try done; unfold u, s; lia).
    pose proof (frame_shape w2 p kn (set_kn_fds (Some s) kn) q kq (set_kq_fd_st t kq) (w_udatas w2)
      (<[s := x1]> (w_fdss w)) Ek eq_refl E eq_refl) as Hfr2. exact (frame_trans _ _ _ _ Hfr Hfr2).
  - congruence.
  - intros v y Hv. left. rewrite lookup_insert_ne; [done|]. intros <-.
    destruct (li_fresh _ Hi u) as [Hn _]; [unfold u, s; lia|congruence].
  - fold x1. by rewrite Hu.
Qed.

Lemma rw_attach o w0 q p d kn w :
  rwst w0 q p d kn w -> found w q p d kn o ->
  wp (epoll_fd_state_mod o p (dir_ev d)) (fun r w' => exists s x, r = (0, Some s) /\
    rwst w0 q p d (set_kn_fds (Some s) kn) w' /\ fds_of w' q kn s x /\ dir_get d x = Some p) w.
Proof.
  intros Hs Ho. destruct (rw_kqueue _ _ _ _ _ _ Hs) as (kq & E & Hl & Ek & Hi & Hf).
  pose proof Hs as [Hcb Hkq Hd Hsl]. unfold epoll_fd_state_mod. wp_simpl. apply wp_assert. split; [by destruct d|]. wp_simpl.
  destruct o as [s|].
  - simpl. wp_simpl. destruct Ho as (x & Hof & Hor). pose proof Hof as (kq' & E' & Hin & Hx).
    eapply wp_take_slot; [exact Hx|by apply (Hsl s)|]. wp_simpl. eapply wp_upd_kn; [simpl; exact Ek|].
    exists s, (dir_set d (Some p) x). wp_simpl. split_and!; [done| | |by rewrite dir_get_set].
    + refine (rw_attach_old w0 q p d kn w s x Hs Hof _). naive_solver.
    + exists kq'. simpl. by rewrite lookup_insert_eq.
  - eapply rw_find; [exact Hs|]. intros [s|] Ho'; [destruct Ho' as (x & Hof & _); by destruct (proj2 Ho s x)|].
    wp_simpl. unfold new_fds. wp_go. rewrite Hkq. wp_simpl. apply wp_alloc_some. intros k. wp_simpl.
    unfold FDS_UDATA_ALLOC, epoll_udata_alloc, put_fds, put_ud. wp_simpl. apply wp_alloc_some. intros k2. wp_simpl.
    eapply wp_get_fds; [simpl; by rewrite lookup_insert_eq|]. wp_simpl. eapply wp_get_kq; [simpl; exact E|].
    set (fd := s32 (ident (kev kn))). set (s := w_next w).
    assert (Hno : RB_FIND e_key (kq_fd_st kq) (e_key (Entry fd s)) = None).
    { destruct (RB_FIND _ _ _) as [e|] eqn:Hr; [|done]. apply RB_FIND_elem in Hr as [Hin He]; [|apply (li_tree _ Hi q kq E)].
      destruct (li_node _ Hi q kq _ E Hin) as (y & Hy & _). destruct e as [fd' r]. simpl in *. subst fd'.
      destruct (proj2 Ho r y). by exists kq. }
    destruct (RB_INSERT_wf e_key _ _ (li_tree _ Hi q kq E) Hno) as (t & l1 & l2 & Hins & Hwf & Hel & Het).
    rewrite Hins. unfold put_kq. wp_simpl. eapply wp_take_slot; [simpl; by rewrite lookup_insert_eq|by destruct d; left|].
    wp_simpl. eapply wp_upd_kn; [simpl; exact Ek|]. simpl. rewrite !insert_insert_eq.
    exists s, (dir_set d (Some p) (FdState fd None None (Some (Pos.succ s)))). split_and!; [done| | |by rewrite dir_get_set].
    + exact (rw_attach_new w0 q p d kn w kq t k k2 l1 l2 Hs Ho E Hwf Hel Het).
    + exists (set_kq_fd_st t kq). simpl. rewrite !lookup_insert_eq, Het. split_and!; [done|set_solver|done].
Qed.
End RW.
