(* ===== verification/LinuxUpdate.v ===== *)
(** * epoll_update and the contract of the read and write filters

    [epoll_update] of src/linux/platform.c takes the registration of a descriptor
    from what its enabled knotes want to what they want after the change.  Here:
    it never faults and attaches or detaches exactly the knote it is called for,
    so the callbacks of src/linux/read.c and src/linux/write.c keep the contract
    of the common code. *)

From Stdlib Require Import ZArith Lia Bool.
From stdpp Require Import base list gmap.
From S2P Require Import Prelude RBTree Event Map State Ops Knote LinuxUdata LinuxEpoll LinuxShared LinuxRules LinuxTimer LinuxUser LinuxReadWrite LinuxSocket.

Section Update.
Context {K : Type} `{OS K} `{!SocketKernel K}.
Implicit Types (w : world K) (p q s : ptr) (x : fd_state).

Lemma rw_epoll_fd (Q : Z -> world K -> Prop) w0 q i p d kn w :
  rwst w0 q p d kn w -> (forall fd, Q fd w) -> wp (filter_epoll_fd (q, i)) Q w.
Proof. intros Hs HQ. by eapply cb_epoll_fd; [apply Hs|]. Qed.

Lemma rw_ev_fds (Q : option epoll_event -> world K -> Prop) w q kn s x e :
  fds_of w q kn s x -> (forall ev, Q ev w) -> wp (EPOLL_EV_FDS e (Some s)) Q w.
Proof. intros (kq & _ & _ & Hx) HQ. unfold EPOLL_EV_FDS. wp_simpl. eapply wp_get_fds; [done|]. wp_simpl. apply HQ. Qed.

Lemma fds_of_eq w w' q kn s x : w_kqs w' = w_kqs w -> w_fdss w' = w_fdss w -> fds_of w q kn s x -> fds_of w' q kn s x.
Proof. intros H1 H2 (kq & A & B & C). exists kq. split_and!; congruence. Qed.

(** The knote that holds a slot is there; it is [p] in the own direction. *)
Lemma counted_own w0 q p d kn w x b :
  rwst w0 q p d kn w -> dir_get d x = Some p ->
  counted w b (dir_get d x) = Bool.eqb b (has (flags (kev kn)) (Z.lor EV_DISABLE EV_EOF)).
Proof. intros Hs ->. unfold counted. simpl. by rewrite (cs_kn _ _ _ _ _ (rs_cb _ _ _ _ _ _ Hs)). Qed.

(** The state after a callback: only [kn_fds] of the knote differs. *)
Definition rw_post (w0 : world K) q p d kn (fds : option ptr) w' : Prop :=
  rwst w0 q p d (set_kn_fds fds kn) w'.

Lemma set_fds_id kn : set_kn_fds (kn_fds kn) kn = kn.
Proof. by destruct kn. Qed.

Lemma rw_post_refl w0 q p d kn w : rwst w0 q p d kn w -> rw_post w0 q p d kn (kn_fds kn) w.
Proof. unfold rw_post. by rewrite set_fds_id. Qed.

(** Adding the knote's events: on success it has an fd_state, on failure it has
    none or the one it had. *)
Lemma update_add w0 q i p d kn w ev :
  rwst w0 q p d kn w -> EV_EPOLLINOUT ev = 0 \/ EV_EPOLLINOUT ev = dir_ev d ->
  wp (epoll_update EPOLL_CTL_ADD (q, i) p ev false) (fun rv w' => rv <= 0 /\ exists fds,
    rw_post w0 q p d kn fds w' /\ (rv < 0 -> fds = None \/ fds = kn_fds kn)) w.
Proof.
  intros Hs Hev. destruct (rw_kqueue _ _ _ _ _ _ Hs) as (kq & E & Hl & Ek & _ & _).
  assert (Hnop : exists fds, rw_post w0 q p d kn fds w /\ (0 < 0 -> fds = None \/ fds = kn_fds kn)).
  { exists (kn_fds kn). split; [by apply rw_post_refl|lia]. }
  assert (Hgo : forall a c o want, found w q p d kn o -> (o = None -> c = false) ->
    want = Z.lor (dmask d a c) ev ->
    wp (match epoll_opn (dmask d a c) (EV_EPOLLINOUT want) with
        | None => ret 0
        | Some opn =>
            let! fds := (match opn with
                         | EPOLL_CTL_ADD => let! m := epoll_fd_state_mod o p (clrb (EV_EPOLLINOUT want) (dmask d a c)) in ret m.2
                         | _ => ret o
                         end) in
            let! epfd := filter_epoll_fd (q, i) in
            let! evt := EPOLL_EV_FDS want fds in
            let! ok := epoll_ctl epfd opn (s32 (ident (kev kn))) evt in
            if ok then epoll_update_done opn fds p (dmask d a c) (EV_EPOLLINOUT want) false
            else epoll_update_failed opn fds p (dmask d a c) (EV_EPOLLINOUT want)
        end) (fun rv w' => rv <= 0 /\ exists fds, rw_post w0 q p d kn fds w' /\
          (rv < 0 -> fds = None \/ fds = kn_fds kn)) w).
  { intros a c o want Ho Hc ->. destruct (dmask_want d a c ev Hev) as [[-> _]|[-> _]]; [rewrite dmask_same; by wp_simpl|].
    destruct a; [rewrite dmask_same; by wp_simpl|]. rewrite dmask_add, dmask_own. destruct c; cbv iota.
    - destruct o as [s|]; [|by specialize (Hc eq_refl)]. wp_simpl. eapply rw_epoll_fd; [exact Hs|]. intros epfd. wp_simpl.
      pose proof Ho as (x & Hof & Hor). eapply rw_ev_fds; [exact Hof|]. intros evt. wp_simpl.
      eapply rw_epoll_ctl; [exact Hs|..].
      + intros w1 Hs1 Hf1 Hq1. unfold epoll_update_done. rewrite dmask_own, dmask_none, dir_ev_nz. wp_simpl.
        eapply wp_mono; [|eapply (rw_attach (Some s) w0 q p d kn w1 Hs1); exists x; split; [by eapply fds_of_eq|done]].
        intros r w2 (s' & x' & -> & Hs2 & _ & _). simpl. wp_simpl. split; [lia|]. exists (Some s'). split; [done|lia].
      + intros w1 Hs1 Hf1 Hq1 He. unfold epoll_update_failed, errno. wp_simpl. specialize (He ltac:(done)).
        replace ((w_errno w1 =? EBADF) || (w_errno w1 =? ENOENT)) with true by (destruct He as [->| ->]; done).
        wp_simpl. pose proof (fds_of_eq _ _ _ _ _ _ Hq1 Hf1 Hof) as (kq1 & _ & _ & Hx1). eapply wp_get_fds; [done|]. wp_simpl.
        match goal with |- context [clrb ?z _] => set (kev_ := z) end.
        assert (Hz : clrb kev_ (dmask d true true) = 0).
        { subst kev_. repeat case_bool_decide; by destruct d. }
        rewrite Hz. wp_simpl. split; [lia|]. exists (kn_fds kn). split; [by apply rw_post_refl|by right].
    - wp_simpl. eapply wp_mono; [|by eapply rw_attach]. intros r w1 (s & x & -> & Hs1 & Hof & Hg). simpl. wp_simpl.
      eapply rw_epoll_fd; [exact Hs1|]. intros epfd. wp_simpl. eapply rw_ev_fds; [exact Hof|]. intros evt. wp_simpl.
      eapply rw_epoll_ctl; [exact Hs1|..].
      + intros w2 Hs2 _ _. unfold epoll_update_done. wp_simpl. split; [lia|]. exists (Some s). split; [done|lia].
      + intros w2 Hs2 Hf2 Hq2 _. unfold epoll_update_failed. rewrite dmask_own. wp_simpl.
        eapply wp_mono; [|eapply (rw_detach (Some s) _ _ _ _ _ _ s x Hs2); [by eapply fds_of_eq|done|done|by right]].
        intros o' w3 Hs3. wp_simpl. split; [lia|]. exists None. split; [exact Hs3|by left]. }
  unfold epoll_update. wp_go. eapply rw_state; [exact Hs|..].
  - intros Hf. wp_simpl. by apply (Hgo false false None).
  - intros s x Hof Hor. wp_simpl. apply (Hgo _ _ (Some s)); try done. by exists x.
Qed.

(** The event the failure path of [epoll_update] finds for the knote. *)
Lemma failed_ev w0 q p d kn w s x :
  rwst w0 q p d kn w -> fds_of w q kn s x -> dir_get d x = Some p ->
  (if bool_decide (fds_read x = Some p) then EPOLLIN
   else if bool_decide (fds_write x = Some p) then EPOLLOUT else 0) = dir_ev d.
Proof.
  intros Hs (kq & E & Hin & Hx) Hg. destruct (rw_kqueue _ _ _ _ _ _ Hs) as (_ & _ & _ & Ek & Hi & _).
  destruct (li_node _ Hi q kq _ E Hin) as (y & Hy & (_ & _ & Hn)%node_dir). simpl in Hy.
  assert (y = x) as -> by congruence. destruct d; simpl in *.
  - by rewrite bool_decide_eq_true_2.
  - rewrite bool_decide_eq_false_2, bool_decide_eq_true_2; [done|done|]. intros Hr.
    destruct (Hn Rd p Hr) as (k & Ek' & _ & _ & Hf). pose proof (rs_dir _ _ _ _ _ _ Hs) as Hd.
    assert (k = kn) as -> by congruence. rewrite Hd in Hf. done.
Qed.

(** Removing the events of an enabled knote: with [delete], or when the
    registration turns out to be gone, the knote loses its fd_state. *)
Lemma update_del_enabled w0 q i p d kn w s x c want delete :
  rwst w0 q p d kn w -> fds_of w q kn s x -> kn_fds kn = Some s -> dir_get d x = Some p ->
  want = dmask d false c ->
  wp (let! epfd := filter_epoll_fd (q, i) in
      let! evt := EPOLL_EV_FDS want (Some s) in
      let! ok := epoll_ctl epfd (if c then EPOLL_CTL_MOD else EPOLL_CTL_DEL) (s32 (ident (kev kn))) evt in
      if ok then epoll_update_done (if c then EPOLL_CTL_MOD else EPOLL_CTL_DEL) (Some s) p (dmask d true c) want delete
      else epoll_update_failed (if c then EPOLL_CTL_MOD else EPOLL_CTL_DEL) (Some s) p (dmask d true c) want)
     (fun rv w' => rv = 0 /\ exists fds, rw_post w0 q p d kn fds w' /\ (delete = true -> fds = None)) w.
Proof.
  intros Hs Hof Hkf Hg ->. wp_simpl. eapply rw_epoll_fd; [exact Hs|]. intros epfd. wp_simpl.
  eapply rw_ev_fds; [exact Hof|]. intros evt. wp_simpl.
  assert (Hdet : forall w1 o, rwst w0 q p d kn w1 -> fds_of w1 q kn s x -> o = None \/ o = Some s ->
    wp (epoll_fd_state_del o p (dir_ev d)) (fun _ w' => rw_post w0 q p d kn None w') w1).
  { intros w1 o Hs1 Hof1 Ho. by eapply rw_detach. }
  eapply rw_epoll_ctl; [exact Hs|..].
  - intros w1 Hs1 Hf1 Hq1. pose proof (fds_of_eq _ _ _ _ _ _ Hq1 Hf1 Hof) as Hof1.
    assert (Hfin : wp (if delete then epoll_fd_state_del (Some s) p (dir_ev d) else ret (Some s))
      (fun _ w' => exists fds, rw_post w0 q p d kn fds w' /\ (delete = true -> fds = None)) w1).
    { destruct delete.
      - eapply wp_mono; [|apply (Hdet w1 (Some s)); auto]. intros o w2 Hs2. by exists None.
      - wp_simpl. exists (kn_fds kn). split; [by apply rw_post_refl|done]. }
    unfold epoll_update_done. destruct c; rewrite ?dmask_none, ?dmask_own; simpl; rewrite ?dir_ev_nz; simpl;
      wp_simpl; (eapply wp_mono; [|exact Hfin]); intros o w2 Hw2; wp_simpl; done.
  - intros w1 Hs1 Hf1 Hq1 He. pose proof (fds_of_eq _ _ _ _ _ _ Hq1 Hf1 Hof) as Hof1.
    assert (Hop : (if c then EPOLL_CTL_MOD else EPOLL_CTL_DEL) <> EPOLL_CTL_ADD) by (by destruct c).
    specialize (He Hop). assert (Hgone : (w_errno w1 =? EBADF) || (w_errno w1 =? ENOENT) = true)
      by (destruct He as [->| ->]; done).
    pose proof Hof1 as (kq1 & _ & _ & Hx1).
    unfold epoll_update_failed, errno. destruct c; wp_simpl; rewrite Hgone; wp_simpl;
      (eapply wp_get_fds; [exact Hx1|]); rewrite (failed_ev w0 q p d kn w1 s x Hs1 Hof1 Hg), dir_ev_clr, dir_ev_nz; wp_simpl;
      (eapply wp_mono; [|apply (Hdet w1 (Some s)); auto]); intros o w2 Hs2; wp_simpl; (split; [done|]); by exists None.
Qed.

Lemma update_del w0 q i p d kn w delete :
  rwst w0 q p d kn w ->
  wp (epoll_update EPOLL_CTL_DEL (q, i) p (dir_ev d) delete) (fun rv w' => rv = 0 /\ exists fds,
    rw_post w0 q p d kn fds w' /\ (delete = true -> fds = None)) w.
Proof.
  intros Hs. destruct (rw_kqueue _ _ _ _ _ _ Hs) as (kq & E & Hl & Ek & _ & _).
  unfold epoll_update. wp_go. eapply rw_state; [exact Hs|..].
  - intros [Hkf Hno]. unfold epoll_want. wp_simpl.
    assert (Hpost : exists fds, rw_post w0 q p d kn fds w /\ (delete = true -> fds = None)).
    { exists (kn_fds kn). split; [by apply rw_post_refl|by intros]. }
    destruct delete; wp_simpl; cbn [fst snd]; [|rewrite dmask_clr, dmask_inout, dmask_same; by wp_simpl].
    unfold epoll_drop_disabled. wp_simpl. eapply rw_state; [exact Hs|..].
    + intros _. wp_simpl. cbn [fst snd]. rewrite dmask_land. change (0 =? 0) with true. wp_simpl. cbn [fst snd]. rewrite dmask_clr, dmask_inout, dmask_same. by wp_simpl.
    + intros s x Hof. by destruct (Hno s x).
  - intros s x Hof Hor. set (c := counted w false (dir_get (other d) x)). set (a := counted w false (dir_get d x)).
    unfold epoll_want. wp_simpl.
    assert (Htail : forall fds w1, (a = false -> exists fds, rw_post w0 q p d kn fds w1 /\ (delete = true -> fds = None)) ->
      (a = true -> w1 = w /\ fds = Some s) ->
      wp (match epoll_opn (dmask d a c) (EV_EPOLLINOUT (clrb (dmask d a c) (dir_ev d))) with
          | None => ret 0
          | Some opn =>
              let! fds := (match opn with
                           | EPOLL_CTL_ADD => let! m := epoll_fd_state_mod fds p
                               (clrb (EV_EPOLLINOUT (clrb (dmask d a c) (dir_ev d))) (dmask d a c)) in ret m.2
                           | _ => ret fds
                           end) in
              let! epfd := filter_epoll_fd (q, i) in
              let! evt := EPOLL_EV_FDS (clrb (dmask d a c) (dir_ev d)) fds in
              let! ok := epoll_ctl epfd opn (s32 (ident (kev kn))) evt in
              if ok then epoll_update_done opn fds p (dmask d a c) (EV_EPOLLINOUT (clrb (dmask d a c) (dir_ev d))) delete
              else epoll_update_failed opn fds p (dmask d a c) (EV_EPOLLINOUT (clrb (dmask d a c) (dir_ev d)))
          end) (fun rv w' => rv = 0 /\ exists fds, rw_post w0 q p d kn fds w' /\ (delete = true -> fds = None)) w1).
    { intros fds w1 H1 H2. rewrite dmask_clr, dmask_inout. destruct a eqn:Ha.
      2: { rewrite dmask_same. wp_simpl. split; [done|by apply H1]. }
      destruct (H2 eq_refl) as [-> ->]. assert (Hat : kn_fds kn = Some s /\ dir_get d x = Some p).
      { destruct Hor as [?|[_ Hn]]; [done|]. exfalso. subst a. rewrite Hn in Ha. done. }
      destruct Hat as [Hkf Hg]. rewrite dmask_del.
      pose proof (update_del_enabled w0 q i p d kn w s x c _ delete Hs Hof Hkf Hg eq_refl) as Hup.
      destruct c; wp_simpl; rewrite ?wp_bind in Hup; exact Hup. }
    assert (Hkeep : kn_fds kn = None \/ delete = false ->
      exists fds, rw_post w0 q p d kn fds w /\ (delete = true -> fds = None)).
    { intros Hk. exists (kn_fds kn). split; [by apply rw_post_refl|]. intros ->. by destruct Hk. }
    destruct delete; wp_simpl; cbn [fst snd]; [|apply Htail; auto].
    unfold epoll_drop_disabled. wp_simpl. eapply rw_state_some; [exact Hs|exact Hof|]. wp_simpl. cbn [fst snd]. rewrite dmask_land.
    destruct Hor as [[Hkf Hg]|[Hkf Hg]].
    2: { rewrite Hg. simpl. wp_simpl. apply Htail; auto. }
    rewrite (counted_own w0 q p d kn w x true Hs Hg). assert (Ha : a = Bool.eqb false (has (flags (kev kn)) (Z.lor EV_DISABLE EV_EOF)))
      by (exact (counted_own w0 q p d kn w x false Hs Hg)).
    destruct (has (flags (kev kn)) (Z.lor EV_DISABLE EV_EOF)); simpl in *.
    + rewrite dir_ev_nz. wp_simpl. eapply wp_mono; [|eapply (rw_detach (Some s)); eauto]. intros o w1 Hs1. wp_simpl.
      apply Htail; [|by rewrite Ha]. intros _. by exists None.
    + wp_simpl. apply Htail; [by rewrite Ha|auto].
Qed.
End Update.
