(* ===== verification/LinuxRWContract.v ===== *)
(** * The read and write filters keep the contract of the common code

    The callbacks of src/linux/read.c and src/linux/write.c, on sockets, pipes and
    devices through the shared fd_state ([LinuxUpdate]), on regular files through an
    eventfd of their own. *)

From Stdlib Require Import ZArith Lia Bool.
From stdpp Require Import base list gmap.
From S2P Require Import Prelude RBTree Event Map State Ops Knote Filter LinuxUdata LinuxEpoll LinuxShared LinuxRules LinuxTimer LinuxUser LinuxReadWrite LinuxSocket LinuxUpdate.

Section Start.
Context {K : Type}.
Implicit Types (w : world K) (p q s : ptr) (x : fd_state).

Lemma indexed_unique w q i k p p' :
  winv w -> indexed w q i (Entry k p) -> indexed w q i (Entry k p') -> p = p'.
Proof.
  intros Hw (x & Hx & He) (x' & Hx' & He'). assert (x' = x) as -> by congruence.
  pose proof (slot_of_ok _ _ _ _ Hw Hx) as Hok.
  apply (index_of_lookup _ _ _ _ _ _ Hok) in He, He'. congruence.
Qed.

Lemma dir_lnot d kn : filter_ (kev kn) = dir_filter d -> Z.to_nat (Z.lnot (filter_ (kev kn))) = dir_slot d.
Proof. intros ->. by destruct d. Qed.

Lemma dir_of_slot d kn : Z.lnot (filter_ (kev kn)) = Z.of_nat (dir_slot d) -> filter_ (kev kn) = dir_filter d.
Proof. unfold Z.lnot. destruct d; simpl; unfold EVFILT_READ, EVFILT_WRITE; lia. Qed.

Lemma s32_inj a b : 0 <= a < 2 ^ 31 -> 0 <= b < 2 ^ 31 -> s32 a = s32 b -> a = b.
Proof. intros Ha Hb. unfold s32. rewrite !signed_id by lia. done. Qed.

(** The knote in the slot of a descriptor is indexed under that descriptor. *)
Lemma slot_holder w q kn d s x p' o :
  linux_data w -> shared_ok o w -> Some p' <> o -> fds_of w q kn s x -> dir_get d x = Some p' ->
  filter_ (kev kn) = dir_filter d -> fd_ident (kev kn) ->
  indexed w q (dir_slot d) (Entry (ident (kev kn)) p') /\ exists kn', w_knotes w !! p' = Some kn' /\ kn_fds kn' = Some s.
Proof.
  intros Hi Hsh Hne (kq & E & Hin & Hx) Hg Hd Hid.
  destruct (li_node _ Hi q kq _ E Hin) as (y & Hy & (_ & _ & Hn)%node_dir). simpl in Hy.
  assert (y = x) as -> by congruence. destruct (Hn d p' Hg) as (k & Ek & Hkq & Hkf & Hfl). simpl in Hkf.
  assert (Hat : attached w p' k q) by (split_and!; [done|congruence|done|by exists kq]).
  pose proof (so_index _ _ Hsh p' k q Hat Hne) as Hix. rewrite (dir_lnot d k Hfl) in Hix.
  destruct (li_own_dir w p' k s q kq Hi Ek Hkf Hkq E) as (Hin' & _).
  assert (Hs : s32 (ident (kev k)) = s32 (ident (kev kn))).
  { destruct (node_unique w q q kq kq _ _ Hi E E Hin' Hin eq_refl) as [_ [= Hs]]. done. }
  pose proof (so_ident _ _ Hsh p' k Ek) as Hid'.
  assert (Hrw : dir_filter d = EVFILT_READ \/ dir_filter d = EVFILT_WRITE) by (destruct d; auto).
  apply s32_inj in Hs; [|apply Hid'; by rewrite Hfl|apply Hid; by rewrite Hd].
  rewrite Hs in Hix. eauto.
Qed.

(** The state in which a callback starts on a knote that is in the index ... *)
Lemma rw_start w q p d :
  winv w -> linux_inv w -> cb_pre w q (dir_slot d) p -> listed w q (dir_slot d) p ->
  exists kn, rwst w q p d kn w /\ w_knotes w !! p = Some kn.
Proof.
  intros Hw [Hi Hsh] Hcb Hls. destruct (cbst_start w q _ p Hi Hcb) as (kn & Hs & Hkq & Hf).
  pose proof (cs_kn _ _ _ _ _ Hs) as Ek. exists kn. split; [|done].
  split; [done|done|by apply dir_of_slot|]. intros s x Hof. destruct (dir_get d x) as [p'|] eqn:Hg; [|by left].
  right. f_equal. destruct (slot_holder w q kn d s x p' None Hi Hsh ltac:(done) Hof Hg (dir_of_slot d kn Hf) (so_ident _ _ Hsh p kn Ek)) as [Hix _].
  by eapply indexed_unique; [exact Hw|exact Hix|apply Hls].
Qed.

(** ... on one that is about to enter it ... *)
Lemma rw_start_new w q p d :
  winv w -> linux_inv w -> cb_pre w q (dir_slot d) p -> absent w q (dir_slot d) p ->
  exists kn, rwst w q p d kn w /\ w_knotes w !! p = Some kn.
Proof.
  intros Hw [Hi Hsh] Hcb Hab. destruct (cbst_start w q _ p Hi Hcb) as (kn & Hs & Hkq & Hf).
  pose proof (cs_kn _ _ _ _ _ Hs) as Ek. exists kn. split; [|done].
  split; [done|done|by apply dir_of_slot|]. intros s x Hof. destruct (dir_get d x) as [p'|] eqn:Hg; [|by left].
  destruct (slot_holder w q kn d s x p' None Hi Hsh ltac:(done) Hof Hg (dir_of_slot d kn Hf) (so_ident _ _ Hsh p kn Ek)) as [Hix _].
  by destruct (Hab kn _ Ek Hix).
Qed.

(** ... and on one that has just left it. *)
Lemma rw_start_del w0 w q p d :
  winv w0 -> linux_inv w0 -> unlinking q (dir_slot d) p w0 w -> cb_pre w q (dir_slot d) p ->
  exists kn, rwst w q p d kn w /\ w_knotes w !! p = Some kn /\ shared_ok (Some p) w.
Proof.
  intros Hw [Hi Hsh] Hun Hcb. pose proof (unlinking_index _ _ _ _ _ Hun) as Hix.
  destruct Hun as (kq & x0 & t & r & c & kn0 & E & Ei & Ek0 & Hin0 & Hw' & Ht).
  assert (Hkn : w_knotes w = w_knotes w0) by (by subst w).
  assert (Hq : forall r, is_Some (w_kqs w !! r) -> is_Some (w_kqs w0 !! r)).
  { intros r'. subst w. simpl. destruct (decide (r' = q)) as [->|Hne]; [by rewrite E|by rewrite lookup_insert_ne]. }
  assert (Hi' : linux_data w).
  { subst w. apply (li_views w0); try done. simpl. rewrite fmap_insert. apply insert_id. by rewrite lookup_fmap, E. }
  assert (Hsh' : shared_ok (Some p) w).
  { apply (shared_views (Some p) w0); [|done| |by apply shared_weaken].
    - rewrite Hkn. eauto.
    - intros p' kn' q' _ Hne _ Hin. apply Hix; [done|]. simpl. congruence. }
  destruct (cbst_start w q _ p Hi' Hcb) as (kn & Hs & Hkq & Hf). pose proof (cs_kn _ _ _ _ _ Hs) as Ek.
  assert (kn0 = kn) as -> by congruence.
  exists kn. split_and!; try done. split; [done|done|by apply dir_of_slot|]. intros s x Hof.
  destruct (dir_get d x) as [p'|] eqn:Hg; [|by left]. right. f_equal.
  assert (Hof0 : fds_of w0 q kn s x).
  { destruct Hof as (kq' & E' & Hin & Hx). subst w. simpl in *. rewrite lookup_insert_eq in E'. injection E' as <-. by exists kq. }
  destruct (slot_holder w0 q kn d s x p' None Hi Hsh ltac:(done) Hof0 Hg (dir_of_slot d kn Hf) (so_ident _ _ Hsh p kn Ek0)) as [Hp' _].
  eapply (indexed_unique w0); [exact Hw|exact Hp'|]. exists x0. unfold slot_of. by rewrite E.
Qed.

(** At the end of a callback: the members [shared_ok] reads, but for [kn_fds],
    are as at its start. *)
Lemma rw_end w w' q p d kn kn' :
  linux_inv w -> listed w q (dir_slot d) p -> w_knotes w !! p = Some kn -> frame_ p w w' -> linux_data w' ->
  w_knotes w' !! p = Some kn' -> filter_ (kev kn) = dir_filter d -> kn_kq kn = Some q ->
  has (kn_flags kn') KNFL_FILE = has (kn_flags kn) KNFL_FILE -> epoll_events kn' = epoll_events kn ->
  (kn_fds kn' <> None -> has (kn_flags kn) KNFL_FILE = false) ->
  (has (kn_flags kn) KNFL_FILE = false -> kn_udata kn' = kn_udata kn) -> linux_inv w'.
Proof.
  intros [Hi Hsh] Hls Ek Hf Hi' Ek' Hd Hkq Hfl Hev Hnf Hud. split; [done|].
  pose proof (fr_knote _ _ _ Hf) as Hc. rewrite Ek, Ek' in Hc. apply (inj Some) in Hc. injection Hc as V1 V2 _ V4 _.
  eapply shared_frame; [done|by apply shared_weaken|done|..].
  - intros q' (_ & Hfd & Hkq' & _). rewrite Hfl. split; [|by apply Hnf]. intros _.
    assert (q' = q) as -> by congruence. apply (indexed_frame p w w'); [done|]. rewrite V1, V2, (dir_lnot d kn Hd). by apply Hls.
  - intros d' Hd' Hff. rewrite Hfl in Hff. unfold plain. rewrite Hev, (Hud Hff). apply (so_events _ _ Hsh p kn); congruence.
Qed.

(** A new knote that keeps [shared_ok] up to its own entry is fine once it is
    in the index. *)
Lemma rw_linked w w2 q p d kn :
  linux_data w -> shared_ok (Some p) w -> w_knotes w !! p = Some kn -> kn_kq kn = Some q ->
  filter_ (kev kn) = dir_filter d -> linking q (dir_slot d) p w w2 -> linux_inv w2.
Proof.
  intros Hi Hsh Ek Hkq Hd Hl. pose proof (linking_plat _ _ _ _ _ Hl) as Hp.
  split; [by eapply pi_stable|]. pose proof Hsh as [A B C D].
  destruct Hl as (kq & x & t & c & kn0 & E & Ei & Ek0 & -> & Ht). assert (kn0 = kn) as -> by congruence.
  assert (Hat : forall r k q', attached (with_slot w q kq (dir_slot d) (set_kf_index t x) c) r k q' -> attached w r k q').
  { intros r k q' (E1 & E2 & E3 & E4). split_and!; try done. simpl in E4.
    destruct (decide (q' = q)) as [->|Hne]; [by rewrite E|by rewrite lookup_insert_ne in E4]. }
  split.
  - intros r k q' Hr _. destruct (decide (r = p)) as [->|Hne].
    + assert (k = kn) as -> by (destruct Hr; simpl in *; congruence).
      assert (q' = q) as -> by (destruct Hr as (_ & _ & ? & _); congruence). rewrite (dir_lnot d kn Hd).
      exists (set_kf_index t x). unfold slot_of, with_slot. simpl. rewrite lookup_insert_eq. simpl.
      rewrite list_lookup_insert_eq by (by eapply lookup_lt_Some). split; [done|]. apply Ht. by left.
    + apply (pe_index _ _ Hp). apply A; [by apply Hat|congruence].
  - exact B.
  - intros r k q' Hr. by eapply C, Hat.
  - exact D.
Qed.
End Start.

(** ** The callbacks *)

Section Callbacks.
Context {K : Type} `{OS K} `{!SocketKernel K}.
Implicit Types (w : world K) (p q s : ptr) (x : fd_state).

Lemma rw_sys {A : Type} (c : syscall A) (Q : option A -> world K -> Prop) w0 q p d kn w :
  rwst w0 q p d kn w -> (forall r w', rwst w0 q p d kn w' -> Q r w') -> wp (sys c) Q w.
Proof.
  intros Hs HQ. apply wp_sys.
  - intros a k _. apply HQ. eapply rw_move; [exact Hs|apply frame_os| |done..].
    eapply pi_stable; [apply Hs|apply plat_os].
  - intros e k _. apply HQ. eapply rw_move; [exact Hs| | |done..].
    + etrans; [apply frame_os|apply (frame_errno _ (set_w_os k w))].
    + eapply pi_stable; [apply Hs|]. by split.
Qed.

Lemma rw_set_errno e (Q : unit -> world K -> Prop) w0 q p d kn w :
  rwst w0 q p d kn w -> (forall w', rwst w0 q p d kn w' -> Q tt w') -> wp (set_errno e) Q w.
Proof.
  intros Hs HQ. unfold set_errno. wp_simpl. apply HQ. eapply rw_move; [exact Hs|apply frame_errno| |done..].
  eapply pi_stable; [apply Hs|apply plat_errno].
Qed.

Lemma rw_get_kn (Q : knote -> world K -> Prop) w0 q p d kn w :
  rwst w0 q p d kn w -> Q kn w -> wp (get_kn p) Q w.
Proof. intros Hs HQ. by eapply cb_get_kn; [apply Hs|]. Qed.

Lemma rw_upd_kn g (Q : unit -> world K -> Prop) w0 q p d kn w :
  rwst w0 q p d kn w -> kn_common (g kn) = kn_common kn -> kn_udata (g kn) = kn_udata kn ->
  kn_fds (g kn) = kn_fds kn -> kev (g kn) = kev kn ->
  (forall w', rwst w0 q p d (g kn) w' -> Q tt w') -> wp (upd_kn p g) Q w.
Proof.
  intros Hs Hc Hu Hf Hk HQ. pose proof Hs as [Hcb Hkq Hd Hsl]. eapply wp_upd_kn; [apply Hcb|]. apply HQ.
  assert (Hg : cbst w0 q p (g kn) (set_w_knotes (<[p := g kn]> (w_knotes w)) w)).
  { eapply cbst_knote; [exact Hcb|eapply frame_knotes; [apply Hcb|done]| |simpl; by rewrite lookup_insert_eq|].
    2: { eapply keep_upd; [apply Hcb|by left]. }
    eapply li_knote; [apply Hcb|apply Hcb| |].
    - injection Hc as V1 V2 _ V3 _. congruence.
    - intros u Hg. eapply li_kn; [apply Hcb|apply Hcb|congruence]. }
  split; [done|injection Hc as _ _ _ -> _; done|by rewrite Hk|]. intros s x Hof. apply (Hsl s). unfold fds_of in *. by rewrite Hk in Hof.
Qed.

Ltac rw_step :=
  cbn [fst snd]; wp_simpl;
  first
    [ eapply rw_get_kn; [eassumption|]
    | eapply rw_upd_kn; [eassumption|reflexivity|reflexivity|reflexivity|reflexivity|intros ? ?]
    | eapply rw_set_errno; [eassumption|intros ? ?]
    | eapply rw_sys; [eassumption|intros ? ? ?]
    | match goal with
      | |- wp (if ?b then _ else _) _ _ => destruct b eqn:?
      | |- wp (match ?o with Some _ => _ | None => _ end) _ _ => destruct o eqn:?
      end ].

(** The knote [kn'] differs from [kn] in flags it has more, and not in KNFL_KNOTE_DELETED. *)
Definition more_flags (kn kn' : knote) : Prop :=
  kev kn' = kev kn /\ kn_fds kn' = kn_fds kn /\ epoll_events kn' = epoll_events kn /\ kn_udata kn' = kn_udata kn /\
  (has (kn_flags kn') KNFL_FILE = false -> has (kn_flags kn) KNFL_FILE = false).

Lemma more_flags_refl kn : more_flags kn kn.
Proof. done. Qed.

Lemma rw_add_flags fl (Q : unit -> world K -> Prop) w0 q p d kn0 kn w :
  Z.land fl KNFL_KNOTE_DELETED = 0 -> rwst w0 q p d kn w -> more_flags kn0 kn ->
  (forall kn' w', rwst w0 q p d kn' w' -> more_flags kn0 kn' -> Q tt w') -> wp (add_flags fl p) Q w.
Proof.
  intros Hz Hs (H1 & H2 & H3 & H5 & H4) HQ. unfold add_flags. eapply rw_upd_kn; [exact Hs| |done..|].
  - unfold kn_common. simpl. rewrite has_setb. unfold has at 2. by rewrite Hz, orb_false_r.
  - intros w' Hs'. eapply HQ; [exact Hs'|]. split_and!; try done. simpl. rewrite has_setb.
    intros [? _]%orb_false_iff. by apply H4.
Qed.

Lemma mode_flag_land fmt fl : mode_flag fmt = Some fl -> Z.land fl KNFL_KNOTE_DELETED = 0.
Proof. unfold mode_flag. repeat case_match; intros [= <-]; done. Qed.
Lemma socket_flag_land t fl : socket_flag t = Some fl -> Z.land fl KNFL_KNOTE_DELETED = 0.
Proof. unfold socket_flag. repeat case_match; intros [= <-]; done. Qed.

Lemma passive_ok fd opt (Q : bool -> world K -> Prop) w0 q p d kn0 kn w :
  rwst w0 q p d kn w -> more_flags kn0 kn ->
  (forall b kn' w', rwst w0 q p d kn' w' -> more_flags kn0 kn' -> Q b w') -> wp (passive_option fd opt p) Q w.
Proof.
  intros Hs Hm HQ. unfold passive_option, errno. rw_step. destruct r as [v|].
  - wp_simpl. destruct (v =? 0); wp_simpl; [by eapply HQ|]. by eapply rw_add_flags; [| | |intros; wp_simpl; eapply HQ].
  - wp_simpl. by eapply HQ.
Qed.

Lemma descriptor_type_ok w0 q p d kn w :
  rwst w0 q p d kn w -> wp (linux_get_descriptor_type p) (fun _ w' => exists kn',
    rwst w0 q p d kn' w' /\ more_flags kn kn') w.
Proof.
  intros Hs. unfold linux_get_descriptor_type. rw_step. rw_step. destruct r as [sb|]; [|wp_simpl; by exists kn].
  pose proof (more_flags_refl kn) as Hm.
  destruct (mode_flag _) as [fl|] eqn:Hmf.
  { wp_simpl. eapply rw_add_flags; [by eapply mode_flag_land|done|exact Hm|]. intros. wp_simpl. eauto. }
  destruct (negb _); [rw_step; wp_simpl; by exists kn|]. rw_step.
  destruct r as [st|]; [|wp_simpl; by exists kn].
  destruct (socket_flag st) as [fl|] eqn:Hsf; [|rw_step; wp_simpl; by exists kn].
  wp_simpl. eapply rw_add_flags; [by eapply socket_flag_land|done|exact Hm|]. intros kn1 w1 Hs1 Hm1. wp_simpl.
  eapply passive_ok; [exact Hs1|exact Hm1|]. intros b kn2 w2 Hs2 Hm2. destruct (negb b); [wp_simpl; by exists kn2|].
  wp_simpl. eapply passive_ok; [exact Hs2|exact Hm2|]. intros b' kn3 w3 Hs3 Hm3. wp_simpl. by exists kn3.
Qed.

(** ** Regular files *)

Definition efd_set (d : dir) : Z -> knote -> knote :=
  match d with Rd => set_kn_read_eventfd | Wr => set_kn_write_eventfd end.
Definition efd_get (d : dir) : knote -> Z := match d with Rd => kn_read_eventfd | Wr => kn_write_eventfd end.

(** Nothing that [shared_ok] reads has changed, but perhaps an event mask that
    does not matter for a file. *)
Definition file_kn (kn kn' : knote) : Prop :=
  kev kn' = kev kn /\ kn_fds kn' = kn_fds kn /\ kn_flags kn' = kn_flags kn.

Lemma file_create_ok w0 q i p d kn w :
  cbst w0 q p kn w -> wp (file_eventfd_create (q, i) p (efd_set d)) (fun rv w' => exists kn',
    cbst w0 q p kn' w' /\ file_kn kn kn') w.
Proof. intros Hs. unfold file_eventfd_create, efd_set. destruct d; cb_go; eexists; split; eauto; done. Qed.

Lemma file_delete_ok w0 q i p d kn w :
  cbst w0 q p kn w -> wp (file_eventfd_delete (q, i) p (efd_get d) (efd_set d)) (fun rv w' => rv <> 1 /\ exists kn',
    cbst w0 q p kn' w' /\ file_kn kn kn' /\ epoll_events kn' = epoll_events kn) w.
Proof.
  intros Hs. unfold file_eventfd_delete, efd_get, efd_set.
  destruct d; cb_go; (split; [done|]); eexists; split_and!; eauto; done.
Qed.

Lemma file_enable_ok w0 q p d kn w :
  cbst w0 q p kn w -> wp (file_eventfd_enable p (efd_get d)) (fun _ w' => exists kn',
    cbst w0 q p kn' w' /\ file_kn kn kn' /\ epoll_events kn' = epoll_events kn) w.
Proof. intros Hs. unfold file_eventfd_enable, efd_get. destruct d; cb_go; eexists; split_and!; eauto; done. Qed.

Lemma file_disable_ok w0 q p d kn w :
  cbst w0 q p kn w -> wp (file_eventfd_disable p (efd_get d)) (fun _ w' => exists kn',
    cbst w0 q p kn' w' /\ file_kn kn kn' /\ epoll_events kn' = epoll_events kn) w.
Proof. intros Hs. unfold file_eventfd_disable, efd_get. destruct d; cb_go; eexists; split_and!; eauto; done. Qed.

(** ** The clauses of the contract *)

Lemma rw_frame_kn w q p d kn w' kn' :
  rwst w q p d kn w -> cbst w q p kn' w' -> kn_kq kn' = Some q /\ filter_ (kev kn') = dir_filter d.
Proof.
  intros Hs Hs'. pose proof (fr_knote _ _ _ (cs_frame _ _ _ _ _ Hs')) as Hc.
  rewrite (cs_kn _ _ _ _ _ (rs_cb _ _ _ _ _ _ Hs)), (cs_kn _ _ _ _ _ Hs') in Hc. apply (inj Some) in Hc.
  injection Hc as _ V2 _ V4 _. rewrite V2, V4. split; apply Hs.
Qed.

Lemma create_end w q p d kn kn' w' rv :
  linux_inv w -> rwst w q p d kn w -> cbst w q p kn' w' ->
  (kn_fds kn' <> None -> has (kn_flags kn') KNFL_FILE = false) ->
  (has (kn_flags kn') KNFL_FILE = false -> plain d kn') ->
  (rv < 0 -> kn_fds kn' = None) ->
  frame_ p w w' /\ (rv < 0 -> linux_inv w' /\ forall k, w_knotes w' !! p = Some k -> unshared k) /\
  forall w2, linking q (dir_slot d) p w' w2 -> linux_inv w2.
Proof.
  intros [Hi Hsh] Hs Hs' Hnf Hev Hrv. destruct (rw_frame_kn _ _ _ _ _ _ _ Hs Hs') as [Hkq Hd].
  assert (Hev' : forall d', filter_ (kev kn') = dir_filter d' -> has (kn_flags kn') KNFL_FILE = false -> plain d' kn').
  { intros d' Hd'. rewrite Hd in Hd'. by apply dir_filter_inj in Hd' as <-. }
  pose proof Hs' as [Hf Hi' Ek' _ _]. split_and!; [done| |].
  - intros Hneg. specialize (Hrv Hneg). split; [|intros k Hk; left; congruence]. split; [done|].
    eapply shared_frame; [exact Hf|by apply shared_weaken|exact Ek'| |exact Hev']. intros q' (_ & Hfd & _). done.
  - intros w2 Hl. eapply rw_linked; [exact Hi'| |exact Ek'|done|done|exact Hl].
    eapply shared_frame; [exact Hf|by apply shared_weaken|exact Ek'| |exact Hev'].
    intros q' (_ & Hfd & _). split; [done|by apply Hnf].
Qed.

(** [kn_create], from the answer of [linux_get_descriptor_type] on. *)
Lemma create_typed w q p d kn kn1 w1 rv :
  linux_inv w -> rwst w q p d kn w -> kn_fds kn = None -> rwst w q p d kn1 w1 -> more_flags kn kn1 -> rv = -1 ->
  frame_ p w w1 /\ (rv < 0 -> linux_inv w1 /\ forall k, w_knotes w1 !! p = Some k -> unshared k) /\
  forall w2, linking q (dir_slot d) p w1 w2 -> linux_inv w2.
Proof.
  intros HI Hs Hn Hs1 (M1 & M2 & M3 & M5 & M4) ->. eapply create_end; [exact HI|exact Hs|apply Hs1|..].
  - rewrite M2, Hn. done.
  - intros Hff. unfold plain. rewrite M3, M5. eapply (so_events _ _ (li_shared _ HI) p kn); [apply Hs|apply Hs|by apply M4].
  - intros _. congruence.
Qed.

Lemma create_file w q i p d kn kn1 w1 :
  linux_inv w -> rwst w q p d kn w -> rwst w q p d kn1 w1 -> kn_fds kn1 = None -> has (kn_flags kn1) KNFL_FILE = true ->
  wp (file_eventfd_create (q, i) p (efd_set d)) (fun rv w' => frame_ p w w' /\
    (rv < 0 -> linux_inv w' /\ forall k, w_knotes w' !! p = Some k -> unshared k) /\
    forall w2, linking q (dir_slot d) p w' w2 -> linux_inv w2) w1.
Proof.
  intros HI Hs Hs1 Hn Hff. eapply wp_mono; [|eapply file_create_ok, Hs1].
  intros rv w' (kn' & Hs' & (F1 & F2 & F3)). eapply create_end; [exact HI|exact Hs|exact Hs'|..].
  - rewrite F2, Hn. done.
  - rewrite F3, Hff. done.
  - congruence.
Qed.

Lemma create_shared w q i p d kn kn1 w1 ev :
  linux_inv w -> rwst w q p d kn w -> rwst w q p d kn1 w1 -> kn_fds kn1 = None -> has (kn_flags kn1) KNFL_FILE = false ->
  EV_EPOLLINOUT ev = dir_ev d -> ev = epoll_events kn1 -> kn_udata kn1 = None ->
  wp (epoll_update EPOLL_CTL_ADD (q, i) p ev false) (fun rv w' => frame_ p w w' /\
    (rv < 0 -> linux_inv w' /\ forall k, w_knotes w' !! p = Some k -> unshared k) /\
    forall w2, linking q (dir_slot d) p w' w2 -> linux_inv w2) w1.
Proof.
  intros HI Hs Hs1 Hn Hff Hev -> Hun. eapply wp_mono; [|eapply update_add; [exact Hs1|by right]].
  intros rv w' (_ & fds & Hp & Hneg). eapply create_end; [exact HI|exact Hs|apply Hp|done| |].
  { intros _. split; [by right|done]. }
  simpl. intros Hlt. destruct (Hneg Hlt) as [->| ->]; done.
Qed.

(** A knote that turns out not to be a file's has no udata yet. *)
Lemma fresh_udata w q p d kn kn1 :
  linux_inv w -> rwst w q p d kn w -> more_flags kn kn1 ->
  has (kn_flags kn1) KNFL_FILE = false -> kn_udata kn1 = None.
Proof.
  intros HI Hs (_ & _ & _ & -> & M4) Hff. eapply (so_events _ _ (li_shared _ HI) p kn d); [apply Hs|apply Hs|by apply M4].
Qed.

Lemma read_create_ok w q p :
  winv w -> linux_inv w -> cb_pre w q 0 p -> kn_fds <$> w_knotes w !! p = Some None -> absent w q 0 p ->
  wp (evfilt_read_knote_create (q, 0%nat) p) (fun rv w' => frame_ p w w' /\
    (rv < 0 -> linux_inv w' /\ forall k, w_knotes w' !! p = Some k -> unshared k) /\
    forall w2, linking q 0 p w' w2 -> linux_inv w2) w.
Proof.
  intros Hw HI Hcb Hn Hab. destruct (rw_start_new w q p Rd Hw HI Hcb Hab) as (kn & Hs & Ek).
  rewrite Ek in Hn. simpl in Hn. injection Hn as Hn.
  unfold evfilt_read_knote_create. wp_simpl. eapply wp_mono; [|by eapply descriptor_type_ok].
  intros rv w1 (kn1 & Hs1 & Hm). destruct (rv <? 0); [wp_simpl; by eapply (create_typed w q p Rd)|].
  pose proof (fresh_udata w q p Rd kn kn1 HI Hs Hm) as M5. pose proof Hm as (_ & M2 & _). rw_step. rw_step.
  match goal with Hr : rwst _ _ _ _ ?k _ |- _ => match k with set_epoll_events _ _ => set (kn2 := k) in * end end.
  assert (Hn2 : kn_fds kn2 = None) by (simpl; congruence).
  assert (Hev : EV_EPOLLINOUT (epoll_events kn2) = dir_ev Rd) by (simpl; by destruct (has (flags (kev kn1)) EV_CLEAR)).
  assert (Hgo : forall w2, rwst w q p Rd kn2 w2 ->
    wp (if has (kn_flags kn2) KNFL_FILE then file_eventfd_create (q, 0%nat) p set_kn_read_eventfd
        else epoll_update EPOLL_CTL_ADD (q, 0%nat) p (epoll_events kn2) false) (fun rv w' => frame_ p w w' /\
    (rv < 0 -> linux_inv w' /\ forall k, w_knotes w' !! p = Some k -> unshared k) /\
    forall w2, linking q 0 p w' w2 -> linux_inv w2) w2).
  { intros w2 Hs2. destruct (has (kn_flags kn2) KNFL_FILE) eqn:Hff.
    - exact (create_file w q 0 p Rd kn kn2 w2 HI Hs Hs2 Hn2 Hff).
    - exact (create_shared w q 0 p Rd kn kn2 w2 _ HI Hs Hs2 Hn2 Hff Hev eq_refl (M5 Hff)). }
  wp_simpl. destruct (_ && _); wp_simpl; [eapply rw_sys; [eassumption|]; intros r w3 Hs3; wp_simpl|]; by apply Hgo.
Qed.

Lemma write_create_ok w q p :
  winv w -> linux_inv w -> cb_pre w q 1 p -> kn_fds <$> w_knotes w !! p = Some None -> absent w q 1 p ->
  wp (evfilt_write_knote_create (q, 1%nat) p) (fun rv w' => frame_ p w w' /\
    (rv < 0 -> linux_inv w' /\ forall k, w_knotes w' !! p = Some k -> unshared k) /\
    forall w2, linking q 1 p w' w2 -> linux_inv w2) w.
Proof.
  intros Hw HI Hcb Hn Hab. destruct (rw_start_new w q p Wr Hw HI Hcb Hab) as (kn & Hs & Ek).
  rewrite Ek in Hn. simpl in Hn. injection Hn as Hn.
  unfold evfilt_write_knote_create. wp_simpl. eapply wp_mono; [|by eapply descriptor_type_ok].
  intros rv w1 (kn1 & Hs1 & Hm). destruct (rv <? 0); [wp_simpl; by eapply (create_typed w q p Wr)|].
  pose proof (fresh_udata w q p Wr kn kn1 HI Hs Hm) as M5. pose proof Hm as (_ & M2 & _).
  rw_step. destruct (has (kn_flags kn1) KNFL_FILE) eqn:Hff; rw_step; wp_simpl.
  - eapply (create_file w q 1 p Wr); [exact HI|exact Hs|eassumption|simpl; congruence|exact Hff].
  - eapply (create_shared w q 1 p Wr); [exact HI|exact Hs|eassumption|simpl; congruence|exact Hff| |done|by apply M5].
    by destruct (has (flags (kev kn1)) EV_CLEAR).
Qed.

(** A knote with an fd_state is not a file's. *)
Lemma rw_not_file o w q p d kn :
  rwst w q p d kn w -> shared_ok o w -> kn_fds kn <> None -> has (kn_flags kn) KNFL_FILE = false.
Proof.
  intros Hs Hsh Hf. destruct (rw_kqueue _ _ _ _ _ _ Hs) as (kq & E & _ & Ek & _ & _).
  apply (so_file _ _ Hsh p kn q). split_and!; [done|done|apply Hs|by exists kq].
Qed.

Lemma keep_end w q p d kn kn' w' :
  linux_inv w -> listed w q (dir_slot d) p -> rwst w q p d kn w -> cbst w q p kn' w' ->
  has (kn_flags kn') KNFL_FILE = has (kn_flags kn) KNFL_FILE -> epoll_events kn' = epoll_events kn ->
  (kn_fds kn' <> None -> has (kn_flags kn) KNFL_FILE = false) ->
  (has (kn_flags kn) KNFL_FILE = false -> kn_udata kn' = kn_udata kn) ->
  frame_ p w w' /\ linux_inv w'.
Proof.
  intros HI Hls Hs [Hf Hi' Ek' _ _] H1 H2 H3 H4. split; [done|].
  eapply (rw_end w w' q p d kn kn'); try done; apply Hs.
Qed.

Lemma keep_file w q p d kn kn' w' :
  linux_inv w -> listed w q (dir_slot d) p -> rwst w q p d kn w -> cbst w q p kn' w' ->
  kn_fds kn' = kn_fds kn -> kn_flags kn' = kn_flags kn -> epoll_events kn' = epoll_events kn ->
  (has (kn_flags kn) KNFL_FILE = false -> kn_udata kn' = kn_udata kn) ->
  frame_ p w w' /\ linux_inv w'.
Proof.
  intros HI Hls Hs Hs' F1 F2 F3 F4. apply (keep_end w q p d kn kn'); try done; [congruence|].
  rewrite F1. eapply rw_not_file; [exact Hs|apply HI].
Qed.

Lemma rw_enable_ok w q p d i :
  i = dir_slot d -> winv w -> linux_inv w -> cb_pre w q i p -> listed w q i p ->
  wp (let! kn := get_kn p in
      if has (kn_flags kn) KNFL_FILE then file_eventfd_enable p (efd_get d)
      else epoll_update EPOLL_CTL_ADD (q, i) p (epoll_events kn) false)
     (fun _ w' => frame_ p w w' /\ linux_inv w') w.
Proof.
  intros -> Hw HI Hcb Hls. destruct (rw_start w q p d Hw HI Hcb Hls) as (kn & Hs & Ek). rw_step.
  destruct (has (kn_flags kn) KNFL_FILE) eqn:Hff.
  - eapply wp_mono; [|eapply file_enable_ok, Hs]. intros rv w' (kn' & Hs' & (F1 & F2 & F3) & F4).
    by eapply keep_file; [..|rewrite Hff].
  - eapply wp_mono; [|eapply update_add; [exact Hs|eapply (so_events _ _ (li_shared _ HI) p kn d); [done|apply Hs|done]]].
    intros rv w' (_ & fds & Hp & _). eapply keep_end; [exact HI|exact Hls|exact Hs|apply Hp|done..].
Qed.

Lemma rw_disable_ok w q p d i :
  i = dir_slot d -> winv w -> linux_inv w -> cb_pre w q i p -> listed w q i p ->
  wp (let! kn := get_kn p in
      if has (kn_flags kn) KNFL_FILE then file_eventfd_disable p (efd_get d)
      else epoll_update EPOLL_CTL_DEL (q, i) p (dir_ev d) false)
     (fun _ w' => frame_ p w w' /\ linux_inv w' /\ kev <$> w_knotes w' !! p = kev <$> w_knotes w !! p /\
        keep p w w') w.
Proof.
  intros -> Hw HI Hcb Hls. destruct (rw_start w q p d Hw HI Hcb Hls) as (kn & Hs & Ek). rw_step. rewrite Ek.
  destruct (has (kn_flags kn) KNFL_FILE) eqn:Hff.
  - eapply wp_mono; [|eapply file_disable_ok, Hs]. intros rv w' (kn' & Hs' & (F1 & F2 & F3) & F4).
    destruct (keep_file w q p d kn kn' w' HI Hls Hs Hs' F2 F3 F4) as [? ?]; [by rewrite Hff|]. rewrite (cs_kn _ _ _ _ _ Hs'). simpl. rewrite F1. split_and!; try done. apply Hs'.
  - eapply wp_mono; [|by eapply update_del]. intros rv w' (_ & fds & Hp & _).
    destruct (keep_end w q p d kn (set_kn_fds fds kn) w' HI Hls Hs (rs_cb _ _ _ _ _ _ Hp) eq_refl eq_refl ltac:(done) ltac:(done)).
    rewrite (cs_kn _ _ _ _ _ (rs_cb _ _ _ _ _ _ Hp)). split_and!; try done. apply Hp.
Qed.

Lemma rw_delete_ok w0 w q p d i (opt : Z) :
  i = dir_slot d -> winv w0 -> linux_inv w0 -> unlinking q i p w0 w -> cb_pre w q i p ->
  wp (let! kn := get_kn p in
      restore_lowat opt kn ;;;
      if has (kn_flags kn) KNFL_FILE && negb (efd_get d kn =? -1)
      then file_eventfd_delete (q, i) p (efd_get d) (efd_set d)
      else epoll_update EPOLL_CTL_DEL (q, i) p (dir_ev d) true)
     (fun rv w' => rv <> 1 /\ frame_ p w w' /\ linux_inv w' /\
        (forall kn, w_knotes w' !! p = Some kn -> unshared kn) /\ keep p w w') w.
Proof.
  intros -> Hw HI Hun Hcb. destruct (rw_start_del w0 w q p d Hw HI Hun Hcb) as (kn & Hs & Ek & Hsh). rw_step.
  assert (Hend : forall kn' w', cbst w q p kn' w' -> kn_fds kn' = None ->
    has (kn_flags kn') KNFL_FILE = has (kn_flags kn) KNFL_FILE -> epoll_events kn' = epoll_events kn ->
    (has (kn_flags kn) KNFL_FILE = false -> kn_udata kn' = kn_udata kn) ->
    frame_ p w w' /\ linux_inv w' /\ (forall k, w_knotes w' !! p = Some k -> unshared k) /\ keep p w w').
  { intros kn' w' Hs' Hn F1 F2 F3. pose proof Hs' as [Hf Hi' Ek' _ Hke]. destruct (rw_frame_kn _ _ _ _ _ _ _ Hs Hs') as [_ Hd].
    split_and!; [done| |intros k Hk; left; congruence|done]. split; [done|].
    eapply shared_frame; [exact Hf|exact Hsh|exact Ek'|by intros q' (_ & Hfd & _)|].
    intros d' Hd' Hff. rewrite F1 in Hff. unfold plain. rewrite F2, (F3 Hff).
    apply (so_events _ _ Hsh p kn d' Ek); [|congruence].
    rewrite Hd in Hd'. apply dir_filter_inj in Hd' as <-. apply Hs. }
  assert (Hgo : forall w1, rwst w q p d kn w1 ->
    wp (if has (kn_flags kn) KNFL_FILE && negb (efd_get d kn =? -1)
        then file_eventfd_delete (q, dir_slot d) p (efd_get d) (efd_set d)
        else epoll_update EPOLL_CTL_DEL (q, dir_slot d) p (dir_ev d) true)
     (fun rv w' => rv <> 1 /\ frame_ p w w' /\ linux_inv w' /\
        (forall kn, w_knotes w' !! p = Some kn -> unshared kn) /\ keep p w w') w1).
  { intros w1 Hs1. destruct (has (kn_flags kn) KNFL_FILE && _) eqn:Hff.
    - apply andb_true_iff in Hff as [Hff _]. eapply wp_mono; [|eapply file_delete_ok, Hs1].
      intros rv w' (Hrv & kn' & Hs' & (F1 & F2 & F3) & F4). split; [done|]. apply (Hend kn'); try done; [|by rewrite F3|by rewrite Hff].
      rewrite F2. destruct (kn_fds kn) eqn:Hk; [|done].
      rewrite (rw_not_file (Some p) w q p d kn Hs Hsh) in Hff; [done|congruence].
    - eapply wp_mono; [|by eapply update_del]. intros rv w' (-> & fds & Hp & Hn). rewrite (Hn eq_refl) in Hp.
      split; [done|]. by apply (Hend (set_kn_fds None kn)); [apply Hp|..]. }
  unfold restore_lowat. wp_simpl. destruct (_ && has (kn_flags kn) KNFL_SOCKET); wp_simpl; [|by apply Hgo].
  eapply rw_sys; [exact Hs|]. intros r w1 Hs1. wp_simpl. by apply Hgo.
Qed.

(** [kn_modify] of both filters ends with new [fflags] and [data], or fails. *)
Lemma read_modify_ok w0 q p kn w k :
  cbst w0 q p kn w -> wp (evfilt_read_knote_modify (q, 0%nat) p k) (fun _ w' => exists kn', cbst w0 q p kn' w' /\
    kn_fds kn' = kn_fds kn /\ kn_flags kn' = kn_flags kn /\ epoll_events kn' = epoll_events kn /\
    kn_udata kn' = kn_udata kn) w.
Proof. intros Hs. unfold evfilt_read_knote_modify. cb_go; eexists; split_and!; eauto; done. Qed.
Lemma write_modify_ok w0 q p kn w k :
  cbst w0 q p kn w -> wp (evfilt_write_knote_modify (q, 1%nat) p k) (fun _ w' => exists kn', cbst w0 q p kn' w' /\
    kn_fds kn' = kn_fds kn /\ kn_flags kn' = kn_flags kn /\ epoll_events kn' = epoll_events kn /\
    kn_udata kn' = kn_udata kn) w.
Proof. intros Hs. unfold evfilt_write_knote_modify. cb_go; eexists; split_and!; eauto; done. Qed.

Context `{FilterList K}.

#[export] Instance read_contract : FilterContract linux_inv 0 (fs_ops evfilt_read).
Proof.
  split; try discriminate.
  - intros. by apply read_create_ok.
  - intros w q p k Hw HI Hcb Hls _. destruct (rw_start w q p Rd Hw HI Hcb Hls) as (kn & Hs & Ek).
    eapply wp_mono; [|eapply read_modify_ok, Hs]. intros rv w' (kn' & Hs' & F1 & F2 & F3 & F4). by eapply (keep_file w q p Rd).
  - intros w0 w q p Hw _ HI Hun Hcb. eapply wp_mono; [|by eapply (rw_delete_ok w0 w q p Rd)]. naive_solver.
  - intros. by apply (rw_enable_ok w q p Rd).
  - intros w q p Hw HI Hcb Hls. eapply wp_mono; [|by apply (rw_disable_ok w q p Rd)]. naive_solver.
Qed.

#[export] Instance write_contract : FilterContract linux_inv 1 (fs_ops evfilt_write).
Proof.
  split; try discriminate.
  - intros. by apply write_create_ok.
  - intros w q p k Hw HI Hcb Hls _. destruct (rw_start w q p Wr Hw HI Hcb Hls) as (kn & Hs & Ek).
    eapply wp_mono; [|eapply write_modify_ok, Hs]. intros rv w' (kn' & Hs' & F1 & F2 & F3 & F4). by eapply (keep_file w q p Wr).
  - intros w0 w q p Hw _ HI Hun Hcb. eapply wp_mono; [|by eapply (rw_delete_ok w0 w q p Wr)]. naive_solver.
  - intros. by apply (rw_enable_ok w q p Wr).
  - intros w q p Hw HI Hcb Hls. eapply wp_mono; [|by apply (rw_disable_ok w q p Wr)]. naive_solver.
Qed.
End Callbacks.
