(* ===== verification/LinuxVnode.v ===== *)
(** * EVFILT_VNODE on Linux: src/linux/vnode.c

    An inotify descriptor per enabled knote.  Delivery drains it, merges the
    masks of the events and translates them to NOTE_* bits with the help of the
    link count and size seen last.  The loops that read until [EAGAIN] have
    fuel. *)

From Stdlib Require Import ZArith Lia Bool.
From stdpp Require Import base list gmap.
From S2P Require Import Prelude RBTree Event Map State Ops Knote LinuxUdata LinuxEpoll LinuxShared LinuxRules LinuxTimer.

Definition IN_MODIFY : Z := 0x2.
Definition IN_ATTRIB : Z := 0x4.
Definition IN_CLOSE_WRITE : Z := 0x8.
Definition IN_CLOSE_NOWRITE : Z := 0x10.
Definition IN_CLOSE : Z := Z.lor IN_CLOSE_WRITE IN_CLOSE_NOWRITE.
Definition IN_MOVED_FROM : Z := 0x40.
Definition IN_MOVED_TO : Z := 0x80.
Definition IN_CREATE : Z := 0x100.
Definition IN_DELETE : Z := 0x200.
Definition IN_DELETE_SELF : Z := 0x400.
Definition IN_MOVE_SELF : Z := 0x800.
Definition IN_IGNORED : Z := 0x8000.
Definition IN_ONESHOT : Z := 0x80000000.
Definition IN_CLOEXEC : Z := 0x80000.
Definition IN_NONBLOCK : Z := 0x800.

(** The masks of a directory's children. *)
Definition IN_CHILD : Z := Z.lor IN_CREATE (Z.lor IN_DELETE (Z.lor IN_MOVED_FROM IN_MOVED_TO)).

(** [if (x & bit) mask |= m] *)
Definition or_if (x bit m mask : Z) : Z := if has x bit then Z.lor mask m else mask.

(** The mask [add_watch] computes from the [fflags] and [flags] of the knote. *)
Definition watch_mask (ff fl : Z) : Z :=
  or_if fl EV_ONESHOT IN_ONESHOT
  (or_if ff NOTE_RENAME IN_MOVE_SELF
  (or_if ff NOTE_LINK (Z.lor IN_ATTRIB (Z.lor IN_CREATE IN_DELETE))
  (or_if ff NOTE_ATTRIB IN_ATTRIB
  (or_if ff NOTE_TRUNCATE (Z.lor IN_MODIFY IN_ATTRIB)
  (or_if ff NOTE_EXTEND (Z.lor IN_MODIFY IN_ATTRIB)
  (or_if ff NOTE_WRITE (Z.lor (Z.lor IN_MODIFY IN_ATTRIB) IN_CHILD)
  (or_if ff NOTE_DELETE (Z.lor IN_ATTRIB IN_DELETE_SELF) IN_CLOSE))))))).

(** The mask [evfilt_vnode_knote_modify] computes: NOTE_TRUNCATE has no case. *)
Definition modify_mask (ff fl : Z) : Z :=
  or_if fl EV_ONESHOT IN_ONESHOT
  (or_if ff NOTE_RENAME IN_MOVE_SELF
  (or_if ff NOTE_LINK (Z.lor IN_ATTRIB (Z.lor IN_CREATE IN_DELETE))
  (or_if ff NOTE_ATTRIB IN_ATTRIB
  (or_if ff NOTE_EXTEND (Z.lor IN_MODIFY IN_ATTRIB)
  (or_if ff NOTE_WRITE (Z.lor (Z.lor IN_MODIFY IN_ATTRIB) IN_CHILD)
  (or_if ff NOTE_DELETE (Z.lor IN_ATTRIB IN_DELETE_SELF) IN_CLOSE)))))).

(** The bits the comparison with the last seen [st_nlink] and [st_size] gives. *)
Definition stat_fflags (ff : Z) (nlink size : Z) (sb : stat) : Z :=
  let a := if (st_nlink sb =? 0) && has ff NOTE_DELETE then NOTE_DELETE else 0 in
  let b := if negb (st_nlink sb =? nlink) && has ff NOTE_LINK then NOTE_LINK else 0 in
  let c := if (st_size sb <? size) && has ff NOTE_TRUNCATE then NOTE_TRUNCATE else 0 in
  let d := if (size <? st_size sb) && has ff (Z.lor NOTE_EXTEND NOTE_WRITE) then NOTE_EXTEND else 0 in
  Z.lor (Z.lor a b) (Z.lor c d).

(** The bits that follow from the mask alone. *)
Definition mask_fflags (ff mask : Z) : Z :=
  let a := if has mask (Z.lor IN_MODIFY IN_CHILD) && has ff NOTE_WRITE then NOTE_WRITE else 0 in
  let b := if has mask IN_ATTRIB && has ff NOTE_ATTRIB then NOTE_ATTRIB else 0 in
  let c := if has mask IN_MOVE_SELF && has ff NOTE_RENAME then NOTE_RENAME else 0 in
  let d := if has mask IN_DELETE_SELF && has ff NOTE_DELETE then NOTE_DELETE else 0 in
  Z.lor (Z.lor a b) (Z.lor c d).

Definition sizeof_inotify_event : Z := 16.
Definition vnode_buf_size : Z := sizeof_inotify_event + 255 + 1.

Section Vnode.
Context {K : Type} `{OS K} `{FilterList K}.
Implicit Types (w : world K) (p q : ptr) (f : filt_ref).

(** The result and the mask read. *)
Definition get_one_event (fuel : nat) (len inofd : Z) : M (world K) (Z * Z) :=
  loop fuel (fun want =>
    if len <? want then ret (inr (-1, 0))
    else
      let! r := sys (SysInotifyRead inofd want) in
      match r with
      | Some mask => ret (inr (1, mask))
      | None =>
          let! e := errno in
          ret (if e =? EINVAL then inl (want + sizeof_inotify_event)
               else if e =? EINTR then inl want
               else if e =? EAGAIN then inr (0, 0) else inr (-1, 0))
      end) sizeof_inotify_event.

(** The label [errout] of [add_watch]. *)
Definition add_watch_error (ifd : Z) p : M (world K) Z :=
  let! kn := get_kn p in
  sys (SysInotifyRm ifd (s32 (data (kev kn)))) ;;;
  upd_kn p (set_kn_inotifyfd (-1)) ;;;
  sys (SysClose ifd) ;;;
  KN_UDATA_FREE p ;;; ret (-1).

Definition add_watch f p : M (world K) Z :=
  let! kn := get_kn p in
  let! path := sys (SysFdPath (s32 (ident (kev kn)))) in
  match path with
  | None => ret (-1)
  | Some path =>
      let mask := watch_mask (fflags (kev kn)) (flags (kev kn)) in
      let! ifd := sys (SysInotifyInit (Z.lor IN_CLOEXEC IN_NONBLOCK)) in
      match ifd with
      | None => ret (-1)
      | Some ifd =>
          let! wd := sys (SysInotifyAdd ifd path mask) in
          upd_kn p (fun kn => set_kev (set_data (default (-1) wd) (kev kn)) kn) ;;;
          if default (-1) wd <? 0 then add_watch_error ifd p
          else
            KN_UDATA_ALLOC p ;;;
            let! epfd := filter_epoll_fd f in
            let! ev := EPOLL_EV_KN EPOLLIN p in
            let! ok := epoll_ctl epfd EPOLL_CTL_ADD ifd ev in
            if ok then upd_kn p (set_kn_inotifyfd ifd) ;;; ret 0 else add_watch_error ifd p
      end
  end.

Definition delete_watch f p : M (world K) Z :=
  let! kn := get_kn p in
  if kn_inotifyfd kn <? 0 then ret 0
  else
    let! epfd := filter_epoll_fd f in
    let! ok := epoll_ctl epfd EPOLL_CTL_DEL (kn_inotifyfd kn) None in
    if ok then
      KN_UDATA_DEFER_FREE f.1 p ;;;
      sys (SysClose (kn_inotifyfd kn)) ;;;
      upd_kn p (set_kn_inotifyfd (-1)) ;;; ret 0
    else ret (-1).

(** The drain loop: the merged mask, or None where the function returns -1. *)
Definition vnode_drain (fuel : nat) (inofd : Z) : M (world K) (option Z) :=
  loop fuel (fun merged =>
    let! r := get_one_event fuel vnode_buf_size inofd in
    if r.1 <? 0 then ret (inr None)
    else if r.1 =? 0 then ret (inr (Some merged))
    else if has r.2 IN_IGNORED then ret (inl merged)
    else ret (inl (Z.lor merged (clrb r.2 (Z.lor IN_CLOSE_WRITE IN_CLOSE_NOWRITE))))) 0.

(** The NOTE_* bits and the knote's new baseline.  When [fstat] fails with an
    errno other than ENOENT, the structure it should have filled is read. *)
Definition vnode_stat p (kn : knote) (merged : Z) : M (world K) Z :=
  let! sb := sys (SysFstat (s32 (ident (kev kn)))) in
  let! e := errno in
  match sb with
  | None =>
      if e =? ENOENT then ret (if has (fflags (kev kn)) NOTE_DELETE then NOTE_DELETE else 0)
      else if has merged (Z.lor IN_ATTRIB (Z.lor IN_MODIFY (Z.lor IN_CREATE IN_DELETE)))
      then fail Uninitialised else ret 0
  | Some sb =>
      if has merged (Z.lor IN_ATTRIB (Z.lor IN_MODIFY (Z.lor IN_CREATE IN_DELETE))) then
        upd_kn p (fun kn => set_kn_size (st_size sb) (set_kn_nlink (st_nlink sb) kn)) ;;;
        ret (stat_fflags (fflags (kev kn)) (kn_nlink kn) (kn_size kn) sb)
      else ret 0
  end.

Definition evfilt_vnode_copyout (fuel : nat) (dst nevents : Z) f (src : option ptr)
    (ev : raw_event) : M (world K) Z :=
  let! p := deref NullDeref src in
  let! kn := get_kn p in
  let! merged := vnode_drain fuel (kn_inotifyfd kn) in
  match merged with
  | None => ret (-1)
  | Some merged =>
      if merged =? 0 then ret 0
      else
        store dst (set_fflags 0 (set_data 0 (kev kn))) ;;;
        let! s := vnode_stat p kn merged in
        let ff := Z.lor s (mask_fflags (fflags (kev kn)) merged) in
        upd_mem dst (set_fflags ff) ;;;
        if ff =? 0 then ret 0
        else
          let! rv := knote_copyout_flag_actions f p in
          ret (if rv <? 0 then -1 else 1)
  end.

Definition evfilt_vnode_knote_create f p : M (world K) Z :=
  let! kn := get_kn p in
  let! sb := sys (SysFstat (s32 (ident (kev kn)))) in
  match sb with
  | None => ret (-1)
  | Some sb =>
      upd_kn p (fun kn => set_kev (set_data (-1) (kev kn))
        (set_kn_size (st_size sb) (set_kn_nlink (st_nlink sb) kn))) ;;;
      add_watch f p
  end.

Definition evfilt_vnode_knote_modify f p (k : kevent) : M (world K) Z :=
  let! kn := get_kn p in
  if kn_inotifyfd kn <? 0 then
    upd_kn p (fun kn => set_kev (set_fflags (fflags k) (kev kn)) kn) ;;; ret 0
  else
    let! path := sys (SysFdPath (s32 (ident (kev kn)))) in
    match path with
    | None => ret (-1)
    | Some path =>
        let! wd := sys (SysInotifyAdd (kn_inotifyfd kn) path (modify_mask (fflags k) (flags (kev kn)))) in
        match wd with
        | None => ret (-1)
        | Some wd =>
            if wd <? 0 then ret (-1)
            else upd_kn p (fun kn => set_kev (set_data wd (set_fflags (fflags k) (kev kn))) kn) ;;; ret 0
        end
    end.

Definition evfilt_vnode_knote_delete f p : M (world K) Z := delete_watch f p.
Definition evfilt_vnode_knote_enable f p : M (world K) Z := add_watch f p.
Definition evfilt_vnode_knote_disable f p : M (world K) Z := delete_watch f p.

Definition evfilt_vnode (fuel : nat) : filter_src K :=
  FilterSrc EVFILT_VNODE (FilterOps None None (evfilt_vnode_copyout fuel) evfilt_vnode_knote_create
    evfilt_vnode_knote_modify evfilt_vnode_knote_delete evfilt_vnode_knote_enable
    evfilt_vnode_knote_disable).

(** ** The contract *)

Lemma add_watch_ok w0 q i p kn w :
  cbst w0 q p kn w -> wp (add_watch (q, i) p) (fun _ w' => exists kn', cbst w0 q p kn' w') w.
Proof. intros Hs. unfold add_watch, add_watch_error. cb_go; eauto. Qed.

Lemma delete_watch_ok w0 q i p kn w :
  cbst w0 q p kn w -> wp (delete_watch (q, i) p)
    (fun rv w' => rv <> 1 /\ exists kn', cbst w0 q p kn' w' /\ kev kn' = kev kn) w.
Proof. intros Hs. unfold delete_watch. cb_go; eauto. Qed.

#[export] Instance vnode_contract fuel : FilterContract linux_inv 3 (fs_ops (evfilt_vnode fuel)).
Proof.
  apply own_contract; simpl; try done; [lia|..]; intros.
  - unfold evfilt_vnode_knote_create. cb_step. cb_step. cb_step; [|wp_simpl; eauto]. cb_step.
    by eapply add_watch_ok.
  - unfold evfilt_vnode_knote_modify. cb_go; eauto.
  - eapply wp_mono; [|by eapply delete_watch_ok]. naive_solver.
  - by eapply add_watch_ok.
  - eapply wp_mono; [|by eapply delete_watch_ok]. naive_solver.
Qed.
End Vnode.
