(* ===== verification/LinuxKevent.v ===== *)
(** * Waiting and delivery on Linux: src/linux/platform.c

    [kevent_wait] fills the running thread's buffer [w_evbuf] from the kernel;
    [kevent_copyout] walks it, skips stale udatas and hands each event to the
    [kf_copyout] of its filter.  Also the eventfd operations of the vtable.
    [ndebug] tells whether [assert] is compiled out where the code goes on after
    a failed one. *)

From Stdlib Require Import ZArith Lia Bool.
From stdpp Require Import base list gmap.
From S2P Require Import Prelude RBTree Event Map State Ops Knote LinuxUdata LinuxEpoll LinuxUser.

(** The milliseconds [epoll_wait] is given: the arithmetic is in [long], the
    result is stored in an [int]. *)
Definition wait_timeout {K : Type} (ts : timespec) : M (world K) Z :=
  let v := 1000 * tv_sec ts + Z.quot (tv_nsec ts) 1000000 in
  if bool_decide (s64 (1000 * tv_sec ts) = 1000 * tv_sec ts) && bool_decide (s64 v = v)
  then ret (s32 v) else fail SignedOverflow.

Section Kevent.
Context {K : Type} `{OS K} `{FilterList K} (ndebug : bool) (fuel : nat).
Implicit Types (w : world K) (p q : ptr) (f : filt_ref).

(** [ppoll]: the number of ready descriptors, -1 on failure. *)
Definition linux_kevent_wait_hires q (timeout : timespec) : M (world K) Z :=
  let! kq := get_kq q in
  let! r := sys (SysPpoll (epollfd kq) timeout) in
  ret (match r with Some n => n | None => -1 end).

(** [epoll_wait] into the thread's buffer. *)
Definition do_epoll_wait (epfd nevents timeout : Z) : M (world K) Z :=
  let! r := sys (SysEpollWait epfd nevents timeout) in
  match r with
  | None => ret (-1)
  | Some evs => modify (set_w_evbuf evs) ;;; ret (Z.of_nat (length evs))
  end.

Definition linux_kevent_wait q (nevents : Z) (ts : option timespec) : M (world K) Z :=
  let! kq := get_kq q in
  match ts with
  | None => do_epoll_wait (epollfd kq) nevents (-1)
  | Some ts =>
      if negb (Z.rem (tv_nsec ts) 1000000 =? 0) then
        let! nret := linux_kevent_wait_hires q ts in
        if nret <=? 0 then ret nret else do_epoll_wait (epollfd kq) nevents 0
      else
        let! timeout := wait_timeout ts in
        do_epoll_wait (epollfd kq) nevents timeout
  end.

Definition linux_kevent_copyout_ev (el nevents : Z) (ev : epoll_event) f (kn : option ptr)
    : M (world K) Z :=
  let! o := filt_ops f in
  let! rv := kf_copyout o el nevents f kn (EvEpoll ev) in
  if rv <? 0 then (if ndebug then ret rv else fail AssertFail)
  else
    let! k := load el in
    ret (if filter_ k =? 0 then 0 else rv).

(** Read until the pipe is empty or fails. *)
Definition drain_pipe (fd n : Z) : M (world K) unit :=
  loop fuel (fun _ : unit =>
    let! r := sys (SysRead fd n) in
    ret (match r with Some n => if 0 <? n then inl tt else inr tt | None => inr tt end)) tt.

(** Delivery to the knote [kn], if there is one and the event is for it: the new
    [el_p], or None at [done] (no room, or a failed copyout). *)
Definition copyout_knote (el_p el_end : Z) (ev : epoll_event) (kn : option ptr) (mask : Z)
    : M (world K) (option Z) :=
  match kn with
  | None => ret (Some el_p)
  | Some p =>
      if has (ev_events ev) mask then
        if el_end <=? el_p then ret None
        else
          let! f := knote_get_filter p in
          let! rv := linux_kevent_copyout_ev el_p (el_end - el_p) ev f (Some p) in
          ret (if rv <? 0 then None else Some (el_p + rv))
      else ret (Some el_p)
  end.

(** One event: go on with a new [el_p], leave at [done] with it, or return -1. *)
Inductive copyout_step := CoNext (el_p : Z) | CoDone (el_p : Z) | CoFail.

Definition step_of (el_p : Z) (r : option Z) : copyout_step :=
  match r with Some e => CoNext e | None => CoDone el_p end.

Definition copyout_event (el_p el_end : Z) (ev : epoll_event) (d : epoll_udata)
    : M (world K) copyout_step :=
  match ud_type d, ud_back d with
  | EPOLL_UDATA_KNOTE, ud_kn p =>
      if el_end <=? el_p then ret (CoDone el_p)
      else
        let! f := knote_get_filter p in
        let! rv := linux_kevent_copyout_ev el_p (el_end - el_p) ev f (Some p) in
        ret (if rv <? 0 then CoDone el_p else CoNext (el_p + rv))
  | EPOLL_UDATA_FD_STATE, ud_fds s =>
      let! fds := get_fds s in
      let write := fds_write fds in
      let! r := copyout_knote el_p el_end ev (fds_read fds)
        (Z.lor EPOLLIN (Z.lor EPOLLHUP (Z.lor EPOLLRDHUP EPOLLERR))) in
      match r with
      | None => ret (CoDone el_p)
      | Some el_p =>
          let! r := copyout_knote el_p el_end ev write (Z.lor EPOLLOUT (Z.lor EPOLLHUP EPOLLERR)) in
          ret (step_of el_p r)
      end
  | EPOLL_UDATA_EVENT_FD, ud_efd q i =>
      let! rv := linux_kevent_copyout_ev el_p (el_end - el_p) ev (q, i) None in
      ret (if rv <? 0 then CoDone el_p else CoNext (el_p + rv))
  | EPOLL_UDATA_KQ_WAKE, ud_kq q =>
      let! kq := get_kq q in
      drain_pipe (pipefd0 kq) 16 ;;;
      set_errno EBADF ;;; ret CoFail
  | _, _ => fail BadAddress
  end.

(** The loop over the events [i], [i+1], ... of the buffer. *)
Fixpoint copyout_loop (n i : nat) (el el_p el_end : Z) : M (world K) Z :=
  match n with
  | O => ret (el_p - el)
  | S n' =>
      let! buf := gets w_evbuf in
      let! ev := deref BadAddress (buf !! i) in
      match ev_ptr ev with
      | None => copyout_loop n' (S i) el el_p el_end
      | Some u =>
          let! d := get_ud u in
          if ud_stale d then copyout_loop n' (S i) el el_p el_end
          else
            let! r := copyout_event el_p el_end ev d in
            match r with
            | CoNext el_p => copyout_loop n' (S i) el el_p el_end
            | CoDone el_p => ret (el_p - el)
            | CoFail => ret (-1)
            end
      end
  end.

Definition linux_kevent_copyout (kq : ptr) (nready el nevents : Z) : M (world K) Z :=
  copyout_loop (Z.to_nat nready) 0 el el (el + nevents).

(** ** Eventfds of a filter *)

Definition linux_eventfd_descriptor f : M (world K) Z := let! x := get_filt f in ret (ef_id x).

Definition linux_eventfd_register q f : M (world K) Z :=
  EVENTFD_UDATA_ALLOC f ;;;
  let! kq := get_kq q in
  let! fd := linux_eventfd_descriptor f in
  let! x := get_filt f in
  let! ok := epoll_ctl (epollfd kq) EPOLL_CTL_ADD fd (Some (EpollEvent EPOLLIN (efd_udata x))) in
  if ok then ret 0 else EVENTFD_UDATA_FREE f ;;; ret (-1).

Definition linux_eventfd_unregister q f : M (world K) unit :=
  let! kq := get_kq q in
  let! fd := linux_eventfd_descriptor f in
  epoll_ctl (epollfd kq) EPOLL_CTL_DEL fd None ;;;
  EVENTFD_UDATA_DEFER_FREE q f.

Definition linux_eventfd_init f : M (world K) Z :=
  let! r := sys (SysEventfd 0 (Z.lor EFD_NONBLOCK EFD_CLOEXEC)) in
  match r with
  | None => ret (-1)
  | Some evfd => upd_filt f (set_ef_id evfd) ;;; ret 0
  end.

Definition linux_eventfd_close f : M (world K) unit :=
  let! x := get_filt f in
  sys (SysClose (ef_id x)) ;;; upd_filt f (set_ef_id (-1)).

Definition linux_eventfd_raise f : M (world K) Z :=
  let! x := get_filt f in eventfd_raise (ef_id x).

Definition linux_eventfd_lower f : M (world K) Z :=
  let! x := get_filt f in
  let! r := sys (SysRead8 (ef_id x)) in
  match r with
  | None =>
      let! e := errno in
      ret (if e =? EAGAIN then 0 else if e =? EINTR then - EINTR else -1)
  | Some (n, _) => ret (if n =? 8 then 0 else -1)
  end.
End Kevent.
