(* ===== verification/LinuxKqueue.v ===== *)
(** * Kqueues and the monitoring thread on Linux: src/linux/platform.c

    A kqueue is an epoll set and a pipe whose write end is the descriptor the
    user gets; closing it raises EPOLLHUP on the read end, which a process-wide
    epoll set reports to the monitoring thread, which frees the kqueue.  A round
    of that thread is one function here; starting and joining it are system
    calls.  [drain_addr] is the address of the static [monitoring_drain_efd]. *)

From Stdlib Require Import ZArith Lia Bool.
From stdpp Require Import base list gmap.
From S2P Require Import Prelude RBTree Event Map State Ops Knote Filter Kqueue LinuxUdata LinuxEpoll LinuxUser LinuxKevent.

Definition drain_addr : ptr := 1%positive.
Definition MONITORING_MAX_EVENTS : Z := 64.

Inductive thread_exit_state :=
  | THREAD_EXIT_STATE_SELF_CANCEL | THREAD_EXIT_STATE_CANCEL_LOCKED
  | THREAD_EXIT_STATE_CANCEL_UNLOCKED.

Section Kqueue.
Context {K : Type} `{OS K} `{FilterList K} (ndebug : bool) (fuel : nat).
Implicit Types (w : world K) (p q : ptr) (f : filt_ref).

Definition linux_kqueue_interrupt q : M (world K) unit :=
  let! kq := get_kq q in
  if pipefd1 kq <? 0 then ret tt else sys (SysWrite (pipefd1 kq) 1) ;;; ret tt.

(** Freeing every udata of the deferred list. *)
Fixpoint free_deferred q (l : list ptr) : M (world K) unit :=
  match l with
  | [] => ret tt
  | u :: l' => upd_kq q (set_ud_deferred_free l') ;;; free_ud u ;;; free_deferred q l'
  end.

Definition linux_kqueue_free q : M (world K) unit :=
  let! kq := get_kq q in
  (if 0 <? epollfd kq then sys (SysClose (epollfd kq)) ;;; upd_kq q (set_epollfd (-1)) else ret tt) ;;;
  let! r := sys (SysRead (pipefd0 kq) 1) in
  let! e := errno in
  (match r with
   | None => if e =? EAGAIN
             then sys (SysClose (pipefd1 kq)) ;;; upd_kq q (set_pipefd1 (-1)) else ret tt
   | Some n => if 0 <? n then drain_pipe fuel (pipefd0 kq) 1 else ret tt
   end) ;;;
  (if 0 <? pipefd0 kq then
     let! epfd := gets w_mon_epfd in
     (if 0 <=? epfd then epoll_ctl epfd EPOLL_CTL_DEL (pipefd0 kq) None ;;; ret tt else ret tt) ;;;
     sys (SysClose (pipefd0 kq)) ;;;
     upd_kq q (set_pipefd0 (-1))
   else ret tt) ;;;
  let! kq := get_kq q in
  assert_ (bool_decide (kq_inflight kq = [])) ;;;
  free_deferred q (ud_deferred_free kq) ;;;
  let! kq := get_kq q in
  match kq_wake_udata kq with
  | Some u => free_ud u ;;; upd_kq q (set_kq_wake_udata None)
  | None => ret tt
  end.

(** The label [error] of [linux_kqueue_init]. *)
Definition kqueue_init_error q : M (world K) Z :=
  let! kq := get_kq q in
  sys (SysClose (epollfd kq)) ;;; upd_kq q (set_epollfd (-1)) ;;;
  sys (SysClose (pipefd0 kq)) ;;; upd_kq q (set_pipefd0 (-1)) ;;;
  sys (SysClose (pipefd1 kq)) ;;; upd_kq q (set_pipefd1 (-1)) ;;;
  ret (-1).

(** The process-wide close-detection epoll, created on first use: false on the
    paths to [error]. *)
Definition monitoring_epoll_init : M (world K) bool :=
  let! epfd := gets w_mon_epfd in
  if 0 <=? epfd then ret true
  else
    let! r := sys SysEpollCreate in
    match r with
    | None => modify (set_w_mon_epfd (-1)) ;;; ret false
    | Some epfd =>
        modify (set_w_mon_epfd epfd) ;;;
        let! r := sys (SysEventfd 0 (Z.lor EFD_CLOEXEC EFD_NONBLOCK)) in
        match r with
        | None =>
            modify (set_w_mon_drain_efd (-1)) ;;;
            sys (SysClose epfd) ;;; modify (set_w_mon_epfd (-1)) ;;; ret false
        | Some efd =>
            modify (set_w_mon_drain_efd efd) ;;;
            let! ok := epoll_ctl epfd EPOLL_CTL_ADD efd (Some (EpollEvent EPOLLIN (Some drain_addr))) in
            if ok then ret true
            else
              sys (SysClose efd) ;;; modify (set_w_mon_drain_efd (-1)) ;;;
              sys (SysClose epfd) ;;; modify (set_w_mon_epfd (-1)) ;;; ret false
        end
    end.

(** [pthread_create] and the wait for the thread to publish its id. *)
Definition linux_kqueue_start_thread : M (world K) Z :=
  let! r := sys SysPthreadCreate in
  match r with
  | None => ret (-1)
  | Some tid => modify (set_w_mon_tid tid) ;;; ret 0
  end.

(** The registration for close detection and the start of the thread. *)
Definition kqueue_init_monitor q : M (world K) Z :=
  let! ok := monitoring_epoll_init in
  if negb ok then kqueue_init_error q
  else
    let! epfd := gets w_mon_epfd in
    let! kq := get_kq q in
    let! ok := epoll_ctl epfd EPOLL_CTL_ADD (pipefd0 kq)
      (Some (EpollEvent (Z.lor EPOLLHUP EPOLLONESHOT) (Some q))) in
    if negb ok then kqueue_init_error q
    else
      let! tid := gets w_mon_tid in
      let! rv := (if tid =? 0 then linux_kqueue_start_thread else ret 0) in
      if rv <? 0 then kqueue_init_error q
      else
        let! tid := gets w_mon_tid in
        assert_ (negb (tid =? 0)) ;;; ret 0.

(** From the registration of [pipefd[0]] in the kqueue's own epoll set on. *)
Definition kqueue_init_wake q : M (world K) Z :=
  let! u := epoll_udata_alloc EPOLL_UDATA_KQ_WAKE (ud_kq q) in
  upd_kq q (set_kq_wake_udata u) ;;;
  match u with
  | None => kqueue_init_error q
  | Some u =>
      let! kq := get_kq q in
      let! ok := epoll_ctl (epollfd kq) EPOLL_CTL_ADD (pipefd0 kq)
        (Some (EpollEvent (Z.lor EPOLLIN EPOLLHUP) (Some u))) in
      if ok then kqueue_init_monitor q
      else free_ud u ;;; upd_kq q (set_kq_wake_udata None) ;;; kqueue_init_error q
  end.

(** The vtable as [filter_register] sees it: no per-filter hooks. *)
Definition linux_hooks : kqueue_vtable K :=
  KqueueVtable (fun _ => ret 0) linux_kqueue_free true (Some linux_kqueue_interrupt)
    linux_kevent_wait (linux_kevent_copyout ndebug fuel) None None None (ret tt)
    linux_kevent_enter linux_kevent_exit.

Definition linux_kqueue_init q : M (world K) Z :=
  upd_kq q (fun kq => set_ud_deferred_free [] (set_kq_inflight [] (set_kq_next_epoch 0 kq))) ;;;
  let! r := sys SysEpollCreate in
  match r with
  | None => upd_kq q (set_epollfd (-1)) ;;; ret (-1)
  | Some epfd =>
      upd_kq q (set_epollfd epfd) ;;;
      let! r := sys SysPipe2 in
      match r with
      | None => sys (SysClose epfd) ;;; upd_kq q (set_epollfd (-1)) ;;; ret (-1)
      | Some (fd0, fd1) =>
          upd_kq q (fun kq => set_pipefd1 fd1 (set_pipefd0 fd0 kq)) ;;;
          let! rv := filter_register_all linux_hooks q in
          if rv <? 0 then kqueue_init_error q
          else
            let! a := sys (SysFcntl fd0 F_SETFL O_NONBLOCK) in
            let! b := (match a with None => ret None | Some _ => sys (SysFcntl fd1 F_SETFL O_NONBLOCK) end) in
            match b with
            | None => kqueue_init_error q
            | Some _ => upd_kq q (set_kq_id fd1) ;;; kqueue_init_wake q
            end
      end
  end.

(** In the child of a fork: close what the kqueues hold. *)
Definition fork_close_kq q : M (world K) unit :=
  let! kq := get_kq q in
  sys (SysClose (epollfd kq)) ;;; upd_kq q (set_epollfd (-1)) ;;;
  (if 0 <? pipefd0 kq then sys (SysClose (pipefd0 kq)) ;;; ret tt else ret tt) ;;;
  upd_kq q (set_pipefd0 (-1)) ;;;
  (if 0 <? pipefd1 kq then sys (SysClose (pipefd1 kq)) ;;; ret tt else ret tt) ;;;
  upd_kq q (set_pipefd1 (-1)).

(** Close the process-wide epoll and eventfd. *)
Definition monitoring_close : M (world K) unit :=
  let! epfd := gets w_mon_epfd in
  (if 0 <=? epfd then sys (SysClose epfd) ;;; modify (set_w_mon_epfd (-1)) else ret tt) ;;;
  let! efd := gets w_mon_drain_efd in
  if 0 <=? efd then sys (SysClose efd) ;;; modify (set_w_mon_drain_efd (-1)) else ret tt.

Definition linux_libkqueue_fork : M (world K) unit :=
  modify (set_w_mon_tid 0) ;;;
  let! l := gets w_kq_list in
  for_each (A := unit) (fun q => fork_close_kq q ;;; ret None) l ;;;
  monitoring_close ;;;
  modify (set_w_mon_drain_gen 0).

Definition kqops : kqueue_vtable K :=
  KqueueVtable linux_kqueue_init linux_kqueue_free true (Some linux_kqueue_interrupt)
    linux_kevent_wait (linux_kevent_copyout ndebug fuel) None None None linux_libkqueue_fork
    linux_kevent_enter linux_kevent_exit.

(** ** The monitoring thread *)

Definition monitoring_thread_close_kq q : M (world K) unit := kqueue_free kqops q.

(** Free the kqueues of a batch of events: whether a drain was asked for. *)
Fixpoint monitoring_batch (evs : list epoll_event) (drain : bool) : M (world K) bool :=
  match evs with
  | [] => ret drain
  | ev :: evs' =>
      let! p := deref NullDeref (ev_ptr ev) in
      if decide (p = drain_addr) then monitoring_batch evs' true
      else monitoring_thread_close_kq p ;;; monitoring_batch evs' drain
  end.

(** The zero-timeout sweep of a drain request. *)
Definition monitoring_drain : M (world K) unit :=
  let! efd := gets w_mon_drain_efd in
  loop fuel (fun _ : unit =>
    let! r := sys (SysRead8 efd) in
    ret (match r with Some (n, _) => if 0 <? n then inl tt else inr tt | None => inr tt end)) tt ;;;
  loop fuel (fun _ : unit =>
    let! epfd := gets w_mon_epfd in
    let! r := sys (SysEpollWait epfd MONITORING_MAX_EVENTS 0) in
    match r with
    | Some ((_ :: _) as evs) => monitoring_batch evs false ;;; ret (inl tt)
    | _ => ret (inr tt)
    end) tt ;;;
  modify (fun w => set_w_mon_drain_gen (u64 (w_mon_drain_gen w + 1)) w).

(** One round of [monitoring_thread_loop] after [epoll_wait] returned [evs]:
    whether the thread leaves its loop (with the mutex held). *)
Definition monitoring_round (evs : list epoll_event) : M (world K) bool :=
  mtx_lock ;;;
  let! drain_req := monitoring_batch evs false in
  (if drain_req then monitoring_drain else ret tt) ;;;
  let! cnt := gets w_kq_cnt in
  if cnt =? 0 then ret true else mtx_unlock ;;; ret false.

(** One kqueue of the list when the thread is cancelled. *)
Definition cleanup_one q : M (world K) unit :=
  let! kq := get_kq q in
  let! r := sys (SysFcntl (kq_id kq) F_GETFD 0) in
  match r with
  | None => kqueue_free kqops q
  | Some _ => linux_kqueue_interrupt q
  end.

Definition monitoring_thread_cleanup (state : thread_exit_state) : M (world K) unit :=
  let all :=
    (let! l := gets w_kq_list in
     for_each (A := unit) (fun q => cleanup_one q ;;; ret None) l ;;; ret tt) in
  (match state with
   | THREAD_EXIT_STATE_CANCEL_UNLOCKED => mtx_lock ;;; all ;;; mtx_unlock
   | THREAD_EXIT_STATE_CANCEL_LOCKED => all
   | THREAD_EXIT_STATE_SELF_CANCEL => ret tt
   end) ;;;
  modify (set_w_mon_tid 0) ;;;
  match state with
  | THREAD_EXIT_STATE_CANCEL_LOCKED => mtx_unlock
  | _ => ret tt
  end.

(** [linux_libkqueue_free]; the thread, cancelled in [epoll_wait], runs its
    cleanup while it is joined. *)
Definition linux_libkqueue_free : M (world K) unit :=
  mtx_lock ;;;
  let! tid := gets w_mon_tid in
  mtx_unlock ;;;
  (if tid =? 0 then ret tt else monitoring_thread_cleanup THREAD_EXIT_STATE_CANCEL_UNLOCKED) ;;;
  monitoring_close.
End Kqueue.
