(* ===== verification/LinuxEpoch.v ===== *)
(** * Reclaiming udatas: the epochs of src/linux/platform.c

    What [linux_kevent_enter], [linux_kevent_exit], the sweep and the rebase do,
    and the protocol as a transition system: callers enter, wait, retire
    registrations and leave a kqueue, each a critical section on its mutex
    except the wait.  A caller's buffer holds addresses the kernel had
    registered when it waited.  A registration ends with EPOLL_CTL_DEL or with the
    descriptor, a step of its own: retiring a udata tells the kernel nothing, and the
    protocol asks that the registration has ended by then.  The theorems show that no
    address in a buffer is freed before the caller leaves, and that nothing stays
    queued when all have left.  LinuxDangling has the path that breaks the rule. *)

From Stdlib Require Import ZArith Lia Bool Sorted.
From stdpp Require Import base list gmap.
From S2P Require Import Prelude RBTree Event Map State Ops Knote LinuxUdata LinuxEpoll LinuxRules.

Section Runs.
Context {K : Type} `{OS K}.
Implicit Types (w : world K) (q u me : ptr).

(** The boundary epochs of the queued udatas, moved by [base]. *)
Definition moved (base : Z) (l : list ptr) (m m' : gmap ptr epoll_udata) : Prop :=
  (forall u, u ∉ l -> m' !! u = m !! u) /\
  (forall u d, u ∈ l -> m !! u = Some d ->
     m' !! u = Some (set_ud_boundary_epoch (u64 (ud_boundary_epoch d - base)) d)).

Lemma rebase_loop_ok base l : forall w, NoDup l -> (forall u, u ∈ l -> is_Some (w_udatas w !! u)) ->
  wp (for_each (A := unit) (fun u => let! d := get_ud u in
        put_ud u (set_ud_boundary_epoch (u64 (ud_boundary_epoch d - base)) d) ;;; ret None) l)
     (fun _ w' => exists m', w' = set_w_udatas m' w /\ moved base l (w_udatas w) m') w.
Proof.
  induction l as [|u l IH]; intros w Hnd Hl; simpl.
  - exists (w_udatas w). split; [by destruct w|]. split; [done|]. intros u d Hu. by apply elem_of_nil in Hu.
  - apply NoDup_cons in Hnd as [Hu Hnd]. destruct (Hl u) as [d Hd]; [set_solver|]. unfold put_ud. wp_simpl.
    eapply wp_get_ud; [exact Hd|]. wp_simpl.
    eapply wp_mono; [|apply IH; [done|]].
    2: { intros v Hv. simpl. rewrite lookup_insert_ne by (intros ->; done). apply Hl. set_solver. }
    intros r w' (m' & -> & Hm1 & Hm2). exists m'. split; [done|]. simpl in *. split.
    + intros v Hv. rewrite Hm1 by set_solver. rewrite lookup_insert_ne by set_solver. done.
    + intros v x Hv Hx. destruct (decide (v = u)) as [->|Hne].
      * rewrite Hm1 by done. rewrite lookup_insert_eq. by simplify_eq.
      * apply Hm2; [set_solver|]. by rewrite lookup_insert_ne.
Qed.

(** The state after a rebase. *)
Definition rebased base (kq : kqueue) : kqueue :=
  set_kq_next_epoch (u64 (kq_next_epoch kq - base))
    (set_kq_inflight ((fun s => set_epoch (u64 (epoch s - base)) s) <$> kq_inflight kq) kq).

Definition rebase_base (kq : kqueue) : Z :=
  match head (kq_inflight kq) with Some s => u64 (epoch s - 1) | None => kq_next_epoch kq end.

Lemma rebase_ok (Q : unit -> world K -> Prop) w q kq :
  w_kqs w !! q = Some kq -> kq_locked kq = true -> NoDup (ud_deferred_free kq) ->
  (forall u, u ∈ ud_deferred_free kq -> is_Some (w_udatas w !! u)) ->
  (forall m', moved (rebase_base kq) (ud_deferred_free kq) (w_udatas w) m' ->
     Q tt (set_w_kqs (<[q := rebased (rebase_base kq) kq]> (w_kqs w)) (set_w_udatas m' w))) ->
  wp (linux_kqueue_epoch_rebase q) Q w.
Proof.
  intros E Hl Hnd Hlive HQ. unfold linux_kqueue_epoch_rebase. wp_go. wp_go. wp_go.
  fold (rebase_base kq). eapply wp_mono; [|apply rebase_loop_ok; [done|exact Hlive]].
  intros r w1 (m' & -> & Hm). wp_simpl. eapply wp_upd_kq; [simpl; by rewrite lookup_insert_eq|].
  simpl. rewrite insert_insert_eq. by apply HQ.
Qed.

(** What one more caller makes of a kqueue. *)
Definition entered me (kq : kqueue) : kqueue :=
  let e := u64 (kq_next_epoch kq + 1) in
  set_kq_inflight (kq_inflight kq ++ [KeventState me e]) (set_kq_next_epoch e kq).

Lemma enter_ok (Q : unit -> world K -> Prop) w q me kq :
  w_kqs w !! q = Some kq -> kq_locked kq = true -> NoDup (ud_deferred_free kq) ->
  (forall u, u ∈ ud_deferred_free kq -> is_Some (w_udatas w !! u)) ->
  (kq_next_epoch kq <> UINT64_MAX ->
     Q tt (set_w_kqs (<[q := entered me kq]> (w_kqs w)) w)) ->
  (kq_next_epoch kq = UINT64_MAX -> forall m',
     moved (rebase_base kq) (ud_deferred_free kq) (w_udatas w) m' ->
     Q tt (set_w_kqs (<[q := entered me (rebased (rebase_base kq) kq)]> (w_kqs w)) (set_w_udatas m' w))) ->
  wp (linux_kevent_enter q me) Q w.
Proof.
  intros E Hl Hnd Hlive H1 H2. unfold linux_kevent_enter. wp_go. wp_go.
  destruct (Z.eqb_spec (kq_next_epoch kq) UINT64_MAX) as [Hmax|Hmax].
  - eapply rebase_ok; try done. intros m' Hm. wp_simpl.
    eapply wp_upd_kq; [simpl; by rewrite lookup_insert_eq|]. simpl. rewrite insert_insert_eq. by apply H2.
  - wp_simpl. eapply wp_upd_kq; [exact E|]. by apply H1.
Qed.

(** The udatas a sweep frees, and those it leaves. *)
Fixpoint sweep_split (m : gmap ptr epoll_udata) (limit : option Z) (l : list ptr) : list ptr * list ptr :=
  match l with
  | [] => ([], [])
  | u :: l' =>
      match m !! u with
      | Some d =>
          if match limit with None => true | Some e => ud_boundary_epoch d <? e end
          then let '(a, b) := sweep_split m limit l' in (u :: a, b) else ([], l)
      | None => ([], l)
      end
  end.

Lemma sweep_split_app m limit l :
  l = (sweep_split m limit l).1 ++ (sweep_split m limit l).2.
Proof.
  induction l as [|u l IH]; [done|]. simpl. destruct (m !! u) as [d|]; [|done].
  destruct (match limit with Some e => _ | None => true end); [|done].
  destruct (sweep_split m limit l) as [a b]. simpl in *. by f_equal.
Qed.

(** Freeing a list of udatas. *)
Definition dropped (m : gmap ptr epoll_udata) (l : list ptr) : gmap ptr epoll_udata :=
  foldl (fun m u => delete u m) m l.

Lemma dropped_other l : forall m u, u ∉ l -> dropped m l !! u = m !! u.
Proof.
  induction l as [|v l IH]; intros m u Hu; [done|]. simpl. rewrite IH by set_solver.
  by rewrite lookup_delete_ne by set_solver.
Qed.

Lemma dropped_in l : forall m u, u ∈ l -> dropped m l !! u = None.
Proof.
  induction l as [|v l IH]; intros m u Hu; [by apply elem_of_nil in Hu|]. simpl.
  destruct (decide (u ∈ l)); [by apply IH|]. rewrite dropped_other by done.
  assert (u = v) as -> by set_solver. by rewrite lookup_delete_eq.
Qed.

Lemma sweep_split_delete m limit l u :
  u ∉ l -> sweep_split (delete u m) limit l = sweep_split m limit l.
Proof.
  induction l as [|v l IH]; intros Hu; [done|]. simpl. rewrite lookup_delete_ne by set_solver.
  rewrite IH by set_solver. done.
Qed.

Lemma sweep_loop_ok (Q : unit -> world K -> Prop) q limit l : forall w kq,
  w_kqs w !! q = Some kq -> ud_deferred_free kq = l -> NoDup l ->
  (forall u, u ∈ l -> is_Some (w_udatas w !! u)) ->
  Q tt (set_w_kqs (<[q := set_ud_deferred_free (sweep_split (w_udatas w) limit l).2 kq]> (w_kqs w))
    (set_w_udatas (dropped (w_udatas w) (sweep_split (w_udatas w) limit l).1) w)) ->
  wp (sweep_loop q limit l) Q w.
Proof.
  induction l as [|u l IH]; intros w kq E Hd Hnd Hlive HQ; simpl in *.
  - replace (set_w_kqs _ _) with w in HQ; [done|]. destruct w; simpl in *. unfold set_w_kqs, set_w_udatas; simpl.
    rewrite insert_id; [done|]. rewrite E. f_equal. destruct kq; simpl in *. by subst.
  - apply NoDup_cons in Hnd as [Hu Hnd]. destruct (Hlive u) as [d Hd']; [set_solver|]. rewrite Hd' in HQ.
    wp_simpl. eapply wp_get_ud; [exact Hd'|].
    destruct (match limit with Some e => _ | None => true end).
    2: { simpl in HQ. wp_simpl. replace (set_w_kqs _ _) with w in HQ; [done|]. destruct w; simpl in *.
         unfold set_w_kqs, set_w_udatas; simpl. rewrite insert_id; [done|]. rewrite E. f_equal.
         destruct kq; simpl in *. by subst. }
    wp_simpl. eapply wp_upd_kq; [exact E|]. unfold free_ud. wp_simpl. eapply wp_get_ud; [exact Hd'|]. wp_simpl.
    eapply (IH _ (set_ud_deferred_free l kq)); simpl; [by rewrite lookup_insert_eq|done|done|..].
    + intros v Hv. rewrite lookup_delete_ne by (intros ->; done). apply Hlive. set_solver.
    + rewrite sweep_split_delete by done. destruct (sweep_split (w_udatas w) limit l) as [a b]. simpl in *.
      rewrite insert_insert_eq. exact HQ.
Qed.

(** What is left of a kqueue when a caller leaves. *)
Definition others me (l : list kevent_state) : list kevent_state :=
  base.filter (fun s => ks_id s <> me) l.

Lemma exit_ok (Q : unit -> world K -> Prop) w q me kq :
  w_kqs w !! q = Some kq -> kq_locked kq = true -> me ∈ ks_id <$> kq_inflight kq ->
  NoDup (ud_deferred_free kq) -> (forall u, u ∈ ud_deferred_free kq -> is_Some (w_udatas w !! u)) ->
  (let fl := others me (kq_inflight kq) in
   let sp := sweep_split (w_udatas w) (epoch <$> head fl) (ud_deferred_free kq) in
   Q tt (set_w_kqs (<[q := set_ud_deferred_free sp.2 (set_kq_inflight fl kq)]> (w_kqs w))
     (set_w_udatas (dropped (w_udatas w) sp.1) w))) ->
  wp (linux_kevent_exit q me) Q w.
Proof.
  intros E Hl Hin Hnd Hlive HQ. unfold linux_kevent_exit. wp_go. wp_go. rewrite decide_True by done.
  unfold linux_kqueue_sweep_deferred. wp_go. eapply wp_mutex_assert; [simpl; by rewrite lookup_insert_eq|done|].
  wp_simpl. eapply wp_get_kq; [simpl; by rewrite lookup_insert_eq|]. simpl.
  eapply (sweep_loop_ok Q q _ _ _ (set_kq_inflight (others me (kq_inflight kq)) kq));
    [simpl; by rewrite lookup_insert_eq|done|done|exact Hlive|].
  simpl. rewrite insert_insert_eq. exact HQ.
Qed.
End Runs.

(** ** The protocol *)

(** The boundary epoch of a queued udata. *)
Definition bound (m : gmap ptr epoll_udata) (u : ptr) : Z :=
  match m !! u with Some d => ud_boundary_epoch d | None => 0 end.

Definition live_as (m : gmap ptr epoll_udata) (u : ptr) (stale : bool) : Prop :=
  exists d, m !! u = Some d /\ ud_stale d = stale.

(** The invariant of the protocol: epochs grow along the list of callers and
    boundaries along the list of queued udatas, no boundary is below the oldest
    caller, and what a caller's buffer holds is in use (one of the udatas [reg], which
    are not stale) or queued with a boundary that is not below the caller's epoch. *)
Record einv (m : gmap ptr epoll_udata) (kq : kqueue) (reg : gset ptr)
    (buf : gmap ptr (list ptr)) : Prop :=
  { ei_ids : NoDup (ks_id <$> kq_inflight kq);
    ei_sorted : sortedZ (epoch <$> kq_inflight kq);
    ei_epochs : forall s, s ∈ kq_inflight kq -> 1 <= epoch s <= kq_next_epoch kq;
    ei_next : 0 <= kq_next_epoch kq <= UINT64_MAX;
    ei_nodup : NoDup (ud_deferred_free kq);
    ei_def : forall u, u ∈ ud_deferred_free kq -> live_as m u true /\ bound m u <= kq_next_epoch kq /\
      forall s, head (kq_inflight kq) = Some s -> epoch s <= bound m u;
    ei_bounds : StronglySorted Z.le (bound m <$> ud_deferred_free kq);
    ei_empty : kq_inflight kq = [] -> ud_deferred_free kq = [];
    ei_reg : forall u, u ∈ reg -> live_as m u false;
    ei_dom : forall me l, buf !! me = Some l -> me ∈ ks_id <$> kq_inflight kq;
    ei_buf : forall s l u, s ∈ kq_inflight kq -> buf !! ks_id s = Some l -> u ∈ l ->
      u ∈ reg \/ u ∈ ud_deferred_free kq /\ epoch s <= bound m u }.

Section Pure.
Implicit Types (m : gmap ptr epoll_udata) (kq : kqueue) (reg : gset ptr) (buf : gmap ptr (list ptr)).

Lemma u64_small z : 0 <= z <= UINT64_MAX -> u64 z = z.
Proof. unfold UINT64_MAX, u64. intros Hz. apply Z.mod_small. lia. Qed.

(** The oldest caller has the lowest epoch. *)
Lemma head_lowest l s s' : sortedZ (epoch <$> l) -> head l = Some s -> s' ∈ l -> epoch s <= epoch s'.
Proof.
  destruct l as [|a l]; [done|]. simpl. intros [Ha _] [= ->] Hs'.
  apply elem_of_cons in Hs' as [->|Hs']; [lia|]. rewrite Forall_forall in Ha.
  assert (epoch s < epoch s'); [|lia]. apply Ha. by apply list_elem_of_fmap_2.
Qed.

Lemma einv_enter m kq reg buf me :
  einv m kq reg buf -> me ∉ ks_id <$> kq_inflight kq -> kq_next_epoch kq < UINT64_MAX ->
  einv m (entered me kq) reg (<[me := []]> buf).
Proof.
  intros [A B C D E F G L M N O] Hme Hn. assert (He : u64 (kq_next_epoch kq + 1) = kq_next_epoch kq + 1)
    by (apply u64_small; lia).
  assert (Hhd : forall s, head (kq_inflight kq ++ [KeventState me (kq_next_epoch kq + 1)]) = Some s ->
    ud_deferred_free kq <> [] -> head (kq_inflight kq) = Some s).
  { intros s Hs Hd. destruct (kq_inflight kq); [by rewrite L in Hd|done]. }
  unfold entered. rewrite He. split; simpl; try done; try lia.
  - rewrite fmap_app. apply NoDup_app. split_and!; [done| |apply NoDup_singleton].
    intros x Hx Hx'. apply list_elem_of_singleton in Hx' as ->. done.
  - rewrite fmap_app. apply sortedZ_app. split_and!; [done|by split|].
    apply Forall_forall. intros x (s & -> & Hs)%list_elem_of_fmap. constructor; [|constructor]. simpl.
    specialize (C s Hs). lia.
  - intros s Hs. apply elem_of_app in Hs as [Hs|Hs]; [specialize (C s Hs); lia|].
    apply list_elem_of_singleton in Hs as ->. simpl. lia.
  - intros u Hu. destruct (F u Hu) as (F1 & F2 & F3). split_and!; [done|lia|]. intros s Hs.
    apply F3. apply Hhd; [done|]. intros Hnil. rewrite Hnil in Hu. by apply elem_of_nil in Hu.
  - intros Hnil. by apply app_eq_nil in Hnil as [_ ?].
  - intros r l Hr. rewrite fmap_app. apply elem_of_app. destruct (decide (r = me)) as [->|Hne].
    + right. simpl. set_solver.
    + left. rewrite lookup_insert_ne in Hr by done. by apply (N r l).
  - intros s l u Hs Hb Hu. destruct (decide (ks_id s = me)) as [Heq|Hne].
    + rewrite Heq, lookup_insert_eq in Hb. simplify_eq. by apply elem_of_nil in Hu.
    + rewrite lookup_insert_ne in Hb by done. apply elem_of_app in Hs as [Hs|Hs]; [by apply (O s l)|].
      apply list_elem_of_singleton in Hs as ->. done.
Qed.

(** The counter may be rebased when the oldest caller's epoch is above 1. *)
Definition room kq : Prop :=
  kq_next_epoch kq = UINT64_MAX -> forall s, head (kq_inflight kq) = Some s -> 1 < epoch s.

Lemma moved_bound base l m m' u :
  moved base l m m' -> u ∈ l -> is_Some (m !! u) -> 0 <= bound m u - base <= UINT64_MAX ->
  bound m' u = bound m u - base.
Proof.
  intros [_ Hm] Hu [d Hd] Hb. unfold bound in *. rewrite (Hm u d Hu Hd). rewrite Hd in *. simpl. by apply u64_small.
Qed.

Lemma moved_live base l m m' u b : moved base l m m' -> live_as m u b -> live_as m' u b.
Proof.
  intros [Hm1 Hm2] (d & Hd & Hs). destruct (decide (u ∈ l)) as [Hu|Hu].
  - eexists. by rewrite (Hm2 u d Hu Hd).
  - exists d. by rewrite Hm1.
Qed.

Lemma StronglySorted_shift (f : ptr -> Z) (g : ptr -> Z) (b : Z) l :
  (forall u, u ∈ l -> g u = f u - b) -> StronglySorted Z.le (f <$> l) -> StronglySorted Z.le (g <$> l).
Proof.
  induction l as [|u l IH]; intros Hg Hs; [constructor|]. simpl in *. inversion Hs as [|? ? Hs' Hf]; subst.
  constructor; [apply IH; [|done]; intros v Hv; apply Hg; set_solver|].
  rewrite Forall_forall in Hf |- *. intros x (v & -> & Hv)%list_elem_of_fmap.
  assert (f u <= f v) by (apply Hf; by apply list_elem_of_fmap_2).
  rewrite (Hg u), (Hg v) by set_solver. lia.
Qed.

Lemma sortedZ_shift b l : sortedZ l -> sortedZ ((fun e => e - b) <$> l).
Proof.
  induction l as [|x l IH]; [done|]. simpl. intros [Hx Hl]. split; [|by apply IH].
  apply Forall_forall. intros y (z & -> & Hz)%list_elem_of_fmap. rewrite Forall_forall in Hx. specialize (Hx z Hz). lia.
Qed.

Lemma einv_rebase m m' kq reg buf :
  einv m kq reg buf -> kq_next_epoch kq = UINT64_MAX -> room kq ->
  moved (rebase_base kq) (ud_deferred_free kq) m m' ->
  einv m' (rebased (rebase_base kq) kq) reg buf /\ kq_next_epoch (rebased (rebase_base kq) kq) < UINT64_MAX.
Proof.
  intros [A B C D E F G L M N O] Hmax Hroom Hm. unfold room in Hroom. specialize (Hroom Hmax).
  set (base := rebase_base kq) in *. 
  assert (Hb : 1 <= base <= UINT64_MAX /\ (forall s, s ∈ kq_inflight kq -> base + 1 <= epoch s) /\
    forall u, u ∈ ud_deferred_free kq -> base + 1 <= bound m u <= UINT64_MAX).
  { unfold base, rebase_base. destruct (kq_inflight kq) as [|s l] eqn:Hfl; simpl.
    - rewrite L by done. unfold UINT64_MAX in *. split_and!; try lia; intros ? Hx; by apply elem_of_nil in Hx.
    - assert (1 < epoch s) by (by apply Hroom). assert (1 <= epoch s <= kq_next_epoch kq) by (apply C; set_solver).
      rewrite u64_small by lia. split_and!; try lia.
      + intros s' Hs'. pose proof (head_lowest _ _ _ B eq_refl Hs'). lia.
      + intros u Hu. destruct (F u Hu) as (_ & F2 & F3). specialize (F3 s eq_refl). lia. }
  destruct Hb as (Hb1 & Hb2 & Hb3).
  assert (Hbd : forall u, u ∈ ud_deferred_free kq -> bound m' u = bound m u - base).
  { intros u Hu. destruct (F u Hu) as ((d & Hd & _) & _). eapply moved_bound; [exact Hm|done|by eexists|].
    specialize (Hb3 u Hu). lia. }
  assert (Hep : epoch <$> ((fun s => set_epoch (u64 (epoch s - base)) s) <$> kq_inflight kq) =
    (fun e => e - base) <$> (epoch <$> kq_inflight kq)).
  { rewrite <- !list_fmap_compose. apply list_fmap_ext. intros i s Hs. simpl. apply u64_small.
    apply list_elem_of_lookup_2 in Hs. specialize (C s Hs). specialize (Hb2 s Hs). lia. }
  assert (Hids : ks_id <$> ((fun s => set_epoch (u64 (epoch s - base)) s) <$> kq_inflight kq) = ks_id <$> kq_inflight kq)
    by (by rewrite <- list_fmap_compose).
  assert (Hs0 : forall s, s ∈ (fun s => set_epoch (u64 (epoch s - base)) s) <$> kq_inflight kq ->
    exists s0, s0 ∈ kq_inflight kq /\ ks_id s = ks_id s0 /\ epoch s = epoch s0 - base).
  { intros s (s0 & -> & Hs0)%list_elem_of_fmap. exists s0. split_and!; try done. simpl. apply u64_small.
    specialize (C s0 Hs0). specialize (Hb2 s0 Hs0). lia. }
  assert (Hnx : u64 (kq_next_epoch kq - base) = kq_next_epoch kq - base) by (apply u64_small; lia).
  split; [|simpl; lia]. unfold rebased. rewrite Hnx. split; simpl; try done; try lia.
  - by rewrite Hids.
  - rewrite Hep. by apply sortedZ_shift.
  - intros s (s0 & Hin & _ & ->)%Hs0. specialize (C s0 Hin). specialize (Hb2 s0 Hin). lia.
  - intros u Hu. destruct (F u Hu) as (F1 & F2 & F3). rewrite Hbd by done. split_and!; [by eapply moved_live|lia|].
    intros s Hs. rewrite list.head_lookup, list_lookup_fmap in Hs. 
    destruct (kq_inflight kq !! 0%nat) as [s0|] eqn:E0; [|done]. simpl in Hs. simplify_eq. simpl.
    rewrite u64_small; [|specialize (C s0); specialize (Hb2 s0); apply list_elem_of_lookup_2 in E0; specialize (C E0); specialize (Hb2 E0); lia].
    assert (epoch s0 <= bound m u); [|lia]. apply F3. by rewrite list.head_lookup.
  - by eapply StronglySorted_shift; [exact Hbd|].
  - intros Hnil%fmap_nil_inv. by apply L.
  - intros u Hu. eapply moved_live; [exact Hm|by apply M].
  - intros r l Hr. rewrite Hids. by apply (N r l).
  - intros s l u (s0 & Hin & Hid & Hepo)%Hs0 Hbf Hu. rewrite Hid in Hbf.
    destruct (O s0 l u Hin Hbf Hu) as [?|[Hd Hle]]; [by left|right]. split; [done|]. rewrite Hbd by done. lia.
Qed.

Lemma einv_wait m kq reg buf me l :
  einv m kq reg buf -> me ∈ ks_id <$> kq_inflight kq -> Forall (fun u => u ∈ reg) l ->
  einv m kq reg (<[me := l]> buf).
Proof.
  intros [A B C D E F G L M N O] Hme Hl. split; try done.
  - intros r k Hr. destruct (decide (r = me)) as [->|Hne]; [done|]. rewrite lookup_insert_ne in Hr by done.
    by apply (N r k).
  - intros s k u Hs Hb Hu. destruct (decide (ks_id s = me)) as [Heq|Hne].
    + rewrite Heq, lookup_insert_eq in Hb. simplify_eq. left. rewrite Forall_forall in Hl. by apply Hl.
    + rewrite lookup_insert_ne in Hb by done. by apply (O s k).
Qed.

Lemma bound_insert_ne m u v d : v <> u -> bound (<[u := d]> m) v = bound m v.
Proof. intros Hne. unfold bound. by rewrite lookup_insert_ne. Qed.

Lemma live_insert_ne m u v d b : v <> u -> live_as m v b -> live_as (<[u := d]> m) v b.
Proof. intros Hne (x & Hx & Hs). exists x. by rewrite lookup_insert_ne. Qed.

(** Updating a udata that is not queued. *)
Lemma einv_insert m kq reg buf u d :
  einv m kq reg buf -> u ∉ ud_deferred_free kq -> (u ∈ reg -> ud_stale d = false) ->
  einv (<[u := d]> m) kq reg buf.
Proof.
  intros [A B C D E F G L M N O] Hu Hd. 
  assert (Hb : forall v, v ∈ ud_deferred_free kq -> bound (<[u := d]> m) v = bound m v)
    by (intros v Hv; apply bound_insert_ne; intros ->; done).
  split; try done.
  - intros v Hv. destruct (F v Hv) as (F1 & F2 & F3). rewrite Hb by done. split_and!; try done.
    apply live_insert_ne; [|done]. intros ->. done.
  - assert (Heq : bound (<[u := d]> m) <$> ud_deferred_free kq = bound m <$> ud_deferred_free kq).
    { apply list_fmap_ext. intros i v Hv. apply Hb. by eapply list_elem_of_lookup_2. }
    by rewrite Heq.
  - intros v Hv. destruct (decide (v = u)) as [->|Hne]; [|by apply live_insert_ne; [|apply M]].
    exists d. rewrite lookup_insert_eq. split; [done|by apply Hd].
  - intros s l v Hs Hbf Hv. destruct (O s l v Hs Hbf Hv) as [?|[Hd' Hle]]; [by left|right].
    split; [done|]. by rewrite Hb.
Qed.

(** A udata that is not stale counts as in use. *)
Lemma einv_grow m kq reg buf u : einv m kq reg buf -> live_as m u false -> einv m kq ({[u]} ∪ reg) buf.
Proof.
  intros [A B C D E F G L M N O] Hu. split; try done.
  - intros v Hv. apply elem_of_union in Hv as [->%elem_of_singleton|Hv]; [done|by apply M].
  - intros s l v Hs Hb Hv. destruct (O s l v Hs Hb Hv) as [?|?]; [left; set_solver|by right].
Qed.

Lemma einv_alloc m kq reg buf u d :
  einv m kq reg buf -> m !! u = None -> ud_stale d = false -> einv (<[u := d]> m) kq reg buf.
Proof.
  intros Hi Hu Hd. apply einv_insert; [done| |done].
  intros Hin. destruct (ei_def _ _ _ _ Hi u Hin) as ((x & Hx & _) & _). congruence.
Qed.

Lemma einv_retire m kq reg buf u d :
  einv m kq reg buf -> u ∈ reg -> m !! u = Some d -> kq_inflight kq <> [] ->
  einv (<[u := set_ud_boundary_epoch (kq_next_epoch kq) (set_ud_stale true d)]> m)
    (set_ud_deferred_free (ud_deferred_free kq ++ [u]) kq) (reg ∖ {[u]}) buf.
Proof.
  intros Hi Hr Hu Hne. assert (Hnd : u ∉ ud_deferred_free kq).
  { intros Hin. destruct (ei_def _ _ _ _ Hi u Hin) as ((x & Hx & Hs) & _).
    destruct (ei_reg _ _ _ _ Hi u Hr) as (y & Hy & Hs'). congruence. }
  set (d' := set_ud_boundary_epoch _ _). 
  assert (Hi1 : einv m kq (reg ∖ {[u]}) buf -> einv (<[u := d']> m) kq (reg ∖ {[u]}) buf)
    by (intros Hx; apply einv_insert; [done|done|set_solver]).
  assert (Hbu : bound (<[u := d']> m) u = kq_next_epoch kq) by (unfold bound; by rewrite lookup_insert_eq).
  assert (Hb : forall v, v ∈ ud_deferred_free kq -> bound (<[u := d']> m) v = bound m v)
    by (intros v Hv; apply bound_insert_ne; intros ->; done).
  destruct Hi as [A B C D E F G L M N O].
  assert (Hhd : forall s, head (kq_inflight kq) = Some s -> epoch s <= kq_next_epoch kq).
  { intros s Hs. apply C. rewrite list.head_lookup in Hs. by eapply list_elem_of_lookup_2. }
  split; simpl; try done.
  - apply NoDup_app. split_and!; [done| |apply NoDup_singleton].
    intros v Hv Hv'. apply list_elem_of_singleton in Hv' as ->. done.
  - intros v Hv. apply elem_of_app in Hv as [Hv|Hv].
    + destruct (F v Hv) as (F1 & F2 & F3). rewrite Hb by done. split_and!; try done.
      apply live_insert_ne; [|done]. intros ->. done.
    + apply list_elem_of_singleton in Hv as ->. rewrite Hbu. split_and!; [|lia|done].
      exists d'. by rewrite lookup_insert_eq.
  - rewrite fmap_app. simpl. rewrite Hbu.
    assert (Heq : bound (<[u := d']> m) <$> ud_deferred_free kq = bound m <$> ud_deferred_free kq).
    { apply list_fmap_ext. intros i v Hv. apply Hb. by eapply list_elem_of_lookup_2. }
    rewrite Heq. assert (Hall : Forall (fun b => b <= kq_next_epoch kq) (bound m <$> ud_deferred_free kq)).
    { apply Forall_forall. intros b (v & -> & Hv)%list_elem_of_fmap. by apply F. }
    clear -G Hall. induction (bound m <$> ud_deferred_free kq) as [|b l IH]; simpl; [repeat constructor|].
    inversion G; inversion Hall; subst. constructor; [by apply IH|]. apply Forall_app. split; [done|].
    by repeat constructor.
  - intros v Hv. apply elem_of_difference in Hv as [Hv Hvu]. apply live_insert_ne; [set_solver|by apply M].
  - intros s l v Hs Hbf Hv. destruct (decide (v = u)) as [->|Hvu].
    + right. split; [set_solver|]. rewrite Hbu. by apply C.
    + destruct (O s l v Hs Hbf Hv) as [?|[Hd Hle]]; [left; set_solver|right].
      split; [set_solver|]. by rewrite Hb.
Qed.

Lemma sweep_split_spec m limit l :
  (forall u, u ∈ l -> is_Some (m !! u)) -> StronglySorted Z.le (bound m <$> l) ->
  (forall u e, u ∈ (sweep_split m limit l).1 -> limit = Some e -> bound m u < e) /\
  (forall u, u ∈ (sweep_split m limit l).2 -> exists e, limit = Some e /\ e <= bound m u).
Proof.
  induction l as [|u l IH]; intros Hl Hs; simpl; [split; intros; by match goal with H : _ ∈ [] |- _ => apply elem_of_nil in H end|].
  simpl in Hs. inversion Hs as [|? ? Hs' Hf]; subst. destruct (Hl u) as [d Hd]; [set_solver|]. rewrite Hd.
  destruct IH as [IH1 IH2]; [intros v Hv; apply Hl; set_solver|done|].
  assert (Hbu : bound m u = ud_boundary_epoch d) by (unfold bound; by rewrite Hd).
  destruct limit as [e|].
  - destruct (Z.ltb_spec (ud_boundary_epoch d) e) as [Hlt|Hge].
    + destruct (sweep_split m (Some e) l) as [a b]. simpl in *. split; [|done].
      intros v e' Hv [= <-]. apply elem_of_cons in Hv as [->|Hv]; [lia|by apply IH1].
    + simpl. split; [intros v e' Hv; by apply elem_of_nil in Hv|]. intros v Hv. exists e. split; [done|].
      apply elem_of_cons in Hv as [->|Hv]; [lia|]. rewrite Forall_forall in Hf.
      assert (bound m u <= bound m v); [|lia]. apply Hf. by apply list_elem_of_fmap_2.
  - destruct (sweep_split m None l) as [a b]. simpl in *. split; [done|]. done.
Qed.

Lemma sortedZ_filter me l : sortedZ (epoch <$> l) -> sortedZ (epoch <$> others me l).
Proof.
  induction l as [|s l IH]; [done|]. intros [Hs Hl]. unfold others in *. rewrite filter_cons.
  destruct (decide (ks_id s <> me)); [|by apply IH]. split; [|by apply IH].
  rewrite Forall_forall in Hs |- *. intros x (y & -> & [_ Hy]%list_elem_of_filter)%list_elem_of_fmap.
  apply Hs. by apply list_elem_of_fmap_2.
Qed.

Lemma others_ids me l : ks_id <$> others me l = base.filter (fun r => r <> me) (ks_id <$> l).
Proof.
  unfold others. induction l as [|s l IH]; [done|]. rewrite fmap_cons.
  destruct (decide (ks_id s <> me)).
  - rewrite !filter_cons_True by done. rewrite fmap_cons. by rewrite IH.
  - rewrite !filter_cons_False by done. exact IH.
Qed.

Lemma einv_exit m kq reg buf me :
  einv m kq reg buf ->
  let fl := others me (kq_inflight kq) in
  let sp := sweep_split m (epoch <$> head fl) (ud_deferred_free kq) in
  einv (dropped m sp.1) (set_ud_deferred_free sp.2 (set_kq_inflight fl kq)) reg (delete me buf).
Proof.
  intros [A B C D E F G L M N O]. intros fl sp.
  pose proof (sweep_split_app m (epoch <$> head fl) (ud_deferred_free kq)) as Happ. fold sp in Happ.
  assert (Hlive : forall u, u ∈ ud_deferred_free kq -> is_Some (m !! u)).
  { intros u Hu. destruct (F u Hu) as ((d & Hd & _) & _). by eexists. }
  destruct (sweep_split_spec m (epoch <$> head fl) _ Hlive G) as [Hs1 Hs2]. fold sp in Hs1, Hs2.
  rewrite Happ in E. apply NoDup_app in E as (E1 & E2 & E3).
  assert (Hin2 : forall u, u ∈ sp.2 -> u ∈ ud_deferred_free kq) by (intros; rewrite Happ; set_solver).
  assert (Hin1 : forall u, u ∈ sp.1 -> u ∈ ud_deferred_free kq) by (intros; rewrite Happ; set_solver).
  assert (Hb : forall u, u ∉ sp.1 -> bound (dropped m sp.1) u = bound m u)
    by (intros u Hu; unfold bound; by rewrite dropped_other).
  assert (Hlv : forall u b, u ∉ sp.1 -> live_as m u b -> live_as (dropped m sp.1) u b).
  { intros u b Hu (d & Hd & Hst). exists d. by rewrite dropped_other. }
  assert (Hfl : forall s, s ∈ fl -> s ∈ kq_inflight kq /\ ks_id s <> me)
    by (intros s [? ?]%list_elem_of_filter; done).
  assert (Hsf : sortedZ (epoch <$> fl)) by (by apply sortedZ_filter).
  assert (Hreg : forall u, u ∈ reg -> u ∉ sp.1).
  { intros u Hu Hin%Hin1. destruct (F u Hin) as ((d & Hd & Hst) & _). destruct (M u Hu) as (d' & Hd' & Hst'). congruence. }
  split; simpl; try done.
  - unfold fl. rewrite others_ids. by apply NoDup_filter.
  - intros s [Hs _]%Hfl. by apply C.
  - intros u Hu. pose proof (fun H => E2 u H Hu) as Hn1. rewrite Hb by done.
    destruct (F u (Hin2 u Hu)) as (F1 & F2 & F3). split_and!; [by apply Hlv|done|].
    intros s Hs. destruct (Hs2 u Hu) as (e & He & Hle). rewrite Hs in He. simpl in He. by simplify_eq.
  - rewrite Happ, fmap_app in G.
    assert (Heq : bound (dropped m sp.1) <$> sp.2 = bound m <$> sp.2).
    { apply list_fmap_ext. intros i u Hu. apply Hb. intros H1. apply (E2 u H1). by eapply list_elem_of_lookup_2. }
    rewrite Heq. clear -G. induction (bound m <$> sp.1) as [|b l IH]; [done|]. inversion G; subst. by apply IH.
  - intros Hnil. destruct sp.2 as [|u l] eqn:Hsp; [done|]. destruct (Hs2 u) as (e & He & _); [set_solver|].
    by rewrite Hnil in He.
  - intros u Hu. apply Hlv; [by apply Hreg|by apply M].
  - intros r l Hr. apply lookup_delete_Some in Hr as [Hne Hr]. specialize (N r l Hr). unfold fl.
    rewrite others_ids. apply list_elem_of_filter. done.
  - intros s l u Hs Hbf Hu. destruct (Hfl s Hs) as [Hs' Hid]. apply lookup_delete_Some in Hbf as [_ Hbf].
    destruct (O s l u Hs' Hbf Hu) as [?|[Hd Hle]]; [by left|right].
    assert (Hn1 : u ∉ sp.1).
    { intros H1. destruct (head fl) as [s0|] eqn:Hh.
      - specialize (Hs1 u (epoch s0) H1 eq_refl). pose proof (head_lowest _ _ _ Hsf Hh Hs). lia.
      - destruct fl; [by apply elem_of_nil in Hs|done]. }
    split; [|by rewrite Hb]. rewrite Happ in Hd. set_solver.
Qed.
End Pure.

(** ** The transition system *)

Section Protocol.
Context {K : Type} `{OS K} (q : ptr).
Implicit Types (w : world K) (me u : ptr).

(** A critical section on the kqueue's mutex. *)
Definition crit (m : M (world K) unit) : M (world K) unit :=
  kqueue_lock q ;;; m ;;; kqueue_unlock q.

(** The process, the udatas registered with the kqueue's epoll set, and for
    every caller the addresses its last [epoll_wait] returned. *)
Record esys := ESys { es_w : world K; es_reg : gset ptr; es_buf : gmap ptr (list ptr) }.

Definition callers w : list ptr := default [] ((fun kq => ks_id <$> kq_inflight kq) <$> w_kqs w !! q).

(** [st_register] is EPOLL_CTL_ADD (or MOD) with a udata that is not stale,
    [st_unregister] EPOLL_CTL_DEL or the end of the descriptor, both possible at any
    time.  Retiring leaves the registrations alone; the rule the protocol relies on is
    that the udata is not registered any more. *)
Inductive estep : esys -> esys -> Prop :=
  | st_enter w w' reg buf kq me :
      w_kqs w !! q = Some kq -> me ∉ callers w -> room kq ->
      crit (linux_kevent_enter q me) w = Ret tt w' ->
      estep (ESys w reg buf) (ESys w' reg (<[me := []]> buf))
  | st_wait w reg buf me l :
      me ∈ callers w -> Forall (fun u => u ∈ reg) l ->
      estep (ESys w reg buf) (ESys w reg (<[me := l]> buf))
  | st_alloc w reg buf u ty b e :
      w_udatas w !! u = None ->
      estep (ESys w reg buf) (ESys (set_w_udatas (<[u := EpollUdata ty b false e]> (w_udatas w)) w) reg buf)
  | st_register w reg buf u d :
      w_udatas w !! u = Some d -> ud_stale d = false ->
      estep (ESys w reg buf) (ESys w ({[u]} ∪ reg) buf)
  | st_unregister w reg buf u :
      estep (ESys w reg buf) (ESys w (reg ∖ {[u]}) buf)
  | st_retire w w' reg buf me u :
      me ∈ callers w -> u ∉ reg ->
      crit (epoll_udata_defer_free q (Some u)) w = Ret tt w' ->
      estep (ESys w reg buf) (ESys w' reg buf)
  | st_exit w w' reg buf me :
      me ∈ callers w -> crit (linux_kevent_exit q me) w = Ret tt w' ->
      estep (ESys w reg buf) (ESys w' reg (delete me buf)).

(** [used] are the udatas in use; those registered are among them. *)
Definition sys_inv (s : esys) : Prop :=
  exists kq used, w_kqs (es_w s) !! q = Some kq /\ kq_locked kq = false /\
    einv (w_udatas (es_w s)) kq used (es_buf s) /\ es_reg s ⊆ used.

(** A fresh kqueue, without callers and queued udatas. *)
Definition sys_init (s : esys) : Prop :=
  exists kq, w_kqs (es_w s) !! q = Some kq /\ kq_locked kq = false /\ kq_inflight kq = [] /\
    ud_deferred_free kq = [] /\ kq_next_epoch kq = 0 /\ es_buf s = ∅ /\
    forall u, u ∈ es_reg s -> live_as (w_udatas (es_w s)) u false.

Lemma init_inv s : sys_init s -> sys_inv s.
Proof.
  intros (kq & E & Hl & Hf & Hd & Hn & Hb & Hr). exists kq, (es_reg s). split_and!; try done.
  unfold UINT64_MAX. split; rewrite ?Hf, ?Hd, ?Hn, ?Hb; simpl; try done; try lia; try constructor.
  all: intros; by match goal with Hx : _ ∈ [] |- _ => apply elem_of_nil in Hx end.
Qed.

Lemma callers_eq w kq : w_kqs w !! q = Some kq -> callers w = ks_id <$> kq_inflight kq.
Proof. intros E. unfold callers. by rewrite E. Qed.

(** Running a critical section from an unlocked kqueue. *)
Lemma crit_run (m : M (world K) unit) w kq (Q : world K -> Prop) :
  w_kqs w !! q = Some kq -> kq_locked kq = false ->
  wp m (fun _ w1 => exists kq1, w_kqs w1 !! q = Some kq1 /\ kq_locked kq1 = true /\
    Q (set_w_kqs (<[q := set_kq_locked false kq1]> (w_kqs w1)) w1))
    (set_w_kqs (<[q := set_kq_locked true kq]> (w_kqs w)) w) ->
  wp (crit m) (fun _ w' => Q w') w.
Proof.
  intros E Hl Hm. unfold crit. wp_simpl. eapply wp_kqueue_lock; [done..|]. wp_simpl.
  eapply wp_mono; [|exact Hm]. intros u w1 (kq1 & E1 & Hl1 & HQ). by eapply wp_kqueue_unlock.
Qed.

Lemma einv_locked m kq b reg buf : einv m kq reg buf -> einv m (set_kq_locked b kq) reg buf.
Proof. intros []. by split. Qed.

(** The invariant with the udatas [used] in use. *)
Definition used_inv w (used : gset ptr) (buf : gmap ptr (list ptr)) : Prop :=
  exists kq, w_kqs w !! q = Some kq /\ kq_locked kq = false /\ einv (w_udatas w) kq used buf.

Lemma crit_enter_ok w kq me reg buf :
  w_kqs w !! q = Some kq -> kq_locked kq = false -> einv (w_udatas w) kq reg buf ->
  me ∉ ks_id <$> kq_inflight kq -> room kq ->
  wp (crit (linux_kevent_enter q me)) (fun _ w' => used_inv w' reg (<[me := []]> buf)) w.
Proof.
  intros E Hl Hi Hme Hroom. apply (crit_run _ w kq (fun w' => used_inv w' reg (<[me := []]> buf))); [done..|].
  apply (enter_ok _ _ q me (set_kq_locked true kq)); [simpl; by rewrite lookup_insert_eq|done|apply Hi| | |].
  - intros u Hu. destruct (ei_def _ _ _ _ Hi u Hu) as ((d & Hd & _) & _). by eexists.
  - intros Hmax. simpl. rewrite lookup_insert_eq. eexists. split_and!; [done|done|].
    eexists. simpl. rewrite lookup_insert_eq. split_and!; [done|done|].
    change (set_kq_locked false _) with (entered me (set_kq_locked false kq)).
    apply einv_enter; [by apply einv_locked|done|]. pose proof (ei_next _ _ _ _ Hi). simpl in *. lia.
  - intros Hmax m' Hm. simpl. rewrite lookup_insert_eq. eexists. split_and!; [done|done|].
    eexists. simpl. rewrite lookup_insert_eq. split_and!; [done|done|].
    change (set_kq_locked false _) with (entered me (rebased (rebase_base (set_kq_locked false kq)) (set_kq_locked false kq))).
    destruct (einv_rebase (w_udatas w) m' (set_kq_locked false kq) reg buf) as [Hi' Hlt];
      [by apply einv_locked|done|done|done|]. apply einv_enter; [done| |done].
    simpl. by rewrite <- list_fmap_compose.
Qed.

Lemma crit_exit_ok w kq me reg buf :
  w_kqs w !! q = Some kq -> kq_locked kq = false -> einv (w_udatas w) kq reg buf ->
  me ∈ ks_id <$> kq_inflight kq ->
  wp (crit (linux_kevent_exit q me)) (fun _ w' => used_inv w' reg (delete me buf)) w.
Proof.
  intros E Hl Hi Hme. apply (crit_run _ w kq (fun w' => used_inv w' reg (delete me buf))); [done..|].
  apply (exit_ok _ _ q me (set_kq_locked true kq)); [simpl; by rewrite lookup_insert_eq|done|done|apply Hi| |].
  - intros u Hu. destruct (ei_def _ _ _ _ Hi u Hu) as ((d & Hd & _) & _). by eexists.
  - simpl. rewrite lookup_insert_eq. eexists. split_and!; [done|done|].
    eexists. simpl. rewrite lookup_insert_eq. split_and!; [done|done|].
    exact (einv_locked _ _ false _ _ (einv_exit (w_udatas w) kq reg buf me Hi)).
Qed.

Lemma crit_retire_ok w kq u reg buf :
  w_kqs w !! q = Some kq -> kq_locked kq = false -> einv (w_udatas w) kq reg buf ->
  kq_inflight kq <> [] -> u ∈ reg ->
  wp (crit (epoll_udata_defer_free q (Some u))) (fun _ w' => used_inv w' (reg ∖ {[u]}) buf) w.
Proof.
  intros E Hl Hi Hne Hu. apply (crit_run _ w kq (fun w' => used_inv w' (reg ∖ {[u]}) buf)); [done..|].
  destruct (ei_reg _ _ _ _ Hi u Hu) as (d & Hd & Hst). unfold epoll_udata_defer_free, put_ud. wp_simpl.
  eapply wp_mutex_assert; [simpl; by rewrite lookup_insert_eq|done|]. wp_simpl.
  eapply wp_get_ud; [exact Hd|]. wp_simpl. apply wp_assert. rewrite Hst. split; [done|]. wp_simpl.
  eapply wp_get_kq; [simpl; by rewrite lookup_insert_eq|]. wp_simpl.
  eapply wp_upd_kq; [simpl; by rewrite lookup_insert_eq|]. simpl. rewrite lookup_insert_eq.
  eexists. split_and!; [done|done|]. eexists. simpl. rewrite lookup_insert_eq. split_and!; [done|done|].
  exact (einv_locked _ _ false _ _ (einv_retire (w_udatas w) kq reg buf u d Hi Hu Hd Hne)).
Qed.

(** A udata that can be retired: [epoll_udata_defer_free] asserts that it is not stale. *)
Lemma retired_live w w' kq u :
  w_kqs w !! q = Some kq -> kq_locked kq = false ->
  crit (epoll_udata_defer_free q (Some u)) w = Ret tt w' -> live_as (w_udatas w) u false.
Proof.
  intros E Hl. unfold crit, kqueue_lock, epoll_udata_defer_free, kqueue_mutex_assert, assert_, get_kq, upd_kq, put_kq, get_ud,
    bind, gets, deref, modify. rewrite E. simpl. rewrite Hl. simpl. rewrite lookup_insert_eq. simpl.
  destruct (w_udatas w !! u) as [d|] eqn:Hd; [|done]. simpl. destruct (ud_stale d) eqn:Hs; [done|]. intros _. by exists d.
Qed.

Lemma used_sys w used reg buf : used_inv w used buf -> reg ⊆ used -> sys_inv (ESys w reg buf).
Proof. intros (kq & ? & ? & ?) ?. by exists kq, used. Qed.

Lemma estep_inv s s' : estep s s' -> sys_inv s -> sys_inv s'.
Proof.
  intros Hst (kq & used & E & Hl & Hi & Hsub). destruct Hst as [w w' reg buf kq0 me E0 Hme Hroom Hrun|w reg buf me l Hme Hf
    |w reg buf u ty b e Hu|w reg buf u d Hu Hd|w reg buf u|w w' reg buf me u Hme Hu Hrun|w w' reg buf me Hme Hrun]; simpl in *;
    try rewrite (callers_eq _ _ E) in Hme.
  - assert (kq0 = kq) as -> by congruence. eapply used_sys; [|done].
    exact (wp_Ret _ _ w tt w' (crit_enter_ok w kq me used buf E Hl Hi Hme Hroom) Hrun).
  - exists kq, used. split_and!; [done|done| |done]. apply einv_wait; [done|done|].
    eapply Forall_impl; [exact Hf|]. set_solver.
  - exists kq, used. split_and!; [done|done| |done]. by apply einv_alloc.
  - exists kq, ({[u]} ∪ used). split_and!; [done|done| |set_solver]. apply einv_grow; [done|]. by exists d.
  - exists kq, used. split_and!; try done. set_solver.
  - assert (Hne : kq_inflight kq <> []) by (intros Hnil; rewrite Hnil in Hme; by apply elem_of_nil in Hme).
    pose proof (einv_grow _ _ _ _ u Hi (retired_live w w' kq u E Hl Hrun)) as Hi'.
    eapply used_sys; [exact (wp_Ret _ _ w tt w' (crit_retire_ok w kq u _ buf E Hl Hi' Hne ltac:(set_solver)) Hrun)|set_solver].
  - eapply used_sys; [|done]. exact (wp_Ret _ _ w tt w' (crit_exit_ok w kq me used buf E Hl Hi Hme) Hrun).
Qed.

Lemma reach_inv s s' : sys_init s -> rtc estep s s' -> sys_inv s'.
Proof.
  intros Hi Hr. apply init_inv in Hi. revert Hi. induction Hr; [done|]. intros Hi. apply IHHr. by eapply estep_inv.
Qed.

(** C3: while a caller is inside [kevent()], every address its last wait returned
    is the address of a live udata, whatever the other callers have entered,
    registered, unregistered, retired or left in the meantime; it is stale exactly when
    it is queued to be freed.  The protocol takes two things: a udata is retired only
    once its registration has ended, and a caller enters only while there is room for
    its epoch (the counter is not at its maximum with the oldest caller at epoch 1). *)
Theorem epoch_no_use_after_free s0 s me l u kq :
  sys_init s0 -> rtc estep s0 s -> es_buf s !! me = Some l -> u ∈ l -> w_kqs (es_w s) !! q = Some kq ->
  exists d, w_udatas (es_w s) !! u = Some d /\ (ud_stale d = true <-> u ∈ ud_deferred_free kq).
Proof.
  intros Hi Hr Hb Hu E. destruct (reach_inv _ _ Hi Hr) as (kq' & used & E' & _ & [A B C D F G L M N O P] & _).
  assert (kq' = kq) as -> by congruence.
  pose proof (O me l Hb) as (x & -> & Hx)%list_elem_of_fmap. destruct (P x l u Hx Hb Hu) as [Hreg|[Hd _]].
  - destruct (N u Hreg) as (d & Hd & Hst). exists d. split; [done|]. split; [congruence|].
    intros Hin. destruct (G u Hin) as ((d' & Hd' & Hst') & _). congruence.
  - destruct (G u Hd) as ((d & Hd' & Hst) & _). by exists d.
Qed.

(** C27: when the last caller has left, no udata is queued any more: every one that
    was retired has been freed. *)
Theorem epoch_no_leak s0 s kq :
  sys_init s0 -> rtc estep s0 s -> w_kqs (es_w s) !! q = Some kq -> kq_inflight kq = [] ->
  ud_deferred_free kq = [].
Proof.
  intros Hi Hr E Hnil. destruct (reach_inv _ _ Hi Hr) as (kq' & used & E' & _ & Hei & _).
  assert (kq' = kq) as -> by congruence. by apply (ei_empty _ _ _ _ Hei).
Qed.

(** C28: entering (unless the epoch counter is at its maximum while the oldest
    caller has epoch 1), retiring a registered udata and leaving never fault. *)
Theorem epoch_progress s0 s kq me :
  sys_init s0 -> rtc estep s0 s -> w_kqs (es_w s) !! q = Some kq ->
  (me ∉ callers (es_w s) -> room kq -> exists w', crit (linux_kevent_enter q me) (es_w s) = Ret tt w') /\
  (me ∈ callers (es_w s) -> exists w', crit (linux_kevent_exit q me) (es_w s) = Ret tt w') /\
  (forall u, callers (es_w s) <> [] -> u ∈ es_reg s ->
     exists w', crit (epoll_udata_defer_free q (Some u)) (es_w s) = Ret tt w').
Proof.
  intros Hi Hr E. destruct (reach_inv _ _ Hi Hr) as (kq' & used & E' & Hl & Hei & Hsub).
  assert (kq' = kq) as -> by congruence. rewrite (callers_eq _ _ E). split_and!.
  - intros Hme Hroom. pose proof (crit_enter_ok _ _ me _ _ E Hl Hei Hme Hroom) as ([] & w' & Hw & _)%wp_elim. eauto.
  - intros Hme. pose proof (crit_exit_ok _ _ me _ _ E Hl Hei Hme) as ([] & w' & Hw & _)%wp_elim. eauto.
  - intros u Hne Hu. pose proof (crit_retire_ok _ _ u _ _ E Hl Hei) as Hx.
    destruct (proj1 (wp_elim _ _ _) (Hx ltac:(intros Hnil; by rewrite Hnil in Hne) (Hsub u Hu))) as ([] & w' & Hw & _). eauto.
Qed.
End Protocol.
