(* ===== verification/LinuxContracts.v ===== *)
(** * The Linux platform keeps the contracts of the common code

    [linux_kevent_enter], [linux_kevent_exit], [linux_kqueue_interrupt] and
    [linux_kqueue_free] against the clauses of [KeventContract], with [linux_inv]
    as the platform's invariant.  The filters' own contracts are with the
    filters. *)

From Stdlib Require Import ZArith Lia Bool.
From stdpp Require Import base list gmap.
From S2P Require Import Prelude RBTree Event Map State Ops Knote Filter Kqueue Kevent LinuxUdata LinuxEpoll LinuxShared LinuxRules LinuxEpoch LinuxUser LinuxKevent LinuxKqueue.

Section Contracts.
Context {K : Type} `{OS K} `{FilterList K}.
Implicit Types (w : world K) (p q me : ptr).

(** Changing the boundaries of udatas only. *)
Lemma li_udatas w m' :
  (forall u d, w_udatas w !! u = Some d -> exists d', m' !! u = Some d' /\
     (ud_type d', ud_back d', ud_stale d') = (ud_type d, ud_back d, ud_stale d)) ->
  (forall u, w_udatas w !! u = None -> m' !! u = None) ->
  linux_data w -> linux_data (set_w_udatas m' w).
Proof.
  intros Hm Hn [A B C D E F G L M N].
  assert (Hx : forall u ty b s, (exists e, w_udatas w !! u = Some (EpollUdata ty b s e)) ->
    exists e, m' !! u = Some (EpollUdata ty b s e)).
  { intros u ty b s (e & He). destruct (Hm u _ He) as ([ty' b' s' e'] & Hd' & [= -> -> ->]). by exists e'. }
  split; simpl; try done.
  - intros p kn u Hp Hk. by apply Hx, (A p kn).
  - intros s d u Hp Hk. by apply Hx, (B s d).
  - intros q kq u Hp Hk. by apply Hx, (C q kq).
  - intros q kq u Hq Hu. destruct (D q kq u Hq Hu) as (d & Hd & Hs).
    destruct (Hm u d Hd) as (d' & Hd' & [= _ _ Hs']). exists d'. split; [done|congruence].
  - intros p Hp. destruct (G p Hp) as [G1 G2]. split; [by apply Hn|done].
Qed.

Lemma moved_same base l m m' :
  moved base l m m' -> (forall u, u ∈ l -> is_Some (m !! u)) ->
  (forall u d, m !! u = Some d -> exists d', m' !! u = Some d' /\
     (ud_type d', ud_back d', ud_stale d') = (ud_type d, ud_back d, ud_stale d)) /\
  (forall u, m !! u = None -> m' !! u = None).
Proof.
  intros [Hm1 Hm2] Hl. split.
  - intros u d Hd. destruct (decide (u ∈ l)) as [Hu|Hu]; [|rewrite Hm1 by done; eauto].
    eexists. by rewrite (Hm2 u d Hu Hd).
  - intros u Hu. rewrite Hm1; [done|]. intros Hin. destruct (Hl u Hin) as [d Hd]. congruence.
Qed.

(** Freeing queued udatas of one kqueue. *)
Lemma li_sweep w q kq a b :
  linux_data w -> w_kqs w !! q = Some kq -> ud_deferred_free kq = a ++ b ->
  linux_data (set_w_kqs (<[q := set_ud_deferred_free b kq]> (w_kqs w))
    (set_w_udatas (dropped (w_udatas w) a) w)).
Proof.
  intros [A B C D E F G L M N] Hq Hab. pose proof (E q kq Hq) as Hnd. rewrite Hab in Hnd.
  apply NoDup_app in Hnd as (Ha & Hdis & Hb).
  assert (Hst : forall u ty b e, w_udatas w !! u = Some (EpollUdata ty b false e) -> u ∉ a).
  { intros u ty b' e Hu Hin. destruct (D q kq u Hq) as (d & Hd & Hs); [rewrite Hab; set_solver|]. by simplify_eq. }
  assert (Hx : forall u ty b, (exists e, w_udatas w !! u = Some (EpollUdata ty b false e)) ->
    exists e, dropped (w_udatas w) a !! u = Some (EpollUdata ty b false e)).
  { intros u ty b' (e & He). exists e. rewrite dropped_other; [done|by eapply Hst]. }
  assert (Hkq : forall r kr, <[q := set_ud_deferred_free b kq]> (w_kqs w) !! r = Some kr ->
    exists k0, w_kqs w !! r = Some k0 /\ kq_wake_udata kr = kq_wake_udata k0 /\ kq_fd_st kr = kq_fd_st k0 /\
      (r = q -> ud_deferred_free kr = b) /\ (r <> q -> ud_deferred_free kr = ud_deferred_free k0) /\
      forall u, u ∈ ud_deferred_free kr -> u ∈ ud_deferred_free k0 /\ u ∉ a).
  { intros r kr Hr. destruct (decide (r = q)) as [->|Hne].
    - rewrite lookup_insert_eq in Hr. simplify_eq. exists kq. split_and!; try done. simpl. intros u Hu.
      rewrite Hab. split; [set_solver|]. intros Hua. by apply (Hdis u).
    - rewrite lookup_insert_ne in Hr by done. exists kr. split_and!; try done. intros u Hu. split; [done|].
      intros Hua. apply Hne. apply (F r q kr kq u); [done..|]. rewrite Hab. set_solver. }
  split; simpl.
  - intros p kn u Hp Hk. by apply Hx, (A p kn).
  - intros s d u Hp Hk. by apply Hx, (B s d).
  - intros r kr u Hr Hk. destruct (Hkq r kr Hr) as (k0 & E0 & W0 & _). apply Hx, (C r k0); congruence.
  - intros r kr u Hr Hu. destruct (Hkq r kr Hr) as (k0 & E0 & _ & _ & _ & _ & Hsub).
    destruct (Hsub u Hu) as [Hu0 Hua]. rewrite dropped_other by done. by apply (D r k0).
  - intros r kr Hr. destruct (Hkq r kr Hr) as (k0 & E0 & _ & _ & H1 & H2 & _).
    destruct (decide (r = q)) as [->|Hne]; [by rewrite H1|]. rewrite H2 by done. by apply (E r).
  - intros r r' kr kr' u Hr Hr' Hu Hu'. destruct (Hkq r kr Hr) as (k0 & E0 & _ & _ & _ & _ & H1).
    destruct (Hkq r' kr' Hr') as (k0' & E0' & _ & _ & _ & _ & H1').
    apply (F r r' k0 k0' u); try done; [by apply H1|by apply H1'].
  - intros p Hp. destruct (G p Hp) as [G1 G2]. split; [|done].
    destruct (decide (p ∈ a)); [by apply dropped_in|by rewrite dropped_other].
  - intros r kr Hr. destruct (Hkq r kr Hr) as (k0 & E0 & _ & -> & _). by apply (L r).
  - intros r kr e Hr. destruct (Hkq r kr Hr) as (k0 & E0 & _ & -> & _). by apply M.
  - intros p kn s r kr Hp Hs Hk Hr. destruct (Hkq r kr Hr) as (k0 & E0 & _ & -> & _). by apply (N p kn s r).
Qed.

(** A change of a kqueue's members that neither invariant reads. *)
Lemma kq_keep w q kq kq' :
  winv w -> linux_inv w -> w_kqs w !! q = Some kq -> kq_filt kq' = kq_filt kq ->
  kq_knote_count kq' = kq_knote_count kq -> kq_view kq' = kq_view kq ->
  winv (set_w_kqs (<[q := kq']> (w_kqs w)) w) /\ linux_inv (set_w_kqs (<[q := kq']> (w_kqs w)) w).
Proof.
  intros Hw [Hi Hs] E Hf Hc Hv. split; [by eapply winv_kq|]. split; [|by eapply shared_kq].
  apply (li_views w); try done. simpl.
  rewrite fmap_insert, Hv. apply insert_id. by rewrite lookup_fmap, E.
Qed.

Lemma winv_udatas w m : winv w -> winv (set_w_udatas m w).
Proof. intros []. by split. Qed.

Lemma enter_contract w q me kq :
  winv w -> linux_inv w -> w_kqs w !! q = Some kq -> kq_locked kq = true -> usable kq ->
  wp (linux_kevent_enter q me) (fun _ w' => inside linux_inv w' q me true /\ w_mem w' = w_mem w /\
    w_mtx w' = w_mtx w /\ exists kq', w_kqs w' !! q = Some kq' /\
    kq_knote_count kq' = kq_knote_count kq) w.
Proof.
  intros Hw HI E Hl Hu. pose proof HI as [Hi Hsh].
  assert (Hlive : forall u, u ∈ ud_deferred_free kq -> is_Some (w_udatas w !! u)).
  { intros u Hin. destruct (li_def _ Hi q kq u E Hin) as (d & Hd & _). by eexists. }
  assert (Hpost : forall m' kq', linux_inv (set_w_udatas m' w) -> kq_locked kq' = true ->
    kq_filt kq' = kq_filt kq -> kq_knote_count kq' = kq_knote_count kq -> kq_view kq' = kq_view kq ->
    me ∈ ks_id <$> kq_inflight kq' ->
    let w' := set_w_kqs (<[q := kq']> (w_kqs w)) (set_w_udatas m' w) in
    inside linux_inv w' q me true /\ w_mem w' = w_mem w /\ w_mtx w' = w_mtx w /\
    exists kq', w_kqs w' !! q = Some kq' /\ kq_knote_count kq' = kq_knote_count kq).
  { intros m' kq' Hi' Hl' Hf Hc Hv Hin w'.
    destruct (kq_keep _ q kq kq' (winv_udatas w m' Hw) Hi' E Hf Hc Hv) as [Hw'' Hi''].
    assert (E' : w_kqs w' !! q = Some kq') by (simpl; by rewrite lookup_insert_eq).
    split_and!; [|done|done|by exists kq']. split_and!; [done|done|]. exists kq'. split_and!; try done.
    intros i x Hx. rewrite Hf in Hx. by apply Hu. }
  apply (enter_ok _ w q me kq); try done; [by apply (li_nodup _ Hi q)| |].
  - intros _. replace w with (set_w_udatas (w_udatas w) w) at 2 by (by destruct w). apply Hpost; try done.
    + by destruct w.
    + simpl. rewrite fmap_app. set_solver.
  - intros _ m' Hm. destruct (moved_same _ _ _ _ Hm Hlive). apply Hpost; try done; [split; [by apply li_udatas|by apply (shared_same None w)]|].
    simpl. rewrite fmap_app. set_solver.
Qed.

Lemma exit_contract w q me kq :
  inside linux_inv w q me true -> w_kqs w !! q = Some kq ->
  wp (linux_kevent_exit q me) (fun _ w' => winv w' /\ linux_inv w' /\ w_mtx w' = w_mtx w /\
    exists kq', w_kqs w' !! q = Some kq' /\ kq_locked kq' = true /\ usable kq' /\
      kq_freeing kq' = kq_freeing kq /\
      ks_id <$> kq_inflight kq' = base.filter (fun r => r <> me) (ks_id <$> kq_inflight kq)) w.
Proof.
  intros (Hw & HI & kq0 & E0 & Hl & Hu & Hin) E. assert (kq0 = kq) as -> by congruence.
  pose proof HI as [Hi Hsh].
  apply (exit_ok _ w q me kq); try done; [by apply (li_nodup _ Hi q)| |].
  { intros u Hud. destruct (li_def _ Hi q kq u E Hud) as (d & Hd & _). by eexists. }
  intros fl sp. set (kq1 := set_kq_inflight fl kq).
  destruct (kq_keep w q kq kq1 Hw HI E eq_refl eq_refl eq_refl) as [Hw1 [Hi1 _]].
  assert (E1 : <[q := kq1]> (w_kqs w) !! q = Some kq1) by (by rewrite lookup_insert_eq).
  pose proof (li_sweep _ q kq1 sp.1 sp.2 Hi1 E1 (sweep_split_app (w_udatas w) (epoch <$> head fl) (ud_deferred_free kq))) as Hi2.
  simpl in Hi2. rewrite insert_insert_eq in Hi2. split_and!; [|split; [exact Hi2|by eapply (shared_kq None w)]|done|].
  - apply (winv_kq (set_w_udatas _ w) q kq); try done. by apply winv_udatas.
  - eexists. simpl. rewrite lookup_insert_eq. split_and!; try done. simpl. apply others_ids.
Qed.

Lemma interrupt_contract w q :
  is_Some (w_kqs w !! q) ->
  wp (linux_kqueue_interrupt q) (fun _ w' => exists k e, w' = set_w_os k (set_w_errno e w)) w.
Proof.
  intros [kq E]. unfold linux_kqueue_interrupt. wp_go.
  destruct (pipefd1 kq <? 0); [wp_simpl; exists (w_os w), (w_errno w); by destruct w|]. wp_simpl.
  apply wp_sys; intros; wp_simpl; [exists k, (w_errno w); by destruct w|by exists k, e].
Qed.

(** ** Waiting *)

(** A step that changes the kernel, errno and the event buffer only. *)
Definition calm w w' : Prop := exists k e b, w' = set_w_os k (set_w_errno e (set_w_evbuf b w)).

Lemma calm_refl w : calm w w.
Proof. exists (w_os w), (w_errno w), (w_evbuf w). by destruct w. Qed.

Lemma calm_sys {A : Type} (c : syscall A) (Q : option A -> world K -> Prop) w0 w :
  calm w0 w -> (forall r w', calm w0 w' -> Q r w') -> wp (sys c) Q w.
Proof.
  intros (k & e & b & ->) HQ. apply wp_sys; intros; apply HQ; [exists k0, e, b|exists k0, e0, b]; done.
Qed.

Lemma epoll_wait_calm w epfd n t w0 :
  calm w0 w -> wp (do_epoll_wait epfd n t) (fun _ w' => calm w0 w') w.
Proof.
  intros Hc. unfold do_epoll_wait. wp_simpl. eapply calm_sys; [exact Hc|]. intros [evs|] w1 Hc1; wp_simpl; [|done].
  destruct Hc1 as (k & e & b & ->). by exists k, e, evs.
Qed.

Lemma wait_timeout_ok (ts : timespec) (Q : Z -> world K -> Prop) w :
  timeout_ok (Some ts) -> (forall t, Q t w) -> wp (wait_timeout ts) Q w.
Proof.
  intros [H1 H2] HQ. unfold wait_timeout.
  pose proof (Z.quot_pos (tv_nsec ts) 1000000 ltac:(lia) ltac:(lia)).
  pose proof (Z.quot_lt (tv_nsec ts) 1000000) as Hlt.
  assert (tv_nsec ts ÷ 1000000 <= tv_nsec ts) by (destruct (decide (tv_nsec ts = 0)) as [->|]; [done|lia]).
  unfold s64. rewrite !signed_id by lia. rewrite !bool_decide_eq_true_2 by done. simpl. wp_simpl. apply HQ.
Qed.

Lemma wait_calm w q n ts :
  is_Some (w_kqs w !! q) -> timeout_ok ts -> wp (linux_kevent_wait q n ts) (fun _ w' => calm w w') w.
Proof.
  intros [kq E] Hts. pose proof (calm_refl w) as Hc. unfold linux_kevent_wait. wp_go.
  destruct ts as [t|]; [|by apply epoll_wait_calm]. destruct (negb _).
  - unfold linux_kevent_wait_hires. wp_go. eapply calm_sys; [exact Hc|]. intros r w1 Hc1. wp_simpl.
    destruct (_ <=? 0); [by wp_simpl|by apply epoll_wait_calm].
  - wp_simpl. apply wait_timeout_ok; [done|]. intros t'. by apply epoll_wait_calm.
Qed.

Lemma calm_inside w w' q me b : calm w w' -> inside linux_inv w q me b -> inside linux_inv w' q me b.
Proof.
  intros (k & e & bf & ->) (Hw & Hi & Hr). split_and!; [|eapply pi_stable; [exact Hi|by split]|exact Hr].
  destruct Hw. by split.
Qed.

(** ** Freeing a kqueue *)

Context (fuel : nat).

(** The kqueue [q], being freed since [w0], is now [kq]. *)
Record kst w0 q (kq : kqueue) w : Prop :=
  { ks_winv : winv w;
    ks_inv : linux_inv w;
    ks_mtx : globals w = globals w0;
    ks_knotes : w_knotes w = w_knotes w0;
    ks_kq : w_kqs w !! q = Some kq }.

Lemma kst_os w0 q kq w k e : kst w0 q kq w -> kst w0 q kq (set_w_os k (set_w_errno e w)).
Proof.
  intros [A B C D E]. split; try done; [destruct A; by split|]. eapply pi_stable; [exact B|]. by split.
Qed.

Lemma ks_sys {A : Type} (c : syscall A) (Q : option A -> world K -> Prop) w0 q kq w :
  kst w0 q kq w -> (forall r w', kst w0 q kq w' -> Q r w') -> wp (sys c) Q w.
Proof.
  intros Hs HQ. apply wp_sys; intros; apply HQ.
  - exact (kst_os _ _ _ _ k (w_errno w) Hs).
  - exact (kst_os _ _ _ _ k e Hs).
Qed.

Lemma ks_upd g (Q : unit -> world K -> Prop) w0 q kq w :
  kst w0 q kq w -> kq_filt (g kq) = kq_filt kq -> kq_knote_count (g kq) = kq_knote_count kq ->
  kq_view (g kq) = kq_view kq -> (forall w', kst w0 q (g kq) w' -> Q tt w') -> wp (upd_kq q g) Q w.
Proof.
  intros [A B C D E] Hf Hc Hv HQ. eapply wp_upd_kq; [exact E|]. apply HQ.
  destruct (kq_keep w q kq (g kq) A B E Hf Hc Hv). split; try done. simpl. by rewrite lookup_insert_eq.
Qed.

Lemma ks_get (Q : kqueue -> world K -> Prop) w0 q kq w : kst w0 q kq w -> Q kq w -> wp (get_kq q) Q w.
Proof. intros Hs HQ. by eapply wp_get_kq; [apply Hs|]. Qed.

Lemma ks_drain fd n (Q : unit -> world K -> Prop) w0 q kq w :
  (forall w, wp (drain_pipe fuel fd n) (fun _ w' => exists k e, w' = set_w_os k (set_w_errno e w)) w) ->
  kst w0 q kq w -> (forall w', kst w0 q kq w' -> Q tt w') -> wp (drain_pipe fuel fd n) Q w.
Proof.
  intros Hd Hs HQ. eapply wp_mono; [|apply Hd]. intros [] w' (k & e & ->). apply HQ. by apply kst_os.
Qed.

Lemma ks_free_deferred l : forall (Q : unit -> world K -> Prop) w0 q kq w,
  kst w0 q kq w -> ud_deferred_free kq = l ->
  (forall w', kst w0 q (set_ud_deferred_free [] kq) w' -> Q tt w') -> wp (free_deferred q l) Q w.
Proof.
  induction l as [|u l IH]; intros Q w0 q kq w Hs Hl HQ; simpl.
  - wp_simpl. apply HQ. replace (set_ud_deferred_free [] kq) with kq; [done|]. destruct kq; simpl in *. by subst.
  - pose proof Hs as [A B C D E]. destruct (li_def _ (li_data _ B) q kq u E) as (d & Hd & _); [rewrite Hl; set_solver|].
    wp_simpl. eapply wp_upd_kq; [exact E|]. unfold free_ud. wp_simpl. eapply wp_get_ud; [exact Hd|]. wp_simpl.
    apply (IH _ w0 q (set_ud_deferred_free l kq)); [|done|done].
    split; try done.
    + apply (winv_kq (set_w_udatas _ w) q kq); try done. by apply winv_udatas.
    + split; [exact (li_sweep w q kq [u] l (li_data _ B) E Hl)|eapply shared_kq; [exact E| | | |apply B]; done].
    + simpl. by rewrite lookup_insert_eq.
Qed.

Lemma ks_free_wake u (Q : unit -> world K -> Prop) w0 q kq w :
  kst w0 q kq w -> kq_wake_udata kq = Some u ->
  (forall w', kst w0 q (set_kq_wake_udata None kq) w' -> Q tt w') ->
  wp (free_ud u ;;; upd_kq q (set_kq_wake_udata None)) Q w.
Proof.
  intros [A [B Bs] C D E] Hu HQ. destruct (li_wake _ B q kq u E Hu) as (e & He). unfold free_ud. wp_simpl.
  eapply wp_get_ud; [exact He|]. wp_simpl. eapply wp_upd_kq; [simpl; exact E|]. apply HQ.
  set (w1 := set_w_kqs (<[q := set_kq_wake_udata None kq]> (w_kqs w)) w).
  assert (Hi1 : linux_data w1).
  { destruct B as [B1 B2 B3 B4 B5 B6 B7 B8 B9 B10]. unfold w1. split; simpl; try done.
    - intros r kr v Hr Hv. destruct (decide (r = q)) as [->|Hne]; simplify_map_eq. by apply (B3 r kr).
    - intros r kr v Hr Hv. destruct (decide (r = q)) as [->|Hne]; simplify_map_eq; [by apply (B4 q kq)|by apply (B4 r kr)].
    - intros r kr Hr. destruct (decide (r = q)) as [->|Hne]; simplify_map_eq; [by apply (B5 q kq)|by apply (B5 r kr)].
    - intros r r' kr kr' v Hr Hr' Hv Hv'. destruct (decide (r = q)) as [->|Hne], (decide (r' = q)) as [->|Hne'];
        simplify_map_eq; [done|by apply (B6 q r' kq kr' v)|by apply (B6 r q kr kq v)|by apply (B6 r r' kr kr' v)].
    - intros r kr Hr. destruct (decide (r = q)) as [->|Hne]; simplify_map_eq; [by apply (B8 q kq)|by apply (B8 r kr)].
    - intros r kr e' Hr He'. destruct (decide (r = q)) as [->|Hne]; simplify_map_eq; [by apply (B9 q kq)|by apply (B9 r kr)].
    - intros p kn s r kr Hp Hs Hk Hr. destruct (decide (r = q)) as [->|Hne]; simplify_map_eq;
        [by apply (B10 p kn s q kq)|by apply (B10 p kn s r kr)]. }
  split; try done.
  - apply (winv_kq (set_w_udatas _ w) q kq); try done. by apply winv_udatas.
  - split; [|by eapply shared_kq]. apply (li_drop_ud w1 u Hi1).
    + split; simpl.
      * intros p kn Hp Hk. destruct (li_kn _ B p kn u Hp Hk) as (e' & He'). congruence.
      * intros s d Hd Hk. destruct (li_fds _ B s d u Hd Hk) as (e' & He'). congruence.
      * intros r kr Hr Hk. destruct (decide (r = q)) as [->|Hne]; simplify_map_eq.
        destruct (li_wake _ B r kr u Hr Hk) as (e' & He'). congruence.
    + intros r kr Hr Hin. destruct (li_def _ Hi1 r kr u Hr Hin) as (d & Hd & Hs). simpl in Hd. by simplify_eq.
  - simpl. by rewrite lookup_insert_eq.
Qed.

(** The kernel empties the close-detection pipe within the fuel. *)
Hypothesis pipe_drains : forall fd n w,
  wp (drain_pipe fuel fd n) (fun _ w' => exists k e, w' = set_w_os k (set_w_errno e w)) w.

Lemma free_contract w q kq :
  winv w -> linux_inv w -> w_kqs w !! q = Some kq -> kq_locked kq = true -> kq_inflight kq = [] ->
  wp (linux_kqueue_free fuel q) (fun _ w' => winv w' /\ linux_inv w' /\ globals w' = globals w /\
    w_knotes w' = w_knotes w /\
    exists kq', w_kqs w' !! q = Some kq' /\ kq_locked kq' = true /\ kq_filt kq' = kq_filt kq /\
    kq_knote_count kq' = kq_knote_count kq) w.
Proof.
  intros Hw Hi E Hl Hnil. assert (Hs : kst w q kq w) by (by split). unfold linux_kqueue_free. wp_simpl.
  eapply ks_get; [exact Hs|]. wp_simpl.
  apply (wp_mono _ (fun _ w' => exists kq', kst w q kq' w' /\
    (kq_locked kq', kq_filt kq', kq_knote_count kq', kq_inflight kq') =
    (kq_locked kq, kq_filt kq, kq_knote_count kq, kq_inflight kq))).
  2: { destruct (0 <? epollfd kq); [|wp_simpl; eauto]. wp_simpl. eapply ks_sys; [exact Hs|]. intros r w1 Hs1.
       wp_simpl. eapply ks_upd; [exact Hs1|done..|]. intros w2 Hs2. eexists. split; [exact Hs2|done]. }
  intros u w1 (kq1 & Hs1 & Heq1). wp_simpl. eapply ks_sys; [exact Hs1|]. intros r w2 Hs2. unfold errno. wp_simpl.
  apply (wp_mono _ (fun _ w' => exists kq', kst w q kq' w' /\
    (kq_locked kq', kq_filt kq', kq_knote_count kq', kq_inflight kq') =
    (kq_locked kq, kq_filt kq, kq_knote_count kq, kq_inflight kq))).
  2: { destruct r as [n|].
       - destruct (0 <? n); [|wp_simpl; eauto]. eapply ks_drain; [intros w'; apply pipe_drains|exact Hs2|]. eauto.
       - destruct (w_errno w2 =? EAGAIN); [|wp_simpl; eauto]. wp_simpl. eapply ks_sys; [exact Hs2|].
         intros r w3 Hs3. wp_simpl. eapply ks_upd; [exact Hs3|done..|]. intros w4 Hs4. eexists. split; [exact Hs4|done]. }
  intros u2 w3 (kq3 & Hs3 & Heq3). wp_simpl.
  apply (wp_mono _ (fun _ w' => exists kq', kst w q kq' w' /\
    (kq_locked kq', kq_filt kq', kq_knote_count kq', kq_inflight kq') =
    (kq_locked kq, kq_filt kq, kq_knote_count kq, kq_inflight kq))).
  2: { destruct (0 <? pipefd0 kq); [|wp_simpl; eauto]. wp_simpl.
       apply (wp_mono _ (fun _ w' => kst w q kq3 w')).
       - intros _ w4 Hs4. wp_simpl. eapply ks_sys; [exact Hs4|]. intros r4 w5 Hs5. wp_simpl.
         eapply ks_upd; [exact Hs5|done..|]. intros w6 Hs6. eexists. split; [exact Hs6|done].
       - destruct (0 <=? w_mon_epfd w3); [|by wp_simpl]. unfold epoll_ctl. wp_simpl.
         eapply ks_sys; [exact Hs3|]. intros r4 w4 Hs4. by wp_simpl. }
  intros u4 w4 (kq4 & Hs4 & Heq4). wp_simpl. eapply ks_get; [exact Hs4|]. wp_simpl.
  injection Heq4 as Hl4 Hf4 Hc4 Hin4. apply wp_assert. rewrite Hin4, Hnil. split; [done|]. wp_simpl.
  eapply ks_free_deferred; [exact Hs4|done|]. intros w5 Hs5. wp_simpl. eapply ks_get; [exact Hs5|].
  assert (Hfin : forall kq' w', kst w q kq' w' -> kq_locked kq' = kq_locked kq4 -> kq_filt kq' = kq_filt kq4 ->
    kq_knote_count kq' = kq_knote_count kq4 -> winv w' /\ linux_inv w' /\ globals w' = globals w /\
    w_knotes w' = w_knotes w /\ exists kq', w_kqs w' !! q = Some kq' /\ kq_locked kq' = true /\
      kq_filt kq' = kq_filt kq /\ kq_knote_count kq' = kq_knote_count kq).
  { intros kq' w' [A B C D F] G1 G2 G3. split_and!; try done. exists kq'. split_and!; congruence. }
  simpl. destruct (kq_wake_udata kq4) as [uw|] eqn:Huw.
  - eapply ks_free_wake; [exact Hs5|done|]. intros w6 Hs6. by eapply Hfin.
  - wp_simpl. by eapply Hfin.
Qed.

(** ** The vtable *)

(** Delivery of what is [ready] keeps the contract. *)
Context (ndebug : bool) (ready : world K -> ptr -> Z -> Prop).
Hypothesis copyout_ok : forall w q me nready el n, inside linux_inv w q me true -> 0 < nready ->
  ready w q nready -> 0 < n -> (forall a, el <= a < el + n -> is_Some (w_mem w !! a)) ->
  wp (linux_kevent_copyout ndebug fuel q nready el n) (fun rv w' => inside linux_inv w' q me true /\
    w_mtx w' = w_mtx w /\ -1 <= rv <= n) w.

#[export] Instance linux_vtable_contract : VtableContract linux_inv (kqops ndebug fuel).
Proof. by split. Qed.

Definition linux_kevent_contract : KeventContract (kqops ndebug fuel) linux_inv.
Proof.
  refine {| kc_ready := ready |}.
  - intros. by eapply enter_contract.
  - intros w q me n ts Hin Hts.
    assert (Hq : is_Some (w_kqs w !! q)) by (destruct Hin as (_ & _ & kq & E & _); by exists kq).
    eapply wp_mono; [|exact (wait_calm w q n ts Hq Hts)].
    intros rv w' Hc. pose proof Hc as (k & e & b & ->). split_and!; try done. by eapply calm_inside.
  - exact copyout_ok.
  - intros. by eapply exit_contract.
  - intros m w q [= <-] Hq. by apply interrupt_contract.
  - intros w q kq Hw Hi E Hl Hnil _. by apply free_contract.
Defined.
End Contracts.
