(* ===== verification/LinuxBuild.v ===== *)
(** * A Linux build: its list of filters and their contract

    [filter_list.h] of a Linux build, with the filters whose contract is proved
    here: read, write, vnode, proc, timer, user and libkqueue.  A filter's delivery deletes or
    disables a knote through the list again, so the list is tied with an
    unfolding depth: the callbacks that common code calls do not consult the list
    ([callbacks_closed]), so depth 2 already behaves like every greater one. *)

From Stdlib Require Import ZArith Lia Bool.
From stdpp Require Import base list gmap.
From S2P Require Import Prelude RBTree Event Map State Ops Knote Filter Kqueue Kevent LibkqueueFilter LinuxUdata LinuxEpoll LinuxShared LinuxRules LinuxTimer LinuxUser LinuxProc LinuxReadWrite LinuxVnode LinuxKevent LinuxKqueue LinuxSocket LinuxUpdate LinuxRWContract.

Section Build.
Context {K : Type} `{OS K} `{!SocketKernel K} (C : version) (ndebug : bool) (fuel : nat).

(** The list over the list [L] that the deliveries of its filters consult. *)
Definition filters_over (L : FilterList K) : list (filter_src K) :=
  [evfilt_read; evfilt_write; evfilt_vnode fuel; evfilt_proc; evfilt_timer; evfilt_user;
   evfilt_libkqueue (kqops ndebug fuel) C].

Fixpoint linux_filters (depth : nat) : FilterList K :=
  match depth with O => [] | S d => filters_over (linux_filters d) end.

(** The callbacks of a filter other than its delivery. *)
Definition callbacks (s : filter_src K) :=
  (fs_id s, kf_init (fs_ops s), kf_destroy (fs_ops s), kn_create (fs_ops s), kn_modify (fs_ops s),
   kn_delete (fs_ops s), kn_enable (fs_ops s), kn_disable (fs_ops s)).

Lemma libkqueue_closed (V V' : kqueue_vtable K) :
  kqops_set_file_poll_interval V = kqops_set_file_poll_interval V' ->
  callbacks (evfilt_libkqueue V C) = callbacks (evfilt_libkqueue V' C).
Proof.
  intros Hv. unfold callbacks, evfilt_libkqueue.
  cbn [fs_id fs_ops kf_init kf_destroy kn_create kn_modify kn_delete kn_enable kn_disable].
  assert (common_libkqueue_knote_create V C = common_libkqueue_knote_create V' C) as Hc
    by (unfold common_libkqueue_knote_create; rewrite Hv; reflexivity).
  unfold common_libkqueue_knote_modify. rewrite Hc. reflexivity.
Qed.

Lemma no_poll_interval (L : FilterList K) : kqops_set_file_poll_interval (kqops ndebug fuel) = None.
Proof. reflexivity. Qed.

Lemma callbacks_closed L L' : callbacks <$> filters_over L = callbacks <$> filters_over L'.
Proof.
  unfold filters_over. cbn [fmap list_fmap].
  rewrite (libkqueue_closed (kqops (H0 := L) ndebug fuel) (kqops (H0 := L') ndebug fuel)
    (eq_trans (no_poll_interval L) (eq_sym (no_poll_interval L')))).
  unfold callbacks. cbn [fs_id fs_ops kf_init kf_destroy kn_create kn_modify kn_delete kn_enable kn_disable
    evfilt_read evfilt_write evfilt_vnode evfilt_proc evfilt_timer evfilt_user].
  reflexivity.
Qed.

Lemma filters_over_contract L :
  Forall (fun s => FilterContract linux_inv (Z.to_nat (Z.lnot (fs_id s))) (fs_ops s)) (filters_over L).
Proof.
  unfold filters_over. repeat apply List.Forall_cons; try apply List.Forall_nil.
  - exact read_contract.
  - exact write_contract.
  - exact (vnode_contract fuel).
  - exact proc_contract.
  - exact timer_contract.
  - exact user_contract.
  - apply (libkqueue_contract (kqops ndebug fuel) C linux_inv). intros m w p q v Hm. discriminate Hm.
Qed.

#[export] Instance linux_build d : BuildContract (H := linux_filters d) linux_inv.
Proof.
  split; [exact _|]. intros i id o Ho Hi. unfold ops_table in Ho.
  apply fmap_Some in Ho as (s & Hs & ->). destruct d as [|d]; [discriminate Hs|].
  apply find_some in Hs as [Hin Hid%Z.eqb_eq].
  pose proof (filters_over_contract (linux_filters d)) as Hall. rewrite List.Forall_forall in Hall.
  specialize (Hall s Hin). simpl in Hall. rewrite Hid, Hi, Nat2Z.id in Hall. exact Hall.
Qed.

End Build.
