(* ===== verification/LinuxDeliver.v ===== *)
(** * Delivery on Linux keeps what later events of the same batch need

    [linux_kevent_copyout] of src/linux/platform.c walks the events that one
    [epoll_wait] returned.  Delivering an event may disable, delete and free its
    knote, while later events of the batch still hold addresses of udatas.  Here:
    what disabling and deleting a knote do to other knotes and their udatas
    ([KeepContract]), and that the copyout of every filter of the Linux build runs
    without a fault and leaves everything but its own knote deliverable
    ([CopyoutContract]). *)

From Stdlib Require Import ZArith Lia Bool.
From stdpp Require Import base list gmap.
From S2P Require Import Prelude RBTree Event Map State Ops Knote Filter Kqueue Kevent LibkqueueFilter LinuxUdata LinuxEpoll LinuxShared LinuxRules LinuxTimer LinuxUser LinuxProc LinuxReadWrite LinuxSocket LinuxUpdate LinuxRWContract LinuxVnode LinuxKevent.

(** ** Disabling and deleting *)

Class KeepContract {K : Type} (i : nat) (o : filter_ops K) : Prop :=
  { kp_delete : forall w0 w q p, winv w0 -> linux_inv w0 -> unlinking q i p w0 w -> cb_pre w q i p ->
      wp (kn_delete o (q, i) p) (fun _ w' => keep p w w') w;
    kp_disable : forall w q p, winv w -> linux_inv w -> cb_pre w q i p -> listed w q i p ->
      wp (kn_disable o (q, i) p) (fun _ w' => keep p w w') w }.

(** Every filter of the build does. *)
Class KeepBuild {K : Type} `{FilterList K} : Prop :=
  { kb_build :: BuildContract (K := K) linux_inv;
    kb_filter : forall i id o, ops_table id = Some o -> Z.lnot id = Z.of_nat i -> KeepContract i o }.
Arguments KeepBuild K {_}.

Section Own.
Context {K : Type} `{OS K}.
Implicit Types (w : world K) (p q : ptr).

(** A filter with a registration per knote. *)
Lemma own_keep (i : nat) (o : filter_ops K) :
  (1 < i)%nat ->
  (forall w0 q p kn w, cbst w0 q p kn w -> wp (kn_delete o (q, i) p) (fun _ w' => exists kn', cbst w0 q p kn' w') w) ->
  (forall w0 q p kn w, cbst w0 q p kn w -> wp (kn_disable o (q, i) p) (fun _ w' => exists kn', cbst w0 q p kn' w') w) ->
  KeepContract i o.
Proof.
  intros Hi Hde Hdi. split.
  - intros w0 w q p _ HI0 Hun Hcb. pose proof Hcb as (_ & _ & kn0 & _ & _ & _ & Ek & _ & Hfi & _).
    assert (Ek0 : w_knotes w0 !! p = Some kn0)
      by (by destruct Hun as (? & ? & ? & ? & ? & ? & ? & ? & ? & ? & -> & ?)).
    assert (HI : linux_inv w) by (eapply (pi_unlink w0 w); [done..| |];
      unfold EVFILT_READ, EVFILT_WRITE, Z.lnot in *; lia).
    destruct (cbst_start w q i p (li_data _ HI) Hcb) as (kn & Hs & _).
    eapply wp_mono; [|by eapply Hde]. intros _ w' (kn' & Hs'). apply Hs'.
  - intros w q p _ HI Hcb _. destruct (cbst_start w q i p (li_data _ HI) Hcb) as (kn & Hs & _).
    eapply wp_mono; [|by eapply Hdi]. intros _ w' (kn' & Hs'). apply Hs'.
Qed.

Context `{FilterList K}.

#[export] Instance timer_keep : KeepContract 6 (fs_ops evfilt_timer).
Proof. apply own_keep; [lia|..]; intros; (eapply wp_mono; [|by eapply timer_delete_ok]); naive_solver. Qed.

#[export] Instance user_keep : KeepContract 10 (fs_ops evfilt_user).
Proof.
  apply own_keep; [lia|..]; intros.
  - eapply wp_mono; [|by eapply user_delete_ok]. naive_solver.
  - eapply wp_mono; [|by eapply user_disable_ok]. intros ? w' Hs'. by exists kn.
Qed.

#[export] Instance proc_keep : KeepContract 4 (fs_ops evfilt_proc).
Proof.
  apply own_keep; [lia|..]; intros.
  - simpl. unfold evfilt_proc_knote_delete. wp_simpl. eapply wp_mono; [|by eapply proc_disarm_ok].
    intros [] w' Hs'. by wp_simpl.
  - eapply wp_mono; [|by eapply proc_disable_ok]. intros ? w' Hs'. by exists kn.
Qed.

#[export] Instance vnode_keep fuel : KeepContract 3 (fs_ops (evfilt_vnode fuel)).
Proof. apply own_keep; [lia|..]; intros; (eapply wp_mono; [|by eapply delete_watch_ok]); naive_solver. Qed.

#[export] Instance libkqueue_keep (V : kqueue_vtable K) C : KeepContract 11 (fs_ops (evfilt_libkqueue V C)).
Proof. split; intros; unfold wp; simpl; reflexivity. Qed.

#[export] Instance read_keep `{!SocketKernel K} : KeepContract 0 (fs_ops evfilt_read).
Proof.
  split; intros.
  - eapply wp_mono; [|by eapply (rw_delete_ok w0 w q p Rd)]. naive_solver.
  - eapply wp_mono; [|by eapply (rw_disable_ok w q p Rd)]. naive_solver.
Qed.

#[export] Instance write_keep `{!SocketKernel K} : KeepContract 1 (fs_ops evfilt_write).
Proof.
  split; intros.
  - eapply wp_mono; [|by eapply (rw_delete_ok w0 w q p Wr)]. naive_solver.
  - eapply wp_mono; [|by eapply (rw_disable_ok w q p Wr)]. naive_solver.
Qed.
End Own.

(** ** What a delivery leaves behind *)

(** A step on the knote [p] of [q], up to the caller's memory: other knotes are the
    same and keep their place, and udatas that do not belong to [p] are kept. *)
Record passed {K : Type} (p q : ptr) (w w' : world K) : Prop :=
  { pa_winv : winv w';
    pa_inv : linux_inv w';
    pa_step : stepm q w w';
    pa_mem : forall a, is_Some (w_mem w !! a) -> is_Some (w_mem w' !! a);
    pa_keep : keep p w w';
    pa_kn : forall r, r <> p -> w_knotes w' !! r = w_knotes w !! r;
    pa_index : forall i e, indexed w q i e -> e_ptr e <> p -> indexed w' q i e }.

Section Passed.
Context {K : Type} `{OS K} `{FilterList K}.
Implicit Types (w : world K) (p q : ptr).

Lemma passed_refl p q w : winv w -> linux_inv w -> passed p q w w.
Proof. intros Hw HI. split; try done. Qed.

Lemma passed_trans p q w1 w2 w3 : passed p q w1 w2 -> passed p q w2 w3 -> passed p q w1 w3.
Proof.
  intros [A1 B1 C1 D1 E1 F1 G1] [A2 B2 C2 D2 E2 F2 G2]. split; try done.
  - by eapply stepm_trans.
  - intros a Ha. by apply D2, D1.
  - by etrans.
  - intros r Hr. by rewrite F2, F1.
  - intros i e He Hne. by apply G2; [apply G1|].
Qed.

(** A step of common code on [q] that leaves memory alone. *)
Lemma passed_step p q w w' :
  winv w' -> linux_inv w' -> step_q q w w' -> keep p w w' ->
  (forall r, r <> p -> w_knotes w' !! r = w_knotes w !! r) ->
  (forall i e, indexed w q i e -> e_ptr e <> p -> indexed w' q i e) -> passed p q w w'.
Proof.
  intros Hw HI Hs Hk Hn Hi. split; try done.
  - unfold stepm. destruct Hs. by split.
  - intros a. by rewrite (sq_mem _ _ _ Hs).
Qed.

Context `{!KeepBuild K}.

(** [knote_disable] keeps the udatas of others. *)
Lemma disable_keep w q i x o e :
  winv w -> linux_inv w -> at_slot w q i x o -> e ∈ elements (kf_index x) ->
  wp (knote_disable (q, i) (e_ptr e)) (fun _ w' => keep (e_ptr e) w w') w.
Proof.
  intros Hw HI Ha He. destruct (entry_cb_pre _ _ _ _ _ _ Hw Ha He) as (Hcb & kn & Ek & Hq).
  pose proof Ha as (kq & E & Hl & Ei & Ho & Hnz). unfold knote_disable. wp_go.
  destruct (KNOTE_DISABLED kn); [by wp_simpl|].
  wp_simpl. eapply wp_filt_ops; [done..|]. wp_simpl.
  pose proof Ho as (id & _ & Hid & Hops)%slot_ops_Some.
  pose proof (entry_listed _ _ _ _ _ _ Hw Ha He) as Hls.
  eapply wp_mono; [|apply wp_conj; [by apply (fc_disable (FilterContract := slot_contract linux_inv _ _ _ Ho))|
    by apply (kp_disable (KeepContract := kb_filter _ _ _ Hops Hid))]].
  intros rv w1 ((Hf1 & _) & Hk1). destruct (Z.eqb_spec rv 0) as [->|Hrv]; [|by wp_simpl].
  pose proof (at_slot_frame _ _ _ _ _ _ _ Hf1 Ha) as (kq1 & E1 & Hl1 & Ei1 & _ & _).
  destruct (frame_kn _ _ _ _ Hf1 Ek) as (kn1 & Ek1 & _). wp_go. wp_go. wp_go.
  etrans; [exact Hk1|]. apply keep_plain; simpl; try done.
  - rewrite fmap_insert. apply insert_id. by rewrite lookup_fmap, E1.
  - rewrite lookup_insert_eq. intros k [= <-]. right. by exists kn1.
Qed.

Lemma delete_keep w q i x o e :
  winv w -> linux_inv w -> at_slot w q i x o -> e ∈ elements (kf_index x) ->
  wp (knote_delete (q, i) (e_ptr e)) (fun _ w' => keep (e_ptr e) w w') w.
Proof.
  intros Hw HI (kq & E & Hl & Ei & Ho & Hnz) Hin. apply list_elem_of_split in Hin as Hsp. destruct Hsp as (l1 & l2 & He).
  pose proof (inv_slot _ _ _ (wi_kq _ Hw _ _ E) _ _ Ei) as Hs.
  pose proof (proj1 (Forall_forall _ _) (slot_kn _ _ _ _ Hs) _ Hin) as (kn & Ek & Hi & Hf & Hq & Hd & Hr).
  pose proof Ho as (id & _ & Hid & Hops)%slot_ops_Some. apply (wp_knote_delete _ w q kq i x o e kn l1 l2); [done..|]. intros t Ht Het Hcb1.
  destruct (unlinked_ok w q kq i x e l1 l2 t Hw E Ei He Ht Het) as (Hw1 & Hun1 & _).
  eapply wp_mono; [|apply wp_conj; [by eapply (fc_delete (FilterContract := slot_contract linux_inv _ _ _ Ho) w)|
    by eapply (kp_delete (KeepContract := kb_filter _ _ _ Hops Hid) w)]].
  intros rv w2 ((_ & Hf2 & _) & Hk2). destruct (frame_kn _ _ _ kn Hf2 Ek) as (kn2 & Ek2 & Hc2).
  injection Hc2 as _ _ V _ _. wp_go.
  assert (Hk1 : keep (e_ptr e) w w2).
  { etrans; [|exact Hk2]. apply keep_plain; simpl; try done; [|by eauto].
    rewrite fmap_insert. apply insert_id. by rewrite lookup_fmap, E. }
  eapply wp_knote_release; [simpl; by rewrite lookup_insert_eq|simpl; lia|simpl; by rewrite has_setb, orb_true_r|..];
    intros _; wp_simpl; (etrans; [exact Hk1|]); apply keep_plain; simpl; try done; intros k Hk.
  - by rewrite lookup_delete_eq in Hk.
  - rewrite lookup_insert_eq in Hk. injection Hk as <-. right. by exists kn2.
Qed.

Lemma disable_passed w q i x o e :
  winv w -> linux_inv w -> at_slot w q i x o -> e ∈ elements (kf_index x) ->
  wp (knote_disable (q, i) (e_ptr e)) (fun _ w' => passed (e_ptr e) q w w' /\
    is_Some (w_knotes w' !! e_ptr e) /\ exists x', at_slot w' q i x' o /\ e ∈ elements (kf_index x')) w.
Proof.
  intros Hw HI Ha He. destruct (entry_cb_pre _ _ _ _ _ _ Hw Ha He) as (_ & kn & Ek & _).
  eapply wp_mono; [|apply wp_conj; [by eapply (knote_disable_ok linux_inv w q i x o e kn)|by eapply disable_keep]].
  intros rv w' ((Hk & _ & _ & kn' & Ek' & _) & Hke). pose proof Hk as [A B C D E F]. split_and!; [|by exists kn'|].
  - apply passed_step; try done. intros j e' (y & Hy & He') _. specialize (D j). rewrite Hy in D.
    destruct (slot_of w' q j) as [y'|] eqn:Hy'; [|done]. apply (inj Some) in D. exists y'. by rewrite D.
  - destruct (at_slot_step w w' q i x o Ha C) as (x' & Ha'). exists x'. split; [done|].
    specialize (D i). rewrite (at_slot_slot _ _ _ _ _ Ha), (at_slot_slot _ _ _ _ _ Ha') in D.
    apply (inj Some) in D. by rewrite D.
Qed.

Lemma delete_passed w q i x o e :
  winv w -> linux_inv w -> at_slot w q i x o -> e ∈ elements (kf_index x) ->
  wp (knote_delete (q, i) (e_ptr e)) (fun _ w' => passed (e_ptr e) q w w') w.
Proof.
  intros Hw HI Ha He. apply list_elem_of_split in He as Hsp. destruct Hsp as (l1 & l2 & Hel).
  eapply wp_mono; [|apply wp_conj; [by eapply (knote_delete_ok linux_inv w q i x o e)|by eapply delete_keep]].
  intros rv w' ((_ & [A B C (x' & Hx' & Hes) E F _]) & Hke). apply passed_step; try done.
  intros j e' (y & Hy & He') Hne. destruct (decide (j = i)) as [->|Hj].
  - exists x'. split; [done|]. rewrite (at_slot_slot _ _ _ _ _ Ha) in Hy. simplify_eq. rewrite Hes. rewrite Hel in He'. set_solver.
  - exists y. by rewrite (E j Hj).
Qed.

Lemma flags_passed w q i x o e :
  winv w -> linux_inv w -> at_slot w q i x o -> e ∈ elements (kf_index x) ->
  wp (knote_copyout_flag_actions (q, i) (e_ptr e)) (fun _ w' => passed (e_ptr e) q w w') w.
Proof.
  intros Hw HI Ha He. destruct (entry_cb_pre _ _ _ _ _ _ Hw Ha He) as (_ & kn & Ek & _).
  unfold knote_copyout_flag_actions. wp_go.
  eapply (wp_mono _ (fun _ w1 => passed (e_ptr e) q w w1 /\ is_Some (w_knotes w1 !! e_ptr e) /\
    exists x', at_slot w1 q i x' o /\ e ∈ elements (kf_index x'))).
  - intros rv w1 (Hp & [kn1 Ek1] & x' & Ha' & He'). wp_simpl. eapply wp_get_kn; [exact Ek1|].
    destruct (has (flags (kev kn1)) EV_ONESHOT); [|by wp_simpl].
    eapply wp_mono; [|by eapply delete_passed; [apply Hp|apply Hp|..]]. intros rv2 w2 Hp2. by eapply passed_trans.
  - destruct (has (flags (kev kn)) EV_DISPATCH); [by eapply disable_passed|]. wp_simpl.
    split_and!; [by apply passed_refl|by exists kn|by exists x].
Qed.
End Passed.

(** ** The state of a copyout *)

(** The copyout called in [w0] on the knote [p] has reached [w]; the knote is [kn],
    still in the index of slot [i], and the event goes to the address [el]. *)
Record dlv {K : Type} `{FilterList K} (w0 : world K) (q : ptr) (i : nat) (p : ptr) (el : Z) (kn : knote)
    (w : world K) : Prop :=
  { dl_passed : passed p q w0 w;
    dl_kn : w_knotes w !! p = Some kn;
    dl_slot : exists x o e, at_slot w q i x o /\ e ∈ elements (kf_index x) /\ e_ptr e = p;
    dl_mem : is_Some (w_mem w !! el) }.

Section Dlv.
Context {K : Type} `{OS K} `{FilterList K} `{!KeepBuild K}.
Implicit Types (w : world K) (p q : ptr).

(** A step on memory, errno and the kernel. *)
Lemma dlv_quiet w0 q i p el kn w w' :
  dlv w0 q i p el kn w -> (exists k e m, w' = set_w_os k (set_w_errno e (set_w_mem m w)) /\
    forall a, is_Some (w_mem w !! a) -> is_Some (m !! a)) -> dlv w0 q i p el kn w'.
Proof.
  intros [A B C D] (k & e & m & -> & Hm). split; try done; [|by apply Hm].
  eapply passed_trans; [exact A|]. destruct A as [Hw HI _ _ _ _ _]. split; try done.
  - destruct Hw. by split.
  - eapply pi_stable; [exact HI|]. by split.
  - apply keep_plain; by eauto.
Qed.

Lemma d_sys {A : Type} (c : syscall A) (Q : option A -> world K -> Prop) w0 q i p el kn w :
  dlv w0 q i p el kn w -> (forall r w', dlv w0 q i p el kn w' -> Q r w') -> wp (sys c) Q w.
Proof.
  intros Hs HQ. apply wp_sys.
  - intros a k _. apply HQ. eapply dlv_quiet; [exact Hs|]. exists k, (w_errno w), (w_mem w). by destruct w.
  - intros e k _. apply HQ. eapply dlv_quiet; [exact Hs|]. exists k, e, (w_mem w). by destruct w.
Qed.

Lemma d_epoll_ctl epfd op fd ev (Q : bool -> world K -> Prop) w0 q i p el kn w :
  dlv w0 q i p el kn w -> (forall b w', dlv w0 q i p el kn w' -> Q b w') -> wp (epoll_ctl epfd op fd ev) Q w.
Proof. intros Hs HQ. unfold epoll_ctl. wp_simpl. eapply d_sys; [exact Hs|]. intros r w' Hs'. wp_simpl. by apply HQ. Qed.

Lemma d_get_kn (Q : knote -> world K -> Prop) w0 q i p el kn w :
  dlv w0 q i p el kn w -> Q kn w -> wp (get_kn p) Q w.
Proof. intros Hs HQ. by eapply wp_get_kn; [exact (dl_kn _ _ _ _ _ _ _ Hs)|]. Qed.

Lemma d_load (Q : kevent -> world K -> Prop) w0 q i p el kn w :
  dlv w0 q i p el kn w -> (forall k, Q k w) -> wp (load el) Q w.
Proof. intros Hs HQ. destruct (dl_mem _ _ _ _ _ _ _ Hs) as [k Hk]. eapply wp_load; [exact Hk|]. apply HQ. Qed.

Lemma d_store (Q : unit -> world K -> Prop) v w0 q i p el kn w :
  dlv w0 q i p el kn w -> (forall w', dlv w0 q i p el kn w' -> Q tt w') -> wp (store el v) Q w.
Proof.
  intros Hs HQ. destruct (dl_mem _ _ _ _ _ _ _ Hs) as [k Hk]. eapply wp_store; [exact Hk|]. apply HQ.
  eapply dlv_quiet; [exact Hs|]. exists (w_os w), (w_errno w), (<[el := v]> (w_mem w)). split; [by destruct w|].
  intros a Ha. destruct (decide (a = el)) as [->|Hne]; [by rewrite lookup_insert_eq|by rewrite lookup_insert_ne].
Qed.

Lemma d_upd_mem (Q : unit -> world K -> Prop) g w0 q i p el kn w :
  dlv w0 q i p el kn w -> (forall w', dlv w0 q i p el kn w' -> Q tt w') -> wp (upd_mem el g) Q w.
Proof.
  intros Hs HQ. unfold upd_mem. wp_simpl. eapply d_load; [exact Hs|]. intros k. wp_simpl. by eapply d_store.
Qed.

Lemma linux_inv_knote w p kn kn' :
  linux_inv w -> w_knotes w !! p = Some kn -> kn_view kn' = kn_view kn -> kn_shared kn' = kn_shared kn ->
  linux_inv (set_w_knotes (<[p := kn']> (w_knotes w)) w).
Proof.
  intros [Hi Hsh] E Hv Hs. split.
  - apply (li_views w); try done. simpl. rewrite fmap_insert, Hv. apply insert_id. by rewrite lookup_fmap, E.
  - apply (shared_views None w); try done. simpl. intros r k. destruct (decide (r = p)) as [->|Hne].
    + rewrite lookup_insert_eq. intros [= <-]. left. by exists kn.
    + rewrite lookup_insert_ne by done. eauto.
Qed.

(** A change of members that neither the common code nor the invariant reads. *)
Lemma d_upd_kn g (Q : unit -> world K -> Prop) w0 q i p el kn w :
  dlv w0 q i p el kn w -> kn_common (g kn) = kn_common kn -> kn_view (g kn) = kn_view kn ->
  kn_shared (g kn) = kn_shared kn -> (forall w', dlv w0 q i p el (g kn) w' -> Q tt w') -> wp (upd_kn p g) Q w.
Proof.
  intros [A B C D] Hc Hv Hs HQ. eapply wp_upd_kn; [exact B|]. apply HQ. split; simpl; [|by rewrite lookup_insert_eq|done|done].
  assert (Hf : frame_ p w (set_w_knotes (<[p := g kn]> (w_knotes w)) w)) by (by eapply frame_knotes).
  pose proof A as [Hw HI _ _ _ _ _]. eapply passed_trans; [exact A|].
  destruct C as (x & o & e & Ha & He & Hp). destruct (entry_cb_pre _ _ _ _ _ _ Hw Ha He) as (_ & kn0 & Ek0 & Hq).
  rewrite Hp in Ek0. apply passed_step; try done.
  - by eapply winv_frame.
  - by apply (linux_inv_knote w p kn).
  - assert (kn0 = kn) as -> by congruence. by eapply step_of_frame.
  - eapply keep_upd; [exact B|]. left. injection Hv as Hv _ _ _ _. done.
  - intros r Hr. simpl. by rewrite lookup_insert_ne.
Qed.

Lemma d_flags (Q : Z -> world K -> Prop) w0 q i p el kn w :
  dlv w0 q i p el kn w -> (forall rv w', passed p q w0 w' -> Q rv w') ->
  wp (knote_copyout_flag_actions (q, i) p) Q w.
Proof.
  intros [A B (x & o & e & Ha & He & <-) D] HQ. eapply wp_mono; [|by eapply flags_passed; [apply A|apply A|..]].
  intros rv w' Hp. apply HQ. by eapply passed_trans.
Qed.
End Dlv.

Ltac d_step :=
  cbn [fst snd epoll_ev]; wp_simpl;
  first
    [ eapply d_get_kn; [eassumption|]
    | eapply d_flags; [eassumption|intros ? ? ?]
    | eapply d_upd_kn; [eassumption|reflexivity|reflexivity|reflexivity|intros ? ?]
    | eapply d_store; [eassumption|intros ? ?]
    | eapply d_upd_mem; [eassumption|intros ? ?]
    | eapply d_load; [eassumption|intros ?]
    | eapply d_epoll_ctl; [eassumption|intros ? ? ?]
    | eapply d_sys; [eassumption|intros ? ? ?]
    | match goal with
      | |- wp (if ?b then _ else _) _ _ => destruct b eqn:?
      | |- wp (match ?o with Some _ => _ | None => _ end) _ _ => destruct o eqn:?
      | |- wp (match ?o with pair _ _ => _ end) _ _ => destruct o eqn:?
      end ].
Ltac d_go := repeat d_step; wp_simpl.

(** ** The filters *)

(** On a knote of its slot a copyout returns, fills at most one entry and leaves
    everything but its knote deliverable. *)
Class CopyoutContract {K : Type} `{FilterList K} (i : nat) (o : filter_ops K) : Prop :=
  co_copyout : forall w q p el n ev kn, dlv w q i p el kn w ->
    wp (kf_copyout o el n (q, i) (Some p) (EvEpoll ev)) (fun rv w' => passed p q w w' /\ rv <= 1) w.

(** What delivery relies on: reading a pipe and an inotify descriptor until they are
    empty ends within the fuel, and fstat(2) on the descriptor of a vnode knote fails
    with nothing but ENOENT, the one failure the code looks for: after any other the
    copyout reads a stat buffer that was never written ([fstat_uninitialised] of
    LinuxDangling). *)
Class DeliveryKernel (K : Type) `{OS K} (fuel : nat) : Prop :=
  { dk_pipe : forall fd n (w : world K),
      wp (drain_pipe fuel fd n) (fun _ w' => exists k e, w' = set_w_os k (set_w_errno e w)) w;
    dk_inotify : forall fd (w : world K),
      wp (vnode_drain fuel fd) (fun _ w' => exists k e, w' = set_w_os k (set_w_errno e w)) w;
    dk_fstat : forall fd (k : K) e k', os_call (SysFstat fd) k = (SErr e, k') -> e = ENOENT }.

Section Copyouts.
Context {K : Type} `{OS K} `{FilterList K} `{!KeepBuild K}.
Implicit Types (w : world K) (p q : ptr).

Lemma dlv_done w q i p el kn w' : dlv w q i p el kn w' -> passed p q w w'.
Proof. by intros []. Qed.

(** The result of a copyout: 0, 1 or a failure. *)
Ltac d_end := split; [first [eassumption | by eapply dlv_done] | repeat case_match; lia].

#[export] Instance timer_copyout : CopyoutContract 6 (fs_ops evfilt_timer).
Proof. intros w q p el n ev kn Hs. simpl. unfold evfilt_timer_copyout, errno. d_go; d_end. Qed.

#[export] Instance user_copyout : CopyoutContract 10 (fs_ops evfilt_user).
Proof. intros w q p el n ev kn Hs. simpl. unfold linux_evfilt_user_copyout, eventfd_lower, errno. d_go; d_end. Qed.

#[export] Instance proc_copyout : CopyoutContract 4 (fs_ops evfilt_proc).
Proof. intros w q p el n ev kn Hs. simpl. unfold evfilt_proc_copyout. d_go; d_end. Qed.

#[export] Instance libkqueue_copyout (V : kqueue_vtable K) C : CopyoutContract 11 (fs_ops (evfilt_libkqueue V C)).
Proof. intros w q p el n ev kn Hs. simpl. unfold common_libkqueue_knote_copyout. wp_simpl. d_end. Qed.

#[export] Instance read_copyout : CopyoutContract 0 (fs_ops evfilt_read).
Proof.
  intros w q p el n ev kn Hs. simpl. unfold evfilt_read_copyout, get_eof_offset, copyout_error, errno. d_go; d_end.
Qed.

#[export] Instance write_copyout : CopyoutContract 1 (fs_ops evfilt_write).
Proof.
  intros w q p el n ev kn Hs. simpl. unfold evfilt_write_copyout, copyout_error, write_space, errno. d_go; d_end.
Qed.

Lemma d_fstat fuel `{!DeliveryKernel K fuel} fd (Q : option stat -> world K -> Prop) w0 q i p el kn w :
  dlv w0 q i p el kn w -> (forall r w', dlv w0 q i p el kn w' -> r = None -> w_errno w' = ENOENT -> Q r w') ->
  (forall r w', dlv w0 q i p el kn w' -> is_Some r -> Q r w') -> wp (sys (SysFstat fd)) Q w.
Proof.
  intros Hs H1 H2. apply wp_sys.
  - intros sb k _. apply H2; [|done]. eapply dlv_quiet; [exact Hs|]. exists k, (w_errno w), (w_mem w). by destruct w.
  - intros e k Hc%(dk_fstat (fuel := fuel)). apply H1; [|done|done].
    eapply dlv_quiet; [exact Hs|]. exists k, e, (w_mem w). by destruct w.
Qed.

#[export] Instance vnode_copyout fuel `{!DeliveryKernel K fuel} : CopyoutContract 3 (fs_ops (evfilt_vnode fuel)).
Proof.
  intros w q p el n ev kn Hs. simpl. unfold evfilt_vnode_copyout. d_step. wp_simpl.
  eapply wp_mono; [|apply dk_inotify]. intros merged w1 (k & e & ->).
  assert (Hs1 : dlv w q 3 p el kn (set_w_os k (set_w_errno e w))).
  { eapply dlv_quiet; [exact Hs|]. exists k, e, (w_mem w). split; [by destruct w|done]. }
  destruct merged as [m|]; [|wp_simpl; d_end]. destruct (m =? 0); [wp_simpl; d_end|].
  unfold vnode_stat, errno. d_step. wp_simpl.
  eapply (d_fstat fuel); [eassumption|intros r w3 Hs3 -> He|intros r w3 Hs3 [sb ->]]; [|d_go; d_end].
  wp_simpl. rewrite He. change (ENOENT =? ENOENT) with true. d_go; d_end.
Qed.
End Copyouts.
