(* ===== verification/LinuxDispatch.v ===== *)
(** * Delivering a batch of epoll events: src/linux/platform.c

    [linux_kevent_copyout] hands the events of one [epoll_wait] to the filters.
    Each delivery may disable, delete and free its knote, drop an fd_state and
    retire a udata; the events still to come hold addresses that were taken before.
    Here: as long as the batch names udatas that are not freed, each at most once,
    and each is stale or belongs to a knote or an fd_state of the kqueue, no
    delivery makes a later one fault.  With the filters, the hooks and the wait of the
    Linux build this gives the theorem on the whole of [kevent()]. *)

From Stdlib Require Import ZArith Lia Bool.
From stdpp Require Import base list gmap.
From S2P Require Import Prelude RBTree Event Map State Ops Knote Filter Kqueue Kevent LibkqueueFilter LinuxUdata LinuxEpoll LinuxShared LinuxRules LinuxTimer LinuxUser LinuxProc LinuxReadWrite LinuxSocket LinuxUpdate LinuxRWContract LinuxVnode LinuxKevent LinuxKqueue LinuxContracts LinuxBuild LinuxDeliver Lifecycle.

(** The udata [d] at [u], not stale, leads to an object of [q] that refers to it. *)
Definition owned {K : Type} (w : world K) (q u : ptr) (d : epoll_udata) : Prop :=
  match ud_type d, ud_back d with
  | EPOLL_UDATA_KNOTE, ud_kn p => exists kn, w_knotes w !! p = Some kn /\ kn_udata kn = Some u /\
      indexed w q (Z.to_nat (Z.lnot (filter_ (kev kn)))) (Entry (ident (kev kn)) p)
  | EPOLL_UDATA_FD_STATE, ud_fds s => exists x kq fd, w_fdss w !! s = Some x /\ fds_udata x = Some u /\
      w_kqs w !! q = Some kq /\ Entry fd s ∈ elements (kq_fd_st kq)
  | EPOLL_UDATA_KQ_WAKE, ud_kq r => r = q
  | _, _ => False
  end.

Definition deliverable {K : Type} (w : world K) (q u : ptr) : Prop :=
  exists d, w_udatas w !! u = Some d /\ (ud_stale d = true \/ owned w q u d).

(** The buffer holds [n] events, no udata twice, and each can be delivered. *)
Record batch {K : Type} (w : world K) (q : ptr) (n : Z) : Prop :=
  { ba_length : n <= Z.of_nat (length (w_evbuf w));
    ba_once : forall i j ev ev' u, w_evbuf w !! i = Some ev -> w_evbuf w !! j = Some ev' ->
      ev_ptr ev = Some u -> ev_ptr ev' = Some u -> i = j;
    ba_deliver : forall i ev u, w_evbuf w !! i = Some ev -> ev_ptr ev = Some u -> deliverable w q u }.

Section Passed.
Context {K : Type}.
Implicit Types (w : world K) (p q u : ptr).

Lemma passed_deliverable p q w w' u :
  passed p q w w' -> not_own w p u -> deliverable w q u -> deliverable w' q u.
Proof.
  intros [_ _ _ _ Hk Hn Hi] Hno (d & Hu & Hd). destruct (Hk u d Hu Hno) as (_ & d' & Hu' & Ht & Hb & Hs).
  exists d'. split; [done|]. destruct Hs as [Hs|[Hs Hf]]; [by left|].
  destruct Hd as [Hd|Hd]; [left; congruence|]. right. unfold owned in *. rewrite Ht, Hb.
  destruct (ud_type d), (ud_back d) as [r|s|?|?]; try done.
  - destruct Hd as (kn & Er & Hru & Hix). assert (r <> p) by (intros ->; by apply (Hno kn)).
    exists kn. rewrite Hn by done. split_and!; try done. by apply Hi.
  - destruct Hd as (x & kq & fd & Hx & Hxu & Hq & He).
    destruct (Hf s x q kq fd eq_refl Hx Hxu Hq He) as (x' & kq' & ? & ? & ? & ?). by exists x', kq', fd.
Qed.

(** The knote [p] of slot [i] is in the index of [q]. *)
Lemma indexed_knote w q i e :
  winv w -> indexed w q i e -> exists kn, w_knotes w !! e_ptr e = Some kn /\ ident (kev kn) = e_key e /\
    Z.lnot (filter_ (kev kn)) = Z.of_nat i /\ kn_kq kn = Some q.
Proof.
  intros Hw (x & Hx & He). unfold slot_of in Hx. destruct (w_kqs w !! q) as [kq|] eqn:E; [|done].
  pose proof (slot_kn _ _ _ _ (inv_slot _ _ _ (wi_kq _ Hw _ _ E) _ _ Hx)) as Hk.
  rewrite Forall_forall in Hk. destruct (Hk _ He) as (kn & ? & ? & ? & ? & _). by exists kn.
Qed.
End Passed.

Section Dispatch.
Context {K : Type} `{OS K} `{!SocketKernel K} (C : version) (fuel : nat) `{!DeliveryKernel K fuel} (depth : nat).
Implicit Types (w : world K) (p q u me : ptr).

(** The lists of a release build: the one the common code uses, and the one the
    deliveries of its filters use. *)
Definition inner : FilterList K := linux_filters C true fuel (S depth).
#[local] Instance outer : FilterList K := linux_filters C true fuel (S (S depth)).

Lemma over_keep L :
  Forall (fun s => KeepContract (Z.to_nat (Z.lnot (fs_id s))) (fs_ops s)) (filters_over C true fuel L).
Proof.
  unfold filters_over. repeat apply List.Forall_cons; try apply List.Forall_nil; simpl; exact _.
Qed.

#[local] Instance inner_keep : KeepBuild K (H := inner).
Proof.
  split; [exact _|]. intros i id o Ho Hi. unfold ops_table in Ho.
  apply fmap_Some in Ho as (s & Hs & ->). apply find_some in Hs as [Hin Hid%Z.eqb_eq].
  pose proof (over_keep (linux_filters C true fuel depth)) as Hall. rewrite List.Forall_forall in Hall.
  specialize (Hall s Hin). simpl in Hall. rewrite Hid, Hi, Nat2Z.id in Hall. exact Hall.
Qed.

Lemma over_copyout : 
  Forall (fun s => CopyoutContract (H := inner) (Z.to_nat (Z.lnot (fs_id s))) (fs_ops s)) (filters_over C true fuel inner).
Proof.
  unfold filters_over. repeat apply List.Forall_cons; try apply List.Forall_nil; simpl; exact _.
Qed.

Lemma outer_copyout i x o : slot_ops i x = Some o -> CopyoutContract (H := inner) i o.
Proof.
  intros (id & _ & Hi & Ho)%slot_ops_Some. unfold ops_table in Ho.
  apply fmap_Some in Ho as (s & Hs & ->). apply find_some in Hs as [Hin Hid%Z.eqb_eq].
  pose proof over_copyout as Hall. rewrite List.Forall_forall in Hall.
  specialize (Hall s Hin). simpl in Hall. rewrite Hid, Hi, Nat2Z.id in Hall. exact Hall.
Qed.

(** Both lists have the same filters. *)
Lemma inner_slot i x o : slot_ops i x = Some o -> is_Some (slot_ops (H := inner) i x).
Proof.
  intros Ho. apply (slot_ops_ids outer); [|by exists o].
  pose proof (callbacks_closed C true fuel inner (linux_filters C true fuel depth)) as Hc.
  apply (f_equal (fmap (fun c => c.1.1.1.1.1.1.1))) in Hc. rewrite <- !list_fmap_compose in Hc. exact Hc.
Qed.

Lemma inside_dlv w q me i e el :
  inside linux_inv w q me true -> indexed w q i e -> is_Some (w_mem w !! el) ->
  exists kn x o kq, dlv (H := inner) w q i (e_ptr e) el kn w /\ w_kqs w !! q = Some kq /\
    kq_filt kq !! i = Some x /\ slot_ops i x = Some o.
Proof.
  intros (Hw & HI & kq & E & Hl & Hu & _) Hix Hm. destruct (indexed_knote w q i e Hw Hix) as (kn & Ek & _).
  destruct Hix as (x & Hx & He). unfold slot_of in Hx. rewrite E in Hx. simpl in Hx.
  destruct (Hu i x Hx) as [[Hz _]|[Hnz [o Ho]]].
  { pose proof (slot_zero _ _ _ _ (inv_slot _ _ _ (wi_kq _ Hw _ _ E) _ _ Hx) Hz) as Hn. rewrite Hn in He.
    by apply elem_of_nil in He. }
  destruct (inner_slot i x o Ho) as [oi Hoi]. exists kn, x, o, kq. split_and!; try done. split; try done.
  exists x, oi, e. split_and!; try done. by exists kq.
Qed.

(** One call of a filter's copyout, on a knote of the kqueue. *)
Lemma copyout_ev_ok w q me i e el n ev :
  inside linux_inv w q me true -> indexed w q i e -> is_Some (w_mem w !! el) ->
  wp (linux_kevent_copyout_ev true el n ev (q, i) (Some (e_ptr e)))
    (fun rv w' => passed (e_ptr e) q w w' /\ rv <= 1) w.
Proof.
  intros Hin Hix Hm. destruct (inside_dlv w q me i e el Hin Hix Hm) as (kn & x & o & kq & Hd & E & Ex & Ho).
  unfold linux_kevent_copyout_ev. wp_simpl. eapply wp_filt_ops; [done..|]. wp_simpl.
  eapply wp_mono; [|by eapply (outer_copyout i x o Ho)]. intros rv w' [Hp Hrv].
  destruct (rv <? 0); [by wp_simpl|]. destruct (pa_mem _ _ _ _ Hp el Hm) as [k Hk].
  wp_simpl. eapply wp_load; [exact Hk|]. wp_simpl. split; [done|]. case_match; lia.
Qed.

Lemma passed_inside p q w w' me : passed p q w w' -> inside linux_inv w q me true -> inside linux_inv w' q me true.
Proof. intros [Hw HI Hs _ _ _ _] Hin. by eapply stepm_inside. Qed.

Lemma wp_get_filter w q i e (Q : filt_ref -> world K -> Prop) :
  winv w -> indexed w q i e -> Q (q, i) w -> wp (knote_get_filter (e_ptr e)) Q w.
Proof.
  intros Hw Hix HQ. destruct (indexed_knote w q i e Hw Hix) as (kn & Ek & _ & Hf & Hq).
  unfold knote_get_filter. wp_go. rewrite Hq. wp_simpl. rewrite Hf. destruct (Z.ltb_spec (Z.of_nat i) 0); [lia|].
  wp_simpl. by rewrite Nat2Z.id.
Qed.

(** What one event, of the udata [u], leaves for the rest of the batch. *)
Record left_for (q u me : ptr) w w' : Prop :=
  { lf_inside : inside linux_inv w' q me true;
    lf_mtx : w_mtx w' = w_mtx w;
    lf_evbuf : w_evbuf w' = w_evbuf w;
    lf_mem : forall a, is_Some (w_mem w !! a) -> is_Some (w_mem w' !! a);
    lf_rest : forall v, v <> u -> deliverable w q v -> deliverable w' q v }.

Lemma left_refl q u me w : inside linux_inv w q me true -> left_for q u me w w.
Proof. by split. Qed.

Lemma left_trans q u me w1 w2 w3 : left_for q u me w1 w2 -> left_for q u me w2 w3 -> left_for q u me w1 w3.
Proof. intros [A1 B1 C1 D1 E1] [A2 B2 C2 D2 E2]. split; try congruence; eauto. Qed.

Lemma left_passed p q u me w w' :
  inside linux_inv w q me true -> (forall v, v <> u -> not_own w p v) -> passed p q w w' -> left_for q u me w w'.
Proof.
  intros Hin Hno Hp. split; [by eapply passed_inside|apply (pa_step _ _ _ _ Hp)|apply (pa_step _ _ _ _ Hp)|apply Hp|].
  intros v Hv. eapply passed_deliverable; [exact Hp|by apply Hno].
Qed.

(** The place after [r]: within the event list. *)
Definition place_ok (lo hi : Z) (r : copyout_step) : Prop :=
  match r with CoNext e | CoDone e => lo <= e <= hi | CoFail => True end.

(** An event for a knote of an fd_state. *)
Lemma copyout_knote_ok w q u me el_p el_end ev mask o i :
  inside linux_inv w q me true -> (forall a, el_p <= a < el_end -> is_Some (w_mem w !! a)) -> el_p <= el_end ->
  (forall p, o = Some p -> (exists k, indexed w q i (Entry k p)) /\ forall v, not_own w p v) ->
  wp (copyout_knote true el_p el_end ev o mask) (fun r w' => left_for q u me w w' /\
    (forall e, r = Some e -> el_p <= e <= el_end) /\ forall p, o <> Some p -> w_knotes w' !! p = w_knotes w !! p /\
      forall j k, indexed w q j (Entry k p) -> indexed w' q j (Entry k p)) w.
Proof.
  intros Hin Hm Hle Ho.
  assert (Hsame : forall r, (forall e, r = Some e -> el_p <= e <= el_end) -> left_for q u me w w /\
    (forall e, r = Some e -> el_p <= e <= el_end) /\ forall p, o <> Some p -> w_knotes w !! p = w_knotes w !! p /\
      forall j k, indexed w q j (Entry k p) -> indexed w q j (Entry k p)).
  { intros r Hr. split_and!; [by apply left_refl|done|done]. }
  destruct o as [p|]; simpl; [|wp_simpl; apply Hsame; intros e [= <-]; lia].
  destruct (has _ _); [|wp_simpl; apply Hsame; intros e [= <-]; lia].
  destruct (Z.leb_spec el_end el_p); [wp_simpl; by apply Hsame|].
  destruct (Ho p eq_refl) as [[k Hix] Hno]. pose proof Hin as (Hw & _). wp_simpl.
  eapply (wp_get_filter w q i (Entry k p)); [done..|]. wp_simpl.
  eapply wp_mono; [|apply (copyout_ev_ok w q me i (Entry k p)); [done..|apply Hm; lia]].
  intros rv w' [Hp Hrv]. simpl in Hp. wp_simpl. split_and!.
  - eapply left_passed; [exact Hin| |exact Hp]. intros v _. apply Hno.
  - intros e. destruct (Z.ltb_spec rv 0); [done|]. intros [= <-]. lia.
  - intros r Hr. split; [apply (pa_kn _ _ _ _ Hp); congruence|].
    intros j k' Hj. apply (pa_index _ _ _ _ Hp); [done|]. simpl. congruence.
Qed.

(** The knotes of an fd_state are in the index and have no udata of their own. *)
Lemma fds_knote w q kq s x d p fd :
  linux_inv w -> w_kqs w !! q = Some kq -> Entry fd s ∈ elements (kq_fd_st kq) -> w_fdss w !! s = Some x ->
  dir_get d x = Some p -> (exists k, indexed w q (dir_slot d) (Entry k p)) /\ forall v, not_own w p v.
Proof.
  intros [Hi Hsh] E He Hx Hg. destruct (li_node _ Hi q kq _ E He) as (y & Hy & (_ & _ & Hn)%node_dir). simpl in Hy.
  assert (y = x) as -> by congruence. destruct (Hn d p Hg) as (kn & Ek & Hq & Hfd & Hf).
  assert (Hat : attached w p kn q) by (split_and!; [done|simpl in *; congruence|done|by exists kq]).
  split.
  - exists (ident (kev kn)). rewrite <- (dir_lnot d kn Hf). by apply (so_index _ _ Hsh).
  - intros v k Ek'. assert (k = kn) as -> by congruence.
    destruct (so_events _ _ Hsh p kn d Ek Hf (so_file _ _ Hsh p kn q Hat)) as [_ ->]. done.
Qed.

Lemma left_os q u me w k e :
  inside linux_inv w q me true -> left_for q u me w (set_w_os k (set_w_errno e w)).
Proof.
  intros (Hw & HI & Hr). split; try done. split_and!; [|eapply pi_stable; [exact HI|by split]|exact Hr].
  destruct Hw. by split.
Qed.

(** One event that is not stale. *)
Lemma copyout_event_ok w q u me el_p el_end ev d :
  inside linux_inv w q me true -> owned w q u d -> el_p <= el_end ->
  (forall a, el_p <= a < el_end -> is_Some (w_mem w !! a)) ->
  wp (copyout_event true fuel el_p el_end ev d) (fun r w' => left_for q u me w w' /\ place_ok el_p el_end r) w.
Proof.
  intros Hin Ho Hle Hm. pose proof Hin as (Hw & HI & _). unfold owned in Ho. unfold copyout_event.
  destruct (ud_type d), (ud_back d) as [p|s|?|r]; try done.
  - destruct (Z.leb_spec el_end el_p); [wp_simpl; split; [by apply left_refl|simpl; lia]|].
    destruct Ho as (kn & Ek & Hu & Hix). wp_simpl. eapply (wp_get_filter w q _ (Entry _ p)); [done..|]. wp_simpl.
    eapply wp_mono; [|by apply (copyout_ev_ok w q me _ (Entry (ident (kev kn)) p)); [..|apply Hm; lia]].
    intros rv w' [Hp Hrv]. wp_simpl. simpl in Hp. split.
    + eapply left_passed; [exact Hin| |exact Hp]. intros v Hv k Ek'. congruence.
    + destruct (Z.ltb_spec rv 0); simpl; lia.
  - destruct Ho as (x & kq & fd & Hx & Hxu & E & He). wp_simpl. eapply wp_get_fds; [done|]. wp_simpl.
    pose proof (fun d p => fds_knote w q kq s x d p fd HI E He Hx) as Hk.
    eapply wp_mono; [|apply (copyout_knote_ok w q u me el_p el_end ev _ (fds_read x) 0 Hin Hm Hle (Hk Rd))].
    intros [el1|] w1 (Hl1 & Hr1 & Hsame); [|wp_simpl; split; [done|simpl; lia]].
    specialize (Hr1 el1 eq_refl). wp_simpl.
    eapply wp_mono; [|apply (copyout_knote_ok w1 q u me el1 el_end ev _ (fds_write x) 1 (lf_inside _ _ _ _ _ Hl1))].
    + intros r w2 (Hl2 & Hr2 & _). wp_simpl. split; [by eapply left_trans|].
      destruct r as [e|]; simpl; [specialize (Hr2 e eq_refl)|]; lia.
    + intros a Ha. apply (lf_mem _ _ _ _ _ Hl1), Hm. lia.
    + lia.
    + intros p Hp. destruct (Hk Wr p Hp) as [[k Hix] Hno].
      assert (Hne : fds_read x <> Some p).
      { intros Hp'. destruct (Hk Rd p Hp') as [[k' Hix'] _].
        destruct (indexed_knote w q _ _ Hw Hix) as (kn & Ek & _ & Hf & _).
        destruct (indexed_knote w q _ _ Hw Hix') as (kn' & Ek' & _ & Hf' & _). simpl in *. simplify_eq. lia. }
      destruct (Hsame p Hne) as [Hkn Hix1]. split; [exists k; by apply Hix1|].
      intros v kn Ek. rewrite Hkn in Ek. by apply (Hno v).
  - subst r. destruct Hin as (_ & _ & kq & E & Hrest). wp_go.
    eapply wp_mono; [|apply dk_pipe]. intros [] w1 (k & e & ->). unfold set_errno. wp_simpl. split; [|done].
    apply (left_os q u me w k EBADF). split_and!; [done|done|by exists kq].
Qed.

(** The loop from event [i] on: the events before it are done with. *)
Lemma copyout_loop_ok n : forall i w q me el el_p el_end,
  inside linux_inv w q me true -> el <= el_p <= el_end ->
  (forall a, el <= a < el_end -> is_Some (w_mem w !! a)) -> (i + n <= length (w_evbuf w))%nat ->
  (forall i j ev ev' u, w_evbuf w !! i = Some ev -> w_evbuf w !! j = Some ev' ->
     ev_ptr ev = Some u -> ev_ptr ev' = Some u -> i = j) ->
  (forall j ev u, (i <= j)%nat -> w_evbuf w !! j = Some ev -> ev_ptr ev = Some u -> deliverable w q u) ->
  wp (copyout_loop true fuel n i el el_p el_end) (fun rv w' => inside linux_inv w' q me true /\
    w_mtx w' = w_mtx w /\ -1 <= rv <= el_end - el) w.
Proof.
  induction n as [|n IH]; intros i w q me el el_p el_end Hin Hp Hm Hlen Honce Hdel; simpl.
  { wp_simpl. split_and!; try done; lia. }
  destruct (w_evbuf w !! i) as [ev|] eqn:Ei; [|apply lookup_ge_None in Ei; lia].
  wp_simpl. rewrite Ei. wp_simpl.
  assert (Hskip : wp (copyout_loop true fuel n (S i) el el_p el_end) (fun rv w' => inside linux_inv w' q me true /\
    w_mtx w' = w_mtx w /\ -1 <= rv <= el_end - el) w).
  { apply IH; try done; [lia|]. intros j ev' u Hj. apply Hdel. lia. }
  destruct (ev_ptr ev) as [u|] eqn:Hu; [|exact Hskip].
  destruct (Hdel i ev u ltac:(lia) Ei Hu) as (d & Hd & Hor). wp_simpl. eapply wp_get_ud; [exact Hd|].
  destruct (ud_stale d) eqn:Hst; [exact Hskip|]. destruct Hor as [?|Hown]; [done|]. wp_simpl.
  eapply wp_mono; [|apply (copyout_event_ok w q u me el_p el_end ev d Hin Hown)]; [|lia|intros a Ha; apply Hm; lia].
  intros r w1 ([A B C1 D E] & Hpl). destruct r as [e|e|]; simpl in Hpl; [|wp_simpl; split_and!; try done; lia..].
  eapply wp_mono; [|apply (IH (S i) w1 q me el e el_end)]; try done; try rewrite C1; try done; try lia.
  - intros rv w2 (? & -> & ?). split_and!; try done; lia.
  - intros a Ha. by apply D, Hm.
  - intros j ev' v Hj Ej Hv. apply E; [|by apply (Hdel j ev'); [lia|..]].
    intros ->. assert (i = j) by (by eapply (Honce i j)). lia.
Qed.

Lemma copyout_batch_ok w q me nready el n :
  inside linux_inv w q me true -> batch w q nready -> 0 < n ->
  (forall a, el <= a < el + n -> is_Some (w_mem w !! a)) ->
  wp (linux_kevent_copyout true fuel q nready el n) (fun rv w' => inside linux_inv w' q me true /\
    w_mtx w' = w_mtx w /\ -1 <= rv <= n) w.
Proof.
  intros Hin [Hlen Honce Hdel] Hn Hm. unfold linux_kevent_copyout.
  eapply wp_mono; [|apply (copyout_loop_ok (Z.to_nat nready) 0 w q me el el (el + n))]; try done; try lia.
  - intros rv w' (? & ? & ?). split_and!; try done; lia.
  - intros j ev u _. apply Hdel.
Qed.

(** The release build keeps the contract of [kevent()]; a wait is to report a batch. *)
Definition release_contract : KeventContract (kqops true fuel) linux_inv :=
  linux_kevent_contract fuel dk_pipe true batch
    (fun w q me nready el n Hin _ Hb Hn Hm => copyout_batch_ok w q me nready el n Hin Hb Hn Hm).


#[local] Instance linux_kevent : KeventContract (kqops true fuel) linux_inv := release_contract.

End Dispatch.
