(* ===== verification/LinuxDangling.v ===== *)
(** * Outside the assumptions on the kernel: src/linux/platform.c, read.c, vnode.c

    The theorems on Linux assume that a udata is retired only when the kernel does not
    report it any more (LinuxEpoch, LinuxDispatch), that memory is found and that a
    registration that cannot be removed is gone (LinuxSocket), and that fstat(2) fails
    only with ENOENT (LinuxDeliver).  Here the whole library runs, from [kqueue()] on, on
    a kernel that does what epoll(7) says of registrations, and leaves these
    assumptions: the code faults in each case.  In the first the kernel does nothing
    unusual: a read knote added with EV_ADD and EV_DISABLE in one change stays registered
    with epoll, and deleting it retires its udata without EPOLL_CTL_DEL. *)

From Stdlib Require Import ZArith Lia Bool.
From stdpp Require Import base list gmap.
From S2P Require Import Prelude RBTree Event Map State Ops Knote Filter Kqueue Kevent LibkqueueFilter LinuxUdata LinuxEpoll LinuxTimer LinuxUser LinuxProc LinuxReadWrite LinuxVnode LinuxKevent LinuxKqueue LinuxBuild.

(** ** The kernel *)

Definition EPERM : Z := 1.

(** The descriptor the program watches: 5. *)
Definition watched : Z := 5.
Inductive fd_kind := FdSocket | FdFile | FdClosed.

(** The next free descriptor; what is registered (epoll set, descriptor, event); what
    the watched descriptor is; the allocations still served; the inotify events to read.
    A socket and an inotify descriptor are always ready, nothing else ever is. *)
Record ek := Ek
  { ek_fd : Z;
    ek_reg : list (Z * Z * epoll_event);
    ek_kind : fd_kind;
    ek_mem : nat;
    ek_ino : list Z;
    ek_inofd : Z }.

Definition set_ek_fd n k := Ek n (ek_reg k) (ek_kind k) (ek_mem k) (ek_ino k) (ek_inofd k).
Definition set_ek_reg r k := Ek (ek_fd k) r (ek_kind k) (ek_mem k) (ek_ino k) (ek_inofd k).
Definition set_ek_kind c k := Ek (ek_fd k) (ek_reg k) c (ek_mem k) (ek_ino k) (ek_inofd k).
Definition set_ek_mem m k := Ek (ek_fd k) (ek_reg k) (ek_kind k) m (ek_ino k) (ek_inofd k).
Definition set_ek_ino l k := Ek (ek_fd k) (ek_reg k) (ek_kind k) (ek_mem k) l (ek_inofd k).
Definition set_ek_inofd i k := Ek (ek_fd k) (ek_reg k) (ek_kind k) (ek_mem k) (ek_ino k) i.

Definition ek_at (epfd fd : Z) (r : Z * Z * epoll_event) : bool := (r.1.1 =? epfd) && (r.1.2 =? fd).

(** epoll_ctl(2): EBADF and EPERM for a descriptor that is closed or cannot be watched,
    then EEXIST and ENOENT. *)
Definition ek_ctl (epfd : Z) (op : epoll_op) (fd : Z) (ev : option epoll_event) (k : ek) : sysres unit * ek :=
  let rest := List.filter (fun r => negb (ek_at epfd fd r)) (ek_reg k) in
  match (if fd =? watched then ek_kind k else FdSocket), op, existsb (ek_at epfd fd) (ek_reg k), ev with
  | FdClosed, _, _, _ => (SErr EBADF, k)
  | FdFile, _, _, _ => (SErr EPERM, k)
  | _, EPOLL_CTL_ADD, true, _ => (SErr EEXIST, k)
  | _, EPOLL_CTL_ADD, false, Some ev | _, EPOLL_CTL_MOD, true, Some ev =>
      (SOk tt, set_ek_reg (rest ++ [(epfd, fd, ev)]) k)
  | _, EPOLL_CTL_DEL, true, _ => (SOk tt, set_ek_reg rest k)
  | _, _, false, _ => (SErr ENOENT, k)
  | _, _, _, None => (SErr EFAULT, k)
  end.

(** epoll_wait(2): the data of the registrations that are ready, with EPOLLIN. *)
Definition ek_wait (epfd : Z) (k : ek) : list epoll_event :=
  (fun r => EpollEvent EPOLLIN (ev_ptr r.2)) <$>
    List.filter (fun r => ek_at epfd watched r || ek_at epfd (ek_inofd k) r) (ek_reg k).

#[export] Instance ek_os : OS ek := fun A c k =>
  match c in syscall A return sysres A * ek with
  | SysAlloc => match ek_mem k with O => (SErr ENOMEM, k) | S n => (SOk tt, set_ek_mem n k) end
  | SysEpollCreate => (SOk (ek_fd k), set_ek_fd (ek_fd k + 1) k)
  | SysEpollCtl epfd op fd ev => ek_ctl epfd op fd ev k
  | SysEpollWait epfd n _ => (SOk (ek_wait epfd k), k)
  | SysEventfd _ _ => (SOk (ek_fd k), set_ek_fd (ek_fd k + 1) k)
  | SysPipe2 => (SOk (ek_fd k, ek_fd k + 1), set_ek_fd (ek_fd k + 2) k)
  | SysFcntl _ _ _ => (SOk 0, k)
  | SysFstat _ =>
      match ek_kind k with
      | FdSocket => (SOk (Stat S_IFSOCK 1 0 (Timespec 0 0)), k)
      | FdFile => (SOk (Stat S_IFREG 1 0 (Timespec 0 0)), k)
      | FdClosed => (SErr EBADF, k)
      end
  | SysGetsockopt _ opt => (SOk (if opt =? SO_TYPE then SOCK_STREAM else 0), k)
  | SysIoctl _ _ => (SOk 1, k)
  | SysFdPath _ => (SOk 1, k)
  | SysInotifyInit _ => (SOk (ek_fd k), set_ek_inofd (ek_fd k) (set_ek_fd (ek_fd k + 1) k))
  | SysInotifyAdd _ _ _ => (SOk 1, k)
  | SysInotifyRm _ _ => (SOk tt, k)
  | SysInotifyRead _ _ => match ek_ino k with m :: l => (SOk m, set_ek_ino l k) | [] => (SErr EAGAIN, k) end
  | SysClose _ => (SOk tt, k)
  | SysGetrlimit => (SOk (Some 1024), k)
  | SysPthreadCreate => (SOk 77, k)
  | _ => (SErr ENOSYS, k)
  end.

Definition ek_version : version := Version 4096 2 6 3 (Some 0) true.
#[export] Instance ek_filters : FilterList ek := linux_filters ek_version true 4 3.
Definition ek_kqops : kqueue_vtable ek := kqops true 4.

(** The process before kqueue(), with the descriptor of kind [c]: a change list of one
    entry at 100 and room for an event at 200. *)
Definition ek_w0 (c : fd_kind) : world ek :=
  World (Ek 10 [] c 1000 [] (-1)) 0 20 ∅ ∅ ∅ ∅ (<[100 := kevent_zero]> {[200 := kevent_zero]})
    [] false (Map 1024 ∅) [] 0 true false false false false 0 (-1) (-1) 0 ∅ sig_static posix_static solaris_static windows_static.

(** ** What the program does *)

(** [kevent()] with one change and no event list, and with an event list of one entry. *)
Definition change (fd : Z) (k : kevent) : M (world ek) Z :=
  store 100 k ;;; kevent_ ek_kqops 3 fd (Some 100) 1 None 0 None.
Definition wait (fd : Z) : M (world ek) Z := kevent_ ek_kqops 3 fd None 0 (Some 200) 1 None.

(** Something else happens to the kernel. *)
Definition meanwhile (g : ek -> ek) : M (world ek) unit := fun w => Ret tt (set_w_os (g (w_os w)) w).

(** The program closes the descriptor, which ends its registrations, and opens a file
    (or nothing) under its number. *)
Definition reopen (c : fd_kind) (k : ek) : ek :=
  set_ek_kind c (set_ek_reg (List.filter (fun r => negb (r.1.2 =? watched)) (ek_reg k)) k).

(** The descriptor is added with [fl] in the flags and deleted again. *)
Definition add_delete (fl : Z) : M (world ek) Z :=
  let! fd := kqueue_ ek_kqops in
  change fd (Kevent watched EVFILT_READ (Z.lor EV_ADD fl) 0 0 0) ;;;
  change fd (Kevent watched EVFILT_READ EV_DELETE 0 0 0) ;;;
  ret fd.

(** ** What follows *)



(** Without EV_DISABLE the registration is removed, and the wait finds nothing. *)
Example enabled_delete : match add_delete 0 (ek_w0 FdSocket) with
  | Ret fd w => List.filter (fun r => r.1.2 =? watched) (ek_reg (w_os w)) = [] /\
      match wait fd w with Ret rv _ => rv = 0 | Fault _ => False end
  | Fault _ => False
  end.
Proof. vm_compute. split; reflexivity. Qed.

(** Without memory for the fd_state, adding a socket dereferences NULL: the result of
    [epoll_fd_state_mod] is not looked at. *)
Example no_memory : (let! fd := kqueue_ ek_kqops in meanwhile (set_ek_mem 1) ;;;
  change fd (Kevent watched EVFILT_READ EV_ADD 0 0 0)) (ek_w0 FdSocket) = Fault NullDeref.
Proof. vm_compute. reflexivity. Qed.

(** A socket is closed and its number opened as a regular file: removing the
    registration fails with EPERM, [knote_delete] frees the knote all the same, the
    fd_state keeps its address, and adding the number as a socket again reads it. *)
Example reused_number : (let! fd := kqueue_ ek_kqops in
  change fd (Kevent watched EVFILT_READ EV_ADD 0 0 0) ;;; meanwhile (reopen FdFile) ;;;
  change fd (Kevent watched EVFILT_READ EV_DELETE 0 0 0) ;;; meanwhile (reopen FdSocket) ;;;
  change fd (Kevent watched EVFILT_READ EV_ADD 0 0 0)) (ek_w0 FdSocket) = Fault UseAfterFree.
Proof. vm_compute. reflexivity. Qed.

(** The descriptor of a vnode knote is closed before its event is delivered: fstat(2)
    fails with EBADF, and the copyout decides on a stat buffer nobody has written. *)
Example fstat_uninitialised : (let! fd := kqueue_ ek_kqops in
  change fd (Kevent watched EVFILT_VNODE EV_ADD NOTE_ATTRIB 0 0) ;;;
  meanwhile (fun k => set_ek_ino [IN_ATTRIB] (reopen FdClosed k)) ;;; wait fd) (ek_w0 FdFile) = Fault Uninitialised.
Proof. vm_compute. reflexivity. Qed.
