(* ===== verification/Signal.v ===== *)
(** * EVFILT_SIGNAL: src/common/evfilt_signal.h and src/common/evfilt_signalfd.c

    One dispatch thread per process reads a signalfd that watches the union of
    the signals of interest.  [sigtbl] lists, for each signal, the links of the
    filters with a knote for it; a link holds that filter's enabled and disabled
    knotes.  A signal bumps the count of each of these knotes, and an enabled
    knote is put on the pending list of its filter, from which copyout delivers.

    The lists are intrusive in C: an element is in at most one list through each
    of its entries, [LIST_INSERTED] asks whether it is in one, and
    [LIST_REMOVE_ZERO] takes it out of the one it is in.  Here a list is a value
    of its head, and these two operations look through the heads an entry can be
    linked from.  The code between lock and unlock of [sigtbl_mtx] is one step;
    [sig_dispatch_thread_mtx] only guards the handshake at the thread's start. *)

From Stdlib Require Import ZArith Lia Bool.
From stdpp Require Import base list gmap.
From S2P Require Import Prelude RBTree Event Map State Ops Knote LinuxUdata LinuxEpoll LinuxTimer LinuxUser LinuxKevent.

Definition SFD_NONBLOCK : Z := 0x800.
Definition SFD_CLOEXEC : Z := 0x80000.

(** [sizeof(struct signalfd_siginfo)] *)
Definition siginfo_size : Z := 128.

Section Signal.
Context {K : Type} `{OS K} `{FilterList K} (fuel : nat).
Implicit Types (w : world K) (p q s : ptr) (f : filt_ref) (sig : nat).

(** ** Access to the shared state *)

Definition get_sfs s : M (world K) sig_filter_state :=
  let! o := gets (fun w => w_sfss w !! s) in deref UseAfterFree o.
Definition put_sfs s (x : sig_filter_state) : M (world K) unit :=
  modify (fun w => set_w_sfss (<[s := x]> (w_sfss w)) w).
Definition upd_sfs s (g : sig_filter_state -> sig_filter_state) : M (world K) unit :=
  let! x := get_sfs s in put_sfs s (g x).
Definition upd_sig (g : sig_globals -> sig_globals) : M (world K) unit :=
  modify (fun w => set_w_sig (g (w_sig w)) w).

(** [filt->kf_state.sig.state], dereferenced by every caller *)
Definition filter_sfs f : M (world K) ptr :=
  let! x := get_filt f in deref NullDeref (kf_sig x).

(** [&sfs->sfs_links[sig]] *)
Definition get_link s sig : M (world K) sig_link :=
  let! x := get_sfs s in deref BadAddress (sfs_links x !! sig).
Definition upd_link s sig (g : sig_link -> sig_link) : M (world K) unit :=
  let! l := get_link s sig in
  upd_sfs s (fun x => set_sfs_links (<[sig := g l]> (sfs_links x)) x).

(** [sigtbl[sig].s_links] *)
Definition get_s_links sig : M (world K) (list ptr) :=
  let! t := gets (fun w => sigtbl (w_sig w)) in deref BadAddress (t !! sig).
Definition put_s_links sig (l : list ptr) : M (world K) unit :=
  upd_sig (fun g => set_sigtbl (<[sig := l]> (sigtbl g)) g).

Definition sigtbl_lock : M (world K) unit :=
  let! b := gets (fun w => sigtbl_mtx (w_sig w)) in
  if b then fail Deadlock else upd_sig (set_sigtbl_mtx true).
Definition sigtbl_unlock : M (world K) unit :=
  let! b := gets (fun w => sigtbl_mtx (w_sig w)) in
  if b then upd_sig (set_sigtbl_mtx false) else fail Deadlock.
Definition sig_init_lock : M (world K) unit :=
  let! b := gets (fun w => sig_init_mtx (w_sig w)) in
  if b then fail Deadlock else upd_sig (set_sig_init_mtx true).
Definition sig_init_unlock : M (world K) unit :=
  let! b := gets (fun w => sig_init_mtx (w_sig w)) in
  if b then upd_sig (set_sig_init_mtx false) else fail Deadlock.

(** ** The intrusive lists *)

Definition without p (l : list ptr) : list ptr := base.filter (fun r => r <> p) l.
#[global] Arguments without : simpl never.

Definition link_without p (l : sig_link) : sig_link :=
  SigLink (sl_filt l) (without p (kn_enabled l)) (without p (kn_disabled l)).
Definition entry_without p (x : sig_filter_state) : sig_filter_state :=
  set_sfs_links (link_without p <$> sfs_links x) x.
Definition pending_without p (x : sig_filter_state) : sig_filter_state :=
  set_sfs_pending (without p (sfs_pending x)) x.

(** [LIST_INSERTED(kn, kn_signal_entry)] and [LIST_INSERTED(kn, kn_signal_pending)] *)
Definition in_links p (x : sig_filter_state) : bool :=
  existsb (fun l => bool_decide (p ∈ kn_enabled l) || bool_decide (p ∈ kn_disabled l)) (sfs_links x).
Definition entry_inserted p w : bool :=
  existsb (fun e => in_links p e.2) (map_to_list (w_sfss w)).
Definition pending_inserted p w : bool :=
  existsb (fun e => bool_decide (p ∈ sfs_pending e.2)) (map_to_list (w_sfss w)).

(** [LIST_REMOVE_ZERO] on these entries *)
Definition remove_entry p : M (world K) unit :=
  modify (fun w => set_w_sfss (entry_without p <$> w_sfss w) w).
Definition remove_pending p : M (world K) unit :=
  modify (fun w => set_w_sfss (pending_without p <$> w_sfss w) w).

(** The same for [sl_entry]: the link of signal [sig] embedded in [s] *)
Definition sl_inserted s sig : M (world K) bool :=
  let! l := get_s_links sig in ret (bool_decide (s ∈ l)).
Definition sl_remove s sig : M (world K) unit :=
  let! l := get_s_links sig in put_s_links sig (without s l).

(** [LIST_INSERT_HEAD] *)
Definition insert_enabled s sig p : M (world K) unit :=
  upd_link s sig (fun l => set_kn_enabled (p :: kn_enabled l) l).
Definition insert_disabled s sig p : M (world K) unit :=
  upd_link s sig (fun l => set_kn_disabled (p :: kn_disabled l) l).
Definition insert_pending s p : M (world K) unit :=
  upd_sfs s (fun x => set_sfs_pending (p :: sfs_pending x) x).

Definition sl_has_no_knotes (l : sig_link) : bool :=
  bool_decide (kn_enabled l = []) && bool_decide (kn_disabled l = []).

(** ** Dispatch *)

(** [kn->kn_signal_count++], an [unsigned int] *)
Definition bump p : M (world K) unit :=
  upd_kn p (fun kn => set_kn_signal_count (u32 (kn_signal_count kn + 1)) kn).

(** One enabled knote: the new value of [wake]. *)
Definition dispatch_enabled s (wake : bool) p : M (world K) bool :=
  bump p ;;;
  let! pending := gets (pending_inserted p) in
  if pending then ret wake else insert_pending s p ;;; ret true.

Fixpoint dispatch_all_enabled s (wake : bool) (l : list ptr) : M (world K) bool :=
  match l with
  | [] => ret wake
  | p :: l' => let! wake := dispatch_enabled s wake p in dispatch_all_enabled s wake l'
  end.

(** [for (x in l) body] without a result *)
Fixpoint iter {X : Type} (body : X -> M (world K) unit) (l : list X) : M (world K) unit :=
  match l with [] => ret tt | x :: l' => body x ;;; iter body l' end.

(** The links of one signal: [r] is the [sig_filter_state] a link is in. *)
Definition dispatch_link sig (r : ptr) : M (world K) unit :=
  let! sl := get_link r sig in
  let! s := filter_sfs (sl_filt sl) in
  let! wake := dispatch_all_enabled s false (kn_enabled sl) in
  iter bump (kn_disabled sl) ;;;
  if wake then linux_eventfd_raise (sl_filt sl) ;;; ret tt else ret tt.

Definition sig_dispatch_handle (sig : Z) : M (world K) unit :=
  if (sig <=? 0) || (SIGNAL_MAX <=? sig) then ret tt
  else
    let! l := get_s_links (Z.to_nat sig) in
    iter (dispatch_link (Z.to_nat sig)) l.

(** ** The signalfd *)

Definition sig_platform_init : M (world K) Z :=
  upd_sig (set_sig_active_set ∅) ;;;
  let! r := sys (SysSignalfd (-1) ∅ (Z.lor SFD_NONBLOCK SFD_CLOEXEC)) in
  match r with
  | None => upd_sig (set_sig_signalfd (-1)) ;;; ret (-1)
  | Some fd => upd_sig (set_sig_signalfd fd) ;;; ret (if fd <? 0 then -1 else 0)
  end.

Definition sig_platform_destroy : M (world K) unit :=
  let! g := gets w_sig in
  if 0 <=? sig_signalfd g
  then sys (SysClose (sig_signalfd g)) ;;; upd_sig (set_sig_signalfd (-1))
  else ret tt.

Definition sig_platform_reset_after_fork : M (world K) unit :=
  let! g := gets w_sig in
  if 0 <=? sig_signalfd g
  then sys (SysClose (sig_signalfd g)) ;;; upd_sig (set_sig_signalfd (-1))
  else ret tt.

(** [while (sigtimedwait(&s, &info, &zero) > 0)] *)
Definition sig_drain (sig : Z) : M (world K) unit :=
  loop fuel (fun _ : unit =>
    let! r := sys (SysSigtimedwait {[sig]}) in
    ret (match r with Some n => if 0 <? n then inl tt else inr tt | None => inr tt end)) tt.

Definition sig_platform_add (sig : Z) : M (world K) Z :=
  let! r := sys (SysSigmaskBlock {[sig]}) in
  match r with
  | None => ret (-1)
  | Some _ =>
      sig_drain sig ;;;
      upd_sig (fun g => set_sig_active_set ({[sig]} ∪ sig_active_set g) g) ;;;
      let! g := gets w_sig in
      let! r := sys (SysSignalfd (sig_signalfd g) (sig_active_set g) 0) in
      match r with
      | None => upd_sig (fun g => set_sig_active_set (sig_active_set g ∖ {[sig]}) g) ;;; ret (-1)
      | Some _ => ret 0
      end
  end.

Definition sig_platform_remove (sig : Z) : M (world K) Z :=
  upd_sig (fun g => set_sig_active_set (sig_active_set g ∖ {[sig]}) g) ;;;
  let! g := gets w_sig in
  let! r := sys (SysSignalfd (sig_signalfd g) (sig_active_set g) 0) in
  ret (match r with None => -1 | Some _ => 0 end).

(** The read and dispatch under [sigtbl_mtx]: 1 to go on, -1 to leave. *)
Definition siginfo_dispatch : M (world K) Z :=
  sigtbl_lock ;;;
  let! g := gets w_sig in
  let! r := sys (SysSiginfoRead (sig_signalfd g) (64 * siginfo_size)) in
  match r with
  | None =>
      let! saved := errno in
      sigtbl_unlock ;;;
      ret (if (saved =? EINTR) || (saved =? EAGAIN) then 1 else -1)
  | Some (n, si) =>
      if n <? siginfo_size then sigtbl_unlock ;;; ret 1
      else
        iter (fun i => let! signo := deref Uninitialised (si !! i) in
                       sig_dispatch_handle (s32 signo))
          (seq 0 (Z.to_nat (n / siginfo_size))) ;;;
        sigtbl_unlock ;;; ret 1
  end.

Definition sig_platform_wait_dispatch : M (world K) Z :=
  let! g := gets w_sig in
  let! r := sys (SysSelect (sig_signalfd g) (sig_pipe0 g)) in
  match r with
  | None => let! e := errno in ret (if e =? EINTR then 1 else -1)
  | Some (sig_ready, pipe_ready) =>
      let! closed := (if pipe_ready then
                        let! n := sys (SysRead (sig_pipe0 g) 64) in
                        ret (match n with Some n => n <=? 0 | None => true end)
                      else ret false) in
      if closed then ret 0
      else if sig_ready then siginfo_dispatch else ret 1
  end.

(** ** The dispatch thread *)

(** The thread blocks every signal and reports that it runs. *)
Definition sig_dispatch_loop_start : M (world K) unit :=
  sys (SysSigmaskBlock (list_to_set (seqZ 1 64))) ;;;
  upd_sig (set_sig_dispatch_started true).

(** Rounds of the loop of [sig_dispatch_loop]: at most [n]; true when it ended. *)
Fixpoint sig_dispatch_loop (n : nat) : M (world K) bool :=
  match n with
  | O => ret false
  | S n' => let! rv := sig_platform_wait_dispatch in
            if rv <=? 0 then ret true else sig_dispatch_loop n'
  end.

Definition close_sig_pipe : M (world K) unit :=
  let! g := gets w_sig in
  sys (SysClose (sig_pipe0 g)) ;;; sys (SysClose (sig_pipe1 g)) ;;;
  upd_sig (fun g => set_sig_pipe1 (-1) (set_sig_pipe0 (-1) g)).

(** [pthread_cond_wait] until the thread has started: the new thread runs. *)
Definition sig_dispatch_start : M (world K) Z :=
  let! r := sys SysSocketpair in
  match r with
  | None => ret (-1)
  | Some (p0, p1) =>
      upd_sig (fun g => set_sig_pipe1 p1 (set_sig_pipe0 p0 g)) ;;;
      sys (SysFcntl p0 F_SETFL O_NONBLOCK) ;;;
      sys (SysFcntl p1 F_SETFL O_NONBLOCK) ;;;
      sys (SysFcntl p0 F_SETFD FD_CLOEXEC) ;;;
      sys (SysFcntl p1 F_SETFD FD_CLOEXEC) ;;;
      let! rv := sig_platform_init in
      if rv <? 0 then close_sig_pipe ;;; ret (-1)
      else
        let! t := sys SysPthreadCreate in
        match t with
        | None => sig_platform_destroy ;;; close_sig_pipe ;;; ret (-1)
        | Some tid =>
            upd_sig (fun g => set_sig_dispatch_thread_created true (set_sig_dispatch_thread tid g)) ;;;
            let! g := gets w_sig in
            (if sig_dispatch_started g then ret tt else sig_dispatch_loop_start) ;;;
            ret 0
        end
  end.

Definition sig_dispatch_stop : M (world K) unit :=
  let! g := gets w_sig in
  (if 0 <=? sig_pipe1 g then sys (SysClose (sig_pipe1 g)) ;;; upd_sig (set_sig_pipe1 (-1))
   else ret tt) ;;;
  (if sig_dispatch_thread_created g
   then sys (SysPthreadJoin (sig_dispatch_thread g)) ;;; upd_sig (set_sig_dispatch_thread_created false)
   else ret tt) ;;;
  (if 0 <=? sig_pipe0 g then sys (SysClose (sig_pipe0 g)) ;;; upd_sig (set_sig_pipe0 (-1))
   else ret tt) ;;;
  sig_platform_destroy ;;;
  upd_sig (set_sig_dispatch_started false).

Definition evfilt_signal_reset_after_fork : M (world K) unit :=
  upd_sig (fun g => set_sig_thread_mtx false (set_sig_init_mtx false g)) ;;;
  sig_platform_reset_after_fork ;;;
  upd_sig (fun g => set_sig_filter_count 0
    (set_sig_dispatch_started false (set_sig_dispatch_thread_created false g))) ;;;
  let! g := gets w_sig in
  (if 0 <=? sig_pipe0 g then sys (SysClose (sig_pipe0 g)) ;;; ret tt else ret tt) ;;;
  (if 0 <=? sig_pipe1 g then sys (SysClose (sig_pipe1 g)) ;;; ret tt else ret tt) ;;;
  upd_sig (fun g => set_sig_pipe1 (-1) (set_sig_pipe0 (-1) g)).

(** ** The filter's callbacks *)

(** A zeroed [struct sig_filter_state] with the back pointers set. *)
Definition new_sfs f : sig_filter_state :=
  SigFilterState (replicate (Z.to_nat SIGNAL_MAX) (SigLink f [] [])) [].

Definition free_sfs s : M (world K) unit :=
  let! _ := get_sfs s in modify (fun w => set_w_sfss (delete s (w_sfss w)) w).

Definition evfilt_signal_init f : M (world K) Z :=
  let! rv := linux_eventfd_init f in
  if rv <? 0 then ret (-1)
  else
    let! rv := linux_eventfd_register f.1 f in
    if rv <? 0 then linux_eventfd_close f ;;; ret (-1)
    else
      let! r := alloc in
      match r with
      | None =>
          linux_eventfd_unregister f.1 f ;;; linux_eventfd_close f ;;; ret (-1)
      | Some s =>
          put_sfs s (new_sfs f) ;;;
          upd_filt f (set_kf_sig (Some s)) ;;;
          sig_init_lock ;;;
          let! g := gets w_sig in
          let! rv := (if sig_filter_count g =? 0 then sig_dispatch_start else ret 0) in
          if rv <? 0 then
            sig_init_unlock ;;;
            free_sfs s ;;;
            upd_filt f (set_kf_sig None) ;;;
            linux_eventfd_unregister f.1 f ;;;
            linux_eventfd_close f ;;; ret (-1)
          else
            upd_sig (fun g => set_sig_filter_count (sig_filter_count g + 1) g) ;;;
            sig_init_unlock ;;; ret 0
      end.

Definition evfilt_signal_destroy f : M (world K) unit :=
  let! x := get_filt f in
  match kf_sig x with
  | Some s =>
      sigtbl_lock ;;;
      iter (fun sig => let! ins := sl_inserted s sig in
                       if ins then sl_remove s sig else ret tt)
        (seq 0 (Z.to_nat SIGNAL_MAX)) ;;;
      sigtbl_unlock ;;;
      free_sfs s ;;;
      upd_filt f (set_kf_sig None)
  | None => ret tt
  end ;;;
  linux_eventfd_unregister f.1 f ;;;
  linux_eventfd_close f ;;;
  sig_init_lock ;;;
  upd_sig (fun g => set_sig_filter_count (sig_filter_count g - 1) g) ;;;
  let! g := gets w_sig in
  (if sig_filter_count g =? 0 then sig_dispatch_stop else ret tt) ;;;
  sig_init_unlock.

(** [(int) kn->kev.ident] *)
Definition kn_sig (kn : knote) : Z := s32 (ident (kev kn)).

(** A signal number the filter accepts; [HAVE_SYS_PIDFD_OPEN] is set on Linux. *)
Definition sig_valid (sig : Z) : bool := (0 <? sig) && (sig <? SIGNAL_MAX).

(** The signal could not be watched: take the knote and its link out again. *)
Definition create_rollback s sig p : M (world K) Z :=
  let! saved := errno in
  remove_entry p ;;;
  let! sl := get_link s sig in
  (if sl_has_no_knotes sl then sl_remove s sig else ret tt) ;;;
  set_errno saved ;;; ret (-1).

Definition evfilt_signal_knote_create f p : M (world K) Z :=
  let! kn := get_kn p in
  let sig := kn_sig kn in
  if negb (sig_valid sig) then set_errno EINVAL ;;; ret (-1)
  else
    upd_kn p (fun kn => set_kev (set_flags (setb (flags (kev kn)) EV_CLEAR) (kev kn)) kn) ;;;
    let! s := filter_sfs f in
    sigtbl_lock ;;;
    let! links := get_s_links (Z.to_nat sig) in
    let first := bool_decide (links = []) in
    let! ins := sl_inserted s (Z.to_nat sig) in
    (if ins then ret tt else put_s_links (Z.to_nat sig) (s :: links)) ;;;
    insert_enabled s (Z.to_nat sig) p ;;;
    let! rv := (if first then
                  let! r := sig_platform_add sig in
                  if r =? 0 then ret 0
                  else create_rollback s (Z.to_nat sig) p
                else ret 0) in
    sigtbl_unlock ;;;
    ret rv.

Definition evfilt_signal_knote_modify f p (k : kevent) : M (world K) Z :=
  upd_kn p (fun kn => set_kev (set_flags
    (Z.lor (setb (flags k) EV_CLEAR) (Z.land (flags (kev kn)) EV_RECEIPT)) (kev kn)) kn) ;;;
  ret 0.

(** The index [(int) ident] into [sfs_links]: negative indices are out of bounds. *)
Definition sig_index (sig : Z) : M (world K) nat :=
  if sig <? 0 then fail BadAddress else ret (Z.to_nat sig).

Definition evfilt_signal_knote_delete f p : M (world K) Z :=
  let! kn := get_kn p in
  let! sig := sig_index (kn_sig kn) in
  let! s := filter_sfs f in
  sigtbl_lock ;;;
  let! ins := gets (entry_inserted p) in
  (if ins then remove_entry p else ret tt) ;;;
  let! pend := gets (pending_inserted p) in
  (if pend then remove_pending p else ret tt) ;;;
  upd_kn p (set_kn_signal_count 0) ;;;
  let! sl := get_link s sig in
  let! slins := sl_inserted s sig in
  (if sl_has_no_knotes sl && slins then sl_remove s sig else ret tt) ;;;
  let! links := get_s_links sig in
  (if bool_decide (links = []) then sig_platform_remove (kn_sig kn) ;;; ret tt else ret tt) ;;;
  sigtbl_unlock ;;;
  ret 0.

Definition evfilt_signal_knote_enable f p : M (world K) Z :=
  let! kn := get_kn p in
  let! sig := sig_index (kn_sig kn) in
  let! s := filter_sfs f in
  sigtbl_lock ;;;
  let! ins := gets (entry_inserted p) in
  (if ins then remove_entry p else ret tt) ;;;
  insert_enabled s sig p ;;;
  let! kn := get_kn p in
  let! pend := gets (pending_inserted p) in
  let wake := (0 <? kn_signal_count kn) && negb pend in
  (if wake then insert_pending s p else ret tt) ;;;
  sigtbl_unlock ;;;
  (if wake then linux_eventfd_raise f ;;; ret tt else ret tt) ;;;
  ret 0.

Definition evfilt_signal_knote_disable f p : M (world K) Z :=
  let! kn := get_kn p in
  let! sig := sig_index (kn_sig kn) in
  let! s := filter_sfs f in
  sigtbl_lock ;;;
  let! ins := gets (entry_inserted p) in
  (if ins then remove_entry p else ret tt) ;;;
  let! pend := gets (pending_inserted p) in
  (if pend then remove_pending p else ret tt) ;;;
  insert_disabled s sig p ;;;
  sigtbl_unlock ;;;
  ret 0.

(** *** Copyout *)

(** The event delivered for a knote. *)
Definition sig_event (kn : knote) : kevent :=
  Kevent (ident (kev kn)) EVFILT_SIGNAL (flags (kev kn)) 0 (kn_signal_count kn) (udata (kev kn)).

(** The walk over the pending list: the knotes emitted, at most [room]. *)
Fixpoint emit_loop (dst : Z) (room : nat) (l : list ptr) : M (world K) (list ptr) :=
  match l, room with
  | [], _ | _, O => ret []
  | p :: l', S room' =>
      let! kn := get_kn p in
      store dst (sig_event kn) ;;;
      remove_pending p ;;;
      upd_kn p (set_kn_signal_count 0) ;;;
      let! emitted := emit_loop (dst + 1) room' l' in
      ret (p :: emitted)
  end.

(** The critical section of [evfilt_signal_copyout]. *)
Definition copyout_emit (dst nevents : Z) f : M (world K) (list ptr) :=
  let! s := filter_sfs f in
  sigtbl_lock ;;;
  let! x := get_sfs s in
  let! emitted := emit_loop dst (Z.to_nat nevents) (sfs_pending x) in
  sigtbl_unlock ;;;
  ret emitted.

Definition evfilt_signal_copyout (dst nevents : Z) f (src : option ptr) (ev : raw_event)
    : M (world K) Z :=
  let! emitted := copyout_emit dst nevents f in
  let! r := for_each (fun p =>
              let! rv := knote_copyout_flag_actions f p in
              ret (if rv <? 0 then Some tt else None)) emitted in
  match r with
  | Some _ => ret (-1)
  | None => linux_eventfd_lower f ;;; ret (Z.of_nat (length emitted))
  end.

Definition evfilt_signal : filter_src K :=
  FilterSrc EVFILT_SIGNAL
    (FilterOps (Some evfilt_signal_init) (Some evfilt_signal_destroy) evfilt_signal_copyout
       evfilt_signal_knote_create evfilt_signal_knote_modify evfilt_signal_knote_delete
       evfilt_signal_knote_enable evfilt_signal_knote_disable).
End Signal.
