(* ===== verification/SignalSpec.v ===== *)
(** * The signal filter against its specification

    The specification [sreg] has no lists and no table: a registration is the
    filter it belongs to, its signal, whether it is enabled, and the number of
    signals it owes.  [sig_rep w A] says that the lists of evfilt_signal.h
    represent the registrations [A]. *)

From Stdlib Require Import ZArith Lia Bool.
From stdpp Require Import base list gmap.
From S2P Require Import Prelude RBTree Event Map State Ops Knote LinuxUdata LinuxEpoll LinuxTimer LinuxUser LinuxKevent Signal.

(** ** The specification *)

Record sreg := SReg { sr_sfs : ptr; sr_sig : nat; sr_on : bool; sr_count : Z }.

Definition set_sr_on (b : bool) (r : sreg) : sreg := SReg (sr_sfs r) (sr_sig r) b (sr_count r).
Definition set_sr_count (c : Z) (r : sreg) : sreg := SReg (sr_sfs r) (sr_sig r) (sr_on r) c.

(** One more signal for [r], counted in an [unsigned int]. *)
Definition sr_bump (r : sreg) : sreg := set_sr_count (u32 (sr_count r + 1)) r.

(** A signal bumps every registration for it. *)
Definition spec_fire (sig : Z) (A : gmap ptr sreg) : gmap ptr sreg :=
  (fun r => if Z.of_nat (sr_sig r) =? sig then sr_bump r else r) <$> A.

(** Delivery of the knotes [l] leaves them owing nothing. *)
Definition spec_emit (l : list ptr) (A : gmap ptr sreg) : gmap ptr sreg :=
  map_imap (fun p r => Some (if bool_decide (p ∈ l) then set_sr_count 0 r else r)) A.

(** The registrations of the state [s] that are enabled and owe a signal. *)
Definition sr_ready (s : ptr) (r : sreg) : bool :=
  bool_decide (sr_sfs r = s) && sr_on r && (0 <? sr_count r).

(** ** The representation *)

Definition sig_slot {K : Type} (w : world K) (f : filt_ref) : option ptr :=
  slot_of w f.1 f.2 ≫= kf_sig.

(** [p] is registered with [s] for [sig], enabled or not as [b] says. *)
Definition regd (A : gmap ptr sreg) (p s : ptr) (sig : nat) (b : bool) : Prop :=
  exists c, A !! p = Some (SReg s sig b c).

Record sfs_ok {K : Type} (w : world K) (A : gmap ptr sreg) (s : ptr) (y : sig_filter_state) : Prop :=
  { so_len : length (sfs_links y) = Z.to_nat SIGNAL_MAX;
    so_filt : exists f, sig_slot w f = Some s /\
      forall sig l, sfs_links y !! sig = Some l -> sl_filt l = f;
    so_link : forall sig l, sfs_links y !! sig = Some l ->
      NoDup (kn_enabled l) /\ NoDup (kn_disabled l) /\
      forall p, (p ∈ kn_enabled l <-> regd A p s sig true) /\ (p ∈ kn_disabled l <-> regd A p s sig false);
    so_nodup : NoDup (sfs_pending y);
    so_pending : forall p, p ∈ sfs_pending y -> exists sig, regd A p s sig true;
    so_ready : forall p r, A !! p = Some r -> sr_ready s r = true -> p ∈ sfs_pending y }.

Record sig_rep {K : Type} (w : world K) (A : gmap ptr sreg) : Prop :=
  { re_len : length (sigtbl (w_sig w)) = Z.to_nat SIGNAL_MAX;
    re_slot : forall f s, sig_slot w f = Some s -> is_Some (w_sfss w !! s);
    re_inj : forall f g s, sig_slot w f = Some s -> sig_slot w g = Some s -> f = g;
    re_sfs : forall s y, w_sfss w !! s = Some y -> sfs_ok w A s y;
    re_live : forall p r, A !! p = Some r -> exists kn, w_knotes w !! p = Some kn /\
      kn_sig kn = Z.of_nat (sr_sig r) /\ sig_valid (Z.of_nat (sr_sig r)) = true /\
      kn_signal_count kn = sr_count r /\ is_Some (w_sfss w !! sr_sfs r);
    re_table : forall sig l, sigtbl (w_sig w) !! sig = Some l ->
      NoDup l /\ forall s, s ∈ l <-> exists p b, regd A p s sig b }.

(** Steps that leave alone what [sig_rep] speaks of. *)
Record sig_same {K : Type} (A : gmap ptr sreg) (w w' : world K) : Prop :=
  { ss_slot : forall f, sig_slot w' f = sig_slot w f;
    ss_sfss : w_sfss w' = w_sfss w;
    ss_tbl : sigtbl (w_sig w') = sigtbl (w_sig w);
    ss_kn : forall p kn, is_Some (A !! p) -> w_knotes w !! p = Some kn ->
      exists kn', w_knotes w' !! p = Some kn' /\ kn_sig kn' = kn_sig kn /\
        kn_signal_count kn' = kn_signal_count kn }.

Section Rep.
Context {K : Type} `{OS K} `{FilterList K}.
Implicit Types (w : world K) (p q s : ptr) (f : filt_ref) (sig : nat) (A : gmap ptr sreg).

Lemma sfs_ok_slot w w' A s y :
  (forall f, sig_slot w' f = sig_slot w f) -> sfs_ok w A s y -> sfs_ok w' A s y.
Proof.
  intros Hs [H1 (f & Hf & Hl) H3 H4 H5 H6]. split; try done. exists f. by rewrite Hs.
Qed.

Lemma sig_rep_same w w' A : sig_same A w w' -> sig_rep w A -> sig_rep w' A.
Proof.
  intros [Hs Hf Ht Hk] [R1 R2 Ri R3 R4 R5]. split; rewrite ?Hf, ?Ht; try done.
  - intros f s. rewrite Hs. apply R2.
  - intros f g s. rewrite !Hs. apply Ri.
  - intros s y Hy. by eapply sfs_ok_slot, R3.
  - intros p r Hp. destruct (R4 p r Hp) as (kn & E & ? & ? & ? & ?).
    destruct (Hk p kn ltac:(eauto) E) as (kn' & ? & ? & ?). exists kn'. split_and!; congruence.
Qed.

#[global] Instance sig_same_preorder A : PreOrder (sig_same (K := K) A).
Proof.
  split.
  - intros w. split; eauto.
  - intros w1 w2 w3 [A1 A2 A3 A4] [B1 B2 B3 B4]. split; try congruence.
    intros p kn Hp Hk. destruct (A4 _ _ Hp Hk) as (k2 & ? & ? & ?).
    destruct (B4 _ _ Hp H1) as (k3 & ? & ? & ?). exists k3. split_and!; congruence.
Qed.

Lemma same_os A w k : sig_same A w (set_w_os k w).
Proof. split; eauto. Qed.
Lemma same_errno A w e : sig_same A w (set_w_errno e w).
Proof. split; eauto. Qed.
Lemma same_sig A w g : sigtbl g = sigtbl (w_sig w) -> sig_same A w (set_w_sig g w).
Proof. split; eauto. Qed.
Lemma same_mem A w m : sig_same A w (set_w_mem m w).
Proof. split; eauto. Qed.

(** ** Reading the shared state *)

Lemma wp_get_sfs s y (Q : sig_filter_state -> world K -> Prop) w :
  w_sfss w !! s = Some y -> Q y w -> wp (get_sfs s) Q w.
Proof. intros E HQ. unfold get_sfs. wp_simpl. by rewrite E. Qed.

Lemma wp_upd_sfs s y g (Q : unit -> world K -> Prop) w :
  w_sfss w !! s = Some y -> Q tt (set_w_sfss (<[s := g y]> (w_sfss w)) w) -> wp (upd_sfs s g) Q w.
Proof. intros E HQ. unfold upd_sfs. wp_simpl. by eapply wp_get_sfs. Qed.

Lemma wp_get_link s y sig l (Q : sig_link -> world K -> Prop) w :
  w_sfss w !! s = Some y -> sfs_links y !! sig = Some l -> Q l w -> wp (get_link s sig) Q w.
Proof. intros E El HQ. unfold get_link. wp_simpl. eapply wp_get_sfs; [done|]. by rewrite El. Qed.

Lemma wp_upd_link s y sig l g (Q : unit -> world K -> Prop) w :
  w_sfss w !! s = Some y -> sfs_links y !! sig = Some l ->
  Q tt (set_w_sfss (<[s := set_sfs_links (<[sig := g l]> (sfs_links y)) y]> (w_sfss w)) w) ->
  wp (upd_link s sig g) Q w.
Proof.
  intros E El HQ. unfold upd_link. wp_simpl. eapply wp_get_link; [done..|].
  by eapply wp_upd_sfs.
Qed.

Lemma wp_get_s_links sig l (Q : list ptr -> world K -> Prop) w :
  sigtbl (w_sig w) !! sig = Some l -> Q l w -> wp (get_s_links sig) Q w.
Proof. intros E HQ. unfold get_s_links. wp_simpl. by rewrite E. Qed.

Lemma wp_upd_sig g (Q : unit -> world K -> Prop) w :
  wp (upd_sig g) Q w = Q tt (set_w_sig (g (w_sig w)) w).
Proof. done. Qed.
Lemma wp_put_s_links sig l (Q : unit -> world K -> Prop) w :
  wp (put_s_links sig l) Q w =
  Q tt (set_w_sig (set_sigtbl (<[sig := l]> (sigtbl (w_sig w))) (w_sig w)) w).
Proof. done. Qed.
Lemma wp_remove_entry p (Q : unit -> world K -> Prop) w :
  wp (remove_entry p) Q w = Q tt (set_w_sfss (entry_without p <$> w_sfss w) w).
Proof. done. Qed.
Lemma wp_remove_pending p (Q : unit -> world K -> Prop) w :
  wp (remove_pending p) Q w = Q tt (set_w_sfss (pending_without p <$> w_sfss w) w).
Proof. done. Qed.

Lemma wp_filter_sfs f s (Q : ptr -> world K -> Prop) w :
  sig_slot w f = Some s -> Q s w -> wp (filter_sfs f) Q w.
Proof.
  intros E HQ. unfold filter_sfs. destruct f as [q i]. unfold sig_slot, slot_of in E. simpl in E.
  destruct (w_kqs w !! q) as [kq|] eqn:Ek; [|done]. simpl in E.
  destruct (kq_filt kq !! i) as [x|] eqn:Ei; [|done]. simpl in E. wp_simpl.
  eapply wp_get_filt; [done..|]. by rewrite E.
Qed.

Lemma wp_raise f s (Q : Z -> world K -> Prop) w :
  sig_slot w f = Some s -> (forall rv e k, Q rv (set_w_errno e (set_w_os k w))) ->
  wp (linux_eventfd_raise f) Q w.
Proof.
  intros E HQ. destruct f as [q i]. unfold sig_slot, slot_of in E. simpl in E.
  destruct (w_kqs w !! q) as [kq|] eqn:Ek; [|done]. simpl in E.
  destruct (kq_filt kq !! i) as [x|] eqn:Ei; [|done].
  unfold linux_eventfd_raise. wp_simpl. eapply wp_get_filt; [done..|].
  unfold eventfd_raise, errno. wp_simpl. apply wp_sys; intros; wp_simpl.
  - apply (HQ 0 (w_errno w)).
  - repeat case_match; apply HQ.
Qed.

(** A knote is pending somewhere iff it is pending where it is registered. *)
Lemma regd_inj A p s sig b s' sig' b' :
  regd A p s sig b -> regd A p s' sig' b' -> s = s' /\ sig = sig' /\ b = b'.
Proof. intros [c E] [c' E']. naive_solver. Qed.

Lemma pending_inserted_spec w A p r y :
  sig_rep w A -> A !! p = Some r -> w_sfss w !! sr_sfs r = Some y ->
  pending_inserted p w = bool_decide (p ∈ sfs_pending y).
Proof.
  intros R Hp Hy. apply eq_bool_prop_intro. rewrite bool_decide_spec. unfold pending_inserted.
  rewrite Is_true_true, existsb_exists. split.
  - intros ([s z] & Hin & Hb%bool_decide_eq_true). simpl in Hb.
    apply list_elem_of_In, elem_of_map_to_list in Hin.
    destruct (so_pending _ _ _ _ (re_sfs _ _ R _ _ Hin) _ Hb) as (sig & c & E). by simplify_eq/=.
  - intros Hin. exists (sr_sfs r, y). split; [|by apply bool_decide_eq_true].
    by apply list_elem_of_In, elem_of_map_to_list.
Qed.

Lemma entry_inserted_spec w A p : sig_rep w A -> entry_inserted p w = bool_decide (is_Some (A !! p)).
Proof.
  intros R. apply eq_bool_prop_intro. rewrite bool_decide_spec. unfold entry_inserted.
  rewrite Is_true_true, existsb_exists. split.
  - intros ([s y] & Hin & Hb). simpl in Hb. apply list_elem_of_In, elem_of_map_to_list in Hin.
    apply existsb_exists in Hb as (l & Hl & Hb).
    apply list_elem_of_In, list_elem_of_lookup in Hl as [sig Hl].
    destruct (so_link _ _ _ _ (re_sfs _ _ R _ _ Hin) _ _ Hl) as (_ & _ & Hr).
    destruct (Hr p) as [He Hd]. apply orb_true_iff in Hb as [Hb|Hb];
      apply bool_decide_eq_true in Hb; [apply He in Hb as [c E]|apply Hd in Hb as [c E]]; eauto.
  - intros [r Hr]. destruct (re_live _ _ R _ _ Hr) as (kn & _ & _ & Hv & _ & [y Hy]).
    exists (sr_sfs r, y). split; [by apply list_elem_of_In, elem_of_map_to_list|].
    pose proof (re_sfs _ _ R _ _ Hy) as Hok.
    destruct (lookup_lt_is_Some_2 (sfs_links y) (sr_sig r)) as [l Hl].
    { rewrite (so_len _ _ _ _ Hok). unfold sig_valid in Hv. lia. }
    apply existsb_exists. exists l. split; [by apply list_elem_of_In, (list_elem_of_lookup_2 _ _ _ Hl)|].
    destruct (so_link _ _ _ _ Hok _ _ Hl) as (_ & _ & Hp). destruct (Hp p) as [He Hd].
    apply orb_true_iff. destruct r as [s sig [] c]; [left|right]; apply bool_decide_eq_true;
      [apply He|apply Hd]; by exists c.
Qed.
End Rep.
#[export] Hint Rewrite @wp_upd_sig @wp_put_s_links @wp_remove_entry @wp_remove_pending : wp.
Create HintDb sigsame.
#[export] Hint Resolve same_os same_errno same_sig same_mem : sigsame.

(** ** The change of one registration *)

(** [l'] is [l] except for [p], which is in it iff [P]. *)
Definition list_step (p : ptr) (P : Prop) (l l' : list ptr) : Prop :=
  (NoDup l -> NoDup l') /\ (forall q, q <> p -> q ∈ l' <-> q ∈ l) /\ (p ∈ l' <-> P).

Lemma elem_of_without p q l : q ∈ without p l <-> q <> p /\ q ∈ l.
Proof. unfold without. by rewrite list_elem_of_filter. Qed.

Lemma NoDup_without p l : NoDup l -> NoDup (without p l).
Proof. apply NoDup_filter. Qed.

Lemma list_step_id p P l : (p ∈ l <-> P) -> list_step p P l l.
Proof. by intros HP. Qed.

Lemma list_step_without p (P : Prop) l : ~ P -> list_step p P l (without p l).
Proof.
  intros HP. split_and!; [apply NoDup_without|..].
  - intros q Hq. rewrite elem_of_without. naive_solver.
  - rewrite elem_of_without. naive_solver.
Qed.

Lemma list_step_insert p (P : Prop) l : P -> list_step p P l (p :: without p l).
Proof.
  intros HP. split_and!.
  - intros Hl. constructor; [rewrite elem_of_without; naive_solver|by apply NoDup_without].
  - intros q Hq. rewrite elem_of_cons, elem_of_without. naive_solver.
  - rewrite elem_of_cons. naive_solver.
Qed.

Lemma without_id p l : p ∉ l -> without p l = l.
Proof.
  induction l as [|r l IH]; intros Hp; [done|]. apply not_elem_of_cons in Hp as [Hr Hp].
  unfold without. rewrite filter_cons_True by congruence. f_equal. by apply IH.
Qed.

Definition is_reg (ro : option sreg) (s : ptr) (sig : nat) (b : bool) : Prop :=
  exists c, ro = Some (SReg s sig b c).

Record sfs_step (p : ptr) (ro : option sreg) (s : ptr) (y y' : sig_filter_state) : Prop :=
  { sc_len : length (sfs_links y') = length (sfs_links y);
    sc_links : forall sig l', sfs_links y' !! sig = Some l' ->
      exists l, sfs_links y !! sig = Some l /\ sl_filt l' = sl_filt l /\
        list_step p (is_reg ro s sig true) (kn_enabled l) (kn_enabled l') /\
        list_step p (is_reg ro s sig false) (kn_disabled l) (kn_disabled l');
    sc_nodup : NoDup (sfs_pending y) -> NoDup (sfs_pending y');
    sc_others : forall q, q <> p -> q ∈ sfs_pending y' <-> q ∈ sfs_pending y;
    sc_pending : p ∈ sfs_pending y' -> exists sig, is_reg ro s sig true;
    sc_ready : forall r, ro = Some r -> sr_ready s r = true -> p ∈ sfs_pending y' }.

Section Change.
Context {K : Type} `{OS K} `{FilterList K}.
Implicit Types (w : world K) (p q s : ptr) (f : filt_ref) (sig : nat) (A : gmap ptr sreg).

(** [A] with the registration of [p] replaced. *)
Definition with_reg p (ro : option sreg) A : gmap ptr sreg := partial_alter (fun _ => ro) p A.

Lemma regd_with A p ro q s sig b :
  regd (with_reg p ro A) q s sig b <->
  (q = p /\ is_reg ro s sig b) \/ (q <> p /\ regd A q s sig b).
Proof.
  unfold regd, with_reg, is_reg. destruct (decide (q = p)) as [->|Hq].
  - rewrite lookup_partial_alter_eq. naive_solver.
  - rewrite lookup_partial_alter_ne by done. naive_solver.
Qed.

Lemma sfs_step_ok w w' A p ro s y y' :
  (forall f, sig_slot w' f = sig_slot w f) -> sfs_ok w A s y -> sfs_step p ro s y y' ->
  sfs_ok w' (with_reg p ro A) s y'.
Proof.
  intros Hs [H1 (f & Hf & Hl) H3 H4 H5 H6] [C1 C2 C3 C4 C5 C6]. split.
  - congruence.
  - exists f. split; [by rewrite Hs|]. intros sig l' Hl'.
    destruct (C2 _ _ Hl') as (l & E & -> & _). by eapply Hl.
  - intros sig l' Hl'. destruct (C2 _ _ Hl') as (l & E & _ & (D1 & D2 & D3) & (E1 & E2 & E3)).
    destruct (H3 _ _ E) as (N1 & N2 & Hr). split_and!; [auto..|]. intros q. destruct (Hr q) as [Q1 Q2].
    rewrite !regd_with. destruct (decide (q = p)) as [->|Hq].
    + rewrite D3, E3. naive_solver.
    + rewrite D2, E2 by done. naive_solver.
  - auto.
  - intros q Hq. destruct (decide (q = p)) as [->|Hne].
    + destruct (C5 Hq) as (sig & Hr). exists sig. apply regd_with. by left.
    + apply C4 in Hq; [|done]. destruct (H5 _ Hq) as (sig & Hr). exists sig. apply regd_with. by right.
  - intros q r Hq Hr. unfold with_reg in Hq. destruct (decide (q = p)) as [->|Hne].
    + rewrite lookup_partial_alter_eq in Hq. by eapply C6.
    + rewrite lookup_partial_alter_ne in Hq by done. apply C4; [done|]. by eapply H6.
Qed.

Lemma rep_change w w' A p ro :
  sig_rep w A ->
  (forall f, sig_slot w' f = sig_slot w f) ->
  (forall r, r <> p -> w_knotes w' !! r = w_knotes w !! r) ->
  (forall r, ro = Some r -> exists kn, w_knotes w' !! p = Some kn /\
     kn_sig kn = Z.of_nat (sr_sig r) /\ sig_valid (Z.of_nat (sr_sig r)) = true /\
     kn_signal_count kn = sr_count r /\ is_Some (w_sfss w !! sr_sfs r)) ->
  (forall s y', w_sfss w' !! s = Some y' -> exists y, w_sfss w !! s = Some y /\ sfs_step p ro s y y') ->
  (forall s, is_Some (w_sfss w !! s) -> is_Some (w_sfss w' !! s)) ->
  length (sigtbl (w_sig w')) = length (sigtbl (w_sig w)) ->
  (forall sig l', sigtbl (w_sig w') !! sig = Some l' ->
     NoDup l' /\ forall s, s ∈ l' <-> exists q b, regd (with_reg p ro A) q s sig b) ->
  sig_rep w' (with_reg p ro A).
Proof.
  intros [R1 R2 Ri R3 R4 R5] Hs Hk Hp Hy Hd Hl Ht. split; [congruence|..|done].
  - intros f s. rewrite Hs. eauto.
  - intros f g s. rewrite !Hs. apply Ri.
  - intros s y' Hy'. destruct (Hy _ _ Hy') as (y & E & Hst). by eapply sfs_step_ok, Hst; [|apply R3].
  - intros q r. unfold with_reg. destruct (decide (q = p)) as [->|Hne].
    + rewrite lookup_partial_alter_eq. intros Hr. destruct (Hp _ Hr) as (kn & ? & ? & ? & ? & ?).
      exists kn. eauto 10.
    + rewrite lookup_partial_alter_ne by done. intros Hr.
      destruct (R4 _ _ Hr) as (kn & E & ? & ? & ? & ?). exists kn. rewrite Hk by done. eauto 10.
Qed.

(** When the filter and the signal stay, so does the table. *)
Lemma rep_update w w' A p r r' :
  sig_rep w A -> A !! p = Some r -> sr_sfs r' = sr_sfs r -> sr_sig r' = sr_sig r ->
  (forall f, sig_slot w' f = sig_slot w f) ->
  (forall q, q <> p -> w_knotes w' !! q = w_knotes w !! q) ->
  (forall kn, w_knotes w !! p = Some kn -> exists kn', w_knotes w' !! p = Some kn' /\
     kn_sig kn' = kn_sig kn /\ kn_signal_count kn' = sr_count r') ->
  (forall s y', w_sfss w' !! s = Some y' -> exists y, w_sfss w !! s = Some y /\ sfs_step p (Some r') s y y') ->
  (forall s, is_Some (w_sfss w !! s) -> is_Some (w_sfss w' !! s)) ->
  sigtbl (w_sig w') = sigtbl (w_sig w) ->
  sig_rep w' (<[p := r']> A).
Proof.
  intros R Hr E1 E2 Hs Hk Hkp Hy Hd Ht. apply (rep_change w w' A p (Some r')); try done.
  - intros ? [= <-]. destruct (re_live _ _ R _ _ Hr) as (kn & Ek & ? & Hv & ? & ?).
    destruct (Hkp _ Ek) as (kn' & ? & ? & ?). exists kn'. rewrite E1, E2. split_and!; congruence || done.
  - by rewrite Ht.
  - intros sig l. rewrite Ht. intros Hl. destruct (re_table _ _ R _ _ Hl) as [Hn Hin]. split; [done|].
    intros s. rewrite Hin. split; intros (q & b & Hq).
    + destruct (decide (q = p)) as [->|Hne].
      * destruct Hq as [c Hc]. exists p, (sr_on r'). apply regd_with. left. split; [done|].
        exists (sr_count r'). destruct r'; naive_solver.
      * exists q, b. apply regd_with. by right.
    + apply regd_with in Hq as [[-> [c Hc]]|[_ Hq]]; [|eauto].
      exists p, (sr_on r), (sr_count r). rewrite Hr. destruct r; naive_solver.
Qed.
End Change.

(** ** Dispatch *)

(** What the dispatch thread may touch: the counts of knotes and the lists. *)
Record disp_frame {K : Type} (w w' : world K) : Prop :=
  { df_kqs : w_kqs w' = w_kqs w;
    df_sig : w_sig w' = w_sig w;
    df_mem : w_mem w' = w_mem w;
    df_kn : set_kn_signal_count 0 <$> w_knotes w' = set_kn_signal_count 0 <$> w_knotes w }.
#[export] Instance disp_frame_preorder {K : Type} : PreOrder (disp_frame (K := K)).
Proof. split; [by intros|]. intros ??? [????] [????]. split; congruence. Qed.

Lemma disp_slot {K : Type} (w w' : world K) f : disp_frame w w' -> sig_slot w' f = sig_slot w f.
Proof. intros [E _ _ _]. unfold sig_slot, slot_of. by rewrite E. Qed.

Lemma disp_os {K : Type} (w : world K) e k : disp_frame w (set_w_errno e (set_w_os k w)).
Proof. by split. Qed.

Lemma disp_bump {K : Type} (w : world K) p kn c :
  w_knotes w !! p = Some kn ->
  disp_frame w (set_w_knotes (<[p := set_kn_signal_count c kn]> (w_knotes w)) w).
Proof.
  intros E. split; try done. simpl. rewrite fmap_insert. apply insert_id. by rewrite lookup_fmap, E.
Qed.

(** The registrations of the knotes [l] bumped, in a run over [l]. *)
Definition bump_all (l : list ptr) (A : gmap ptr sreg) : gmap ptr sreg :=
  map_imap (fun p r => Some (if bool_decide (p ∈ l) then sr_bump r else r)) A.

Lemma bump_all_lookup l A p :
  bump_all l A !! p = (fun r => if bool_decide (p ∈ l) then sr_bump r else r) <$> A !! p.
Proof. unfold bump_all. rewrite map_lookup_imap. by destruct (A !! p). Qed.

Lemma bump_all_nil A : bump_all [] A = A.
Proof. apply map_eq. intros p. rewrite bump_all_lookup. by destruct (A !! p). Qed.

Lemma bump_all_cons p l A r :
  A !! p = Some r -> p ∉ l -> bump_all l (<[p := sr_bump r]> A) = bump_all (p :: l) A.
Proof.
  intros Hr Hp. apply map_eq. intros q. rewrite !bump_all_lookup.
  destruct (decide (q = p)) as [->|Hq].
  - rewrite lookup_insert_eq, Hr. simpl. rewrite bool_decide_eq_false_2 by done.
    by rewrite bool_decide_eq_true_2 by (by left).
  - rewrite lookup_insert_ne by done. destruct (A !! q); [|done]. simpl. do 2 f_equal.
    rewrite (bool_decide_ext (q ∈ p :: l) (q ∈ l)); [done|]. rewrite elem_of_cons. naive_solver.
Qed.

Lemma bump_all_app l1 l2 A :
  (forall p, p ∈ l1 -> p ∉ l2) -> bump_all l2 (bump_all l1 A) = bump_all (l1 ++ l2) A.
Proof.
  intros Hd. apply map_eq. intros q. rewrite !bump_all_lookup. destruct (A !! q) as [r|]; [|done].
  simpl. f_equal. specialize (Hd q).
  destruct (bool_decide_reflect (q ∈ l1)), (bool_decide_reflect (q ∈ l2)), (bool_decide_reflect (q ∈ l1 ++ l2));
    try done; set_solver.
Qed.

Section Dispatch.
Context {K : Type} `{OS K} `{FilterList K}.
Implicit Types (w : world K) (p q s : ptr) (f : filt_ref) (sig : nat) (A : gmap ptr sreg).

(** Another count: the lists of the links stay. *)
Lemma is_reg_count A p r c s sig b :
  A !! p = Some r -> is_reg (Some (set_sr_count c r)) s sig b <-> regd A p s sig b.
Proof.
  intros Hr. unfold is_reg, regd. rewrite Hr. destruct r as [s1 n1 b1 c1]. cbn.
  split; intros [c' Hc]; injection Hc as -> -> -> _; eauto.
Qed.

Lemma links_count w A s y p r c sig l :
  sfs_ok w A s y -> A !! p = Some r -> sfs_links y !! sig = Some l ->
  exists l0, sfs_links y !! sig = Some l0 /\ sl_filt l = sl_filt l0 /\
    list_step p (is_reg (Some (set_sr_count c r)) s sig true) (kn_enabled l0) (kn_enabled l) /\
    list_step p (is_reg (Some (set_sr_count c r)) s sig false) (kn_disabled l0) (kn_disabled l).
Proof.
  intros Hok Hr Hl. exists l. destruct (so_link _ _ _ _ Hok _ _ Hl) as (_ & _ & Hq).
  split_and!; try done; apply list_step_id; rewrite is_reg_count by done; apply Hq.
Qed.

Lemma sfs_step_count w A s y p r c :
  sfs_ok w A s y -> A !! p = Some r -> (sr_ready s (set_sr_count c r) = true -> p ∈ sfs_pending y) ->
  sfs_step p (Some (set_sr_count c r)) s y y.
Proof.
  intros Hok Hr Hp. split; try done.
  - intros sig l Hl. by eapply links_count.
  - intros Hin. destruct (so_pending _ _ _ _ Hok _ Hin) as (sig & Hs). exists sig. by rewrite is_reg_count.
  - intros r' [= <-]. exact Hp.
Qed.

Lemma sfs_step_pend w A s y p r c :
  sfs_ok w A s y -> A !! p = Some r -> sr_sfs r = s -> sr_on r = true -> p ∉ sfs_pending y ->
  sfs_step p (Some (set_sr_count c r)) s y (set_sfs_pending (p :: sfs_pending y) y).
Proof.
  intros Hok Hr <- Hon Hp. split; cbn; try done.
  - intros sig l Hl. by eapply links_count.
  - intros Hn. by constructor.
  - intros q Hq. rewrite elem_of_cons. naive_solver.
  - intros _. exists (sr_sig r), c. unfold set_sr_count. by rewrite Hon.
  - intros. by left.
Qed.

(** [kn->kn_signal_count++] on an enabled and on a disabled knote *)
Lemma dispatch_enabled_ok w A p r wake :
  sig_rep w A -> A !! p = Some r -> sr_on r = true ->
  wp (dispatch_enabled (sr_sfs r) wake p) (fun _ w' =>
    sig_rep w' (<[p := sr_bump r]> A) /\ disp_frame w w') w.
Proof.
  intros R Hr Hon. destruct (re_live _ _ R _ _ Hr) as (kn & Ek & ? & ? & Hc & [y Hy]).
  pose proof (re_sfs _ _ R) as Hok. unfold dispatch_enabled, bump. wp_simpl. wp_prim. wp_simpl.
  set (w1 := set_w_knotes _ w).
  assert (Hpend : pending_inserted p w1 = bool_decide (p ∈ sfs_pending y)) by (by apply (pending_inserted_spec w A p r)).
  rewrite Hpend. case_bool_decide as Hin; wp_simpl.
  - split; [|by apply disp_bump]. apply (rep_update w _ A p r); try done.
    + intros q Hq. simpl. by rewrite lookup_insert_ne.
    + intros ? [= <-]%(eq_trans (eq_sym Ek)). simpl. rewrite lookup_insert_eq, Hc. by eexists.
    + intros s z Hz. exists z. split; [done|]. eapply sfs_step_count; [by apply Hok|done|].
      intros Hrd. unfold sr_ready in Hrd. simpl in Hrd.
      destruct (bool_decide_reflect (sr_sfs r = s)) as [<-|]; [|done]. simpl in Hz. by simplify_eq.
  - eapply wp_upd_sfs; [exact Hy|]. split.
    + apply (rep_update w _ A p r); try done.
      * intros q Hq. simpl. by rewrite lookup_insert_ne.
      * intros ? [= <-]%(eq_trans (eq_sym Ek)). simpl. rewrite lookup_insert_eq, Hc. by eexists.
      * intros s z. simpl. destruct (decide (s = sr_sfs r)) as [->|Hs].
        -- rewrite lookup_insert_eq. intros [= <-]. exists y. split; [done|].
           eapply sfs_step_pend; [by apply Hok|done..].
        -- rewrite lookup_insert_ne by done. intros Hz. exists z. split; [done|].
           eapply sfs_step_count; [by apply Hok|done|].
           intros Hrd. unfold sr_ready in Hrd. simpl in Hrd. by rewrite bool_decide_eq_false_2 in Hrd.
      * intros s Hs. simpl. destruct (decide (s = sr_sfs r)) as [->|Hne];
          [by rewrite lookup_insert_eq|by rewrite lookup_insert_ne].
    + transitivity w1; [by apply disp_bump|by split].
Qed.

Lemma bump_disabled_ok w A p r :
  sig_rep w A -> A !! p = Some r -> sr_on r = false ->
  wp (bump p) (fun _ w' => sig_rep w' (<[p := sr_bump r]> A) /\ disp_frame w w') w.
Proof.
  intros R Hr Hon. destruct (re_live _ _ R _ _ Hr) as (kn & Ek & ? & ? & Hc & [y Hy]).
  unfold bump. wp_prim. split; [|by apply disp_bump]. apply (rep_update w _ A p r); try done.
  - intros q Hq. simpl. by rewrite lookup_insert_ne.
  - intros ? [= <-]%(eq_trans (eq_sym Ek)). simpl. rewrite lookup_insert_eq, Hc. by eexists.
  - intros s z Hz. exists z. split; [done|]. eapply sfs_step_count; [by apply (re_sfs _ _ R)|done|].
    unfold sr_ready. simpl. by rewrite Hon, andb_false_r.
Qed.

Lemma dispatch_all_enabled_ok l s w A wake :
  sig_rep w A -> NoDup l ->
  (forall p, p ∈ l -> exists r, A !! p = Some r /\ sr_sfs r = s /\ sr_on r = true) ->
  wp (dispatch_all_enabled s wake l) (fun _ w' =>
    sig_rep w' (bump_all l A) /\ disp_frame w w') w.
Proof.
  revert w A wake. induction l as [|p l IH]; intros w A wake R Hn Hl; simpl; wp_simpl.
  { by rewrite bump_all_nil. }
  apply NoDup_cons in Hn as [Hp Hn]. destruct (Hl p) as (r & Hr & <- & Hon); [by left|].
  eapply wp_mono; [|by eapply dispatch_enabled_ok]. intros b w1 [R1 F1]. simpl.
  eapply wp_mono; [|apply (IH w1 (<[p := sr_bump r]> A)); [done..|]].
  - intros b2 w2 [R2 F2]. rewrite bump_all_cons in R2 by done. split; [done|by transitivity w1].
  - intros q Hq. rewrite lookup_insert_ne by (by intros ->). apply Hl. by right.
Qed.

Lemma iter_bump_ok l w A :
  sig_rep w A -> NoDup l -> (forall p, p ∈ l -> exists r, A !! p = Some r /\ sr_on r = false) ->
  wp (iter bump l) (fun _ w' => sig_rep w' (bump_all l A) /\ disp_frame w w') w.
Proof.
  revert w A. induction l as [|p l IH]; intros w A R Hn Hl; simpl; wp_simpl.
  { by rewrite bump_all_nil. }
  apply NoDup_cons in Hn as [Hp Hn]. destruct (Hl p) as (r & Hr & Hon); [by left|].
  eapply wp_mono; [|by eapply bump_disabled_ok]. intros b w1 [R1 F1]. simpl.
  eapply wp_mono; [|apply (IH w1 (<[p := sr_bump r]> A)); [done..|]].
  - intros b2 w2 [R2 F2]. rewrite bump_all_cons in R2 by done. split; [done|by transitivity w1].
  - intros q Hq. rewrite lookup_insert_ne by (by intros ->). apply Hl. by right.
Qed.

(** The registrations that satisfy [P] bumped. *)
Definition fire_at (P : sreg -> bool) A : gmap ptr sreg :=
  (fun r => if P r then sr_bump r else r) <$> A.

Lemma link_knotes w A s y sig l :
  sig_rep w A -> w_sfss w !! s = Some y -> sfs_links y !! sig = Some l ->
  bump_all (kn_enabled l ++ kn_disabled l) A =
  fire_at (fun r => bool_decide (sr_sfs r = s) && (sr_sig r =? sig)%nat) A.
Proof.
  intros R Hy Hl. destruct (so_link _ _ _ _ (re_sfs _ _ R _ _ Hy) _ _ Hl) as (_ & _ & Hp).
  apply map_eq. intros p. rewrite bump_all_lookup. unfold fire_at. rewrite lookup_fmap.
  destruct (A !! p) as [r|] eqn:Hr; [|done]. simpl. f_equal.
  destruct (Hp p) as [He Hd]. unfold regd in He, Hd. rewrite Hr in He, Hd.
  rewrite (bool_decide_ext (p ∈ kn_enabled l ++ kn_disabled l) (sr_sfs r = s /\ sr_sig r = sig)).
  - destruct (bool_decide_reflect (sr_sfs r = s)), (Nat.eqb_spec (sr_sig r) sig); simpl;
      [by rewrite bool_decide_eq_true_2|by rewrite bool_decide_eq_false_2 by tauto..].
  - rewrite elem_of_app, He, Hd. destruct r as [s' sig' b c]. simpl. split.
    + by intros [[c' E]|[c' E]]; injection E as -> -> _ _.
    + intros [-> ->]. destruct b; eauto.
Qed.

Lemma dispatch_link_ok w A s y sig :
  sig_rep w A -> w_sfss w !! s = Some y -> (sig < Z.to_nat SIGNAL_MAX)%nat ->
  wp (dispatch_link sig s) (fun _ w' =>
    sig_rep w' (fire_at (fun r => bool_decide (sr_sfs r = s) && (sr_sig r =? sig)%nat) A) /\
    disp_frame w w') w.
Proof.
  intros R Hy Hsig. pose proof (re_sfs _ _ R _ _ Hy) as Hok.
  destruct (lookup_lt_is_Some_2 (sfs_links y) sig) as [l Hl]; [by rewrite (so_len _ _ _ _ Hok)|].
  destruct (so_link _ _ _ _ Hok _ _ Hl) as (N1 & N2 & Hp).
  destruct (so_filt _ _ _ _ Hok) as (f & Hf & Hfl). specialize (Hfl _ _ Hl).
  unfold dispatch_link. wp_simpl. eapply wp_get_link; [done..|]. wp_simpl. rewrite Hfl.
  eapply wp_filter_sfs; [done|]. wp_simpl.
  eapply wp_mono; [|eapply dispatch_all_enabled_ok; [done..|]].
  2: { intros p Hin. apply Hp in Hin as [c Hc]. by eexists. }
  intros wake w1 [R1 F1]. wp_simpl. eapply wp_mono; [|eapply iter_bump_ok; [done..|]].
  2: { intros p Hin. apply Hp in Hin as [c Hc]. rewrite bump_all_lookup, Hc. eexists. split; [done|].
       by case_bool_decide. }
  intros _ w2 [R2 F2]. rewrite bump_all_app in R2; cycle 1.
  { intros p Hin Hin'. apply Hp in Hin as [c Hc], Hin' as [c' Hc']. congruence. }
  rewrite (link_knotes w _ s y sig) in R2 by done.
  assert (F : disp_frame w w2) by (by transitivity w1). destruct wake; wp_simpl; [|done].
  eapply wp_raise; [by rewrite (disp_slot _ _ _ F)|]. intros rv e k. wp_simpl. split.
  - eapply sig_rep_same, R2. transitivity (set_w_os k w2); auto with sigsame.
  - etrans; [exact F|apply disp_os].
Qed.

Lemma dispatch_links_ok sig l w A :
  sig_rep w A -> NoDup l -> (sig < Z.to_nat SIGNAL_MAX)%nat ->
  (forall s, s ∈ l -> exists p b, regd A p s sig b) ->
  wp (iter (dispatch_link sig) l) (fun _ w' =>
    sig_rep w' (fire_at (fun r => bool_decide (sr_sfs r ∈ l) && (sr_sig r =? sig)%nat) A) /\
    disp_frame w w') w.
Proof.
  revert w A. induction l as [|s l IH]; intros w A R Hn Hsig Hl; simpl; wp_simpl.
  { split; [|done]. unfold fire_at. by rewrite map_fmap_id. }
  apply NoDup_cons in Hn as [Hp Hn]. destruct (Hl s) as (p & b & c & Hr); [by left|].
  destruct (re_live _ _ R _ _ Hr) as (_ & _ & _ & _ & _ & [y Hy]).
  eapply wp_mono; [|by eapply dispatch_link_ok]. intros [] w1 [R1 F1]. simpl.
  eapply wp_mono; [|apply (IH w1 _ R1 Hn Hsig)].
  - intros [] w2 [R2 F2]. split; [|by transitivity w1]. eapply eq_ind; [exact R2|].
    unfold fire_at. rewrite <- map_fmap_compose. apply map_fmap_ext. intros q r _. simpl.
    destruct (decide (sr_sfs r = s)) as [Hs|Hs].
    + rewrite (bool_decide_eq_true_2 (sr_sfs r = s)), (bool_decide_eq_true_2 (sr_sfs r ∈ s :: l)) by (done || by rewrite Hs; left).
      simpl. destruct (_ =? _)%nat; simpl; by rewrite bool_decide_eq_false_2 by (by rewrite Hs).
    + rewrite (bool_decide_eq_false_2 (sr_sfs r = s)) by done. simpl.
      by rewrite (bool_decide_ext (sr_sfs r ∈ s :: l) (sr_sfs r ∈ l)) by (rewrite elem_of_cons; naive_solver).
  - intros s' Hs'. destruct (Hl s') as (p' & b' & c' & Hr'); [by right|]. unfold regd, fire_at.
    exists p', b'. rewrite lookup_fmap, Hr'. simpl. case_match; by eexists.
Qed.

Lemma sig_dispatch_handle_ok w A (sig : Z) :
  sig_rep w A ->
  wp (sig_dispatch_handle sig) (fun _ w' => sig_rep w' (spec_fire sig A) /\ disp_frame w w') w.
Proof.
  intros R. unfold sig_dispatch_handle.
  destruct ((sig <=? 0) || (SIGNAL_MAX <=? sig)) eqn:Hb.
  - wp_simpl. split; [|done]. unfold spec_fire. eapply eq_ind; [exact R|].
    rewrite <- (map_fmap_id A) at 1. apply map_fmap_ext. intros p r Hr.
    destruct (re_live _ _ R _ _ Hr) as (_ & _ & _ & Hv & _). unfold sig_valid in Hv.
    destruct (Z.eqb_spec (Z.of_nat (sr_sig r)) sig); [lia|done].
  - assert (Hs : (Z.to_nat sig < Z.to_nat SIGNAL_MAX)%nat) by lia.
    destruct (lookup_lt_is_Some_2 (sigtbl (w_sig w)) (Z.to_nat sig)) as [l Hl]; [by rewrite (re_len _ _ R)|].
    destruct (re_table _ _ R _ _ Hl) as [Hn Hin]. wp_simpl. eapply wp_get_s_links; [done|].
    eapply wp_mono; [|apply (dispatch_links_ok (Z.to_nat sig) l w A R Hn Hs); intros s Hsl; by apply Hin].
    intros [] w' [R' F]. split; [|done]. eapply eq_ind; [exact R'|]. unfold fire_at, spec_fire.
    apply map_fmap_ext. intros p r Hr.
    destruct (Nat.eqb_spec (sr_sig r) (Z.to_nat sig)) as [Hg|Hg], (Z.eqb_spec (Z.of_nat (sr_sig r)) sig);
      try lia; [|by rewrite andb_false_r].
    rewrite bool_decide_eq_true_2; [done|]. apply Hin. exists p, (sr_on r), (sr_count r).
    rewrite Hr, <- Hg. by destruct r.
Qed.
End Dispatch.
