(* ===== verification/SignalOps.v ===== *)
(** * The callbacks of the signal filter implement the specification

    Each callback, and the critical section of copyout, takes a state that
    represents the registrations [A] to one that represents what the
    specification says.  [watch_ok] adds that the mask given to signalfd holds
    exactly the signals someone is registered for. *)

From Stdlib Require Import ZArith Lia Bool.
From stdpp Require Import base list gmap.
From S2P Require Import Prelude RBTree Event Map State Ops Knote LinuxUdata LinuxEpoll LinuxTimer LinuxUser LinuxKevent Signal SignalSpec.

Definition watch_ok (g : sig_globals) : Prop :=
  forall (sig : nat) l, sigtbl g !! sig = Some l -> Z.of_nat sig ∈ sig_active_set g <-> l <> [].

(** The invariant between critical sections. *)
Record sig_st {K : Type} (w : world K) (A : gmap ptr sreg) : Prop :=
  { st_rep : sig_rep w A;
    st_watch : watch_ok (w_sig w);
    st_free : sigtbl_mtx (w_sig w) = false }.

Section Steps.
Context {K : Type} `{OS K} `{FilterList K}.
Implicit Types (w : world K) (p q s : ptr) (f : filt_ref) (sig : nat) (A : gmap ptr sreg).

(** ** The state of a filter when [p] changes its list *)

Lemma regd_elsewhere ro p s sig l (w : world K) A y :
  sfs_ok w A s y -> sfs_links y !! sig = Some l ->
  (forall b, ~ is_reg ro s sig b) ->
  list_step p (is_reg ro s sig true) (kn_enabled l) (without p (kn_enabled l)) /\
  list_step p (is_reg ro s sig false) (kn_disabled l) (without p (kn_disabled l)).
Proof. intros _ _ Hn. split; apply list_step_without; apply Hn. Qed.

(** A filter [p] is not registered with afterwards. *)
Lemma sfs_step_leave w A s y p ro pd :
  sfs_ok w A s y -> (forall sig b, ~ is_reg ro s sig b) ->
  list_step p False (sfs_pending y) pd ->
  sfs_step p ro s y (set_sfs_pending pd (entry_without p y)).
Proof.
  intros Hok Hn (P1 & P2 & P3). split; cbn; try done.
  - by rewrite length_fmap.
  - intros sig l' Hl'. rewrite list_lookup_fmap in Hl'.
    destruct (sfs_links y !! sig) as [l|] eqn:Hl; [|done]. injection Hl' as <-.
    exists l. split_and!; [done..| |]; eapply regd_elsewhere; eauto.
  - tauto.
  - intros r -> Hrd. unfold sr_ready in Hrd. destruct (bool_decide_reflect (sr_sfs r = s)) as [<-|]; [|done].
    destruct (Hn (sr_sig r) (sr_on r)). exists (sr_count r). by destruct r.
Qed.

(** The link that takes [p] in. *)
Definition put_kn_link (b : bool) p (l : sig_link) : sig_link :=
  if b then set_kn_enabled (p :: kn_enabled l) l else set_kn_disabled (p :: kn_disabled l) l.

Definition entry_moved (b : bool) (sig : nat) p (y : sig_filter_state) (l : sig_link) : sig_filter_state :=
  set_sfs_links (<[sig := put_kn_link b p (link_without p l)]> (link_without p <$> sfs_links y)) y.

(** The filter [p] is registered with afterwards. *)
Lemma sfs_step_move w A s y p r l pd :
  sfs_ok w A s y -> sr_sfs r = s -> sfs_links y !! sr_sig r = Some l ->
  (NoDup (sfs_pending y) -> NoDup pd) -> (forall q, q <> p -> q ∈ pd <-> q ∈ sfs_pending y) ->
  (p ∈ pd -> sr_on r = true) -> (sr_ready s r = true -> p ∈ pd) ->
  sfs_step p (Some r) s y (set_sfs_pending pd (entry_moved (sr_on r) (sr_sig r) p y l)).
Proof.
  intros Hok Hs Hl P1 P2 P3 P4. assert (Hlt : (sr_sig r < length (link_without p <$> sfs_links y))%nat).
  { rewrite length_fmap. by eapply lookup_lt_Some. }
  assert (Hreg : forall sig b, is_reg (Some r) s sig b <-> sig = sr_sig r /\ b = sr_on r).
  { intros sig b. unfold is_reg. split; [by intros [c E]; injection E as ->|].
    intros [-> ->]. exists (sr_count r). rewrite <- Hs. by destruct r. }
  split; cbn; try done.
  - by rewrite length_insert, length_fmap.
  - intros sig l' Hl'. destruct (decide (sig = sr_sig r)) as [->|Hne].
    + rewrite list_lookup_insert_eq in Hl' by done. injection Hl' as <-. exists l. split_and!; try done.
      * by destruct (sr_on r).
      * destruct (sr_on r) eqn:Hon; cbn; [apply list_step_insert|apply list_step_without];
          rewrite Hreg; naive_solver.
      * destruct (sr_on r) eqn:Hon; cbn; [apply list_step_without|apply list_step_insert];
          rewrite Hreg; naive_solver.
    + rewrite list_lookup_insert_ne, list_lookup_fmap in Hl' by done.
      destruct (sfs_links y !! sig) as [l0|] eqn:Hl0; [|done]. injection Hl' as <-.
      exists l0. split_and!; [done..| |]; eapply regd_elsewhere; eauto; intros b; rewrite Hreg; naive_solver.
  - intros Hin. exists (sr_sig r). apply Hreg. split; [done|]. symmetry. auto.
  - by intros ? [= <-].
Qed.

(** Removal of a knote that is not linked changes nothing. *)
Lemma entry_without_id w A s y p : sfs_ok w A s y -> A !! p = None -> entry_without p y = y.
Proof.
  intros Hok Hp. destruct y as [ls pd]. unfold entry_without, set_sfs_links. cbn. f_equal.
  rewrite <- (list_fmap_id ls) at 2. apply list_fmap_ext. intros sig l Hl. cbn.
  destruct (so_link _ _ _ _ Hok _ _ Hl) as (_ & _ & Hq). destruct (Hq p) as [He Hd]. destruct l as [f0 e d].
  unfold link_without. cbn in *. rewrite !without_id; [done|rewrite Hd|rewrite He]; unfold regd; rewrite Hp; by intros [].
Qed.

Lemma pending_without_id y p : p ∉ sfs_pending y -> pending_without p y = y.
Proof. intros Hp. destruct y. unfold pending_without, set_sfs_pending. cbn in *. by rewrite without_id. Qed.

Lemma remove_pending_id w A p :
  sig_rep w A -> pending_inserted p w = false -> pending_without p <$> w_sfss w = w_sfss w.
Proof.
  intros R Hp. rewrite <- (map_fmap_id (w_sfss w)) at 2. apply map_fmap_ext. intros s y Hy. cbn.
  apply pending_without_id. intros Hin. unfold pending_inserted in Hp.
  eapply not_true_iff_false; [exact Hp|]. apply existsb_exists. exists (s, y). split; [|by apply bool_decide_eq_true].
  by apply list_elem_of_In, elem_of_map_to_list.
Qed.

(** ** Locks and the signalfd *)

Lemma wp_sigtbl_lock w (Q : unit -> world K -> Prop) :
  sigtbl_mtx (w_sig w) = false -> Q tt (set_w_sig (set_sigtbl_mtx true (w_sig w)) w) -> wp sigtbl_lock Q w.
Proof. intros E HQ. unfold sigtbl_lock. wp_simpl. by rewrite E. Qed.

Lemma wp_sigtbl_unlock w (Q : unit -> world K -> Prop) :
  sigtbl_mtx (w_sig w) = true -> Q tt (set_w_sig (set_sigtbl_mtx false (w_sig w)) w) -> wp sigtbl_unlock Q w.
Proof. intros E HQ. unfold sigtbl_unlock. wp_simpl. by rewrite E. Qed.

Lemma wp_sig_index (z : Z) (Q : nat -> world K -> Prop) w :
  0 <= z -> Q (Z.to_nat z) w -> wp (sig_index z) Q w.
Proof. intros Hz HQ. unfold sig_index. by destruct (Z.ltb_spec z 0); [lia|]. Qed.

Lemma wp_sl_inserted s sig l (Q : bool -> world K -> Prop) w :
  sigtbl (w_sig w) !! sig = Some l -> Q (bool_decide (s ∈ l)) w -> wp (sl_inserted s sig) Q w.
Proof. intros E HQ. unfold sl_inserted. wp_simpl. by eapply wp_get_s_links. Qed.

Lemma wp_sl_remove s sig l (Q : unit -> world K -> Prop) w :
  sigtbl (w_sig w) !! sig = Some l ->
  Q tt (set_w_sig (set_sigtbl (<[sig := without s l]> (sigtbl (w_sig w))) (w_sig w)) w) ->
  wp (sl_remove s sig) Q w.
Proof. intros E HQ. unfold sl_remove. wp_simpl. by eapply wp_get_s_links. Qed.

(** What the calls of the signalfd layer may change. *)
Definition sfd_step w w' (act : gset Z) : Prop :=
  exists k e, w' = set_w_os k (set_w_errno e (set_w_sig (set_sig_active_set act (w_sig w)) w)).

Lemma sig_platform_remove_ok (sig : Z) w :
  wp (sig_platform_remove sig) (fun _ w' => sfd_step w w' (sig_active_set (w_sig w) ∖ {[sig]})) w.
Proof.
  unfold sig_platform_remove. wp_simpl. apply wp_sys; intros; wp_simpl; eexists _, _; [|done].
  by instantiate (1 := w_errno w).
Qed.
End Steps.

(** The queue of pending instances of one signal is finite: the drain ends. *)
Definition sig_drains {K : Type} `{OS K} (fuel : nat) : Prop :=
  forall sig (w : world K), wp (sig_drain fuel sig) (fun _ w' => exists k e, w' = set_w_os k (set_w_errno e w)) w.

Section Add.
Context {K : Type} `{OS K} `{FilterList K} (fuel : nat) (Hdrain : sig_drains (K := K) fuel).

Lemma sig_platform_add_ok (sig : Z) (w : world K) :
  sig ∉ sig_active_set (w_sig w) ->
  wp (sig_platform_add fuel sig) (fun rv w' =>
    sfd_step w w' (if rv =? 0 then {[sig]} ∪ sig_active_set (w_sig w) else sig_active_set (w_sig w))) w.
Proof.
  intros Hn. assert (Hself : forall e k, sfd_step w (set_w_os k (set_w_errno e w)) (sig_active_set (w_sig w))).
  { intros e k. exists k, e. by destruct w as [? ? ? ? ? ? ? ? ? ? ? ? ? ? ? ? ? ? ? ? ? ? ? []]. }
  unfold sig_platform_add. wp_simpl. apply wp_sys; intros; wp_simpl; [|exact (Hself _ _)].
  eapply wp_mono; [|apply Hdrain]. intros _ w1 (k1 & e1 & ->). wp_simpl.
  apply wp_sys; intros; wp_simpl; [by eexists _, _|].
  eexists _, _. cbn. rewrite difference_union_distr_l_L, difference_diag_L, union_empty_l_L.
  by rewrite difference_disjoint_L by set_solver.
Qed.
End Add.

Section Callbacks.
Context {K : Type} `{OS K} `{FilterList K}.
Implicit Types (w : world K) (p q s : ptr) (f : filt_ref) (sig : nat) (A : gmap ptr sreg).

Lemma pending_inserted_iff p w :
  pending_inserted p w = true <-> exists s y, w_sfss w !! s = Some y /\ p ∈ sfs_pending y.
Proof.
  unfold pending_inserted. rewrite existsb_exists. split.
  - intros ([s y] & Hin & Hb%bool_decide_eq_true). apply list_elem_of_In, elem_of_map_to_list in Hin. eauto.
  - intros (s & y & Hy & Hp). exists (s, y). split; [|by apply bool_decide_eq_true].
    by apply list_elem_of_In, elem_of_map_to_list.
Qed.

(** The pending lists decide, the links do not matter. *)
Lemma pending_inserted_ext p w w' :
  (forall s, sfs_pending <$> w_sfss w' !! s = sfs_pending <$> w_sfss w !! s) ->
  pending_inserted p w' = pending_inserted p w.
Proof.
  intros E. apply eq_bool_prop_intro. rewrite !Is_true_true, !pending_inserted_iff.
  split; intros (s & y & Hy & Hp); specialize (E s); rewrite Hy in E; simpl in E.
  - destruct (w_sfss w !! s) as [z|] eqn:Hz; [|done]. exists s, z. split; [done|]. simpl in E. congruence.
  - destruct (w_sfss w' !! s) as [z|] eqn:Hz; [|done]. exists s, z. split; [done|]. simpl in E. congruence.
Qed.

(** What a registered knote gives its callbacks. *)
Lemma registered w A f p r :
  sig_rep w A -> A !! p = Some r -> sig_slot w f = Some (sr_sfs r) ->
  exists kn y l, w_knotes w !! p = Some kn /\ kn_sig kn = Z.of_nat (sr_sig r) /\
    kn_signal_count kn = sr_count r /\ w_sfss w !! sr_sfs r = Some y /\
    sfs_links y !! sr_sig r = Some l /\ sfs_ok w A (sr_sfs r) y.
Proof.
  intros R Hr Hf. destruct (re_live _ _ R _ _ Hr) as (kn & Ek & Hs & Hv & Hc & [y Hy]).
  pose proof (re_sfs _ _ R _ _ Hy) as Hok.
  destruct (lookup_lt_is_Some_2 (sfs_links y) (sr_sig r)) as [l Hl].
  { rewrite (so_len _ _ _ _ Hok). unfold sig_valid in Hv. lia. }
  by exists kn, y, l.
Qed.

(** The states of all filters after [p] moved within the one it is registered with. *)
Lemma move_states w A p r r' y l pd pds :
  sig_rep w A -> A !! p = Some r -> sr_sfs r' = sr_sfs r -> sr_sig r' = sr_sig r ->
  w_sfss w !! sr_sfs r = Some y -> sfs_links y !! sr_sig r = Some l ->
  (NoDup (sfs_pending y) -> NoDup pd) -> (forall q, q <> p -> q ∈ pd <-> q ∈ sfs_pending y) ->
  (p ∈ pd -> sr_on r' = true) -> (sr_ready (sr_sfs r) r' = true -> p ∈ pd) ->
  (forall s z, s <> sr_sfs r -> w_sfss w !! s = Some z -> pds z = sfs_pending z) ->
  forall s z', <[sr_sfs r := set_sfs_pending pd (entry_moved (sr_on r') (sr_sig r) p y l)]>
      ((fun z => set_sfs_pending (pds z) (entry_without p z)) <$> w_sfss w) !! s = Some z' ->
    exists z, w_sfss w !! s = Some z /\ sfs_step p (Some r') s z z'.
Proof.
  intros R Hr E1 E2 Hy Hl P1 P2 P3 P4 P5 s z'. destruct (decide (s = sr_sfs r)) as [->|Hne].
  - rewrite lookup_insert_eq. intros [= <-]. exists y. split; [done|]. rewrite <- E2.
    eapply (sfs_step_move w A); [by apply (re_sfs _ _ R)|done|by rewrite E2|done..].
  - rewrite lookup_insert_ne, lookup_fmap by done. destruct (w_sfss w !! s) as [z|] eqn:Hz; [|done].
    intros [= <-]. exists z. split; [done|]. rewrite P5 with (s := s) by done.
    eapply (sfs_step_leave w A); [by apply (re_sfs _ _ R)|..].
    + intros sig b [c Hc]. injection Hc as ->. cbn in *. congruence.
    + apply list_step_id. split; [|done]. intros Hin.
      destruct (so_pending _ _ _ _ (re_sfs _ _ R _ _ Hz) _ Hin) as (sig & c & Hc).
      rewrite Hr in Hc. injection Hc as ->. by apply Hne.
Qed.

Lemma sfss_insert_some {X : Type} (m : gmap ptr X) s x (g : X -> X) t :
  is_Some (m !! t) -> is_Some ((<[s := x]> (g <$> m)) !! t).
Proof.
  intros [y Hy]. destruct (decide (s = t)) as [->|]; [by rewrite lookup_insert_eq|].
  rewrite lookup_insert_ne, lookup_fmap, Hy by done. by eexists.
Qed.

Lemma sfs_eta (z : sig_filter_state) : set_sfs_pending (sfs_pending z) z = z.
Proof. by destruct z. Qed.

(** The end of enabling and of disabling: [p] is in the other list of its link, and
    the pending list of its filter is [pd]. *)
Lemma moved_st w w' A p r kn y l (on : bool) pd pds :
  sig_st w A -> A !! p = Some r -> w_knotes w !! p = Some kn -> kn_signal_count kn = sr_count r ->
  w_sfss w !! sr_sfs r = Some y -> sfs_links y !! sr_sig r = Some l ->
  w_knotes w' = w_knotes w -> w_kqs w' = w_kqs w ->
  w_sig w' = set_sigtbl_mtx false (set_sigtbl_mtx true (w_sig w)) ->
  w_sfss w' = <[sr_sfs r := set_sfs_pending pd (entry_moved on (sr_sig r) p y l)]>
    ((fun z => set_sfs_pending (pds z) (entry_without p z)) <$> w_sfss w) ->
  (NoDup (sfs_pending y) -> NoDup pd) -> (forall q, q <> p -> q ∈ pd <-> q ∈ sfs_pending y) ->
  (p ∈ pd -> on = true) -> (on = true -> 0 < sr_count r -> p ∈ pd) ->
  (forall s z, s <> sr_sfs r -> w_sfss w !! s = Some z -> pds z = sfs_pending z) ->
  sig_st w' (<[p := set_sr_on on r]> A).
Proof.
  intros [R Hw Hm] Hr Ek Hc Hy Hl E1 E2 E3 E4 P1 P2 P3 P4 P5. split; rewrite ?E3; [|exact Hw|done].
  apply (rep_update w _ A p r); rewrite ?E1, ?E3, ?E4; try done.
  - intros g. unfold sig_slot, slot_of. by rewrite E2.
  - intros ? [= <-]%(eq_trans (eq_sym Ek)). by eexists.
  - eapply (move_states w A p r (set_sr_on on r)); try done.
    unfold sr_ready. cbn. rewrite bool_decide_eq_true_2 by done. cbn.
    rewrite andb_true_iff, Z.ltb_lt. intros [??]. auto.
  - intros s Hs'. by apply sfss_insert_some.
Qed.

Lemma entry_without_eta p (m : gmap ptr sig_filter_state) :
  entry_without p <$> m = (fun z => set_sfs_pending (sfs_pending z) (entry_without p z)) <$> m.
Proof. apply map_fmap_ext. by intros s [] _. Qed.

Lemma registered_inserted w w1 A p r :
  sig_rep w A -> A !! p = Some r -> w_sfss w1 = w_sfss w -> entry_inserted p w1 = true.
Proof.
  intros R Hr E. unfold entry_inserted. rewrite E. transitivity (entry_inserted p w); [done|].
  rewrite (entry_inserted_spec _ _ _ R). by apply bool_decide_eq_true_2.
Qed.

Lemma evfilt_signal_knote_enable_ok w A f p r :
  sig_st w A -> A !! p = Some r -> sig_slot w f = Some (sr_sfs r) ->
  wp (evfilt_signal_knote_enable f p) (fun rv w' => rv = 0 /\ sig_st w' (<[p := set_sr_on true r]> A)) w.
Proof.
  intros St Hr Hf. pose proof St as [R Hw Hm].
  destruct (registered _ _ _ _ _ R Hr Hf) as (kn & y & l & Ek & Hs & Hc & Hy & Hl & Hok).
  unfold evfilt_signal_knote_enable. wp_simpl. wp_prim. wp_simpl. rewrite Hs.
  apply wp_sig_index; [lia|]. rewrite Nat2Z.id. wp_simpl. eapply wp_filter_sfs; [done|]. wp_simpl.
  apply wp_sigtbl_lock; [done|]. wp_simpl. rewrite (registered_inserted w _ A p r) by done. wp_simpl.
  unfold insert_enabled. eapply wp_upd_link; [cbn; by rewrite lookup_fmap, Hy|cbn; by rewrite list_lookup_fmap, Hl|].
  wp_simpl. eapply wp_get_kn; [exact Ek|]. wp_simpl.
  set (w2 := set_w_sfss _ _).
  assert (Hp : pending_inserted p w2 = bool_decide (p ∈ sfs_pending y)).
  { rewrite <- (pending_inserted_spec w A p r) by done. apply pending_inserted_ext. intros s. cbn.
    destruct (decide (s = sr_sfs r)) as [->|Hne]; [by rewrite lookup_insert_eq, Hy|].
    rewrite lookup_insert_ne, lookup_fmap by done. by destruct (w_sfss w !! s). }
  rewrite Hp, Hc. clear Hp.
  destruct ((0 <? sr_count r) && negb (bool_decide (p ∈ sfs_pending y))) eqn:Hwake; wp_simpl.
  - apply andb_true_iff in Hwake as [Hc0 Hnp]. apply negb_true_iff, bool_decide_eq_false in Hnp.
    eapply wp_upd_sfs; [cbn; by rewrite lookup_insert_eq|]. wp_simpl.
    apply wp_sigtbl_unlock; [done|]. wp_simpl. eapply wp_raise; [exact Hf|]. intros rv e k. wp_simpl.
    split; [done|]. eapply (moved_st w _ A p r kn y l true (p :: sfs_pending y) sfs_pending); try done.
    + rewrite <- entry_without_eta. subst w2. cbn [w_sfss set_w_sfss set_w_sig set_w_os set_w_errno]. by rewrite insert_insert_eq.
    + intros Hn. by constructor.
    + intros q Hq. rewrite elem_of_cons. naive_solver.
    + intros _ _. by left.
  - apply wp_sigtbl_unlock; [done|]. wp_simpl. split; [done|].
    eapply (moved_st w _ A p r kn y l true (sfs_pending y) sfs_pending); try done.
    + intros _ Hc0. apply andb_false_iff in Hwake as [Hb|Hb]; [lia|].
      by apply negb_false_iff, bool_decide_eq_true in Hb.
Qed.

(** The state of every filter once [p] is in no list. *)
Definition cleared p (z : sig_filter_state) : sig_filter_state :=
  set_sfs_pending (without p (sfs_pending z)) (entry_without p z).

(** The first half of disabling and of deletion. *)
Lemma unlink_ok {X : Type} (k : M (world K) X) w w1 A p r Q :
  sig_rep w A -> A !! p = Some r -> w_sfss w1 = w_sfss w ->
  wp k Q (set_w_sfss (cleared p <$> w_sfss w) w1) ->
  wp (let! ins := gets (entry_inserted p) in
      (if ins then remove_entry p else ret tt) ;;;
      let! pend := gets (pending_inserted p) in
      (if pend then remove_pending p else ret tt) ;;; k) Q w1.
Proof.
  intros R Hr E Hk. wp_simpl. rewrite (registered_inserted w _ A p r) by done. wp_simpl.
  rewrite E. set (w2 := set_w_sfss _ _).
  assert (Hend : forall w3, w3 = set_w_sfss (cleared p <$> w_sfss w) w1 -> wp k Q w3) by (by intros ? ->).
  destruct (pending_inserted p w2) eqn:Hp; wp_simpl; apply Hend; subst w2.
  - cbn [w_sfss set_w_sfss set_w_sig]. unfold set_w_sfss. cbn. f_equal. rewrite <- map_fmap_compose.
    apply map_fmap_ext. by intros s [] _.
  - f_equal. rewrite <- (remove_pending_id w A p R) at 1.
    + rewrite <- map_fmap_compose. apply map_fmap_ext. by intros s [] _.
    + rewrite <- Hp. symmetry. apply pending_inserted_ext. intros s. cbn. rewrite lookup_fmap.
      by destruct (w_sfss w !! s).
Qed.

Lemma evfilt_signal_knote_disable_ok w A f p r :
  sig_st w A -> A !! p = Some r -> sig_slot w f = Some (sr_sfs r) ->
  wp (evfilt_signal_knote_disable f p) (fun rv w' => rv = 0 /\ sig_st w' (<[p := set_sr_on false r]> A)) w.
Proof.
  intros St Hr Hf. pose proof St as [R Hw Hm].
  destruct (registered _ _ _ _ _ R Hr Hf) as (kn & y & l & Ek & Hs & Hc & Hy & Hl & Hok).
  unfold evfilt_signal_knote_disable. wp_simpl. wp_prim. wp_simpl. rewrite Hs.
  apply wp_sig_index; [lia|]. rewrite Nat2Z.id. wp_simpl. eapply wp_filter_sfs; [done|]. wp_simpl.
  apply wp_sigtbl_lock; [done|]. eapply (unlink_ok _ w); [done..|]. wp_simpl.
  unfold insert_disabled. eapply wp_upd_link; [cbn; by rewrite lookup_fmap, Hy|cbn; by rewrite list_lookup_fmap, Hl|].
  wp_simpl. apply wp_sigtbl_unlock; [done|]. wp_simpl. split; [done|].
  eapply (moved_st w _ A p r kn y l false (without p (sfs_pending y)) (fun z => without p (sfs_pending z))); try done.
  - apply NoDup_without.
  - intros q Hq. rewrite elem_of_without. naive_solver.
  - rewrite elem_of_without. naive_solver.
  - intros s z Hne Hz. apply without_id. intros Hin.
    destruct (so_pending _ _ _ _ (re_sfs _ _ R _ _ Hz) _ Hin) as (sig & c & E).
    rewrite Hr in E. injection E as ->. by apply Hne.
Qed.

(** *** Deletion *)

Lemma cleared_step w A p s z :
  sig_rep w A -> w_sfss w !! s = Some z -> sfs_step p None s z (cleared p z).
Proof.
  intros R Hz. eapply (sfs_step_leave w A); [by apply (re_sfs _ _ R)|by intros ?? []|apply list_step_without; tauto].
Qed.

Lemma regd_delete A p q s sig b : regd (delete p A) q s sig b <-> q <> p /\ regd A q s sig b.
Proof.
  unfold regd. destruct (decide (q = p)) as [->|Hq].
  - rewrite lookup_delete_eq. naive_solver.
  - rewrite lookup_delete_ne by done. naive_solver.
Qed.

(** The link of [p] stays in use when somebody else is registered through it. *)
Lemma link_used w A p s sig y l :
  sig_rep w A -> w_sfss w !! s = Some y -> sfs_links y !! sig = Some l ->
  sl_has_no_knotes (link_without p l) = false <-> exists q b, regd (delete p A) q s sig b.
Proof.
  intros R Hy Hl. destruct (so_link _ _ _ _ (re_sfs _ _ R _ _ Hy) _ _ Hl) as (_ & _ & Hp).
  assert (Hin : forall q, (q ∈ without p (kn_enabled l) <-> regd (delete p A) q s sig true) /\
    (q ∈ without p (kn_disabled l) <-> regd (delete p A) q s sig false)).
  { intros q. rewrite !elem_of_without, !regd_delete. destruct (Hp q) as [-> ->]. done. }
  unfold sl_has_no_knotes. cbn. split.
  - destruct (without p (kn_enabled l)) as [|q t], (without p (kn_disabled l)) as [|q' t']; [done|..]; intros _.
    + exists q', false. apply Hin. by left.
    + exists q, true. apply Hin. by left.
    + exists q, true. apply Hin. by left.
  - intros (q & b & Hq). destruct b; apply Hin in Hq;
      [destruct (without p (kn_enabled l))|destruct (without p (kn_disabled l))];
      try (by apply not_elem_of_nil in Hq); [done|apply andb_false_r].
Qed.

(** The table entry of the signal after a deletion. *)
Lemma table_delete w A p r y l links :
  sig_rep w A -> A !! p = Some r -> w_sfss w !! sr_sfs r = Some y -> sfs_links y !! sr_sig r = Some l ->
  sigtbl (w_sig w) !! sr_sig r = Some links ->
  let links' := if sl_has_no_knotes (link_without p l) then without (sr_sfs r) links else links in
  forall sig t, <[sr_sig r := links']> (sigtbl (w_sig w)) !! sig = Some t ->
    NoDup t /\ forall s, s ∈ t <-> exists q b, regd (delete p A) q s sig b.
Proof.
  intros R Hr Hy Hl Hk links' sig t Ht. destruct (re_table _ _ R _ _ Hk) as [Hn Hin].
  pose proof (link_used w A p _ _ _ _ R Hy Hl) as Hemp.
  assert (Hpr : forall s sg b, regd A p s sg b -> s = sr_sfs r /\ sg = sr_sig r).
  { intros s sg b [c E]. rewrite Hr in E. by injection E as ->. }
  destruct (decide (sig = sr_sig r)) as [->|Hne].
  - rewrite list_lookup_insert_eq in Ht by (by eapply lookup_lt_Some). injection Ht as <-. subst links'. split.
    { destruct (sl_has_no_knotes _); [by apply NoDup_without|done]. }
    intros s. destruct (decide (s = sr_sfs r)) as [->|Hs].
    + destruct (sl_has_no_knotes (link_without p l)).
      * rewrite elem_of_without. split; [naive_solver|]. intros Hx. by apply Hemp in Hx.
      * split; [intros _; by apply Hemp|intros (q & b & [_ Hq]%regd_delete); apply Hin; eauto].
    + transitivity (s ∈ links); [destruct (sl_has_no_knotes _); [rewrite elem_of_without; tauto|done]|].
      rewrite Hin. split; intros (q & b & Hq).
      * exists q, b. apply regd_delete. split; [|done]. intros ->. by apply Hpr in Hq as [-> _].
      * apply regd_delete in Hq as [_ Hq]. eauto.
  - rewrite list_lookup_insert_ne in Ht by done. destruct (re_table _ _ R _ _ Ht) as [Hn' Hin']. split; [done|].
    intros s. rewrite Hin'. split; intros (q & b & Hq).
    + exists q, b. apply regd_delete. split; [|done]. intros ->. by apply Hpr in Hq as [_ ->].
    + apply regd_delete in Hq as [_ Hq]. eauto.
Qed.

Lemma watch_insert g sig links links' act :
  watch_ok g -> sigtbl g !! sig = Some links -> (Z.of_nat sig ∈ act <-> links' <> []) ->
  (forall z, z <> Z.of_nat sig -> z ∈ act <-> z ∈ sig_active_set g) ->
  watch_ok (set_sig_active_set act (set_sigtbl (<[sig := links']> (sigtbl g)) g)).
Proof.
  intros Hw Hk Hs Ho sg t. cbn. destruct (decide (sg = sig)) as [->|Hne].
  - rewrite list_lookup_insert_eq by (by eapply lookup_lt_Some). by intros [= <-].
  - rewrite list_lookup_insert_ne by done. intros Ht. rewrite Ho by lia. by apply Hw.
Qed.

Lemma table_some w A p r :
  sig_rep w A -> A !! p = Some r ->
  exists links, sigtbl (w_sig w) !! sr_sig r = Some links /\ sr_sfs r ∈ links.
Proof.
  intros R Hr. destruct (re_live _ _ R _ _ Hr) as (kn & _ & _ & Hv & _).
  destruct (lookup_lt_is_Some_2 (sigtbl (w_sig w)) (sr_sig r)) as [links Hk].
  { rewrite (re_len _ _ R). unfold sig_valid in Hv. lia. }
  exists links. split; [done|]. apply (re_table _ _ R _ _ Hk).
  exists p, (sr_on r), (sr_count r). rewrite Hr. by destruct r.
Qed.

(** The end of a deletion: the signal's table entry is [links'], its mask [act]. *)
Lemma deleted_st w w' A p r kn y l links links' act :
  sig_st w A -> A !! p = Some r -> w_sfss w !! sr_sfs r = Some y -> sfs_links y !! sr_sig r = Some l ->
  sigtbl (w_sig w) !! sr_sig r = Some links ->
  links' = (if sl_has_no_knotes (link_without p l) then without (sr_sfs r) links else links) ->
  w_knotes w' = <[p := kn]> (w_knotes w) -> w_kqs w' = w_kqs w -> w_sfss w' = cleared p <$> w_sfss w ->
  w_sig w' = set_sigtbl_mtx false (set_sig_active_set act
    (set_sigtbl (<[sr_sig r := links']> (sigtbl (w_sig w))) (w_sig w))) ->
  (Z.of_nat (sr_sig r) ∈ act <-> links' <> []) ->
  (forall z, z <> Z.of_nat (sr_sig r) -> z ∈ act <-> z ∈ sig_active_set (w_sig w)) ->
  sig_st w' (delete p A).
Proof.
  intros [R Hw Hm] Hr Hy Hl Hk -> E1 E2 E3 E4 Ha Ho.
  split; rewrite ?E4; [|by apply (watch_insert (w_sig w) _ links)|done].
  apply (rep_change w _ A p None); rewrite ?E1, ?E3, ?E4; try done.
  - intros g. unfold sig_slot, slot_of. by rewrite E2.
  - intros q Hq. by rewrite lookup_insert_ne.
  - intros s z'. rewrite lookup_fmap. destruct (w_sfss w !! s) as [z|] eqn:Hz; [|done]. intros [= <-].
    exists z. split; [done|]. by eapply cleared_step.
  - intros s [z Hz]. by rewrite lookup_fmap, Hz.
  - cbn. by rewrite length_insert.
  - by eapply table_delete.
Qed.

Lemma evfilt_signal_knote_delete_ok w A f p r :
  sig_st w A -> A !! p = Some r -> sig_slot w f = Some (sr_sfs r) ->
  wp (evfilt_signal_knote_delete f p) (fun rv w' => rv = 0 /\ sig_st w' (delete p A)) w.
Proof.
  intros St Hr Hf. pose proof St as [R Hw Hm].
  destruct (registered _ _ _ _ _ R Hr Hf) as (kn & y & l & Ek & Hs & Hc & Hy & Hl & Hok).
  destruct (table_some _ _ _ _ R Hr) as (links & Hk & Hsl).
  unfold evfilt_signal_knote_delete. wp_simpl. wp_prim. wp_simpl. rewrite Hs.
  apply wp_sig_index; [lia|]. rewrite Nat2Z.id. wp_simpl. eapply wp_filter_sfs; [done|]. wp_simpl.
  apply wp_sigtbl_lock; [done|]. eapply (unlink_ok _ w); [done..|]. wp_simpl.
  eapply wp_upd_kn; [exact Ek|]. wp_simpl.
  eapply wp_get_link; [cbn; by rewrite lookup_fmap, Hy|cbn; by rewrite list_lookup_fmap, Hl|]. wp_simpl.
  eapply wp_sl_inserted; [exact Hk|]. wp_simpl. rewrite bool_decide_eq_true_2, andb_true_r by done.
  set (links' := if sl_has_no_knotes (link_without p l) then without (sr_sfs r) links else links).
  apply (wp_mono _ (fun _ w3 => w_knotes w3 = <[p := set_kn_signal_count 0 kn]> (w_knotes w) /\
      w_kqs w3 = w_kqs w /\ w_sfss w3 = cleared p <$> w_sfss w /\
      w_sig w3 = set_sigtbl_mtx true (set_sigtbl (<[sr_sig r := links']> (sigtbl (w_sig w))) (w_sig w)))).
  2: { subst links'. destruct (sl_has_no_knotes (link_without p l)); [by eapply wp_sl_remove|].
       wp_simpl. split_and!; try done. cbn. rewrite list_insert_id by done. by destruct (w_sig w). }
  intros [] w3 (E1 & E2 & E3 & E4). wp_simpl.
  eapply wp_get_s_links; [rewrite E4; cbn; apply list_lookup_insert_eq; by eapply lookup_lt_Some|].
  case_bool_decide as Hnil; wp_simpl.
  - eapply wp_mono; [|apply sig_platform_remove_ok]. intros rv w4 (k & e & ->). wp_simpl.
    apply wp_sigtbl_unlock; [cbn; by rewrite E4|]. wp_simpl. split; [done|].
    eapply (deleted_st w _ A p r _ y l links links' (sig_active_set (w_sig w) ∖ {[Z.of_nat (sr_sig r)]}));
      try done; cbn; rewrite ?E4; try done; [rewrite Hnil|]; set_solver.
  - apply wp_sigtbl_unlock; [cbn; by rewrite E4|]. wp_simpl. split; [done|].
    eapply (deleted_st w _ A p r _ y l links links' (sig_active_set (w_sig w))); try done; cbn; rewrite ?E4; try done.
    split; [done|]. intros _. apply (Hw _ _ Hk). intros ->. by apply not_elem_of_nil in Hsl.
Qed.

(** *** Creation *)

(** An unregistered knote is in no list, so putting it in one is a move. *)
Lemma insert_is_move w A s y sig l p :
  sfs_ok w A s y -> A !! p = None -> sfs_links y !! sig = Some l ->
  set_sfs_links (<[sig := set_kn_enabled (p :: kn_enabled l) l]> (sfs_links y)) y =
  set_sfs_pending (sfs_pending y) (entry_moved true sig p y l).
Proof.
  intros Hok Hp Hl. pose proof (f_equal sfs_links (entry_without_id _ _ _ _ _ Hok Hp)) as E. cbn in E.
  assert (El : link_without p l = l).
  { apply (f_equal (lookup sig)) in E. rewrite list_lookup_fmap, Hl in E. by injection E. }
  unfold entry_moved. rewrite E, El. by destruct y.
Qed.

Lemma table_create w A p s sig links :
  sig_rep w A -> A !! p = None -> sigtbl (w_sig w) !! sig = Some links ->
  let links' := if bool_decide (s ∈ links) then links else s :: links in
  forall sg t, <[sig := links']> (sigtbl (w_sig w)) !! sg = Some t ->
    NoDup t /\ forall s', s' ∈ t <-> exists q b, regd (<[p := SReg s sig true 0]> A) q s' sg b.
Proof.
  intros R Hp Hk links' sg t Ht.
  assert (Hreg : forall s' sg, (exists q b, regd (<[p := SReg s sig true 0]> A) q s' sg b) <->
      (s' = s /\ sg = sig) \/ exists q b, regd A q s' sg b).
  { intros s' sg'. split.
    - intros (q & b & c & E). destruct (decide (q = p)) as [->|Hq].
      + rewrite lookup_insert_eq in E. injection E as -> ->. by left.
      + rewrite lookup_insert_ne in E by done. right. by exists q, b, c.
    - intros [[-> ->]|(q & b & c & E)]; [exists p, true, 0; apply lookup_insert_eq|].
      exists q, b, c. rewrite lookup_insert_ne; [done|]. intros ->. congruence. }
  destruct (decide (sg = sig)) as [->|Hne].
  - rewrite list_lookup_insert_eq in Ht by (by eapply lookup_lt_Some). injection Ht as <-.
    destruct (re_table _ _ R _ _ Hk) as [Hn Hin]. subst links'. case_bool_decide as Hs; split; try done.
    + intros s'. rewrite Hreg, <- Hin. naive_solver.
    + by constructor.
    + intros s'. rewrite Hreg, <- Hin, elem_of_cons. naive_solver.
  - rewrite list_lookup_insert_ne in Ht by done. destruct (re_table _ _ R _ _ Ht) as [Hn Hin]. split; [done|].
    intros s'. rewrite Hreg, <- Hin. naive_solver.
Qed.

Lemma created_st w w' A f p kn s sig y l links links' act :
  sig_st w A -> A !! p = None -> sig_slot w f = Some s -> w_sfss w !! s = Some y ->
  sfs_links y !! sig = Some l -> sigtbl (w_sig w) !! sig = Some links ->
  links' = (if bool_decide (s ∈ links) then links else s :: links) ->
  kn_sig kn = Z.of_nat sig -> sig_valid (Z.of_nat sig) = true -> kn_signal_count kn = 0 ->
  w_knotes w' = <[p := kn]> (w_knotes w) -> w_kqs w' = w_kqs w ->
  w_sfss w' = <[s := set_sfs_links (<[sig := set_kn_enabled (p :: kn_enabled l) l]> (sfs_links y)) y]> (w_sfss w) ->
  w_sig w' = set_sigtbl_mtx false (set_sig_active_set act
    (set_sigtbl (<[sig := links']> (sigtbl (w_sig w))) (w_sig w))) ->
  Z.of_nat sig ∈ act -> (forall z, z <> Z.of_nat sig -> z ∈ act <-> z ∈ sig_active_set (w_sig w)) ->
  sig_st w' (<[p := SReg s sig true 0]> A).
Proof.
  intros [R Hw Hm] Hp Hf Hy Hl Hk El Hs Hv Hc E1 E2 E3 E4 Ha Ho. pose proof (re_sfs _ _ R _ _ Hy) as Hok.
  split; rewrite ?E4; [|apply (watch_insert (w_sig w) _ links); try done|done].
  2: { split; [|done]. intros _. rewrite El. case_bool_decide as Hin; [|done]. intros ->. by apply not_elem_of_nil in Hin. }
  rewrite (insert_is_move w A s y sig l p) in E3 by done.
  apply (rep_change w _ A p (Some (SReg s sig true 0))); rewrite ?E1, ?E3, ?E4; try done.
  - intros g. unfold sig_slot, slot_of. by rewrite E2.
  - intros q Hq. by rewrite lookup_insert_ne.
  - intros ? [= <-]. exists kn. rewrite lookup_insert_eq. eauto 10.
  - intros t z'. destruct (decide (t = s)) as [->|Hne].
    + rewrite lookup_insert_eq. intros [= <-]. exists y. split; [done|].
      eapply (sfs_step_move w A s y p (SReg s sig true 0)); try done. unfold sr_ready. by rewrite andb_false_r.
    + rewrite lookup_insert_ne by done. intros Hz. exists z'. split; [done|].
      pose proof (re_sfs _ _ R _ _ Hz) as Hokz.
      rewrite <- (entry_without_id _ _ _ _ p Hokz Hp) at 2. rewrite <- (sfs_eta (entry_without p z')).
      eapply (sfs_step_leave w A); [done|by intros sg b [c E]; injection E as ->|].
      apply list_step_id. split; [|done]. intros Hin. destruct (so_pending _ _ _ _ Hokz _ Hin) as (sg & c & E). congruence.
  - intros t [z Hz]. destruct (decide (t = s)) as [->|Hne]; [by rewrite lookup_insert_eq|].
    by rewrite lookup_insert_ne, Hz.
  - cbn. by rewrite length_insert.
  - rewrite El. by eapply table_create.
Qed.
End Callbacks.

Section Create.
Context {K : Type} `{OS K} `{FilterList K} (fuel : nat) (Hdrain : sig_drains (K := K) fuel).
Implicit Types (w : world K) (p q s : ptr) (f : filt_ref) (sig : nat) (A : gmap ptr sreg).

(** Undoing the insertion gives back the lists and the table. *)
Lemma undo_insert w A s y sig l p :
  sig_rep w A -> A !! p = None -> w_sfss w !! s = Some y -> sfs_links y !! sig = Some l ->
  entry_without p <$> <[s := set_sfs_links (<[sig := set_kn_enabled (p :: kn_enabled l) l]> (sfs_links y)) y]> (w_sfss w) =
  w_sfss w.
Proof.
  intros R Hp Hy Hl. pose proof (re_sfs _ _ R _ _ Hy) as Hok.
  pose proof (f_equal sfs_links (entry_without_id _ _ _ _ _ Hok Hp)) as Ey. cbn in Ey.
  assert (El : link_without p l = l).
  { apply (f_equal (lookup sig)) in Ey. rewrite list_lookup_fmap, Hl in Ey. by injection Ey. }
  apply map_eq. intros t. rewrite lookup_fmap. destruct (decide (t = s)) as [->|Hne].
  - rewrite lookup_insert_eq, Hy. simpl. f_equal. unfold entry_without. cbn.
    rewrite list_fmap_insert, Ey. destruct y as [ls pd]. unfold set_sfs_links. cbn in *. f_equal.
    apply list_insert_id. rewrite Hl. f_equal. destruct l as [f0 en di]. unfold link_without, set_kn_enabled in *. cbn in *.
    injection El as En Ed. rewrite Ed. f_equal. unfold without at 1.
    rewrite filter_cons_False by naive_solver. by fold (without p en); rewrite En.
  - rewrite lookup_insert_ne by done. destruct (w_sfss w !! t) as [z|] eqn:Hz; [|done]. simpl. f_equal.
    eapply entry_without_id; [by apply (re_sfs _ _ R)|done].
Qed.

(** A signal without an entry in the table has empty links. *)
Lemma link_unused w A s y sig l :
  sig_rep w A -> w_sfss w !! s = Some y -> sfs_links y !! sig = Some l ->
  sigtbl (w_sig w) !! sig = Some [] -> sl_has_no_knotes l = true.
Proof.
  intros R Hy Hl Hk. destruct (re_table _ _ R _ _ Hk) as [_ Hin].
  destruct (so_link _ _ _ _ (re_sfs _ _ R _ _ Hy) _ _ Hl) as (_ & _ & Hp).
  unfold sl_has_no_knotes. rewrite !bool_decide_eq_true_2; [done|..]; apply elem_of_nil_inv; intros q Hq;
    apply (not_elem_of_nil s), Hin; apply Hp in Hq; eauto.
Qed.

Lemma create_rollback_ok w w1 A s y sig l p kn :
  sig_st w A -> A !! p = None -> w_sfss w !! s = Some y -> sfs_links y !! sig = Some l ->
  sigtbl (w_sig w) !! sig = Some [] ->
  w_knotes w1 = <[p := kn]> (w_knotes w) -> w_kqs w1 = w_kqs w ->
  w_sfss w1 = <[s := set_sfs_links (<[sig := set_kn_enabled (p :: kn_enabled l) l]> (sfs_links y)) y]> (w_sfss w) ->
  w_sig w1 = set_sigtbl_mtx true (set_sigtbl (<[sig := [s]]> (sigtbl (w_sig w))) (w_sig w)) ->
  wp (create_rollback s sig p) (fun rv w2 => rv = -1 /\
    sigtbl_mtx (w_sig w2) = true /\ sig_st (set_w_sig (set_sigtbl_mtx false (w_sig w2)) w2) A) w1.
Proof.
  intros [R Hw Hm] Hp Hy Hl Hk E1 E2 E3 E4. unfold create_rollback, errno, set_errno. wp_simpl.
  pose proof (undo_insert w A s y sig l p R Hp Hy Hl) as Hundo.
  assert (Hlt : (sig < length (sigtbl (w_sig w)))%nat) by (by eapply lookup_lt_Some).
  eapply wp_get_link; [cbn [w_sfss set_w_sfss]; by rewrite E3, Hundo|exact Hl|]. wp_simpl.
  rewrite (link_unused w A s y sig l) by done.
  eapply wp_sl_remove; [cbn; rewrite E4; cbn; by rewrite list_lookup_insert_eq|]. wp_simpl.
  split_and!; try done; [cbn; by rewrite E4|].
  assert (Hs : without s [s] = []) by (unfold without; by rewrite filter_cons_False by naive_solver).
  assert (Hg : sigtbl (set_sigtbl (<[sig := without s [s]]> (sigtbl (w_sig w1))) (w_sig w1)) = sigtbl (w_sig w)).
  { cbn. rewrite E4. cbn. by rewrite Hs, list_insert_insert_eq, list_insert_id. }
  split; [|cbn in Hg |- *; intros sg t; rewrite Hg, E4; cbn; apply Hw|done].
  eapply (sig_rep_same w); [|done]. split; [|cbn [w_sfss set_w_sfss set_w_sig set_w_errno]; by rewrite E3|exact Hg|].
  - intros g. unfold sig_slot, slot_of. cbn. by rewrite E2.
  - intros q k [x Hq] Hkq. cbn. rewrite E1, lookup_insert_ne by congruence. eauto.
Qed.

Lemma evfilt_signal_knote_create_ok w A f p kn s :
  sig_st w A -> A !! p = None -> w_knotes w !! p = Some kn -> kn_signal_count kn = 0 ->
  sig_slot w f = Some s ->
  wp (evfilt_signal_knote_create fuel f p) (fun rv w' =>
    (rv = 0 /\ sig_valid (kn_sig kn) = true /\
       sig_st w' (<[p := SReg s (Z.to_nat (kn_sig kn)) true 0]> A)) \/
    (rv = -1 /\ sig_st w' A /\ (sig_valid (kn_sig kn) = false -> w_errno w' = EINVAL))) w.
Proof.
  intros St Hp Ek Hc Hf. pose proof St as [R Hw Hm]. unfold evfilt_signal_knote_create. wp_simpl. wp_prim. wp_simpl.
  destruct (sig_valid (kn_sig kn)) eqn:Hv; simpl.
  2: { unfold set_errno. wp_simpl. right. split_and!; try done. split; [|done..]. eapply sig_rep_same, R. auto with sigsame. }
  destruct (re_slot _ _ R _ _ Hf) as [y Hy]. pose proof (re_sfs _ _ R _ _ Hy) as Hok.
  set (sig := Z.to_nat (kn_sig kn)). assert (Hsig : kn_sig kn = Z.of_nat sig) by (unfold sig_valid in Hv; lia).
  assert (Hlt : (sig < Z.to_nat SIGNAL_MAX)%nat) by (unfold sig_valid in Hv; lia).
  destruct (lookup_lt_is_Some_2 (sfs_links y) sig) as [l Hl]; [by rewrite (so_len _ _ _ _ Hok)|].
  destruct (lookup_lt_is_Some_2 (sigtbl (w_sig w)) sig) as [links Hk]; [by rewrite (re_len _ _ R)|].
  wp_simpl. eapply wp_upd_kn; [exact Ek|]. wp_simpl. eapply wp_filter_sfs; [exact Hf|]. wp_simpl.
  apply wp_sigtbl_lock; [done|]. wp_simpl. eapply wp_get_s_links; [exact Hk|]. wp_simpl.
  eapply wp_sl_inserted; [exact Hk|]. wp_simpl. set (kn' := set_kev _ kn).
  set (links' := if bool_decide (s ∈ links) then links else s :: links).
  apply (wp_mono _ (fun _ w3 => w3 = set_w_sig (set_sigtbl_mtx true
      (set_sigtbl (<[sig := links']> (sigtbl (w_sig w))) (w_sig w))) (set_w_knotes (<[p := kn']> (w_knotes w)) w))).
  2: { subst links'. case_bool_decide; wp_simpl; [|done]. rewrite list_insert_id by done.
       unfold set_w_sig. cbn. f_equal. }
  intros [] w3 ->. wp_simpl. unfold insert_enabled. eapply wp_upd_link; [exact Hy|exact Hl|]. wp_simpl.
  case_bool_decide as Hfirst; wp_simpl.
  - assert (Hnw : Z.of_nat sig ∉ sig_active_set (w_sig w)) by (rewrite (Hw _ _ Hk); naive_solver).
    eapply wp_mono; [|apply sig_platform_add_ok; [exact Hdrain|by rewrite Hsig]].
    intros r w5 (k & e & ->). subst links. destruct (Z.eqb_spec r 0) as [->|Hr]; wp_simpl.
    + apply wp_sigtbl_unlock; [done|]. wp_simpl. left. split_and!; try done.
      apply (created_st w _ A f p kn' s sig y l [] links' ({[kn_sig kn]} ∪ sig_active_set (w_sig w)));
        try done; [by rewrite <- Hsig|rewrite Hsig; set_solver..].
    + eapply wp_mono; [|by apply (create_rollback_ok w _ A s y sig l p kn')].
      intros rv w6 (-> & Hm6 & St6). wp_simpl. apply wp_sigtbl_unlock; [done|]. wp_simpl. by right.
  - apply wp_sigtbl_unlock; [done|]. wp_simpl. left. split_and!; try done.
    apply (created_st w _ A f p kn' s sig y l links links' (sig_active_set (w_sig w))); try done.
    + by rewrite <- Hsig.
    + by apply (Hw _ _ Hk).
Qed.
End Create.
