(* ===== verification/SignalRuns.v ===== *)
(** * Delivery of signals: copyout, the dispatch thread and whole runs

    [sig_run] interleaves the rounds of the dispatch thread, the callbacks and
    the deliveries of any number of callers, in any order, and other code that
    leaves the signal state alone.  It counts, for each knote, the signals read
    while it was registered and the signals delivered to it. *)

From Stdlib Require Import ZArith Lia Bool.
From stdpp Require Import base list gmap.
From S2P Require Import Prelude RBTree Event Map State Ops Knote LinuxUdata LinuxEpoll LinuxTimer LinuxUser LinuxKevent Signal SignalSpec SignalOps.

(** ** Copyout *)

(** What the critical section of copyout may change, besides the event array. *)
Record emit_frame {K : Type} (w w' : world K) : Prop :=
  { ef_kqs : w_kqs w' = w_kqs w;
    ef_sig : w_sig w' = w_sig w;
    ef_kn : set_kn_signal_count 0 <$> w_knotes w' = set_kn_signal_count 0 <$> w_knotes w }.
#[export] Instance emit_frame_preorder {K : Type} : PreOrder (emit_frame (K := K)).
Proof. split; [by intros|]. intros ??? [???] [???]. split; congruence. Qed.

Section Emit.
Context {K : Type} `{OS K} `{FilterList K}.
Implicit Types (w : world K) (p q s : ptr) (f : filt_ref) (sig : nat) (A : gmap ptr sreg).

Lemma spec_emit_lookup l A p :
  spec_emit l A !! p = (fun r => if bool_decide (p ∈ l) then set_sr_count 0 r else r) <$> A !! p.
Proof. unfold spec_emit. rewrite map_lookup_imap. by destruct (A !! p). Qed.

Lemma spec_emit_nil A : spec_emit [] A = A.
Proof. apply map_eq. intros p. rewrite spec_emit_lookup. by destruct (A !! p). Qed.

Lemma spec_emit_cons p l A r :
  A !! p = Some r -> spec_emit l (<[p := set_sr_count 0 r]> A) = spec_emit (p :: l) A.
Proof.
  intros Hr. apply map_eq. intros q. rewrite !spec_emit_lookup. destruct (decide (q = p)) as [->|Hq].
  - rewrite lookup_insert_eq, Hr. simpl. rewrite (bool_decide_eq_true_2 (p ∈ p :: l)) by (by left).
    by case_bool_decide.
  - rewrite lookup_insert_ne by done. destruct (A !! q); [|done]. simpl. do 2 f_equal.
    rewrite (bool_decide_ext (q ∈ p :: l) (q ∈ l)); [done|]. rewrite elem_of_cons. naive_solver.
Qed.

(** One delivery: the knote leaves the pending list and its count is cleared. *)
Lemma emit_one w A p r kn m :
  sig_rep w A -> A !! p = Some r -> w_knotes w !! p = Some kn ->
  sig_rep (set_w_knotes (<[p := set_kn_signal_count 0 kn]> (w_knotes w))
    (set_w_sfss (pending_without p <$> w_sfss w) (set_w_mem m w))) (<[p := set_sr_count 0 r]> A).
Proof.
  intros R Hr Ek. apply (rep_update w _ A p r); try done; cbn [w_knotes w_sfss set_w_knotes set_w_sfss set_w_mem].
  - intros q Hq. by rewrite lookup_insert_ne.
  - intros ? [= <-]%(eq_trans (eq_sym Ek)). rewrite lookup_insert_eq. by eexists.
  - intros s z'. rewrite lookup_fmap. destruct (w_sfss w !! s) as [z|] eqn:Hz; [|done]. intros [= <-].
    exists z. split; [done|]. pose proof (re_sfs _ _ R _ _ Hz) as Hok. split; cbn; try done.
    + intros sig l Hl. by eapply links_count.
    + apply NoDup_without.
    + intros q Hq. rewrite elem_of_without. naive_solver.
    + rewrite elem_of_without. naive_solver.
    + intros ? [= <-]. unfold sr_ready. by rewrite andb_false_r.
  - intros s [z Hz]. by rewrite lookup_fmap, Hz.
Qed.

(** The events of the knotes [em], from address [dst] on. *)
Definition delivered_at w w' (dst : Z) (em : list ptr) : Prop :=
  (forall i p kn, em !! i = Some p -> w_knotes w !! p = Some kn ->
     w_mem w' !! (dst + Z.of_nat i) = Some (sig_event kn)) /\
  (forall a, ~ (dst <= a < dst + Z.of_nat (length em)) -> w_mem w' !! a = w_mem w !! a).

Lemma emit_loop_ok l room dst w A s y :
  sig_rep w A -> w_sfss w !! s = Some y -> sfs_pending y = l ->
  (forall i, (i < room)%nat -> (i < length l)%nat -> is_Some (w_mem w !! (dst + Z.of_nat i))) ->
  wp (emit_loop dst room l) (fun em w' => em = take room l /\ sig_rep w' (spec_emit em A) /\
    emit_frame w w' /\ delivered_at w w' dst em /\
    exists y', w_sfss w' !! s = Some y' /\ sfs_pending y' = drop room l) w.
Proof.
  revert room dst w A y. induction l as [|p l IH]; intros room dst w A y R Hy Hl Hm.
  { destruct room; simpl; wp_simpl; rewrite spec_emit_nil; split_and!; try done; eauto; split; try done; intros [] ?? E; discriminate E. }
  destruct room as [|room]; simpl.
  { wp_simpl. rewrite spec_emit_nil. split_and!; try done; eauto. }
  pose proof (re_sfs _ _ R _ _ Hy) as Hok.
  destruct (so_pending _ _ _ _ Hok p) as (sig & c & Hr); [rewrite Hl; by left|].
  destruct (re_live _ _ R _ _ Hr) as (kn & Ek & _).
  pose proof (so_nodup _ _ _ _ Hok) as Hn. rewrite Hl in Hn. apply NoDup_cons in Hn as [Hp Hn].
  destruct (Hm 0%nat) as [k0 Hk0]; [lia|simpl; lia|]. rewrite Z.add_0_r in Hk0.
  wp_simpl. wp_prim. wp_simpl. eapply wp_store; [exact Hk0|]. wp_simpl. eapply wp_upd_kn; [exact Ek|]. wp_simpl.
  set (w1 := set_w_knotes _ _).
  assert (R1 : sig_rep w1 (<[p := set_sr_count 0 (SReg s sig true c)]> A)) by exact (emit_one w A p _ kn _ R Hr Ek).
  assert (F1 : emit_frame w w1).
  { split; try done. cbn [w_knotes set_w_knotes w1]. rewrite fmap_insert. apply insert_id. by rewrite lookup_fmap, Ek. }
  eapply wp_mono; [|eapply (IH room (dst + 1) w1 _ (pending_without p y) R1)].
  - intros em w' (-> & R' & F' & (D1 & D2) & y' & Hy' & Hd). wp_simpl. rewrite (spec_emit_cons _ _ _ _ Hr) in R'.
    split_and!; [done..|by transitivity w1| |by exists y']. split.
    + intros [|i] q k; simpl.
      * intros [= <-] Hk. rewrite Z.add_0_r, D2 by lia. cbn. rewrite lookup_insert_eq. congruence.
      * intros Hi Hk. replace (dst + Z.of_nat (S i)) with (dst + 1 + Z.of_nat i) by lia. apply (D1 i q); [done|].
        cbn. rewrite lookup_insert_ne; [done|]. intros <-. apply Hp.
        apply lookup_take_Some in Hi as [Hi _]. by eapply list_elem_of_lookup_2.
    + intros a Ha. simpl in Ha. rewrite D2 by lia. cbn. rewrite lookup_insert_ne; [done|lia].
  - change ((pending_without p <$> w_sfss w) !! s = Some (pending_without p y)). by rewrite lookup_fmap, Hy.
  - cbn. rewrite Hl. unfold without. rewrite filter_cons_False by naive_solver. by apply without_id.
  - intros i Hi Hi'. cbn. destruct (decide (dst + 1 + Z.of_nat i = dst)) as [E|E]; [lia|].
    rewrite lookup_insert_ne by done. replace (dst + 1 + Z.of_nat i) with (dst + Z.of_nat (S i)) by lia.
    apply Hm; simpl; lia.
Qed.
End Emit.

(** ** A round of the dispatch thread *)

(** [read] on the signalfd reports only whole records it has filled in. *)
Definition siginfo_full {K : Type} `{OS K} : Prop :=
  forall fd max (k : K) n si k', os_call (SysSiginfoRead fd max) k = (SOk (n, si), k') ->
    (Z.to_nat (n / siginfo_size) <= length si)%nat.

(** The signals the next round reads. *)
Definition sigs_read {K : Type} `{OS K} (w : world K) : list Z :=
  match (os_call (SysSiginfoRead (sig_signalfd (w_sig w)) (64 * siginfo_size)) (w_os w)).1 with
  | SOk (n, si) => if n <? siginfo_size then [] else s32 <$> take (Z.to_nat (n / siginfo_size)) si
  | SErr _ => []
  end.

Definition spec_fires (l : list Z) (A : gmap ptr sreg) : gmap ptr sreg :=
  foldl (fun A sig => spec_fire sig A) A l.

Section Round.
Context {K : Type} `{OS K} `{FilterList K}.
Implicit Types (w : world K) (p q s : ptr) (f : filt_ref) (A : gmap ptr sreg).

Lemma dispatch_seq_ok n k si w A :
  sig_rep w A -> (k + n <= length si)%nat ->
  wp (iter (fun i => let! signo := deref Uninitialised (si !! i) in sig_dispatch_handle (s32 signo)) (seq k n))
    (fun _ w' => sig_rep w' (spec_fires (s32 <$> take n (drop k si)) A) /\ disp_frame w w') w.
Proof.
  revert k w A. induction n as [|n IH]; intros k w A R Hle; simpl; wp_simpl; [done|].
  destruct (lookup_lt_is_Some_2 si k) as [z Hz]; [lia|]. rewrite Hz. wp_simpl.
  eapply wp_mono; [|by apply sig_dispatch_handle_ok]. intros [] w1 [R1 F1]. simpl.
  eapply wp_mono; [|apply (IH (S k) w1); [exact R1|lia]]. intros [] w2 [R2 F2].
  split; [|by transitivity w1]. by rewrite (drop_S _ _ _ Hz).
Qed.

Lemma siginfo_dispatch_ok w A :
  siginfo_full (K := K) -> sig_st w A ->
  wp siginfo_dispatch (fun _ w' => sig_st w' (spec_fires (sigs_read w) A)) w.
Proof.
  intros Hfull [R Hw Hm]. unfold siginfo_dispatch. wp_simpl. apply wp_sigtbl_lock; [done|]. wp_simpl.
  assert (Hend : forall w' A', sig_rep w' A' -> w_sig w' = set_sigtbl_mtx true (w_sig w) ->
    wp sigtbl_unlock (fun _ w3 => sig_st w3 A') w').
  { intros w' A' R' E. apply wp_sigtbl_unlock; [by rewrite E|]. split; cbn; [|by rewrite E|done].
    eapply (sig_rep_same w'); [|done]. by apply same_sig. }
  assert (R1 : forall k e, sig_rep (set_w_errno e (set_w_os k (set_w_sig (set_sigtbl_mtx true (w_sig w)) w))) A).
  { intros k e. eapply sig_rep_same, R. by split; eauto. }
  unfold sigs_read. apply wp_sys; cbn [w_os set_w_sig sig_signalfd w_sig set_sigtbl_mtx].
  - intros [n si] k E. rewrite E. cbn [fst]. destruct (n <? siginfo_size); wp_simpl.
    + eapply wp_mono; [|apply Hend; [exact (R1 k (w_errno w))|done]]. intros; by wp_simpl.
    + eapply wp_mono; [|apply (dispatch_seq_ok _ 0%nat si _ A); [exact (R1 k (w_errno w))|by eapply Hfull]].
      intros [] w' [R' F']. wp_simpl. rewrite drop_0 in R'.
      eapply wp_mono; [|apply (Hend w' _ R'); exact (df_sig _ _ F')]. intros; by wp_simpl.
  - intros e k E. rewrite E. cbn [fst]. unfold errno. wp_simpl.
    eapply wp_mono; [|apply Hend; [exact (R1 k e)|done]]. intros; by wp_simpl.
Qed.

Lemma copyout_emit_ok w A f s y dst nevents :
  sig_st w A -> sig_slot w f = Some s -> w_sfss w !! s = Some y ->
  (forall i, dst <= i < dst + nevents -> is_Some (w_mem w !! i)) ->
  wp (copyout_emit dst nevents f) (fun em w' => em = take (Z.to_nat nevents) (sfs_pending y) /\
    sig_st w' (spec_emit em A) /\ delivered_at w w' dst em /\
    (exists y', w_sfss w' !! s = Some y' /\ sfs_pending y' = drop (Z.to_nat nevents) (sfs_pending y)) /\
    w_kqs w' = w_kqs w /\ set_kn_signal_count 0 <$> w_knotes w' = set_kn_signal_count 0 <$> w_knotes w) w.
Proof.
  intros [R Hw Hm] Hf Hy Hmem. unfold copyout_emit. wp_simpl. eapply wp_filter_sfs; [done|]. wp_simpl.
  apply wp_sigtbl_lock; [done|]. wp_simpl. eapply wp_get_sfs; [done|]. wp_simpl.
  eapply wp_mono; [|eapply (emit_loop_ok _ _ dst _ A s y); [|done..|]].
  - intros em w' (-> & R' & F' & D' & y' & Hy' & Hd). wp_simpl.
    pose proof (ef_sig _ _ F') as Es. apply wp_sigtbl_unlock; [by rewrite Es|]. wp_simpl. split_and!; try done.
    + split; cbn; [|by rewrite Es|done]. eapply sig_rep_same, R'. by split; eauto.
    + by exists y'.
    + exact (ef_kqs _ _ F').
    + exact (ef_kn _ _ F').
  - eapply sig_rep_same, R. by apply same_sig.
  - intros i Hi _. apply Hmem. lia.
Qed.
End Round.

(** ** Runs *)

Section Runs.
Context {K : Type} `{OS K} `{FilterList K} (fuel : nat).
Implicit Types (w : world K) (p q s : ptr) (f : filt_ref) (A : gmap ptr sreg) (F D : ptr -> Z).

(** [p] is registered through the filter [f]. *)
Definition listens w f p : Prop :=
  exists s y, sig_slot w f = Some s /\ w_sfss w !! s = Some y /\ in_links p y = true.

(** Steps of other code: the signal state and the signal members of registered
    knotes stay as they are. *)
Record sig_env w w' : Prop :=
  { en_slot : forall f, sig_slot w' f = sig_slot w f;
    en_sfss : w_sfss w' = w_sfss w;
    en_tbl : sigtbl (w_sig w') = sigtbl (w_sig w);
    en_act : sig_active_set (w_sig w') = sig_active_set (w_sig w);
    en_mtx : sigtbl_mtx (w_sig w') = sigtbl_mtx (w_sig w);
    en_kn : forall p kn, entry_inserted p w = true -> w_knotes w !! p = Some kn ->
      exists kn', w_knotes w' !! p = Some kn' /\ kn_sig kn' = kn_sig kn /\
        kn_signal_count kn' = kn_signal_count kn }.

(** The signals in [l] that a registered knote waits for, counted. *)
Definition fired w (l : list Z) F : ptr -> Z := fun p =>
  match w_knotes w !! p with
  | Some kn => if entry_inserted p w
               then F p + Z.of_nat (length (base.filter (fun z => z = kn_sig kn) l)) else F p
  | None => F p
  end.

(** The [data] of the events stored for the knotes [em] from [dst] on, added up. *)
Fixpoint deliver (m : gmap Z kevent) (dst : Z) (em : list ptr) D : ptr -> Z :=
  match em with
  | [] => D
  | p :: em' => deliver m (dst + 1) em'
      (fun q => if decide (q = p) then D q + from_option data 0 (m !! dst) else D q)
  end.

Definition set_at p (v : Z) F : ptr -> Z := fun q => if decide (q = p) then v else F q.

(** [sig_run w F D]: [w] is reachable; [F] counts the signals read for a knote
    since it was registered, [D] those delivered to it. *)
Inductive sig_run : world K -> (ptr -> Z) -> (ptr -> Z) -> Prop :=
  | run_start w : sig_st w ∅ -> sig_run w (fun _ => 0) (fun _ => 0)
  | run_env w w' F D : sig_run w F D -> sig_env w w' -> sig_run w' F D
  | run_round w rv w' F D :
      sig_run w F D -> siginfo_dispatch w = Ret rv w' -> sig_run w' (fired w (sigs_read w) F) D
  | run_create w f p kn s rv w' F D :
      sig_run w F D -> entry_inserted p w = false -> w_knotes w !! p = Some kn ->
      kn_signal_count kn = 0 -> sig_slot w f = Some s ->
      evfilt_signal_knote_create fuel f p w = Ret rv w' ->
      sig_run w' (set_at p 0 F) (set_at p 0 D)
  | run_enable w f p rv w' F D :
      sig_run w F D -> listens w f p -> evfilt_signal_knote_enable f p w = Ret rv w' -> sig_run w' F D
  | run_disable w f p rv w' F D :
      sig_run w F D -> listens w f p -> evfilt_signal_knote_disable f p w = Ret rv w' -> sig_run w' F D
  | run_delete w f p rv w' F D :
      sig_run w F D -> listens w f p -> evfilt_signal_knote_delete f p w = Ret rv w' -> sig_run w' F D
  | run_emit w f s dst nevents em w' F D :
      sig_run w F D -> sig_slot w f = Some s -> copyout_emit dst nevents f w = Ret em w' ->
      (forall i, dst <= i < dst + nevents -> is_Some (w_mem w !! i)) ->
      sig_run w' F (deliver (w_mem w') dst em D).

Definition conserved A F D : Prop :=
  forall p r, A !! p = Some r -> sr_count r = u32 (F p - D p).

Lemma u32_succ a b : a = u32 b -> u32 (a + 1) = u32 (b + 1).
Proof. intros ->. unfold u32. by rewrite Zplus_mod_idemp_l. Qed.

Lemma conserved_fire A F D sig :
  conserved A F D ->
  conserved (spec_fire sig A) (fun p => match A !! p with
    | Some r => if Z.of_nat (sr_sig r) =? sig then F p + 1 else F p | None => F p end) D.
Proof.
  intros HC p r Hr. unfold spec_fire in Hr. rewrite lookup_fmap in Hr.
  destruct (A !! p) as [r0|] eqn:E; [|done]. injection Hr as <-. specialize (HC _ _ E).
  destruct (_ =? sig); [|done]. cbn. rewrite (u32_succ _ _ HC). f_equal. lia.
Qed.

Lemma conserved_ext A F F' D D' :
  (forall p, is_Some (A !! p) -> F p = F' p /\ D p = D' p) -> conserved A F D -> conserved A F' D'.
Proof. intros HE HC p r Hr. destruct (HE p) as [<- <-]; eauto. Qed.

Lemma conserved_fires l A F D :
  conserved A F D ->
  conserved (spec_fires l A) (fun p => match A !! p with
    | Some r => F p + Z.of_nat (length (base.filter (fun z => z = Z.of_nat (sr_sig r)) l))
    | None => F p end) D.
Proof.
  revert A F. induction l as [|z l IH]; intros A F HC; simpl.
  - eapply conserved_ext, HC. intros p [r Hr]. rewrite Hr. simpl. lia.
  - eapply conserved_ext, IH, conserved_fire, HC. intros p [r Hr]. split; [|done].
    unfold spec_fire. rewrite lookup_fmap.
    destruct (A !! p) as [r0|] eqn:E; simpl; [|done].
    assert (Es : sr_sig (if Z.of_nat (sr_sig r0) =? z then sr_bump r0 else r0) = sr_sig r0) by (by destruct (_ =? _)).
    rewrite Es. destruct (Z.eqb_spec (Z.of_nat (sr_sig r0)) z) as [Hz|Hz].
    + rewrite filter_cons_True by done. simpl. lia.
    + by rewrite filter_cons_False by naive_solver.
Qed.

Lemma deliver_other m dst em D q : q ∉ em -> deliver m dst em D q = D q.
Proof.
  revert dst D. induction em as [|p em IH]; intros dst D Hq; [done|]. apply not_elem_of_cons in Hq as [Hne Hq].
  simpl. rewrite IH by done. by rewrite decide_False.
Qed.

Lemma deliver_at m dst em D q i k :
  NoDup em -> em !! i = Some q -> m !! (dst + Z.of_nat i) = Some k -> deliver m dst em D q = D q + data k.
Proof.
  revert dst D i. induction em as [|p em IH]; intros dst D i Hn Hi Hk; [done|].
  apply NoDup_cons in Hn as [Hp Hn]. destruct i as [|i]; simpl in *.
  - injection Hi as ->. rewrite deliver_other, decide_True by done. rewrite Z.add_0_r in Hk. by rewrite Hk.
  - rewrite (IH _ _ i); [|done|done|by replace (dst + 1 + Z.of_nat i) with (dst + Z.of_nat (S i)) by lia].
    rewrite decide_False; [done|]. intros ->. apply Hp. by eapply list_elem_of_lookup_2.
Qed.

Lemma listens_reg w A f p :
  sig_rep w A -> listens w f p -> exists r, A !! p = Some r /\ sig_slot w f = Some (sr_sfs r).
Proof.
  intros R (s & y & Hf & Hy & Hb). apply existsb_exists in Hb as (l & Hl & Hb).
  apply list_elem_of_In, list_elem_of_lookup in Hl as [sig Hl].
  destruct (so_link _ _ _ _ (re_sfs _ _ R _ _ Hy) _ _ Hl) as (_ & _ & Hr). destruct (Hr p) as [He Hd].
  apply orb_true_iff in Hb as [Hb|Hb]; apply bool_decide_eq_true in Hb;
    [apply He in Hb as [c E]|apply Hd in Hb as [c E]]; by eexists.
Qed.

Lemma not_inserted w A p : sig_rep w A -> entry_inserted p w = false -> A !! p = None.
Proof.
  intros R Hp. rewrite (entry_inserted_spec _ _ _ R) in Hp. apply bool_decide_eq_false in Hp.
  by apply eq_None_not_Some.
Qed.

Lemma env_rep w w' A : sig_rep w A -> sig_env w w' -> sig_rep w' A.
Proof.
  intros R [E1 E2 E3 E4 E5 E6]. eapply sig_rep_same, R. split; try done. intros p kn Hp Hk. apply E6; [|done].
  rewrite (entry_inserted_spec _ _ _ R). by apply bool_decide_eq_true_2.
Qed.

Lemma env_same w w' A : sig_st w A -> sig_env w w' -> sig_st w' A.
Proof.
  intros [R Hw Hm] He. split; [by eapply env_rep|..]; destruct He as [E1 E2 E3 E4 E5 E6]; [|congruence].
  intros sig l. rewrite E3, E4. apply Hw.
Qed.

Lemma conserved_on A F D p r b :
  A !! p = Some r -> conserved A F D -> conserved (<[p := set_sr_on b r]> A) F D.
Proof.
  intros Hr HC q x Hx. destruct (decide (q = p)) as [->|Hq].
  - rewrite lookup_insert_eq in Hx. injection Hx as <-. exact (HC _ _ Hr).
  - rewrite lookup_insert_ne in Hx by done. by apply HC.
Qed.

(** A delivery moves what a knote is owed from its count to the event. *)
Lemma conserved_emit w w' A F D dst em :
  sig_rep w A -> conserved A F D -> NoDup em -> (forall p, p ∈ em -> is_Some (A !! p)) ->
  delivered_at w w' dst em -> conserved (spec_emit em A) F (deliver (w_mem w') dst em D).
Proof.
  intros R HC Hn Hem [HD _] p r Hr. rewrite spec_emit_lookup in Hr.
  destruct (A !! p) as [r0|] eqn:E; [|done]. injection Hr as <-. specialize (HC _ _ E).
  case_bool_decide as Hp; [|by rewrite deliver_other].
  apply list_elem_of_lookup in Hp as [i Hi]. destruct (re_live _ _ R _ _ E) as (kn & Ek & _ & _ & Hc & _).
  rewrite (deliver_at _ _ _ _ _ i (sig_event kn)) by eauto. cbn. rewrite Hc, HC. unfold u32.
  rewrite Z.sub_add_distr, Zminus_mod_idemp_r, Z.sub_diag. done.
Qed.

Context (Hdrain : sig_drains (K := K) fuel) (Hfull : siginfo_full (K := K)).

Lemma sig_run_inv w F D : sig_run w F D -> exists A, sig_st w A /\ conserved A F D.
Proof.
  induction 1 as [w St|w w' F D _ (A & St & HC) He|w rv w' F D _ (A & St & HC) Hrun
    |w f p kn s rv w' F D _ (A & St & HC) Hp Ek Hc Hf Hrun
    |w f p rv w' F D _ (A & St & HC) Hl Hrun|w f p rv w' F D _ (A & St & HC) Hl Hrun
    |w f p rv w' F D _ (A & St & HC) Hl Hrun|w f s dst n em w' F D _ (A & St & HC) Hf Hrun Hm];
    try pose proof (st_rep _ _ St) as R.
  - exists ∅. split; [done|]. intros p r Hr. by rewrite lookup_empty in Hr.
  - exists A. split; [by eapply env_same|done].
  - eexists. split; [exact (wp_Ret _ _ _ _ _ (siginfo_dispatch_ok w A Hfull St) Hrun)|].
    eapply conserved_ext, conserved_fires, HC. intros p [r0 Hp]. split; [|done]. unfold fired.
    destruct (A !! p) as [r|] eqn:Hr.
    + destruct (re_live _ _ R _ _ Hr) as (kn & Ek & Hs & _). rewrite Ek, Hs.
      rewrite (entry_inserted_spec _ _ _ R), bool_decide_eq_true_2 by (by eexists). done.
    + assert (Hn : entry_inserted p w = false).
      { rewrite (entry_inserted_spec _ _ _ R), bool_decide_eq_false_2; [done|]. rewrite Hr. by intros []. }
      rewrite Hn. by destruct (w_knotes w !! p).
  - pose proof (not_inserted _ _ _ R Hp) as Hn.
    assert (HC' : forall r, sr_count r = 0 -> conserved (<[p := r]> A) (set_at p 0 F) (set_at p 0 D)).
    { intros r Hr q x Hx. unfold set_at. destruct (decide (q = p)) as [->|Hq].
      - rewrite lookup_insert_eq in Hx. injection Hx as <-. by rewrite Hr.
      - rewrite lookup_insert_ne in Hx by done. by apply HC. }
    destruct (wp_Ret _ _ _ _ _ (evfilt_signal_knote_create_ok fuel Hdrain w A f p kn s St Hn Ek Hc Hf) Hrun)
      as [(-> & _ & St')|(-> & St' & _)].
    + eexists. split; [exact St'|]. by apply HC'.
    + exists A. split; [done|]. eapply conserved_ext, HC. intros q [x Hq]. unfold set_at.
      rewrite !decide_False by congruence. done.
  - destruct (listens_reg _ _ _ _ R Hl) as (r & Hr & Hf).
    destruct (wp_Ret _ _ _ _ _ (evfilt_signal_knote_enable_ok w A f p r St Hr Hf) Hrun) as [_ St'].
    eexists. split; [exact St'|by apply conserved_on].
  - destruct (listens_reg _ _ _ _ R Hl) as (r & Hr & Hf).
    destruct (wp_Ret _ _ _ _ _ (evfilt_signal_knote_disable_ok w A f p r St Hr Hf) Hrun) as [_ St'].
    eexists. split; [exact St'|by apply conserved_on].
  - destruct (listens_reg _ _ _ _ R Hl) as (r & Hr & Hf).
    destruct (wp_Ret _ _ _ _ _ (evfilt_signal_knote_delete_ok w A f p r St Hr Hf) Hrun) as [_ St'].
    eexists. split; [exact St'|]. intros q x Hx. apply lookup_delete_Some in Hx as [_ Hx]. by apply HC.
  - destruct (re_slot _ _ R _ _ Hf) as [y Hy]. pose proof (re_sfs _ _ R _ _ Hy) as Hok.
    destruct (wp_Ret _ _ _ _ _ (copyout_emit_ok w A f s y dst n St Hf Hy Hm) Hrun) as (Hem & St' & HD & _).
    eexists. split; [exact St'|]. subst em. eapply (conserved_emit w); [done..| | |exact HD].
    + eapply sublist_NoDup; [exact (so_nodup _ _ _ _ Hok)|apply sublist_take].
    + intros p (i & Hi & _)%elem_of_take.
      destruct (so_pending _ _ _ _ Hok p) as (sig & c & E); [by eapply list_elem_of_lookup_2|by eexists].
Qed.
End Runs.
