(* ===== verification/SignalClaims.v ===== *)
(** * What the signal filter guarantees, and where it does not deliver *)

From Stdlib Require Import ZArith Lia Bool.
From stdpp Require Import base list gmap.
From S2P Require Import Prelude RBTree Event Map State Ops Knote LinuxUdata LinuxEpoll LinuxTimer LinuxUser LinuxKevent Signal SignalSpec SignalOps SignalRuns.

Section Claims.
Context {K : Type} `{OS K} `{FilterList K} (fuel : nat).
Implicit Types (w : world K) (p q s : ptr) (f : filt_ref) (A : gmap ptr sreg) (F D : ptr -> Z).

(** C6: in every run, the count of a registered knote is the number of signals
    read for it since its registration less the number delivered to it, modulo
    the 32 bits of the counter: no signal is lost or delivered twice, whatever is
    enabled, disabled, delivered or read in between. *)
Theorem signal_conservation w F D p kn :
  sig_drains (K := K) fuel -> siginfo_full (K := K) -> sig_run fuel w F D ->
  entry_inserted p w = true -> w_knotes w !! p = Some kn ->
  kn_signal_count kn = u32 (F p - D p).
Proof.
  intros Hd Hf Hrun Hp Ek. destruct (sig_run_inv fuel Hd Hf _ _ _ Hrun) as (A & [R _ _] & HC).
  rewrite (entry_inserted_spec _ _ _ R) in Hp. apply bool_decide_eq_true in Hp as [r Hr].
  destruct (re_live _ _ R _ _ Hr) as (kn' & Ek' & _ & _ & Hc & _). rewrite Ek in Ek'. injection Ek' as <-.
  rewrite Hc. by apply HC.
Qed.

(** In every run without a fork, the set the library keeps for signalfd(2) holds exactly
    the signals that some registered knote waits for. *)
Theorem signal_watched w F D sig :
  sig_drains (K := K) fuel -> siginfo_full (K := K) -> sig_run fuel w F D -> sig_valid sig = true ->
  sig ∈ sig_active_set (w_sig w) <->
  exists p kn, entry_inserted p w = true /\ w_knotes w !! p = Some kn /\ kn_sig kn = sig.
Proof.
  intros Hd Hf Hrun Hv. destruct (sig_run_inv fuel Hd Hf _ _ _ Hrun) as (A & [R Hw _] & _).
  destruct (lookup_lt_is_Some_2 (sigtbl (w_sig w)) (Z.to_nat sig)) as [l Hl].
  { rewrite (re_len _ _ R). unfold sig_valid in Hv. lia. }
  pose proof (Hw _ _ Hl) as Hiff. rewrite Z2Nat.id in Hiff by (unfold sig_valid in Hv; lia). rewrite Hiff.
  destruct (re_table _ _ R _ _ Hl) as [_ Hin]. split.
  - destruct l as [|s l]; [done|]. intros _. destruct (proj1 (Hin s)) as (p & b & c & Hr); [by left|].
    destruct (re_live _ _ R _ _ Hr) as (kn & Ek & Hs & _). exists p, kn.
    rewrite (entry_inserted_spec _ _ _ R), bool_decide_eq_true_2 by (by eexists). split_and!; try done.
    rewrite Hs. cbn. unfold sig_valid in Hv. lia.
  - intros (p & kn & Hp & Ek & Hs) ->. rewrite (entry_inserted_spec _ _ _ R) in Hp.
    apply bool_decide_eq_true in Hp as [r Hr]. destruct (re_live _ _ R _ _ Hr) as (kn' & Ek' & Hs' & _).
    rewrite Ek in Ek'. injection Ek' as <-. apply (not_elem_of_nil (sr_sfs r)), Hin.
    exists p, (sr_on r), (sr_count r). rewrite Hr. destruct r as [s n b c]. cbn in *.
    by replace (Z.to_nat sig) with n by lia.
Qed.

(** C19: the callbacks on a registered knote do what the specification says:
    enabling and disabling switch it and keep what it owes, deletion removes it;
    they return 0 and keep the representation, so that nothing is left pending
    for a disabled or deleted knote. *)
Theorem signal_callbacks_refine w A f p r :
  sig_st w A -> A !! p = Some r -> sig_slot w f = Some (sr_sfs r) ->
  wp (evfilt_signal_knote_enable f p) (fun rv w' => rv = 0 /\ sig_st w' (<[p := set_sr_on true r]> A)) w /\
  wp (evfilt_signal_knote_disable f p) (fun rv w' => rv = 0 /\ sig_st w' (<[p := set_sr_on false r]> A)) w /\
  wp (evfilt_signal_knote_delete f p) (fun rv w' => rv = 0 /\ sig_st w' (delete p A)) w.
Proof.
  intros St Hr Hf. split_and!;
    [by apply evfilt_signal_knote_enable_ok|by apply evfilt_signal_knote_disable_ok|by eapply evfilt_signal_knote_delete_ok].
Qed.

(** C20: a registration is added exactly when the signal number is valid and the
    kernel accepts the new mask; otherwise the call fails and leaves no trace, with
    EINVAL for a number outside 1..SIGNAL_MAX-1. *)
Theorem signal_create_atomic w A f p kn s :
  sig_drains (K := K) fuel -> sig_st w A -> A !! p = None -> w_knotes w !! p = Some kn ->
  kn_signal_count kn = 0 -> sig_slot w f = Some s ->
  wp (evfilt_signal_knote_create fuel f p) (fun rv w' =>
    (rv = 0 /\ sig_valid (kn_sig kn) = true /\
       sig_st w' (<[p := SReg s (Z.to_nat (kn_sig kn)) true 0]> A)) \/
    (rv = -1 /\ sig_st w' A /\ (sig_valid (kn_sig kn) = false -> w_errno w' = EINVAL))) w.
Proof. intros Hd. by apply evfilt_signal_knote_create_ok. Qed.

(** C21: copyout with room for every pending knote delivers each enabled knote that
    owes a signal, once, with the number of signals it owes, and afterwards no
    enabled knote of the filter owes one. *)
Theorem signal_delivered w A f s y dst nevents :
  sig_st w A -> sig_slot w f = Some s -> w_sfss w !! s = Some y ->
  (forall i, dst <= i < dst + nevents -> is_Some (w_mem w !! i)) ->
  Z.of_nat (length (sfs_pending y)) <= nevents ->
  wp (copyout_emit dst nevents f) (fun em w' => NoDup em /\ sig_st w' (spec_emit em A) /\
    (forall p r, A !! p = Some r -> sr_ready s r = true ->
       exists i k, em !! i = Some p /\ w_mem w' !! (dst + Z.of_nat i) = Some k /\
         s32 (ident k) = Z.of_nat (sr_sig r) /\ data k = sr_count r) /\
    (forall p r, spec_emit em A !! p = Some r -> sr_ready s r = false)) w.
Proof.
  intros St Hf Hy Hm Hroom. pose proof (st_rep _ _ St) as R. pose proof (re_sfs _ _ R _ _ Hy) as Hok.
  eapply wp_mono; [|by eapply copyout_emit_ok]. intros em w' (-> & St' & [HD _] & _).
  rewrite take_ge in * by lia. split_and!; [apply Hok|done| |].
  - intros p r Hr Hrd. pose proof (so_ready _ _ _ _ Hok _ _ Hr Hrd) as [i Hi]%list_elem_of_lookup.
    destruct (re_live _ _ R _ _ Hr) as (kn & Ek & Hs & Hv & Hc & _).
    exists i, (sig_event kn). split_and!; [done|by eapply HD|exact Hs|exact Hc].
  - intros p r Hr. rewrite spec_emit_lookup in Hr. destruct (A !! p) as [r0|] eqn:E; [|done].
    injection Hr as <-. case_bool_decide as Hp; [unfold sr_ready; by rewrite andb_false_r|].
    apply not_true_is_false. intros Hrd. apply Hp. by eapply so_ready.
Qed.

(** ** A copyout without room for every pending knote *)

(** Knotes without EV_DISPATCH and EV_ONESHOT are left alone after delivery. *)
Definition plain w p : Prop :=
  forall kn, w_knotes w !! p = Some kn ->
    has (flags (kev kn)) EV_DISPATCH = false /\ has (flags (kev kn)) EV_ONESHOT = false.

Lemma flag_actions_plain f l w :
  (forall p, p ∈ l -> plain w p /\ is_Some (w_knotes w !! p)) ->
  wp (for_each (fun p => let! rv := knote_copyout_flag_actions f p in
                         ret (if rv <? 0 then Some tt else None)) l) (fun r w' => r = None /\ w' = w) w.
Proof.
  induction l as [|p l IH]; intros Hl; simpl; wp_simpl; [done|].
  destruct (Hl p) as [Hp [kn Ek]]; [by left|]. destruct (Hp _ Ek) as [H1 H2].
  unfold knote_copyout_flag_actions. wp_simpl. wp_prim. wp_simpl. rewrite H1. wp_simpl. wp_prim. wp_simpl.
  rewrite H2. wp_simpl. apply IH. intros q Hq. apply Hl. by right.
Qed.

(** Dispatch that wakes nobody changes counts only. *)
Definition quiet w w' : Prop := exists m, w' = set_w_knotes m w /\ dom m = dom (w_knotes w).

Lemma quiet_refl w : quiet w w.
Proof. exists (w_knotes w). by destruct w. Qed.

Lemma quiet_trans w1 w2 w3 : quiet w1 w2 -> quiet w2 w3 -> quiet w1 w3.
Proof. intros (m & -> & D1) (n & -> & D2). exists n. split; [done|]. cbn in D2. congruence. Qed.

Lemma bump_quiet w p : is_Some (w_knotes w !! p) -> wp (bump p) (fun _ w' => quiet w w') w.
Proof.
  intros [kn Ek]. unfold bump. wp_prim. eexists. split; [done|]. rewrite dom_insert_L.
  apply elem_of_dom_2 in Ek. set_solver.
Qed.

Lemma iter_bump_quiet l w :
  (forall p, p ∈ l -> is_Some (w_knotes w !! p)) -> wp (iter bump l) (fun _ w' => quiet w w') w.
Proof.
  revert w. induction l as [|p l IH]; intros w Hl; simpl; wp_simpl; [apply quiet_refl|].
  eapply wp_mono; [|apply bump_quiet, Hl; by left]. intros [] w1 Q1. simpl.
  eapply wp_mono; [|apply IH].
  - intros [] w2 Q2. by eapply quiet_trans.
  - intros q Hq. destruct Q1 as (m & -> & Dm). cbn. apply elem_of_dom. rewrite Dm. apply elem_of_dom, Hl. by right.
Qed.

Lemma dispatch_enabled_quiet l s w wake :
  (forall p, p ∈ l -> is_Some (w_knotes w !! p) /\ pending_inserted p w = true) ->
  wp (dispatch_all_enabled s wake l) (fun b w' => b = wake /\ quiet w w') w.
Proof.
  revert w. induction l as [|p l IH]; intros w Hl; simpl; wp_simpl; [split; [done|apply quiet_refl]|].
  destruct (Hl p) as [Hk Hp]; [by left|]. unfold dispatch_enabled. wp_simpl.
  eapply wp_mono; [|by apply bump_quiet]. intros [] w1 Q1. wp_simpl.
  assert (Hpend : forall q, pending_inserted q w1 = pending_inserted q w) by (by destruct Q1 as (m & -> & _)).
  rewrite Hpend, Hp. wp_simpl. eapply wp_mono; [|apply IH].
  - intros b w2 [-> Q2]. split; [done|]. by eapply quiet_trans.
  - intros q Hq. destruct (Hl q) as [Hkq Hpq]; [by right|]. rewrite Hpend. split; [|done].
    destruct Q1 as (m & -> & Dm). cbn. apply elem_of_dom. rewrite Dm. by apply elem_of_dom.
Qed.

Lemma dispatch_link_quiet w A s y sig :
  sig_rep w A -> w_sfss w !! s = Some y -> (sig < Z.to_nat SIGNAL_MAX)%nat ->
  (forall p, regd A p s sig true -> pending_inserted p w = true) ->
  forall w1, quiet w w1 -> wp (dispatch_link sig s) (fun _ w' => quiet w w') w1.
Proof.
  intros R Hy Hsig Hall w1 Q. pose proof (re_sfs _ _ R _ _ Hy) as Hok.
  destruct (lookup_lt_is_Some_2 (sfs_links y) sig) as [l Hl]; [by rewrite (so_len _ _ _ _ Hok)|].
  destruct (so_link _ _ _ _ Hok _ _ Hl) as (N1 & N2 & Hp).
  destruct (so_filt _ _ _ _ Hok) as (f & Hf & Hfl). specialize (Hfl _ _ Hl).
  assert (Hlive : forall w2 p b, quiet w w2 -> regd A p s sig b -> is_Some (w_knotes w2 !! p)).
  { intros w2 p b (m & -> & Dm) [c Hr]. cbn. apply elem_of_dom. rewrite Dm.
    destruct (re_live _ _ R _ _ Hr) as (kn & Ek & _). by eapply elem_of_dom_2. }
  destruct Q as (m & -> & Dm). unfold dispatch_link. wp_simpl. eapply wp_get_link; [exact Hy|done|]. wp_simpl. rewrite Hfl.
  eapply wp_filter_sfs; [exact Hf|]. wp_simpl.
  assert (Q : quiet w (set_w_knotes m w)) by (by exists m).
  eapply wp_mono; [|apply dispatch_enabled_quiet].
  - intros b w2 [-> Q2]. wp_simpl. assert (Q3 : quiet w w2) by (by eapply quiet_trans).
    eapply wp_mono; [|apply iter_bump_quiet].
    + intros [] w3 Q4. wp_simpl. by eapply quiet_trans.
    + intros p Hin. eapply Hlive; [done|]. by apply Hp.
  - intros p Hin. apply Hp in Hin. split; [by eapply Hlive|by apply Hall].
Qed.

Lemma dispatch_quiet w A sig :
  sig_rep w A ->
  (forall p r, A !! p = Some r -> Z.of_nat (sr_sig r) = sig -> sr_on r = true -> pending_inserted p w = true) ->
  wp (sig_dispatch_handle sig) (fun _ w' => quiet w w') w.
Proof.
  intros R Hall. unfold sig_dispatch_handle. destruct (_ || _) eqn:Hb; [wp_simpl; apply quiet_refl|].
  assert (Hs : (Z.to_nat sig < Z.to_nat SIGNAL_MAX)%nat) by lia.
  destruct (lookup_lt_is_Some_2 (sigtbl (w_sig w)) (Z.to_nat sig)) as [l Hl]; [by rewrite (re_len _ _ R)|].
  destruct (re_table _ _ R _ _ Hl) as [_ Hin]. wp_simpl. eapply wp_get_s_links; [done|].
  assert (Hlinks : forall s, s ∈ l -> exists y, w_sfss w !! s = Some y).
  { intros s (p & b & c & Hr)%Hin. by destruct (re_live _ _ R _ _ Hr) as (_ & _ & _ & _ & _ & [y ?]); exists y. }
  clear Hl Hin. assert (Q : quiet w w) by apply quiet_refl. revert Q. generalize w at 2 4 as w1.
  induction l as [|s l IH]; intros w1 Q; simpl; wp_simpl; [done|].
  destruct (Hlinks s) as [y Hy]; [by left|].
  eapply wp_mono; [|eapply (dispatch_link_quiet w A s y); [done..| |exact Q]].
  - intros [] w2 Q2. simpl. apply IH; [|done]. intros t Ht. apply Hlinks. by right.
  - intros p [c Hr]. eapply Hall; [done| |done]. cbn. lia.
Qed.

(** What is left pending stays so, and its signals are counted in silence. *)
Lemma stranded_after w1 A s y y1 nevents :
  sig_st w1 (spec_emit (take (Z.to_nat nevents) (sfs_pending y)) A) -> w_sfss w1 !! s = Some y1 ->
  sfs_pending y1 = drop (Z.to_nat nevents) (sfs_pending y) -> 0 <= nevents < Z.of_nat (length (sfs_pending y)) ->
  forall k e, let w' := set_w_errno e (set_w_os k w1) in
  (exists p y', w_sfss w' !! s = Some y' /\ p ∈ sfs_pending y') /\
  forall sig, (forall q r, A !! q = Some r -> Z.of_nat (sr_sig r) = sig -> sr_on r = true ->
                 q ∈ drop (Z.to_nat nevents) (sfs_pending y)) ->
    wp (sig_dispatch_handle sig) (fun _ w2 => w_os w2 = w_os w') w'.
Proof.
  intros St1 Hy1 Hp1 Hn k e w'. split.
  - assert (Hne : drop (Z.to_nat nevents) (sfs_pending y) <> []).
    { intros E. apply (f_equal length) in E. rewrite length_drop in E. simpl in E. lia. }
    destruct (drop (Z.to_nat nevents) (sfs_pending y)) as [|p t]; [done|].
    exists p, y1. split; [done|]. rewrite Hp1. by left.
  - intros sig Hall. eapply wp_mono; [|eapply (dispatch_quiet w')].
    + by intros [] w2 (m & -> & _).
    + eapply sig_rep_same, (st_rep _ _ St1). by split; eauto.
    + intros p r Hr Hsg Hon. rewrite spec_emit_lookup in Hr. destruct (A !! p) as [r1|] eqn:Er; [|done].
      injection Hr as <-. apply pending_inserted_iff. exists s, y1. split; [done|]. rewrite Hp1.
      apply (Hall p r1 Er); by case_bool_decide.
Qed.

(** C37: a copyout with room for fewer events than are pending lowers the eventfd
    although enabled knotes still owe signals, and a further signal for one of
    those wakes nobody, since it is already pending: the events stay undelivered
    until some other knote of the filter becomes pending. *)
Theorem signal_stranded (level : K -> Z -> bool) w A f s x y dst nevents src ev :
  (forall fd k r k', os_call (SysRead8 fd) k = (r, k') -> level k' fd = false) ->
  sig_st w A -> slot_of w f.1 f.2 = Some x -> kf_sig x = Some s -> w_sfss w !! s = Some y ->
  (forall i, dst <= i < dst + nevents -> is_Some (w_mem w !! i)) ->
  0 <= nevents < Z.of_nat (length (sfs_pending y)) ->
  (forall p, p ∈ sfs_pending y -> plain w p) ->
  wp (evfilt_signal_copyout dst nevents f src ev) (fun rv w' => rv = nevents /\
    level (w_os w') (ef_id x) = false /\
    (exists p y', w_sfss w' !! s = Some y' /\ p ∈ sfs_pending y') /\
    forall sig, (forall q r, A !! q = Some r -> Z.of_nat (sr_sig r) = sig -> sr_on r = true ->
                   q ∈ drop (Z.to_nat nevents) (sfs_pending y)) ->
      wp (sig_dispatch_handle sig) (fun _ w2 => w_os w2 = w_os w') w') w.
Proof.
  intros Hlow St Hx Hs Hy Hm Hn Hpl. pose proof (st_rep _ _ St) as R. pose proof (re_sfs _ _ R _ _ Hy) as Hok.
  assert (Hf : sig_slot w f = Some s) by (unfold sig_slot; rewrite Hx; done).
  unfold evfilt_signal_copyout. wp_simpl. eapply wp_mono; [|by eapply copyout_emit_ok].
  intros em w1 (-> & St1 & _ & (y1 & Hy1 & Hp1) & Ek & En). wp_simpl.
  eapply wp_mono; [|apply flag_actions_plain].
  2: { intros p (i & Hi & _)%elem_of_take. apply list_elem_of_lookup_2 in Hi.
       destruct (so_pending _ _ _ _ Hok _ Hi) as (sig & c & Hr).
       destruct (re_live _ _ R _ _ Hr) as (kn & Ekn & _).
       pose proof (f_equal (lookup p) En) as Ep. rewrite !lookup_fmap, Ekn in Ep.
       destruct (w_knotes w1 !! p) as [kn1|] eqn:Ek1; [|done]. split; [|done].
       intros k Ek2. rewrite Ek1 in Ek2. injection Ek2 as <-. injection Ep as Ep.
       destruct (Hpl p Hi kn Ekn). by rewrite Ep. }
  intros r w2 [-> ->]. wp_simpl. unfold linux_eventfd_lower.
  destruct f as [q i]. unfold slot_of in Hx. cbn in Hx. destruct (w_kqs w !! q) as [kq|] eqn:Eq; [|done].
  wp_simpl. eapply wp_get_filt; [by rewrite Ek|exact Hx|]. wp_simpl.
  pose proof (stranded_after w1 A s y y1 nevents St1 Hy1 Hp1 Hn) as Hend.
  assert (Hlen : Z.of_nat (length (take (Z.to_nat nevents) (sfs_pending y))) = nevents) by (rewrite length_take; lia).
  apply wp_sys; [intros [n v] k Hc|intros e k Hc]; unfold errno; wp_simpl.
  - destruct (Hend k (w_errno w1)). split_and!; [done|by eapply Hlow|done..].
  - destruct (Hend k e). split_and!; [done|by eapply Hlow|done..].
Qed.
End Claims.
