(* ===== verification/SignalLifecycle.v ===== *)
(** * Starting and stopping the signal filter; fork

    [evfilt_signal_init] and [evfilt_signal_destroy] keep the representation and
    the number of filters; the first filter starts the dispatch thread and the last one
    stops it.  After a fork the child's table still lists the parent's links. *)

From Stdlib Require Import ZArith Lia Bool.
From stdpp Require Import base list gmap.
From S2P Require Import Prelude RBTree Event Map State Ops Knote LinuxUdata LinuxEpoll LinuxTimer LinuxUser LinuxKevent Signal SignalSpec SignalOps SignalRuns.

(** ** The eventfd operations leave the signal state alone *)

Record efd_rel {K : Type} (w w' : world K) : Prop :=
  { er_sfss : w_sfss w' = w_sfss w;
    er_sig : w_sig w' = w_sig w;
    er_kn : w_knotes w' = w_knotes w;
    er_slot : forall f, sig_slot w' f = sig_slot w f;
    er_next : (w_next w <= w_next w')%positive }.
#[export] Instance efd_rel_preorder {K : Type} : PreOrder (efd_rel (K := K)).
Proof.
  split; [by intros w; split|]. intros w1 w2 w3 [A1 A2 A3 A4 A5] [B1 B2 B3 B4 B5].
  split; [congruence..|intros f; by rewrite B4|lia].
Qed.

Section Efd.
Context {K : Type} `{OS K}.
Implicit Types (w : world K) (p q s : ptr) (f : filt_ref).

Lemma efd_sys {A : Type} (c : syscall A) : keeps efd_rel (sys (K := K) c).
Proof.
  intros w a w'. unfold sys. destruct (os_call c (w_os w)) as [[x|e] k]; intros [= _ <-]; by split.
Qed.

Lemma efd_put_kq q g : (forall kq i, kf_sig <$> kq_filt (g kq) !! i = kf_sig <$> kq_filt kq !! i) ->
  keeps efd_rel (upd_kq (K := K) q g).
Proof.
  intros Hg w [] w'. unfold upd_kq, get_kq, put_kq, bind, gets, deref, modify.
  destruct (w_kqs w !! q) as [kq|] eqn:E; [|done]. intros [= <-]. split; try done.
  intros [r i]. unfold sig_slot, slot_of. cbn. destruct (decide (r = q)) as [->|Hr].
  - rewrite lookup_insert_eq, E. cbn. specialize (Hg kq i).
    destruct (kq_filt (g kq) !! i), (kq_filt kq !! i); simpl in *; congruence.
  - by rewrite lookup_insert_ne.
Qed.

Lemma efd_upd_filt f g : (forall x, kf_sig (g x) = kf_sig x) -> keeps efd_rel (upd_filt (K := K) f g).
Proof.
  intros Hg w [] w'. unfold upd_filt, get_filt, put_filt. destruct f as [q i].
  intros (x & w1 & Hx & Hp)%bind_Ret. apply bind_Ret in Hx as (kq & w2 & Hq & Hx).
  unfold get_kq, bind, gets, deref in Hq. cbn in Hq. destruct (w_kqs w !! q) as [kq0|] eqn:E; [|done].
  injection Hq as -> <-. unfold deref in Hx. cbn in Hx. destruct (kq_filt kq !! i) as [x0|] eqn:Ei; [|done].
  injection Hx as -> <-. unfold upd_kq, get_kq, put_kq, bind, gets, deref, modify in Hp. cbn in Hp. rewrite E in Hp.
  injection Hp as <-. split; try done. intros [r j]. unfold sig_slot, slot_of. cbn.
  destruct (decide (r = q)) as [->|Hr]; [|by rewrite lookup_insert_ne].
  rewrite lookup_insert_eq, E. cbn. destruct (decide (j = i)) as [->|Hj]; [|by rewrite list_lookup_insert_ne].
  rewrite list_lookup_insert_eq by (by eapply lookup_lt_Some). rewrite Ei. cbn. by rewrite Hg.
Qed.

Lemma efd_get_filt f : keeps efd_rel (get_filt (K := K) f).
Proof. unfold get_filt, get_kq. keeps_go. Qed.
Lemma efd_get_kq q : keeps efd_rel (get_kq (K := K) q).
Proof. unfold get_kq. keeps_go. Qed.
Lemma efd_put_ud u d : keeps efd_rel (put_ud (K := K) u d).
Proof. apply keeps_modify. intros w. by split. Qed.
Lemma efd_free_ud u : keeps efd_rel (free_ud (K := K) u).
Proof. unfold free_ud, get_ud. keeps_go. apply keeps_modify. intros w. by split. Qed.
Lemma efd_alloc : keeps efd_rel (alloc (K := K)).
Proof.
  intros w o w'. unfold alloc, sys, bind. destruct (os_call SysAlloc (w_os w)) as [[x|e] k]; intros [= _ <-].
  - split; try done. cbn. lia.
  - by split.
Qed.
Hint Resolve efd_sys efd_get_filt efd_get_kq efd_put_ud efd_free_ud efd_alloc : keeps.

Lemma efd_eventfd_init f : keeps efd_rel (linux_eventfd_init (K := K) f).
Proof. unfold linux_eventfd_init. keeps_go. by apply efd_upd_filt. Qed.
Lemma efd_eventfd_close f : keeps efd_rel (linux_eventfd_close (K := K) f).
Proof. unfold linux_eventfd_close. keeps_go. by apply efd_upd_filt. Qed.

Lemma efd_eventfd_register q f : keeps efd_rel (linux_eventfd_register (K := K) q f).
Proof.
  unfold linux_eventfd_register, EVENTFD_UDATA_ALLOC, EVENTFD_UDATA_FREE, free_udata,
    linux_eventfd_descriptor, epoll_udata_alloc, epoll_ctl.
  keeps_go; by apply efd_upd_filt.
Qed.

Lemma efd_eventfd_unregister q f : keeps efd_rel (linux_eventfd_unregister (K := K) q f).
Proof.
  unfold linux_eventfd_unregister, EVENTFD_UDATA_DEFER_FREE, linux_eventfd_descriptor, epoll_ctl,
    epoll_udata_defer_free, kqueue_mutex_assert, get_ud.
  keeps_go; [by apply efd_put_kq|by apply efd_upd_filt..].
Qed.
End Efd.
#[export] Hint Resolve efd_sys efd_get_filt efd_get_kq efd_put_ud efd_free_ud efd_alloc
  efd_eventfd_init efd_eventfd_close efd_eventfd_register efd_eventfd_unregister : keeps.

(** ** The dispatch thread *)

(** The static variables start and stop leave alone. *)
Definition sig_core (g : sig_globals) : list (list ptr) * bool * bool * Z :=
  (sigtbl g, sigtbl_mtx g, sig_init_mtx g, sig_filter_count g).

Definition os_sig {K : Type} (w w' : world K) (g : sig_globals) : Prop :=
  exists k e, w' = set_w_os k (set_w_errno e (set_w_sig g w)).

Section Thread.
Context {K : Type} `{OS K}.
Implicit Types (w : world K).

Lemma wp_sys_os {A : Type} (c : syscall A) (Q : option A -> world K -> Prop) w :
  (forall o k e, Q o (set_w_os k (set_w_errno e w))) -> wp (sys c) Q w.
Proof.
  intros HQ. apply wp_sys; intros x k _; [|apply HQ].
  replace (set_w_os k w) with (set_w_os k (set_w_errno (w_errno w) w)) by done. apply HQ.
Qed.

Lemma os_sig_same w k e : os_sig w (set_w_os k (set_w_errno e w)) (w_sig w).
Proof. exists k, e. by destruct w. Qed.

Lemma os_sig_refl w : os_sig w w (w_sig w).
Proof. exists (w_os w), (w_errno w). by destruct w. Qed.
Lemma os_sig_os w w1 g k e : os_sig w w1 g -> os_sig w (set_w_os k (set_w_errno e w1)) g.
Proof. intros (? & ? & ->). by exists k, e. Qed.
Lemma os_sig_sig w w1 g g' : os_sig w w1 g -> os_sig w (set_w_sig g' w1) g'.
Proof. intros (k & e & ->). by exists k, e. Qed.

(** Either the thread runs with an empty mask, or everything is as before but for
    the mask. *)
Lemma sig_dispatch_start_ok w :
  wp sig_dispatch_start (fun rv w' => exists g, os_sig w w' g /\ sig_core g = sig_core (w_sig w) /\
    ((rv = 0 /\ sig_dispatch_thread_created g = true /\ sig_active_set g = ∅) \/
     (rv = -1 /\ sig_dispatch_thread_created g = sig_dispatch_thread_created (w_sig w) /\
      (sig_active_set g = sig_active_set (w_sig w) \/ sig_active_set g = ∅)))) w.
Proof.
  unfold sig_dispatch_start, sig_platform_init, sig_platform_destroy, close_sig_pipe, sig_dispatch_loop_start.
  wp_simpl. apply wp_sys_os. intros [[p0 p1]|] k e; wp_simpl; [|eexists; split; [apply os_sig_same|]; eauto 10].
  do 4 (apply wp_sys_os; intros; wp_simpl). apply wp_sys_os. intros [fd|] ka ea; wp_simpl.
  - destruct (fd <? 0) eqn:Hfd; simpl; wp_simpl.
    { do 2 (apply wp_sys_os; intros; wp_simpl). eexists. split; [by eexists _, _|]. split; [done|]. right. eauto. }
    apply wp_sys_os. intros [tid|] kb eb; wp_simpl; simpl.
    + destruct (sig_dispatch_started (w_sig w)); wp_simpl.
      * eexists. split; [by eexists _, _|]. split; [done|]. by left.
      * apply wp_sys_os. intros oc kc ec. wp_simpl. eexists. split; [by eexists _, _|]. split; [done|]. by left.
    + destruct (0 <=? fd); wp_simpl; repeat (apply wp_sys_os; intros; wp_simpl);
        (eexists; split; [by eexists _, _|]; split; [done|]; right; eauto).
  - simpl. wp_simpl. do 2 (apply wp_sys_os; intros; wp_simpl). eexists. split; [by eexists _, _|]. split; [done|]. right. eauto.
Qed.

Lemma sig_dispatch_stop_ok w :
  wp sig_dispatch_stop (fun _ w' => exists g, os_sig w w' g /\ sig_core g = sig_core (w_sig w) /\
    sig_dispatch_thread_created g = false /\ sig_active_set g = sig_active_set (w_sig w)) w.
Proof.
  unfold sig_dispatch_stop, sig_platform_destroy. wp_simpl.
  destruct (0 <=? sig_pipe1 (w_sig w)); wp_simpl; repeat (apply wp_sys_os; intros; wp_simpl);
  (destruct (sig_dispatch_thread_created (w_sig w)) eqn:Hc; wp_simpl; repeat (apply wp_sys_os; intros; wp_simpl));
  (destruct (0 <=? sig_pipe0 (w_sig w)); wp_simpl; repeat (apply wp_sys_os; intros; wp_simpl));
  simpl; (destruct (0 <=? sig_signalfd (w_sig w)); wp_simpl; repeat (apply wp_sys_os; intros; wp_simpl));
  (eexists; split; [eexists (w_os _), (w_errno _); reflexivity|]; by rewrite ?Hc).
Qed.
End Thread.

Ltac os_sig_go := repeat first [eapply os_sig_sig|eapply os_sig_os|apply os_sig_refl].

(** ** Filters come and go *)

(** The invariant of the whole component: the filters are counted, their
    addresses were allocated, and the thread exists while there are filters. *)
Record sig_sys {K : Type} (w : world K) (A : gmap ptr sreg) : Prop :=
  { sy_st : sig_st w A;
    sy_fresh : forall p, (w_next w <= p)%positive -> w_sfss w !! p = None;
    sy_count : sig_filter_count (w_sig w) = Z.of_nat (size (w_sfss w));
    sy_init : sig_init_mtx (w_sig w) = false;
    sy_thread : sig_dispatch_thread_created (w_sig w) = negb (sig_filter_count (w_sig w) =? 0) }.

Section Filters.
Context {K : Type} `{OS K} `{FilterList K}.
Implicit Types (w : world K) (p q s : ptr) (f : filt_ref) (A : gmap ptr sreg).

Lemma rel_env w w' : efd_rel w w' -> sig_env w w'.
Proof. intros [E1 E2 E3 E4 E5]. split; rewrite ?E1, ?E2, ?E3; eauto. Qed.

Lemma rel_sys w w' A : efd_rel w w' -> sig_sys w A -> sig_sys w' A.
Proof.
  intros Hr [H1 H2 H3 H4 H5]. pose proof (rel_env _ _ Hr) as He. destruct Hr as [E1 E2 E3 E4 E5].
  split; rewrite ?E1, ?E2; try done; [by eapply env_same|]. intros p Hp. apply H2. lia.
Qed.

Lemma upd_filt_Ret f g w w' :
  upd_filt f g w = Ret tt w' -> exists kq x, w_kqs w !! f.1 = Some kq /\ kq_filt kq !! f.2 = Some x /\
    w' = set_w_kqs (<[f.1 := set_kq_filt (<[f.2 := g x]> (kq_filt kq)) kq]> (w_kqs w)) w.
Proof.
  unfold upd_filt, get_filt, put_filt. destruct f as [q i].
  intros (x & w1 & Hx & Hp)%bind_Ret. apply bind_Ret in Hx as (kq & w2 & Hq & Hx).
  unfold get_kq, bind, gets, deref in Hq. cbn in Hq. destruct (w_kqs w !! q) as [kq0|] eqn:E; [|done].
  injection Hq as -> <-. unfold deref in Hx. cbn in Hx. destruct (kq_filt kq !! i) as [x0|] eqn:Ei; [|done].
  injection Hx as -> <-. unfold upd_kq, get_kq, put_kq, bind, gets, deref, modify in Hp. cbn in Hp. rewrite E in Hp.
  injection Hp as <-. by exists kq, x.
Qed.

Lemma set_kf_sig_Ret f o w w' :
  upd_filt f (set_kf_sig o) w = Ret tt w' ->
  (exists m, w' = set_w_kqs m w) /\ forall g, sig_slot w' g = if decide (g = f) then o else sig_slot w g.
Proof.
  intros (kq & x & Eq & Ex & ->)%upd_filt_Ret. split; [by eexists|]. intros [r j]. destruct f as [q i].
  unfold sig_slot, slot_of. cbn in *. destruct (decide (r = q)) as [->|Hr].
  - rewrite lookup_insert_eq, Eq. cbn. destruct (decide (j = i)) as [->|Hj].
    + rewrite decide_True, list_lookup_insert_eq by (done || by eapply lookup_lt_Some). done.
    + rewrite decide_False, list_lookup_insert_ne by congruence. done.
  - rewrite decide_False, lookup_insert_ne by congruence. done.
Qed.

(** A filter without knotes joins the representation. *)
Lemma new_filter_rep w w' A f s :
  sig_rep w A -> w_sfss w !! s = None -> sig_slot w f = None ->
  (forall g, sig_slot w' g = if decide (g = f) then Some s else sig_slot w g) ->
  w_sfss w' = <[s := new_sfs f]> (w_sfss w) -> w_knotes w' = w_knotes w ->
  sigtbl (w_sig w') = sigtbl (w_sig w) -> sig_rep w' A.
Proof.
  intros [R1 R2 Ri R3 R4 R5] Hs Hf Hsl E1 E2 E3.
  assert (Hns : forall g, sig_slot w g <> Some s) by (intros g [y Hy]%R2; congruence).
  split; rewrite ?E1, ?E2, ?E3; try done.
  - intros g t. rewrite Hsl. case_decide as Hg; [intros [= <-]; by rewrite lookup_insert_eq|].
    intros Ht. destruct (R2 _ _ Ht) as [y Hy]. rewrite lookup_insert_ne by congruence. by eexists.
  - intros g h t. rewrite !Hsl. do 2 case_decide; try congruence; try apply Ri; intros; exfalso; naive_solver.
  - intros t y. destruct (decide (t = s)) as [->|Hne].
    + rewrite lookup_insert_eq. intros [= <-].
      assert (Hno : forall p sig b, ~ regd A p s sig b).
      { intros p sig b [c Hr]. destruct (R4 _ _ Hr) as (_ & _ & _ & _ & _ & [z Hz]). cbn in Hz. congruence. }
      split; cbn; try done.
      * exists f. rewrite Hsl, decide_True by done. split; [done|]. intros sig l [-> _]%lookup_replicate. done.
      * intros sig l [-> _]%lookup_replicate. cbn. split_and!; [constructor..|]. intros p.
        rewrite !elem_of_nil. split; split; try done; apply Hno.
      * constructor.
      * by intros p ?%elem_of_nil.
      * intros p r Hr Hrd. destruct (R4 _ _ Hr) as (_ & _ & _ & _ & _ & [z Hz]). unfold sr_ready in Hrd.
        destruct (bool_decide_reflect (sr_sfs r = s)); [congruence|done].
    + rewrite lookup_insert_ne by done. intros Hy. destruct (R3 _ _ Hy) as [A1 (g & Hg & Hl) A3 A4 A5 A6].
      split; try done. exists g. rewrite Hsl, decide_False by congruence. done.
  - intros p r Hr. destruct (R4 _ _ Hr) as (kn & ? & ? & ? & ? & [z Hz]). exists kn. split_and!; try done.
    destruct (decide (sr_sfs r = s)) as [->|Hne]; [by rewrite lookup_insert_eq|].
    rewrite lookup_insert_ne by done. by eexists.
Qed.

(** One without registrations leaves it. *)
Lemma old_filter_rep w w' A f s :
  sig_rep w A -> sig_slot w f = Some s -> (forall p r, A !! p = Some r -> sr_sfs r <> s) ->
  (forall g, sig_slot w' g = if decide (g = f) then None else sig_slot w g) ->
  w_sfss w' = delete s (w_sfss w) -> w_knotes w' = w_knotes w ->
  sigtbl (w_sig w') = sigtbl (w_sig w) -> sig_rep w' A.
Proof.
  intros [R1 R2 Ri R3 R4 R5] Hf Hno Hsl E1 E2 E3.
  assert (Hfs : forall g t, sig_slot w g = Some t -> g <> f -> t <> s) by (intros g t Hg Hne ->; eauto).
  split; rewrite ?E1, ?E2, ?E3; try done.
  - intros g t. rewrite Hsl. case_decide as Hg; [done|]. intros Ht.
    destruct (R2 _ _ Ht) as [y Hy]. rewrite lookup_delete_ne by (symmetry; by eapply Hfs). by eexists.
  - intros g h t. rewrite !Hsl. do 2 case_decide; try done. apply Ri.
  - intros t y. intros [Hne Hy]%lookup_delete_Some. destruct (R3 _ _ Hy) as [A1 (g & Hg & Hl) A3 A4 A5 A6].
    split; try done. exists g. rewrite Hsl, decide_False by congruence. done.
  - intros p r Hr. destruct (R4 _ _ Hr) as (kn & ? & ? & ? & ? & [z Hz]). exists kn. split_and!; try done.
    rewrite lookup_delete_ne by (symmetry; by eapply Hno). by eexists.
Qed.

Lemma alloc_Ret w w' s : alloc w = Ret (Some s) w' ->
  exists k, s = w_next w /\ w' = set_w_next (Pos.succ s) (set_w_os k w).
Proof.
  unfold alloc, sys, bind. destruct (os_call SysAlloc (w_os w)) as [[x|e] k]; [|done].
  intros [= <- <-]. by exists k.
Qed.

(** The state of a filter that has just been given its [sig_filter_state]. *)
Definition filter_added w w' f s : Prop :=
  w_sfss w' = <[s := new_sfs f]> (w_sfss w) /\ w_knotes w' = w_knotes w /\ w_sig w' = w_sig w /\
  (forall g, sig_slot w' g = if decide (g = f) then Some s else sig_slot w g) /\
  (w_next w <= s < w_next w')%positive.

Lemma filter_add_Ret w s f w1 w2 w3 :
  alloc w = Ret (Some s) w1 -> put_sfs s (new_sfs f) w1 = Ret tt w2 ->
  upd_filt f (set_kf_sig (Some s)) w2 = Ret tt w3 -> filter_added w w3 f s.
Proof.
  intros (k & -> & ->)%alloc_Ret [= <-] ([m ->] & Hsl)%set_kf_sig_Ret.
  split_and!; try done; cbn; lia.
Qed.

(** The thread is started for the first filter: the table is empty then. *)
Lemma no_filters w A : sig_rep w A -> w_sfss w = ∅ -> A = ∅.
Proof.
  intros R E. apply map_empty. intros p. destruct (A !! p) as [r|] eqn:Hr; [|done].
  destruct (re_live _ _ R _ _ Hr) as (_ & _ & _ & _ & _ & [y Hy]). by rewrite E, lookup_empty in Hy.
Qed.

Lemma watch_empty w g : sig_rep w (∅ : gmap ptr sreg) -> sigtbl g = sigtbl (w_sig w) ->
  sig_active_set g = ∅ -> watch_ok g.
Proof.
  intros R Et Ea sig l Hl. rewrite Et in Hl. destruct (re_table _ _ R _ _ Hl) as [_ Hin].
  rewrite Ea, elem_of_empty. split; [done|]. intros Hne. destruct l as [|s l]; [done|].
  destruct (proj1 (Hin s)) as (p & b & c & Hr); [by left|]. by rewrite lookup_empty in Hr.
Qed.

(** [sig_sys] for a state with another [sig_filter_state] and static variables [g]. *)
Lemma added_sys w w3 w' A f s g :
  sig_sys w A -> sig_slot w f = None -> filter_added w w3 f s ->
  w_sfss w' = w_sfss w3 -> w_knotes w' = w_knotes w3 -> w_kqs w' = w_kqs w3 -> w_next w' = w_next w3 ->
  w_sig w' = g -> sig_core g = (sigtbl (w_sig w), false, false, sig_filter_count (w_sig w) + 1) ->
  sig_dispatch_thread_created g = true -> watch_ok g -> sig_sys w' A.
Proof.
  intros [[R Hw Hm] Hfr Hc Hi Ht] Hf (A1 & A2 & A3 & A4 & A5) E1 E2 E3 E4 E5 Hg Hcr Hwo.
  unfold sig_core in Hg. injection Hg as G1 G2 G3 G4.
  assert (Hs : w_sfss w !! s = None) by (apply Hfr; lia).
  assert (Hsl : forall g, sig_slot w' g = sig_slot w3 g) by (intros ?; unfold sig_slot, slot_of; by rewrite E3).
  split; rewrite ?E5; try done.
  - split; rewrite ?E5; try done. eapply (new_filter_rep w _ A f s); try done.
    + intros h. by rewrite Hsl.
    + by rewrite E1.
    + by rewrite E2.
    + by rewrite E5.
  - intros p Hp. rewrite E1, A1. rewrite E4 in Hp. rewrite lookup_insert_ne by lia. apply Hfr. lia.
  - rewrite G4, Hc, E1, A1, map_size_insert_None by done. lia.
  - rewrite Hcr, G4. pose proof (Hc). destruct (Z.eqb_spec (sig_filter_count (w_sig w) + 1) 0); [lia|done].
Qed.

(** A failed start takes the new filter out again. *)
Lemma removed_sys w w3 w' A f s g :
  sig_sys w A -> sig_slot w f = None -> filter_added w w3 f s ->
  w_sfss w' = delete s (w_sfss w3) -> w_knotes w' = w_knotes w3 -> w_next w' = w_next w3 ->
  (forall h, sig_slot w' h = if decide (h = f) then None else sig_slot w3 h) ->
  w_sig w' = g -> sig_core g = sig_core (w_sig w) ->
  sig_dispatch_thread_created g = sig_dispatch_thread_created (w_sig w) -> watch_ok g -> sig_sys w' A.
Proof.
  intros [[R Hw Hm] Hfr Hc Hi Ht] Hf (A1 & A2 & A3 & A4 & A5) E1 E2 E4 E3 E5 Hg Hcr Hwo.
  unfold sig_core in Hg. injection Hg as G1 G2 G3 G4.
  assert (Hs : w_sfss w !! s = None) by (apply Hfr; lia).
  assert (E : w_sfss w' = w_sfss w) by (by rewrite E1, A1, delete_insert_id).
  split; rewrite ?E5, ?E; try done; try congruence.
  - split; rewrite ?E5; try done; try congruence. eapply sig_rep_same, R. split.
    + intros h. rewrite E3, A4. case_decide as Hh; [by subst|done].
    + done.
    + by rewrite E5.
    + rewrite E2, A2. eauto.
  - intros p Hp. apply Hfr. lia.
Qed.

(** The second half of the initialisation. *)
Lemma init_tail_ok w w3 A f s rv w' :
  sig_sys w A -> sig_slot w f = None -> filter_added w w3 f s ->
  (sig_init_lock ;;;
   let! g := gets w_sig in
   let! rv := (if sig_filter_count g =? 0 then sig_dispatch_start else ret 0) in
   if rv <? 0 then
     sig_init_unlock ;;; free_sfs s ;;; upd_filt f (set_kf_sig None) ;;;
     linux_eventfd_unregister f.1 f ;;; linux_eventfd_close f ;;; ret (-1)
   else
     upd_sig (fun g => set_sig_filter_count (sig_filter_count g + 1) g) ;;;
     sig_init_unlock ;;; ret 0) w3 = Ret rv w' ->
  sig_sys w' A /\ ((rv = 0 /\ is_Some (sig_slot w' f)) \/ (rv = -1 /\ sig_slot w' f = None)).
Proof.
  intros Sy Hf Hadd Hrun. pose proof Sy as [[R Hw Hm] Hfr Hc Hi Ht]. pose proof Hadd as (A1 & A2 & A3 & A4 & A5).
  apply bind_Ret in Hrun as ([] & w4 & E4 & Hrun). unfold sig_init_lock, bind, gets in E4. rewrite A3, Hi in E4.
  injection E4 as <-. apply bind_Ret in Hrun as (g & w4 & E4 & Hrun). injection E4 as <- <-.
  cbn [w_sig set_w_sig sig_filter_count set_sig_init_mtx] in Hrun. rewrite A3 in Hrun.
  apply bind_Ret in Hrun as (r & w5 & E5 & Hrun).
  assert (Hst : exists g, os_sig w3 w5 (set_sig_init_mtx true g) /\ sig_core g = sig_core (w_sig w) /\
    ((r = 0 /\ sig_dispatch_thread_created g = true /\ watch_ok g) \/
     (r = -1 /\ sig_dispatch_thread_created g = sig_dispatch_thread_created (w_sig w) /\ watch_ok g))).
  { destruct (Z.eqb_spec (sig_filter_count (w_sig w)) 0) as [H0c|H0c].
    - destruct (wp_Ret _ _ _ _ _ (sig_dispatch_start_ok _) E5) as (g & (k & e & ->) & Hg & Hr).
      unfold sig_core in Hg. cbn in Hg. rewrite ?A3 in Hg. injection Hg as G1 G2 G3 G4.
      assert (HA : w_sfss w = ∅) by (apply map_size_empty_inv; lia).
      pose proof (no_filters _ _ R HA) as ->.
      exists (set_sig_init_mtx false g). split; [exists k, e; unfold set_w_sig; cbn; f_equal; by destruct g; cbn in *; subst|].
      split; [unfold sig_core; cbn; congruence|].
      destruct Hr as [(-> & Hcr & Ha)|(-> & Hcr & Ha)]; [left|right]; split_and!; try done.
      + by eapply (watch_empty w).
      + destruct Ha as [Ha|Ha]; [|by eapply (watch_empty w)]. cbn in Ha. rewrite ?A3 in Ha. intros sig l.
        cbn. rewrite G1, Ha. apply Hw.
    - injection E5 as <- <-. exists (w_sig w). split; [eexists _, _; cbn; by rewrite ?A3|]. split; [done|]. left.
      split; [done|]. split; [|done]. rewrite Ht. by destruct (Z.eqb_spec (sig_filter_count (w_sig w)) 0). }
  destruct Hst as (g & (k & e & ->) & Hg & Hr). unfold sig_core in Hg. injection Hg as G1 G2 G3 G4.
  destruct Hr as [(-> & Hcr & Hwo)|(-> & Hcr & Hwo)]; cbn [Z.ltb Z.compare] in Hrun.
  - unfold sig_init_unlock, upd_sig, bind, gets, modify in Hrun. cbn in Hrun. injection Hrun as <- <-.
    split; [|left; split; [done|]].
    + eapply (added_sys w w3 _ A f s); try done. unfold sig_core. cbn. by rewrite G1, G2, G4, Hm.
    + unfold sig_slot, slot_of in A4 |- *. cbn. rewrite A4, decide_True by done. by eexists.
  - apply bind_Ret in Hrun as ([] & w6 & E6 & Hrun). unfold sig_init_unlock, upd_sig, bind, gets, modify in E6.
    cbn in E6. injection E6 as <-. apply bind_Ret in Hrun as ([] & w7 & E7 & Hrun).
    unfold free_sfs, get_sfs, bind, gets, deref, modify in E7. cbn in E7. rewrite A1, lookup_insert_eq in E7. cbn in E7.
    injection E7 as <-. apply bind_Ret in Hrun as ([] & w8 & E8 & Hrun). apply set_kf_sig_Ret in E8 as ([m ->] & Hsl).
    apply bind_Ret in Hrun as ([] & w9 & E9 & Hrun). apply bind_Ret in Hrun as ([] & w10 & E10 & Hrun).
    injection Hrun as <- <-. apply (efd_eventfd_unregister f.1 f) in E9. apply (efd_eventfd_close f) in E10.
    assert (Er : efd_rel _ w10) by (by transitivity w9). split.
    + eapply rel_sys; [exact Er|]. eapply (removed_sys w w3 _ A f s); try done.
      unfold sig_core. cbn. by rewrite G1, G2, G4, Hi.
    + right. split; [done|]. rewrite (er_slot _ _ Er), Hsl, decide_True by done. done.
Qed.

(** A filter starts: either it has joined, and the thread runs, or nothing has
    changed. *)
Lemma evfilt_signal_init_ok w A f rv w' :
  sig_sys w A -> sig_slot w f = None -> evfilt_signal_init f w = Ret rv w' ->
  sig_sys w' A /\ ((rv = 0 /\ is_Some (sig_slot w' f)) \/ (rv = -1 /\ sig_slot w' f = None)).
Proof.
  intros Sy Hf Hrun. unfold evfilt_signal_init in Hrun.
  assert (Hfail : forall w1, efd_rel w w1 -> sig_sys w1 A /\
    ((-1 = 0 /\ is_Some (sig_slot w1 f)) \/ (-1 = -1 /\ sig_slot w1 f = None))).
  { intros w1 Hr. split; [by eapply rel_sys|]. right. by rewrite (er_slot _ _ Hr). }
  apply bind_Ret in Hrun as (r1 & w1 & E1 & Hrun). apply (efd_eventfd_init f) in E1.
  destruct (r1 <? 0). { injection Hrun as <- <-. by apply Hfail. }
  apply bind_Ret in Hrun as (r2 & w2 & E2 & Hrun). apply (efd_eventfd_register f.1 f) in E2.
  assert (E12 : efd_rel w w2) by (by transitivity w1).
  destruct (r2 <? 0).
  { apply bind_Ret in Hrun as ([] & w3 & E3 & Hrun). injection Hrun as <- <-.
    apply Hfail. transitivity w2; [done|]. by eapply efd_eventfd_close. }
  apply bind_Ret in Hrun as (o & w3 & E3 & Hrun). destruct o as [s|].
  2: { apply bind_Ret in Hrun as ([] & w4 & E4 & Hrun). apply bind_Ret in Hrun as ([] & w5 & E5 & Hrun).
       injection Hrun as <- <-. apply Hfail. transitivity w2; [done|]. transitivity w3; [by eapply efd_alloc|].
       transitivity w4; [by eapply efd_eventfd_unregister|by eapply efd_eventfd_close]. }
  apply bind_Ret in Hrun as ([] & w4 & E4 & Hrun). apply bind_Ret in Hrun as ([] & w5 & E5 & Hrun).
  pose proof (filter_add_Ret _ _ _ _ _ _ E3 E4 E5) as Hadd.
  assert (Sy2 : sig_sys w2 A) by (by eapply rel_sys). assert (Hf2 : sig_slot w2 f = None) by (by rewrite (er_slot _ _ E12)).
  eapply (init_tail_ok w2 w5 A f s); eauto.
Qed.

Lemma unlink_links_ok w A s l :
  sig_rep w A -> (forall p r, A !! p = Some r -> sr_sfs r <> s) ->
  Forall (fun sig => (sig < Z.to_nat SIGNAL_MAX)%nat) l ->
  forall w1, sigtbl (w_sig w1) = sigtbl (w_sig w) ->
  wp (iter (fun sig => let! ins := sl_inserted s sig in if ins then sl_remove s sig else ret tt) l)
    (fun _ w' => w' = w1) w1.
Proof.
  intros R Hno Hl w1 E. induction Hl as [|sig l Hs Hl IH]; simpl; wp_simpl; [done|].
  destruct (lookup_lt_is_Some_2 (sigtbl (w_sig w)) sig) as [t Ht]; [by rewrite (re_len _ _ R)|].
  eapply wp_sl_inserted; [by rewrite E|]. rewrite bool_decide_eq_false_2; [wp_simpl; exact IH|].
  intros Hin. destruct (re_table _ _ R _ _ Ht) as [_ Hiff]. apply Hiff in Hin as (p & b & c & Hr).
  by eapply Hno.
Qed.

(** [sig_sys] for a state without the filter's [sig_filter_state]. *)
Lemma dropped_sys w w' A f s g :
  sig_sys w A -> sig_slot w f = Some s -> (forall p r, A !! p = Some r -> sr_sfs r <> s) ->
  w_sfss w' = delete s (w_sfss w) -> w_knotes w' = w_knotes w -> (w_next w <= w_next w')%positive ->
  (forall h, sig_slot w' h = if decide (h = f) then None else sig_slot w h) ->
  w_sig w' = g -> sig_core g = (sigtbl (w_sig w), false, false, sig_filter_count (w_sig w) - 1) ->
  sig_active_set g = sig_active_set (w_sig w) ->
  sig_dispatch_thread_created g = negb (sig_filter_count (w_sig w) - 1 =? 0) -> sig_sys w' A.
Proof.
  intros [[R Hw Hm] Hfr Hc Hi Ht] Hf Hno E1 E2 E4 E3 E5 Hg Ha Hcr.
  unfold sig_core in Hg. injection Hg as G1 G2 G3 G4. destruct (re_slot _ _ R _ _ Hf) as [y Hy].
  assert (Hsz : size (delete s (w_sfss w)) = pred (size (w_sfss w))) by (apply map_size_delete_Some; by eexists).
  assert (Hpos : size (w_sfss w) <> 0%nat) by (intros Hz; apply map_size_empty_inv in Hz; by rewrite Hz, lookup_empty in Hy).
  split; rewrite ?E5; try done.
  - split; rewrite ?E5; try done; [|intros sig l; rewrite G1, Ha; apply Hw].
    eapply (old_filter_rep w _ A f s); try done. by rewrite E5.
  - intros p Hp. rewrite E1. apply lookup_delete_None. right. apply Hfr. lia.
  - rewrite G4, Hc, E1, Hsz. lia.
  - by rewrite Hcr, G4.
Qed.

(** The last half of the destruction: the filter is uncounted. *)
Lemma destroy_tail_ok w rv w' :
  sig_init_mtx (w_sig w) = false ->
  sig_dispatch_thread_created (w_sig w) = negb (sig_filter_count (w_sig w) =? 0) ->
  (sig_init_lock ;;;
   upd_sig (fun g => set_sig_filter_count (sig_filter_count g - 1) g) ;;;
   let! g := gets w_sig in
   (if sig_filter_count g =? 0 then sig_dispatch_stop else ret tt) ;;;
   sig_init_unlock) w = Ret rv w' ->
  0 < sig_filter_count (w_sig w) ->
  exists g, os_sig w w' g /\
    sig_core g = (sigtbl (w_sig w), sigtbl_mtx (w_sig w), false, sig_filter_count (w_sig w) - 1) /\
    sig_active_set g = sig_active_set (w_sig w) /\
    sig_dispatch_thread_created g = negb (sig_filter_count (w_sig w) - 1 =? 0).
Proof.
  intros Hi Ht Hrun Hpos. unfold sig_init_lock, upd_sig in Hrun. apply bind_Ret in Hrun as ([] & w1 & E1 & Hrun).
  unfold bind, gets, modify in E1. rewrite Hi in E1. injection E1 as <-.
  apply bind_Ret in Hrun as ([] & w2 & E2 & Hrun). injection E2 as <-.
  apply bind_Ret in Hrun as (g & w3 & E3 & Hrun). injection E3 as <- <-. cbn [w_sig set_w_sig sig_filter_count set_sig_filter_count set_sig_init_mtx] in Hrun.
  apply bind_Ret in Hrun as ([] & w4 & E4 & Hrun). unfold sig_init_unlock, bind, gets, upd_sig, modify in Hrun.
  destruct (Z.eqb_spec (sig_filter_count (w_sig w) - 1) 0) as [Hz|Hz].
  - destruct (wp_Ret _ _ _ _ _ (sig_dispatch_stop_ok _) E4) as (g & (k & e & ->) & Hg & Hcr & Ha).
    unfold sig_core in Hg. cbn in Hg. injection Hg as G1 G2 G3 G4. cbn in Hrun. rewrite G3 in Hrun.
    injection Hrun as _ <-. exists (set_sig_init_mtx false g). split; [by eexists _, _|].
    unfold sig_core. cbn. by rewrite G1, G2, G4.
  - injection E4 as <-. cbn in Hrun. injection Hrun as _ <-.
    eexists. split; [exists (w_os w), (w_errno w); unfold set_w_os, set_w_errno, set_w_sig; cbn; reflexivity|].
    unfold sig_core. cbn. split; [done|]. split; [done|]. rewrite Ht. destruct (Z.eqb_spec (sig_filter_count (w_sig w)) 0); [lia|done].
Qed.

Lemma evfilt_signal_destroy_ok w A f s rv w' :
  sig_sys w A -> sig_slot w f = Some s -> (forall p r, A !! p = Some r -> sr_sfs r <> s) ->
  evfilt_signal_destroy f w = Ret rv w' -> sig_sys w' A /\ sig_slot w' f = None.
Proof.
  intros Sy Hf Hno Hrun. pose proof Sy as [[R Hw Hm] Hfr Hc Hi Ht]. unfold evfilt_signal_destroy in Hrun.
  apply bind_Ret in Hrun as (x & w1 & E1 & Hrun).
  assert (Hx : kf_sig x = Some s /\ w1 = w).
  { unfold sig_slot, slot_of in Hf. unfold get_filt, get_kq, bind, gets, deref in E1. cbn in E1.
    destruct (w_kqs w !! f.1) as [kq|]; [|done]. cbn in E1, Hf. destruct (kq_filt kq !! f.2) as [x0|]; [|done].
    injection E1 as <- <-. done. }
  destruct Hx as [Hx ->]. rewrite Hx in Hrun. apply bind_Ret in Hrun as ([] & w2 & E2 & Hrun).
  apply bind_Ret in E2 as ([] & w3 & E3 & E2). unfold sigtbl_lock, upd_sig, bind, gets, modify in E3. rewrite Hm in E3.
  injection E3 as <-. apply bind_Ret in E2 as ([] & w4 & E4 & E2).
  assert (Hall : Forall (fun sig => (sig < Z.to_nat SIGNAL_MAX)%nat) (seq 0 (Z.to_nat SIGNAL_MAX))).
  { apply Forall_forall. intros sig Hs%elem_of_seq. cbn beta. lia. }
  pose proof (wp_Ret _ _ _ _ _ (unlink_links_ok w A s _ R Hno Hall
    (set_w_sig (set_sigtbl_mtx true (w_sig w)) w) eq_refl) E4) as ->.
  apply bind_Ret in E2 as ([] & w5 & E5 & E2). injection E5 as <-.
  apply bind_Ret in E2 as ([] & w6 & E6 & E2). destruct (re_slot _ _ R _ _ Hf) as [y Hy].
  unfold free_sfs, get_sfs, bind, gets, deref, modify in E6. cbn in E6. rewrite Hy in E6. cbn in E6. injection E6 as <-.
  apply set_kf_sig_Ret in E2 as ([m ->] & Hsl).
  apply bind_Ret in Hrun as ([] & w7 & E7 & Hrun). apply bind_Ret in Hrun as ([] & w8 & E8 & Hrun).
  apply (efd_eventfd_unregister f.1 f) in E7. apply (efd_eventfd_close f) in E8.
  assert (Er : efd_rel _ w8) by (by transitivity w7). destruct Er as [R1 R2 R3 R4 R5].
  assert (Hcnt : 0 < sig_filter_count (w_sig w)).
  { rewrite Hc. assert (size (w_sfss w) <> 0%nat); [|lia]. intros Hz. apply map_size_empty_inv in Hz. by rewrite Hz, lookup_empty in Hy. }
  destruct (destroy_tail_ok w8 rv w') as (g & (k & e & ->) & Hg & Ha & Hcr); rewrite ?R2; try done.
  rewrite R2 in Hg, Ha, Hcr. cbn in Hg, Ha, Hcr. split.
  - eapply (dropped_sys w _ A f s g); try done. intros h. transitivity (sig_slot w8 h); [done|]. by rewrite R4, Hsl.
  - transitivity (sig_slot w8 f); [done|]. by rewrite R4, Hsl, decide_True.
Qed.

(** Starting and stopping signal filters keeps the registrations of the others,
    counts the filters, and keeps the dispatch thread alive exactly while there is
    one; a start that fails at any point leaves the filter without a state. *)
Theorem signal_filters_counted w A f :
  sig_sys w A ->
  (forall rv w', sig_slot w f = None -> evfilt_signal_init f w = Ret rv w' ->
     sig_sys w' A /\ ((rv = 0 /\ is_Some (sig_slot w' f)) \/ (rv = -1 /\ sig_slot w' f = None))) /\
  (forall s rv w', sig_slot w f = Some s -> (forall p r, A !! p = Some r -> sr_sfs r <> s) ->
     evfilt_signal_destroy f w = Ret rv w' -> sig_sys w' A /\ sig_slot w' f = None).
Proof.
  intros Sy. split; intros; [by eapply evfilt_signal_init_ok|by eapply evfilt_signal_destroy_ok].
Qed.

(** ** After a fork *)

(** The reset leaves the table, its mutex, the lists and the knotes as they were. *)
Lemma reset_ok w :
  wp evfilt_signal_reset_after_fork (fun _ w' => exists g, os_sig w w' g /\
    sigtbl g = sigtbl (w_sig w) /\ sigtbl_mtx g = sigtbl_mtx (w_sig w) /\
    sig_init_mtx g = false /\ sig_filter_count g = 0) w.
Proof.
  unfold evfilt_signal_reset_after_fork, sig_platform_reset_after_fork. wp_simpl. simpl.
  destruct (0 <=? sig_signalfd (w_sig w)); wp_simpl; repeat (apply wp_sys_os; intros; wp_simpl); simpl;
  (destruct (0 <=? sig_pipe0 (w_sig w)); wp_simpl; repeat (apply wp_sys_os; intros; wp_simpl));
  (destruct (0 <=? sig_pipe1 (w_sig w)); wp_simpl; repeat (apply wp_sys_os; intros; wp_simpl));
  (eexists; split; [os_sig_go|done]).
Qed.

(** The first filter of a process starts the thread with an empty mask. *)
Lemma first_init_Ret w f w' :
  sig_filter_count (w_sig w) = 0 -> sig_init_mtx (w_sig w) = false -> evfilt_signal_init f w = Ret 0 w' ->
  exists s, (w_next w <= s)%positive /\ w_sfss w' = <[s := new_sfs f]> (w_sfss w) /\ w_knotes w' = w_knotes w /\
    (forall g, sig_slot w' g = if decide (g = f) then Some s else sig_slot w g) /\
    sigtbl (w_sig w') = sigtbl (w_sig w) /\ sigtbl_mtx (w_sig w') = sigtbl_mtx (w_sig w) /\
    sig_active_set (w_sig w') = ∅.
Proof.
  intros Hc Hi Hrun. unfold evfilt_signal_init in Hrun.
  apply bind_Ret in Hrun as (r1 & w1 & E1 & Hrun). apply (efd_eventfd_init f) in E1. destruct (r1 <? 0); [done|].
  apply bind_Ret in Hrun as (r2 & w2 & E2 & Hrun). apply (efd_eventfd_register f.1 f) in E2.
  assert (E12 : efd_rel w w2) by (by transitivity w1). clear E1 E2.
  destruct (r2 <? 0); [by apply bind_Ret in Hrun as ([] & w3 & E3 & Hrun)|].
  apply bind_Ret in Hrun as (o & w3 & E3 & Hrun). destruct o as [s|].
  2: { apply bind_Ret in Hrun as ([] & w4 & E4 & Hrun). by apply bind_Ret in Hrun as ([] & w5 & E5 & Hrun). }
  apply bind_Ret in Hrun as ([] & w4 & E4 & Hrun). apply bind_Ret in Hrun as ([] & w5 & E5 & Hrun).
  destruct (filter_add_Ret _ _ _ _ _ _ E3 E4 E5) as (A1 & A2 & A3 & A4 & A5). destruct E12 as [R1 R2 R3 R4 R5].
  exists s. rewrite R2 in A3. clear E3 E4 E5.
  apply bind_Ret in Hrun as ([] & w6 & E6 & Hrun). unfold sig_init_lock, bind, gets in E6. rewrite A3, Hi in E6.
  injection E6 as <-. apply bind_Ret in Hrun as (g & w6 & E6 & Hrun). injection E6 as <- <-.
  cbn [w_sig set_w_sig sig_filter_count set_sig_init_mtx] in Hrun. rewrite A3, Hc in Hrun. cbn [Z.eqb] in Hrun.
  apply bind_Ret in Hrun as (r & w7 & E7 & Hrun).
  destruct (wp_Ret _ _ _ _ _ (sig_dispatch_start_ok _) E7) as (g & (k & e & ->) & Hg & Hr).
  unfold sig_core in Hg. cbn in Hg. rewrite ?A3 in Hg. injection Hg as G1 G2 G3 G4.
  destruct Hr as [(-> & _ & Ha)|(-> & _ & _)].
  - cbn [Z.ltb Z.compare] in Hrun. unfold sig_init_unlock, upd_sig, bind, gets, modify in Hrun. cbn in Hrun. rewrite G3 in Hrun.
    injection Hrun as <-. cbn. split_and!; try congruence; [lia|].
    intros h. transitivity (sig_slot w5 h); [done|]. rewrite A4. case_decide; [done|]. apply R4.
  - repeat (apply bind_Ret in Hrun as ([] & ? & _ & Hrun)). done.
Qed.

(** A knote for a signal the table already lists does not change the mask. *)
Lemma create_not_first fuel w A f p kn s links :
  sig_rep w A -> sigtbl_mtx (w_sig w) = false -> w_knotes w !! p = Some kn -> sig_slot w f = Some s ->
  sig_valid (kn_sig kn) = true -> sigtbl (w_sig w) !! Z.to_nat (kn_sig kn) = Some links -> links <> [] ->
  wp (evfilt_signal_knote_create fuel f p) (fun rv w' => rv = 0 /\
    sig_active_set (w_sig w') = sig_active_set (w_sig w)) w.
Proof.
  intros R Hm Ek Hf Hv Hk Hne. destruct (re_slot _ _ R _ _ Hf) as [y Hy]. pose proof (re_sfs _ _ R _ _ Hy) as Hok.
  destruct (lookup_lt_is_Some_2 (sfs_links y) (Z.to_nat (kn_sig kn))) as [l Hl].
  { rewrite (so_len _ _ _ _ Hok). unfold sig_valid in Hv. lia. }
  unfold evfilt_signal_knote_create. wp_simpl. wp_prim. wp_simpl. rewrite Hv. simpl.
  wp_simpl. eapply wp_upd_kn; [exact Ek|]. wp_simpl. eapply wp_filter_sfs; [exact Hf|]. wp_simpl.
  apply wp_sigtbl_lock; [done|]. wp_simpl. eapply wp_get_s_links; [exact Hk|]. wp_simpl.
  eapply wp_sl_inserted; [exact Hk|]. wp_simpl. rewrite (bool_decide_eq_false_2 (links = [])) by done.
  unfold insert_enabled. case_bool_decide; wp_simpl;
    (eapply wp_upd_link; [exact Hy|exact Hl|]; wp_simpl; apply wp_sigtbl_unlock; [done|]; wp_simpl; done).
Qed.

(** Fork loses signals in the child.  The reset after a fork leaves the parent's
    links in the table; when the child sets up a signal filter of its own, the mask
    starts empty, and a knote for a signal the parent had a knote for is accepted
    although that signal is not in the mask. *)
Theorem signal_fork_forgets fuel w A p0 r0 w1 f w2 w2' p kn rv w3 :
  sig_st w A -> (forall s, (w_next w <= s)%positive -> w_sfss w !! s = None) -> A !! p0 = Some r0 ->
  evfilt_signal_reset_after_fork w = Ret tt w1 ->
  sig_slot w f = None -> evfilt_signal_init f w1 = Ret 0 w2 -> sig_env w2 w2' ->
  w_knotes w2' !! p = Some kn -> kn_sig kn = Z.of_nat (sr_sig r0) ->
  evfilt_signal_knote_create fuel f p w2' = Ret rv w3 ->
  rv = 0 /\ kn_sig kn ∉ sig_active_set (w_sig w3).
Proof.
  intros [R Hw Hm] Hfr H0r Hreset Hf Hinit Henv Ek Hs Hcreate.
  destruct (wp_Ret _ _ _ _ _ (reset_ok w) Hreset) as (g & (k & e & ->) & G1 & G2 & G3 & G4).
  destruct (first_init_Ret (set_w_os k (set_w_errno e (set_w_sig g w))) f w2 G4 G3 Hinit) as (s & Hs1 & E1 & E2 & E3 & E4 & E5 & E6). cbn in *.
  assert (R2 : sig_rep w2 A).
  { eapply (new_filter_rep w w2 A f s); try done; [by apply Hfr|congruence]. }
  pose proof (env_rep _ _ _ R2 Henv) as R2'. destruct Henv as [V1 V2 V3 V4 V5 _].
  destruct (table_some _ _ _ _ R2' H0r) as (links & Hk & Hin).
  destruct (re_live _ _ R _ _ H0r) as (_ & _ & _ & Hv & _).
  assert (Hc := create_not_first fuel w2' A f p kn s links R2' ltac:(congruence) Ek).
  destruct (wp_Ret _ _ _ _ _ (Hc ltac:(by rewrite V1, E3, decide_True) ltac:(by rewrite Hs)
    ltac:(by rewrite Hs, Nat2Z.id) ltac:(intros ->; by apply not_elem_of_nil in Hin)) Hcreate) as [-> Ha].
  split; [done|]. rewrite Ha, V4, E6. apply not_elem_of_empty.
Qed.
End Filters.
