(* ===== verification/PosixPlatform.v ===== *)
(** * The POSIX backend: members, wake-up pipe, eventfds

    src/posix/platform.c without its wait and copyout, and src/posix/eventfd.c.
    The members this backend adds to a structure are kept in [w_px] by the address
    of the structure and read through it, so that a use of a freed kqueue, knote or
    slot is a fault like any other.  An [fd_set] is a set of descriptors; adding,
    removing or testing one that is not below FD_SETSIZE is an access out of
    bounds.  Arithmetic on [long] that would overflow is a fault. *)

From Stdlib Require Import ZArith Lia Bool.
From stdpp Require Import base list gmap.
From S2P Require Import Prelude RBTree Event Map State Ops Knote Filter.

Section Members.
Context {K : Type} `{OS K}.
Implicit Types (w : world K) (p q t : ptr) (f : filt_ref).

Definition upd_px (g : posix -> posix) : M (world K) unit :=
  modify (fun w => set_w_px (g (w_px w)) w).

Definition pkq w q : posix_kq := default posix_kq_zero (px_kqs (w_px w) !! q).
Definition pkn w p : posix_knote := default posix_knote_zero (px_knotes (w_px w) !! p).
Definition pfilt w f : posix_filt := default posix_filt_zero (px_filts (w_px w) !! f).

Definition get_pkq q : M (world K) posix_kq := get_kq q ;;; gets (fun w => pkq w q).
Definition upd_pkq q (g : posix_kq -> posix_kq) : M (world K) unit :=
  let! k := get_pkq q in upd_px (fun x => set_px_kqs (<[q := g k]> (px_kqs x)) x).

Definition get_pkn p : M (world K) posix_knote := get_kn p ;;; gets (fun w => pkn w p).
Definition upd_pkn p (g : posix_knote -> posix_knote) : M (world K) unit :=
  let! k := get_pkn p in upd_px (fun x => set_px_knotes (<[p := g k]> (px_knotes x)) x).

Definition get_pf f : M (world K) posix_filt := get_filt f ;;; gets (fun w => pfilt w f).
Definition upd_pf f (g : posix_filt -> posix_filt) : M (world K) unit :=
  let! k := get_pf f in upd_px (fun x => set_px_filts (<[f := g k]> (px_filts x)) x).

Definition get_timer t : M (world K) posix_timer :=
  let! o := gets (fun w => px_timers (w_px w) !! t) in deref UseAfterFree o.
Definition put_timer t (r : posix_timer) : M (world K) unit :=
  upd_px (fun x => set_px_timers (<[t := r]> (px_timers x)) x).
Definition upd_timer t (g : posix_timer -> posix_timer) : M (world K) unit :=
  let! r := get_timer t in put_timer t (g r).
Definition free_timer t : M (world K) unit :=
  let! _ := get_timer t in upd_px (fun x => set_px_timers (delete t (px_timers x)) x).

(** FD_SET, FD_CLR and FD_ISSET *)
Definition fd_fits (fd : Z) : bool := (0 <=? fd) && (fd <? FD_SETSIZE).
Definition FD_SET (fd : Z) (s : gset Z) : M (world K) (gset Z) :=
  if fd_fits fd then ret ({[fd]} ∪ s) else fail BadAddress.
Definition FD_CLR (fd : Z) (s : gset Z) : M (world K) (gset Z) :=
  if fd_fits fd then ret (s ∖ {[fd]}) else fail BadAddress.
Definition FD_ISSET (fd : Z) (s : gset Z) : M (world K) bool :=
  if fd_fits fd then ret (bool_decide (fd ∈ s)) else fail BadAddress.

(** The result of an operation on [long]. *)
Definition long_ (z : Z) : M (world K) Z :=
  if (- 2 ^ 63 <=? z) && (z <? 2 ^ 63) then ret z else fail SignedOverflow.
(** *** Rules *)

Definition set_pkq q (k : posix_kq) w : world K :=
  set_w_px (set_px_kqs (<[q := k]> (px_kqs (w_px w))) (w_px w)) w.
Definition set_pkn p (k : posix_knote) w : world K :=
  set_w_px (set_px_knotes (<[p := k]> (px_knotes (w_px w))) (w_px w)) w.
Definition set_tm t (r : posix_timer) w : world K :=
  set_w_px (set_px_timers (<[t := r]> (px_timers (w_px w))) (w_px w)) w.

Lemma pkq_set q k w : pkq (set_pkq q k w) q = k.
Proof. unfold pkq. simpl. by rewrite lookup_insert_eq. Qed.
Lemma pkq_set_ne q r k w : r <> q -> pkq (set_pkq q k w) r = pkq w r.
Proof. intros Hr. unfold pkq. simpl. by rewrite lookup_insert_ne. Qed.
Lemma pkn_set p k w : pkn (set_pkn p k w) p = k.
Proof. unfold pkn. simpl. by rewrite lookup_insert_eq. Qed.
Lemma pkn_set_ne p r k w : r <> p -> pkn (set_pkn p k w) r = pkn w r.
Proof. intros Hr. unfold pkn. simpl. by rewrite lookup_insert_ne. Qed.

Lemma wp_get_pkq q (Q : posix_kq -> world K -> Prop) w :
  is_Some (w_kqs w !! q) -> Q (pkq w q) w -> wp (get_pkq q) Q w.
Proof. intros [kq E] HQ. unfold get_pkq. wp_simpl. eapply wp_get_kq; [exact E|exact HQ]. Qed.

Lemma wp_upd_pkq q g (Q : unit -> world K -> Prop) w :
  is_Some (w_kqs w !! q) -> Q tt (set_pkq q (g (pkq w q)) w) -> wp (upd_pkq q g) Q w.
Proof. intros E HQ. unfold upd_pkq, upd_px. wp_simpl. by apply wp_get_pkq. Qed.

Lemma wp_get_pkn p (Q : posix_knote -> world K -> Prop) w :
  is_Some (w_knotes w !! p) -> Q (pkn w p) w -> wp (get_pkn p) Q w.
Proof. intros [kn E] HQ. unfold get_pkn. wp_simpl. eapply wp_get_kn; [exact E|exact HQ]. Qed.

Lemma wp_upd_pkn p g (Q : unit -> world K -> Prop) w :
  is_Some (w_knotes w !! p) -> Q tt (set_pkn p (g (pkn w p)) w) -> wp (upd_pkn p g) Q w.
Proof. intros E HQ. unfold upd_pkn, upd_px. wp_simpl. by apply wp_get_pkn. Qed.

Lemma wp_get_timer t r (Q : posix_timer -> world K -> Prop) w :
  px_timers (w_px w) !! t = Some r -> Q r w -> wp (get_timer t) Q w.
Proof. intros E HQ. unfold get_timer. wp_simpl. by rewrite E. Qed.

Lemma wp_upd_timer t r g (Q : unit -> world K -> Prop) w :
  px_timers (w_px w) !! t = Some r -> Q tt (set_tm t (g r) w) -> wp (upd_timer t g) Q w.
Proof. intros E HQ. unfold upd_timer, put_timer, upd_px. wp_simpl. eapply wp_get_timer; [exact E|exact HQ]. Qed.

Lemma wp_long z (Q : Z -> world K -> Prop) w :
  - 2 ^ 63 <= z < 2 ^ 63 -> Q z w -> wp (long_ z) Q w.
Proof.
  intros Hz HQ. unfold long_. replace (_ && _) with true; [done|].
  by rewrite (proj2 (Z.leb_le _ _) (proj1 Hz)), (proj2 (Z.ltb_lt _ _) (proj2 Hz)).
Qed.
End Members.

(** ** Pipes and eventfds *)

Section Platform.
Context {K : Type} `{OS K} (have_pipe2 : bool).
Implicit Types (w : world K) (p q : ptr) (f : filt_ref).

(** The fcntl calls on one end of a pipe: whether all succeeded. *)
Definition pipe_end_flags (fd : Z) : M (world K) bool :=
  let! fl := sys (SysFcntl fd F_GETFL 0) in
  match fl with
  | None => ret false
  | Some fl =>
      let! r := sys (SysFcntl fd F_SETFL (Z.lor fl O_NONBLOCK)) in
      match r with
      | None => ret false
      | Some _ =>
          let! r := sys (SysFcntl fd F_SETFD FD_CLOEXEC) in
          ret (bool_decide (is_Some r))
      end
  end.

(** [pipe] with both ends close-on-exec and non-blocking: the ends, None where the
    C function returns -1. *)
Definition posix_self_pipe : M (world K) (option (Z * Z)) :=
  let! r := sys SysPipe in
  match r with
  | None => ret None
  | Some (fd0, fd1) =>
      let! ok := pipe_end_flags fd0 in
      let! ok := (if ok then pipe_end_flags fd1 else ret false) in
      if ok then ret (Some (fd0, fd1))
      else sys (SysClose fd0) ;;; sys (SysClose fd1) ;;; ret None
  end.

Definition posix_eventfd_pipe : M (world K) (option (Z * Z)) :=
  if have_pipe2 then sys SysPipe2 else posix_self_pipe.

Definition posix_eventfd_init f : M (world K) Z :=
  let! r := posix_eventfd_pipe in
  match r with
  | None => ret (-1)
  | Some (sd0, sd1) => upd_filt f (set_ef_id sd0) ;;; upd_pf f (set_ef_wfd sd1) ;;; ret 0
  end.

Definition posix_eventfd_close f : M (world K) unit :=
  let! x := get_filt f in
  let! r := get_pf f in
  sys (SysClose (ef_id x)) ;;;
  sys (SysClose (ef_wfd r)) ;;;
  upd_filt f (set_ef_id (-1)).

Definition posix_eventfd_raise f : M (world K) Z :=
  let! r := get_pf f in
  let! n := sys (SysWrite (ef_wfd r) 1) in
  ret (if bool_decide (is_Some n) then 0 else -1).

Definition posix_eventfd_lower f : M (world K) Z :=
  let! x := get_filt f in
  let! n := sys (SysRead (ef_id x) 1024) in
  ret (if bool_decide (is_Some n) then 0 else -1).

Definition posix_eventfd_descriptor f : M (world K) Z :=
  let! x := get_filt f in ret (ef_id x).

(** [FD_SET(fd, &kq->kq_fds)] with the bound for pselect *)
Definition watch_read q (fd : Z) : M (world K) unit :=
  let! k := get_pkq q in
  let! s := FD_SET fd (kq_fds k) in
  upd_pkq q (set_kq_fds s) ;;;
  if kq_nfds k <=? fd then upd_pkq q (set_kq_nfds (fd + 1)) else ret tt.

Definition posix_eventfd_register q f : M (world K) Z :=
  let! x := get_filt f in
  let fd := ef_id x in
  if fd <? 0 then ret 0
  else if FD_SETSIZE <=? fd then set_errno EMFILE ;;; ret (-1)
  else watch_read q fd ;;; upd_pf f (set_kf_pfd fd) ;;; ret 0.

Definition posix_eventfd_unregister q f : M (world K) unit :=
  let! x := get_filt f in
  let fd := ef_id x in
  if (fd <? 0) || (FD_SETSIZE <=? fd) then ret tt
  else
    let! k := get_pkq q in
    let! s := FD_CLR fd (kq_fds k) in
    upd_pkq q (set_kq_fds s) ;;;
    let! r := get_pf f in
    if kf_pfd r =? fd then upd_pf f (set_kf_pfd (-1)) else ret tt.

(** ** The kqueue *)

Definition posix_wake_kqueue q : M (world K) unit :=
  let! k := get_pkq q in
  if kq_wake_wfd k <? 0 then ret tt
  else sys (SysWrite (kq_wake_wfd k) 1) ;;; ret tt.

Definition posix_kevent_enter q (state : ptr) : M (world K) unit :=
  kqueue_mutex_assert q ;;;
  upd_kq q (fun kq => set_kq_inflight (kq_inflight kq ++ [KeventState state 0]) kq).

Definition posix_kevent_exit q (state : ptr) : M (world K) unit :=
  kqueue_mutex_assert q ;;;
  let! kq := get_kq q in
  if decide (state ∈ ks_id <$> kq_inflight kq) then
    upd_kq q (fun kq => set_kq_inflight
      (base.filter (fun s => ks_id s <> state) (kq_inflight kq)) kq)
  else fail BadAddress.

Definition posix_set_file_poll_interval q (ns : Z) : M (world K) Z :=
  if ns <? 0 then set_errno EINVAL ;;; ret (-1)
  else upd_pkq q (set_kq_file_poll_interval_ns ns) ;;; posix_wake_kqueue q ;;; ret 0.

Context `{FilterList K}.

(** The vtable as [filter_register] sees it: no per-filter hooks. *)
Definition posix_hooks : kqueue_vtable K :=
  KqueueVtable (fun _ => ret 0) (fun _ => ret tt) false None (fun _ _ _ => ret 0)
    (fun _ _ _ _ => ret 0) None None None (ret tt) posix_kevent_enter posix_kevent_exit.

Definition posix_kqueue_init q : M (world K) Z :=
  let! r := posix_self_pipe in
  match r with
  | None => ret (-1)
  | Some (sd0, sd1) =>
      if FD_SETSIZE <=? sd0 then
        sys (SysClose sd0) ;;; sys (SysClose sd1) ;;; set_errno EMFILE ;;; ret (-1)
      else
        upd_kq q (set_kq_inflight []) ;;;
        upd_pkq q (set_kq_timers NULL) ;;;
        upd_kq q (set_kq_id sd0) ;;;
        upd_pkq q (set_kq_fds ∅) ;;;
        upd_pkq q (set_kq_wfds ∅) ;;;
        let! s := FD_SET sd0 ∅ in
        upd_pkq q (set_kq_fds s) ;;;
        upd_pkq q (set_kq_nfds (sd0 + 1)) ;;;
        upd_pkq q (set_kq_wake_wfd sd1) ;;;
        let! rv := filter_register_all posix_hooks q in
        if rv <? 0 then
          sys (SysClose sd0) ;;; sys (SysClose sd1) ;;;
          upd_kq q (set_kq_id (-1)) ;;; upd_pkq q (set_kq_wake_wfd (-1)) ;;; ret (-1)
        else ret 0
  end.

Definition posix_kqueue_free q : M (world K) unit :=
  upd_kq q (set_kq_id (-1)) ;;;
  let! k := get_pkq q in
  (if 0 <=? kq_wake_wfd k
   then sys (SysClose (kq_wake_wfd k)) ;;; upd_pkq q (set_kq_wake_wfd (-1)) else ret tt) ;;;
  upd_pkq q (set_kq_fds ∅) ;;;
  upd_pkq q (set_kq_nfds 0).
End Platform.
