(* ===== verification/PosixTimer.v ===== *)
(** * EVFILT_TIMER on POSIX: src/posix/timer.c

    Each enabled knote owns a [posix_timer] in [kq_timers], a red-black tree of
    timers ordered by deadline and then by address.  The wait clamps its timeout
    to the earliest deadline; copyout pops the timers that are due, counts the
    deadlines passed and delivers one event per knote.  The comparison
    [posix_timer_cmp] reads the timers through their addresses, so the tree
    operations take the heap of timers as their key function. *)

From Stdlib Require Import ZArith Lia Bool.
From stdpp Require Import base list gmap.
From S2P Require Import Prelude RBTree Event Map State Ops Knote Filter PosixPlatform.

Definition NSEC : Z := 1000000000.

Definition ts_lt (a b : timespec) : bool :=
  if negb (tv_sec a =? tv_sec b) then tv_sec a <? tv_sec b else tv_nsec a <? tv_nsec b.

Definition posix_timer_cmp (a b : posix_timer) (pa pb : ptr) : Z :=
  if ts_lt (next a) (next b) then -1
  else if ts_lt (next b) (next a) then 1
  else if (pa <? pb)%positive then -1
  else if (pb <? pa)%positive then 1
  else 0.

(** The order of [posix_timer_cmp] as an order of numbers: the deadline in
    nanoseconds above the 64 bits of the address ([timer_cmp_key]). *)
Definition ts_ns (t : timespec) : Z := tv_sec t * NSEC + tv_nsec t.
Definition timer_key (m : gmap ptr posix_timer) (t : ptr) : Z :=
  match m !! t with Some r => ts_ns (next r) * 2 ^ 64 + Zpos t | None => Zpos t end.

Section Timer.
Context {K : Type} `{OS K} `{FilterList K}.
Implicit Types (w : world K) (p q t : ptr) (f : filt_ref).

(** [clock_gettime]; its result is left unset when it fails. *)
Definition ts_clock (clk : Z) : M (world K) timespec :=
  let! r := sys (SysClockGettime clk) in deref Uninitialised r.
Definition ts_now : M (world K) timespec := ts_clock CLOCK_MONOTONIC.

Definition ts_add_ns (t : timespec) (ns : Z) : M (world K) timespec :=
  let! sec := long_ (tv_sec t + Z.quot ns NSEC) in
  let! nsec := long_ (tv_nsec t + Z.rem ns NSEC) in
  if NSEC <=? nsec then let! sec := long_ (sec + 1) in ret (Timespec sec (nsec - NSEC))
  else ret (Timespec sec nsec).

Definition timer_data_to_ns (d fflags : Z) : M (world K) Z :=
  if has fflags NOTE_NSECONDS then ret d
  else if has fflags NOTE_USECONDS then long_ (d * 1000)
  else if has fflags NOTE_SECONDS then long_ (d * NSEC)
  else long_ (d * 1000000).

(** The nanoseconds from [rt] until the time [abs_ns]. *)
Definition abs_delta (abs_ns : Z) (rt : timespec) : M (world K) Z :=
  let! s := long_ (Z.quot abs_ns NSEC - tv_sec rt) in
  let! s := long_ (s * NSEC) in
  let! n := long_ (Z.rem abs_ns NSEC - tv_nsec rt) in
  long_ (s + n).

Definition timer_alloc p : M (world K) (option ptr) :=
  let! r := alloc in
  match r with
  | None => ret None
  | Some t =>
      let! kn := get_kn p in
      let one := has (flags (kev kn)) EV_ONESHOT in
      if has (fflags (kev kn)) NOTE_ABSOLUTE then
        let! abs_ns := timer_data_to_ns (data (kev kn)) (fflags (kev kn)) in
        let! rt := ts_clock CLOCK_REALTIME in
        let! m := ts_now in
        let! delta := abs_delta abs_ns rt in
        let! nx := ts_add_ns m (if delta <? 0 then 0 else delta) in
        put_timer t (PosixTimer p nx 0 one true false 0) ;;; ret (Some t)
      else if data (kev kn) <? 0 then set_errno EINVAL ;;; ret None
      else
        let! ns := timer_data_to_ns (data (kev kn)) (fflags (kev kn)) in
        let ns := if ns <? 1 then 1 else ns in
        let! m := ts_now in
        let! nx := ts_add_ns m ns in
        put_timer t (PosixTimer p nx (if one then 0 else ns) one false false 0) ;;; ret (Some t)
  end.

(** The tree operations compare timers of the tree: all must be live. *)
Definition tree_timers q : M (world K) (gmap ptr posix_timer * tree ptr) :=
  let! k := get_pkq q in
  let! m := gets (fun w => px_timers (w_px w)) in
  if forallb (fun t => bool_decide (is_Some (m !! t))) (elements (kq_timers k))
  then ret (m, kq_timers k) else fail UseAfterFree.

Definition timer_link q t : M (world K) unit :=
  let! r := get_timer t in
  if in_tree r then ret tt
  else
    let! mt := tree_timers q in
    let! res := deref NullDeref (RB_INSERT (timer_key mt.1) mt.2 t) in
    upd_pkq q (set_kq_timers res.2) ;;;
    upd_timer t (set_in_tree true).

Definition timer_unlink q t : M (world K) unit :=
  let! r := get_timer t in
  if negb (in_tree r) then ret tt
  else
    let! mt := tree_timers q in
    let! tr' := deref BadAddress (RB_REMOVE (timer_key mt.1) mt.2 (timer_key mt.1 t)) in
    upd_pkq q (set_kq_timers tr') ;;;
    upd_timer t (set_in_tree false).

Definition posix_timer_min_deadline_ns q : M (world K) Z :=
  let! k := get_pkq q in
  match RB_MIN (kq_timers k) with
  | None => ret (-1)
  | Some t =>
      let! now := ts_now in
      let! r := get_timer t in
      if ts_lt (next r) now then ret 0
      else
        let! s := long_ (tv_sec (next r) - tv_sec now) in
        let! s := long_ (s * NSEC) in
        let! n := long_ (tv_nsec (next r) - tv_nsec now) in
        long_ (s + n)
  end.

(** The catch-up loop of a periodic timer: the fuel is the number of intervals
    until [now], plus one. *)
Definition catch_up t (now : timespec) : M (world K) unit :=
  let! r := get_timer t in
  loop (S (Z.to_nat ((ts_ns now - ts_ns (next r)) / interval_ns r + 1))) (fun _ : unit =>
    let! r := get_timer t in
    let! nx := ts_add_ns (next r) (interval_ns r) in
    upd_timer t (set_next nx) ;;;
    if ts_lt now nx then ret (inr tt)
    else upd_timer t (fun r => set_fire_count (u32 (fire_count r + 1)) r) ;;; ret (inl tt)) tt.

(** One expired timer of the loop of [posix_timer_check]. *)
Definition timer_fire q t (now : timespec) : M (world K) unit :=
  timer_unlink q t ;;;
  upd_timer t (fun r => set_fire_count (u32 (fire_count r + 1)) r) ;;;
  let! r := get_timer t in
  if oneshot r || absolute r || (interval_ns r =? 0) then
    let! sec := long_ (tv_sec now + NSEC) in
    upd_timer t (set_next (Timespec sec 0))
  else catch_up t now ;;; timer_link q t.

Definition posix_timer_check q : M (world K) unit :=
  let! k := get_pkq q in
  match RB_MIN (kq_timers k) with
  | None => ret tt
  | Some t0 =>
      let! now := ts_now in
      loop (S (rb_size (kq_timers k))) (fun o : option ptr =>
        match o with
        | None => ret (inr tt)
        | Some t =>
            let! r := get_timer t in
            if ts_lt now (next r) then ret (inr tt)
            else
              timer_fire q t now ;;;
              let! k := get_pkq q in ret (inl (RB_MIN (kq_timers k)))
        end) (Some t0)
  end.

(** ** Callbacks *)

(** [knote_foreach] with the context its callback fills in. *)
Fixpoint foreach_ctx {C : Type} (fuel : nat) f (cb : C -> ptr -> M (world K) (C * Z)) (ctx : C)
    (cur : option entry) : M (world K) C :=
  match cur with
  | None => ret ctx
  | Some e =>
      match fuel with
      | O => fail OutOfFuel
      | S n =>
          let! x := get_filt f in
          if decide (RB_FIND e_key (kf_index x) (e_key e) = Some e) then
            let! c := cb ctx (e_ptr e) in
            if c.2 =? 0 then foreach_ctx n f cb c.1 (RB_NEXT e_key (kf_index x) (e_key e))
            else ret c.1
          else fail UseAfterFree
      end
  end.
Definition knote_foreach_ctx {C : Type} f (cb : C -> ptr -> M (world K) (C * Z)) (ctx : C)
    : M (world K) C :=
  let! x := get_filt f in
  foreach_ctx (rb_size (kf_index x)) f cb ctx (RB_MIN (kf_index x)).

(** [struct timer_drain_ctx] and [struct vnode_drain_ctx]: [nout] and [err]; the
    callback copies out one knote with [one]. *)
Definition drain_cb (one : Z -> ptr -> M (world K) Z) (eventlist nevents : Z) (c : Z * bool) p
    : M (world K) ((Z * bool) * Z) :=
  if nevents <=? c.1 then ret (c, 1)
  else
    let! rv := one (eventlist + c.1) p in
    if rv <? 0 then ret ((c.1, true), 1) else ret ((c.1 + rv, c.2), 0).
Definition drain_result (c : Z * bool) : Z := if c.2 then -1 else c.1.

Definition evfilt_timer_copyout_one (dst : Z) f p : M (world K) Z :=
  let! s := get_pkn p in
  let! kn := get_kn p in
  match kn_timer s with
  | None => ret 0
  | Some t =>
      if KNOTE_DISABLED kn then ret 0
      else
        let! r := get_timer t in
        if fire_count r =? 0 then ret 0
        else
          upd_timer t (set_fire_count 0) ;;;
          store dst (kev kn) ;;;
          upd_mem dst (set_data (fire_count r)) ;;;
          let! rv := knote_copyout_flag_actions f p in
          ret (if rv <? 0 then -1 else 1)
  end.

Definition posix_evfilt_timer_copyout (dst nevents : Z) f (src : option ptr) (ev : raw_event)
    : M (world K) Z :=
  posix_timer_check f.1 ;;;
  let! c := knote_foreach_ctx f
    (drain_cb (fun a p => evfilt_timer_copyout_one a f p) dst nevents) (0, false) in
  ret (drain_result c).

Definition posix_evfilt_timer_knote_create f p : M (world K) Z :=
  upd_kn p (upd_flags (fun x => setb x EV_CLEAR)) ;;;
  let! r := timer_alloc p in
  match r with
  | None => ret (-1)
  | Some t =>
      upd_pkn p (set_kn_timer (Some t)) ;;;
      timer_link f.1 t ;;;
      posix_wake_kqueue f.1 ;;;
      ret 0
  end.

(** [timer_unlink], [free] and [kn->kn_timer = NULL] *)
Definition timer_drop q p : M (world K) unit :=
  let! s := get_pkn p in
  match kn_timer s with
  | None => ret tt
  | Some t => timer_unlink q t ;;; free_timer t ;;; upd_pkn p (set_kn_timer None)
  end.

Definition posix_evfilt_timer_knote_modify f p (k : kevent) : M (world K) Z :=
  let! kn := get_kn p in
  let keep := Z.land (flags (kev kn)) EV_RECEIPT in
  timer_drop f.1 p ;;;
  upd_kn p (set_kev k) ;;;
  upd_kn p (upd_flags (fun x => setb x (Z.lor EV_CLEAR keep))) ;;;
  posix_evfilt_timer_knote_create f p.

Definition posix_evfilt_timer_knote_delete f p : M (world K) Z :=
  timer_drop f.1 p ;;; ret 0.

Definition posix_evfilt_timer_knote_enable f p : M (world K) Z :=
  let! s := get_pkn p in
  match kn_timer s with
  | None => ret tt
  | Some t =>
      let! r := get_timer t in
      let ns := if absolute r then 0 else if 0 <? interval_ns r then interval_ns r else 1 in
      let! m := ts_now in
      let! nx := ts_add_ns m ns in
      upd_timer t (set_next nx) ;;;
      upd_timer t (set_fire_count 0) ;;;
      timer_link f.1 t
  end ;;;
  posix_wake_kqueue f.1 ;;;
  ret 0.

Definition posix_evfilt_timer_knote_disable f p : M (world K) Z :=
  let! s := get_pkn p in
  match kn_timer s with
  | None => ret tt
  | Some t => timer_unlink f.1 t
  end ;;;
  ret 0.

(** The [kf_init] and [kf_destroy] of this filter do nothing. *)
Definition posix_evfilt_timer : filter_src K :=
  FilterSrc EVFILT_TIMER (FilterOps (Some (fun _ => ret 0)) (Some (fun _ => ret tt))
    posix_evfilt_timer_copyout posix_evfilt_timer_knote_create posix_evfilt_timer_knote_modify
    posix_evfilt_timer_knote_delete posix_evfilt_timer_knote_enable posix_evfilt_timer_knote_disable).
End Timer.
