(* ===== verification/PosixTimerSpec.v ===== *)
(** * What the POSIX timers promise

    The reference [fired] says in closed form what an expired timer becomes: a
    periodic one counts every deadline that has passed and moves to the first one
    after now, a one-shot one counts once and leaves the tree.  The loops of
    [posix_timer_check] implement it for every timer of a kqueue, the wait's
    deadline is the earliest one, and the callbacks keep the tree consistent with
    the timers. *)

From Stdlib Require Import ZArith Lia Bool.
From stdpp Require Import base list gmap.
From S2P Require Import Prelude RBTree Event Map State Ops Knote Filter PosixPlatform PosixTimer.

(** ** Times *)

Definition ts_norm (t : timespec) : Prop := 0 <= tv_nsec t < NSEC.
Definition ns_ts (n : Z) : timespec := Timespec (n / NSEC) (n mod NSEC).

Lemma ts_lt_ns a b : ts_norm a -> ts_norm b -> ts_lt a b = (ts_ns a <? ts_ns b).
Proof.
  unfold ts_norm, ts_lt, ts_ns, NSEC. intros Ha Hb. apply eq_true_iff_eq. rewrite Z.ltb_lt.
  destruct (Z.eqb_spec (tv_sec a) (tv_sec b)); simpl; rewrite Z.ltb_lt; nia.
Qed.

Lemma ns_ts_ns n : ts_ns (ns_ts n) = n /\ ts_norm (ns_ts n).
Proof.
  unfold ts_ns, ns_ts, ts_norm, NSEC. simpl.
  pose proof (Z.div_mod n 1000000000). pose proof (Z.mod_pos_bound n 1000000000). lia.
Qed.

Lemma ts_ns_inj a b : ts_norm a -> ts_norm b -> ts_ns a = ts_ns b -> a = b.
Proof.
  destruct a, b. unfold ts_norm, ts_ns, NSEC. simpl. intros. f_equal; nia.
Qed.

(** The number that stands for a timer in the tree orders as [posix_timer_cmp] does. *)
Lemma timer_cmp_key m a b ra rb :
  m !! a = Some ra -> m !! b = Some rb -> ts_norm (next ra) -> ts_norm (next rb) ->
  Zpos a < 2 ^ 64 -> Zpos b < 2 ^ 64 ->
  posix_timer_cmp ra rb a b = rb_cmp (timer_key m a) (timer_key m b).
Proof.
  intros Ea Eb Ha Hb Hla Hlb. unfold posix_timer_cmp, timer_key, rb_cmp. rewrite Ea, Eb.
  rewrite !ts_lt_ns by done.
  destruct (Z.ltb_spec (ts_ns (next ra)) (ts_ns (next rb))) as [H1|H1].
  { rewrite (proj2 (Z.ltb_ge _ _)), (proj2 (Z.ltb_lt _ _)) by lia. done. }
  destruct (Z.ltb_spec (ts_ns (next rb)) (ts_ns (next ra))) as [H2|H2].
  { rewrite (proj2 (Z.ltb_lt _ _)), (proj2 (Z.ltb_ge _ _)) by lia. done. }
  replace (ts_ns (next rb)) with (ts_ns (next ra)) by lia.
  destruct (Pos.ltb_spec a b) as [H3|H3].
  { rewrite (proj2 (Z.ltb_ge _ _)), (proj2 (Z.ltb_lt _ _)) by lia. done. }
  destruct (Pos.ltb_spec b a) as [H4|H4].
  { rewrite (proj2 (Z.ltb_lt _ _)), (proj2 (Z.ltb_ge _ _)) by lia. done. }
  by rewrite !(proj2 (Z.ltb_ge _ _)) by lia.
Qed.

(** ** The tree of a kqueue *)

(** A time far from the bounds of the arithmetic: a century of seconds is below 2^32. *)
Definition ts_range (t : timespec) : Prop := ts_norm t /\ 0 <= tv_sec t < 2 ^ 62.

Record timer_ok (t : ptr) (r : posix_timer) : Prop :=
  { tk_next : ts_range (next r);
    tk_interval : 0 <= interval_ns r < 2 ^ 63;
    tk_count : 0 <= fire_count r < 2 ^ 32;
    tk_addr : Zpos t < 2 ^ 64 }.

Record tree_ok (m : gmap ptr posix_timer) (tr : tree ptr) : Prop :=
  { tt_wf : wf (timer_key m) tr;
    tt_timer : forall t, t ∈ elements tr -> exists r, m !! t = Some r /\ in_tree r = true /\ timer_ok t r }.

(** The key of a timer depends on its deadline only. *)
Lemma timer_key_ext m m' t :
  next <$> m' !! t = next <$> m !! t -> timer_key m' t = timer_key m t.
Proof. unfold timer_key. intros E. by destruct (m' !! t), (m !! t); simplify_eq/=; rewrite ?E. Qed.

Lemma wf_ext {A : Type} (k k' : A -> Z) (tr : tree A) :
  (forall x, x ∈ elements tr -> k' x = k x) -> wf k tr -> wf k' tr.
Proof.
  intros Hk [Hs Hr]. split; [|done]. unfold search_tree, keys in *.
  replace (k' <$> elements tr) with (k <$> elements tr); [done|].
  apply list_fmap_ext. intros i x Hi. symmetry. apply Hk. by eapply list_elem_of_lookup_2.
Qed.

Lemma timer_key_inj m a b ra rb :
  m !! a = Some ra -> m !! b = Some rb -> Zpos a < 2 ^ 64 -> Zpos b < 2 ^ 64 ->
  timer_key m a = timer_key m b -> a = b.
Proof.
  intros Ea Eb Ha Hb. unfold timer_key. rewrite Ea, Eb. intros Hk.
  assert (Zpos a mod 2 ^ 64 = Zpos b mod 2 ^ 64) as Hm.
  { pose proof (Z.mod_add (Zpos a) (ts_ns (next ra)) (2 ^ 64)) as H1.
    pose proof (Z.mod_add (Zpos b) (ts_ns (next rb)) (2 ^ 64)) as H2.
    rewrite <- H1, <- H2 by lia. f_equal. lia. }
  rewrite !Z.mod_small in Hm by lia. lia.
Qed.

Lemma tree_NoDup m tr : tree_ok m tr -> NoDup (elements tr).
Proof.
  intros Ht. pose proof (sortedZ_NoDup _ (proj1 (tt_wf _ _ Ht))) as Hnd. by apply NoDup_fmap_1 in Hnd.
Qed.

Lemma filter_Permutation_bool {A : Type} (f : A -> bool) (l l' : list A) :
  l ≡ₚ l' -> List.filter f l ≡ₚ List.filter f l'.
Proof.
  induction 1 as [|x l l' _ IH|x y l|l1 l2 l3 _ IH1 _ IH2]; simpl; [done| | |by etrans].
  - by destruct (f x); rewrite IH.
  - destruct (f x), (f y); done || apply Permutation_swap.
Qed.

(** Only timers outside the tree change. *)
Lemma tree_ok_ext m m' tr :
  (forall t, t ∈ elements tr -> m' !! t = m !! t) -> tree_ok m tr -> tree_ok m' tr.
Proof.
  intros Hm [Hw Ht]. split.
  - eapply wf_ext; [|exact Hw]. intros t Hin. apply timer_key_ext. by rewrite Hm.
  - intros t Hin. rewrite Hm by done. by apply Ht.
Qed.

(** Removing the first timer, and inserting one. *)
Lemma tree_ok_remove m tr tr' l1 l2 t v :
  tree_ok m tr -> elements tr = l1 ++ t :: l2 -> elements tr' = l1 ++ l2 -> wf (timer_key m) tr' ->
  tree_ok (<[t := v]> m) tr'.
Proof.
  intros Hok He He' Hw. pose proof (tree_NoDup _ _ Hok) as Hnd. rewrite He in Hnd.
  apply NoDup_app in Hnd as (_ & Hd & Hnd). apply NoDup_cons in Hnd as [Hn _].
  apply (tree_ok_ext m).
  - intros x Hx. rewrite lookup_insert_ne; [done|]. intros <-. rewrite He' in Hx.
    apply elem_of_app in Hx as [Hx|Hx]; [|done]. apply (Hd _ Hx). set_solver.
  - split; [done|]. intros x Hx. apply Hok. rewrite He. rewrite He' in Hx. set_solver.
Qed.

Lemma tree_ok_other m tr t a b :
  tree_ok (<[t := a]> m) tr -> t ∉ elements tr -> tree_ok (<[t := b]> m) tr.
Proof.
  intros Hok Hn. eapply tree_ok_ext; [|exact Hok]. intros x Hx.
  assert (x <> t) by congruence. by rewrite !lookup_insert_ne.
Qed.

Lemma tree_find_none m tr t r :
  tree_ok m tr -> m !! t = Some r -> Zpos t < 2 ^ 64 -> t ∉ elements tr ->
  RB_FIND (timer_key m) tr (timer_key m t) = None.
Proof.
  intros Hok E Ha Hn. destruct (RB_FIND _ _ _) as [x|] eqn:Hf; [|done]. exfalso.
  apply RB_FIND_elem in Hf as [Hx Hk]; [|apply Hok].
  destruct (tt_timer _ _ Hok _ Hx) as (rx & Ex & _ & Hkx).
  assert (x = t) as -> by (eapply timer_key_inj; [exact Ex|exact E|apply Hkx|exact Ha|exact Hk]). done.
Qed.

Section Rules.
Context {K : Type} `{OS K} `{FilterList K}.
Implicit Types (w : world K) (p q t : ptr) (tr : tree ptr) (r : posix_timer) (now : timespec).

Definition timers w : gmap ptr posix_timer := px_timers (w_px w).
Definition tree_of w q : tree ptr := kq_timers (pkq w q).
(** The kqueue [q] with another tree. *)
Definition with_tree q tr w : world K := set_pkq q (set_kq_timers tr (pkq w q)) w.

Lemma set_tm_twice t a b w : set_tm t a (set_tm t b w) = set_tm t a w.
Proof. unfold set_tm. simpl. by rewrite insert_insert_eq. Qed.
Lemma with_tree_tm q tr t r w : with_tree q tr (set_tm t r w) = set_tm t r (with_tree q tr w).
Proof. done. Qed.
Lemma with_tree_twice q tr tr' w : with_tree q tr (with_tree q tr' w) = with_tree q tr w.
Proof. unfold with_tree. rewrite pkq_set. unfold set_pkq. simpl. by rewrite insert_insert_eq. Qed.
Lemma tree_of_with q tr w : tree_of (with_tree q tr w) q = tr.
Proof. unfold tree_of, with_tree. by rewrite pkq_set. Qed.

Lemma wp_tree_timers q (Q : gmap ptr posix_timer * tree ptr -> world K -> Prop) w :
  is_Some (w_kqs w !! q) -> tree_ok (timers w) (tree_of w q) ->
  Q (timers w, tree_of w q) w -> wp (tree_timers q) Q w.
Proof.
  intros Hq Hok HQ. unfold tree_timers. wp_simpl. apply wp_get_pkq; [done|]. wp_simpl.
  change (px_timers (w_px w)) with (timers w). change (kq_timers (pkq w q)) with (tree_of w q).
  rewrite (proj2 (forallb_forall _ _)); [done|]. intros t Ht. apply bool_decide_eq_true.
  apply list_elem_of_In in Ht. destruct (tt_timer _ _ Hok _ Ht) as (r & Er & _). by exists r.
Qed.

Lemma wp_timer_link q t r (Q : unit -> world K -> Prop) w :
  is_Some (w_kqs w !! q) -> tree_ok (timers w) (tree_of w q) -> timers w !! t = Some r ->
  in_tree r = false -> timer_ok t r ->
  (forall tr' l1 l2, elements (tree_of w q) = l1 ++ l2 -> elements tr' = l1 ++ t :: l2 ->
     tree_ok (<[t := set_in_tree true r]> (timers w)) tr' ->
     Q tt (set_tm t (set_in_tree true r) (with_tree q tr' w))) ->
  wp (timer_link q t) Q w.
Proof.
  intros Hq Hok E Hr Hk HQ. unfold timer_link. wp_simpl. eapply wp_get_timer; [exact E|]. rewrite Hr.
  wp_simpl. apply wp_tree_timers; [done..|]. cbn [fst snd].
  assert (Hn : t ∉ elements (tree_of w q)).
  { intros Hin. destruct (tt_timer _ _ Hok _ Hin) as (r' & Er' & Hr' & _). congruence. }
  destruct (RB_INSERT_wf (timer_key (timers w)) (tree_of w q) t (tt_wf _ _ Hok)
    (tree_find_none _ _ _ _ Hok E (tk_addr _ _ Hk) Hn)) as (tr' & l1 & l2 & Hi & Hw & He & He').
  rewrite Hi. wp_simpl. apply wp_upd_pkq; [done|]. eapply wp_upd_timer; [exact E|].
  apply (HQ tr' l1 l2 He He'). split.
  - eapply wf_ext; [|exact Hw]. intros x _. apply timer_key_ext.
    destruct (decide (x = t)) as [->|Hx]; [by rewrite lookup_insert_eq, E|by rewrite lookup_insert_ne].
  - intros x Hx. destruct (decide (x = t)) as [->|Hne].
    + rewrite lookup_insert_eq. eexists. split; [done|]. split; [done|]. by destruct Hk.
    + rewrite lookup_insert_ne by done. apply Hok. rewrite He. rewrite He' in Hx. set_solver.
Qed.

Lemma wp_timer_unlink q t r l1 l2 (Q : unit -> world K -> Prop) w :
  is_Some (w_kqs w !! q) -> tree_ok (timers w) (tree_of w q) -> timers w !! t = Some r ->
  elements (tree_of w q) = l1 ++ t :: l2 ->
  (forall tr', elements tr' = l1 ++ l2 -> tree_ok (<[t := set_in_tree false r]> (timers w)) tr' ->
     Q tt (set_tm t (set_in_tree false r) (with_tree q tr' w))) ->
  wp (timer_unlink q t) Q w.
Proof.
  intros Hq Hok E He HQ. unfold timer_unlink. wp_simpl. eapply wp_get_timer; [exact E|].
  destruct (tt_timer _ _ Hok t) as (r' & Er & Hr & _); [rewrite He; set_solver|].
  assert (r' = r) as -> by congruence. rewrite Hr. simpl.
  wp_simpl. apply wp_tree_timers; [done..|]. cbn [fst snd].
  destruct (RB_REMOVE_wf (timer_key (timers w)) (tree_of w q) l1 l2 t (tt_wf _ _ Hok) He)
    as (tr' & Hi & Hw & He').
  rewrite Hi. wp_simpl. apply wp_upd_pkq; [done|]. eapply wp_upd_timer; [exact E|].
  apply (HQ tr' He'). by eapply tree_ok_remove.
Qed.

(** ** Arithmetic *)

Lemma wp_ts_add_ns a ns (Q : timespec -> world K -> Prop) w :
  ts_range a -> 0 <= ns < 2 ^ 63 -> Q (ns_ts (ts_ns a + ns)) w -> wp (ts_add_ns a ns) Q w.
Proof.
  intros [Ha Hs] Hns HQ. unfold ts_norm, ts_add_ns, NSEC in *. wp_simpl.
  pose proof (Z.quot_rem' ns 1000000000) as Hqr. pose proof (Z.rem_bound_pos ns 1000000000) as Hrb.
  assert (Hq : 0 <= Z.quot ns 1000000000 <= ns) by lia.
  assert (Hq' : Z.quot ns 1000000000 < 2 ^ 34) by lia.
  apply wp_long; [lia|]. wp_simpl. apply wp_long; [lia|].
  destruct (Z.leb_spec 1000000000 (tv_nsec a + Z.rem ns 1000000000)) as [Hge|Hlt].
  - wp_simpl. apply wp_long; [lia|]. wp_simpl.
    replace (Timespec _ _) with (ns_ts (ts_ns a + ns)); [done|].
    apply ts_ns_inj; [apply ns_ts_ns|unfold ts_norm, NSEC; simpl; lia|].
    rewrite (proj1 (ns_ts_ns _)). unfold ts_ns, NSEC. simpl. lia.
  - wp_simpl. replace (Timespec _ _) with (ns_ts (ts_ns a + ns)); [done|].
    apply ts_ns_inj; [apply ns_ts_ns|unfold ts_norm, NSEC; simpl; lia|].
    rewrite (proj1 (ns_ts_ns _)). unfold ts_ns, NSEC. simpl. lia.
Qed.

(** A clock reading, with room above it for the longest interval. *)
Definition clock_range now : Prop := ts_norm now /\ 0 <= tv_sec now < 2 ^ 61.

Lemma range_le a b : ts_norm a -> 0 <= ts_ns a -> ts_ns a <= ts_ns b + 2 ^ 63 -> clock_range b -> ts_range a.
Proof. unfold ts_range, clock_range, ts_norm, ts_ns, NSEC. intros. lia. Qed.

Lemma range_pos a : ts_range a -> 0 <= ts_ns a.
Proof. unfold ts_range, ts_norm, ts_ns, NSEC. lia. Qed.

(** ** The catch-up loop *)

(** The deadlines of a periodic timer that have passed at [now]. *)
Definition elapsed now r : Z := (ts_ns now - ts_ns (next r)) / interval_ns r + 1.

Definition catch_body t now (_ : unit) : M (world K) (unit + unit) :=
  let! r := get_timer t in
  let! nx := ts_add_ns (next r) (interval_ns r) in
  upd_timer t (set_next nx) ;;;
  if ts_lt now nx then ret (inr tt)
  else upd_timer t (fun r => set_fire_count (u32 (fire_count r + 1)) r) ;;; ret (inl tt).

Definition caught_up now r : posix_timer :=
  set_next (ns_ts (ts_ns (next r) + elapsed now r * interval_ns r))
    (set_fire_count (u32 (fire_count r + (elapsed now r - 1))) r).

Lemma catch_loop_ok t now n : forall w r (Q : unit -> world K -> Prop),
  timers w !! t = Some r -> 0 < interval_ns r < 2 ^ 63 -> 0 <= fire_count r < 2 ^ 32 ->
  ts_range (next r) -> clock_range now -> ts_ns (next r) <= ts_ns now ->
  (Z.to_nat (elapsed now r) <= n)%nat -> Q tt (set_tm t (caught_up now r) w) ->
  wp (loop n (catch_body t now) tt) Q w.
Proof.
  induction n as [|n IH]; intros w r Q E Hi Hc Hr Hn Hle Hf HQ.
  { exfalso. unfold elapsed in Hf.
    pose proof (Z.div_pos (ts_ns now - ts_ns (next r)) (interval_ns r)). lia. }
  simpl. unfold catch_body at 1. wp_simpl. eapply wp_get_timer; [exact E|]. wp_simpl.
  apply wp_ts_add_ns; [done|lia|]. wp_simpl. eapply wp_upd_timer; [exact E|]. wp_simpl.
  destruct (ns_ts_ns (ts_ns (next r) + interval_ns r)) as [Hv Hnm].
  rewrite ts_lt_ns, Hv by (apply Hn || done).
  destruct (Z.ltb_spec (ts_ns now) (ts_ns (next r) + interval_ns r)) as [Hlt|Hge]; wp_simpl.
  - assert (He : elapsed now r = 1) by (unfold elapsed; rewrite Z.div_small; lia).
    replace (set_next _ r) with (caught_up now r); [done|]. unfold caught_up. rewrite He.
    replace (u32 (fire_count r + (1 - 1))) with (fire_count r); [by rewrite Z.mul_1_l; destruct r|].
    unfold u32. rewrite Z.mod_small; lia.
  - set (r1 := set_next (ns_ts (ts_ns (next r) + interval_ns r)) r).
    eapply wp_upd_timer; [apply lookup_insert_eq|]. wp_simpl. rewrite set_tm_twice.
    set (r2 := set_fire_count _ r1).
    assert (He : elapsed now r2 = elapsed now r - 1).
    { unfold elapsed, r2, r1. simpl. rewrite Hv.
      replace (ts_ns now - (ts_ns (next r) + interval_ns r))
        with (ts_ns now - ts_ns (next r) + (-1) * interval_ns r) by lia.
      rewrite Z.div_add by lia. lia. }
    apply (IH _ r2); try done.
    + apply lookup_insert_eq.
    + unfold r2. simpl. apply Z.mod_pos_bound. lia.
    + change (next r2) with (ns_ts (ts_ns (next r) + interval_ns r)).
      pose proof (range_pos _ Hr). apply (range_le _ now); [exact Hnm|rewrite Hv; lia|rewrite Hv; lia|exact Hn].
    + simpl. rewrite Hv. lia.
    + rewrite He. lia.
    + rewrite set_tm_twice. replace (caught_up now r2) with (caught_up now r); [done|].
      unfold caught_up. rewrite He. unfold r2, r1. simpl. rewrite Hv.
      replace (ts_ns (next r) + interval_ns r + (elapsed now r - 1) * interval_ns r)
        with (ts_ns (next r) + elapsed now r * interval_ns r) by lia.
      unfold u32. rewrite Zplus_mod_idemp_l.
      replace (fire_count r + 1 + (elapsed now r - 1 - 1)) with (fire_count r + (elapsed now r - 1)) by lia.
      done.
Qed.

Lemma wp_catch_up t now r (Q : unit -> world K -> Prop) w :
  timers w !! t = Some r -> 0 < interval_ns r -> timer_ok t r -> clock_range now ->
  ts_ns (next r) <= ts_ns now -> Q tt (set_tm t (caught_up now r) w) -> wp (catch_up t now) Q w.
Proof.
  intros E Hi Hk Hn Hle HQ. unfold catch_up. wp_simpl. eapply wp_get_timer; [exact E|].
  eapply (catch_loop_ok _ _ _ _ r); try done; [|apply Hk..|].
  - pose proof (tk_interval _ _ Hk). lia.
  - unfold elapsed. lia.
Qed.

(** ** The expired timers *)

(** Fires once: the deadline is then put out of reach. *)
Definition single r : bool := oneshot r || absolute r || (interval_ns r =? 0).

(** What an expired timer becomes at [now]. *)
Definition fired now r : posix_timer :=
  if single r then
    set_next (Timespec (tv_sec now + NSEC) 0)
      (set_fire_count (u32 (fire_count r + 1)) (set_in_tree false r))
  else
    set_next (ns_ts (ts_ns (next r) + elapsed now r * interval_ns r))
      (set_fire_count (u32 (fire_count r + elapsed now r)) r).

(** The first deadline after [now]. *)
Lemma caught_up_next now r :
  0 < interval_ns r -> ts_ns (next r) <= ts_ns now ->
  ts_ns now < ts_ns (next r) + elapsed now r * interval_ns r <= ts_ns now + interval_ns r.
Proof.
  intros Hi Hle. unfold elapsed.
  pose proof (Z.div_mod (ts_ns now - ts_ns (next r)) (interval_ns r)).
  pose proof (Z.mod_pos_bound (ts_ns now - ts_ns (next r)) (interval_ns r)). lia.
Qed.

Lemma fired_ok now t r :
  timer_ok t r -> clock_range now -> ts_ns (next r) <= ts_ns now -> timer_ok t (fired now r).
Proof.
  intros [Hr Hi Hc Ha] Hn Hle. unfold fired, single.
  destruct (oneshot r || absolute r || (interval_ns r =? 0)) eqn:Hs; split; simpl; try done.
  - unfold ts_range, clock_range, ts_norm, NSEC in *. simpl. lia.
  - apply Z.mod_pos_bound. lia.
  - apply orb_false_iff in Hs as [_ Hs%Z.eqb_neq].
    pose proof (caught_up_next now r). pose proof (range_pos _ Hr).
    destruct (ns_ts_ns (ts_ns (next r) + elapsed now r * interval_ns r)) as [Hv Hnm].
    apply (range_le _ now); [done|rewrite Hv; lia|rewrite Hv; lia|done].
  - apply Z.mod_pos_bound. lia.
Qed.

(** The end of a timer that fires once, and the catch-up of a periodic one: the
    timer [r] has left the tree and is [set_in_tree false r] with one more fire. *)
Lemma wp_fire_single t now r (Q : unit -> world K -> Prop) w :
  single r = true -> clock_range now ->
  Q tt (set_tm t (fired now r) w) ->
  wp (let! sec := long_ (tv_sec now + NSEC) in upd_timer t (set_next (Timespec sec 0))) Q
    (set_tm t (set_fire_count (u32 (fire_count r + 1)) (set_in_tree false r)) w).
Proof.
  intros Hs Hn HQ. unfold clock_range, ts_norm, NSEC in Hn. wp_simpl. apply wp_long; [unfold NSEC; lia|].
  eapply wp_upd_timer; [apply lookup_insert_eq|]. rewrite set_tm_twice.
  unfold fired in HQ. by rewrite Hs in HQ.
Qed.

Lemma single_false r : single r = false -> 0 <= interval_ns r -> 0 < interval_ns r.
Proof. unfold single. intros [_ Hs%Z.eqb_neq]%orb_false_iff. lia. Qed.

Lemma fire_caught_up now r :
  single r = false ->
  caught_up now (set_fire_count (u32 (fire_count r + 1)) (set_in_tree false r)) =
    set_in_tree false (fired now r).
Proof.
  intros Hs. unfold caught_up, fired. rewrite Hs. unfold u32, elapsed. simpl.
  rewrite Zplus_mod_idemp_l. generalize ((ts_ns now - ts_ns (next r)) / interval_ns r). intros k.
  by replace (fire_count r + 1 + (k + 1 - 1)) with (fire_count r + (k + 1)) by lia.
Qed.

Lemma wp_fire_periodic q t now r (Q : unit -> world K -> Prop) w :
  is_Some (w_kqs w !! q) -> single r = false -> in_tree r = true -> timer_ok t r -> clock_range now ->
  ts_ns (next r) <= ts_ns now ->
  (forall v, tree_ok (<[t := v]> (timers w)) (tree_of w q)) -> t ∉ elements (tree_of w q) ->
  (forall tr', elements tr' ≡ₚ t :: elements (tree_of w q) ->
     tree_ok (<[t := fired now r]> (timers w)) tr' ->
     Q tt (set_tm t (fired now r) (with_tree q tr' w))) ->
  wp (catch_up t now ;;; timer_link q t) Q
    (set_tm t (set_fire_count (u32 (fire_count r + 1)) (set_in_tree false r)) w).
Proof.
  intros Hq Hs Hin Hk Hn Hle Hok Hnt HQ. wp_simpl. set (r1 := set_fire_count _ _).
  assert (timer_ok t r1) as Hk1 by (destruct Hk; split; [done..|simpl; apply Z.mod_pos_bound; lia|done]).
  apply (wp_catch_up t now r1); [apply lookup_insert_eq|simpl; apply single_false; [done|apply Hk]|done..|].
  unfold r1. rewrite (fire_caught_up now r Hs), set_tm_twice.
  assert (Hin' : set_in_tree true (set_in_tree false (fired now r)) = fired now r).
  { unfold fired. rewrite Hs. destruct r. simpl in *. by subst. }
  eapply wp_timer_link; [done|apply Hok|apply lookup_insert_eq|done| |].
  - pose proof (fired_ok now t r Hk Hn Hle) as []. by split.
  - intros tr' l1 l2. change (tree_of (set_tm t ?x ?w') q) with (tree_of w' q).
    rewrite Hin', with_tree_tm, set_tm_twice.
    change (timers (set_tm _ _ _)) with (<[t := set_in_tree false (fired now r)]> (timers w)).
    rewrite insert_insert_eq. intros He2 He3 Hok3. apply HQ; [|done].
    by rewrite He3, He2, Permutation_middle.
Qed.

Lemma wp_timer_fire q t l now r (Q : unit -> world K -> Prop) w :
  is_Some (w_kqs w !! q) -> tree_ok (timers w) (tree_of w q) -> timers w !! t = Some r ->
  elements (tree_of w q) = t :: l -> clock_range now -> ts_ns (next r) <= ts_ns now ->
  (forall tr', elements tr' ≡ₚ (if single r then l else t :: l) ->
     tree_ok (<[t := fired now r]> (timers w)) tr' ->
     Q tt (set_tm t (fired now r) (with_tree q tr' w))) ->
  wp (timer_fire q t now) Q w.
Proof.
  intros Hq Hok E He Hn Hle HQ.
  destruct (tt_timer _ _ Hok t) as (r' & Er & Hin & Hk); [rewrite He; set_solver|].
  assert (r' = r) as -> by congruence.
  pose proof (tree_NoDup _ _ Hok) as Hnd. rewrite He in Hnd. apply NoDup_cons in Hnd as [Hnt _].
  unfold timer_fire. wp_simpl. apply (wp_timer_unlink q t r [] l); [done..|].
  intros tr1 He1 Hok1. simpl in He1. rewrite <- He1 in Hnt. wp_simpl.
  eapply wp_upd_timer; [apply lookup_insert_eq|]. wp_simpl. rewrite set_tm_twice.
  eapply wp_get_timer; [apply lookup_insert_eq|]. simpl.
  change (oneshot r || absolute r || (interval_ns r =? 0)) with (single r).
  destruct (single r) eqn:Hs.
  - apply wp_fire_single; [done..|]. apply HQ; [by rewrite He1|]. by eapply tree_ok_other.
  - apply wp_fire_periodic; try done.
    + intros v. rewrite tree_of_with. by eapply tree_ok_other.
    + by rewrite tree_of_with.
    + rewrite tree_of_with. intros tr' He2 Hok2. rewrite with_tree_twice. apply HQ; [|done].
      by rewrite He2, He1.
Qed.

(** ** [posix_timer_check] *)

Definition with_timers (m : gmap ptr posix_timer) w : world K := set_w_px (set_px_timers m (w_px w)) w.

Lemma with_timers_step q t r tr tr' m w :
  set_tm t r (with_tree q tr' (with_timers m (with_tree q tr w))) =
  with_timers (<[t := r]> m) (with_tree q tr' w).
Proof.
  unfold set_tm, with_timers, with_tree. simpl.
  change (pkq (set_w_px (set_px_timers m ?x) ?w') q) with (pkq w' q).
  rewrite pkq_set. unfold set_pkq. simpl. by rewrite insert_insert_eq.
Qed.

Definition past now r : bool := negb (ts_lt now (next r)).

Lemma past_ns now t r : timer_ok t r -> clock_range now -> past now r = (ts_ns (next r) <=? ts_ns now).
Proof.
  intros Hk Hn. unfold past. rewrite ts_lt_ns by (apply Hn || apply Hk).
  destruct (Z.ltb_spec (ts_ns now) (ts_ns (next r))), (Z.leb_spec (ts_ns (next r)) (ts_ns now)); done || lia.
Qed.

Lemma fired_not_past now t r :
  timer_ok t r -> clock_range now -> past now r = true -> past now (fired now r) = false.
Proof.
  intros Hk Hn Hp. pose proof Hp as Hle. rewrite (past_ns now t r), Z.leb_le in Hle by done.
  rewrite (past_ns now t) by (by try apply fired_ok). apply Z.leb_gt.
  unfold fired. destruct (single r) eqn:Hs; simpl.
  - unfold clock_range, ts_norm, ts_ns, NSEC in *. simpl. lia.
  - rewrite (proj1 (ns_ts_ns _)). apply caught_up_next; [|done]. apply single_false; [done|apply Hk].
Qed.

(** A state of the loop: each timer of the tree is as before or has fired. *)
Record advanced now (m0 : gmap ptr posix_timer) tr0 (m : gmap ptr posix_timer) tr : Prop :=
  { ad_other : forall t, t ∉ elements tr0 -> m !! t = m0 !! t;
    ad_timer : forall t r0, t ∈ elements tr0 -> m0 !! t = Some r0 ->
      m !! t = Some r0 /\ t ∈ elements tr \/
      past now r0 = true /\ m !! t = Some (fired now r0) /\ (t ∈ elements tr <-> single r0 = false);
    ad_sub : forall t, t ∈ elements tr -> t ∈ elements tr0;
    ad_ok : tree_ok m tr }.

Definition expired now (m : gmap ptr posix_timer) : ptr -> bool :=
  fun t => match m !! t with Some r => past now r | None => false end.

Lemma advanced_refl now m tr : tree_ok m tr -> advanced now m tr m tr.
Proof. intros Hok. split; [done|auto|done|done]. Qed.

Lemma advanced_fire now m0 tr0 m tr tr' t l r :
  tree_ok m0 tr0 -> advanced now m0 tr0 m tr -> clock_range now -> elements tr = t :: l ->
  m !! t = Some r -> past now r = true -> tree_ok (<[t := fired now r]> m) tr' ->
  elements tr' ≡ₚ (if single r then l else t :: l) ->
  advanced now m0 tr0 (<[t := fired now r]> m) tr'.
Proof.
  intros Hok0 [Ho Ht Hs Hok] Hn He Er Hp Hok' Hpm.
  assert (Hin : t ∈ elements tr0) by (apply Hs; rewrite He; set_solver).
  pose proof (tree_NoDup _ _ Hok) as Hnd. rewrite He in Hnd. apply NoDup_cons in Hnd as [Hnl _].
  assert (Hr0 : m0 !! t = Some r).
  { destruct (tt_timer _ _ Hok0 _ Hin) as (r0 & E0 & _ & Hk0).
    destruct (Ht t r0 Hin E0) as [[E _]|(Hp0 & E & _)]; [congruence|].
    pose proof (fired_not_past now t r0 Hk0 Hn Hp0). congruence. }
  assert (Hmem : forall x, x <> t -> x ∈ elements tr' <-> x ∈ elements tr).
  { intros x Hx. rewrite Hpm, He. destruct (single r); set_solver. }
  split; [| | |done].
  - intros x Hx. rewrite lookup_insert_ne by congruence. by apply Ho.
  - intros x r0 Hx E0. destruct (decide (x = t)) as [->|Hne].
    + right. assert (r0 = r) as -> by congruence. rewrite lookup_insert_eq, Hpm.
      split_and!; [done..|]. destruct (single r); [|set_solver]. split; [intros ?; done|done].
    + rewrite lookup_insert_ne by done. rewrite Hmem by done. by apply Ht.
  - intros x Hx. destruct (decide (x = t)) as [->|Hne]; [done|]. apply Hs. by apply Hmem.
Qed.

(** Firing one leaves fewer that are due. *)
Lemma expired_fire now m tr tr' t l r :
  tree_ok m tr -> clock_range now -> elements tr = t :: l -> m !! t = Some r -> past now r = true ->
  elements tr' ≡ₚ (if single r then l else t :: l) ->
  S (length (List.filter (expired now (<[t := fired now r]> m)) (elements tr'))) =
    length (List.filter (expired now m) (elements tr)).
Proof.
  intros Hok Hn He Er Hp Hpm.
  destruct (tt_timer _ _ Hok t) as (r' & Er' & _ & Hk); [rewrite He; set_solver|].
  assert (r' = r) as -> by congruence.
  pose proof (tree_NoDup _ _ Hok) as Hnd. rewrite He in Hnd. apply NoDup_cons in Hnd as [Hnl _].
  assert (Hl : List.filter (expired now (<[t := fired now r]> m)) l = List.filter (expired now m) l).
  { apply filter_ext_in. intros x Hx%list_elem_of_In. unfold expired.
    rewrite lookup_insert_ne by congruence. done. }
  assert (Hf : expired now (<[t := fired now r]> m) t = false).
  { unfold expired. rewrite lookup_insert_eq. by eapply fired_not_past. }
  assert (Ht : expired now m t = true) by (unfold expired; by rewrite Er).
  rewrite He. simpl. rewrite Ht, <- Hl. simpl. f_equal.
  assert (Hp' : List.filter (expired now (<[t := fired now r]> m)) (elements tr') ≡ₚ
    List.filter (expired now (<[t := fired now r]> m)) (if single r then l else t :: l)).
  { by apply filter_Permutation_bool. }
  apply Permutation_length. rewrite Hp'. destruct (single r); [done|]. simpl. by rewrite Hf.
Qed.

(** The first timer of the tree has the earliest deadline. *)
Lemma head_earliest m tr t l r x rx :
  tree_ok m tr -> elements tr = t :: l -> m !! t = Some r -> x ∈ elements tr -> m !! x = Some rx ->
  ts_ns (next r) <= ts_ns (next rx).
Proof.
  intros Hok He Er Hx Ex. rewrite He in Hx. apply elem_of_cons in Hx as [->|Hx].
  { assert (rx = r) as -> by congruence. lia. }
  pose proof (proj1 (tt_wf _ _ Hok)) as Hs. unfold search_tree, keys in Hs. rewrite He in Hs.
  destruct Hs as [Hf _]. rewrite Forall_forall in Hf.
  specialize (Hf (timer_key m x) (list_elem_of_fmap_2 _ _ _ Hx)). unfold timer_key in Hf.
  rewrite Er, Ex in Hf.
  destruct (tt_timer _ _ Hok t) as (r1 & _ & _ & H1); [rewrite He; set_solver|].
  destruct (tt_timer _ _ Hok x) as (r2 & _ & _ & H2); [rewrite He; set_solver|].
  pose proof (tk_addr _ _ H1). pose proof (tk_addr _ _ H2). lia.
Qed.

Definition check_body q now (o : option ptr) : M (world K) (option ptr + unit) :=
  match o with
  | None => ret (inr tt)
  | Some t =>
      let! r := get_timer t in
      if ts_lt now (next r) then ret (inr tt)
      else
        timer_fire q t now ;;;
        let! k := get_pkq q in ret (inl (RB_MIN (kq_timers k)))
  end.

Definition due_count now m tr : nat := length (List.filter (expired now m) (elements tr)).

(** One round: the loop is left when no timer is due, or one of them fires. *)
Lemma check_round q now m0 tr0 w m tr (Q : option ptr + unit -> world K -> Prop) :
  is_Some (w_kqs w !! q) -> tree_ok m0 tr0 -> clock_range now -> advanced now m0 tr0 m tr ->
  ((forall t, t ∈ elements tr -> expired now m t = false) ->
     Q (inr tt) (with_timers m (with_tree q tr w))) ->
  (forall m' tr', advanced now m0 tr0 m' tr' -> S (due_count now m' tr') = due_count now m tr ->
     Q (inl (RB_MIN tr')) (with_timers m' (with_tree q tr' w))) ->
  wp (check_body q now (RB_MIN tr)) Q (with_timers m (with_tree q tr w)).
Proof.
  intros Hq Hok0 Hn Had Hexit Hnext. rewrite RB_MIN_head. pose proof (ad_ok _ _ _ _ _ Had) as Hok.
  destruct (elements tr) as [|t l] eqn:He.
  { unfold check_body. simpl. wp_simpl. apply Hexit. intros t Ht. by apply elem_of_nil in Ht. }
  rewrite <- He in Hexit.
  destruct (tt_timer _ _ Hok t) as (r & Er & _ & Hk); [rewrite He; set_solver|].
  change (head (t :: l)) with (Some t). unfold check_body. wp_simpl. eapply wp_get_timer; [exact Er|].
  destruct (ts_lt now (next r)) eqn:Hlt; wp_simpl.
  { apply Hexit. intros x Hx. destruct (tt_timer _ _ Hok x Hx) as (rx & Ex & _ & Hkx).
    unfold expired. rewrite Ex, (past_ns now x) by done. apply Z.leb_gt.
    pose proof (head_earliest _ _ _ _ _ _ _ Hok He Er Hx Ex).
    rewrite ts_lt_ns, Z.ltb_lt in Hlt by (apply Hn || apply Hk). lia. }
  assert (Hp : past now r = true) by (unfold past; by rewrite Hlt).
  assert (Htr : tree_of (with_timers m (with_tree q tr w)) q = tr).
  { change (tree_of (with_timers m ?x) q) with (tree_of x q). apply tree_of_with. }
  eapply wp_timer_fire; [done|by rewrite Htr|exact Er|by rewrite Htr|done| |].
  { rewrite (past_ns now t r), Z.leb_le in Hp by done. done. }
  intros tr' Hpm Hok'. rewrite with_timers_step. wp_simpl. apply wp_get_pkq; [done|]. wp_simpl.
  change (kq_timers (pkq (with_timers ?a (with_tree q tr' w)) q)) with (tree_of (with_tree q tr' w) q).
  rewrite tree_of_with. apply Hnext; [by eapply advanced_fire|]. by eapply expired_fire.
Qed.

Lemma check_loop_ok q now m0 tr0 w n : forall m tr (Q : unit -> world K -> Prop),
  is_Some (w_kqs w !! q) -> tree_ok m0 tr0 -> clock_range now -> advanced now m0 tr0 m tr ->
  (due_count now m tr <= n)%nat ->
  (forall m' tr', advanced now m0 tr0 m' tr' -> (forall t, t ∈ elements tr' -> expired now m' t = false) ->
     Q tt (with_timers m' (with_tree q tr' w))) ->
  wp (loop (S n) (check_body q now) (RB_MIN tr)) Q (with_timers m (with_tree q tr w)).
Proof.
  induction n as [|n IH]; intros m tr Q Hq Hok0 Hn Had Hc HQ; cbn [loop]; wp_simpl;
    (apply (check_round q now m0 tr0); [done..|intros Hd; wp_simpl; by apply HQ|]);
    intros m' tr' Had' Hc'; [lia|]. apply IH; [done..|lia|done].
Qed.

Lemma with_tree_id q w :
  is_Some (px_kqs (w_px w) !! q) -> with_timers (timers w) (with_tree q (tree_of w q) w) = w.
Proof.
  intros [k E]. destruct w as [? ? ? ? ? ? ? ? ? ? ? ? ? ? ? ? ? ? ? ? ? ? ? ? x ?]. simpl in E.
  unfold with_timers, with_tree, set_pkq, timers, tree_of, pkq. simpl. rewrite E. simpl.
  rewrite insert_id; [by destruct x|]. rewrite E. by destruct k.
Qed.

Lemma with_timers_os m q tr k w :
  with_timers m (with_tree q tr (set_w_os k w)) = set_w_os k (with_timers m (with_tree q tr w)).
Proof. done. Qed.

(** The timers after a check at [now]. *)
Definition expire now (due : list ptr) (m : gmap ptr posix_timer) (t : ptr) : option posix_timer :=
  (fun r => if bool_decide (t ∈ due) && past now r then fired now r else r) <$> m !! t.

Lemma advanced_done now m0 tr0 m tr :
  tree_ok m0 tr0 -> clock_range now -> advanced now m0 tr0 m tr ->
  (forall t, t ∈ elements tr -> expired now m t = false) ->
  forall t, m !! t = expire now (elements tr0) m0 t.
Proof.
  intros Hok0 Hn [Ho Ht Hs Hok] Hd t. unfold expire. destruct (decide (t ∈ elements tr0)) as [Hin|Hni].
  2: { rewrite Ho, bool_decide_eq_false_2 by done. simpl. by destruct (m0 !! t). }
  rewrite bool_decide_eq_true_2 by done. simpl.
  destruct (tt_timer _ _ Hok0 t Hin) as (r0 & E0 & _ & Hk0). rewrite E0. simpl.
  destruct (Ht t r0 Hin E0) as [[E Hin']|(Hp & E & _)]; [|by rewrite Hp].
  specialize (Hd _ Hin'). unfold expired in Hd. rewrite E in Hd. by rewrite Hd.
Qed.

Lemma advanced_in_tree now m0 tr0 m tr t :
  tree_ok m0 tr0 -> advanced now m0 tr0 m tr ->
  t ∈ elements tr <-> t ∈ elements tr0 /\ exists r, m !! t = Some r /\ in_tree r = true.
Proof.
  intros Hok0 [Ho Ht Hs Hok]. split.
  - intros Hin. split; [by apply Hs|]. destruct (tt_timer _ _ Hok t Hin) as (r & ? & ? & _). eauto.
  - intros (Hin & r & E & Hr). destruct (tt_timer _ _ Hok0 t Hin) as (r0 & E0 & _).
    destruct (Ht t r0 Hin E0) as [[_ ?]|(_ & E' & Hiff)]; [done|]. apply Hiff.
    rewrite E in E'. simplify_eq. unfold fired in Hr. by destruct (single r0).
Qed.

(** What a check at [now] leaves: the tree again holds exactly the linked timers,
    and none of them is due. *)
Definition check_result now q w w' : Prop :=
  w' = set_w_os (w_os w') (with_timers (timers w') (with_tree q (tree_of w' q) w)) /\
  (forall t, timers w' !! t = expire now (elements (tree_of w q)) (timers w) t) /\
  tree_ok (timers w') (tree_of w' q) /\
  forall t, t ∈ elements (tree_of w' q) <-> t ∈ elements (tree_of w q) /\
    exists r, timers w' !! t = Some r /\ in_tree r = true /\ ts_lt now (next r) = true.

Lemma check_result_intro now q w k m tr :
  tree_ok (timers w) (tree_of w q) -> clock_range now ->
  advanced now (timers w) (tree_of w q) m tr -> (forall t, t ∈ elements tr -> expired now m t = false) ->
  check_result now q w (with_timers m (with_tree q tr (set_w_os k w))).
Proof.
  intros Hok Hn Had Hd. unfold check_result. rewrite with_timers_os.
  change (timers (set_w_os k (with_timers m ?x))) with m.
  change (tree_of (set_w_os k (with_timers m ?x)) q) with (tree_of x q). rewrite tree_of_with.
  split_and!; [done|by eapply advanced_done|apply Had|]. intros t.
  rewrite (advanced_in_tree now _ _ _ _ t Hok Had). split.
  - intros (Hin & r & E & Hr). split; [done|]. exists r. split_and!; [done..|].
    assert (Ht : t ∈ elements tr) by (apply (advanced_in_tree now _ _ _ _ t Hok Had); eauto).
    specialize (Hd _ Ht). unfold expired, past in Hd. rewrite E in Hd. by apply negb_false_iff in Hd.
  - intros (Hin & r & E & Hr & _). eauto.
Qed.

(** C23: one pass over the expired timers of a kqueue at time [now] does to each timer
    of its tree what the closed form [fired] says: a timer whose deadline has passed
    counts every deadline up to now if it is periodic, and one otherwise, and moves to
    the first deadline after now or leaves the tree; every other timer, and everything
    else, is left alone.  The tree is then again ordered, holds exactly the timers
    that are marked as linked, and none of them is due.  The loops terminate: their
    fuel is the number of timers and of elapsed intervals. *)
Theorem timer_check_fires q now k w :
  is_Some (w_kqs w !! q) -> is_Some (px_kqs (w_px w) !! q) -> tree_ok (timers w) (tree_of w q) ->
  os_call (SysClockGettime CLOCK_MONOTONIC) (w_os w) = (SOk now, k) -> clock_range now ->
  wp (posix_timer_check q) (fun _ w' => check_result now q w w') w.
Proof.
  intros Hq Hp Hok Hclk Hn. unfold posix_timer_check. wp_simpl. apply wp_get_pkq; [done|].
  change (kq_timers (pkq w q)) with (tree_of w q).
  destruct (RB_MIN (tree_of w q)) as [t0|] eqn:Hmin.
  - unfold ts_now, ts_clock. wp_simpl. apply wp_sys; [|intros; congruence].
    intros now' k' Hk'. assert (now' = now /\ k' = k) as [-> ->] by (split; congruence). wp_simpl.
    rewrite <- Hmin, <- (with_tree_id q (set_w_os k w)) by done.
    apply (check_loop_ok q now (timers w) (tree_of w q)); [done..|by apply advanced_refl| |].
    + apply filter_length_le.
    + intros m' tr' Had Hd. by apply check_result_intro.
  - wp_simpl. rewrite RB_MIN_head in Hmin.
    pose proof (check_result_intro now q w (w_os w) _ _ Hok Hn (advanced_refl now _ _ Hok)) as Hf.
    rewrite with_timers_os, with_tree_id in Hf by done.
    replace (set_w_os (w_os w) w) with w in Hf by (by destruct w). apply Hf.
    intros t Ht. destruct (elements _); [by apply elem_of_nil in Ht|done].
Qed.

(** ** The deadline of the wait *)

(** The time from [now] until the deadline of a timer. *)
Definition remaining now r : Z := Z.max 0 (ts_ns (next r) - ts_ns now).

Lemma deadline_delta now r (Q : Z -> world K -> Prop) w :
  ts_norm now -> ts_norm (next r) -> ts_ns now <= ts_ns (next r) < ts_ns now + 2 ^ 63 - NSEC ->
  Q (remaining now r) w ->
  wp (let! s := long_ (tv_sec (next r) - tv_sec now) in
      let! s := long_ (s * NSEC) in
      let! n := long_ (tv_nsec (next r) - tv_nsec now) in
      long_ (s + n)) Q w.
Proof.
  intros Hn Hr Hle HQ. unfold remaining, ts_ns, ts_norm, NSEC in *.
  wp_simpl. apply wp_long; [lia|]. wp_simpl. apply wp_long; [lia|]. wp_simpl.
  apply wp_long; [lia|]. apply wp_long; [lia|].
  by replace (_ + _) with (Z.max 0 (tv_sec (next r) * 1000000000 + tv_nsec (next r) -
    (tv_sec now * 1000000000 + tv_nsec now))) by lia.
Qed.

(** [ns] is -1 when no timer is linked, and otherwise the smallest remaining time. *)
Definition earliest now q w (ns : Z) : Prop :=
  (elements (tree_of w q) = [] -> ns = -1) /\
  (forall t r, t ∈ elements (tree_of w q) -> timers w !! t = Some r -> 0 <= ns <= remaining now r) /\
  (elements (tree_of w q) <> [] -> exists t r, t ∈ elements (tree_of w q) /\
     timers w !! t = Some r /\ ns = remaining now r).

Lemma earliest_head now q w t l r :
  tree_ok (timers w) (tree_of w q) -> elements (tree_of w q) = t :: l -> timers w !! t = Some r ->
  earliest now q w (remaining now r).
Proof.
  intros Hok He Er. split_and!; [by rewrite He| |].
  - intros x rx Hx Ex. unfold remaining. pose proof (head_earliest _ _ _ _ _ _ _ Hok He Er Hx Ex). lia.
  - intros _. exists t, r. split_and!; [rewrite He; set_solver|done..].
Qed.

(** C25: the time the wait may sleep for the timers is -1 when no timer is linked, and
    otherwise the smallest of the times left until a deadline, 0 when one has passed:
    the wait never sleeps past a deadline and never wakes up before the first one.  This
    is for a clock that is read, and for deadlines less than 2^63 ns less one second
    (292 years) away: the code takes the difference in seconds first, so that a
    NOTE_NSECONDS timer within the last second below 2^63 overflows a long. *)
Theorem timer_min_deadline q now k w :
  is_Some (w_kqs w !! q) -> tree_ok (timers w) (tree_of w q) ->
  os_call (SysClockGettime CLOCK_MONOTONIC) (w_os w) = (SOk now, k) -> clock_range now ->
  (forall t r, t ∈ elements (tree_of w q) -> timers w !! t = Some r -> ts_ns (next r) < ts_ns now + 2 ^ 63 - NSEC) ->
  wp (posix_timer_min_deadline_ns q) (fun ns w' => w' = set_w_os (w_os w') w /\ earliest now q w ns) w.
Proof.
  intros Hq Hok Hclk Hn Hnear. unfold posix_timer_min_deadline_ns. wp_simpl. apply wp_get_pkq; [done|].
  change (kq_timers (pkq w q)) with (tree_of w q). rewrite RB_MIN_head.
  destruct (elements (tree_of w q)) as [|t l] eqn:He.
  { simpl. wp_simpl. split; [by destruct w|]. split_and!; rewrite ?He; [done| |done].
    intros t r Ht. by apply elem_of_nil in Ht. }
  change (head (t :: l)) with (Some t). rewrite <- He in Hnear.
  assert (Hin : t ∈ elements (tree_of w q)) by (rewrite He; set_solver).
  destruct (tt_timer _ _ Hok t Hin) as (r & Er & _ & Hk).
  pose proof (earliest_head now q w t l r Hok He Er) as Hfin.
  unfold ts_now, ts_clock. wp_simpl. apply wp_sys; [|intros; congruence].
  intros now' k' Hk'. assert (now' = now /\ k' = k) as [-> ->] by (split; congruence). wp_simpl.
  eapply wp_get_timer; [exact Er|]. rewrite ts_lt_ns by (apply Hn || apply Hk).
  destruct (Z.ltb_spec (ts_ns (next r)) (ts_ns now)) as [Hlt|Hge].
  - wp_simpl. split; [done|]. by replace (remaining now r) with 0 in Hfin by (unfold remaining; lia).
  - apply deadline_delta; [apply Hn|apply Hk|split; [done|by eapply Hnear]|done].
Qed.
End Rules.
