(* ===== verification/PosixTimerOps.v ===== *)
(** * The callbacks of the POSIX timers

    [timers_ok] ties the heap of timers, the trees of the kqueues and the knotes
    together: every timer belongs to one knote, which points back to it, and is in the
    tree of that knote's kqueue exactly when it is marked as linked.  Each callback of
    src/posix/timer.c keeps it. *)

From Stdlib Require Import ZArith Lia Bool.
From stdpp Require Import base list gmap.
From S2P Require Import Prelude RBTree Event Map State Ops Knote Filter PosixPlatform PosixTimer PosixTimerSpec.

Section Callbacks.
Context {K : Type} `{OS K} `{FilterList K}.
Implicit Types (w : world K) (p q t : ptr) (tr : tree ptr) (r : posix_timer) (f : filt_ref).

(** ** The invariant *)

Definition kq_of w p : option ptr := w_knotes w !! p ≫= kn_kq.
Definition timer_of w p : option ptr := kn_timer (pkn w p).

Record timers_ok w : Prop :=
  { to_tree : forall q, is_Some (w_kqs w !! q) -> tree_ok (timers w) (tree_of w q);
    to_timer : forall t r, timers w !! t = Some r ->
      timer_ok t r /\ (t < w_next w)%positive /\ timer_of w (pt_kn r) = Some t;
    to_linked : forall t r, timers w !! t = Some r -> exists q, kq_of w (pt_kn r) = Some q /\
      is_Some (w_kqs w !! q) /\ (in_tree r = true -> t ∈ elements (tree_of w q));
    to_owner : forall q t r, is_Some (w_kqs w !! q) -> t ∈ elements (tree_of w q) ->
      timers w !! t = Some r -> kq_of w (pt_kn r) = Some q;
    to_knote : forall p t, timer_of w p = Some t -> exists r, timers w !! t = Some r /\ pt_kn r = p }.

(** Two states that differ in timers and trees only. *)
Record same_knotes w w' : Prop :=
  { sk_kqs : w_kqs w' = w_kqs w;
    sk_knotes : w_knotes w' = w_knotes w;
    sk_pkns : px_knotes (w_px w') = px_knotes (w_px w);
    sk_next : w_next w' = w_next w }.

Lemma same_kq_of w w' p : same_knotes w w' -> kq_of w' p = kq_of w p.
Proof. intros Hs. unfold kq_of. by rewrite (sk_knotes _ _ Hs). Qed.
Lemma same_timer_of w w' p : same_knotes w w' -> timer_of w' p = timer_of w p.
Proof. intros Hs. unfold timer_of, pkn. by rewrite (sk_pkns _ _ Hs). Qed.

(** A change of one timer, with its tree. *)
Lemma timers_ok_put w w' q t r r' :
  timers_ok w -> timers w !! t = Some r -> pt_kn r' = pt_kn r -> kq_of w (pt_kn r) = Some q ->
  timer_ok t r' -> same_knotes w w' -> timers w' = <[t := r']> (timers w) ->
  (forall q', q' <> q -> tree_of w' q' = tree_of w q') -> tree_ok (timers w') (tree_of w' q) ->
  (forall x, x <> t -> x ∈ elements (tree_of w' q) <-> x ∈ elements (tree_of w q)) ->
  (in_tree r' = true -> t ∈ elements (tree_of w' q)) -> timers_ok w'.
Proof.
  intros [Ht Htm Hl Ho Hk] Et Hp Hq Hok Hs Em Htr Htq Hel Hin.
  assert (Hother : forall q', is_Some (w_kqs w !! q') -> q' <> q -> t ∉ elements (tree_of w q')).
  { intros q' Hq' Hne Hx. specialize (Ho q' t r Hq' Hx Et). congruence. }
  split.
  - intros q' Hq'. rewrite (sk_kqs _ _ Hs) in Hq'. destruct (decide (q' = q)) as [->|Hne]; [done|].
    rewrite Htr, Em by done. apply (tree_ok_ext (timers w)); [|by apply Ht].
    intros x Hx. rewrite lookup_insert_ne; [done|]. intros <-. by apply (Hother q').
  - intros x rx. rewrite Em, (sk_next _ _ Hs), (same_timer_of w w') by done.
    intros [[<- <-]|[Hne E]]%lookup_insert_Some; [|by apply Htm].
    destruct (Htm t r Et) as (_ & ? & ?). by rewrite Hp.
  - intros x rx. rewrite Em, (same_kq_of w w'), (sk_kqs _ _ Hs) by done.
    intros [[<- <-]|[Hne E]]%lookup_insert_Some.
    + rewrite Hp. destruct (Hl t r Et) as (q' & Hq' & Hlive & _). exists q'. by simplify_eq.
    + destruct (Hl x rx E) as (q' & Hq' & Hlive & Hx). exists q'. split_and!; [done..|]. intros Hi.
      destruct (decide (q' = q)) as [->|]; [|rewrite Htr by done; auto]. apply Hel; auto.
  - intros q' x rx. rewrite Em, (same_kq_of w w'), (sk_kqs _ _ Hs) by done. intros Hq' Hx.
    intros [[<- <-]|[Hne E]]%lookup_insert_Some.
    + rewrite Hp. destruct (decide (q' = q)) as [->|]; [done|]. rewrite Htr in Hx by done. by apply (Ho q' t r).
    + apply (Ho q' x); [done| |done]. destruct (decide (q' = q)) as [->|]; [by apply Hel|by rewrite <- Htr].
  - intros x y. rewrite Em, (same_timer_of w w') by done. intros (ry & E & <-)%Hk.
    destruct (decide (y = t)) as [->|Hne].
    + exists r'. rewrite lookup_insert_eq. split; [done|]. simplify_eq. done.
    + exists ry. by rewrite lookup_insert_ne.
Qed.

(** The state changes that the invariant does not see. *)
Lemma timers_ok_frame w w' :
  timers_ok w -> timers w' = timers w -> (forall q, tree_of w' q = tree_of w q) -> w_kqs w' = w_kqs w ->
  (forall p, kq_of w' p = kq_of w p) -> (forall p, timer_of w' p = timer_of w p) ->
  (w_next w <= w_next w')%positive -> timers_ok w'.
Proof.
  intros [Ht Htm Hl Ho Hk] Em Etr Eq Ekq Etm Hn. split.
  - intros q. rewrite Eq, Em, Etr. apply Ht.
  - intros t r. rewrite Em, Etm. intros (A & B & C)%Htm. split_and!; [done|lia|done].
  - intros t r. rewrite Em, Ekq. intros (q & A & B & C)%Hl. exists q. by rewrite Eq, Etr.
  - intros q t r. rewrite Eq, Em, Ekq, Etr. apply Ho.
  - intros p t. rewrite Em, Etm. apply Hk.
Qed.
Lemma timers_ok_new w w' t r p q :
  timers_ok w -> t = w_next w -> pt_kn r = p -> in_tree r = false -> timer_ok t r -> timer_of w p = None ->
  kq_of w p = Some q -> is_Some (w_kqs w !! q) ->
  timers w' = <[t := r]> (timers w) -> (forall q, tree_of w' q = tree_of w q) -> w_kqs w' = w_kqs w ->
  (forall x, kq_of w' x = kq_of w x) -> timer_of w' p = Some t ->
  (forall x, x <> p -> timer_of w' x = timer_of w x) -> (w_next w < w_next w')%positive -> timers_ok w'.
Proof.
  intros [Ht Htm Hl Ho Hk] -> Hp Hin Hok Hnone Hq Hlive Em Etr Eq Ekq Etp Etm Hn.
  assert (Hfresh : timers w !! w_next w = None).
  { destruct (timers w !! w_next w) eqn:E; [|done]. apply Htm in E as (_ & ? & _). lia. }
  assert (Hown : forall t rt, timers w !! t = Some rt -> pt_kn rt <> p).
  { intros t rt (_ & _ & Hx)%Htm Hpx. rewrite Hpx in Hx. congruence. }
  assert (Hout : forall q', is_Some (w_kqs w !! q') -> w_next w ∉ elements (tree_of w q')).
  { intros q' Hq' Hx. destruct (tt_timer _ _ (Ht q' Hq') _ Hx) as (rx & Ex & _). congruence. }
  split.
  - intros q'. rewrite Eq, Em, Etr. intros Hq'. apply (tree_ok_ext (timers w)); [|by apply Ht].
    intros x Hx. rewrite lookup_insert_ne; [done|]. intros <-. by apply (Hout q').
  - intros x rx. rewrite Em. intros [[<- <-]|[Hne E]]%lookup_insert_Some; [rewrite Hp; done|].
    destruct (Htm x rx E) as (A & B & C). split_and!; [done|lia|]. rewrite Etm; [done|by eapply Hown].
  - intros x rx. rewrite Em, Ekq, Eq. intros [[<- <-]|[Hne E]]%lookup_insert_Some.
    + exists q. rewrite Hp, Hin. done.
    + destruct (Hl x rx E) as (q' & ?). exists q'. by rewrite Etr.
  - intros q' x rx. rewrite Eq, Em, Ekq, Etr. intros Hq' Hx [[<- <-]|[Hne E]]%lookup_insert_Some.
    + by apply Hout in Hx.
    + by apply (Ho q' x).
  - intros x y. rewrite Em. destruct (decide (x = p)) as [->|Hne].
    + rewrite Etp. intros [= <-]. exists r. by rewrite lookup_insert_eq.
    + rewrite Etm by done. intros (ry & E & <-)%Hk. exists ry. rewrite lookup_insert_ne; [done|]. congruence.
Qed.

Lemma timers_ok_drop w w' t r p :
  timers_ok w -> timers w !! t = Some r -> pt_kn r = p -> in_tree r = false ->
  timers w' = delete t (timers w) -> (forall q, tree_of w' q = tree_of w q) -> w_kqs w' = w_kqs w ->
  (forall x, kq_of w' x = kq_of w x) -> timer_of w' p = None ->
  (forall x, x <> p -> timer_of w' x = timer_of w x) -> w_next w' = w_next w -> timers_ok w'.
Proof.
  intros [Ht Htm Hl Ho Hk] E Hp Hin Em Etr Eq Ekq Etp Etm Hn.
  assert (Hown : forall x rx, timers w !! x = Some rx -> x <> t -> pt_kn rx <> p).
  { intros x rx (_ & _ & Hx)%Htm Hne Hpx. rewrite Hpx in Hx. apply Htm in E as (_ & _ & Ht'). congruence. }
  assert (Hout : forall q', is_Some (w_kqs w !! q') -> t ∉ elements (tree_of w q')).
  { intros q' Hq' Hx. destruct (tt_timer _ _ (Ht q' Hq') _ Hx) as (rx & Ex & ? & _). congruence. }
  split.
  - intros q'. rewrite Eq, Em, Etr. intros Hq'. apply (tree_ok_ext (timers w)); [|by apply Ht].
    intros x Hx. rewrite lookup_delete_ne; [done|]. intros <-. by apply (Hout q').
  - intros x rx. rewrite Em, Hn. intros [Hne Ex]%lookup_delete_Some. destruct (Htm x rx Ex) as (A & B & C).
    split_and!; [done..|]. rewrite Etm; [done|eapply Hown; [done|congruence]].
  - intros x rx. rewrite Em, Ekq, Eq. intros [Hne Ex]%lookup_delete_Some.
    destruct (Hl x rx Ex) as (q' & ?). exists q'. by rewrite Etr.
  - intros q' x rx. rewrite Eq, Em, Ekq, Etr. intros Hq' Hx [Hne Ex]%lookup_delete_Some. by apply (Ho q' x).
  - intros x y. rewrite Em. destruct (decide (x = p)) as [->|Hne]; [by rewrite Etp|].
    rewrite Etm by done. intros (ry & Ey & <-)%Hk. exists ry. rewrite lookup_delete_ne; [done|]. congruence.
Qed.

(** ** Linking and unlinking *)

Lemma tree_of_with_ne q q' tr w : q' <> q -> tree_of (with_tree q tr w) q' = tree_of w q'.
Proof. intros Hne. unfold tree_of, with_tree. by rewrite pkq_set_ne. Qed.

Lemma timer_link_ok q t r (Q : unit -> world K -> Prop) w :
  timers_ok w -> is_Some (w_kqs w !! q) -> timers w !! t = Some r -> in_tree r = false ->
  kq_of w (pt_kn r) = Some q ->
  (forall w', timers_ok w' -> same_knotes w w' ->
     timers w' = <[t := set_in_tree true r]> (timers w) -> Q tt w') ->
  wp (timer_link q t) Q w.
Proof.
  intros Hw Hq Et Hin Ho HQ. destruct (to_timer _ Hw t r Et) as (Hok & _).
  eapply wp_timer_link; [done|by apply Hw|exact Et|done|done|]. intros tr' l1 l2 He He' Htr.
  set (w' := set_tm _ _ _).
  assert (Htq : tree_of w' q = tr') by apply (tree_of_with q tr' w).
  apply HQ; [|done|done].
  apply (timers_ok_put w w' q t r (set_in_tree true r)); try done; rewrite ?Htq; try done.
  - by destruct Hok.
  - intros q' Hne. by apply (tree_of_with_ne q q' tr' w).
  - intros x Hx. rewrite He, He'. set_solver.
  - intros _. rewrite He'. set_solver.
Qed.

Lemma timer_unlink_ok q t r (Q : unit -> world K -> Prop) w :
  timers_ok w -> is_Some (w_kqs w !! q) -> timers w !! t = Some r -> kq_of w (pt_kn r) = Some q ->
  (forall w', timers_ok w' -> same_knotes w w' ->
     timers w' = <[t := set_in_tree false r]> (timers w) -> Q tt w') ->
  wp (timer_unlink q t) Q w.
Proof.
  intros Hw Hq Et Ho HQ. destruct (to_timer _ Hw t r Et) as (Hok & _).
  destruct (in_tree r) eqn:Hin.
  2: { unfold timer_unlink. wp_simpl. eapply wp_get_timer; [exact Et|]. rewrite Hin. wp_simpl.
       apply HQ; [done|done|]. rewrite insert_id; [done|]. rewrite Et. f_equal. destruct r; simpl in *. by rewrite Hin. }
  destruct (to_linked _ Hw t r Et) as (q' & Hq' & _ & Hx). assert (q' = q) as -> by congruence.
  pose proof (Hx Hin) as (l1 & l2 & He)%list_elem_of_split.
  pose proof (tree_NoDup _ _ (to_tree _ Hw q Hq)) as Hnd. rewrite He in Hnd.
  eapply wp_timer_unlink; [done|by apply Hw|exact Et|exact He|]. intros tr' He' Htr.
  set (w' := set_tm _ _ _).
  assert (Htq : tree_of w' q = tr') by apply (tree_of_with q tr' w).
  apply HQ; [|done|done].
  apply (timers_ok_put w w' q t r (set_in_tree false r)); try done; rewrite ?Htq; try done.
  - by destruct Hok.
  - intros q' Hne. by apply (tree_of_with_ne q q' tr' w).
  - intros x Hne. rewrite He, He'. set_solver.
Qed.

(** ** Arming a timer *)

(** The time of a change in nanoseconds, in the unit its flags name. *)
Definition data_ns (k : kevent) : Z :=
  if has (fflags k) NOTE_NSECONDS then data k
  else if has (fflags k) NOTE_USECONDS then data k * 1000
  else if has (fflags k) NOTE_SECONDS then data k * NSEC
  else data k * 1000000.
(** The times the arithmetic stands: a relative time that is negative, which is refused,
    or whose nanoseconds fit a long (292 years), and an absolute time that fits a long and
    is not 146 years or more before the epoch. *)
Definition data_fits (k : kevent) : Prop :=
  has (fflags k) NOTE_ABSOLUTE = false /\ data k < 0 \/ - 2 ^ 62 < data_ns k < 2 ^ 63.

Definition clock_small (now : timespec) : Prop := ts_norm now /\ 0 <= tv_sec now < 2 ^ 32.
Definition reading (clk : Z) (now : timespec) : Prop :=
  clock_small now /\ exists k k', os_call (SysClockGettime clk) k = (SOk now, k').
Definition clock_works : Prop :=
  forall clk k, exists now k', os_call (SysClockGettime clk) k = (SOk now, k') /\ clock_small now.

Lemma clock_small_range now : clock_small now -> clock_range now.
Proof. intros [Hn Hs]. split; [done|lia]. Qed.

Lemma wp_ts_clock clk (Q : timespec -> world K -> Prop) w :
  clock_works -> (forall now k, reading clk now -> Q now (set_w_os k w)) -> wp (ts_clock clk) Q w.
Proof.
  intros Hc HQ. destruct (Hc clk (w_os w)) as (now & k & E & Hs). unfold ts_clock. wp_simpl.
  apply wp_sys; [|intros; congruence]. intros now' k' E'. assert (now' = now) as -> by congruence. wp_simpl.
  apply HQ. split; [done|]. eauto.
Qed.

Lemma wp_data_to_ns k (Q : Z -> world K -> Prop) w :
  - 2 ^ 62 < data_ns k < 2 ^ 63 -> Q (data_ns k) w -> wp (timer_data_to_ns (data k) (fflags k)) Q w.
Proof.
  unfold data_ns, timer_data_to_ns, NSEC.
  repeat case_match; intros Hf HQ; wp_simpl; done || (apply wp_long; [lia|done]).
Qed.

(** Beyond, the product overflows, which C leaves undefined. *)
Lemma data_to_ns_overflows k w :
  data k < 2 ^ 63 <= data_ns k -> timer_data_to_ns (data k) (fflags k) w = Fault SignedOverflow.
Proof.
  unfold data_ns, timer_data_to_ns, long_, NSEC. intros Hf.
  repeat case_match; try lia; try done; exfalso; lia.
Qed.

Lemma wp_abs_delta a rt (Q : Z -> world K -> Prop) w :
  - 2 ^ 62 < a < 2 ^ 63 -> clock_small rt -> Q (a - ts_ns rt) w -> wp (abs_delta a rt) Q w.
Proof.
  intros Ha [Hn Hs] HQ. unfold abs_delta, ts_ns, ts_norm, NSEC in *.
  pose proof (Z.quot_rem' a 1000000000) as Hqr. pose proof (Z.rem_bound_abs a 1000000000) as Hrb.
  assert (Hrp : 0 <= a -> 0 <= Z.rem a 1000000000) by (intros; apply Z.rem_nonneg; lia).
  wp_simpl. apply wp_long; [lia|]. wp_simpl. apply wp_long; [lia|]. wp_simpl. apply wp_long; [lia|].
  apply wp_long; [lia|]. by replace (_ + _) with (a - (tv_sec rt * 1000000000 + tv_nsec rt)) by lia.
Qed.

(** What a timer set from the event [k] is. *)
Definition armed (k : kevent) r : Prop :=
  oneshot r = has (flags k) EV_ONESHOT /\ fire_count r = 0 /\
  exists now, reading CLOCK_MONOTONIC now /\
    if has (fflags k) NOTE_ABSOLUTE then
      absolute r = true /\ interval_ns r = 0 /\ exists rt, reading CLOCK_REALTIME rt /\
        next r = ns_ts (ts_ns now + Z.max 0 (data_ns k - ts_ns rt))
    else
      absolute r = false /\ interval_ns r = (if oneshot r then 0 else Z.max 1 (data_ns k)) /\
        next r = ns_ts (ts_ns now + Z.max 1 (data_ns k)).

Lemma deadline_range now d : clock_small now -> 0 <= d < 2 ^ 63 -> ts_range (ns_ts (ts_ns now + d)).
Proof.
  intros Hc Hd. destruct (ns_ts_ns (ts_ns now + d)) as [Hv Hn].
  apply (range_le _ now); [done| | |by apply clock_small_range]; rewrite Hv; [|lia].
  destruct Hc as [H1 H2]. unfold ts_norm, ts_ns, NSEC in *. lia.
Qed.

(** Only the kernel, errno and the allocator have moved. *)
Definition env_only w w' : Prop :=
  exists k e n, w' = set_w_errno e (set_w_next n (set_w_os k w)) /\ (w_next w <= n)%positive.

Lemma wp_timer_alloc p kn (Q : option ptr -> world K -> Prop) w :
  clock_works -> w_knotes w !! p = Some kn -> data_fits (kev kn) -> Zpos (w_next w) < 2 ^ 64 ->
  (forall w', env_only w w' -> Q None w') ->
  (forall k r, pt_kn r = p -> in_tree r = false -> armed (kev kn) r -> timer_ok (w_next w) r ->
     Q (Some (w_next w)) (set_tm (w_next w) r (set_w_next (Pos.succ (w_next w)) (set_w_os k w)))) ->
  wp (timer_alloc p) Q w.
Proof.
  intros Hc E Hf Ha Hnone Hsome. unfold timer_alloc. wp_simpl. apply wp_alloc; [intros k0|intros e k0]; wp_simpl.
  2: { apply Hnone. exists k0, e, (w_next w). split; [|lia]. by destruct w. }
  eapply wp_get_kn; [exact E|]. destruct (has (fflags (kev kn)) NOTE_ABSOLUTE) eqn:Habs.
  - destruct Hf as [[? _]|Hf]; [congruence|].
    wp_simpl. apply wp_data_to_ns; [done|]. wp_simpl. apply wp_ts_clock; [done|]. intros rt k1 Hrt. wp_simpl.
    apply wp_ts_clock; [done|]. intros now k2 Hnow. wp_simpl. apply wp_abs_delta; [done|apply Hrt|]. wp_simpl.
    replace (if _ <? 0 then 0 else _) with (Z.max 0 (data_ns (kev kn) - ts_ns rt)).
    2: { destruct (Z.ltb_spec (data_ns (kev kn) - ts_ns rt) 0); lia. }
    assert (Hd : 0 <= Z.max 0 (data_ns (kev kn) - ts_ns rt) < 2 ^ 63).
    { destruct Hrt as [[Hn Hs] _]. unfold ts_norm, ts_ns, NSEC in *. lia. }
    apply wp_ts_add_ns; [|done|].
    { destruct Hnow as [[? ?] _]. split; [done|lia]. }
    unfold put_timer, upd_px. wp_simpl. apply (Hsome k2 (PosixTimer _ _ _ _ _ _ _)); [done..| |].
    + split_and!; [done..|]. exists now. rewrite Habs. simpl. split_and!; [done..|]. eauto.
    + split; simpl; [|lia..|done]. apply deadline_range; [apply Hnow|done].
  - destruct (Z.ltb_spec (data (kev kn)) 0) as [Hneg|Hpos].
    { wp_simpl. apply Hnone. eexists _, _, _. split; [done|]. simpl. lia. }
    destruct Hf as [[_ ?]|Hf]; [lia|].
    wp_simpl. apply wp_data_to_ns; [done|]. wp_simpl. apply wp_ts_clock; [done|]. intros now k2 Hnow. wp_simpl.
    replace (if _ <? 1 then 1 else _) with (Z.max 1 (data_ns (kev kn))).
    2: { destruct (Z.ltb_spec (data_ns (kev kn)) 1); lia. }
    assert (Hd : 0 <= Z.max 1 (data_ns (kev kn)) < 2 ^ 63) by lia.
    apply wp_ts_add_ns; [|done|].
    { destruct Hnow as [[? ?] _]. split; [done|lia]. }
    unfold put_timer, upd_px. wp_simpl. apply (Hsome k2 (PosixTimer _ _ _ _ _ _ _)); [done..| |].
    + split_and!; [done..|]. exists now. rewrite Habs. done.
    + split; simpl; [apply deadline_range; [apply Hnow|done]| |lia|done]. case_match; lia.
Qed.

(** ** Steps of the callbacks for the knote [p] *)

Record cb_step p w w' : Prop :=
  { cs_ok : timers_ok w';
    cs_kqs : w_kqs w' = w_kqs w;
    cs_others : forall x, x <> p -> w_knotes w' !! x = w_knotes w !! x /\ pkn w' x = pkn w x;
    cs_kq : kq_of w' p = kq_of w p;
    cs_timers : forall t r, timers w !! t = Some r -> pt_kn r <> p -> timers w' !! t = Some r }.

Lemma cb_step_refl p w : timers_ok w -> cb_step p w w.
Proof. by split. Qed.
Lemma cb_step_trans p w1 w2 w3 : cb_step p w1 w2 -> cb_step p w2 w3 -> cb_step p w1 w3.
Proof.
  intros [_ A2 A3 A4 A5] [B1 B2 B3 B4 B5]. split; [done|congruence| |congruence|auto].
  intros x Hx. destruct (A3 x Hx), (B3 x Hx). split; congruence.
Qed.
Lemma cb_step_env p w w' : timers_ok w -> env_only w w' -> cb_step p w w'.
Proof. intros Hw (k & e & n & -> & Hn). split; [|done..]. by apply (timers_ok_frame w). Qed.

(** A change of the event stored in the knote. *)
Lemma cb_step_kev p kn k w :
  timers_ok w -> w_knotes w !! p = Some kn ->
  cb_step p w (set_w_knotes (<[p := set_kev k kn]> (w_knotes w)) w).
Proof.
  intros Hw E. set (w' := set_w_knotes _ w).
  assert (Hkq : forall x, kq_of w' x = kq_of w x).
  { intros x. unfold kq_of, w'. simpl. destruct (decide (x = p)) as [->|Hx];
      [by rewrite lookup_insert_eq, E|by rewrite lookup_insert_ne]. }
  split; [by apply (timers_ok_frame w)|done| |done|done].
  intros x Hx. unfold w'. simpl. by rewrite lookup_insert_ne.
Qed.

(** A change of the timer of the knote. *)
Lemma cb_step_timer p t r r' w w' :
  timers_ok w' -> same_knotes w w' -> timers w !! t = Some r -> pt_kn r = p ->
  timers w' = <[t := r']> (timers w) -> cb_step p w w'.
Proof.
  intros Hw' Hs Et Hp Em. split; [done|apply Hs| |by apply same_kq_of|].
  - intros x _. unfold pkn. by rewrite (sk_knotes _ _ Hs), (sk_pkns _ _ Hs).
  - intros x rx Ex Hne. rewrite Em, lookup_insert_ne; [done|]. congruence.
Qed.

Lemma wp_wake q (Q : unit -> world K -> Prop) w :
  is_Some (w_kqs w !! q) -> (forall w', env_only w w' -> Q tt w') -> wp (posix_wake_kqueue q) Q w.
Proof.
  intros Hq HQ. unfold posix_wake_kqueue. wp_simpl. apply wp_get_pkq; [done|].
  case_match; wp_simpl; [|apply wp_sys; intros; wp_simpl]; apply HQ;
    [exists (w_os w), (w_errno w), (w_next w)|exists k, (w_errno w), (w_next w)|exists k, e, (w_next w)];
    split; try lia; by destruct w.
Qed.

(** The knote holds the event [k] and owns a linked timer armed from it. *)
Definition set_up p (k : kevent) w : Prop :=
  exists kn t r, w_knotes w !! p = Some kn /\ kev kn = k /\ timer_of w p = Some t /\
    timers w !! t = Some r /\ in_tree r = true /\ armed k r.

Definition clear_set (k : kevent) : kevent := set_flags (setb (flags k) EV_CLEAR) k.

Lemma posix_timer_create_ok f p kn w :
  clock_works -> timers_ok w -> w_knotes w !! p = Some kn -> kn_kq kn = Some f.1 ->
  is_Some (w_kqs w !! f.1) -> timer_of w p = None -> data_fits (kev kn) -> Zpos (w_next w) < 2 ^ 64 ->
  wp (posix_evfilt_timer_knote_create f p) (fun rv w' => cb_step p w w' /\
    (rv = 0 /\ set_up p (clear_set (kev kn)) w' \/ rv = -1 /\ timer_of w' p = None)) w.
Proof.
  intros Hc Hw E Hkq Hq Hnone Hf Ha. unfold posix_evfilt_timer_knote_create. wp_simpl.
  eapply wp_upd_kn; [exact E|]. set (kn1 := upd_flags _ kn). set (w1 := set_w_knotes _ w).
  pose proof (cb_step_kev p kn (clear_set (kev kn)) w Hw E : cb_step p w w1) as H1.
  assert (E1 : w_knotes w1 !! p = Some kn1) by apply lookup_insert_eq.
  wp_simpl. apply (wp_timer_alloc p kn1); [done..| |].
  { intros w' Henv. wp_simpl. split; [eapply cb_step_trans; [exact H1|apply cb_step_env; [apply H1|done]]|].
    right. destruct Henv as (? & ? & ? & -> & _). done. }
  intros k0 r Hp Hin Harm Hok. wp_simpl. apply wp_upd_pkn; [by eexists; exact E1|].
  set (t := w_next w1). set (w2 := set_pkn p _ _).
  assert (Hw2 : timers_ok w2).
  { assert (Hkq1 : kq_of w1 p = Some f.1) by (unfold kq_of; by rewrite E1).
    pose proof (cs_ok _ _ _ H1) as Hw1. apply (timers_ok_new w1 w2 t r p f.1); try done.
    - unfold timer_of, w2. by rewrite pkn_set.
    - intros x Hx. unfold timer_of, w2. by rewrite pkn_set_ne.
    - change (w_next w1 < Pos.succ (w_next w1))%positive. lia. }
  assert (H2 : cb_step p w1 w2).
  { split; [done|done| |done|].
    - intros x Hx. split; [done|]. unfold w2. by rewrite pkn_set_ne.
    - intros x rx Ex _. unfold w2. change (timers (set_pkn _ _ ?v)) with (timers v).
      change (timers (set_tm t r ?v)) with (<[t := r]> (timers v)). rewrite lookup_insert_ne; [done|].
      intros <-. apply (to_timer _ (cs_ok _ _ _ H1)) in Ex as (_ & ? & _). unfold t in *. lia. }
  assert (Et : timers w2 !! t = Some r) by apply lookup_insert_eq.
  wp_simpl. eapply timer_link_ok; [done|done|exact Et|done| |].
  { rewrite Hp. unfold kq_of. change (w_knotes w2) with (w_knotes w1). by rewrite E1. }
  intros w3 Hw3 Hs Em. wp_simpl. apply wp_wake; [rewrite (sk_kqs _ _ Hs); done|]. intros w4 Henv. wp_simpl.
  pose proof (cb_step_timer p t r _ w2 w3 Hw3 Hs Et Hp Em) as H3.
  split; [repeat (eapply cb_step_trans; [eassumption|]); by apply cb_step_env|]. left. split; [done|].
  destruct Henv as (k & e & n & -> & _). exists kn1, t, (set_in_tree true r).
  change (w_knotes (set_w_errno _ _)) with (w_knotes w3). change (timers (set_w_errno _ _)) with (timers w3).
  change (timer_of (set_w_errno _ _) p) with (timer_of w3 p).
  rewrite (sk_knotes _ _ Hs), (same_timer_of _ _ p Hs), Em, lookup_insert_eq.
  split_and!; [done|done| |done|done|done]. unfold timer_of, w2. by rewrite pkn_set.
Qed.

Lemma timer_drop_ok q p (Q : unit -> world K -> Prop) w :
  timers_ok w -> is_Some (w_knotes w !! p) -> kq_of w p = Some q -> is_Some (w_kqs w !! q) ->
  (forall w', cb_step p w w' -> timer_of w' p = None -> w_knotes w' = w_knotes w -> w_next w' = w_next w -> Q tt w') ->
  wp (timer_drop q p) Q w.
Proof.
  intros Hw Hlive Hkq Hq HQ. unfold timer_drop. wp_simpl. apply wp_get_pkn; [done|].
  change (kn_timer (pkn w p)) with (timer_of w p). destruct (timer_of w p) as [t|] eqn:Ht; wp_simpl.
  2: { apply HQ; [by apply cb_step_refl|done..]. }
  destruct (to_knote _ Hw p t Ht) as (r & Et & Hp).
  eapply timer_unlink_ok; [done|done|exact Et|by rewrite Hp|]. intros w1 Hw1 Hs Em.
  pose proof (cb_step_timer p t r _ w w1 Hw1 Hs Et Hp Em) as H1.
  assert (E1 : timers w1 !! t = Some (set_in_tree false r)) by (rewrite Em; apply lookup_insert_eq).
  unfold free_timer, upd_px. wp_simpl. eapply wp_get_timer; [exact E1|]. wp_simpl.
  apply wp_upd_pkn; [simpl; by rewrite (sk_knotes _ _ Hs)|]. set (w2 := set_pkn p _ _).
  assert (Hw2 : timers_ok w2).
  { apply (timers_ok_drop w1 w2 t (set_in_tree false r) p); try done.
    - unfold timer_of, w2. by rewrite pkn_set.
    - intros x Hx. unfold timer_of, w2. by rewrite pkn_set_ne. }
  apply HQ; [|unfold timer_of, w2; by rewrite pkn_set|apply Hs|apply Hs].
  eapply cb_step_trans; [exact H1|]. split; [done|done| |done|].
  - intros x Hx. split; [done|]. unfold w2. by rewrite pkn_set_ne.
  - intros x rx Ex Hne. unfold w2. change (timers (set_pkn _ _ ?v)) with (timers v).
    change (timers (set_w_px (set_px_timers ?m _) _)) with m.
    rewrite lookup_delete_ne; [done|]. intros <-. rewrite E1 in Ex. by simplify_eq.
Qed.

(** ** The callbacks *)

Inductive timer_cb := TCreate | TModify (k : kevent) | TDelete | TEnable | TDisable.

Definition run_cb f p (cb : timer_cb) : M (world K) Z :=
  match cb with
  | TCreate => posix_evfilt_timer_knote_create f p
  | TModify k => posix_evfilt_timer_knote_modify f p k
  | TDelete => posix_evfilt_timer_knote_delete f p
  | TEnable => posix_evfilt_timer_knote_enable f p
  | TDisable => posix_evfilt_timer_knote_disable f p
  end.

(** The timer of the knote, if it has one, is not linked. *)
Definition paused p w : Prop :=
  forall t r, timer_of w p = Some t -> timers w !! t = Some r -> in_tree r = false.

(** When the callbacks are called: a new knote has no timer, a disabled one a paused
    timer, and the times of a change fit the arithmetic. *)
Definition timer_cb_pre p (kn : knote) (cb : timer_cb) w : Prop :=
  match cb with
  | TCreate => timer_of w p = None /\ data_fits (kev kn) /\ Zpos (w_next w) < 2 ^ 64
  | TModify k => data_fits k /\ Zpos (w_next w) < 2 ^ 64
  | TEnable => paused p w
  | TDelete | TDisable => True
  end.

Definition kept_set (kn : knote) (k : kevent) : kevent :=
  clear_set (set_flags (setb (flags k) (Z.lor EV_CLEAR (Z.land (flags (kev kn)) EV_RECEIPT))) k).

(** What they do. *)
Definition timer_cb_post p (kn : knote) (cb : timer_cb) (rv : Z) w : Prop :=
  match cb with
  | TCreate => rv = 0 /\ set_up p (clear_set (kev kn)) w \/ rv = -1 /\ timer_of w p = None
  | TModify k => rv = 0 /\ set_up p (kept_set kn k) w \/ rv = -1 /\ timer_of w p = None
  | TDelete => rv = 0 /\ timer_of w p = None
  | TEnable => rv = 0 /\ forall t, timer_of w p = Some t -> exists r now, timers w !! t = Some r /\
      in_tree r = true /\ fire_count r = 0 /\ reading CLOCK_MONOTONIC now /\
      next r = ns_ts (ts_ns now + (if absolute r then 0 else Z.max 1 (interval_ns r)))
  | TDisable => rv = 0 /\ paused p w
  end.

Lemma timer_enable_ok f p kn w :
  clock_works -> timers_ok w -> w_knotes w !! p = Some kn -> kn_kq kn = Some f.1 ->
  is_Some (w_kqs w !! f.1) -> paused p w ->
  wp (posix_evfilt_timer_knote_enable f p) (fun rv w' => cb_step p w w' /\ timer_cb_post p kn TEnable rv w') w.
Proof.
  intros Hc Hw E Hkq Hq Hpause. unfold posix_evfilt_timer_knote_enable. wp_simpl. apply wp_get_pkn; [by eexists|].
  change (kn_timer (pkn w p)) with (timer_of w p). destruct (timer_of w p) as [t|] eqn:Ht; wp_simpl.
  2: { apply wp_wake; [done|]. intros w' Henv. wp_simpl. split; [by apply cb_step_env|]. split; [done|].
       destruct Henv as (? & ? & ? & -> & _). intros t Ht'. unfold timer_of, pkn in *. simpl in Ht'. congruence. }
  destruct (to_knote _ Hw p t Ht) as (r & Et & Hp). pose proof (Hpause t r Ht Et) as Hin.
  destruct (to_timer _ Hw t r Et) as ([_ Hi Hcnt Hadr] & _).
  eapply wp_get_timer; [exact Et|]. wp_simpl. apply wp_ts_clock; [done|]. intros now k Hnow. wp_simpl.
  set (ns := if absolute r then 0 else _).
  assert (Hns : ns = if absolute r then 0 else Z.max 1 (interval_ns r)).
  { unfold ns. destruct (absolute r); [done|]. destruct (Z.ltb_spec 0 (interval_ns r)); lia. }
  assert (Hd : 0 <= ns < 2 ^ 63) by (rewrite Hns; destruct (absolute r); lia).
  apply wp_ts_add_ns; [|done|].
  { destruct Hnow as [[? ?] _]. split; [done|lia]. }
  wp_simpl. eapply wp_upd_timer; [exact Et|]. wp_simpl. eapply wp_upd_timer; [apply lookup_insert_eq|].
  rewrite set_tm_twice. set (r1 := set_fire_count 0 _). set (w1 := set_tm t r1 _).
  assert (Hok : timer_ok t r1) by (split; simpl; [apply deadline_range; [apply Hnow|done]|done|lia|done]).
  assert (Hkq' : kq_of w (pt_kn r) = Some f.1) by (unfold kq_of; rewrite Hp, E; done).
  assert (Hw1 : timers_ok w1).
  { apply (timers_ok_put w w1 f.1 t r r1); try done.
    - change (tree_ok (<[t := r1]> (timers w)) (tree_of w f.1)). apply (tree_ok_ext (timers w)); [|by apply Hw].
      intros x Hx. rewrite lookup_insert_ne; [done|]. intros <-.
      destruct (tt_timer _ _ (to_tree _ Hw _ Hq) _ Hx) as (r' & Er' & ? & _). congruence.
    - intros Hin'. unfold r1 in Hin'. simpl in Hin'. congruence. }
  assert (E1 : timers w1 !! t = Some r1) by apply lookup_insert_eq.
  assert (H1 : cb_step p w w1) by (apply (cb_step_timer p t r r1); done).
  eapply timer_link_ok; [done|done|exact E1|done|done|]. intros w2 Hw2 Hs Em. wp_simpl.
  pose proof (cb_step_timer p t r1 _ w1 w2 Hw2 Hs E1 Hp Em) as H2.
  apply wp_wake; [by rewrite (sk_kqs _ _ Hs)|]. intros w3 Henv. wp_simpl.
  split; [do 2 (eapply cb_step_trans; [eassumption|]); by apply cb_step_env|]. split; [done|].
  destruct Henv as (k2 & e & n & -> & _). change (timers (set_w_errno _ _)) with (timers w2).
  change (timer_of (set_w_errno _ _) p) with (timer_of w2 p). rewrite (same_timer_of _ _ p Hs), Em.
  change (timer_of w1 p) with (timer_of w p). rewrite Ht. intros ? [= <-].
  exists (set_in_tree true r1), now. rewrite lookup_insert_eq. simpl. rewrite Hns. done.
Qed.

Lemma timer_disable_ok f p kn w :
  timers_ok w -> w_knotes w !! p = Some kn -> kn_kq kn = Some f.1 -> is_Some (w_kqs w !! f.1) ->
  wp (posix_evfilt_timer_knote_disable f p) (fun rv w' => cb_step p w w' /\ timer_cb_post p kn TDisable rv w') w.
Proof.
  intros Hw E Hkq Hq. unfold posix_evfilt_timer_knote_disable. wp_simpl. apply wp_get_pkn; [by eexists|].
  change (kn_timer (pkn w p)) with (timer_of w p). destruct (timer_of w p) as [t|] eqn:Ht; wp_simpl.
  2: { split; [by apply cb_step_refl|]. split; [done|]. intros ?. congruence. }
  destruct (to_knote _ Hw p t Ht) as (r & Et & Hp).
  eapply timer_unlink_ok; [done|done|exact Et|by unfold kq_of; rewrite Hp, E|]. intros w1 Hw1 Hs Em. wp_simpl.
  split; [by apply (cb_step_timer p t r (set_in_tree false r))|]. split; [done|]. intros t' r'.
  rewrite (same_timer_of _ _ p Hs), Ht, Em. intros [= <-]. rewrite lookup_insert_eq. by intros [= <-].
Qed.

(** C24: the callbacks of the POSIX timer filter keep the timers well formed.  In every
    state in which each timer belongs to one knote that points back to it, lies in
    the tree of that knote's kqueue exactly when it is marked as linked, and every
    tree is ordered by deadline, creating, changing, deleting, enabling and disabling
    a timer knote of a live kqueue run without a fault and end in such a state again.
    They touch no knote and no timer but their own.  A timer created or changed is
    linked with the deadline and the interval its event asks for, counted from the
    clock, or the call fails and the knote has no timer; a deleted knote has none; a
    disabled one's is out of the tree, and an enabled one's is linked again, one
    interval from the clock (at once when it is absolute), with nothing counted.  This
    is for a clock that can be read and stands below 2^32 seconds and, where a timer is
    created or changed, for times [data_fits] admits: in nanoseconds below 2^63, and
    above -2^62 when absolute.  The code does not check the time: a larger one overflows
    a long ([data_to_ns_overflows]). *)
Theorem timer_callbacks_ok f p kn (cb : timer_cb) w :
  clock_works -> timers_ok w -> w_knotes w !! p = Some kn -> kn_kq kn = Some f.1 ->
  is_Some (w_kqs w !! f.1) -> timer_cb_pre p kn cb w ->
  wp (run_cb f p cb) (fun rv w' => cb_step p w w' /\ timer_cb_post p kn cb rv w') w.
Proof.
  intros Hc Hw E Hkq Hq Hpre. assert (Hown : kq_of w p = Some f.1) by (unfold kq_of; by rewrite E).
  destruct cb as [|k| | |]; simpl in *.
  - destruct Hpre as (? & ? & ?). by apply posix_timer_create_ok.
  - destruct Hpre as (Hf & Ha). unfold posix_evfilt_timer_knote_modify. wp_simpl. eapply wp_get_kn; [exact E|].
    wp_simpl. eapply timer_drop_ok; [done|by eexists|done|done|]. intros w1 H1 Hnone Ek En. wp_simpl.
    eapply wp_upd_kn; [by rewrite Ek|]. wp_simpl. eapply wp_upd_kn; [apply lookup_insert_eq|].
    unfold upd_flags. simpl. rewrite insert_insert_eq. set (w2 := set_w_knotes _ (set_w_knotes _ _)).
    set (k1 := set_flags (setb (flags k) (Z.lor EV_CLEAR (Z.land (flags (kev kn)) EV_RECEIPT))) k).
    assert (H2 : cb_step p w1 w2).
    { apply (cb_step_kev p kn k1 w1); [apply H1|by rewrite Ek]. }
    eapply wp_mono; [|apply (posix_timer_create_ok f p (set_kev k1 kn)); try done].
    + intros rv w' [H3 Hres]. split; [|done]. do 2 (eapply cb_step_trans; [eassumption|]). done.
    + apply H2.
    + apply lookup_insert_eq.
    + change (is_Some (w_kqs w1 !! f.1)). by rewrite (cs_kqs _ _ _ H1).
    + change (Zpos (w_next w1) < 2 ^ 64). by rewrite En.
  - unfold posix_evfilt_timer_knote_delete. wp_simpl. eapply timer_drop_ok; [done|by eexists|done|done|].
    intros w1 H1 Hnone _ _. by wp_simpl.
  - by apply (timer_enable_ok f p kn).
  - by apply (timer_disable_ok f p kn).
Qed.
End Callbacks.
