(* ===== verification/PosixKevent.v ===== *)
(** * Waiting and copying out on POSIX: src/posix/platform.c

    [posix_kevent_wait] sleeps in pselect on the descriptors of the kqueue, no longer
    than the caller, the next timer and the poll interval of always-ready knotes
    allow; [posix_kevent_copyout] asks each filter for its events.  Loops that ask
    the kernel again (draining the wake-up pipe, repeating an interrupted or
    spurious pselect) have a fuel argument. *)

From Stdlib Require Import ZArith Lia Bool.
From stdpp Require Import base list gmap.
From S2P Require Import Prelude RBTree Event Map State Ops Knote Filter PosixPlatform PosixTimer.

Section Kevent.
Context {K : Type} `{OS K} `{FilterList K} (fuel : nat).
Implicit Types (w : world K) (p q : ptr) (f : filt_ref).

(** [while (read(fd, buf, 64) > 0)] *)
Definition drain_wake (fd : Z) : M (world K) unit :=
  loop fuel (fun _ : unit =>
    let! r := sys (SysRead fd 64) in
    ret (match r with Some n => if 0 <? n then inl tt else inr tt | None => inr tt end)) tt.

(** The timeout [to], or [bound] when that is shorter; None is no timeout. *)
Definition ts_exceeds (a b : timespec) : bool :=
  (tv_sec b <? tv_sec a) || ((tv_sec a =? tv_sec b) && (tv_nsec b <? tv_nsec a)).
Definition longer (to : option timespec) (bound : timespec) : bool :=
  match to with None => true | Some t => ts_exceeds t bound end.
Definition clamp (to : option timespec) (bound : timespec) : option timespec :=
  if longer to bound then Some bound else to.

Definition ns_timespec (ns : Z) : timespec := Timespec (Z.quot ns NSEC) (Z.rem ns NSEC).

(** The timeout with always-ready knotes: 100 ms unless an interval is set. *)
Definition file_poll_timeout (k : posix_kq) (to : option timespec) : option timespec :=
  if 0 <? kq_always_ready k then
    let ns := kq_file_poll_interval_ns k in
    clamp to (ns_timespec (if ns <=? 0 then 100000000 else ns))
  else to.

(** A descriptor below [nfds] is left in one of the sets. *)
Definition real_event (nfds : Z) (r wr : gset Z) : bool :=
  existsb (fun fd => bool_decide (fd ∈ r) || bool_decide (fd ∈ wr)) (seqZ 0 nfds).

(** One round of the loop of [posix_kevent_wait]. *)
Definition wait_round q (only_always_ready : bool) (timeout : option timespec) (_ : unit)
    : M (world K) (unit + Z) :=
  let! k := get_pkq q in
  let! use_to := (if only_always_ready && (kq_file_poll_interval_ns k =? 0)
                  then sys SysSchedYield ;;; ret (Some (Timespec 0 0)) else ret timeout) in
  kqueue_lock q ;;;
  let! timer_ns := posix_timer_min_deadline_ns q in
  kqueue_unlock q ;;;
  let by_timer := (0 <=? timer_ns) && longer use_to (ns_timespec timer_ns) in
  let use_to := if by_timer then Some (ns_timespec timer_ns) else use_to in
  let! kq := get_kq q in
  (if 0 <=? kq_id kq then drain_wake (kq_id kq) else ret tt) ;;;
  let! k := get_pkq q in
  let! r := sys (SysPselect (kq_nfds k) (kq_fds k) (kq_wfds k) use_to) in
  match r with
  | None => let! e := errno in if e =? EINTR then ret (inl tt) else ret (inr (-1))
  | Some (n, rfds, wfds) =>
      upd_pkq q (set_kq_rfds rfds) ;;;
      upd_pkq q (set_kq_wrfds wfds) ;;;
      if n =? 0 then
        let! k := get_pkq q in
        ret (inr (if 0 <? kq_always_ready k then 1 else if by_timer then 1 else 0))
      else
        let! kq := get_kq q in
        let! woken := (if 0 <=? kq_id kq then FD_ISSET (kq_id kq) rfds else ret false) in
        let! rfds := (if woken then FD_CLR (kq_id kq) rfds else ret rfds) in
        let! k := get_pkq q in
        if FD_SETSIZE <? kq_nfds k then fail BadAddress
        else if real_event (kq_nfds k) rfds wfds || bool_decide (is_Some timeout) then ret (inr n)
        else ret (inl tt)
  end.

Definition posix_kevent_wait q (numevents : Z) (timeout : option timespec) : M (world K) Z :=
  let! kq := get_kq q in
  let! k := get_pkq q in
  let only_always_ready := (0 <? kq_always_ready k) && (kq_knote_count kq =? kq_always_ready k) in
  loop fuel (wait_round q only_always_ready (file_poll_timeout k timeout)) tt.

(** ** Dispatch *)

(** The knote after [p] on a ready list. *)
Fixpoint ready_after (p : ptr) (l : list ptr) : option ptr :=
  match l with
  | [] => None
  | x :: l' => if decide (x = p) then head l' else ready_after p l'
  end.

Definition no_event : raw_event := NoEvent.

(** [LIST_FOREACH_SAFE] over [kf_ready]: the successor is read before the knote is
    detached and copied out. *)
Fixpoint dispatch_ready (n : nat) f (eventlist nevents nout : Z) (cur : option ptr)
    : M (world K) Z :=
  match cur with
  | None => ret nout
  | Some p =>
      match n with
      | O => fail OutOfFuel
      | S n =>
          let! _ := get_kn p in
          let! x := get_filt f in
          let tmp := ready_after p (kf_ready x) in
          if nevents <=? nout then ret nout
          else
            upd_filt f (fun x => set_kf_ready (base.filter (fun r => r <> p) (kf_ready x)) x) ;;;
            let! o := filt_ops f in
            let! rv := kf_copyout o (eventlist + nout) (nevents - nout) f (Some p) no_event in
            if rv <? 0 then ret (-1)
            else dispatch_ready n f eventlist nevents (if 0 <? rv then nout + rv else nout) tmp
      end
  end.

Definition posix_dispatch_filter f (eventlist nevents : Z) : M (world K) Z :=
  let! x := get_filt f in
  match kf_ready x with
  | [] =>
      if (kf_id x =? EVFILT_SIGNAL) || (kf_id x =? EVFILT_TIMER) || (kf_id x =? EVFILT_VNODE) then
        let! o := filt_ops f in
        let! rv := kf_copyout o eventlist nevents f None no_event in
        ret (if rv <? 0 then -1 else rv)
      else ret 0
  | l => dispatch_ready (length l) f eventlist nevents 0 (head l)
  end.

(** The callback of [posix_dispatch_fd_filter]; [rd] says which of the two sets of the
    last pselect is [ctx->active]. *)
Definition posix_dispatch_fd_cb f (rd : bool) (eventlist nevents : Z) (c : Z * bool) p
    : M (world K) ((Z * bool) * Z) :=
  let! kn := get_kn p in
  let fd := s32 (ident (kev kn)) in
  let always_ready := has (kn_flags kn) KNFL_FILE in
  if nevents <=? c.1 then ret (c, 1)
  else if KNOTE_DISABLED kn then ret (c, 0)
  else
    let! k := get_pkq f.1 in
    let! go := (if always_ready then ret true
                else if negb (fd_fits fd) then ret false
                else
                  let! a := FD_ISSET fd (if rd then kq_rfds k else kq_wrfds k) in
                  if negb a then ret false else FD_ISSET fd (if rd then kq_fds k else kq_wfds k)) in
    if negb go then ret (c, 0)
    else
      let! o := filt_ops f in
      let! rv := kf_copyout o (eventlist + c.1) (nevents - c.1) f (Some p) no_event in
      if rv <? 0 then ret ((c.1, true), 1) else ret ((c.1 + rv, c.2), 0).

Definition posix_dispatch_fd_filter f (rd : bool) (eventlist nevents : Z) : M (world K) Z :=
  let! c := knote_foreach_ctx f (posix_dispatch_fd_cb f rd eventlist nevents) (0, false) in
  ret (drain_result c).

Definition posix_kevent_drain_wake q : M (world K) unit :=
  let! kq := get_kq q in
  if kq_id kq <? 0 then ret tt
  else
    let! k := get_pkq q in
    let! b := FD_ISSET (kq_id kq) (kq_rfds k) in
    if b then drain_wake (kq_id kq) else ret tt.

(** One filter of the loop of [posix_kevent_copyout]: the events it copied out, or
    None where the loop skips it. *)
Definition copyout_filter q (i : nat) (eventlist nevents : Z) : M (world K) Z :=
  let f := (q, i) in
  let! x := get_filt f in
  if kf_id x =? 0 then ret 0
  else if kf_id x =? EVFILT_READ then posix_dispatch_fd_filter f true eventlist nevents
  else if kf_id x =? EVFILT_WRITE then posix_dispatch_fd_filter f false eventlist nevents
  else if (kf_id x =? EVFILT_TIMER) || (kf_id x =? EVFILT_VNODE)
  then posix_dispatch_filter f eventlist nevents
  else
    let! r := get_pf f in
    if kf_pfd r <=? 0 then ret 0
    else
      let! k := get_pkq q in
      let! b := FD_ISSET (kf_pfd r) (kq_rfds k) in
      if negb b then ret 0
      else posix_eventfd_lower f ;;; posix_dispatch_filter f eventlist nevents.

Fixpoint copyout_filters q (is_ : list nat) (eventlist nevents nout : Z) : M (world K) Z :=
  match is_ with
  | [] => ret nout
  | i :: is_ =>
      if nevents <=? nout then ret nout
      else
        let! rv := copyout_filter q i (eventlist + nout) (nevents - nout) in
        if rv <? 0 then ret (-1) else copyout_filters q is_ eventlist nevents (nout + rv)
  end.

Definition posix_kevent_copyout q (nready eventlist nevents : Z) : M (world K) Z :=
  posix_kevent_drain_wake q ;;;
  copyout_filters q (seq 0 (Z.to_nat EVFILT_SYSCOUNT)) eventlist nevents 0.

(** [kqops] *)
Definition posix_kqops : kqueue_vtable K :=
  KqueueVtable posix_kqueue_init posix_kqueue_free false None posix_kevent_wait
    posix_kevent_copyout None None (Some posix_set_file_poll_interval) (ret tt)
    posix_kevent_enter posix_kevent_exit.
End Kevent.
