(* ===== verification/PosixUser.v ===== *)
(** * EVFILT_USER on POSIX: src/posix/user.c

    One eventfd per filter: NOTE_TRIGGER puts the knote on the filter's ready list
    and raises the eventfd; copyout lowers it and delivers the knotes of the list. *)

From Stdlib Require Import ZArith Lia Bool.
From stdpp Require Import base list gmap.
From S2P Require Import Prelude RBTree Event Map State Ops Knote Filter PosixPlatform.

Section User.
Context {K : Type} `{OS K} `{FilterList K} (have_pipe2 : bool).
Implicit Types (w : world K) (p q : ptr) (f : filt_ref).

Definition posix_evfilt_user_init f : M (world K) Z :=
  let! rv := posix_eventfd_init have_pipe2 f in
  if rv <? 0 then ret (-1)
  else
    let! rv := posix_eventfd_register f.1 f in
    if rv <? 0 then posix_eventfd_close f ;;; ret (-1)
    else
      let! fd := posix_eventfd_descriptor f in
      upd_pf f (set_kf_pfd fd) ;;; ret 0.

Definition posix_evfilt_user_destroy f : M (world K) unit :=
  posix_eventfd_unregister f.1 f ;;; posix_eventfd_close f.

(** [kn->kev.fflags] is replaced *)
Definition set_kn_fflags (g : Z -> Z) (kn : knote) : knote :=
  set_kev (set_fflags (g (fflags (kev kn))) (kev kn)) kn.

Definition posix_evfilt_user_copyout (dst nevents : Z) f (src : option ptr) (ev : raw_event)
    : M (world K) Z :=
  let! p := deref NullDeref src in
  let! kn := get_kn p in
  store dst (kev kn) ;;;
  upd_mem dst (fun k => set_fflags (clrb (fflags k) NOTE_FFCTRLMASK) k) ;;;
  upd_mem dst (fun k => set_fflags (clrb (fflags k) NOTE_TRIGGER) k) ;;;
  (if has (flags (kev kn)) EV_CLEAR
   then upd_kn p (set_kn_fflags (fun x => clrb x NOTE_TRIGGER)) else ret tt) ;;;
  (if has (flags (kev kn)) EV_DISPATCH
   then upd_kn p (set_kn_fflags (fun x => clrb x NOTE_TRIGGER)) else ret tt) ;;;
  let! rv := knote_copyout_flag_actions f p in
  ret (if rv <? 0 then -1 else 1).

Definition posix_evfilt_user_knote_create f p : M (world K) Z := ret 0.

(** The switch on the control bits; None is its default. *)
Definition posix_user_fflags (old change : Z) : option Z :=
  let ffctrl := Z.land change NOTE_FFCTRLMASK in
  let fl := Z.land change NOTE_FFLAGSMASK in
  if ffctrl =? NOTE_FFNOP then Some old
  else if ffctrl =? NOTE_FFAND then Some (Z.land old fl)
  else if ffctrl =? NOTE_FFOR then Some (Z.lor old fl)
  else if ffctrl =? NOTE_FFCOPY then Some fl
  else None.

Definition posix_evfilt_user_knote_modify f p (k : kevent) : M (world K) Z :=
  let! kn := get_kn p in
  match posix_user_fflags (fflags (kev kn)) (fflags k) with
  | None => set_errno EINVAL ;;; ret (-1)
  | Some fl =>
      upd_kn p (set_kn_fflags (fun _ => fl)) ;;;
      (if negb (has (flags (kev kn)) EV_DISABLE) && has (fflags k) NOTE_TRIGGER then
         upd_kn p (set_kn_fflags (fun x => setb x NOTE_TRIGGER)) ;;;
         let! x := get_filt f in
         (if decide (p ∈ kf_ready x) then ret tt
          else upd_filt f (fun x => set_kf_ready (p :: kf_ready x) x)) ;;;
         posix_eventfd_raise f ;;; ret tt
       else ret tt) ;;;
      ret 0
  end.

Definition posix_evfilt_user_knote_delete f p : M (world K) Z := ret 0.
Definition posix_evfilt_user_knote_enable f p : M (world K) Z := ret 0.
Definition posix_evfilt_user_knote_disable f p : M (world K) Z := ret 0.

Definition posix_evfilt_user : filter_src K :=
  FilterSrc EVFILT_USER (FilterOps (Some posix_evfilt_user_init) (Some posix_evfilt_user_destroy)
    posix_evfilt_user_copyout posix_evfilt_user_knote_create posix_evfilt_user_knote_modify
    posix_evfilt_user_knote_delete posix_evfilt_user_knote_enable posix_evfilt_user_knote_disable).
End User.
