(* ===== verification/PosixReadWrite.v ===== *)
(** * EVFILT_READ and EVFILT_WRITE on POSIX: src/posix/read.c, src/posix/write.c

    A knote is armed by putting its descriptor into the sets pselect watches.  A
    regular file, which is always readable up to its end, is counted in
    [kq_always_ready] and polled instead. *)

From Stdlib Require Import ZArith Lia Bool.
From stdpp Require Import base list gmap.
From S2P Require Import Prelude RBTree Event Map State Ops Knote Filter PosixPlatform.

Section ReadWrite.
Context {K : Type} `{OS K} `{FilterList K}.
Implicit Types (w : world K) (p q : ptr) (f : filt_ref).

Definition or_flags p (fl : Z) : M (world K) unit :=
  upd_kn p (fun kn => set_kn_flags (setb (kn_flags kn) fl) kn).
Definition and_not_flags p (fl : Z) : M (world K) unit :=
  upd_kn p (fun kn => set_kn_flags (clrb (kn_flags kn) fl) kn).

(** [kn->kev.ident] as the [int] the system calls take *)
Definition kn_fd (kn : knote) : Z := s32 (ident (kev kn)).

(** The flag of a descriptor that is not a socket. *)
Definition posix_mode_flag (fmt : Z) : option Z :=
  if (fmt =? S_IFREG) || (fmt =? S_IFDIR) then Some KNFL_FILE
  else if fmt =? S_IFCHR then Some KNFL_CHARDEV
  else if fmt =? S_IFBLK then Some KNFL_BLOCKDEV
  else if fmt =? S_IFIFO then Some KNFL_PIPE
  else None.

Definition posix_socket_flag (type : Z) : Z :=
  if type =? SOCK_STREAM then KNFL_SOCKET_STREAM
  else if type =? SOCK_DGRAM then KNFL_SOCKET_DGRAM
  else if type =? SOCK_SEQPACKET then KNFL_SOCKET_SEQPACKET
  else if type =? SOCK_RAW then KNFL_SOCKET_RAW
  else KNFL_SOCKET_STREAM.

(** Whether a stream socket is listening. *)
Definition detect_passive p (fd : Z) : M (world K) unit :=
  let! kn := get_kn p in
  if has (kn_flags kn) KNFL_SOCKET_STREAM then
    let! listening := sys (SysGetsockopt fd SO_ACCEPTCONN) in
    match listening with
    | Some l => if l =? 0 then ret tt else or_flags p KNFL_SOCKET_PASSIVE
    | None =>
        let! r := sys (SysRecvPeek fd) in
        let! e := errno in
        if bool_decide (r = None) && (e =? ENOTCONN) then or_flags p KNFL_SOCKET_PASSIVE else ret tt
    end
  else ret tt.

Definition posix_read_descriptor_type p : M (world K) Z :=
  let! kn := get_kn p in
  let fd := kn_fd kn in
  let! sb := sys (SysFstat fd) in
  match sb with
  | None => ret (-1)
  | Some sb =>
      let fmt := Z.land (st_mode sb) S_IFMT in
      match posix_mode_flag fmt with
      | Some fl => or_flags p fl ;;; ret 0
      | None =>
          if fmt =? S_IFSOCK then
            let! type := sys (SysGetsockopt fd SO_TYPE) in
            match type with
            | None => ret (-1)
            | Some type => or_flags p (posix_socket_flag type) ;;; detect_passive p fd ;;; ret 0
            end
          else ret (-1)
      end
  end.

(** ** Read *)

Definition posix_read_arm f p : M (world K) Z :=
  let! kn := get_kn p in
  let fd := kn_fd kn in
  if has (kn_flags kn) KNFL_FILE then
    (if has (kn_flags kn) KNFL_ALWAYS_READY_BUMPED then ret tt
     else
       let! x := get_filt f in
       (if decide (p ∈ kf_ready x) then ret tt
        else upd_filt f (fun x => set_kf_ready (p :: kf_ready x) x)) ;;;
       upd_pkq f.1 (fun k => set_kq_always_ready (kq_always_ready k + 1) k) ;;;
       or_flags p KNFL_ALWAYS_READY_BUMPED) ;;;
    posix_wake_kqueue f.1 ;;;
    ret 0
  else if (fd <? 0) || (FD_SETSIZE <=? fd) then set_errno EBADF ;;; ret (-1)
  else watch_read f.1 fd ;;; posix_wake_kqueue f.1 ;;; ret 0.

(** A file knote stops being polled; its entry on the ready list is dropped. *)
Definition always_ready_drop f p : M (world K) unit :=
  upd_filt f (fun x => set_kf_ready (base.filter (fun r => r <> p) (kf_ready x)) x) ;;;
  upd_pkq f.1 (fun k => if 0 <? kq_always_ready k
                        then set_kq_always_ready (kq_always_ready k - 1) k else k) ;;;
  and_not_flags p KNFL_ALWAYS_READY_BUMPED.

Definition posix_read_disarm f p : M (world K) unit :=
  let! kn := get_kn p in
  let fd := kn_fd kn in
  if has (kn_flags kn) KNFL_FILE then
    if has (kn_flags kn) KNFL_ALWAYS_READY_BUMPED then always_ready_drop f p else ret tt
  else if (fd <? 0) || (FD_SETSIZE <=? fd) then ret tt
  else
    let! k := get_pkq f.1 in
    let! s := FD_CLR fd (kq_fds k) in
    upd_pkq f.1 (set_kq_fds s).

(** [setsockopt(SO_RCVLOWAT)] on a stream socket with NOTE_LOWAT; a failure is ignored. *)
Definition set_rcvlowat (kn : knote) (lowat : Z) : M (world K) unit :=
  if has (fflags (kev kn)) NOTE_LOWAT && has (kn_flags kn) KNFL_SOCKET_STREAM
  then sys (SysSetsockopt (kn_fd kn) SO_RCVLOWAT lowat) ;;; ret tt else ret tt.

Definition posix_evfilt_read_knote_create f p : M (world K) Z :=
  let! rv := posix_read_descriptor_type p in
  if rv <? 0 then ret (-1)
  else
    let! kn := get_kn p in
    let lowat := s32 (data (kev kn)) in
    set_rcvlowat kn (if lowat <? 1 then 1 else lowat) ;;;
    posix_read_arm f p.

Definition posix_evfilt_read_knote_delete f p : M (world K) Z :=
  let! kn := get_kn p in
  set_rcvlowat kn 1 ;;;
  posix_read_disarm f p ;;;
  ret 0.

Definition posix_evfilt_read_knote_enable f p : M (world K) Z := posix_read_arm f p.
Definition posix_evfilt_read_knote_disable f p : M (world K) Z := posix_read_disarm f p ;;; ret 0.
Definition posix_evfilt_read_knote_modify f p (k : kevent) : M (world K) Z := ret 0.

(** The bytes readable on a descriptor that is neither a file nor listening, with
    EV_EOF and the socket's error. *)
Definition read_stream_event (dst fd : Z) (kn : knote) : M (world K) unit :=
  let! n := sys (SysIoctl fd FIONREAD) in
  let n := default 0 n in
  upd_mem dst (set_data n) ;;;
  if (n =? 0) && has (kn_flags kn) (Z.lor KNFL_SOCKET_STREAM KNFL_PIPE) then
    upd_mem dst (fun k => set_flags (setb (flags k) EV_EOF) k) ;;;
    if has (kn_flags kn) KNFL_SOCKET_STREAM then
      let! serr := sys (SysGetsockopt fd SO_ERROR) in
      match serr with
      | Some e => if e =? 0 then ret tt else upd_mem dst (set_fflags (u32 e))
      | None => ret tt
      end
    else ret tt
  else ret tt.

Definition posix_evfilt_read_copyout (dst nevents : Z) f (src : option ptr) (ev : raw_event)
    : M (world K) Z :=
  let! p := deref NullDeref src in
  let! kn := get_kn p in
  let fd := kn_fd kn in
  store dst (kev kn) ;;;
  let! emit :=
    (if has (kn_flags kn) KNFL_FILE then
       let! sb := sys (SysFstat fd) in
       let size := match sb with Some sb => st_size sb | None => 0 end in
       let! cur := sys (SysLseek fd) in
       let curpos := default 0 cur in
       if size <=? curpos then ret false
       else upd_mem dst (set_data (size - curpos)) ;;; ret true
     else if has (kn_flags kn) KNFL_SOCKET_PASSIVE then upd_mem dst (set_data 1) ;;; ret true
     else read_stream_event dst fd kn ;;; ret true) in
  if negb emit then ret 0
  else
    (if has (flags (kev kn)) EV_CLEAR then posix_read_disarm f p else ret tt) ;;;
    let! rv := knote_copyout_flag_actions f p in
    ret (if rv <? 0 then -1 else 1).

Definition posix_evfilt_read : filter_src K :=
  FilterSrc EVFILT_READ (FilterOps None None posix_evfilt_read_copyout posix_evfilt_read_knote_create
    posix_evfilt_read_knote_modify posix_evfilt_read_knote_delete posix_evfilt_read_knote_enable
    posix_evfilt_read_knote_disable).

(** ** Write *)

Definition posix_write_arm f p : M (world K) Z :=
  let! kn := get_kn p in
  let fd := kn_fd kn in
  if (fd <? 0) || (FD_SETSIZE <=? fd) then set_errno EBADF ;;; ret (-1)
  else
    let! k := get_pkq f.1 in
    let! s := FD_SET fd (kq_wfds k) in
    upd_pkq f.1 (set_kq_wfds s) ;;;
    (if kq_nfds k <=? fd then upd_pkq f.1 (set_kq_nfds (fd + 1)) else ret tt) ;;;
    posix_wake_kqueue f.1 ;;;
    ret 0.

Definition posix_write_disarm f p : M (world K) unit :=
  let! kn := get_kn p in
  let fd := kn_fd kn in
  if (fd <? 0) || (FD_SETSIZE <=? fd) then ret tt
  else
    let! k := get_pkq f.1 in
    let! s := FD_CLR fd (kq_wfds k) in
    upd_pkq f.1 (set_kq_wfds s).

Definition posix_write_descriptor_type p : M (world K) Z :=
  let! kn := get_kn p in
  let fd := kn_fd kn in
  let! sb := sys (SysFstat fd) in
  match sb with
  | None => ret (-1)
  | Some sb =>
      let fmt := Z.land (st_mode sb) S_IFMT in
      match posix_mode_flag fmt with
      | Some fl => or_flags p fl ;;; ret 0
      | None =>
          if fmt =? S_IFSOCK then
            let! type := sys (SysGetsockopt fd SO_TYPE) in
            match type with
            | None => ret (-1)
            | Some type =>
                or_flags p (if type =? SOCK_STREAM then KNFL_SOCKET_STREAM
                            else if type =? SOCK_DGRAM then KNFL_SOCKET_DGRAM
                            else KNFL_SOCKET_STREAM) ;;;
                ret 0
            end
          else ret (-1)
      end
  end.

Definition posix_evfilt_write_knote_create f p : M (world K) Z :=
  let! rv := posix_write_descriptor_type p in
  if rv <? 0 then ret (-1) else posix_write_arm f p.

Definition posix_evfilt_write_knote_delete f p : M (world K) Z := posix_write_disarm f p ;;; ret 0.
Definition posix_evfilt_write_knote_enable f p : M (world K) Z := posix_write_arm f p.
Definition posix_evfilt_write_knote_disable f p : M (world K) Z := posix_write_disarm f p ;;; ret 0.
Definition posix_evfilt_write_knote_modify f p (k : kevent) : M (world K) Z := ret 0.

Definition posix_evfilt_write_copyout (dst nevents : Z) f (src : option ptr) (ev : raw_event)
    : M (world K) Z :=
  let! p := deref NullDeref src in
  let! kn := get_kn p in
  store dst (kev kn) ;;;
  upd_mem dst (set_data 1) ;;;
  (if has (flags (kev kn)) EV_CLEAR then posix_write_disarm f p else ret tt) ;;;
  let! rv := knote_copyout_flag_actions f p in
  ret (if rv <? 0 then -1 else 1).

Definition posix_evfilt_write : filter_src K :=
  FilterSrc EVFILT_WRITE (FilterOps None None posix_evfilt_write_copyout posix_evfilt_write_knote_create
    posix_evfilt_write_knote_modify posix_evfilt_write_knote_delete posix_evfilt_write_knote_enable
    posix_evfilt_write_knote_disable).
End ReadWrite.
