(* ===== verification/PosixVnode.v ===== *)
(** * EVFILT_VNODE on POSIX: src/posix/vnode.c

    A knote keeps a snapshot of [fstat] and is polled: copyout compares the file
    with the snapshot and reports what changed. *)

From Stdlib Require Import ZArith Lia Bool.
From stdpp Require Import base list gmap.
From S2P Require Import Prelude RBTree Event Map State Ops Knote Filter PosixPlatform PosixTimer PosixReadWrite.

Definition ts_neq (a b : timespec) : bool :=
  negb (tv_sec a =? tv_sec b) || negb (tv_nsec a =? tv_nsec b).

(** [if (c) fflags |= bit] *)
Definition or_if (c : bool) (fflags bit : Z) : Z := if c then Z.lor fflags bit else fflags.

Definition vnode_diff_to_note (prev now : stat) : Z :=
  let size_changed := negb (st_size now =? st_size prev) in
  let ff := or_if ((st_nlink now =? 0) && negb (st_nlink prev =? 0)) 0 NOTE_DELETE in
  let ff := or_if (negb (st_nlink now =? st_nlink prev)) ff NOTE_LINK in
  let ff := or_if (st_size prev <? st_size now) ff NOTE_EXTEND in
  let ff := or_if (st_size now <? st_size prev) ff NOTE_TRUNCATE in
  or_if (negb size_changed && ts_neq (st_ctim now) (st_ctim prev) && negb (has ff NOTE_DELETE))
    ff NOTE_ATTRIB.

Section Vnode.
Context {K : Type} `{OS K} `{FilterList K}.
Implicit Types (w : world K) (p q : ptr) (f : filt_ref).

Definition get_vnode (v : ptr) : M (world K) stat :=
  let! o := gets (fun w => px_vnodes (w_px w) !! v) in deref UseAfterFree o.
Definition put_vnode (v : ptr) (s : stat) : M (world K) unit :=
  upd_px (fun x => set_px_vnodes (<[v := s]> (px_vnodes x)) x).
Definition free_vnode (v : ptr) : M (world K) unit :=
  let! _ := get_vnode v in upd_px (fun x => set_px_vnodes (delete v (px_vnodes x)) x).

Definition vnode_state_alloc (fd : Z) : M (world K) (option ptr) :=
  let! st := sys (SysFstat fd) in
  match st with
  | None => ret None
  | Some st =>
      let fmt := Z.land (st_mode st) S_IFMT in
      if negb (fmt =? S_IFREG) && negb (fmt =? S_IFDIR) then set_errno EINVAL ;;; ret None
      else
        let! v := alloc in
        match v with
        | None => ret None
        | Some v => put_vnode v st ;;; ret (Some v)
        end
  end.

(** The knote is counted in [kq_always_ready]. *)
Definition always_ready_bump q p : M (world K) unit :=
  upd_pkq q (fun k => set_kq_always_ready (kq_always_ready k + 1) k) ;;;
  or_flags p KNFL_ALWAYS_READY_BUMPED.

Definition posix_evfilt_vnode_knote_create f p : M (world K) Z :=
  let! kn := get_kn p in
  let! v := vnode_state_alloc (kn_fd kn) in
  upd_pkn p (set_kn_vnode v) ;;;
  match v with
  | None => ret (-1)
  | Some _ =>
      let! kn := get_kn p in
      (if has (kn_flags kn) KNFL_ALWAYS_READY_BUMPED then ret tt else always_ready_bump f.1 p) ;;;
      posix_wake_kqueue f.1 ;;;
      ret 0
  end.

Definition posix_evfilt_vnode_knote_delete f p : M (world K) Z :=
  let! kn := get_kn p in
  (if has (kn_flags kn) KNFL_ALWAYS_READY_BUMPED then
     upd_pkq f.1 (fun k => if 0 <? kq_always_ready k
                           then set_kq_always_ready (kq_always_ready k - 1) k else k) ;;;
     and_not_flags p KNFL_ALWAYS_READY_BUMPED
   else ret tt) ;;;
  let! s := get_pkn p in
  match kn_vnode s with
  | None => ret tt
  | Some v => free_vnode v ;;; upd_pkn p (set_kn_vnode None)
  end ;;;
  ret 0.

Definition posix_evfilt_vnode_knote_modify f p (k : kevent) : M (world K) Z :=
  upd_kn p (fun kn => set_kev (set_udata (udata k) (set_fflags (fflags k) (kev kn))) kn) ;;;
  ret 0.

Definition posix_evfilt_vnode_knote_enable f p : M (world K) Z :=
  let! kn := get_kn p in
  (if has (kn_flags kn) KNFL_ALWAYS_READY_BUMPED then ret tt
   else
     let! x := get_filt f in
     (if decide (p ∈ kf_ready x) then ret tt
      else upd_filt f (fun x => set_kf_ready (p :: kf_ready x) x)) ;;;
     always_ready_bump f.1 p) ;;;
  let! s := get_pkn p in
  match kn_vnode s with
  | None => ret tt
  | Some v =>
      let! st := sys (SysFstat (kn_fd kn)) in
      match st with Some st => put_vnode v st | None => ret tt end
  end ;;;
  posix_wake_kqueue f.1 ;;;
  ret 0.

Definition posix_evfilt_vnode_knote_disable f p : M (world K) Z :=
  let! kn := get_kn p in
  (if has (kn_flags kn) KNFL_ALWAYS_READY_BUMPED then always_ready_drop f p else ret tt) ;;;
  ret 0.

Definition evfilt_vnode_copyout_one (dst : Z) f p : M (world K) Z :=
  let! s := get_pkn p in
  let! kn := get_kn p in
  match kn_vnode s with
  | None => ret 0
  | Some v =>
      if KNOTE_DISABLED kn then ret 0
      else
        let! now := sys (SysFstat (kn_fd kn)) in
        match now with
        | None =>
            let! e := errno in
            if (e =? EBADF) && has (fflags (kev kn)) NOTE_DELETE then
              store dst (kev kn) ;;;
              upd_mem dst (set_fflags NOTE_DELETE) ;;;
              let! rv := knote_copyout_flag_actions f p in
              ret (if rv <? 0 then -1 else 1)
            else ret 0
        | Some now =>
            let! last := get_vnode v in
            let changed := vnode_diff_to_note last now in
            if Z.land changed (fflags (kev kn)) =? 0 then ret 0
            else
              store dst (kev kn) ;;;
              upd_mem dst (set_fflags changed) ;;;
              put_vnode v now ;;;
              let! rv := knote_copyout_flag_actions f p in
              ret (if rv <? 0 then -1 else 1)
        end
  end.

Definition posix_evfilt_vnode_copyout (dst nevents : Z) f (src : option ptr) (ev : raw_event)
    : M (world K) Z :=
  let! c := knote_foreach_ctx f
    (drain_cb (fun a p => evfilt_vnode_copyout_one a f p) dst nevents) (0, false) in
  ret (drain_result c).

Definition posix_evfilt_vnode : filter_src K :=
  FilterSrc EVFILT_VNODE (FilterOps None None posix_evfilt_vnode_copyout posix_evfilt_vnode_knote_create
    posix_evfilt_vnode_knote_modify posix_evfilt_vnode_knote_delete posix_evfilt_vnode_knote_enable
    posix_evfilt_vnode_knote_disable).
End Vnode.
