(* ===== verification/PosixProc.v ===== *)
(** * EVFILT_PROC on POSIX: src/posix/proc.c

    A tree of process identifiers, shared by all kqueues, holds for each the knotes
    that wait for its exit.  A thread woken by SIGCHLD asks waitid for every
    identifier of the tree, moves the waiting knotes to the ready lists of their
    filters and raises the filters' eventfds.  The mutex of the tree is recursive. *)

From Stdlib Require Import ZArith Lia Bool.
From stdpp Require Import base list gmap.
From S2P Require Import Prelude RBTree Event Map State Ops Knote Filter PosixPlatform PosixReadWrite.

Definition pid_t : Z -> Z := s32.

(** The status word of an exit; None for the states that are not an exit. *)
Definition waiter_siginfo_to_status (info : siginfo) : option Z :=
  if si_code info =? CLD_EXITED then Some (Z.shiftl (si_status info) 8)
  else if si_code info =? CLD_DUMPED then Some (Z.lor (Z.land (si_status info) 0x7f) 0x80)
  else if si_code info =? CLD_KILLED then Some (Z.land (si_status info) 0x7f)
  else None.

Section Proc.
Context {K : Type} `{OS K} `{FilterList K} (have_pipe2 : bool) (fuel : nat).
Implicit Types (w : world K) (p q : ptr) (f : filt_ref).

(** ** Locks and heap *)

Definition pid_index_lock : M (world K) unit :=
  upd_px (fun x => set_proc_pid_index_mtx (S (proc_pid_index_mtx x)) x).
Definition pid_index_unlock : M (world K) unit :=
  let! n := gets (fun w => proc_pid_index_mtx (w_px w)) in
  match n with O => fail Deadlock | S n => upd_px (set_proc_pid_index_mtx n) end.
Definition proc_init_lock : M (world K) unit :=
  let! b := gets (fun w => proc_init_mtx (w_px w)) in
  if b then fail Deadlock else upd_px (set_proc_init_mtx true).
Definition proc_init_unlock : M (world K) unit :=
  let! b := gets (fun w => proc_init_mtx (w_px w)) in
  if b then upd_px (set_proc_init_mtx false) else fail Deadlock.

Definition get_ppd (d : ptr) : M (world K) proc_pid :=
  let! o := gets (fun w => px_ppds (w_px w) !! d) in deref UseAfterFree o.
Definition put_ppd (d : ptr) (r : proc_pid) : M (world K) unit :=
  upd_px (fun x => set_px_ppds (<[d := r]> (px_ppds x)) x).
Definition free_ppd (d : ptr) : M (world K) unit :=
  let! _ := get_ppd d in upd_px (fun x => set_px_ppds (delete d (px_ppds x)) x).

Definition find_pid (pid : Z) : M (world K) (option ptr) :=
  gets (fun w => e_ptr <$> RB_FIND e_key (proc_pid_index (w_px w)) pid).

(** [RB_REMOVE(pid_index, &proc_pid_index, ppd); free(ppd)] *)
Definition drop_ppd (d : ptr) : M (world K) unit :=
  let! r := get_ppd d in
  let! t := gets (fun w => proc_pid_index (w_px w)) in
  let! t := deref BadAddress (RB_REMOVE e_key t (ppd_pid r)) in
  upd_px (set_proc_pid_index t) ;;;
  free_ppd d.

(** [LIST_INSERT_HEAD(&filt->kf_ready, kn, kn_ready)]; inserting a knote that is on
    the list already would tie it into a knot. *)
Definition ready_insert f p : M (world K) unit :=
  let! x := get_filt f in
  if decide (p ∈ kf_ready x) then fail BadAddress
  else put_filt f (set_kf_ready (p :: kf_ready x) x).

(** The removal of a knote from its waiter list. *)
Definition waiter_remove (d : ptr) p : M (world K) unit :=
  let! r := get_ppd d in
  put_ppd d (set_ppd_proc_waiters (base.filter (fun x => x <> p) (ppd_proc_waiters r)) r) ;;;
  upd_pkn p (set_kn_waiting false).

(** ** Notification *)

(** The loops of [waiter_notify] and [waiter_notify_error]: [mark] stores the result
    in the knote. *)
Fixpoint notify_loop (n : nat) (mark : ptr -> M (world K) unit) (d : ptr) : M (world K) unit :=
  let! r := get_ppd d in
  match ppd_proc_waiters r with
  | [] => ret tt
  | p :: _ =>
      match n with
      | O => fail OutOfFuel
      | S n =>
          mark p ;;;
          let! f := knote_get_filter p in
          ready_insert f p ;;;
          posix_eventfd_raise f ;;;
          waiter_remove d p ;;;
          notify_loop n mark d
      end
  end.

Definition notify_all (mark : ptr -> M (world K) unit) (d : ptr) : M (world K) unit :=
  let! r := get_ppd d in
  notify_loop (length (ppd_proc_waiters r)) mark d ;;;
  drop_ppd d.

Definition waiter_notify (d : ptr) (status : Z) : M (world K) unit :=
  notify_all (fun p => upd_pkn p (set_kn_proc_status status)) d.

Definition waiter_notify_error (d : ptr) (wait_errno : Z) : M (world K) unit :=
  notify_all (fun p => upd_kn p (fun kn =>
    set_kev (set_data wait_errno (set_flags (setb (flags (kev kn)) EV_ERROR) (kev kn))) kn)) d.

(** ** The wait thread *)

Definition wait_options : Z := Z.lor WEXITED (Z.lor WNOWAIT WNOHANG).

(** [waitid], again when it is interrupted: the error, or what [info] holds. *)
Definition wait_pid (pid : Z) (info : siginfo) : M (world K) (siginfo * Z) :=
  loop fuel (fun _ : unit =>
    let! r := sys (SysWaitid pid wait_options) in
    match r with
    | Some info => ret (inr (info, 0))
    | None => let! e := errno in if e =? EINTR then ret (inl tt) else ret (inr (info, e))
    end) tt.

(** [RB_FOREACH_SAFE(ppd, pid_index, &proc_pid_index, ppd_tmp)]; [info] keeps what the
    last successful call stored. *)
Fixpoint scan_pids (n : nat) (info : siginfo) (cur : option entry) : M (world K) unit :=
  match cur with
  | None => ret tt
  | Some e =>
      match n with
      | O => fail OutOfFuel
      | S n =>
          let! r := get_ppd (e_ptr e) in
          let! t := gets (fun w => proc_pid_index (w_px w)) in
          let tmp := RB_NEXT e_key t (e_key e) in
          let! res := wait_pid (ppd_pid r) info in
          if res.2 =? ECHILD then waiter_notify_error (e_ptr e) ECHILD ;;; scan_pids n res.1 tmp
          else
            match waiter_siginfo_to_status res.1 with
            | Some status => waiter_notify (e_ptr e) status
            | None => ret tt
            end ;;;
            scan_pids n res.1 tmp
      end
  end.

(** The body of [wait_thread_loop] after sigwaitinfo returned [rv] with [info]. *)
Definition wait_thread_round (rv : Z) (info : siginfo) : M (world K) unit :=
  if rv <? 0 then ret tt
  else
    pid_index_lock ;;;
    (if 0 <? rv then
       let! d := find_pid (si_pid info) in
       match d, waiter_siginfo_to_status info with
       | Some d, Some status => waiter_notify d status
       | _, _ => ret tt
       end
     else ret tt) ;;;
    let! t := gets (fun w => proc_pid_index (w_px w)) in
    scan_pids (rb_size t) info (RB_MIN t) ;;;
    pid_index_unlock.

Definition evfilt_proc_libkqueue_fork : M (world K) unit :=
  upd_px (set_proc_wait_thread_created false) ;;;
  upd_px (set_proc_wait_tid 0) ;;;
  upd_px (set_proc_count 0).

(** ** The filter *)

(** The thread is created and has published that it started. *)
Definition wait_thread_start : M (world K) bool :=
  sys (SysSigmaskBlock {[SIGCHLD]}) ;;;
  let! r := sys SysPthreadCreate in
  match r with
  | None => ret false
  | Some tid =>
      upd_px (set_proc_wait_thread tid) ;;;
      upd_px (set_proc_wait_thread_created true) ;;;
      upd_px (set_proc_wait_tid tid) ;;;
      upd_px (set_proc_wait_thread_started true) ;;;
      ret true
  end.

Definition posix_evfilt_proc_init f : M (world K) Z :=
  let! rv := posix_eventfd_init have_pipe2 f in
  if rv <? 0 then ret (-1)
  else
    let! rv := posix_eventfd_register f.1 f in
    if rv <? 0 then posix_eventfd_close f ;;; ret (-1)
    else
      proc_init_lock ;;;
      let! n := gets (fun w => proc_count (w_px w)) in
      let! ok := (if n =? 0 then wait_thread_start else ret true) in
      if negb ok then proc_init_unlock ;;; posix_eventfd_close f ;;; ret (-1)
      else upd_px (fun x => set_proc_count (proc_count x + 1) x) ;;; proc_init_unlock ;;; ret 0.

Definition posix_evfilt_proc_destroy f : M (world K) unit :=
  proc_init_lock ;;;
  let! n := gets (fun w => proc_count (w_px w)) in
  assert_ (0 <? n) ;;;
  upd_px (set_proc_count (n - 1)) ;;;
  let! created := gets (fun w => proc_wait_thread_created (w_px w)) in
  (if (n - 1 =? 0) && created then
     let! th := gets (fun w => proc_wait_thread (w_px w)) in
     sys (SysPthreadCancel th) ;;;
     sys (SysPthreadJoin th) ;;;
     upd_px (set_proc_wait_thread_created false) ;;;
     upd_px (set_proc_wait_thread_started false)
   else ret tt) ;;;
  proc_init_unlock ;;;
  posix_eventfd_unregister f.1 f ;;;
  posix_eventfd_close f.

(** The entry of a process in the tree, made if there is none. *)
Definition proc_pid_entry (pid : Z) : M (world K) (option ptr) :=
  let! d := find_pid pid in
  match d with
  | Some d => ret (Some d)
  | None =>
      let! d := alloc in
      match d with
      | None => ret None
      | Some d =>
          put_ppd d (ProcPid pid []) ;;;
          let! t := gets (fun w => proc_pid_index (w_px w)) in
          let! res := deref NullDeref (RB_INSERT e_key t (Entry pid d)) in
          assert_ (bool_decide (res.1 = None)) ;;;
          upd_px (set_proc_pid_index res.2) ;;;
          ret (Some d)
      end
  end.

(** [LIST_INSERT_HEAD(&ppd->ppd_proc_waiters, kn, kn_proc.waiter)] *)
Definition waiter_insert (d : ptr) p : M (world K) unit :=
  let! s := get_pkn p in
  let! r := get_ppd d in
  if kn_waiting s then fail BadAddress
  else
    put_ppd d (set_ppd_proc_waiters (p :: ppd_proc_waiters r) r) ;;;
    upd_pkn p (set_kn_waiting true).

Definition proc_pid_arm f p : M (world K) Z :=
  pid_index_lock ;;;
  let! kn := get_kn p in
  let pid := pid_t (ident (kev kn)) in
  let! d := proc_pid_entry pid in
  match d with
  | None => pid_index_unlock ;;; ret (-1)
  | Some d =>
      waiter_insert d p ;;;
      let! r := sys (SysWaitid pid wait_options) in
      match r with
      | Some info =>
          if si_pid info =? pid then
            match waiter_siginfo_to_status info with
            | Some status => waiter_notify d status
            | None => ret tt
            end
          else ret tt
      | None => ret tt
      end ;;;
      pid_index_unlock ;;;
      ret 0
  end.

(** A knote that waits is on the list of the process it names. *)
Definition waiter_unlist p : M (world K) unit :=
  let! s := get_pkn p in
  if kn_waiting s then
    let! kn := get_kn p in
    let! d := find_pid (pid_t (ident (kev kn))) in
    let! d := deref BadAddress d in
    waiter_remove d p
  else ret tt.

Definition proc_pid_disarm p : M (world K) unit :=
  waiter_unlist p ;;;
  let! kn := get_kn p in
  let! d := find_pid (pid_t (ident (kev kn))) in
  match d with
  | None => ret tt
  | Some d =>
      let! r := get_ppd d in
      match ppd_proc_waiters r with [] => drop_ppd d | _ => ret tt end
  end.

(** The knote leaves the ready list, and an empty list lowers the eventfd. *)
Definition ready_drop f p : M (world K) unit :=
  upd_filt f (fun x => set_kf_ready (base.filter (fun r => r <> p) (kf_ready x)) x) ;;;
  let! x := get_filt f in
  match kf_ready x with [] => posix_eventfd_lower f ;;; ret tt | _ => ret tt end.

Definition posix_evfilt_proc_knote_create f p : M (world K) Z :=
  let! kn := get_kn p in
  if negb (has (fflags (kev kn)) NOTE_EXIT) then ret 0
  else if pid_t (ident (kev kn)) <=? 0 then set_errno EINVAL ;;; ret (-1)
  else
    let! s := get_pkn p in
    let! gone := (if kn_waiting s then ret false
                  else
                    let! r := sys (SysKill (pid_t (ident (kev kn)))) in
                    let! e := errno in
                    ret (bool_decide (r = None) && (e =? ESRCH))) in
    if gone then ret (-1)
    else
      let! rv := proc_pid_arm f p in
      if rv <? 0 then ret (-1)
      else
        upd_kn p (upd_flags (fun x => setb x EV_ONESHOT)) ;;;
        upd_kn p (upd_flags (fun x => setb x EV_CLEAR)) ;;;
        ret 0.

Definition posix_proc_preserve : Z := Z.lor EV_ONESHOT (Z.lor EV_CLEAR EV_RECEIPT).

Definition posix_evfilt_proc_knote_modify f p (k : kevent) : M (world K) Z :=
  let! s := get_pkn p in
  let want_armed := has (fflags k) NOTE_EXIT in
  upd_kn p (fun kn => set_kev (set_fflags (fflags k) (set_flags
    (Z.lor (clrb (flags k) posix_proc_preserve) (Z.land (flags (kev kn)) posix_proc_preserve)) (kev kn))) kn) ;;;
  if want_armed && negb (kn_waiting s) then
    let! rv := proc_pid_arm f p in
    if rv <? 0 then ret (-1)
    else upd_kn p (upd_flags (fun x => setb x (Z.lor EV_ONESHOT EV_CLEAR))) ;;; ret 0
  else if negb want_armed && kn_waiting s then
    pid_index_lock ;;; proc_pid_disarm p ;;; ready_drop f p ;;; pid_index_unlock ;;; ret 0
  else ret 0.

Definition posix_evfilt_proc_knote_delete f p : M (world K) Z :=
  pid_index_lock ;;; proc_pid_disarm p ;;; ready_drop f p ;;; pid_index_unlock ;;; ret 0.

Definition posix_evfilt_proc_knote_disable f p : M (world K) Z :=
  pid_index_lock ;;; waiter_unlist p ;;; ready_drop f p ;;; pid_index_unlock ;;; ret 0.

(** The event of a knote whose process has exited. *)
Definition proc_event (s : posix_knote) (kn : knote) : kevent :=
  set_data (kn_proc_status s) (set_flags (setb (flags (kev kn)) EV_EOF)
    (set_fflags NOTE_EXIT (kev kn))).

Definition proc_emit (dst : Z) p : M (world K) unit :=
  let! s := get_pkn p in
  let! kn := get_kn p in
  store dst (proc_event s kn).

(** The drain of the whole ready list, for a dispatcher that names no knote. *)
Fixpoint proc_drain (n : nat) f (dst_p dst_end : Z) : M (world K) (option Z) :=
  let! x := get_filt f in
  match kf_ready x with
  | [] => ret (Some dst_p)
  | p :: _ =>
      if dst_end <=? dst_p then ret (Some dst_p)
      else
        match n with
        | O => fail OutOfFuel
        | S n =>
            upd_filt f (fun x => set_kf_ready (base.filter (fun r => r <> p) (kf_ready x)) x) ;;;
            proc_emit dst_p p ;;;
            let! rv := knote_copyout_flag_actions f p in
            if rv <? 0 then ready_insert f p ;;; ret None
            else proc_drain n f (dst_p + 1) dst_end
        end
  end.

Definition posix_evfilt_proc_copyout (dst nevents : Z) f (src : option ptr) (ev : raw_event)
    : M (world K) Z :=
  match src with
  | Some p =>
      pid_index_lock ;;; proc_emit dst p ;;; pid_index_unlock ;;;
      let! rv := knote_copyout_flag_actions f p in
      ret (if rv <? 0 then -1 else 1)
  | None =>
      pid_index_lock ;;;
      let! x := get_filt f in
      let! r := proc_drain (length (kf_ready x)) f dst (dst + nevents) in
      match r with
      | None => pid_index_unlock ;;; ret (-1)
      | Some dst_p =>
          let! x := get_filt f in
          match kf_ready x with [] => posix_eventfd_lower f ;;; ret tt | _ => ret tt end ;;;
          pid_index_unlock ;;;
          ret (dst_p - dst)
      end
  end.

Definition posix_evfilt_proc : filter_src K :=
  FilterSrc EVFILT_PROC (FilterOps (Some posix_evfilt_proc_init) (Some posix_evfilt_proc_destroy)
    posix_evfilt_proc_copyout posix_evfilt_proc_knote_create posix_evfilt_proc_knote_modify
    posix_evfilt_proc_knote_delete posix_evfilt_proc_knote_create posix_evfilt_proc_knote_disable).
End Proc.
