(* ===== verification/PosixProcSpec.v ===== *)
(** * Exits of processes reach their waiters

    The claim about src/posix/proc.c: one round of the wait thread moves every knote
    that waits for an exited process to the ready list of its filter, with the status
    of the process, and leaves the other knotes waiting. *)

From Stdlib Require Import ZArith Lia Bool.
From stdpp Require Import base list gmap.
From S2P Require Import Prelude RBTree Event Map State Ops Knote Filter PosixPlatform PosixReadWrite PosixProc.

(** What the waiters of a process are told. *)
Inductive verdict := Exited (status : Z) | Reaped (wait_errno : Z).

Definition mark_kn (v : verdict) (kn : knote) : knote :=
  match v with
  | Exited _ => kn
  | Reaped e => set_kev (set_data e (set_flags (setb (flags (kev kn)) EV_ERROR) (kev kn))) kn
  end.
Definition mark_pkn (v : verdict) (s : posix_knote) : posix_knote :=
  match v with Exited st => set_kn_proc_status st s | Reaped _ => s end.

Lemma filter_ne_id {A : Type} `{EqDecision A} (a : A) (l : list A) :
  a ∉ l -> base.filter (fun x => x <> a) l = l.
Proof.
  induction l as [|b l IH]; intros Ha; [done|]. rewrite filter_cons, decide_True by set_solver. f_equal. set_solver.
Qed.

Section Rules.
Context {K : Type} `{OS K} `{FilterList K}.
(** The states of the kernel in which no process changes; writing to a pipe does not
    leave them. *)
Context (calm : K -> Prop) (Hcalm : forall fd n k, calm k -> calm (os_call (SysWrite fd n) k).2).
Implicit Types (w : world K) (p q d : ptr) (f : filt_ref) (ws : list ptr).

Definition ppds w : gmap ptr proc_pid := px_ppds (w_px w).
Definition index w : tree entry := proc_pid_index (w_px w).

(** The slot of the filter of a knote. *)
Definition filt_of w p : option filt_ref :=
  kn ← w_knotes w !! p; q ← kn_kq kn;
  if Z.lnot (filter_ (kev kn)) <? 0 then None else Some (q, Z.to_nat (Z.lnot (filter_ (kev kn)))).

(** A knote that waits for [pid]: it is alive, its slot exists and does not have it on
    its ready list. *)
Definition waiter_ok w (pid : Z) p : Prop := exists f x,
  filt_of w p = Some f /\ slot_of w f.1 f.2 = Some x /\ (p ∉ kf_ready x) /\
  (forall kn, w_knotes w !! p = Some kn -> pid_t (ident (kev kn)) = pid).

(** The mark of a verdict as the code makes it. *)
Definition mark (v : verdict) p : M (world K) unit :=
  match v with
  | Exited st => upd_pkn p (set_kn_proc_status st)
  | Reaped e => upd_kn p (fun kn =>
      set_kev (set_data e (set_flags (setb (flags (kev kn)) EV_ERROR) (kev kn))) kn)
  end.

(** [moved v ws w w']: the knotes [ws] have been marked, wait no longer and are on the
    ready lists of their filters, the last one first. *)
Record moved (v : verdict) ws w w' : Prop :=
  { mv_kn : forall p, w_knotes w' !! p = (if decide (p ∈ ws) then mark_kn v else id) <$> w_knotes w !! p;
    mv_pkn : forall p, pkn w' p = if decide (p ∈ ws) then set_kn_waiting false (mark_pkn v (pkn w p)) else pkn w p;
    mv_slot : forall f, slot_of w' f.1 f.2 =
      (fun x => set_kf_ready (reverse (base.filter (fun p => filt_of w p = Some f) ws) ++ kf_ready x) x) <$> slot_of w f.1 f.2;
    mv_mtx : proc_pid_index_mtx (w_px w') = proc_pid_index_mtx (w_px w);
    mv_calm : calm (w_os w) -> calm (w_os w') }.

(** The same, by steps that change the list of [d] only. *)
Record notif (v : verdict) d ws w w' : Prop :=
  { nf_moved : moved v ws w w';
    nf_index : index w' = index w;
    nf_ppds : forall e, e <> d -> ppds w' !! e = ppds w !! e }.

Lemma mark_kn_filt v kn : kn_kq (mark_kn v kn) = kn_kq kn /\ filter_ (kev (mark_kn v kn)) = filter_ (kev kn) /\
  ident (kev (mark_kn v kn)) = ident (kev kn).
Proof. by destruct v. Qed.

Lemma moved_filt v ws w w' p : moved v ws w w' -> filt_of w' p = filt_of w p.
Proof.
  intros Hn. unfold filt_of. rewrite (mv_kn _ _ _ _ Hn p). destruct (w_knotes w !! p) as [kn|]; [|done]. simpl.
  destruct (decide (p ∈ ws)); simpl; [|done]. destruct (mark_kn_filt v kn) as (-> & -> & _). done.
Qed.

Lemma notif_nil v d w w' :
  w_knotes w' = w_knotes w -> w_kqs w' = w_kqs w -> w_px w' = w_px w -> w_os w' = w_os w -> notif v d [] w w'.
Proof.
  intros E1 E2 E3 E4. split; [split|..]; unfold index, ppds, pkn; rewrite ?E1, ?E3, ?E4; try done.
  - intros p. simpl. by destruct (w_knotes w !! p).
  - intros f. unfold slot_of. rewrite E2. destruct (_ ≫= _) as [x|]; [|done]. by destruct x.
Qed.

Lemma moved_cons v p ws w w1 w2 :
  p ∉ ws -> moved v [p] w w1 -> moved v ws w1 w2 -> moved v (p :: ws) w w2.
Proof.
  intros Hp H1 H2. pose proof (fun r => moved_filt _ _ _ _ r H1) as Hf. destruct H1 as [A1 A2 A3 A4 A5], H2 as [B1 B2 B3 B4 B5].
  split; try congruence; [| | |by auto].
  - intros r. rewrite B1, A1. destruct (decide (r = p)) as [->|Hne].
    + rewrite (decide_False (P := p ∈ ws)), !decide_True by set_solver. by rewrite option_fmap_id.
    + rewrite (decide_False (P := r ∈ [p])) by set_solver. rewrite option_fmap_id.
      destruct (decide (r ∈ ws)); [rewrite decide_True by set_solver|rewrite decide_False by set_solver]; done.
  - intros r. rewrite B2, A2. destruct (decide (r = p)) as [->|Hne].
    + rewrite (decide_False (P := p ∈ ws)), !decide_True by set_solver. done.
    + rewrite (decide_False (P := r ∈ [p])) by set_solver.
      destruct (decide (r ∈ ws)); [rewrite decide_True by set_solver|rewrite decide_False by set_solver]; done.
  - intros f. rewrite B3, A3, <- option_fmap_compose. destruct (slot_of w f.1 f.2) as [x|]; [|done]. simpl. f_equal.
    rewrite (list_filter_iff (fun r => filt_of w1 r = Some f) (fun r => filt_of w r = Some f)) by (intros; by rewrite Hf).
    rewrite !filter_cons. destruct (decide (filt_of w p = Some f)); simpl; [|done].
    rewrite reverse_cons, <- app_assoc. done.
Qed.
Lemma notif_cons v d p ws w w1 w2 :
  p ∉ ws -> notif v d [p] w w1 -> notif v d ws w1 w2 -> notif v d (p :: ws) w w2.
Proof.
  intros Hp [A1 A2 A3] [B1 B2 B3]. split; [by eapply moved_cons|congruence|]. intros e He. rewrite B3, A3; done.
Qed.

Lemma wp_mark v p kn (Q : unit -> world K -> Prop) w :
  w_knotes w !! p = Some kn ->
  (forall w1, w_knotes w1 = <[p := mark_kn v kn]> (w_knotes w) -> (forall r, pkn w1 r = if decide (r = p) then mark_pkn v (pkn w p) else pkn w r) ->
     w_kqs w1 = w_kqs w -> ppds w1 = ppds w -> index w1 = index w ->
     proc_pid_index_mtx (w_px w1) = proc_pid_index_mtx (w_px w) -> w_os w1 = w_os w -> Q tt w1) ->
  wp (mark v p) Q w.
Proof.
  intros Ek HQ. destruct v as [st|e]; simpl.
  - apply wp_upd_pkn; [eauto|]. apply HQ; try done; [by rewrite insert_id|]. intros r.
    destruct (decide (r = p)) as [->|Hne]; [by rewrite pkn_set|by rewrite pkn_set_ne].
  - eapply wp_upd_kn; [done|]. apply HQ; try done. intros r. by case_decide; subst.
Qed.

Lemma wp_knote_get_filter p kn f (Q : filt_ref -> world K -> Prop) w :
  w_knotes w !! p = Some kn -> filt_of w p = Some f -> Q f w -> wp (knote_get_filter p) Q w.
Proof.
  intros Ek Hf HQ. unfold filt_of in Hf. rewrite Ek in Hf. simpl in Hf. unfold knote_get_filter. wp_simpl.
  eapply wp_get_kn; [done|]. destruct (kn_kq kn) as [q|]; [|done]. simpl in Hf. wp_simpl.
  destruct (_ <? 0); simplify_eq. done.
Qed.

Lemma wp_posix_eventfd_raise q i kq x (Q : Z -> world K -> Prop) w :
  w_kqs w !! q = Some kq -> kq_filt kq !! i = Some x ->
  (forall rv e k, (calm (w_os w) -> calm k) -> Q rv (set_w_errno e (set_w_os k w))) -> wp (posix_eventfd_raise (q, i)) Q w.
Proof.
  intros E Ei HQ. unfold posix_eventfd_raise, get_pf. wp_simpl. eapply wp_get_filt; [done..|]. wp_simpl.
  apply wp_sys; intros a k Hk; wp_simpl; [apply (HQ _ (w_errno w))|apply HQ]; intros Hc;
    apply (Hcalm (ef_wfd (pfilt w (q, i))) 1) in Hc; by rewrite Hk in Hc.
Qed.

Lemma wp_get_ppd d r (Q : proc_pid -> world K -> Prop) w : ppds w !! d = Some r -> Q r w -> wp (get_ppd d) Q w.
Proof. intros E HQ. unfold get_ppd. wp_simpl. unfold ppds in E. by rewrite E. Qed.

Lemma wp_waiter_remove d r p (Q : unit -> world K -> Prop) w :
  ppds w !! d = Some r -> is_Some (w_knotes w !! p) ->
  (forall w', w_knotes w' = w_knotes w -> w_kqs w' = w_kqs w ->
     (forall u, pkn w' u = if decide (u = p) then set_kn_waiting false (pkn w p) else pkn w u) ->
     ppds w' = <[d := set_ppd_proc_waiters (base.filter (fun x => x <> p) (ppd_proc_waiters r)) r]> (ppds w) ->
     index w' = index w -> proc_pid_index_mtx (w_px w') = proc_pid_index_mtx (w_px w) -> w_os w' = w_os w -> Q tt w') ->
  wp (waiter_remove d p) Q w.
Proof.
  intros Ed Hk HQ. unfold waiter_remove, get_ppd, put_ppd, upd_px. wp_simpl. unfold ppds in Ed. rewrite Ed. wp_simpl.
  apply wp_upd_pkn; [done|]. apply HQ; try done. intros u.
  destruct (decide (u = p)) as [->|Hne]; [by rewrite pkn_set|by rewrite pkn_set_ne].
Qed.

Lemma notify_step v d pid p ws (k : M (world K) unit) (Q : unit -> world K -> Prop) w :
  ppds w !! d = Some (ProcPid pid (p :: ws)) -> NoDup (p :: ws) -> waiter_ok w pid p ->
  (forall w', notif v d [p] w w' -> ppds w' !! d = Some (ProcPid pid ws) -> wp k Q w') ->
  wp (mark v p ;;; let! f := knote_get_filter p in ready_insert f p ;;; posix_eventfd_raise f ;;; waiter_remove d p ;;; k) Q w.
Proof.
  intros Ed [Hp Hnd]%NoDup_cons (f & x & Hf & Hx & Hr & Hid) HQ. assert (exists kn, w_knotes w !! p = Some kn) as [kn Ek].
  { unfold filt_of in Hf. destruct (w_knotes w !! p); [eauto|done]. }
  wp_simpl. eapply wp_mark; [done|]. intros w1 K1 P1 Q1 D1 I1 M1 O1. wp_simpl.
  assert (Ek1 : w_knotes w1 !! p = Some (mark_kn v kn)) by (rewrite K1; apply lookup_insert_eq).
  assert (Hf1 : filt_of w1 p = Some f).
  { unfold filt_of in *. rewrite Ek1. rewrite Ek in Hf. simpl in *. by destruct (mark_kn_filt v kn) as (-> & -> & _). }
  eapply wp_knote_get_filter; [done..|]. wp_simpl. unfold slot_of in Hx. destruct (w_kqs w !! f.1) as [kq|] eqn:Eq; [|done].
  simpl in Hx. unfold ready_insert. wp_simpl. destruct f as [q i]. simpl in *.
  eapply wp_get_filt; [by rewrite Q1|done|]. rewrite decide_False by done.
  eapply wp_put_filt; [by rewrite Q1|]. wp_simpl.
  eapply wp_posix_eventfd_raise; [apply lookup_insert_eq|simpl; apply list_lookup_insert_eq; by eapply lookup_lt_Some|].
  intros rv e k0 Hk0. wp_simpl. eapply wp_waiter_remove; [by rewrite <- D1 in Ed|simpl; eauto|].
  simpl. intros w' K2 Q2 P2 D2 I2 M2 O2. apply HQ.
  2: { rewrite D2, lookup_insert_eq. f_equal. unfold set_ppd_proc_waiters. simpl. f_equal.
       rewrite filter_cons, decide_False by auto. by apply filter_ne_id. }
  split; [split|..].
  - intros r. rewrite K2, K1. destruct (decide (r = p)) as [->|Hne].
    + rewrite lookup_insert_eq, decide_True, Ek by set_solver. done.
    + rewrite lookup_insert_ne, decide_False by set_solver. by rewrite option_fmap_id.
  - intros r. rewrite P2. destruct (decide (r = p)) as [->|Hne].
    + rewrite decide_True by set_solver. f_equal. etrans; [apply (P1 p)|]. by rewrite decide_True.
    + rewrite decide_False by set_solver. etrans; [apply (P1 r)|]. by rewrite decide_False.
  - intros [q' i']. simpl. unfold slot_of. rewrite Q2, Q1.
    rewrite filter_cons, filter_nil. destruct (decide (q' = q)) as [->|Hq].
    + rewrite lookup_insert_eq, Eq. simpl. destruct (decide (i' = i)) as [->|Hi].
      * rewrite list_lookup_insert_eq by (by eapply lookup_lt_Some). rewrite Hx, decide_True by done. done.
      * rewrite list_lookup_insert_ne, decide_False by congruence. destruct (kq_filt kq !! i') as [y|]; [|done]. by destruct y.
    + rewrite lookup_insert_ne, decide_False by congruence. simpl.
      destruct (w_kqs w !! q' ≫= _) as [y|]; [|done]. by destruct y.
  - by rewrite M2.
  - intros Hc. rewrite O2. apply Hk0. simpl. by rewrite O1.
  - by rewrite I2.
  - intros u Hu. rewrite D2, lookup_insert_ne by done. change (ppds w1 !! u = ppds w !! u). by rewrite D1.
Qed.

Lemma waiter_ok_moved v ws w w' pid p :
  moved v ws w w' -> p ∉ ws -> waiter_ok w pid p -> waiter_ok w' pid p.
Proof.
  intros Hn Hp (f & x & Hf & Hx & Hr & Hid). exists f. eexists. rewrite (moved_filt _ _ _ _ _ Hn), (mv_slot _ _ _ _ Hn f), Hx.
  split_and!; [done|done| |].
  - simpl. intros [Hin|Hin]%elem_of_app; [|done]. apply elem_of_reverse, list_elem_of_filter in Hin as [_ Hin]. done.
  - intros kn. rewrite (mv_kn _ _ _ _ Hn), decide_False, option_fmap_id by done. apply Hid.
Qed.

Lemma notify_loop_ok v d pid ws : forall n w,
  (length ws <= n)%nat -> ppds w !! d = Some (ProcPid pid ws) -> NoDup ws -> Forall (waiter_ok w pid) ws ->
  wp (notify_loop n (mark v) d) (fun _ w' => notif v d ws w w' /\ ppds w' !! d = Some (ProcPid pid [])) w.
Proof.
  induction ws as [|p ws IH]; intros n w Hn Ed Hnd Hok.
  { destruct n; cbn [notify_loop]; rewrite wp_bind; (eapply wp_get_ppd; [done|]); (split; [by apply notif_nil|done]). }
  destruct n as [|n]; simpl in Hn; [lia|]. cbn [notify_loop]. rewrite wp_bind. eapply wp_get_ppd; [done|].
  cbn [ppd_proc_waiters]. apply Forall_cons in Hok as [Hp Hok]. pose proof Hnd as [Hpn Hnd']%NoDup_cons.
  eapply notify_step; [done..|]. intros w1 Hn1 Ed1. eapply wp_mono; [|apply IH; [lia|done|done|]].
  - intros _ w' [Hn' Ed']. split; [by eapply notif_cons|done].
  - rewrite Forall_forall in Hok |- *. intros r Hr. eapply waiter_ok_moved; [apply Hn1| |by apply Hok]. set_solver.
Qed.

(** ** One process *)

(** The tree and the heap of processes agree, and their waiters are in order: every
    entry has its object, no object is lost, no knote waits twice. *)
Record proc_inv w : Prop :=
  { pv_wf : wf e_key (index w);
    pv_entry : forall e, e ∈ elements (index w) -> exists r, ppds w !! e_ptr e = Some r /\ ppd_pid r = e_key e;
    pv_ppd : forall d r, ppds w !! d = Some r -> Entry (ppd_pid r) d ∈ elements (index w);
    pv_nodup : forall d r, ppds w !! d = Some r -> NoDup (ppd_proc_waiters r);
    pv_waiter : forall d r p, ppds w !! d = Some r -> p ∈ ppd_proc_waiters r ->
      waiter_ok w (ppd_pid r) p /\ kn_waiting (pkn w p) = true }.

(** The waiters of [d] have been told and [d] is gone. *)
Record told (v : verdict) d ws w w' : Prop :=
  { to_moved : moved v ws w w';
    to_ppds : ppds w' = delete d (ppds w) }.

Lemma notify_all_ok v d r l1 l2 w :
  proc_inv w -> ppds w !! d = Some r -> elements (index w) = l1 ++ Entry (ppd_pid r) d :: l2 ->
  wp (notify_all (mark v) d) (fun _ w' => told v d (ppd_proc_waiters r) w w' /\
    wf e_key (index w') /\ elements (index w') = l1 ++ l2) w.
Proof.
  intros Hi Ed He. destruct r as [pid ws]. simpl in He. unfold notify_all. rewrite wp_bind. eapply wp_get_ppd; [done|]. simpl.
  rewrite wp_bind. eapply wp_mono; [|eapply (notify_loop_ok v d pid ws); [done|done|by apply (pv_nodup _ Hi d _ Ed)|]].
  2: { apply Forall_forall. intros p Hp. by apply (pv_waiter _ Hi d _ p Ed). }
  intros _ w1 [[Hm Hix Hpp] Ed1]. destruct (RB_REMOVE_wf e_key _ _ _ _ (pv_wf _ Hi) He) as (t & Hrm & Hwf & Het).
  unfold drop_ppd. rewrite wp_bind. eapply wp_get_ppd; [done|]. simpl. wp_simpl. change (proc_pid_index (w_px w1)) with (index w1).
  simpl in Hrm. rewrite Hix, Hrm. wp_simpl. unfold upd_px, free_ppd. wp_simpl. eapply wp_get_ppd; [done|]. wp_simpl.
  split; [|done]. split.
  - destruct Hm as [A1 A2 A3 A4 A5]. by split.
  - apply map_eq. intros e. change (delete d (ppds w1) !! e = delete d (ppds w) !! e).
    destruct (decide (e = d)) as [->|Hne]; [by rewrite !lookup_delete_eq|]. rewrite !lookup_delete_ne by done. by apply Hpp.
Qed.

(** A knote waits for one process. *)
Lemma waiter_unique w d d' r r' p :
  proc_inv w -> ppds w !! d = Some r -> ppds w !! d' = Some r' -> p ∈ ppd_proc_waiters r -> p ∈ ppd_proc_waiters r' -> d = d'.
Proof.
  intros Hi Ed Ed' Hp Hp'. destruct (pv_waiter _ Hi _ _ _ Ed Hp) as [(f & x & Hf & _ & _ & Hid) _].
  destruct (pv_waiter _ Hi _ _ _ Ed' Hp') as [(f' & x' & _ & _ & _ & Hid') _].
  assert (exists kn, w_knotes w !! p = Some kn) as [kn Ek] by (unfold filt_of in Hf; destruct (w_knotes w !! p); [eauto|done]).
  assert (ppd_pid r = ppd_pid r') as Hpid by (rewrite <- (Hid kn Ek), <- (Hid' kn Ek); done).
  pose proof (pv_ppd _ Hi _ _ Ed) as He. pose proof (pv_ppd _ Hi _ _ Ed') as He'.
  assert (Hs : search_tree e_key (index w)) by apply (pv_wf _ Hi).
  pose proof (proj2 (RB_FIND_elem e_key (ppd_pid r) _ _ Hs) (conj He eq_refl)) as H1.
  pose proof (proj2 (RB_FIND_elem e_key (ppd_pid r) _ _ Hs) (conj He' (eq_sym Hpid))) as H2. simplify_eq. done.
Qed.

Lemma entry_ptr_unique w e e' :
  proc_inv w -> e ∈ elements (index w) -> e' ∈ elements (index w) -> e_ptr e = e_ptr e' -> e = e'.
Proof.
  intros Hi He He' Hp. destruct (pv_entry _ Hi _ He) as (r & E & Hk). destruct (pv_entry _ Hi _ He') as (r' & E' & Hk').
  rewrite <- Hp in E'. simplify_eq. destruct e, e'; simpl in *; congruence.
Qed.

Lemma entry_once w e l1 l2 : proc_inv w -> elements (index w) = l1 ++ e :: l2 -> e ∉ l1 ++ l2.
Proof.
  intros Hi He. pose proof (sortedZ_NoDup _ (proj1 (pv_wf _ Hi))) as Hnd. apply NoDup_fmap_1 in Hnd. rewrite He in Hnd.
  rewrite <- Permutation_middle in Hnd. by apply NoDup_cons in Hnd as [? _].
Qed.

Lemma proc_inv_told v e r l1 l2 w w' :
  proc_inv w -> ppds w !! e_ptr e = Some r -> elements (index w) = l1 ++ e :: l2 ->
  told v (e_ptr e) (ppd_proc_waiters r) w w' -> wf e_key (index w') -> elements (index w') = l1 ++ l2 -> proc_inv w'.
Proof.
  intros Hi Ed He [Hm Hpp] Hwf He'.
  assert (Hne : forall e', e' ∈ l1 ++ l2 -> e_ptr e' <> e_ptr e).
  { intros e' Hin Heq. assert (e' = e) as -> by (apply (entry_ptr_unique w); [done|rewrite He; set_solver..|done]).
    by apply (entry_once _ _ _ _ Hi He). }
  assert (Ho : forall d r', ppds w' !! d = Some r' -> d <> e_ptr e /\ ppds w !! d = Some r').
  { intros d r'. rewrite Hpp. intros [? ?]%lookup_delete_Some. done. }
  split.
  - done.
  - intros e' Hin. rewrite He' in Hin. destruct (pv_entry _ Hi e') as (r' & E' & Hk); [rewrite He; set_solver|].
    exists r'. split; [|done]. rewrite Hpp, lookup_delete_ne; [done|]. by apply not_eq_sym, Hne.
  - intros d r' Hd. destruct (Ho d r' Hd) as [Hdne Hd']. pose proof (pv_ppd _ Hi _ _ Hd') as Hin. rewrite He' . rewrite He in Hin.
    apply elem_of_app in Hin as [?|[<-|?]%elem_of_cons]; [set_solver|done|set_solver].
  - intros d r' Hd. destruct (Ho d r' Hd) as [_ Hd']. by apply (pv_nodup _ Hi d).
  - intros d r' p Hd Hp. destruct (Ho d r' Hd) as [Hdne Hd']. destruct (pv_waiter _ Hi _ _ _ Hd' Hp) as [Hw Hk].
    assert (Hni : p ∉ ppd_proc_waiters r) by (intros Hin; by apply Hdne, (waiter_unique w d (e_ptr e) r' r p)).
    split; [by eapply waiter_ok_moved|]. rewrite (mv_pkn _ _ _ _ Hm), decide_False; done.
Qed.

(** ** The scan *)

(** A waiter of a process of [es] that has a verdict. *)
Definition victim (vd : Z -> option verdict) (es : list entry) w p (v : verdict) : Prop :=
  exists e r, e ∈ es /\ ppds w !! e_ptr e = Some r /\ p ∈ ppd_proc_waiters r /\ vd (ppd_pid r) = Some v.

(** The processes [es] have been asked for: the waiters of those with a verdict have
    been told and are ready, once each, and nothing else has changed. *)
Record scanned (vd : Z -> option verdict) (es : list entry) w w' : Prop :=
  { sc_inv : proc_inv w';
    sc_index : forall e, e ∈ elements (index w') <-> e ∈ elements (index w) /\ (e ∈ es -> vd (e_key e) = None);
    sc_ppds : forall d r, ppds w' !! d = Some r <-> ppds w !! d = Some r /\ Entry (ppd_pid r) d ∈ elements (index w');
    sc_told : forall p v, victim vd es w p v ->
      w_knotes w' !! p = mark_kn v <$> w_knotes w !! p /\ pkn w' p = set_kn_waiting false (mark_pkn v (pkn w p));
    sc_rest : forall p, (forall v, ~ victim vd es w p v) -> w_knotes w' !! p = w_knotes w !! p /\ pkn w' p = pkn w p;
    sc_slot : forall f x, slot_of w f.1 f.2 = Some x -> exists l,
      slot_of w' f.1 f.2 = Some (set_kf_ready (l ++ kf_ready x) x) /\
      forall p, p ∈ l <-> filt_of w p = Some f /\ exists v, victim vd es w p v;
    sc_mtx : proc_pid_index_mtx (w_px w') = proc_pid_index_mtx (w_px w) }.

Lemma scanned_nil vd w : proc_inv w -> scanned vd [] w w.
Proof.
  intros Hi. assert (Hv : forall p v, ~ victim vd [] w p v) by (intros p v (e & r & []%elem_of_nil & _)). split; try done.
  - intros e. set_solver.
  - intros d r. split; [|naive_solver]. intros Hd. split; [done|]. by apply (pv_ppd _ Hi).
  - intros p v Hp. by apply Hv in Hp.
  - intros f x Hx. exists []. rewrite Hx. split; [by destruct x|]. intros p. split; [by intros []%elem_of_nil|].
    intros [_ [v Hp]]. by apply Hv in Hp.
Qed.

Lemma scanned_os vd es k e w w' : scanned vd es (set_w_errno e (set_w_os k w)) w' -> scanned vd es w w'.
Proof. intros [A B C D E F G]. by split. Qed.

Lemma scanned_keep vd e es w w' :
  proc_inv w -> e ∈ elements (index w) -> e ∉ es -> vd (e_key e) = None -> scanned vd es w w' -> scanned vd (e :: es) w w'.
Proof.
  intros Hi Hin Hne Hv [A B C D E F G].
  assert (Hvi : forall p v, victim vd (e :: es) w p v <-> victim vd es w p v).
  { intros p v. split; intros (e' & r & He' & Ed & Hp & Hvd); exists e', r; split_and!; try done; [|set_solver].
    apply elem_of_cons in He' as [->|?]; [|done]. destruct (pv_entry _ Hi _ Hin) as (r' & Er' & Hk). simplify_eq. congruence. }
  split; try done.
  - intros e'. rewrite B. set_unfold. naive_solver.
  - intros p v Hp. by apply D, Hvi.
  - intros p Hp. apply E. intros v Hv'. by apply (Hp v), Hvi.
  - intros f x Hx. destruct (F f x Hx) as (l & Hl & Hpl). exists l. split; [done|]. intros p. rewrite Hpl. naive_solver.
Qed.

(** It does not matter in which order they are asked for. *)
Lemma scanned_order vd es es' w w' : (forall e, e ∈ es <-> e ∈ es') -> scanned vd es w w' -> scanned vd es' w w'.
Proof.
  intros He [A B C D E F G].
  assert (Hvi : forall p v, victim vd es' w p v <-> victim vd es w p v).
  { intros p v. unfold victim. by setoid_rewrite He. }
  split; try done.
  - intros e. by rewrite B, He.
  - intros p v Hp. by apply D, Hvi.
  - intros p Hp. apply E. intros v Hv. by apply (Hp v), Hvi.
  - intros f x Hx. destruct (F f x Hx) as (l & Hl & Hpl). exists l. split; [done|]. intros p. rewrite Hpl. naive_solver.
Qed.

Lemma scanned_tell vd v e es r w w1 w' :
  proc_inv w -> (forall e', e' ∈ elements (index w) <-> e' = e \/ e' ∈ elements (index w1)) ->
  e ∉ elements (index w1) -> (forall e', e' ∈ es -> e' ∈ elements (index w1)) ->
  ppds w !! e_ptr e = Some r -> vd (e_key e) = Some v -> told v (e_ptr e) (ppd_proc_waiters r) w w1 ->
  scanned vd es w1 w' -> scanned vd (e :: es) w w'.
Proof.
  intros Hi He Hnd Hes Ed Hv [Hm Hpp] [A B C D E F G].
  assert (Hin : e ∈ elements (index w)) by (apply He; by left).
  assert (Hkey : ppd_pid r = e_key e) by (destruct (pv_entry _ Hi _ Hin) as (r' & Er' & Hk); by simplify_eq).
  assert (Hne : forall e', e' ∈ es -> e_ptr e' <> e_ptr e).
  { intros e' Hin' Heq. apply Hes in Hin'.
    assert (e' = e) as -> by (apply (entry_ptr_unique w); [done|apply He; by right|done|done]). done. }
  (* the victims: the waiters of [e], and those of the others *)
  assert (Hvi : forall p u, victim vd (e :: es) w p u <-> (p ∈ ppd_proc_waiters r /\ u = v) \/ victim vd es w1 p u).
  { intros p u. split.
    - intros (e' & r' & He' & Ed' & Hp & Hvd). apply elem_of_cons in He' as [->|He']; [left; simplify_eq; split; congruence|].
      right. exists e', r'. split_and!; try done. rewrite Hpp, lookup_delete_ne; [done|by apply not_eq_sym, Hne].
    - intros [[Hp ->]|(e' & r' & He' & Ed' & Hp & Hvd)].
      + exists e, r. split_and!; try done; [set_solver|congruence].
      + exists e', r'. split_and!; try done; [set_solver|]. rewrite Hpp in Ed'. by apply lookup_delete_Some in Ed' as [_ ?]. }
  assert (Hdis : forall p u, p ∈ ppd_proc_waiters r -> ~ victim vd es w1 p u).
  { intros p u Hp (e' & r' & He' & Ed' & Hp' & _). rewrite Hpp in Ed'. apply lookup_delete_Some in Ed' as [Hn Ed'].
    by apply Hn, (waiter_unique w (e_ptr e) (e_ptr e') r r' p). }
  split; try done.
  - intros e'. rewrite B, He. set_unfold. split.
    + intros [Hor Hk]. split; [naive_solver|]. intros [->|?]; [done|auto].
    + intros [[->|?] Hk]; [|naive_solver]. exfalso. rewrite (Hk (or_introl eq_refl)) in Hv. done.
  - intros d r'. rewrite C, Hpp, lookup_delete_Some. split; [naive_solver|]. intros [Hd Hin']. split; [|done]. split; [|done].
    intros <-. simplify_eq. apply B in Hin' as [Hin' _]. rewrite Hkey in Hin'. by destruct e.
  - intros p u Hp. apply Hvi in Hp as [[Hp ->]|Hp].
    + destruct (E p) as [E1 E2]; [intros u; by apply Hdis|]. rewrite E1, E2, (mv_kn _ _ _ _ Hm), (mv_pkn _ _ _ _ Hm), !decide_True by done. done.
    + assert (Hn : p ∉ ppd_proc_waiters r) by (intros Hin'; by apply (Hdis p u)).
      destruct (D p u Hp) as [D1 D2]. rewrite D1, D2, (mv_kn _ _ _ _ Hm), (mv_pkn _ _ _ _ Hm), !decide_False by done.
      by rewrite option_fmap_id.
  - intros p Hp. assert (Hn : p ∉ ppd_proc_waiters r) by (intros Hin'; apply (Hp v), Hvi; by left).
    destruct (E p) as [E1 E2]; [intros u Hu; apply (Hp u), Hvi; by right|].
    rewrite E1, E2, (mv_kn _ _ _ _ Hm), (mv_pkn _ _ _ _ Hm), !decide_False by done. by rewrite option_fmap_id.
  - intros f x Hx. pose proof (mv_slot _ _ _ _ Hm f) as Hs. rewrite Hx in Hs. simpl in Hs.
    destruct (F f _ Hs) as (l & Hl & Hpl). simpl in Hl. eexists (l ++ reverse (base.filter (fun p => filt_of w p = Some f) _)).
    split; [rewrite Hl, app_assoc; done|]. intros p. rewrite elem_of_app, elem_of_reverse, list_elem_of_filter, Hpl.
    rewrite (moved_filt _ _ _ _ _ Hm). setoid_rewrite Hvi. naive_solver.
  - by rewrite G, (mv_mtx _ _ _ _ Hm).
Qed.

(** ** The wait thread *)

(** What waitid says of each process; it fails only for one that is not a child. *)
Section Kernel.
Context (ans : Z -> sysres siginfo).

Definition verdict_of (pid : Z) : option verdict :=
  match ans pid with SOk i => Exited <$> waiter_siginfo_to_status i | SErr e => Some (Reaped e) end.

Record waits_as : Prop :=
  { wa_ans : forall pid k, calm k -> exists k', os_call (SysWaitid pid wait_options) k = (ans pid, k') /\ calm k';
    wa_err : forall pid e, ans pid = SErr e -> e = ECHILD }.

Lemma wait_pid_ok n pid info (Q : siginfo * Z -> world K -> Prop) w :
  waits_as -> calm (w_os w) -> (forall k e i, calm k -> ans pid = SOk i -> Q (i, 0) (set_w_errno e (set_w_os k w))) ->
  (forall k e, calm k -> ans pid = SErr ECHILD -> Q (info, ECHILD) (set_w_errno e (set_w_os k w))) ->
  wp (wait_pid (S n) pid info) Q w.
Proof.
  intros [Ha Hae] Hc H1 H2. unfold wait_pid. cbn [loop]. wp_simpl. destruct (Ha pid (w_os w) Hc) as (k' & Hk' & Hc').
  apply wp_sys; rewrite Hk'; intros a k [= Hans <-]; wp_simpl.
  - by apply (H1 k' (w_errno w)).
  - unfold errno. wp_simpl. simpl. pose proof (Hae _ _ Hans) as ->. wp_simpl. by apply H2.
Qed.

Lemma scan_ok m es : forall n info l1 w,
  waits_as -> calm (w_os w) -> (length es <= n)%nat -> proc_inv w -> elements (index w) = l1 ++ es ->
  wp (scan_pids (S m) n info (head es)) (fun _ w' => scanned verdict_of es w w') w.
Proof.
  induction es as [|e es IH]; intros n info l1 w Hw Hc Hn Hi He.
  { destruct n; by apply scanned_nil. }
  destruct n as [|n]; simpl in Hn; [lia|]. change (head (e :: es)) with (Some e). cbn [scan_pids].
  assert (Hin : e ∈ elements (index w)) by (rewrite He; set_solver).
  destruct (pv_entry _ Hi _ Hin) as (r & Ed & Hk).
  pose proof (entry_once _ _ _ _ Hi He) as Hni.
  rewrite wp_bind. eapply wp_get_ppd; [done|]. rewrite wp_bind, wp_gets. change (proc_pid_index (w_px w)) with (index w).
  rewrite (RB_NEXT_succ e_key _ l1 es e (proj1 (pv_wf _ Hi)) He). rewrite wp_bind.
  assert (Htell : forall k er v info', calm k -> verdict_of (e_key e) = Some v ->
    wp (notify_all (mark v) (e_ptr e) ;;; scan_pids (S m) n info' (head es)) (fun _ w' => scanned verdict_of (e :: es) w w')
      (set_w_errno er (set_w_os k w))).
  { intros k er v info' Hck Hv. rewrite wp_bind.
    assert (Hi1 : proc_inv (set_w_errno er (set_w_os k w))) by (destruct Hi; by split).
    eapply wp_mono; [|eapply (notify_all_ok v (e_ptr e) r l1 es (set_w_errno er (set_w_os k w))); [done|exact Ed|]].
    2: { change (index (set_w_errno er (set_w_os k w))) with (index w). rewrite He, Hk. by destruct e. }
    intros _ w1 (Ht & Hwf & He1). eapply wp_mono; [|eapply (IH n info' l1 w1); [done|by apply Ht|lia| |done]].
    - intros ? w' Hs. apply (scanned_os _ _ k er). eapply scanned_tell; try done.
      + intros e'. change (index (set_w_errno er (set_w_os k w))) with (index w). rewrite He, He1. set_solver.
      + by rewrite He1.
      + intros e' Hin'. rewrite He1. set_solver.
    - eapply (proc_inv_told v e r l1 es); [exact Hi1|done|exact He|done..]. }
  assert (Hskip : forall k er info', calm k -> verdict_of (e_key e) = None ->
    wp (scan_pids (S m) n info' (head es)) (fun _ w' => scanned verdict_of (e :: es) w w') (set_w_errno er (set_w_os k w))).
  { intros k er info' Hck Hv. eapply wp_mono; [|eapply (IH n info' (l1 ++ [e])); [done|done|lia| |]].
    - intros ? w' Hs. apply scanned_os in Hs. apply scanned_keep; try done. set_solver.
    - destruct Hi; by split.
    - change (index (set_w_errno er (set_w_os k w))) with (index w). by rewrite He, <- app_assoc. }
  apply wait_pid_ok; [done|done|..].
  - intros k er i Hck Hans. rewrite Hk in Hans. cbn [fst snd].
    assert (Hv : verdict_of (e_key e) = Exited <$> waiter_siginfo_to_status i) by (unfold verdict_of; by rewrite Hans).
    change (0 =? ECHILD) with false. cbn iota. destruct (waiter_siginfo_to_status i) as [st|]; [by apply (Htell k er (Exited st))|].
    rewrite wp_bind, wp_ret. by apply Hskip.
  - intros k er Hck Hans. rewrite Hk in Hans. cbn [fst snd]. rewrite Z.eqb_refl. apply (Htell k er (Reaped ECHILD)); [done|].
    unfold verdict_of. by rewrite Hans.
Qed.

Definition with_mtx n w : world K := set_w_px (set_proc_pid_index_mtx n (w_px w)) w.

Lemma proc_inv_mtx n w : proc_inv w -> proc_inv (with_mtx n w).
Proof. intros [A B C D E]. by split. Qed.

(** Locking and unlocking around a scan. *)
Lemma scanned_lock vd es n w w' :
  scanned vd es (with_mtx n w) w' -> scanned vd es w (with_mtx (proc_pid_index_mtx (w_px w)) w').
Proof. intros [A B C D E F G]. split; try done. by apply proc_inv_mtx. Qed.

(** The process named by SIGCHLD is told first. *)
Lemma first_ok rv info w (Q : unit -> world K -> Prop) :
  proc_inv w -> calm (w_os w) ->
  (0 < rv -> forall st, waiter_siginfo_to_status info = Some st -> verdict_of (si_pid info) = Some (Exited st)) ->
  (forall w1, proc_inv w1 -> calm (w_os w1) ->
     (forall w', scanned verdict_of (elements (index w1)) w1 w' -> scanned verdict_of (elements (index w)) w w') -> Q tt w1) ->
  wp (if 0 <? rv then
       let! o := find_pid (si_pid info) in
       match o, waiter_siginfo_to_status info with
       | Some d, Some status => waiter_notify d status
       | _, _ => ret tt
       end
     else ret tt) Q w.
Proof.
  intros Hi Hc Hsig HQ. assert (Hsame : Q tt w) by (apply (HQ w); done).
  destruct (Z.ltb_spec 0 rv) as [Hrv|]; [|done]. unfold find_pid. wp_simpl. change (proc_pid_index (w_px w)) with (index w).
  destruct (RB_FIND e_key (index w) (si_pid info)) as [e|] eqn:Hfind; simpl; [|done].
  destruct (waiter_siginfo_to_status info) as [st|] eqn:Hst; [|done].
  apply RB_FIND_elem in Hfind as [Hin Hkey]; [|apply (pv_wf _ Hi)].
  destruct (pv_entry _ Hi _ Hin) as (r & Ed & Hk). pose proof Hin as (l1 & l2 & He)%list_elem_of_split.
  pose proof (entry_once _ _ _ _ Hi He) as Hni.
  eapply wp_mono; [|apply (notify_all_ok (Exited st) (e_ptr e) r l1 l2 w Hi Ed); rewrite He, Hk; by destruct e].
  intros [] w1 (Ht & Hwf & He1). apply (HQ w1); [by eapply proc_inv_told|by apply Ht|]. intros w' Hs.
  apply (scanned_order _ (e :: elements (index w1))); [intros e'; rewrite He, He1; set_solver|].
  eapply scanned_tell; try done.
  - intros e'. rewrite He, He1. set_solver.
  - by rewrite He1.
  - rewrite Hkey. by apply Hsig.
Qed.

(** C26: one round of the wait thread, at its start or after SIGCHLD, asks waitid for every
    process of the tree and returns: each knote that waits for a process that has
    exited, or that is no child any more, is marked with the status (or the error),
    waits no longer and is once more on the ready list of its own filter, whatever
    kqueue that belongs to; the entry of such a process is gone.  Every other knote,
    entry and ready list is as it was, the tree and the heap of processes still agree,
    and the mutex is free again. *)
Theorem proc_exits_delivered n rv info w :
  waits_as -> calm (w_os w) -> proc_inv w -> 0 <= rv ->
  (0 < rv -> forall st, waiter_siginfo_to_status info = Some st -> verdict_of (si_pid info) = Some (Exited st)) ->
  wp (wait_thread_round (S n) rv info) (fun _ w' => scanned verdict_of (elements (index w)) w w') w.
Proof.
  intros Hw Hc Hi Hrv Hsig. unfold wait_thread_round. replace (rv <? 0) with false by (symmetry; apply Z.ltb_ge; lia).
  unfold pid_index_lock, upd_px. rewrite wp_bind, wp_modify, wp_bind.
  change (set_w_px (set_proc_pid_index_mtx (S (proc_pid_index_mtx (w_px w))) (w_px w)) w)
    with (with_mtx (S (proc_pid_index_mtx (w_px w))) w).
  apply first_ok; [by apply proc_inv_mtx|done|done|]. intros w1 Hi1 Hc1 Hs1. rewrite wp_bind, wp_gets, wp_bind, RB_MIN_head.
  change (proc_pid_index (w_px w1)) with (index w1).
  eapply wp_mono; [|apply (scan_ok n (elements (index w1)) _ info [] w1 Hw Hc1); [done|done|done]].
  intros ? w2 Hs2. apply Hs1 in Hs2. pose proof (sc_mtx _ _ _ _ Hs2) as Hm. unfold pid_index_unlock, upd_px. wp_simpl.
  simpl in Hm. rewrite Hm. wp_simpl. by apply scanned_lock in Hs2.
Qed.
End Kernel.
End Rules.
