(* ===== verification/PosixBuild.v ===== *)
(** * A POSIX build: its list of filters

    [filter_list.h] of a build on the POSIX backend, with the filters modelled here:
    read, write, vnode, proc, timer, user and libkqueue.  The list is tied like that
    of [LinuxBuild]: a delivery consults the list below it. *)

From Stdlib Require Import ZArith Lia Bool.
From stdpp Require Import base list gmap.
From S2P Require Import Prelude RBTree Event Map State Ops Knote Filter Kqueue Kevent LibkqueueFilter PosixPlatform PosixTimer PosixKevent PosixUser PosixReadWrite PosixVnode PosixProc.

Section Build.
Context {K : Type} `{OS K} (C : version) (have_pipe2 : bool) (fuel : nat).

Definition posix_filters_over (L : FilterList K) : list (filter_src K) :=
  [posix_evfilt_read; posix_evfilt_write; posix_evfilt_vnode; posix_evfilt_proc have_pipe2;
   posix_evfilt_timer; posix_evfilt_user have_pipe2; evfilt_libkqueue (posix_kqops fuel) C].

Fixpoint posix_filters (depth : nat) : FilterList K :=
  match depth with O => [] | S d => posix_filters_over (posix_filters d) end.
End Build.
