(* ===== verification/PosixDispatch.v ===== *)
(** * Dispatch over the ready list: claims

    [posix_dispatch_filter] walks the ready list of a filter with LIST_FOREACH_SAFE:
    the successor is read before the knote is copied out, which is safe as long as
    copying out one knote frees no other one. *)

From Stdlib Require Import ZArith Lia Bool.
From stdpp Require Import base list gmap.
From S2P Require Import Prelude RBTree Event Map State Ops Knote Filter PosixPlatform PosixTimer PosixKevent.

Section Dispatch.
Context {K : Type} `{OS K} `{FilterList K}.
Implicit Types (w : world K) (p q r : ptr) (f : filt_ref).

(** The knote [p] has left the ready list of the slot [i] of [q]. *)
Definition detach q kq (i : nat) (x : filter) p w : world K :=
  set_w_kqs (<[q := set_kq_filt (<[i := set_kf_ready (base.filter (fun r => r <> p) (kf_ready x)) x]>
    (kq_filt kq)) kq]> (w_kqs w)) w.

Lemma run_wp {A : Type} (m : M (world K) A) a w w' : wp m (fun b u => b = a /\ u = w') w -> m w = Ret a w'.
Proof. intros (b & u & E & -> & ->)%wp_elim. done. Qed.
Lemma bind_run {A B : Type} (m : M (world K) A) (k : A -> M (world K) B) w a w' :
  m w = Ret a w' -> bind m k w = k a w'.
Proof. unfold bind. by intros ->. Qed.

Lemma bind_fault {A B : Type} (m : M (world K) A) (k : A -> M (world K) B) w e :
  m w = Fault e -> bind m k w = Fault e.
Proof. unfold bind. by intros ->. Qed.

(** C38: dispatching a ready list whose first knote, when it is copied out, takes the
    second one with it, reads the freed knote.  This happens with EVFILT_VNODE, whose
    copyout ignores the knote it is given and delivers, and with EV_ONESHOT deletes,
    every knote of the filter that has changed: two one-shot knotes that were disabled
    and enabled again are on the ready list together. *)
Theorem dispatch_freed_successor q i kq x p r l o el nev rv w w' :
  w_kqs w !! q = Some kq -> kq_filt kq !! i = Some x -> kf_ready x = p :: r :: l -> r <> p ->
  is_Some (w_knotes w !! p) -> kf_impl x ≫= ops_table = Some o -> 0 < nev ->
  kf_copyout o el nev (q, i) (Some p) no_event (detach q kq i x p w) = Ret rv w' -> 0 <= rv ->
  w_knotes w' !! r = None ->
  posix_dispatch_filter (q, i) el nev w = Fault UseAfterFree.
Proof.
  intros E Ei Hr Hrp [kn Ek] Ho Hn Hc Hrv Hfree.
  assert (Hx : get_filt (q, i) w = Ret x w) by (apply run_wp; by eapply wp_get_filt).
  unfold posix_dispatch_filter. rewrite (bind_run _ _ _ _ _ Hx), Hr. simpl.
  rewrite (bind_run _ _ _ kn w) by (apply run_wp; by eapply wp_get_kn). rewrite (bind_run _ _ _ _ _ Hx), Hr.
  replace (nev <=? 0) with false by (symmetry; apply Z.leb_gt; lia).
  rewrite (bind_run _ _ _ tt (detach q kq i x p w)) by (apply run_wp; by eapply wp_upd_filt).
  rewrite (bind_run _ _ _ o (detach q kq i x p w)).
  2: { apply run_wp. unfold filt_ops. wp_simpl.
       eapply wp_get_filt; [apply lookup_insert_eq|simpl; rewrite list_lookup_insert_eq; [done|by eapply lookup_lt_Some]|].
       simpl. by rewrite Ho. }
  rewrite Z.add_0_r, Z.sub_0_r, (bind_run _ _ _ _ _ Hc).
  replace (rv <? 0) with false by (symmetry; apply Z.ltb_ge; lia).
  simpl. rewrite decide_True by done. apply bind_fault.
  unfold get_kn, bind, gets. by rewrite Hfree.
Qed.
End Dispatch.
