(* ===== verification/SolarisPlatform.v ===== *)
(** * Event ports: src/solaris/platform.c, platform.h and eventfd.c

    A kqueue is an event port.  Every registration carries the address of a
    [port_udata] of its knote, which outlives the knote by the same epochs as on
    Linux.  A port event is dispatched by its source; descriptors and files are
    watched for one event only and associated again after delivery.  What other
    backends do with an eventfd is a user event sent to the port. *)

From Stdlib Require Import ZArith Lia Bool.
From stdpp Require Import base list gmap.
From S2P Require Import Prelude RBTree Event Map State Ops Knote Filter LinuxUdata.

(** The constants of <port.h>, <poll.h> and <errno.h> of illumos. *)
Definition PORT_SOURCE_TIMER : Z := 2.
Definition PORT_SOURCE_USER : Z := 3.
Definition PORT_SOURCE_FD : Z := 4.
Definition PORT_SOURCE_ALERT : Z := 5.
Definition PORT_SOURCE_FILE : Z := 7.
Definition PORT_ALERT_SET : Z := 1.
Definition POLLIN : Z := 0x1.
Definition POLLOUT : Z := 0x4.
Definition POLLERR : Z := 0x8.
Definition POLLHUP : Z := 0x10.
Definition POLLRDHUP : Z := 0x4000.
Definition ETIME : Z := 62.

Definition sol_knote_zero : sol_knote := SolKnote 0 0 0 None None 0.
Definition sol_filt_zero : sol_filt := SolFilt 0 0.

Section Solaris.
Context {K : Type} `{OS K}.
Implicit Types (w : world K) (p q : ptr) (f : filt_ref).

(** ** Access to the members of this backend *)

Definition upd_sl (g : solaris -> solaris) : M (world K) unit :=
  modify (fun w => set_w_sl (g (w_sl w)) w).
Definition skn w p : sol_knote := default sol_knote_zero (sl_knotes (w_sl w) !! p).
Definition sfilt w f : sol_filt := default sol_filt_zero (sl_filts (w_sl w) !! f).

Definition get_skn p : M (world K) sol_knote := get_kn p ;;; gets (fun w => skn w p).
Definition upd_skn p (g : sol_knote -> sol_knote) : M (world K) unit :=
  let! k := get_skn p in upd_sl (fun x => set_sl_knotes (<[p := g k]> (sl_knotes x)) x).
Definition get_sf f : M (world K) sol_filt := get_filt f ;;; gets (fun w => sfilt w f).
Definition upd_sf f (g : sol_filt -> sol_filt) : M (world K) unit :=
  let! k := get_sf f in upd_sl (fun x => set_sl_filts (<[f := g k]> (sl_filts x)) x).

(** [filter_epoll_fd(filt)]: the port of the filter's kqueue *)
Definition filter_port f : M (world K) Z := let! kq := get_kq f.1 in ret (kq_id kq).
(** [kn->kn_udata] as the user pointer of a registration *)
Definition udata_user (o : option ptr) : port_user := match o with Some u => PuUdata u | None => PuNull end.

(** The calls of which only the success is looked at. *)
Definition port_associate (port source : Z) (obj : port_object) (events : Z) (user : port_user)
    : M (world K) bool :=
  let! r := sys (SysPortAssociate port source obj events user) in ret (bool_decide (r = Some tt)).
Definition port_dissociate (port source : Z) (obj : port_object) : M (world K) unit :=
  sys (SysPortDissociate port source obj) ;;; ret tt.

(** ** Udatas *)

Definition port_udata_alloc p : M (world K) (option ptr) :=
  let! r := alloc in
  match r with
  | None => ret None
  | Some u => put_ud u (EpollUdata EPOLL_UDATA_KNOTE (ud_kn p) false 0) ;;; ret (Some u)
  end.

Definition port_udata_defer_free q (o : option ptr) : M (world K) unit :=
  kqueue_mutex_assert q ;;;
  match o with
  | None => ret tt
  | Some u =>
      let! d := get_ud u in
      assert_ (negb (ud_stale d)) ;;;
      let! kq := get_kq q in
      put_ud u (set_ud_boundary_epoch (kq_next_epoch kq) (set_ud_stale true d)) ;;;
      upd_kq q (fun kq => set_ud_deferred_free (ud_deferred_free kq ++ [u]) kq)
  end.

Definition PORT_UDATA_ALLOC p : M (world K) (option ptr) :=
  let! u := port_udata_alloc p in
  upd_kn p (set_kn_udata u) ;;; ret u.
Definition PORT_UDATA_FREE p : M (world K) unit :=
  let! kn := get_kn p in
  free_udata (kn_udata kn) ;;; upd_kn p (set_kn_udata None).
Definition PORT_UDATA_DEFER_FREE q p : M (world K) unit :=
  let! kn := get_kn p in
  port_udata_defer_free q (kn_udata kn) ;;; upd_kn p (set_kn_udata None).

(** ** Epochs *)

(** [while ((u = TAILQ_FIRST(&kq->ud_deferred_free)) && ...)] over the queue [l];
    [limit] is the epoch of the oldest caller. *)
Fixpoint reclaim q (limit : option Z) (l : list ptr) : M (world K) unit :=
  match l with
  | [] => ret tt
  | u :: l' =>
      let! d := get_ud u in
      if match limit with None => true | Some e => ud_boundary_epoch d <? e end then
        upd_kq q (set_ud_deferred_free l') ;;; free_ud u ;;; reclaim q limit l'
      else ret tt
  end.

Definition solaris_kqueue_deferred_sweep q : M (world K) unit :=
  kqueue_mutex_assert q ;;;
  let! kq := get_kq q in
  reclaim q (epoch <$> head (kq_inflight kq)) (ud_deferred_free kq).

Definition solaris_kqueue_epoch_rebase q : M (world K) unit :=
  kqueue_mutex_assert q ;;;
  let! kq := get_kq q in
  let base := match head (kq_inflight kq) with
              | Some s => u64 (epoch s - 1)
              | None => kq_next_epoch kq
              end in
  upd_kq q (fun kq => set_kq_inflight
    ((fun s => set_epoch (u64 (epoch s - base)) s) <$> kq_inflight kq) kq) ;;;
  for_each (A := unit) (fun u =>
    let! d := get_ud u in
    put_ud u (set_ud_boundary_epoch (u64 (ud_boundary_epoch d - base)) d) ;;; ret None)
    (ud_deferred_free kq) ;;;
  upd_kq q (fun kq => set_kq_next_epoch (u64 (kq_next_epoch kq - base)) kq).

(** [me] is the address of the caller's [struct kqueue_kevent_state]. *)
Definition solaris_kevent_enter q (me : ptr) : M (world K) unit :=
  kqueue_mutex_assert q ;;;
  let! kq := get_kq q in
  (if kq_next_epoch kq =? UINT64_MAX then solaris_kqueue_epoch_rebase q else ret tt) ;;;
  upd_kq q (fun kq =>
    let e := u64 (kq_next_epoch kq + 1) in
    set_kq_inflight (kq_inflight kq ++ [KeventState me e]) (set_kq_next_epoch e kq)).

Definition solaris_kevent_exit q (me : ptr) : M (world K) unit :=
  kqueue_mutex_assert q ;;;
  let! kq := get_kq q in
  if decide (me ∈ ks_id <$> kq_inflight kq) then
    upd_kq q (fun kq => set_kq_inflight
      (base.filter (fun s => ks_id s <> me) (kq_inflight kq)) kq) ;;;
    solaris_kqueue_deferred_sweep q
  else fail BadAddress.

(** ** The kqueue *)

Context `{FilterList K}.

(** The vtable as [filter_register] sees it: no per-filter hooks. *)
Definition solaris_hooks : kqueue_vtable K :=
  KqueueVtable (fun _ => ret 0) (fun _ => ret tt) false None (fun _ _ _ => ret 0)
    (fun _ _ _ _ => ret 0) None None None (ret tt) solaris_kevent_enter solaris_kevent_exit.

Definition solaris_kqueue_init q : M (world K) Z :=
  let! r := sys SysPortCreate in
  match r with
  | None => upd_kq q (set_kq_id (-1)) ;;; ret (-1)
  | Some port =>
      upd_kq q (set_kq_id port) ;;;
      upd_kq q (fun kq => set_ud_deferred_free [] (set_kq_inflight [] (set_kq_next_epoch 0 kq))) ;;;
      let! rv := filter_register_all solaris_hooks q in
      if rv <? 0 then sys (SysClose port) ;;; ret (-1) else ret 0
  end.

(** The port is left open: its descriptor belongs to the user. *)
Definition solaris_kqueue_free q : M (world K) unit :=
  let! kq := get_kq q in
  reclaim q None (ud_deferred_free kq).

Definition solaris_kqueue_interrupt q : M (world K) unit :=
  let! kq := get_kq q in
  sys (SysPortAlert (kq_id kq) PORT_ALERT_SET) ;;; ret tt.

(** ** The stand-in for eventfds *)

Definition solaris_eventfd_init f : M (world K) Z :=
  let! x := get_filt f in
  upd_filt f (set_ef_id (-1)) ;;;
  upd_sf f (fun _ => SolFilt (kf_id x) 0) ;;; ret 0.
Definition solaris_eventfd_close f : M (world K) unit := ret tt.

(** Only the change of [efd_raised] from 0 to 1 sends an event. *)
Definition solaris_eventfd_raise f : M (world K) Z :=
  let! e := get_sf f in
  if negb (efd_raised e =? 0) then ret 0
  else
    upd_sf f (set_efd_raised 1) ;;;
    let! port := filter_port f in
    let! r := sys (SysPortSend port (efd_events e) (PuFilter f.1 f.2)) in
    match r with
    | None => upd_sf f (set_efd_raised 0) ;;; ret (-1)
    | Some _ => ret 0
    end.
Definition solaris_eventfd_lower f : M (world K) Z := upd_sf f (set_efd_raised 0) ;;; ret 0.
Definition solaris_eventfd_descriptor f : Z := -1.
Definition solaris_eventfd_register q f : M (world K) Z := ret 0.
Definition solaris_eventfd_unregister q f : M (world K) unit := ret tt.

(** ** Waiting *)

Definition getn_max (nevents : Z) : Z :=
  if nevents <=? 0 then 1 else if MAX_KEVENT <? nevents then MAX_KEVENT else nevents.

Definition solaris_kevent_wait q (nevents : Z) (ts : option timespec) : M (world K) Z :=
  set_errno 0 ;;;
  let! kq := get_kq q in
  let! r := sys (SysPortGetn (kq_id kq) (getn_max nevents) 1 ts) in
  match r with
  | None => let! e := errno in ret (if e =? ETIME then 0 else -1)
  | Some evs => upd_sl (set_sl_evbuf evs) ;;; ret (Z.of_nat (length evs))
  end.

(** ** Delivery *)

Definition port_keep : Z := Z.lor EV_CLEAR (Z.lor EV_DISPATCH EV_ONESHOT).

(** [kn_create] again, for a source that is watched for one event only. *)
Definition rearm f p (rv : Z) : M (world K) Z :=
  let! o := filt_ops f in
  let! r := kn_create o f p in ret (if r <? 0 then -1 else rv).

(** An event without data from a source that has no empty messages. *)
Definition spurious (kn : knote) (k : kevent) : bool :=
  (filter_ (kev kn) =? EVFILT_READ) && (data k =? 0) && negb (has (flags k) (Z.lor EV_EOF EV_ERROR)) &&
  negb (has (kn_flags kn) (Z.lor (Z.lor KNFL_SOCKET_DGRAM KNFL_SOCKET_RDM)
    (Z.lor KNFL_SOCKET_SEQPACKET KNFL_SOCKET_RAW))).

(** The drain and new registration of the port of a user event. *)
Definition copyout_user q f p (el remaining : Z) (evt : port_event) : M (world K) Z :=
  let! s := get_skn p in
  sys (SysPortGetn (subport s) 1 0 (Some (Timespec 0 0))) ;;;
  let! kq := get_kq q in
  let! kn := get_kn p in
  let! ok := port_associate (kq_id kq) PORT_SOURCE_FD (ObjFd (subport s)) POLLIN (udata_user (kn_udata kn)) in
  if ok then let! o := filt_ops f in kf_copyout o el remaining f (Some p) (EvPort evt) else ret (-1).

(** The flags are applied here for the filters whose copyout does not. *)
Definition post_actions f p (el : Z) : M (world K) unit :=
  let! k := load el in
  (if has (flags k) EV_DISPATCH then knote_disable f p ;;; ret tt else ret tt) ;;;
  let! k := load el in
  if has (flags k) EV_ONESHOT then knote_delete f p ;;; ret tt else ret tt.

Definition copyout_fd q p (el remaining : Z) (evt : port_event) : M (world K) Z :=
  let! kn := get_kn p in
  let! fo := filter_lookup q (filter_ (kev kn)) in
  match fo with
  | None => ret (-1)
  | Some f =>
      if filter_ (kev kn) =? EVFILT_USER then copyout_user q f p el remaining evt
      else
        let! o := filt_ops f in
        let! rv := kf_copyout o el remaining f (Some p) (EvPort evt) in
        let! kn := get_kn p in
        let! rv := (if (0 <? rv) && negb (has (flags (kev kn)) port_keep) then rearm f p rv else ret rv) in
        let! kn := get_kn p in
        let! k := load el in
        if rv <? 0 then ret (-1)
        else if spurious kn k then ret 0
        else (if 0 <? rv then post_actions f p el else ret tt) ;;; ret rv
  end.

Definition copyout_timer q p (el remaining : Z) (evt : port_event) : M (world K) Z :=
  let! fo := filter_lookup q EVFILT_TIMER in
  let! f := deref NullDeref fo in
  let! o := filt_ops f in
  kf_copyout o el remaining f (Some p) (EvPort evt).

(** The flags of the knote are read after its copyout. *)
Definition copyout_file q p (el remaining : Z) (evt : port_event) : M (world K) Z :=
  let! fo := filter_lookup q EVFILT_VNODE in
  let! f := deref NullDeref fo in
  let! o := filt_ops f in
  let! rv := kf_copyout o el remaining f (Some p) (EvPort evt) in
  if 0 <? rv then
    let! kn := get_kn p in
    if has (flags (kev kn)) port_keep then ret rv
    else
      let! k := load el in
      if has (fflags k) NOTE_DELETE then ret rv else rearm f p rv
  else ret rv.

(** The filter whose identifier the event carries; an unknown one aborts. *)
Definition copyout_port_filter q (el remaining : Z) (evt : port_event) : M (world K) Z :=
  let! fo := filter_lookup q (s16 (portev_events evt)) in
  match fo with
  | None => fail AssertFail
  | Some f =>
      let! o := filt_ops f in
      kf_copyout o el remaining f None (EvPort evt)
  end.

(** One port event: the number of events written, or a negative number to give up. *)
Definition copyout_port q (el remaining : Z) (evt : port_event) : M (world K) Z :=
  if portev_source evt =? PORT_SOURCE_USER then copyout_port_filter q el remaining evt
  else
    match portev_user evt with
    | PuNull => ret 0
    | PuFilter _ _ => fail BadAddress
    | PuUdata u =>
        let! d := get_ud u in
        if ud_stale d then ret 0
        else
          let! p := deref BadAddress (match ud_back d with ud_kn p => Some p | _ => None end) in
          let! kn := get_kn p in
          if has (flags (kev kn)) EV_DISABLE then ret 0
          else if portev_source evt =? PORT_SOURCE_ALERT then ret 0
          else if portev_source evt =? PORT_SOURCE_FD then copyout_fd q p el remaining evt
          else if portev_source evt =? PORT_SOURCE_TIMER then copyout_timer q p el remaining evt
          else if portev_source evt =? PORT_SOURCE_FILE then copyout_file q p el remaining evt
          else fail AssertFail
    end.

Fixpoint port_loop (n i : nat) q (el nevents written : Z) : M (world K) Z :=
  match n with
  | O => ret written
  | S n' =>
      if nevents - written <=? 0 then ret written
      else
        let! evs := gets (fun w => sl_evbuf (w_sl w)) in
        let! evt := deref Uninitialised (evs !! i) in
        let! rv := copyout_port q (el + written) (nevents - written) evt in
        if rv <? 0 then ret (-1) else port_loop n' (S i) q el nevents (written + rv)
  end.

Definition solaris_kevent_copyout q (nready el nevents : Z) : M (world K) Z :=
  port_loop (Z.to_nat nready) 0 q el nevents 0.

Definition solaris_kqops : kqueue_vtable K :=
  KqueueVtable solaris_kqueue_init solaris_kqueue_free false (Some solaris_kqueue_interrupt)
    solaris_kevent_wait solaris_kevent_copyout None None None (ret tt)
    solaris_kevent_enter solaris_kevent_exit.
End Solaris.
