(* ===== verification/SolarisSocket.v ===== *)
(** * EVFILT_READ and EVFILT_WRITE on Solaris: src/solaris/socket.c

    One association with the port per knote, for one event; the delivery asks the
    descriptor for the amount of data and for the end of the stream. *)

From Stdlib Require Import ZArith Lia Bool.
From stdpp Require Import base list gmap.
From S2P Require Import Prelude RBTree Event Map State Ops Knote Filter LinuxUdata SolarisPlatform.

Definition SOLARIS_PIPE_HIWAT : Z := 16 * 1024.
Definition SO_SNDBUF : Z := 0x1001.

(** The flag of a descriptor that is not a socket, and of a socket by SO_TYPE. *)
Definition port_mode_flag (fmt : Z) : option Z :=
  if fmt =? S_IFREG then Some KNFL_FILE
  else if fmt =? S_IFIFO then Some KNFL_PIPE
  else if fmt =? S_IFBLK then Some KNFL_BLOCKDEV
  else if fmt =? S_IFCHR then Some KNFL_CHARDEV
  else None.
Definition port_socket_flag (stype : Z) : option Z :=
  if stype =? SOCK_STREAM then Some KNFL_SOCKET_STREAM
  else if stype =? SOCK_DGRAM then Some KNFL_SOCKET_DGRAM
  else if stype =? SOCK_RDM then Some KNFL_SOCKET_RDM
  else if stype =? SOCK_SEQPACKET then Some KNFL_SOCKET_SEQPACKET
  else if stype =? SOCK_RAW then Some KNFL_SOCKET_RAW
  else None.

(** The poll(2) events of a filter; None for another filter. *)
Definition socket_events (filt : Z) : option Z :=
  if filt =? EVFILT_READ then Some (Z.lor POLLIN POLLRDHUP)
  else if filt =? EVFILT_WRITE then Some POLLOUT
  else None.

Section Socket.
Context {K : Type} `{OS K} `{FilterList K}.
Implicit Types (w : world K) (p q : ptr) (f : filt_ref).

Definition mark_flags (fl : Z) p : M (world K) unit :=
  upd_kn p (fun kn => set_kn_flags (setb (kn_flags kn) fl) kn).

Definition solaris_get_descriptor_type p : M (world K) Z :=
  let! kn := get_kn p in
  let fd := s32 (ident (kev kn)) in
  let! sb := sys (SysFstat fd) in
  match sb with
  | None => ret (-1)
  | Some sb =>
      let fmt := Z.land (st_mode sb) S_IFMT in
      match port_mode_flag fmt with
      | Some fl => mark_flags fl p ;;; ret 0
      | None =>
          if negb (fmt =? S_IFSOCK) then set_errno EBADF ;;; ret (-1)
          else
            let! stype := sys (SysGetsockopt fd SO_TYPE) in
            match stype with
            | None => ret (-1)
            | Some stype =>
                match port_socket_flag stype with
                | None => set_errno EBADF ;;; ret (-1)
                | Some fl =>
                    mark_flags fl p ;;;
                    let! lsock := sys (SysGetsockopt fd SO_ACCEPTCONN) in
                    match lsock with
                    | Some v => (if v =? 0 then ret tt else mark_flags KNFL_SOCKET_PASSIVE p) ;;; ret 0
                    | None => ret 0
                    end
                end
            end
      end
  end.

(** [KN_UDATA_ALLOC] where the knote has no udata yet: None when it fails, otherwise
    whether it is new. *)
Definition ensure_udata p : M (world K) (option bool) :=
  let! kn := get_kn p in
  match kn_udata kn with
  | Some _ => ret (Some false)
  | None => let! u := PORT_UDATA_ALLOC p in ret (if u then Some true else None)
  end.
Definition drop_fresh (fresh : bool) p : M (world K) unit :=
  if fresh then PORT_UDATA_FREE p else ret tt.

Definition evfilt_socket_knote_create f p : M (world K) Z :=
  let! kn := get_kn p in
  match socket_events (filter_ (kev kn)) with
  | None => ret (-1)
  | Some events =>
      let! rv := (if kn_flags kn =? 0 then solaris_get_descriptor_type p else ret 0) in
      if rv <? 0 then ret (-1)
      else
        let! fresh := ensure_udata p in
        match fresh with
        | None => ret (-1)
        | Some fresh =>
            let! port := filter_port f in
            let! kn := get_kn p in
            let! ok := port_associate port PORT_SOURCE_FD (ObjFd (ident (kev kn))) events
                         (udata_user (kn_udata kn)) in
            if ok then ret 0 else drop_fresh fresh p ;;; ret (-1)
        end
  end.

Definition evfilt_socket_knote_modify f p (k : kevent) : M (world K) Z :=
  let! rv := evfilt_socket_knote_create f p in
  if rv <? 0 then ret (-1)
  else
    upd_kn p (fun kn => set_kev (set_data (data k) (set_fflags (fflags k) (kev kn))) kn) ;;;
    ret 0.

(** [KN_UDATA_DEFER_FREE] unless there is none *)
Definition defer_udata f p : M (world K) unit :=
  let! kn := get_kn p in
  match kn_udata kn with Some _ => PORT_UDATA_DEFER_FREE f.1 p | None => ret tt end.

Definition evfilt_socket_knote_delete f p : M (world K) Z :=
  let! kn := get_kn p in
  let! port := filter_port f in
  port_dissociate port PORT_SOURCE_FD (ObjFd (ident (kev kn))) ;;;
  defer_udata f p ;;; ret 0.

Definition evfilt_socket_knote_enable f p : M (world K) Z := evfilt_socket_knote_create f p.

Definition evfilt_socket_knote_disable f p : M (world K) Z :=
  let! kn := get_kn p in
  let! port := filter_port f in
  port_dissociate port PORT_SOURCE_FD (ObjFd (ident (kev kn))) ;;; ret 0.

(** ** Delivery *)

(** The [struct port_event] that the last argument of a copyout points to. *)
Definition port_ev (ev : raw_event) : M (world K) port_event :=
  match ev with EvPort ev => ret ev | _ => fail BadAddress end.

Definition set_eof (dst : Z) : M (world K) unit :=
  upd_mem dst (fun k => set_flags (setb (flags k) EV_EOF) k).

(** POLLHUP and POLLERR: the end of the stream, and the error of the socket *)
Definition copyout_hup (dst : Z) (pe : port_event) : M (world K) unit :=
  set_eof dst ;;;
  let! r := sys (SysGetsockopt (portev_object pe) SO_ERROR) in
  match r with
  | None => if has (portev_events pe) POLLERR then let! e := errno in upd_mem dst (set_fflags (u32 e)) else ret tt
  | Some serr =>
      if negb (serr =? 0) then upd_mem dst (set_fflags (u32 serr))
      else if has (portev_events pe) POLLERR then upd_mem dst (set_fflags EIO)
      else ret tt
  end.

(** POLLOUT: the room for writing; the end of a pipe shows only when it is polled. *)
Definition copyout_out (dst : Z) (kn : knote) (pe : port_event) : M (world K) unit :=
  (if has (kn_flags kn) KNFL_SOCKET then
     let! r := sys (SysGetsockopt (portev_object pe) SO_SNDBUF) in
     upd_mem dst (set_data (default 0 r))
   else if has (kn_flags kn) KNFL_PIPE then upd_mem dst (set_data SOLARIS_PIPE_HIWAT)
   else upd_mem dst (set_data 0)) ;;;
  let! k := load dst in
  if (filter_ (kev kn) =? EVFILT_WRITE) && has (kn_flags kn) KNFL_PIPE && negb (has (flags k) EV_EOF) then
    let! r := sys (SysPoll (portev_object pe) POLLOUT) in
    match r with
    | Some (n, revents) => if (0 <? n) && has revents (Z.lor POLLHUP POLLERR) then set_eof dst else ret tt
    | None => ret tt
    end
  else ret tt.

(** POLLIN: the bytes to read, or a pending connection *)
Definition copyout_in (dst : Z) (kn : knote) (pe : port_event) : M (world K) unit :=
  (if has (kn_flags kn) KNFL_SOCKET_PASSIVE then upd_mem dst (set_data 1)
   else
     let! r := sys (SysIoctl (portev_object pe) FIONREAD) in
     upd_mem dst (set_data (match r with Some n => u32 n | None => 0 end))) ;;;
  if has (kn_flags kn) KNFL_SOCKET_STREAM && negb (has (kn_flags kn) KNFL_SOCKET_PASSIVE) then
    let! k := load dst in
    if data k =? 0 then
      let! r := sys (SysRecvPeek (portev_object pe)) in
      match r with Some n => if n =? 0 then set_eof dst else ret tt | None => ret tt end
    else if has (portev_events pe) POLLRDHUP then set_eof dst
    else ret tt
  else ret tt.

Definition evfilt_socket_copyout (dst nevents : Z) f (src : option ptr) (ev : raw_event)
    : M (world K) Z :=
  let! pe := port_ev ev in
  let! p := deref NullDeref src in
  let! kn := get_kn p in
  store dst (kev kn) ;;;
  (if has (portev_events pe) (Z.lor POLLHUP POLLERR) then copyout_hup dst pe else ret tt) ;;;
  (if has (portev_events pe) POLLOUT then copyout_out dst kn pe else ret tt) ;;;
  (if has (portev_events pe) POLLIN then copyout_in dst kn pe else ret tt) ;;;
  ret 1.

Definition socket_ops : filter_ops K :=
  FilterOps None None evfilt_socket_copyout evfilt_socket_knote_create evfilt_socket_knote_modify
    evfilt_socket_knote_delete evfilt_socket_knote_enable evfilt_socket_knote_disable.
Definition solaris_evfilt_read : filter_src K := FilterSrc EVFILT_READ socket_ops.
Definition solaris_evfilt_write : filter_src K := FilterSrc EVFILT_WRITE socket_ops.
End Socket.
