(* ===== verification/SolarisTimer.v ===== *)
(** * EVFILT_TIMER on Solaris: src/solaris/timer.c

    A POSIX timer per knote that notifies the port; the event carries the number of
    expirations. *)

From Stdlib Require Import ZArith Lia Bool.
From stdpp Require Import base list gmap.
From S2P Require Import Prelude RBTree Event Map State Ops Knote Filter LinuxUdata SolarisPlatform SolarisSocket.

Definition TIMER_ABSTIME : Z := 1.
Definition SOL_TIMER_MASK : Z := NOTE_ABSOLUTE - 1.

(** Seconds and nanoseconds of a time in the unit [flags] selects. *)
Definition port_timedata (src flags : Z) : Z * Z :=
  let unit_ := Z.land flags SOL_TIMER_MASK in
  if unit_ =? NOTE_USECONDS then (Z.quot src 1000000, Z.rem src 1000000 * 1000)
  else if unit_ =? NOTE_NSECONDS then (Z.quot src 1000000000, Z.rem src 1000000000)
  else if unit_ =? NOTE_SECONDS then (src, 0)
  else (Z.quot src 1000, Z.rem src 1000 * 1000000).

Definition port_itimerspec (src flags : Z) (oneshot : bool) : itimerspec :=
  let '(sec, nsec) := port_timedata src flags in
  if oneshot || has flags NOTE_ABSOLUTE then Itimerspec 0 0 sec nsec
  else Itimerspec sec nsec sec nsec.

Definition port_clock (ff : Z) : Z := if has ff NOTE_ABSOLUTE then CLOCK_REALTIME else CLOCK_MONOTONIC.
Definition port_abstime (ff : Z) : Z := if has ff NOTE_ABSOLUTE then TIMER_ABSTIME else 0.

Section Timer.
Context {K : Type} `{OS K} `{FilterList K}.
Implicit Types (w : world K) (p q : ptr) (f : filt_ref).

Definition solaris_evfilt_timer_copyout (dst nevents : Z) f (src : option ptr) (ev : raw_event)
    : M (world K) Z :=
  let! pe := port_ev ev in
  let! p := deref NullDeref src in
  let! kn := get_kn p in
  store dst (kev kn) ;;;
  upd_mem dst (set_data (u32 (portev_events pe))) ;;;
  let! rv := knote_copyout_flag_actions f p in
  ret (if rv <? 0 then -1 else 1).

(** [timer_settime] with the times of the event [k] *)
Definition arm_timer (id : Z) (k : kevent) : M (world K) bool :=
  let! r := sys (SysTimerSettime id (port_abstime (fflags k))
                   (port_itimerspec (data k) (fflags k) (has (flags k) EV_ONESHOT))) in
  ret (bool_decide (r = Some tt)).

Definition solaris_evfilt_timer_knote_create f p : M (world K) Z :=
  upd_kn p (upd_flags (fun x => setb x EV_CLEAR)) ;;;
  let! fresh := ensure_udata p in
  match fresh with
  | None => ret (-1)
  | Some fresh =>
      let! port := filter_port f in
      let! kn := get_kn p in
      let! r := sys (SysTimerCreate (port_clock (fflags (kev kn))) port (udata_user (kn_udata kn))) in
      match r with
      | None => drop_fresh fresh p ;;; ret (-1)
      | Some id =>
          let! ok := arm_timer id (kev kn) in
          if ok then upd_skn p (set_timerid id) ;;; ret 0
          else sys (SysTimerDelete id) ;;; drop_fresh fresh p ;;; ret (-1)
      end
  end.

(** A timer of the other clock in place of the old one: false where it fails. *)
Definition port_change_clock f p (k : kevent) : M (world K) bool :=
  let! port := filter_port f in
  let! kn := get_kn p in
  let! r := sys (SysTimerCreate (port_clock (fflags k)) port (udata_user (kn_udata kn))) in
  match r with
  | None => ret false
  | Some newid =>
      let! s := get_skn p in
      sys (SysTimerDelete (timerid s)) ;;;
      upd_skn p (set_timerid newid) ;;; ret true
  end.

Definition solaris_evfilt_timer_knote_modify f p (k : kevent) : M (world K) Z :=
  let! kn := get_kn p in
  let clk_changed := has (Z.lxor (fflags k) (fflags (kev kn))) NOTE_ABSOLUTE in
  let! go := (if clk_changed then port_change_clock f p k else ret true) in
  if negb go then ret (-1)
  else
    let! s := get_skn p in
    let! ok := arm_timer (timerid s) k in
    if ok then
      upd_kn p (fun kn =>
        let e := kev kn in
        set_kev (Kevent (ident e) (filter_ e)
          (Z.lor (Z.lor (flags k) EV_CLEAR) (Z.land (flags e) EV_RECEIPT))
          (fflags k) (data k) (udata e)) kn) ;;;
      ret 0
    else ret (-1).

Definition solaris_evfilt_timer_knote_delete f p : M (world K) Z :=
  let! s := get_skn p in
  let! r := sys (SysTimerDelete (timerid s)) in
  defer_udata f p ;;;
  ret (match r with Some _ => 0 | None => -1 end).

Definition solaris_evfilt_timer_knote_enable f p : M (world K) Z :=
  let! kn := get_kn p in
  let! s := get_skn p in
  let! ok := arm_timer (timerid s) (kev kn) in
  ret (if ok then 0 else -1).

Definition solaris_evfilt_timer_knote_disable f p : M (world K) Z :=
  let! s := get_skn p in
  let! r := sys (SysTimerSettime (timerid s) 0 (Itimerspec 0 0 0 0)) in
  ret (match r with Some _ => 0 | None => -1 end).

(** The [kf_init] and [kf_destroy] of this filter do nothing. *)
Definition solaris_evfilt_timer : filter_src K :=
  FilterSrc EVFILT_TIMER (FilterOps (Some (fun _ => ret 0)) (Some (fun _ => ret tt))
    solaris_evfilt_timer_copyout solaris_evfilt_timer_knote_create solaris_evfilt_timer_knote_modify
    solaris_evfilt_timer_knote_delete solaris_evfilt_timer_knote_enable
    solaris_evfilt_timer_knote_disable).
End Timer.
