(* ===== verification/SolarisUser.v ===== *)
(** * EVFILT_USER on Solaris: src/solaris/user.c

    Each knote owns a port of its own that is watched by the port of the kqueue.  A
    counter merges triggers: only the first one after a delivery sends an event. *)

From Stdlib Require Import ZArith Lia Bool.
From stdpp Require Import base list gmap.
From S2P Require Import Prelude RBTree Event Map State Ops Knote Filter LinuxUdata SolarisPlatform SolarisSocket.

(** The new [fflags] for the control bits of a change. *)
Definition port_user_fflags (old change : Z) : Z :=
  let ffctrl := Z.land change NOTE_FFCTRLMASK in
  let ff := Z.land change NOTE_FFLAGSMASK in
  if ffctrl =? NOTE_FFNOP then old
  else if ffctrl =? NOTE_FFAND then Z.land old ff
  else if ffctrl =? NOTE_FFOR then Z.lor old ff
  else if ffctrl =? NOTE_FFCOPY then ff
  else old.

Section User.
Context {K : Type} `{OS K} `{FilterList K}.
Implicit Types (w : world K) (p q : ptr) (f : filt_ref).

Definition kev_fflags (g : Z -> Z) (kn : knote) : knote :=
  set_kev (set_fflags (g (fflags (kev kn))) (kev kn)) kn.

Definition solaris_evfilt_user_copyout (dst nevents : Z) f (src : option ptr) (ev : raw_event)
    : M (world K) Z :=
  let! p := deref NullDeref src in
  let! s := get_skn p in
  upd_skn p (set_user_ctr 0) ;;;
  if user_ctr s =? 0 then ret 0
  else
    let! kn := get_kn p in
    store dst (kev kn) ;;;
    upd_mem dst (fun k => set_fflags (clrb (fflags k) NOTE_FFCTRLMASK) k) ;;;
    upd_mem dst (fun k => set_fflags (clrb (fflags k) NOTE_TRIGGER) k) ;;;
    (if has (flags (kev kn)) EV_CLEAR then upd_kn p (kev_fflags (fun x => clrb x NOTE_TRIGGER)) else ret tt) ;;;
    let! rv := knote_copyout_flag_actions f p in
    ret (if rv <? 0 then -1 else 1).

Definition solaris_evfilt_user_knote_create f p : M (world K) Z :=
  upd_skn p (set_subport (-1)) ;;;
  let! fresh := ensure_udata p in
  match fresh with
  | None => ret (-1)
  | Some _ =>
      let! r := sys SysPortCreate in
      match r with
      | None => PORT_UDATA_FREE p ;;; ret (-1)
      | Some sub_fd =>
          let! port := filter_port f in
          let! kn := get_kn p in
          let! ok := port_associate port PORT_SOURCE_FD (ObjFd sub_fd) POLLIN (udata_user (kn_udata kn)) in
          if ok then upd_skn p (set_subport sub_fd) ;;; ret 0
          else sys (SysClose sub_fd) ;;; PORT_UDATA_FREE p ;;; ret (-1)
      end
  end.

Definition solaris_evfilt_user_knote_modify f p (k : kevent) : M (world K) Z :=
  upd_kn p (kev_fflags (fun old => port_user_fflags old (fflags k))) ;;;
  let! kn := get_kn p in
  if has (flags (kev kn)) EV_DISABLE || negb (has (fflags k) NOTE_TRIGGER) then ret 0
  else
    upd_kn p (kev_fflags (fun x => setb x NOTE_TRIGGER)) ;;;
    let! s := get_skn p in
    upd_skn p (set_user_ctr (u32 (user_ctr s + 1))) ;;;
    if user_ctr s =? 0 then
      let! r := sys (SysPortSend (subport s) EVFILT_USER PuNull) in
      ret (match r with Some _ => 0 | None => -1 end)
    else ret 0.

Definition solaris_evfilt_user_knote_delete f p : M (world K) Z :=
  let! s := get_skn p in
  (if 0 <=? subport s then
     let! port := filter_port f in
     port_dissociate port PORT_SOURCE_FD (ObjFd (subport s)) ;;;
     sys (SysClose (subport s)) ;;;
     upd_skn p (set_subport (-1))
   else ret tt) ;;;
  defer_udata f p ;;; ret 0.

Definition solaris_evfilt_user_knote_enable f p : M (world K) Z :=
  let! port := filter_port f in
  let! s := get_skn p in
  let! kn := get_kn p in
  let! ok := port_associate port PORT_SOURCE_FD (ObjFd (subport s)) POLLIN (udata_user (kn_udata kn)) in
  ret (if ok then 0 else -1).

Definition solaris_evfilt_user_knote_disable f p : M (world K) Z :=
  let! port := filter_port f in
  let! s := get_skn p in
  port_dissociate port PORT_SOURCE_FD (ObjFd (subport s)) ;;;
  sys (SysPortGetn (subport s) 1 0 (Some (Timespec 0 0))) ;;;
  upd_skn p (set_user_ctr 0) ;;; ret 0.

Definition solaris_evfilt_user : filter_src K :=
  FilterSrc EVFILT_USER (FilterOps None None solaris_evfilt_user_copyout
    solaris_evfilt_user_knote_create solaris_evfilt_user_knote_modify solaris_evfilt_user_knote_delete
    solaris_evfilt_user_knote_enable solaris_evfilt_user_knote_disable).
End User.
