(* ===== verification/SolarisVnode.v ===== *)
(** * EVFILT_VNODE on Solaris: src/solaris/vnode.c

    The path of the descriptor is watched for one event; the knote keeps the path,
    the times of the file, its size and its number of links, which are compared at
    delivery. *)

From Stdlib Require Import ZArith Lia Bool.
From stdpp Require Import base list gmap.
From S2P Require Import Prelude RBTree Event Map State Ops Knote Filter LinuxUdata SolarisPlatform SolarisSocket.

(** The constants of <port.h>. *)
Definition FILE_MODIFIED : Z := 0x2.
Definition FILE_ATTRIB : Z := 0x4.
Definition FILE_DELETE : Z := 0x10.
Definition FILE_RENAME_TO : Z := 0x20.
Definition FILE_RENAME_FROM : Z := 0x40.
Definition FILE_TRUNC : Z := 0x100000.

Definition bit_if (b : bool) (v : Z) : Z := if b then v else 0.

Definition fflags_to_file_events (ff : Z) : Z :=
  Z.lor (bit_if (has ff NOTE_DELETE) FILE_DELETE)
  (Z.lor (bit_if (has ff NOTE_WRITE) FILE_MODIFIED)
  (Z.lor (bit_if (has ff NOTE_EXTEND) FILE_MODIFIED)
  (Z.lor (bit_if (has ff (Z.lor NOTE_ATTRIB NOTE_LINK)) FILE_ATTRIB)
  (Z.lor (bit_if (has ff NOTE_RENAME) (Z.lor FILE_RENAME_TO FILE_RENAME_FROM))
         (bit_if (has ff NOTE_TRUNCATE) FILE_TRUNC))))).

Definition file_events_to_fflags (ev : Z) : Z :=
  Z.lor (bit_if (has ev FILE_DELETE) NOTE_DELETE)
  (Z.lor (bit_if (has ev FILE_MODIFIED) NOTE_WRITE)
  (Z.lor (bit_if (has ev FILE_ATTRIB) NOTE_ATTRIB)
  (Z.lor (bit_if (has ev FILE_RENAME_TO) NOTE_RENAME)
  (Z.lor (bit_if (has ev FILE_RENAME_FROM) NOTE_RENAME)
         (bit_if (has ev FILE_TRUNC) NOTE_TRUNCATE))))).

Section Vnode.
Context {K : Type} `{OS K} `{FilterList K}.
Implicit Types (w : world K) (p q : ptr) (f : filt_ref).

(** readlink of /proc/self/path and strdup of the result *)
Definition fd_to_path (fd : Z) : M (world K) (option Z) :=
  let! r := sys (SysFdPath fd) in
  match r with
  | None => ret None
  | Some path => let! m := sys SysAlloc in ret (match m with Some _ => Some path | None => None end)
  end.

(** The path of the knote, read when it has none: false where that fails. *)
Definition ensure_path p : M (world K) bool :=
  let! s := get_skn p in
  match kn_path s with
  | Some _ => ret true
  | None =>
      let! kn := get_kn p in
      let! r := fd_to_path (s32 (ident (kev kn))) in
      upd_skn p (set_kn_path r) ;;;
      ret (bool_decide (is_Some r))
  end.

(** [&kn->kn_vnode.fobj] *)
Definition knote_fobj p : M (world K) port_object :=
  let! s := get_skn p in ret (ObjFile p (kn_path s) (kn_fobj s)).

Definition vnode_arm f p : M (world K) Z :=
  let! ok := ensure_path p in
  if negb ok then ret (-1)
  else
    let! kn := get_kn p in
    let! st := sys (SysFstat (s32 (ident (kev kn)))) in
    match st with
    | None => ret (-1)
    | Some st =>
        let events := fflags_to_file_events (fflags (kev kn)) in
        upd_skn p (set_kn_fobj (Some st)) ;;;
        upd_kn p (fun kn => set_kn_size (st_size st) (set_kn_nlink (st_nlink st) kn)) ;;;
        upd_skn p (set_file_events events) ;;;
        let! fresh := ensure_udata p in
        match fresh with
        | None => ret (-1)
        | Some fresh =>
            let! port := filter_port f in
            let! obj := knote_fobj p in
            let! kn := get_kn p in
            let! ok := port_associate port PORT_SOURCE_FILE obj events (udata_user (kn_udata kn)) in
            if ok then ret 0 else drop_fresh fresh p ;;; ret (-1)
        end
    end.

Definition unwatch f p : M (world K) unit :=
  let! port := filter_port f in
  let! obj := knote_fobj p in
  port_dissociate port PORT_SOURCE_FILE obj.

Definition solaris_evfilt_vnode_knote_create f p : M (world K) Z := vnode_arm f p.

Definition solaris_evfilt_vnode_knote_modify f p (k : kevent) : M (world K) Z :=
  unwatch f p ;;;
  upd_kn p (fun kn => set_kev (set_fflags (fflags k) (kev kn)) kn) ;;;
  vnode_arm f p.

Definition solaris_evfilt_vnode_knote_delete f p : M (world K) Z :=
  unwatch f p ;;;
  upd_skn p (set_kn_path None) ;;;
  defer_udata f p ;;; ret 0.

Definition solaris_evfilt_vnode_knote_enable f p : M (world K) Z := vnode_arm f p.

Definition solaris_evfilt_vnode_knote_disable f p : M (world K) Z := unwatch f p ;;; ret 0.

(** What the new [stat] shows beyond the events, and the new baseline. *)
Definition copyout_stat (dst : Z) p : M (world K) unit :=
  let! kn := get_kn p in
  let! st := sys (SysFstat (s32 (ident (kev kn)))) in
  match st with
  | None => ret tt
  | Some st =>
      (if (kn_size kn <? st_size st) && has (fflags (kev kn)) NOTE_EXTEND
       then upd_mem dst (fun k => set_fflags (Z.lor (fflags k) NOTE_EXTEND) k) else ret tt) ;;;
      (if negb (st_nlink st =? kn_nlink kn) && has (fflags (kev kn)) NOTE_LINK
       then upd_mem dst (fun k => set_fflags (Z.lor (fflags k) NOTE_LINK) k) else ret tt) ;;;
      upd_kn p (fun kn => set_kn_nlink (st_nlink st) (set_kn_size (st_size st) kn))
  end.

Definition solaris_evfilt_vnode_copyout (dst nevents : Z) f (src : option ptr) (ev : raw_event)
    : M (world K) Z :=
  let! pe := port_ev ev in
  let! p := deref NullDeref src in
  let! kn := get_kn p in
  store dst (kev kn) ;;;
  upd_mem dst (set_fflags (file_events_to_fflags (portev_events pe))) ;;;
  copyout_stat dst p ;;;
  let! kn := get_kn p in
  upd_mem dst (fun k => set_fflags (Z.land (fflags k) (fflags (kev kn))) k) ;;;
  let! rv := knote_copyout_flag_actions f p in
  ret (if rv <? 0 then -1 else 1).

Definition solaris_evfilt_vnode : filter_src K :=
  FilterSrc EVFILT_VNODE (FilterOps None None solaris_evfilt_vnode_copyout
    solaris_evfilt_vnode_knote_create solaris_evfilt_vnode_knote_modify solaris_evfilt_vnode_knote_delete
    solaris_evfilt_vnode_knote_enable solaris_evfilt_vnode_knote_disable).
End Vnode.
