(* ===== verification/SolarisRules.v ===== *)
(** * Rules for the callbacks of the Solaris filters

    The invariant [port_inv] of this backend is that of the udatas on Linux, with no
    knote attached to an fd_state.  The allocation, the deferred free and the epochs
    are those of Linux ([epochs_as_linux]), so that the rules for callbacks there
    serve here as well. *)

From Stdlib Require Import ZArith Lia Bool.
From stdpp Require Import base list gmap.
From S2P Require Import Prelude RBTree Event Map State Ops Knote Filter LinuxUdata LinuxEpoll LinuxShared LinuxRules SolarisPlatform SolarisSocket.

Section Inv.
Context {K : Type}.
Implicit Types (w : world K) (p q : ptr).

Record port_inv w : Prop :=
  { po_data : linux_data w;
    po_fds : forall p kn, w_knotes w !! p = Some kn -> kn_fds kn = None }.

Lemma data_unlink w w' q i p : linux_data w -> unlinking q i p w w' -> linux_data w'.
Proof.
  intros Hi (kq & x & t & rd & c & kn0 & E & _ & _ & _ & -> & _).
  apply (li_views w); try done. simpl. rewrite fmap_insert. apply insert_id. by rewrite lookup_fmap, E.
Qed.

Lemma port_unlink w w' q i p : port_inv w -> unlinking q i p w w' -> port_inv w'.
Proof.
  intros [Hd Hf] Hun. split; [by eapply data_unlink|].
  by destruct Hun as (kq & x & t & rd & c & kn0 & _ & _ & _ & _ & -> & _).
Qed.

#[export] Instance port_plat : PlatInv (K := K) port_inv.
Proof.
  split.
  - intros w w' [Hd Hf] Hp. split; [by eapply pi_stable|]. intros p kn' E.
    destruct (fmap_lookup_eq _ _ _ _ _ (pe_knotes _ _ Hp) E) as (kn & E' & Hk).
    apply (f_equal kn_fds) in Hk. simpl in Hk. rewrite <- Hk. by apply (Hf p).
  - intros w p src q [Hd Hf] Hp Hid. split; [by apply pi_new|]. simpl.
    intros r kn [[<- <-]|[_ E]]%lookup_insert_Some; [done|by apply (Hf r)].
  - intros w p kn [Hd Hf] Hp Hun. split; [by eapply pi_free|]. simpl.
    intros r kr [_ E]%lookup_delete_Some. by apply (Hf r).
  - intros w w' q i p kn HI Hun _ _ _. by eapply port_unlink.
  - intros w q [Hd Hf]. split; [by apply pi_kq_free|done].
  - intros w q kq fs [Hd Hf] Hq Hemp. split; [by apply pi_slots|done].
Qed.

Lemma port_frame p w w' kn' :
  port_inv w -> frame_ p w w' -> linux_data w' -> w_knotes w' !! p = Some kn' -> kn_fds kn' = None -> port_inv w'.
Proof.
  intros [Hd Hf] Hfr Hi E Hn. split; [done|]. intros r kr Er.
  destruct (decide (r = p)) as [->|Hne]; [congruence|]. rewrite (fr_others _ _ _ Hfr) in Er by done. by apply (Hf r).
Qed.
End Inv.

(** The parts shared with Linux are the same functions. *)
Section Same.
Context {K : Type} `{OS K}.
Implicit Types (p q : ptr).

Lemma udata_as_linux p q :
  PORT_UDATA_ALLOC (K := K) p = KN_UDATA_ALLOC p /\ PORT_UDATA_FREE (K := K) p = KN_UDATA_FREE p /\
  PORT_UDATA_DEFER_FREE (K := K) q p = KN_UDATA_DEFER_FREE q p.
Proof. done. Qed.

Lemma epochs_as_linux q me :
  solaris_kevent_enter (K := K) q me = linux_kevent_enter q me /\
  solaris_kevent_exit (K := K) q me = linux_kevent_exit q me.
Proof. done. Qed.
End Same.

(** ** Steps of a callback *)

Section Rules.
Context {K : Type} `{OS K}.
Implicit Types (w : world K) (p q : ptr).

Lemma cb_get_skn (Q : sol_knote -> world K -> Prop) w0 q p kn w :
  cbst w0 q p kn w -> (forall s, Q s w) -> wp (get_skn p) Q w.
Proof. intros Hs HQ. unfold get_skn. wp_simpl. eapply cb_get_kn; [exact Hs|]. by wp_simpl. Qed.

Lemma cb_upd_skn g (Q : unit -> world K -> Prop) w0 q p kn w :
  cbst w0 q p kn w -> (forall w', cbst w0 q p kn w' -> Q tt w') -> wp (upd_skn p g) Q w.
Proof.
  intros Hs HQ. unfold upd_skn, upd_sl. wp_simpl. eapply cb_get_skn; [exact Hs|]. intros s. wp_simpl. apply HQ.
  eapply cbst_move; [exact Hs|by split| |done|apply keep_plain; by eauto]. by apply (li_views w); try apply Hs.
Qed.

Lemma cb_filter_port i (Q : Z -> world K -> Prop) w0 q p kn w :
  cbst w0 q p kn w -> (forall fd, Q fd w) -> wp (filter_port (q, i)) Q w.
Proof.
  intros Hs HQ. destruct (cs_kq _ _ _ _ _ Hs) as (kq & E & _). unfold filter_port. wp_simpl.
  eapply wp_get_kq; [exact E|]. wp_simpl. apply HQ.
Qed.

Lemma cb_associate port src obj e u (Q : bool -> world K -> Prop) w0 q p kn w :
  cbst w0 q p kn w -> (forall b w', cbst w0 q p kn w' -> Q b w') -> wp (port_associate port src obj e u) Q w.
Proof. intros Hs HQ. unfold port_associate. wp_simpl. eapply cb_sys; [exact Hs|]. intros r w' Hs'. wp_simpl. by apply HQ. Qed.

Lemma cb_dissociate port src obj (Q : unit -> world K -> Prop) w0 q p kn w :
  cbst w0 q p kn w -> (forall w', cbst w0 q p kn w' -> Q tt w') -> wp (port_dissociate port src obj) Q w.
Proof. intros Hs HQ. unfold port_dissociate. wp_simpl. eapply cb_sys; [exact Hs|]. intros r w' Hs'. wp_simpl. by apply HQ. Qed.

Lemma cb_ensure_udata (Q : option bool -> world K -> Prop) w0 q p kn w :
  cbst w0 q p kn w -> (forall o u w', cbst w0 q p (set_kn_udata u kn) w' -> Q o w') -> wp (ensure_udata p) Q w.
Proof.
  intros Hs HQ. unfold ensure_udata. wp_simpl. eapply cb_get_kn; [exact Hs|].
  destruct (kn_udata kn) as [u|] eqn:Hu.
  - wp_simpl. apply (HQ _ (Some u)). rewrite <- Hu. by replace (set_kn_udata (kn_udata kn) kn) with kn by (by destruct kn).
  - wp_simpl. rewrite (proj1 (udata_as_linux p q)). eapply cb_udata_alloc; [exact Hs|]. intros u w' Hs'. wp_simpl. by eapply HQ.
Qed.

Lemma cb_port_free (Q : unit -> world K -> Prop) w0 q p kn w :
  cbst w0 q p kn w -> (forall w', cbst w0 q p (set_kn_udata None kn) w' -> Q tt w') -> wp (PORT_UDATA_FREE p) Q w.
Proof. rewrite (proj1 (proj2 (udata_as_linux p q))). apply cb_udata_free. Qed.

Lemma cb_drop_fresh b (Q : unit -> world K -> Prop) w0 q p kn w :
  cbst w0 q p kn w -> (forall u w', cbst w0 q p (set_kn_udata u kn) w' -> Q tt w') -> wp (drop_fresh b p) Q w.
Proof.
  intros Hs HQ. unfold drop_fresh. destruct b.
  - eapply cb_port_free; [exact Hs|]. intros w' Hs'. by eapply HQ.
  - wp_simpl. apply (HQ (kn_udata kn)). by replace (set_kn_udata (kn_udata kn) kn) with kn by (by destruct kn).
Qed.

Lemma cb_defer_udata i (Q : unit -> world K -> Prop) w0 q p kn w :
  cbst w0 q p kn w -> (forall u w', cbst w0 q p (set_kn_udata u kn) w' -> Q tt w') -> wp (defer_udata (q, i) p) Q w.
Proof.
  intros Hs HQ. unfold defer_udata. wp_simpl. eapply cb_get_kn; [exact Hs|]. destruct (kn_udata kn) as [u|] eqn:Hu.
  - simpl. rewrite (proj2 (proj2 (udata_as_linux p q))). eapply cb_udata_defer; [exact Hs|]. intros w' Hs'. by eapply HQ.
  - wp_simpl. apply (HQ None). rewrite <- Hu. by replace (set_kn_udata (kn_udata kn) kn) with kn by (by destruct kn).
Qed.
End Rules.

Ltac port_step :=
  cbn [fst snd]; wp_simpl;
  first
    [ eapply cb_get_skn; [eassumption|intros ?]
    | eapply cb_upd_skn; [eassumption|intros ? ?]
    | eapply cb_filter_port; [eassumption|intros ?]
    | eapply cb_associate; [eassumption|intros ? ? ?]
    | eapply cb_dissociate; [eassumption|intros ? ?]
    | eapply cb_ensure_udata; [eassumption|intros ? ? ? ?]
    | eapply cb_port_free; [eassumption|intros ? ?]
    | eapply cb_drop_fresh; [eassumption|intros ? ? ?]
    | eapply cb_defer_udata; [eassumption|intros ? ? ?]
    | cb_step ].

(** A callback that ends in [cbst] with the fd_state the knote had. *)
Definition runs_in {K : Type} (w0 : world K) (q p : ptr) (kn : knote) (w' : world K) : Prop :=
  exists kn', cbst w0 q p kn' w' /\ kn_fds kn' = kn_fds kn.
Ltac port_end :=
  match goal with
  | |- runs_in _ _ _ _ _ => eexists; split; [eassumption|reflexivity]
  | |- _ <> 1 /\ runs_in _ _ _ _ _ => split; [by repeat case_match|port_end]
  | |- exists _, cbst _ _ _ _ _ /\ _ /\ _ => eexists; split; [eassumption|split; reflexivity]
  end.
Ltac port_go := repeat port_step; wp_simpl; try port_end.

(** ** From the steps to the contract *)

Section Clauses.
Context {K : Type}.
Implicit Types (w : world K) (p q : ptr).

Lemma port_contract (i : nat) (o : filter_ops K) :
  (forall m, kf_init o = Some m -> m = fun _ => ret 0) ->
  (forall m, kf_destroy o = Some m -> m = fun _ => ret tt) ->
  (forall w0 q p kn w, cbst w0 q p kn w -> wp (kn_create o (q, i) p) (fun _ w' => runs_in w0 q p kn w') w) ->
  (forall w0 q p kn w k, cbst w0 q p kn w -> wp (kn_modify o (q, i) p k) (fun _ w' => runs_in w0 q p kn w') w) ->
  (forall w0 q p kn w, cbst w0 q p kn w -> wp (kn_delete o (q, i) p) (fun rv w' => rv <> 1 /\ runs_in w0 q p kn w') w) ->
  (forall w0 q p kn w, cbst w0 q p kn w -> wp (kn_enable o (q, i) p) (fun _ w' => runs_in w0 q p kn w') w) ->
  (forall w0 q p kn w, cbst w0 q p kn w -> wp (kn_disable o (q, i) p)
     (fun _ w' => exists kn', cbst w0 q p kn' w' /\ kn_fds kn' = kn_fds kn /\ kev kn' = kev kn) w) ->
  FilterContract port_inv i o.
Proof.
  intros Hin Hde Hc Hm Hd He Hdi.
  assert (Hst : forall w q p, port_inv w -> cb_pre w q i p -> exists kn, cbst w q p kn w /\ kn_fds kn = None).
  { intros w q p [HI Hf] Hcb. destruct (cbst_start w q i p HI Hcb) as (kn & Hs & _). exists kn. split; [done|].
    by apply (Hf p), (cs_kn _ _ _ _ _ Hs). }
  assert (Hend : forall w q p kn w', port_inv w -> kn_fds kn = None -> runs_in w q p kn w' ->
    frame_ p w w' /\ port_inv w' /\ forall k, w_knotes w' !! p = Some k -> unshared k).
  { intros w q p kn w' HI Hf (kn' & Hs' & Hf'). rewrite Hf in Hf'. split_and!; [apply Hs'| |].
    - eapply port_frame; [exact HI|apply Hs'|apply Hs'|apply Hs'|done].
    - intros k Ek. rewrite (cs_kn _ _ _ _ _ Hs') in Ek. simplify_eq. by left. }
  split.
  - intros w q p Hw HI Hcb _ _. destruct (Hst w q p HI Hcb) as (kn & Hs & Hf).
    eapply wp_mono; [|by eapply Hc]. intros rv w' Hr. destruct (Hend _ _ _ _ _ HI Hf Hr) as (Hfr & HI' & Hun).
    split_and!; [done|done|]. intros w2 Hl. by eapply pi_stable, linking_plat.
  - intros w q p k Hw HI Hcb _ _. destruct (Hst w q p HI Hcb) as (kn & Hs & Hf).
    eapply wp_mono; [|by eapply Hm]. intros rv w' Hr. by destruct (Hend _ _ _ _ _ HI Hf Hr) as (Hfr & HI' & Hun).
  - intros w0 w q p _ Hw HI0 Hun Hcb. pose proof (port_unlink _ _ _ _ _ HI0 Hun) as HI.
    destruct (Hst w q p HI Hcb) as (kn & Hs & Hf).
    eapply wp_mono; [|by eapply Hd]. intros rv w' [Hrv Hr]. by destruct (Hend _ _ _ _ _ HI Hf Hr) as (Hfr & HI' & Hun').
  - intros w q p Hw HI Hcb _. destruct (Hst w q p HI Hcb) as (kn & Hs & Hf).
    eapply wp_mono; [|by eapply He]. intros rv w' Hr. by destruct (Hend _ _ _ _ _ HI Hf Hr) as (Hfr & HI' & Hun).
  - intros w q p Hw HI Hcb _. destruct (Hst w q p HI Hcb) as (kn & Hs & Hf).
    eapply wp_mono; [|by eapply Hdi]. intros rv w' (kn' & Hs' & Hf' & Hk).
    assert (Hr : runs_in w q p kn w') by (by exists kn').
    destruct (Hend _ _ _ _ _ HI Hf Hr) as (Hfr & HI' & Hun). split_and!; [done..|].
    rewrite (cs_kn _ _ _ _ _ Hs), (cs_kn _ _ _ _ _ Hs'). simpl. by f_equal.
  - intros m w q Hm' Hw HI Hq. rewrite (Hin m Hm'). wp_simpl. split; [split; try done; eauto|done].
  - intros m w q f Hm' Hw HI Hq _. rewrite (Hde m Hm'). wp_simpl. split; [split; try done; eauto|done].
Qed.
End Clauses.
