(* ===== verification/SolarisBuild.v ===== *)
(** * A Solaris build: its filters and their contract

    [filter_list.h] of a Solaris build with the filters of src/solaris and the one of
    the common code; EVFILT_SIGNAL and EVFILT_PROC are those of src/posix there.  The
    list is tied with an unfolding depth as on Linux. *)

From Stdlib Require Import ZArith Lia Bool.
From stdpp Require Import base list gmap.
From S2P Require Import Prelude RBTree Event Map State Ops Knote Filter Kqueue Kevent LibkqueueFilter LinuxUdata LinuxEpoll LinuxShared LinuxRules SolarisPlatform SolarisSocket SolarisTimer SolarisUser SolarisVnode SolarisRules.

Section List.
Context {K : Type} `{OS K} (C : version).

Definition solaris_filters_over (L : FilterList K) : list (filter_src K) :=
  [solaris_evfilt_read; solaris_evfilt_write; solaris_evfilt_vnode; solaris_evfilt_timer; solaris_evfilt_user;
   evfilt_libkqueue solaris_kqops C].

Fixpoint solaris_filters (depth : nat) : FilterList K :=
  match depth with O => [] | S d => solaris_filters_over (solaris_filters d) end.
End List.

(** ** The callbacks *)

Section Build.
Context {K : Type} `{OS K} `{FilterList K}.
Implicit Types (w : world K) (p q : ptr).

Lemma mode_flag_common fmt fl : port_mode_flag fmt = Some fl -> has fl KNFL_KNOTE_DELETED = false.
Proof. unfold port_mode_flag. repeat case_match; by intros [= <-]. Qed.
Lemma socket_flag_common t fl : port_socket_flag t = Some fl -> has fl KNFL_KNOTE_DELETED = false.
Proof. unfold port_socket_flag. repeat case_match; by intros [= <-]. Qed.

Lemma cb_mark_flags fl (Q : unit -> world K -> Prop) w0 q p kn w :
  has fl KNFL_KNOTE_DELETED = false -> cbst w0 q p kn w ->
  (forall w', cbst w0 q p (set_kn_flags (setb (kn_flags kn) fl) kn) w' -> Q tt w') -> wp (mark_flags fl p) Q w.
Proof.
  intros Hfl Hs HQ. unfold mark_flags. eapply cb_upd_kn; [exact Hs| |done|done|done].
  unfold kn_common. simpl. by rewrite has_setb, Hfl, orb_false_r.
Qed.

Lemma socket_type_ok w0 q p kn w :
  cbst w0 q p kn w -> wp (solaris_get_descriptor_type p) (fun _ w' => runs_in w0 q p kn w') w.
Proof.
  intros Hs. unfold solaris_get_descriptor_type. do 2 port_step. destruct r as [sb|]; [|wp_simpl; port_end]. cbn zeta.
  destruct (port_mode_flag _) as [fl|] eqn:Hm.
  { wp_simpl. eapply cb_mark_flags; [by eapply mode_flag_common|done|]. intros. wp_simpl. port_end. }
  destruct (negb _); [wp_simpl; port_go|]. port_step. destruct r as [st|]; [|wp_simpl; port_end].
  destruct (port_socket_flag st) as [fl|] eqn:Hst; [|port_go].
  wp_simpl. eapply cb_mark_flags; [by eapply socket_flag_common|done|]. intros w2 Hs2. port_step.
  destruct r as [v|]; [|wp_simpl; port_end]. wp_simpl. destruct (v =? 0); wp_simpl; [port_end|].
  eapply cb_mark_flags; [done|done|]. intros. wp_simpl. port_end.
Qed.

Lemma socket_create_ok i w0 q p kn w :
  cbst w0 q p kn w -> wp (evfilt_socket_knote_create (q, i) p) (fun _ w' => runs_in w0 q p kn w') w.
Proof.
  intros Hs. unfold evfilt_socket_knote_create. port_step. destruct (socket_events _) as [ev|]; [|wp_simpl; port_end].
  wp_simpl. apply (wp_mono _ (fun _ w' => runs_in w0 q p kn w')).
  - intros rv w1 (kn1 & Hs1 & Hf1). destruct (rv <? 0); wp_simpl; [by exists kn1|].
    eapply cb_ensure_udata; [exact Hs1|]. intros o u w2 Hs2. destruct o as [fresh|]; wp_simpl; [|by eexists].
    do 3 port_step. destruct b; wp_simpl; [by eexists|]. port_step. wp_simpl. by eexists.
  - destruct (_ =? 0); [by apply socket_type_ok|wp_simpl; port_end].
Qed.

Lemma socket_contract i : FilterContract port_inv i socket_ops.
Proof.
  apply port_contract; simpl; try done; intros.
  - by apply socket_create_ok.
  - unfold evfilt_socket_knote_modify. wp_simpl. eapply wp_mono; [|by apply socket_create_ok].
    intros rv w1 (kn1 & Hs1 & Hf1). destruct (rv <? 0); wp_simpl; [by exists kn1|]. port_step. wp_simpl. by eexists.
  - unfold evfilt_socket_knote_delete. port_go.
  - by apply socket_create_ok.
  - unfold evfilt_socket_knote_disable. port_go.
Qed.

#[export] Instance solaris_timer_contract i : FilterContract port_inv i (fs_ops solaris_evfilt_timer).
Proof.
  apply port_contract; simpl; try (by intros ? [= <-]); intros.
  - unfold solaris_evfilt_timer_knote_create, arm_timer. port_go.
  - unfold solaris_evfilt_timer_knote_modify, port_change_clock, arm_timer. port_go.
  - unfold solaris_evfilt_timer_knote_delete. port_go.
  - unfold solaris_evfilt_timer_knote_enable, arm_timer. port_go.
  - unfold solaris_evfilt_timer_knote_disable. port_go.
Qed.

#[export] Instance solaris_user_contract i : FilterContract port_inv i (fs_ops solaris_evfilt_user).
Proof.
  apply port_contract; simpl; try done; intros.
  - unfold solaris_evfilt_user_knote_create. port_go.
  - unfold solaris_evfilt_user_knote_modify. port_go.
  - unfold solaris_evfilt_user_knote_delete. port_go.
  - unfold solaris_evfilt_user_knote_enable. port_go.
  - unfold solaris_evfilt_user_knote_disable. port_go.
Qed.

Lemma vnode_arm_ok i w0 q p kn w :
  cbst w0 q p kn w -> wp (vnode_arm (q, i) p) (fun _ w' => runs_in w0 q p kn w') w.
Proof. intros Hs. unfold vnode_arm, ensure_path, fd_to_path, knote_fobj. port_go. Qed.

#[export] Instance solaris_vnode_contract i : FilterContract port_inv i (fs_ops solaris_evfilt_vnode).
Proof.
  apply port_contract; simpl; try done; intros.
  - by apply vnode_arm_ok.
  - unfold solaris_evfilt_vnode_knote_modify, unwatch, knote_fobj. repeat port_step.
    eapply wp_mono; [|by eapply vnode_arm_ok]. intros rv w1 (kn1 & Hs1 & Hf1). by exists kn1.
  - unfold solaris_evfilt_vnode_knote_delete, unwatch, knote_fobj. port_go.
  - by apply vnode_arm_ok.
  - unfold solaris_evfilt_vnode_knote_disable, unwatch, knote_fobj. port_go.
Qed.

(** ** Delivery of a file event *)

Lemma lookup_slot q id i kq x w :
  w_kqs w !! q = Some kq -> kq_filt kq !! i = Some x -> Z.lnot id = Z.of_nat i ->
  Z.of_nat i < EVFILT_SYSCOUNT -> is_Some (kf_impl x) -> filter_lookup q id w = Ret (Some (q, i)) w.
Proof.
  intros E Ei Hid Hlt [impl Hx]. unfold filter_lookup. rewrite Hid.
  replace ((Z.of_nat i <? 0) || (EVFILT_SYSCOUNT <=? Z.of_nat i)) with false.
  2: { symmetry. apply orb_false_iff. split; [apply Z.ltb_ge|apply Z.leb_gt]; lia. }
  rewrite Nat2Z.id. unfold bind, get_filt, get_kq, gets, deref, bind. cbn [fst snd]. rewrite E. cbn. rewrite Ei. cbn.
  by rewrite Hx.
Qed.

(** The dispatch of a file event reads the flags of the knote after its copyout; when
    that has deleted the knote, as it does with EV_ONESHOT, the knote is gone. *)
Theorem file_event_freed_knote q p i kq x o el n evt rv w w' :
  w_kqs w !! q = Some kq -> kq_filt kq !! i = Some x -> Z.lnot EVFILT_VNODE = Z.of_nat i ->
  kf_impl x ≫= ops_table = Some o -> kf_copyout o el n (q, i) (Some p) (EvPort evt) w = Ret rv w' -> 0 < rv ->
  w_knotes w' !! p = None -> copyout_file q p el n evt w = Fault UseAfterFree.
Proof.
  intros E Ei Hid Ho Hc Hrv Hfree. unfold copyout_file. unfold bind at 1. erewrite lookup_slot; [|done..| |].
  - unfold bind at 1. unfold deref at 1. cbn. unfold bind, filt_ops, get_filt, get_kq, gets, deref, bind. cbn [fst snd].
    rewrite E. cbn. rewrite Ei. cbn. rewrite Ho. cbn. rewrite Hc.
    replace (0 <? rv) with true by (symmetry; by apply Z.ltb_lt). unfold get_kn, bind, gets. by rewrite Hfree.
  - rewrite <- Hid. done.
  - destruct (kf_impl x); [by eexists|done].
Qed.
End Build.

(** ** The contract *)

Section Contract.
Context {K : Type} `{OS K} (C : version).

Lemma solaris_over_contract L :
  Forall (fun s => FilterContract port_inv (Z.to_nat (Z.lnot (fs_id s))) (fs_ops s)) (solaris_filters_over C L).
Proof.
  unfold solaris_filters_over. repeat apply List.Forall_cons; try apply List.Forall_nil.
  - apply socket_contract.
  - apply socket_contract.
  - apply solaris_vnode_contract.
  - apply solaris_timer_contract.
  - apply solaris_user_contract.
  - apply (libkqueue_contract solaris_kqops C port_inv). intros m w p q v Hm. discriminate Hm.
Qed.

#[export] Instance solaris_build d : BuildContract (H := solaris_filters C d) port_inv.
Proof.
  split; [exact _|]. intros i id o Ho Hi. unfold ops_table in Ho.
  apply fmap_Some in Ho as (s & Hs & ->). destruct d as [|d]; [discriminate Hs|].
  apply find_some in Hs as [Hin Hid%Z.eqb_eq].
  pose proof (solaris_over_contract (solaris_filters C d)) as Hall. rewrite List.Forall_forall in Hall.
  specialize (Hall s Hin). simpl in Hall. rewrite Hid, Hi, Nat2Z.id in Hall. exact Hall.
Qed.

(** C15: every filter of src/solaris keeps the contract of the common code, whatever the
    kernel answers: called on a knote of its slot, its create, modify, delete, enable
    and disable callbacks return without a fault or a failed assertion, change no
    common member of any knote or kqueue, touch no other knote, and keep the
    invariant that each udata in use is live, points back to its only owner and is
    not stale, and that each queued one is stale and queued once. *)
Theorem solaris_filters_contract d :
  Forall (fun s => FilterContract port_inv (Z.to_nat (Z.lnot (fs_id s))) (fs_ops s)) (solaris_filters C d).
Proof. destruct d as [|d]; [constructor|exact (solaris_over_contract (solaris_filters C d))]. Qed.
End Contract.
