(* ===== verification/WinPlatform.v ===== *)
(** * Completion ports: src/windows/platform.c, platform.h and eventfd.c

    A kqueue is an i/o completion port.  Callbacks of the thread pool, and the filters
    themselves, post completions that carry the address of a knote; each holds a
    reference to it until the completion has been delivered.  The reads that watch a
    pipe, and one that tells that the descriptor of the kqueue was closed, complete
    there too. *)

From Stdlib Require Import ZArith Lia Bool.
From stdpp Require Import base list gmap.
From S2P Require Import Prelude RBTree Event Map State Ops Knote Filter Kqueue.

(** Constants of the Win32 and Winsock headers and of the CRT. *)
Definition INFINITE : Z := 0xffffffff.
Definition WAIT_TIMEOUT : Z := 258.
Definition ERROR_INVALID_HANDLE : Z := 6.
Definition ERROR_HANDLE_EOF : Z := 38.
Definition ERROR_INVALID_PARAMETER : Z := 87.
Definition ERROR_BROKEN_PIPE : Z := 109.
Definition ERROR_NO_DATA : Z := 232.
Definition ERROR_PIPE_NOT_CONNECTED : Z := 233.
Definition ERROR_ABANDONED_WAIT_0 : Z := 735.
Definition ERROR_OPERATION_ABORTED : Z := 995.
Definition ERROR_IO_PENDING : Z := 997.
Definition FILE_TYPE_DISK : Z := 1.
Definition FILE_TYPE_PIPE : Z := 3.
Definition WIN_SO_TYPE : Z := 0x1008.
Definition WIN_SO_ACCEPTCONN : Z := 0x0002.
Definition WIN_SO_SNDBUF : Z := 0x1001.
Definition WIN_FIONREAD : Z := 0x4004667f.
Definition WSAENOTSOCK : Z := 10038.

(** ** platform.h *)

Definition KQ_CLOSE_DETECT_KEY : Z := 1.
Definition KQ_PIPE_READ_KEY : Z := 2.
Definition KQ_FILTER_KEY (fid : Z) : Z := u64 (s16 fid).

(** Winsock codes to the values of <errno.h>: ECONNRESET, ECONNABORTED, ETIMEDOUT,
    ENETRESET, ENETUNREACH, EHOSTUNREACH, ECONNREFUSED and ENOTCONN. *)
Definition kq_wsa_to_errno (wsa : Z) : Z :=
  if wsa =? 0 then 0
  else if wsa =? 10054 then 108
  else if wsa =? 10053 then 106
  else if wsa =? 10060 then 138
  else if wsa =? 10052 then 117
  else if wsa =? 10051 then 118
  else if wsa =? 10065 then 110
  else if wsa =? 10061 then 107
  else if wsa =? 10057 then 126
  else wsa.

(** What one round of the delivery loop does: return, or drain more with the place and
    room in the event list and the number of events produced. *)
Inductive round := Return (rv : Z) | DrainMore (el nevents produced : Z).

Section Windows.
Context {K : Type} `{OS K}.
Implicit Types (w : world K) (p q : ptr) (f : filt_ref).

(** ** Access to the members of this backend *)

Definition upd_wn (g : windows -> windows) : M (world K) unit :=
  modify (fun w => set_w_wn (g (w_wn w)) w).
Definition wkq w q : win_kq := default win_kq_zero (wn_kqs (w_wn w) !! q).
Definition wkn w p : win_knote := default win_knote_zero (wn_knotes (w_wn w) !! p).
Definition wfilt w f : win_filt := default win_filt_zero (wn_filts (w_wn w) !! f).

Definition get_wkq q : M (world K) win_kq := get_kq q ;;; gets (fun w => wkq w q).
Definition upd_wkq q (g : win_kq -> win_kq) : M (world K) unit :=
  let! k := get_wkq q in upd_wn (fun x => set_wn_kqs (<[q := g k]> (wn_kqs x)) x).
Definition get_wkn p : M (world K) win_knote := get_kn p ;;; gets (fun w => wkn w p).
Definition upd_wkn p (g : win_knote -> win_knote) : M (world K) unit :=
  let! k := get_wkn p in upd_wn (fun x => set_wn_knotes (<[p := g k]> (wn_knotes x)) x).
Definition get_wf f : M (world K) win_filt := get_filt f ;;; gets (fun w => wfilt w f).
Definition upd_wf f (g : win_filt -> win_filt) : M (world K) unit :=
  let! k := get_wf f in upd_wn (fun x => set_wn_filts (<[f := g k]> (wn_filts x)) x).

(** A Win32 call: it fails with [GetLastError()], not with errno. *)
Definition win {A : Type} (c : syscall A) : M (world K) (option A) :=
  fun w => match os_call c (w_os w) with
           | (SOk a, k) => Ret (Some a) (set_w_os k w)
           | (SErr e, k) => Ret None (set_w_wn (set_last_error e (w_wn w)) (set_w_os k w))
           end.
Definition get_last_error : M (world K) Z := gets (fun w => last_error (w_wn w)).
(** A call of which only the success is looked at. *)
Definition win_ok (c : syscall unit) : M (world K) bool :=
  let! r := win c in ret (bool_decide (r = Some tt)).

(** [PostQueuedCompletionStatus] for the knote [p]: the port is [kn_kq->kq_iocp] and the
    key names the filter. *)
Definition post_knote p : M (world K) bool :=
  let! kn := get_kn p in
  let! q := deref NullDeref (kn_kq kn) in
  let! x := get_wkq q in
  win_ok (WinPost (kq_iocp x) 1 (KQ_FILTER_KEY (filter_ (kev kn))) (OvKnote p)).

(** [knote_retain], then the post; the reference is given back where it fails. *)
Definition retain_and_post p : M (world K) bool :=
  knote_retain p ;;;
  let! ok := post_knote p in
  if ok then ret true else knote_release p ;;; ret false.

(** ** Descriptors *)

Definition win_mark (fl : Z) p : M (world K) unit :=
  upd_kn p (fun kn => set_kn_flags (setb (kn_flags kn) fl) kn).

Definition windows_get_descriptor_type p : M (world K) Z :=
  let! kn := get_kn p in
  let id := ident (kev kn) in
  let! st := win (SysGetsockopt id WIN_SO_TYPE) in
  match st with
  | Some stype =>
      let! l := win (SysGetsockopt id WIN_SO_ACCEPTCONN) in
      (match l with
       | Some lsock => if lsock =? 0 then ret tt else win_mark KNFL_SOCKET_PASSIVE p
       | None => ret tt
       end) ;;;
      (if stype =? SOCK_STREAM then win_mark KNFL_SOCKET_STREAM p else ret tt) ;;;
      ret 0
  | None =>
      let! h := sys (WinGetOsfhandle (s32 id)) in
      match h with
      | None => ret (-1)
      | Some h =>
          let! t := win (WinFileType h) in
          (if bool_decide (t = Some FILE_TYPE_PIPE) then win_mark KNFL_PIPE p else win_mark KNFL_FILE p) ;;;
          ret 0
      end
  end.

(** ** Callers inside kevent() *)

Definition windows_kevent_enter q (me : ptr) : M (world K) unit :=
  kqueue_mutex_assert q ;;;
  upd_kq q (fun kq => set_kq_inflight (kq_inflight kq ++ [KeventState me 0]) kq).
Definition windows_kevent_exit q (me : ptr) : M (world K) unit :=
  kqueue_mutex_assert q ;;;
  let! kq := get_kq q in
  if decide (me ∈ ks_id <$> kq_inflight kq) then
    upd_kq q (fun kq => set_kq_inflight (base.filter (fun s => ks_id s <> me) (kq_inflight kq)) kq)
  else fail BadAddress.

(** ** Filters of a kqueue *)

Definition windows_filter_init q f : M (world K) Z :=
  let! x := get_wkq q in
  if (0 <=? kq_filt_count x) && (kq_filt_count x <? EVFILT_SYSCOUNT) then
    upd_wkq q (fun x => set_kq_filt_count (kq_filt_count x + 1)
      (set_kq_filt_ref (take (Z.to_nat (kq_filt_count x)) (kq_filt_ref x) ++ [f]) x)) ;;;
    ret 0
  else fail BadAddress.
Definition windows_filter_free q f : M (world K) unit := ret tt.

(** ** Set-up and teardown of a kqueue *)

Context `{FilterList K}.

(** The vtable as [filter_register] sees it. *)
Definition windows_hooks : kqueue_vtable K :=
  KqueueVtable (fun _ => ret 0) (fun _ => ret tt) false None (fun _ _ _ => ret 0)
    (fun _ _ _ _ => ret 0) (Some windows_filter_init) (Some windows_filter_free) None (ret tt)
    windows_kevent_enter windows_kevent_exit.

(** The label [err:] with the local variable [pipe_read]; [pipe_write] is NULL at every
    jump. *)
Definition init_err q (pipe_read : Z) : M (world K) Z :=
  (if pipe_read =? 0 then ret tt else win (WinCloseHandle pipe_read) ;;; ret tt) ;;;
  let! x := get_wkq q in
  (if kq_close_read x =? 0 then ret tt
   else
     win (WinCancelIo (kq_close_read x) (OvClose q)) ;;;
     win (WinCloseHandle (kq_close_read x)) ;;;
     upd_wkq q (set_kq_close_read 0)) ;;;
  let! kq := get_kq q in
  (if 0 <=? kq_id kq then sys (SysClose (kq_id kq)) ;;; upd_kq q (set_kq_id (-1)) else ret tt) ;;;
  let! x := get_wkq q in
  (if kq_iocp x =? 0 then ret tt else win (WinCloseHandle (kq_iocp x)) ;;; upd_wkq q (set_kq_iocp 0)) ;;;
  ret (-1).

(** Another kqueue that still claims the descriptor [id] is disowned. *)
Definition disown q (id : Z) : M (world K) unit :=
  let! l := gets w_kq_list in
  for_each (A := unit) (fun r =>
    if decide (r = q) then ret None
    else
      let! k := get_kq r in
      (if kq_id k =? id then upd_kq r (set_kq_id (-1)) else ret tt) ;;; ret None) l ;;;
  ret tt.

(** From the association of the pipe with the port on. *)
Definition init_watch q (pipe_read : Z) : M (world K) Z :=
  let! x := get_wkq q in
  let! ok := win_ok (WinAssociate pipe_read (kq_iocp x) KQ_CLOSE_DETECT_KEY) in
  if negb ok then init_err q pipe_read
  else
    upd_wkq q (set_kq_close_read pipe_read) ;;;
    let! rd_ok := win_ok (WinReadFile pipe_read 1 (OvClose q)) in
    let! e := get_last_error in
    if negb rd_ok && negb (e =? ERROR_IO_PENDING) then init_err q pipe_read
    else
      let! rv := filter_register_all windows_hooks q in
      if rv <? 0 then init_err q 0 else ret 0.

Definition windows_kqueue_init q : M (world K) Z :=
  upd_kq q (set_kq_inflight []) ;;;
  let! r := win WinCreatePort in
  match r with
  | None => upd_wkq q (set_kq_iocp 0) ;;; ret (-1)
  | Some port =>
      upd_wkq q (set_kq_iocp port) ;;;
      let! name := gets (fun w => kq_close_pipe_seq (w_wn w)) in
      upd_wn (fun x => set_kq_close_pipe_seq (s32 (name + 1)) x) ;;;
      let! rd := win (WinNamedPipe name) in
      match rd with
      | None => init_err q 0
      | Some pipe_read =>
          let! wr := win (WinOpenPipe name) in
          match wr with
          | None => init_err q pipe_read
          | Some pipe_write =>
              let! id := sys (WinOpenOsfhandle pipe_write) in
              match id with
              | None => upd_kq q (set_kq_id (-1)) ;;; win (WinCloseHandle pipe_write) ;;; init_err q pipe_read
              | Some id =>
                  upd_kq q (set_kq_id id) ;;;
                  disown q id ;;;
                  init_watch q pipe_read
              end
          end
      end
  end.

(** Whether the user has closed the descriptor. *)
Definition consumer_already_closed q : M (world K) bool :=
  let! x := get_wkq q in
  if kq_consumer_closed x then ret true
  else if kq_close_read x =? 0 then ret false
  else let! r := win (WinIoDone (OvClose q)) in ret (default false r).

Definition windows_kqueue_free q : M (world K) unit :=
  let! closed := consumer_already_closed q in
  let! x := get_wkq q in
  (if kq_close_read x =? 0 then ret tt
   else
     win (WinCancelIo (kq_close_read x) (OvClose q)) ;;;
     win (WinCloseHandle (kq_close_read x)) ;;;
     upd_wkq q (set_kq_close_read 0)) ;;;
  let! kq := get_kq q in
  (if (0 <=? kq_id kq) && negb closed then sys (SysClose (kq_id kq)) ;;; ret tt else ret tt) ;;;
  upd_kq q (set_kq_id (-1)) ;;;
  let! x := get_wkq q in
  if kq_iocp x =? 0 then ret tt else win (WinCloseHandle (kq_iocp x)) ;;; upd_wkq q (set_kq_iocp 0).

(** One wake-up for each caller inside. *)
Definition windows_kqueue_interrupt q : M (world K) unit :=
  let! x := get_wkq q in
  if kq_iocp x =? 0 then ret tt
  else
    let! kq := get_kq q in
    for_each (A := unit) (fun _ => win (WinPost (kq_iocp x) 0 0 OvNull) ;;; ret None) (kq_inflight kq) ;;;
    ret tt.

(** ** Eventfds: a completion without a knote *)

Definition windows_eventfd_init f : M (world K) Z :=
  let! x := get_filt f in
  upd_filt f (set_ef_id (-1)) ;;;
  upd_wf f (fun _ => WinFilt (kf_id x) false) ;;; ret 0.
Definition windows_eventfd_close f : M (world K) unit := ret tt.
Definition windows_eventfd_raise f : M (world K) Z :=
  let! x := get_wkq f.1 in
  let! e := get_wf f in
  if wf_raised e then ret 0
  else
    upd_wf f (set_wf_raised true) ;;;
    let! ok := win_ok (WinPost (kq_iocp x) 0 (u64 (efd_filter_id e)) OvNull) in
    if ok then ret 0 else upd_wf f (set_wf_raised false) ;;; ret (-1).
Definition windows_eventfd_lower f : M (world K) Z := upd_wf f (set_wf_raised false) ;;; ret 0.
Definition windows_eventfd_descriptor f : Z := -1.
Definition windows_eventfd_register q f : M (world K) Z := ret 0.
Definition windows_eventfd_unregister q f : M (world K) unit := ret tt.

(** ** Waiting *)

Definition wait_ms (ts : option timespec) : Z :=
  match ts with
  | None => INFINITE
  | Some t =>
      if (tv_sec t =? 0) && (tv_nsec t =? 0) then 0
      else if (tv_sec t =? 0) && (tv_nsec t <? 1000000) then 1
      else
        let s := if 0 <? tv_sec t then u32 (u32 (tv_sec t) * 1000) else 0 in
        if 0 <? tv_nsec t then u32 (s + Z.quot (tv_nsec t) 1000000) else s
  end.

Definition wait_closed : M (world K) Z := set_errno EBADF ;;; ret (-1).

(** A dequeued completion is stored in [iocp_buf]; the error is that of its i/o. *)
Definition GetQueuedCompletionStatus (port ms : Z) : M (world K) bool :=
  upd_wn (set_iocp_buf event_buf_zero) ;;;
  let! r := win (WinGetQueued port ms) in
  match r with
  | None => ret false
  | Some (b, None) => upd_wn (set_iocp_buf b) ;;; ret true
  | Some (b, Some e) => upd_wn (fun x => set_last_error e (set_iocp_buf b x)) ;;; ret false
  end.
Definition buf_overlap : M (world K) overlapped := gets (fun w => io_overlap (iocp_buf (w_wn w))).

Definition windows_kevent_wait q (no : Z) (ts : option timespec) : M (world K) Z :=
  let! x := get_wkq q in
  if kq_consumer_closed x then wait_closed
  else
    let ms := wait_ms ts in
    upd_wn (set_iocp_wait_timeout_ms ms) ;;;
    let! success := GetQueuedCompletionStatus (kq_iocp x) ms in
    let! x := get_wkq q in
    let! kq := get_kq q in
    if kq_consumer_closed x || kq_freeing kq then wait_closed
    else if success then ret 1
    else
      let! ov := buf_overlap in
      if negb (bool_decide (ov = OvNull)) then ret 1
      else
        let! gle := get_last_error in
        if gle =? WAIT_TIMEOUT then ret 0
        else if (gle =? ERROR_ABANDONED_WAIT_0) || (gle =? ERROR_INVALID_HANDLE) then wait_closed
        else set_errno EIO ;;; ret (-1).

(** ** Delivery *)

(** The knote and the filter of a completion. *)
Definition completion_owner (b : event_buf) : M (world K) (option ptr * Z) :=
  if io_key b =? KQ_PIPE_READ_KEY then
    match io_overlap b with
    | OvPipe p => let! kn := get_kn p in ret (Some p, filter_ (kev kn))
    | _ => fail BadAddress
    end
  else
    match io_overlap b with
    | OvNull => ret (None, s16 (io_key b))
    | OvKnote p => ret (Some p, s16 (io_key b))
    | _ => fail BadAddress
    end.

(** A second completion for a knote that was delivered in this call. *)
Definition delivered_already (o : option ptr) (batch produced : Z) : M (world K) bool :=
  match o with
  | None => ret false
  | Some p =>
      if 0 <? produced then let! k := get_wkn p in ret (kn_dispatch_seq k =? batch) else ret false
  end.

(** It is queued again, for the next call. *)
Definition requeue q (o : option ptr) : M (world K) unit :=
  let! p := deref NullDeref o in
  let! x := get_wkq q in
  let! kn := get_kn p in
  win (WinPost (kq_iocp x) 1 (KQ_FILTER_KEY (filter_ (kev kn))) (OvKnote p)) ;;; ret tt.

Definition close_detected q : M (world K) round :=
  upd_wkq q (set_kq_consumer_closed true) ;;;
  win (WinSubmit q) ;;;
  set_errno EBADF ;;; ret (Return (-1)).

(** [kf_copyout] of the filter [f]; a failure aborts. *)
Definition deliver f (o : option ptr) (b : event_buf) (batch el nevents produced : Z) : M (world K) round :=
  match o with Some p => upd_wkn p (set_kn_dispatch_seq batch) | None => ret tt end ;;;
  let! ops := filt_ops f in
  let! rv := kf_copyout ops el nevents f o (EvIocp b) in
  if rv <? 0 then fail Aborted
  else
    let! k := load el in
    if (0 <? rv) && negb (filter_ k =? 0) then
      if nevents - rv <=? 0 then ret (Return (produced + rv))
      else ret (DrainMore (el + rv) (nevents - rv) (produced + rv))
    else ret (DrainMore el nevents produced).

(** The loop body up to the label [drain_more:]. *)
Definition dispatch_round q (batch el nevents produced : Z) : M (world K) round :=
  upd_mem el (set_filter_ 0) ;;;
  let! b := gets (fun w => iocp_buf (w_wn w)) in
  if io_key b =? KQ_CLOSE_DETECT_KEY then close_detected q
  else if (io_key b =? 0) && bool_decide (io_overlap b = OvNull) then ret (DrainMore el nevents produced)
  else
    let! own := completion_owner b in
    let! dup := delivered_already own.1 batch produced in
    if dup then requeue q own.1 ;;; ret (Return produced)
    else
      let! fo := filter_lookup q own.2 in
      match fo with
      | None => ret (DrainMore el nevents produced)
      | Some f => deliver f own.1 b batch el nevents produced
      end.

(** The next completion; false: return with what was produced. *)
Definition drain_next q (produced : Z) : M (world K) bool :=
  let! t := gets (fun w => iocp_wait_timeout_ms (w_wn w)) in
  let! x := get_wkq q in
  let! ok := GetQueuedCompletionStatus (kq_iocp x) (if 0 <? produced then 0 else t) in
  if ok then ret true
  else
    let! gle := get_last_error in
    if gle =? WAIT_TIMEOUT then ret false
    else let! ov := buf_overlap in ret (negb (bool_decide (ov = OvNull))).

Fixpoint dispatch_loop (fuel : nat) q (batch el nevents produced : Z) : M (world K) Z :=
  match fuel with
  | O => fail OutOfFuel
  | S n =>
      let! r := dispatch_round q batch el nevents produced in
      match r with
      | Return rv => ret rv
      | DrainMore el nevents produced =>
          let! more := drain_next q produced in
          if more then dispatch_loop n q batch el nevents produced else ret produced
      end
  end.

Definition windows_kevent_copyout (fuel : nat) q (nready el nevents : Z) : M (world K) Z :=
  let! x := get_wkq q in
  let s := u32 (kq_dispatch_seq x + 1) in
  let batch := if s =? 0 then 1 else s in
  upd_wkq q (set_kq_dispatch_seq batch) ;;;
  dispatch_loop fuel q batch el nevents 0.

(** ** The vtable *)

Definition windows_kqops (fuel : nat) : kqueue_vtable K :=
  KqueueVtable windows_kqueue_init windows_kqueue_free false (Some windows_kqueue_interrupt)
    windows_kevent_wait (windows_kevent_copyout fuel) (Some windows_filter_init) (Some windows_filter_free)
    None (ret tt) windows_kevent_enter windows_kevent_exit.

(** The work item that frees a kqueue whose descriptor was closed. *)
Definition windows_kqueue_close_cleanup (fuel : nat) q : M (world K) unit :=
  mtx_lock ;;;
  let! l := gets w_kq_list in
  (if decide (q ∈ l) then kqueue_free (windows_kqops fuel) q else ret tt) ;;;
  mtx_unlock.
End Windows.
