(* ===== verification/WinUser.v ===== *)
(** * EVFILT_USER on Windows: src/windows/user.c

    A trigger posts a completion, unless the knote is marked as triggered already. *)

From Stdlib Require Import ZArith Lia Bool.
From stdpp Require Import base list gmap.
From S2P Require Import Prelude RBTree Event Map State Ops Knote Filter Kqueue WinPlatform.

(** The new [fflags] for the control bits of a change; [NOTE_FFCTRLMASK] has two bits, so
    the four cases are all. *)
Definition win_user_fflags (old change : Z) : Z :=
  let ffctrl := Z.land change NOTE_FFCTRLMASK in
  let ff := Z.land change NOTE_FFLAGSMASK in
  if ffctrl =? NOTE_FFNOP then old
  else if ffctrl =? NOTE_FFAND then Z.land old ff
  else if ffctrl =? NOTE_FFOR then Z.lor old ff
  else ff.

Section User.
Context {K : Type} `{OS K} `{FilterList K}.
Implicit Types (w : world K) (p q : ptr) (f : filt_ref).

(** ** Endings the copyout functions of the backend share *)

(** The completion is discarded and its reference given back. *)
Definition discard (dst : Z) p : M (world K) Z :=
  knote_release p ;;; upd_mem dst (set_filter_ 0) ;;; ret 0.

(** The flags are acted on and the reference of the completion is given back. *)
Definition act_and_release f p : M (world K) Z :=
  let! rv := knote_copyout_flag_actions f p in
  if rv <? 0 then knote_release p ;;; ret (-1)
  else knote_release p ;;; ret 1.

(** [k] with its [fflags] changed *)
Definition map_fflags (g : Z -> Z) (k : kevent) : kevent := set_fflags (g (fflags k)) k.
Definition map_flags (g : Z -> Z) (k : kevent) : kevent := set_flags (g (flags k)) k.
Definition upd_kev p (g : kevent -> kevent) : M (world K) unit := upd_kn p (fun kn => set_kev (g (kev kn)) kn).

(** ** The filter *)

Definition windows_evfilt_user_copyout (dst nevents : Z) f (src : option ptr) (ev : raw_event)
    : M (world K) Z :=
  let! p := deref NullDeref src in
  let! kn := get_kn p in
  if has (kn_flags kn) KNFL_KNOTE_DELETED then discard dst p
  else if has (flags (kev kn)) EV_DISABLE then discard dst p
  else
    store dst (kev kn) ;;;
    upd_mem dst (map_fflags (fun x => clrb x NOTE_FFCTRLMASK)) ;;;
    upd_mem dst (map_fflags (fun x => clrb x NOTE_TRIGGER)) ;;;
    (if has (flags (kev kn)) EV_CLEAR || has (flags (kev kn)) EV_DISPATCH
     then upd_kev p (map_fflags (fun x => clrb x NOTE_TRIGGER)) else ret tt) ;;;
    act_and_release f p.

Definition windows_evfilt_user_knote_create f p : M (world K) Z := ret 0.
Definition windows_evfilt_user_knote_delete f p : M (world K) Z := ret 0.

Definition windows_evfilt_user_knote_modify f p (k : kevent) : M (world K) Z :=
  upd_kev p (map_fflags (fun old => win_user_fflags old (fflags k))) ;;;
  let! kn := get_kn p in
  if negb (has (flags (kev kn)) EV_DISABLE) && has (fflags k) NOTE_TRIGGER then
    let was_pending := has (fflags (kev kn)) NOTE_TRIGGER in
    upd_kev p (map_fflags (fun x => setb x NOTE_TRIGGER)) ;;;
    if was_pending then ret 0
    else let! ok := retain_and_post p in ret (if ok then 0 else -1)
  else ret 0.

Definition windows_evfilt_user_knote_enable f p : M (world K) Z := windows_evfilt_user_knote_create f p.
Definition windows_evfilt_user_knote_disable f p : M (world K) Z := windows_evfilt_user_knote_delete f p.

(** The [kf_init] and [kf_destroy] of this filter do nothing. *)
Definition windows_evfilt_user : filter_src K :=
  FilterSrc EVFILT_USER (FilterOps (Some (fun _ => ret 0)) (Some (fun _ => ret tt))
    windows_evfilt_user_copyout windows_evfilt_user_knote_create windows_evfilt_user_knote_modify
    windows_evfilt_user_knote_delete windows_evfilt_user_knote_enable windows_evfilt_user_knote_disable).
End User.
