(* ===== verification/WinTimer.v ===== *)
(** * EVFILT_TIMER on Windows: src/windows/timer.c

    A waitable timer per knote and a wait of the thread pool on it.  The callback counts
    the expirations in [kn_fire_count] and posts a completion for the first one; the
    registered wait holds a reference to the knote of its own. *)

From Stdlib Require Import ZArith Lia Bool.
From stdpp Require Import base list gmap.
From S2P Require Import Prelude RBTree Event Map State Ops Knote Filter Kqueue WinPlatform WinUser.

Definition NOTE_TIMER_UNIT_MASK : Z := Z.lor NOTE_USECONDS (Z.lor NOTE_NSECONDS NOTE_SECONDS).

Section Timer.
Context {K : Type} `{OS K} `{FilterList K}.
Implicit Types (w : world K) (p q : ptr) (f : filt_ref).

(** The value of an [int64_t] expression. *)
Definition int64 (z : Z) : M (world K) Z :=
  if (- 2 ^ 63 <=? z) && (z <? 2 ^ 63) then ret z else fail SignedOverflow.

Definition convert_msec_to_filetime (src : Z) : M (world K) Z :=
  let! a := int64 (src * 1000) in
  let! b := int64 (a * 10) in int64 (- b).

Definition convert_timedata_to_msec (data ff : Z) : M (world K) Z :=
  let unit_ := Z.land ff NOTE_TIMER_UNIT_MASK in
  let! ms := (if unit_ =? NOTE_USECONDS then let! x := int64 (data + 999) in ret (Z.quot x 1000)
              else if unit_ =? NOTE_NSECONDS then let! x := int64 (data + 999999) in ret (Z.quot x 1000000)
              else if unit_ =? NOTE_SECONDS then int64 (data * 1000)
              else ret data) in
  ret (if ms <? 1 then 1 else ms).

Definition EPOCH_OFFSET : Z := 116444736000000000.

(** The time left until the deadline [msec] since 1970 *)
Definition absolute_msec (msec : Z) : M (world K) Z :=
  let! t := win WinSystemTime in
  let now_ms := s64 (Z.quot (u64 (default 0 t - EPOCH_OFFSET)) 10000) in
  let! d := int64 (msec - now_ms) in
  ret (if d <? 0 then 0 else d).

Definition ktimer_delete f p : M (world K) Z :=
  let! x := get_wkn p in
  if (kn_handle x =? 0) || (kn_event_whandle x =? 0) then ret 0
  else
    let! ok := win_ok (WinUnregisterWait (kn_event_whandle x)) in
    if negb ok then ret (-1)
    else
      let! ok := win_ok (WinCancelTimer (kn_handle x)) in
      if negb ok then ret (-1)
      else
        let! ok := win_ok (WinCloseHandle (kn_handle x)) in
        if negb ok then ret (-1)
        else
          let! kn := get_kn p in
          (if has (flags (kev kn)) EV_ONESHOT then ret tt else knote_release p) ;;;
          upd_wkn p (set_kn_handle 0) ;;;
          ret 0.

(** The callback of the thread pool: the knote's own reference of the wait is given back
    when a one-shot timer fires. *)
Definition evfilt_timer_callback p (fired : bool) : M (world K) unit :=
  if fired then ret tt
  else
    let! kn := get_kn p in
    if has (kn_flags kn) KNFL_KNOTE_DELETED then ret tt
    else
      let! q := deref AssertFail (kn_kq kn) in
      let! x := get_wkn p in
      upd_wkn p (set_kn_fire_count (s32 (kn_fire_count x + 1))) ;;;
      if negb (kn_fire_count x =? 0) then ret tt
      else
        let! ok := retain_and_post p in
        if negb ok then upd_wkn p (set_kn_fire_count 0)
        else
          let! kn := get_kn p in
          if has (flags (kev kn)) EV_ONESHOT then
            filter_lookup q (filter_ (kev kn)) ;;; knote_release p
          else ret tt.

Definition windows_evfilt_timer_copyout (dst nevents : Z) f (src : option ptr) (ev : raw_event)
    : M (world K) Z :=
  let! p := deref NullDeref src in
  let! kn := get_kn p in
  if has (kn_flags kn) KNFL_KNOTE_DELETED then discard dst p
  else if has (flags (kev kn)) EV_DISABLE then discard dst p
  else
    store dst (kev kn) ;;;
    let! x := get_wkn p in
    upd_wkn p (set_kn_fire_count 0) ;;;
    upd_mem dst (set_data (if kn_fire_count x <=? 0 then 1 else kn_fire_count x)) ;;;
    act_and_release f p.

(** The reference is taken whether or not the wait could be registered. *)
Definition timer_wait p (th : Z) : M (world K) Z :=
  upd_wkn p (set_kn_handle th) ;;;
  let! wh := win (WinRegisterWait th WaitTimer p false) in
  match wh with Some wh => upd_wkn p (set_kn_event_whandle wh) | None => ret tt end ;;;
  knote_retain p ;;; ret 0.

Definition windows_evfilt_timer_knote_create f p : M (world K) Z :=
  let! kn := get_kn p in
  if (data (kev kn) <? 0) && negb (has (fflags (kev kn)) NOTE_ABSOLUTE) then set_errno EINVAL ;;; ret (-1)
  else
    upd_kev p (map_flags (fun x => setb x EV_CLEAR)) ;;;
    let! r := win WinCreateTimer in
    match r with
    | None => ret (-1)
    | Some th =>
        let! kn := get_kn p in
        let k := kev kn in
        let! msec := convert_timedata_to_msec (data k) (fflags k) in
        let! msec := (if has (fflags k) NOTE_ABSOLUTE then absolute_msec msec else ret msec) in
        let! due := convert_msec_to_filetime msec in
        let period := if has (flags k) EV_ONESHOT || has (fflags k) NOTE_ABSOLUTE then 0 else s32 msec in
        let! ok := win_ok (WinSetTimer th due period) in
        if ok then timer_wait p th else win (WinCloseHandle th) ;;; ret (-1)
    end.

Definition windows_evfilt_timer_knote_delete f p : M (world K) Z := ktimer_delete f p.

Definition windows_evfilt_timer_knote_modify f p (k : kevent) : M (world K) Z :=
  let! rv := windows_evfilt_timer_knote_delete f p in
  if rv <? 0 then ret (-1)
  else
    upd_kev p (fun e => set_data (data k) (set_fflags (fflags k) e)) ;;;
    windows_evfilt_timer_knote_create f p.

Definition windows_evfilt_timer_knote_enable f p : M (world K) Z := windows_evfilt_timer_knote_create f p.
Definition windows_evfilt_timer_knote_disable f p : M (world K) Z := windows_evfilt_timer_knote_delete f p.

(** The [kf_init] and [kf_destroy] of this filter do nothing. *)
Definition windows_evfilt_timer : filter_src K :=
  FilterSrc EVFILT_TIMER (FilterOps (Some (fun _ => ret 0)) (Some (fun _ => ret tt))
    windows_evfilt_timer_copyout windows_evfilt_timer_knote_create windows_evfilt_timer_knote_modify
    windows_evfilt_timer_knote_delete windows_evfilt_timer_knote_enable windows_evfilt_timer_knote_disable).
End Timer.
