(* ===== verification/WinProc.v ===== *)
(** * EVFILT_PROC and EVFILT_SIGNAL on Windows: src/windows/proc.c and signal.c

    A wait of the thread pool on the handle of the process, and on a named event that
    stands for the signals of a process. *)

From Stdlib Require Import ZArith Lia Bool.
From stdpp Require Import base list gmap.
From S2P Require Import Prelude RBTree Event Map State Ops Knote Filter Kqueue WinPlatform WinUser.

Definition SYNCHRONIZE : Z := 0x00100000.
Definition PROCESS_QUERY_LIMITED_INFORMATION : Z := 0x1000.
Definition PROCESS_TERMINATE : Z := 0x0001.
Definition WIN_SIGINT : Z := 2.
Definition WIN_SIGKILL : Z := 9.
Definition WIN_SIGTERM : Z := 15.
Definition WIN_SIGBREAK : Z := 21.
Definition CTRL_C_EVENT : Z := 0.
Definition CTRL_BREAK_EVENT : Z := 1.
Definition CTRL_CLOSE_EVENT : Z := 2.
Definition CTRL_LOGOFF_EVENT : Z := 5.
Definition CTRL_SHUTDOWN_EVENT : Z := 6.

(** Length of a number in decimal, for numbers of 32 bits. *)
Definition dec_length (n : Z) : Z :=
  (if n <? 0 then 1 else 0) +
  1 + Z.of_nat (length (List.filter (fun i => 10 ^ Z.of_nat i <=? Z.abs n) (seq 1 10))).

Section Proc.
Context {K : Type} `{OS K} `{FilterList K}.
Implicit Types (w : world K) (p q : ptr) (f : filt_ref).

(** ** proc.c *)

Definition evfilt_proc_callback p (fired : bool) : M (world K) unit :=
  let! kn := get_kn p in
  if has (kn_flags kn) KNFL_KNOTE_DELETED then ret tt
  else retain_and_post p ;;; ret tt.

Definition windows_evfilt_proc_copyout (dst nevents : Z) f (src : option ptr) (ev : raw_event)
    : M (world K) Z :=
  let! p := deref NullDeref src in
  let! kn := get_kn p in
  store dst (kev kn) ;;;
  let! x := get_wkn p in
  let! code := (if kn_handle x =? 0 then ret None else win (WinExitCode (kn_handle x))) in
  (match code with
   | Some c =>
       upd_mem dst (set_data (Z.shiftl (Z.land c 0xff) 8)) ;;;
       upd_mem dst (map_flags (fun x => setb x EV_EOF))
   | None => upd_mem dst (set_data 0)
   end) ;;;
  act_and_release f p.

Definition windows_evfilt_proc_knote_create f p : M (world K) Z :=
  let! kn := get_kn p in
  if negb (has (fflags (kev kn)) NOTE_EXIT) then
    upd_wkn p (fun x => set_kn_event_whandle 0 (set_kn_handle 0 x)) ;;; ret 0
  else
    let! r := win (WinOpenProcess (Z.lor SYNCHRONIZE PROCESS_QUERY_LIMITED_INFORMATION) (u32 (ident (kev kn)))) in
    match r with
    | None => ret (-1)
    | Some proc =>
        upd_kev p (map_flags (fun x => setb x EV_ONESHOT)) ;;;
        upd_kev p (map_flags (fun x => setb x EV_CLEAR)) ;;;
        upd_wkn p (set_kn_handle proc) ;;;
        let! wh := win (WinRegisterWait proc WaitProc p true) in
        match wh with
        | None => win (WinCloseHandle proc) ;;; upd_wkn p (set_kn_handle 0) ;;; ret (-1)
        | Some wh => upd_wkn p (set_kn_event_whandle wh) ;;; ret 0
        end
    end.

(** The wait is unregistered and the handle closed; failures are not reported. *)
Definition close_wait p : M (world K) Z :=
  let! x := get_wkn p in
  (if kn_event_whandle x =? 0 then ret tt
   else win (WinUnregisterWait (kn_event_whandle x)) ;;; upd_wkn p (set_kn_event_whandle 0)) ;;;
  let! x := get_wkn p in
  (if kn_handle x =? 0 then ret tt
   else win (WinCloseHandle (kn_handle x)) ;;; upd_wkn p (set_kn_handle 0)) ;;;
  ret 0.

Definition windows_evfilt_proc_knote_delete f p : M (world K) Z := close_wait p.

Definition windows_evfilt_proc_knote_modify f p (k : kevent) : M (world K) Z :=
  let! x := get_wkn p in
  if (kn_handle x =? 0) && has (fflags k) NOTE_EXIT then windows_evfilt_proc_knote_create f p else ret 0.

Definition windows_evfilt_proc_knote_enable f p : M (world K) Z := windows_evfilt_proc_knote_create f p.
Definition windows_evfilt_proc_knote_disable f p : M (world K) Z := windows_evfilt_proc_knote_delete f p.

Definition windows_evfilt_proc : filter_src K :=
  FilterSrc EVFILT_PROC (FilterOps None None windows_evfilt_proc_copyout
    windows_evfilt_proc_knote_create windows_evfilt_proc_knote_modify windows_evfilt_proc_knote_delete
    windows_evfilt_proc_knote_enable windows_evfilt_proc_knote_disable).

(** ** signal.c *)

(** The name of the event: what [snprintf] writes after the prefix must leave room for
    the terminator in 18 bytes. *)
Definition kq_signal_format_name (pid signum : Z) : option (Z * Z) :=
  if dec_length pid + 1 + dec_length signum <? 18 then Some (pid, signum) else None.

Definition evfilt_signal_callback p (fired : bool) : M (world K) unit :=
  let! kn := get_kn p in
  if has (kn_flags kn) KNFL_KNOTE_DELETED then ret tt
  else
    knote_retain p ;;;
    let! x := get_wkn p in
    upd_wkn p (set_kn_fire_count (s32 (kn_fire_count x + 1))) ;;;
    let! ok := post_knote p in
    if ok then ret tt else knote_release p.

Definition windows_evfilt_signal_copyout (dst nevents : Z) f (src : option ptr) (ev : raw_event)
    : M (world K) Z :=
  let! p := deref NullDeref src in
  let! kn := get_kn p in
  if has (kn_flags kn) KNFL_KNOTE_DELETED then
    upd_wkn p (set_kn_fire_count 0) ;;; discard dst p
  else
    let! x := get_wkn p in
    upd_wkn p (set_kn_fire_count 0) ;;;
    if kn_fire_count x =? 0 then discard dst p
    else
      store dst (kev kn) ;;;
      upd_mem dst (set_data (kn_fire_count x)) ;;;
      act_and_release f p.

Definition windows_evfilt_signal_knote_create f p : M (world K) Z :=
  let! kn := get_kn p in
  if (ident (kev kn) <=? 0) || (64 <? ident (kev kn)) then set_errno EINVAL ;;; ret (-1)
  else
    let! pid := win WinProcessId in
    match kq_signal_format_name (default 0 pid) (s32 (ident (kev kn))) with
    | None => ret (-1)
    | Some name =>
        let! r := win (WinCreateEvent (Some name)) in
        match r with
        | None => ret (-1)
        | Some evt =>
            upd_wkn p (set_kn_handle evt) ;;;
            upd_wkn p (set_kn_fire_count 0) ;;;
            let! wh := win (WinRegisterWait evt WaitSignal p false) in
            match wh with
            | None => win (WinCloseHandle evt) ;;; upd_wkn p (set_kn_handle 0) ;;; ret (-1)
            | Some wh => upd_wkn p (set_kn_event_whandle wh) ;;; ret 0
            end
        end
    end.

Definition windows_evfilt_signal_knote_delete f p : M (world K) Z := close_wait p.
Definition windows_evfilt_signal_knote_modify f p (k : kevent) : M (world K) Z := ret 0.
Definition windows_evfilt_signal_knote_enable f p : M (world K) Z := windows_evfilt_signal_knote_create f p.
Definition windows_evfilt_signal_knote_disable f p : M (world K) Z := windows_evfilt_signal_knote_delete f p.

Definition windows_evfilt_signal : filter_src K :=
  FilterSrc EVFILT_SIGNAL (FilterOps None None windows_evfilt_signal_copyout
    windows_evfilt_signal_knote_create windows_evfilt_signal_knote_modify windows_evfilt_signal_knote_delete
    windows_evfilt_signal_knote_enable windows_evfilt_signal_knote_disable).

(** *** The senders *)

(** The signal a console event stands for. *)
Definition console_signal (ctrl : Z) : option Z :=
  if ctrl =? CTRL_C_EVENT then Some WIN_SIGINT
  else if ctrl =? CTRL_BREAK_EVENT then Some WIN_SIGBREAK
  else if (ctrl =? CTRL_CLOSE_EVENT) || (ctrl =? CTRL_LOGOFF_EVENT) || (ctrl =? CTRL_SHUTDOWN_EVENT)
  then Some WIN_SIGTERM
  else None.

(** The event of a process and signal is set; whether somebody listens. *)
Definition raise_event (name : Z * Z) : M (world K) bool :=
  let! h := win (WinOpenEvent name) in
  match h with
  | None => ret false
  | Some h => win (WinSetEvent h) ;;; win (WinCloseHandle h) ;;; ret true
  end.

Definition kq_signal_console_handler (ctrl : Z) : M (world K) bool :=
  match console_signal ctrl with
  | None => ret false
  | Some sig =>
      let! pid := win WinProcessId in
      match kq_signal_format_name (default 0 pid) sig with
      | None => ret false
      | Some name => raise_event name
      end
  end.

Definition windows_signal_init : M (world K) Z :=
  let! ok := win_ok WinConsoleHandler in ret (if ok then 0 else -1).

Definition kq_kill (pid sig : Z) : M (world K) Z :=
  match kq_signal_format_name (u32 pid) sig with
  | None => set_errno EINVAL ;;; ret (-1)
  | Some name =>
      let! listener := raise_event name in
      let! kill := (if sig =? WIN_SIGKILL then ret true
                    else if sig =? WIN_SIGTERM then
                      let! self := win WinProcessId in ret (negb (u32 pid =? default 0 self))
                    else ret false) in
      let! reached := (if kill : bool then
                         let! proc := win (WinOpenProcess PROCESS_TERMINATE (u32 pid)) in
                         match proc with
                         | None => ret false
                         | Some proc =>
                             win (WinTerminate proc (128 + sig)) ;;; win (WinCloseHandle proc) ;;; ret true
                         end
                       else ret true) in
      if negb reached then set_errno ESRCH ;;; ret (-1)
      else if negb listener && negb (sig =? WIN_SIGKILL) then set_errno ESRCH ;;; ret (-1)
      else ret 0
  end.

Definition kq_raise (sig : Z) : M (world K) Z :=
  let! pid := win WinProcessId in kq_kill (s32 (default 0 pid)) sig.

(** Winsock must start; the handler of console events may fail.  The mutex set up here
    is unlocked in every initial state, and the debug heap of MSVC is left out. *)
Definition windows_libkqueue_init : M (world K) unit :=
  let! ok := win_ok WinStartup in
  if ok then windows_signal_init ;;; ret tt else fail Aborted.
End Proc.
