(* ===== verification/WinReadWrite.v ===== *)
(** * EVFILT_READ and EVFILT_WRITE on Windows: src/windows/read.c and write.c

    A socket has an event object that Winsock sets and a wait of the thread pool on it; a
    pipe is watched for reading by a read of 0 bytes that completes at the port; a file,
    and a pipe for writing, is always ready: a completion is posted for it again each
    time it is delivered. *)

From Stdlib Require Import ZArith Lia Bool.
From stdpp Require Import base list gmap.
From S2P Require Import Prelude RBTree Event Map State Ops Knote Filter Kqueue WinPlatform WinUser.

Definition FD_READ : Z := 0x01.
Definition FD_WRITE : Z := 0x02.
Definition FD_ACCEPT : Z := 0x08.
Definition FD_CONNECT : Z := 0x10.
Definition FD_CLOSE : Z := 0x20.
Definition EV_EDGE : Z := Z.lor EV_CLEAR EV_DISPATCH.

(** [enum read_copyout_rv] *)
Inductive read_copyout_rv := READ_COPYOUT_DROP | READ_COPYOUT_OK | READ_COPYOUT_FILE_EOF | READ_COPYOUT_ERR.

Section ReadWrite.
Context {K : Type} `{OS K} `{FilterList K}.
Implicit Types (w : world K) (p q : ptr) (f : filt_ref).

(** ** read.c *)

(** [FD_CLOSE] with its reason is latched in the knote. *)
Definition latch_eof p (wsa : Z) : M (world K) unit :=
  upd_wkn p (fun x => set_rd_so_error (kq_wsa_to_errno wsa) (set_rd_eof true x)).

(** Whether an edge-triggered socket has new data: a close or an accept, or more bytes
    than were last reported. *)
Definition fresh_data p (events : Z) : M (world K) bool :=
  if has events (Z.lor FD_CLOSE FD_ACCEPT) then ret true
  else
    let! kn := get_kn p in
    let! n := win (SysIoctl (ident (kev kn)) WIN_FIONREAD) in
    let now_bytes := s32 (default 0 n) in
    let! x := get_wkn p in
    if now_bytes <=? rd_last_data x then upd_wkn p (set_rd_last_data now_bytes) ;;; ret false
    else ret true.

Definition evfilt_read_callback p (fired : bool) : M (world K) unit :=
  if fired then ret tt
  else
    let! kn := get_kn p in
    let! q := deref AssertFail (kn_kq kn) in
    let! x := get_wkn p in
    let! r := win (WinEnumEvents (ident (kev kn)) (kn_handle x)) in
    match r with
    | None => ret tt
    | Some (events, close_error) =>
        (if has events FD_CLOSE then latch_eof p close_error else ret tt) ;;;
        let! go := (if has (flags (kev kn)) EV_EDGE then fresh_data p events else ret true) in
        if go then retain_and_post p ;;; ret tt else ret tt
    end.

Definition evfilt_read_copyout_file (dst : Z) p : M (world K) read_copyout_rv :=
  let! kn := get_kn p in
  let fd := s32 (ident (kev kn)) in
  let! sb := sys (SysFstat fd) in
  let! remaining := (match sb with
                     | None => ret 0
                     | Some sb =>
                         let! pos := sys (SysLseek fd) in
                         let pos := Z.max 0 (default (-1) pos) in
                         ret (if pos <? st_size sb then st_size sb - pos else 0)
                     end) in
  if remaining =? 0 then upd_wkn p (set_rd_file_synthetic false) ;;; ret READ_COPYOUT_FILE_EOF
  else upd_mem dst (set_data remaining) ;;; ret READ_COPYOUT_OK.

(** The result of the read; [None] when it was cancelled. *)
Definition pipe_result (dst : Z) p : M (world K) (option unit) :=
  let! x := get_wkn p in
  if rd_eof x then upd_mem dst (map_flags (fun x => setb x EV_EOF)) ;;; ret (Some tt)
  else
    let! r := win (WinIoResult (kn_handle x) (OvPipe p)) in
    match r with
    | Some _ => ret (Some tt)
    | None =>
        let! e := get_last_error in
        if e =? ERROR_OPERATION_ABORTED then ret None
        else
          upd_wkn p (set_rd_eof true) ;;;
          upd_mem dst (map_flags (fun x => setb x EV_EOF)) ;;; ret (Some tt)
    end.

Definition evfilt_read_copyout_pipe (dst : Z) p : M (world K) read_copyout_rv :=
  let! r := pipe_result dst p in
  match r with
  | None => ret READ_COPYOUT_DROP
  | Some _ =>
      let! x := get_wkn p in
      let! avail := (if kn_handle x =? 0 then ret None else win (WinPeekPipe (kn_handle x))) in
      upd_mem dst (set_data (default 0 avail)) ;;; ret READ_COPYOUT_OK
  end.

Definition evfilt_read_copyout_socket_passive (dst : Z) p : M (world K) read_copyout_rv :=
  upd_mem dst (set_data 1) ;;; ret READ_COPYOUT_OK.

Definition evfilt_read_copyout_socket (dst : Z) p : M (world K) read_copyout_rv :=
  let! kn := get_kn p in
  let! r := win (SysIoctl (ident (kev kn)) WIN_FIONREAD) in
  match r with
  | None =>
      let! e := get_last_error in
      ret (if e =? WSAENOTSOCK then READ_COPYOUT_DROP else READ_COPYOUT_ERR)
  | Some bufsize =>
      upd_mem dst (set_data bufsize) ;;;
      (if has (flags (kev kn)) EV_EDGE then upd_wkn p (set_rd_last_data (s32 bufsize)) else ret tt) ;;;
      let! x := get_wkn p in
      (if rd_eof x then
         upd_mem dst (map_flags (fun x => setb x EV_EOF)) ;;;
         if rd_so_error x =? 0 then ret tt else upd_mem dst (set_fflags (u32 (rd_so_error x)))
       else ret tt) ;;;
      ret READ_COPYOUT_OK
  end.

(** The completion is posted once more, with the reference it had. *)
Definition repost p : M (world K) Z :=
  let! ok := post_knote p in
  if ok then ret 1 else knote_release p ;;; ret 1.

(** After [knote_copyout_flag_actions]: watch again, or give the reference back. *)
Definition read_rearm p (is_pipe is_synthetic eof_relevel : bool) : M (world K) Z :=
  let! kn := get_kn p in
  if has (kn_flags kn) KNFL_KNOTE_DELETED then knote_release p ;;; ret 1
  else
    let! x := get_wkn p in
    if is_pipe && rd_eof x then repost p
    else if is_pipe then
      let! ok := win_ok (WinReadFile (kn_handle x) 0 (OvPipe p)) in
      let! e := get_last_error in
      if ok || (e =? ERROR_IO_PENDING) then ret 1
      else upd_wkn p (set_rd_eof true) ;;; repost p
    else if is_synthetic || eof_relevel then repost p
    else knote_release p ;;; ret 1.

(** The part of the event that depends on the kind of descriptor. *)
Definition read_fill (dst : Z) p (kn : knote) : M (world K) read_copyout_rv :=
  if has (kn_flags kn) KNFL_FILE then evfilt_read_copyout_file dst p
  else if has (kn_flags kn) KNFL_PIPE then evfilt_read_copyout_pipe dst p
  else if has (kn_flags kn) KNFL_SOCKET_PASSIVE then evfilt_read_copyout_socket_passive dst p
  else evfilt_read_copyout_socket dst p.

Definition windows_evfilt_read_copyout (dst nevents : Z) f (src : option ptr) (ev : raw_event)
    : M (world K) Z :=
  let! p := deref NullDeref src in
  let! kn := get_kn p in
  if has (kn_flags kn) KNFL_KNOTE_DELETED then discard dst p
  else if has (flags (kev kn)) EV_DISABLE then discard dst p
  else
    store dst (kev kn) ;;;
    let! rv := read_fill dst p kn in
    match rv with
    | READ_COPYOUT_DROP => discard dst p
    | READ_COPYOUT_FILE_EOF => upd_mem dst (set_filter_ 0) ;;; ret 0
    | READ_COPYOUT_ERR => ret (-1)
    | READ_COPYOUT_OK =>
        let! x := get_wkn p in
        let! k := load dst in
        let eof_relevel := has (flags k) EV_EOF && negb (has (flags (kev kn)) EV_EDGE) in
        let! rv := knote_copyout_flag_actions f p in
        if rv <? 0 then knote_release p ;;; ret (-1)
        else read_rearm p (has (kn_flags kn) KNFL_PIPE) (rd_file_synthetic x) eof_relevel
    end.

Definition evfilt_read_knote_create_file p : M (world K) Z :=
  upd_wkn p (fun x => set_rd_file_synthetic true (set_kn_event_whandle 0 (set_kn_handle 0 x))) ;;;
  let! ok := retain_and_post p in ret (if ok then 0 else -1).

(** A handle that has a port already is taken to have this one. *)
Definition associate_pipe p (ph : Z) : M (world K) bool :=
  let! kn := get_kn p in
  let! q := deref NullDeref (kn_kq kn) in
  let! x := get_wkq q in
  let! ok := win_ok (WinAssociate ph (kq_iocp x) KQ_PIPE_READ_KEY) in
  let! e := get_last_error in
  ret (ok || (e =? ERROR_INVALID_PARAMETER)).

Definition evfilt_read_knote_create_pipe p : M (world K) Z :=
  let! kn := get_kn p in
  let! r := sys (WinGetOsfhandle (s32 (ident (kev kn)))) in
  match r with
  | None => ret (-1)
  | Some ph =>
      let! ok := associate_pipe p ph in
      if negb ok then ret (-1)
      else
        upd_wkn p (fun x => set_kn_event_whandle 0 (set_kn_handle ph x)) ;;;
        knote_retain p ;;;
        let! ok := win_ok (WinReadFile ph 0 (OvPipe p)) in
        let! e := get_last_error in
        if ok || (e =? ERROR_IO_PENDING) then ret 0
        else knote_release p ;;; ret (-1)
  end.

(** Whether the socket has something to report already, which a close latches. *)
Definition socket_pending p (evt : Z) : M (world K) bool :=
  let! kn := get_kn p in
  let passive := has (kn_flags kn) KNFL_SOCKET_PASSIVE in
  let want := if passive then FD_ACCEPT else Z.lor FD_READ FD_CLOSE in
  let! r := win (WinEnumEvents (ident (kev kn)) evt) in
  let! synth := (match r with
                 | None => ret false
                 | Some (events, close_error) =>
                     (if negb passive && has events FD_CLOSE then latch_eof p close_error else ret tt) ;;;
                     ret (has events want)
                 end) in
  if negb synth && negb passive then
    let! n := win (SysIoctl (ident (kev kn)) WIN_FIONREAD) in
    ret (match n with Some n => 0 <? n | None => false end)
  else ret synth.

Definition evfilt_read_knote_create_socket p : M (world K) Z :=
  let! r := win (WinCreateEvent None) in
  match r with
  | None => ret (-1)
  | Some evt =>
      let! kn := get_kn p in
      let! ok := win_ok (WinEventSelect (ident (kev kn)) evt (Z.lor FD_READ (Z.lor FD_ACCEPT FD_CLOSE))) in
      if negb ok then win (WinCloseHandle evt) ;;; ret (-1)
      else
        win (WinResetEvent evt) ;;;
        upd_wkn p (fun x => set_rd_last_data 0 (set_kn_handle evt x)) ;;;
        let! wh := win (WinRegisterWait evt WaitRead p false) in
        match wh with
        | None => win (WinCloseHandle evt) ;;; ret (-1)
        | Some wh =>
            upd_wkn p (set_kn_event_whandle wh) ;;;
            let! synth := socket_pending p evt in
            (if synth then retain_and_post p ;;; ret tt else ret tt) ;;;
            ret 0
        end
  end.

Definition windows_evfilt_read_knote_create f p : M (world K) Z :=
  let! rv := windows_get_descriptor_type p in
  if rv <? 0 then ret (-1)
  else
    let! kn := get_kn p in
    if has (kn_flags kn) KNFL_FILE then evfilt_read_knote_create_file p
    else if has (kn_flags kn) KNFL_PIPE then evfilt_read_knote_create_pipe p
    else evfilt_read_knote_create_socket p.

Definition evfilt_read_knote_delete_file p : M (world K) Z :=
  upd_wkn p (set_rd_file_synthetic false) ;;; ret 0.

Definition evfilt_read_knote_delete_pipe p : M (world K) Z :=
  let! x := get_wkn p in
  (if kn_handle x =? 0 then ret tt else win (WinCancelIo (kn_handle x) (OvPipe p)) ;;; ret tt) ;;;
  upd_wkn p (set_kn_handle 0) ;;; ret 0.

Definition evfilt_read_knote_delete_socket p : M (world K) Z :=
  let! x := get_wkn p in
  if (kn_handle x =? 0) || (kn_event_whandle x =? 0) then ret 0
  else
    let! ok := win_ok (WinUnregisterWait (kn_event_whandle x)) in
    if negb ok then ret (-1)
    else
      let! ok := win_ok (WinCloseEvent (kn_handle x)) in
      if negb ok then ret (-1)
      else upd_wkn p (fun x => set_kn_event_whandle 0 (set_kn_handle 0 x)) ;;; ret 0.

Definition windows_evfilt_read_knote_delete f p : M (world K) Z :=
  let! x := get_wkn p in
  if rd_file_synthetic x then evfilt_read_knote_delete_file p
  else
    let! kn := get_kn p in
    if has (kn_flags kn) KNFL_PIPE then evfilt_read_knote_delete_pipe p
    else evfilt_read_knote_delete_socket p.

(** [kn->kev.fflags = kev->fflags; kn->kev.data = kev->data;] *)
Definition refresh p (k : kevent) : M (world K) unit :=
  upd_kev p (fun e => set_data (data k) (set_fflags (fflags k) e)).

Definition windows_evfilt_read_knote_modify f p (k : kevent) : M (world K) Z :=
  let! kn := get_kn p in
  if has (kn_flags kn) KNFL_PIPE then refresh p k ;;; ret 0
  else
    let! rv := windows_evfilt_read_knote_delete f p in
    if rv <? 0 then ret (-1) else refresh p k ;;; windows_evfilt_read_knote_create f p.

Definition windows_evfilt_read_knote_enable f p : M (world K) Z := windows_evfilt_read_knote_create f p.
Definition windows_evfilt_read_knote_disable f p : M (world K) Z := windows_evfilt_read_knote_delete f p.

Definition windows_evfilt_read : filter_src K :=
  FilterSrc EVFILT_READ (FilterOps None None windows_evfilt_read_copyout
    windows_evfilt_read_knote_create windows_evfilt_read_knote_modify windows_evfilt_read_knote_delete
    windows_evfilt_read_knote_enable windows_evfilt_read_knote_disable).

(** ** write.c *)

Definition evfilt_write_callback p (fired : bool) : M (world K) unit :=
  if fired then ret tt
  else
    let! kn := get_kn p in
    let! q := deref AssertFail (kn_kq kn) in
    let! x := get_wkn p in
    let! r := win (WinEnumEvents (ident (kev kn)) (kn_handle x)) in
    match r with
    | None => ret tt
    | Some _ => retain_and_post p ;;; ret tt
    end.

(** The reader of a pipe is probed for with a write of 0 bytes. *)
Definition probe_reader p : M (world K) unit :=
  let! x := get_wkn p in
  if wr_pipe_eof x || (kn_handle x =? 0) then ret tt
  else
    let! ok := win_ok (WinWriteFile (kn_handle x)) in
    let! e := get_last_error in
    if negb ok && ((e =? ERROR_BROKEN_PIPE) || (e =? ERROR_NO_DATA) || (e =? ERROR_PIPE_NOT_CONNECTED))
    then upd_wkn p (set_wr_pipe_eof true) else ret tt.

Definition write_fill_pipe (dst : Z) p : M (world K) unit :=
  probe_reader p ;;;
  let! x := get_wkn p in
  (if wr_pipe_eof x then upd_mem dst (map_flags (fun x => setb x EV_EOF)) else ret tt) ;;;
  let! n := (if kn_handle x =? 0 then ret None else win (WinPipeInfo (kn_handle x))) in
  upd_mem dst (set_data (default 0 n)).

Definition write_fill (dst : Z) p (kn : knote) : M (world K) unit :=
  if has (kn_flags kn) KNFL_PIPE then write_fill_pipe dst p
  else if has (kn_flags kn) KNFL_FILE then upd_mem dst (set_data 0)
  else
    let! n := win (SysGetsockopt (ident (kev kn)) WIN_SO_SNDBUF) in
    upd_mem dst (set_data (default 0 n)).

Definition windows_evfilt_write_copyout (dst nevents : Z) f (src : option ptr) (ev : raw_event)
    : M (world K) Z :=
  let! p := deref NullDeref src in
  let! kn := get_kn p in
  if has (kn_flags kn) KNFL_KNOTE_DELETED then discard dst p
  else if has (flags (kev kn)) EV_DISABLE then discard dst p
  else
    store dst (kev kn) ;;;
    write_fill dst p kn ;;;
    let! x := get_wkn p in
    let! rv := knote_copyout_flag_actions f p in
    if rv <? 0 then knote_release p ;;; ret (-1)
    else
      let! kn := get_kn p in
      if negb (wr_file_synthetic x) || has (kn_flags kn) KNFL_KNOTE_DELETED then knote_release p ;;; ret 1
      else repost p.

(** A file or a pipe: always writable. *)
Definition write_create_synthetic p : M (world K) Z :=
  let! kn := get_kn p in
  let! h := (if has (kn_flags kn) KNFL_PIPE then
               let! r := sys (WinGetOsfhandle (s32 (ident (kev kn)))) in ret (default (-1) r)
             else ret 0) in
  upd_wkn p (fun x => set_wr_pipe_eof false (set_wr_file_synthetic true (set_kn_event_whandle 0 (set_kn_handle h x)))) ;;;
  let! ok := retain_and_post p in ret (if ok then 0 else -1).

Definition write_create_socket p : M (world K) Z :=
  let! r := win (WinCreateEvent None) in
  match r with
  | None => ret (-1)
  | Some evt =>
      let! kn := get_kn p in
      let! ok := win_ok (WinEventSelect (ident (kev kn)) evt (Z.lor FD_WRITE (Z.lor FD_CONNECT FD_CLOSE))) in
      if negb ok then win (WinCloseHandle evt) ;;; ret (-1)
      else
        win (WinEnumEvents (ident (kev kn)) evt) ;;;
        win (WinResetEvent evt) ;;;
        upd_wkn p (set_kn_handle evt) ;;;
        let! wh := win (WinRegisterWait evt WaitWrite p false) in
        match wh with
        | None => win (WinCloseHandle evt) ;;; upd_wkn p (set_kn_handle 0) ;;; ret (-1)
        | Some wh =>
            upd_wkn p (set_kn_event_whandle wh) ;;;
            let! n := win (WinSelectWrite (ident (kev kn))) in
            (if match n with Some n => 0 <? n | None => false end then retain_and_post p ;;; ret tt else ret tt) ;;;
            ret 0
        end
  end.

Definition windows_evfilt_write_knote_create f p : M (world K) Z :=
  let! rv := windows_get_descriptor_type p in
  if rv <? 0 then ret (-1)
  else
    let! kn := get_kn p in
    if has (kn_flags kn) (Z.lor KNFL_FILE KNFL_PIPE) then write_create_synthetic p else write_create_socket p.

Definition windows_evfilt_write_knote_delete f p : M (world K) Z := evfilt_read_knote_delete_socket p.

Definition windows_evfilt_write_knote_modify f p (k : kevent) : M (world K) Z :=
  let! rv := windows_evfilt_write_knote_delete f p in
  if rv <? 0 then ret (-1) else refresh p k ;;; windows_evfilt_write_knote_create f p.

Definition windows_evfilt_write_knote_enable f p : M (world K) Z := windows_evfilt_write_knote_create f p.
Definition windows_evfilt_write_knote_disable f p : M (world K) Z := windows_evfilt_write_knote_delete f p.

Definition windows_evfilt_write : filter_src K :=
  FilterSrc EVFILT_WRITE (FilterOps None None windows_evfilt_write_copyout
    windows_evfilt_write_knote_create windows_evfilt_write_knote_modify windows_evfilt_write_knote_delete
    windows_evfilt_write_knote_enable windows_evfilt_write_knote_disable).
End ReadWrite.
