(* ===== verification/WinVnode.v ===== *)
(** * EVFILT_VNODE on Windows: src/windows/vnode.c

    The directory of the file is watched; on a change the file is looked at again and
    compared with what was seen last, which [struct vnode_state] keeps. *)

From Stdlib Require Import ZArith Lia Bool.
From stdpp Require Import base list gmap.
From S2P Require Import Prelude RBTree Event Map State Ops Knote Filter Kqueue WinPlatform WinUser WinReadWrite.

Definition INVALID_HANDLE_VALUE : Z := -1.
Definition FILE_NOTIFY_CHANGE_FILE_NAME : Z := 0x001.
Definition FILE_NOTIFY_CHANGE_DIR_NAME : Z := 0x002.
Definition FILE_NOTIFY_CHANGE_ATTRIBUTES : Z := 0x004.
Definition FILE_NOTIFY_CHANGE_SIZE : Z := 0x008.
Definition FILE_NOTIFY_CHANGE_LAST_WRITE : Z := 0x010.
Definition FILE_NOTIFY_CHANGE_SECURITY : Z := 0x100.

(** [wcsrchr]: the part of a string before the last [c]. *)
Fixpoint before_last (c : Z) (s : wstring) : option wstring :=
  match s with
  | [] => None
  | x :: s' =>
      match before_last c s' with
      | Some t => Some (x :: t)
      | None => if x =? c then Some [] else None
      end
  end.

(** The directory of a path, with a backslash or a slash. *)
Definition parent_of (path : wstring) : option wstring :=
  match before_last 92 path with Some d => Some d | None => before_last 47 path end.

(** What a change of the file from [old] to [new] reports to a knote that wants [want]. *)
Definition vnode_changes (want : Z) (old new : file_info) : Z :=
  let size :=
    if fi_size new =? fi_size old then 0
    else
      Z.lor (if has want NOTE_WRITE then NOTE_WRITE else 0)
        (Z.lor (if (fi_size old <? fi_size new) && has want (Z.lor NOTE_WRITE NOTE_EXTEND) then NOTE_EXTEND else 0)
               (if (fi_size new <? fi_size old) && has want NOTE_TRUNCATE then NOTE_TRUNCATE else 0)) in
  let attrib :=
    if has want NOTE_ATTRIB && (negb (fi_attrs new =? fi_attrs old) || negb (fi_mtime new =? fi_mtime old))
    then NOTE_ATTRIB else 0 in
  let link := if negb (fi_nlink new =? fi_nlink old) && has want NOTE_LINK then NOTE_LINK else 0 in
  Z.lor size (Z.lor attrib link).

(** The changes of the directory to watch for. *)
Definition notify_mask (want : Z) : Z :=
  let m := Z.lor
    (if has want (Z.lor NOTE_WRITE NOTE_EXTEND)
     then Z.lor FILE_NOTIFY_CHANGE_SIZE FILE_NOTIFY_CHANGE_LAST_WRITE else 0)
    (Z.lor
      (if has want (Z.lor NOTE_DELETE (Z.lor NOTE_RENAME NOTE_LINK))
       then Z.lor FILE_NOTIFY_CHANGE_FILE_NAME FILE_NOTIFY_CHANGE_DIR_NAME else 0)
      (if has want NOTE_ATTRIB
       then Z.lor FILE_NOTIFY_CHANGE_ATTRIBUTES (Z.lor FILE_NOTIFY_CHANGE_SECURITY FILE_NOTIFY_CHANGE_LAST_WRITE)
       else 0)) in
  if m =? 0 then FILE_NOTIFY_CHANGE_LAST_WRITE else m.

Section Vnode.
Context {K : Type} `{OS K} `{FilterList K}.
Implicit Types (w : world K) (p q v : ptr) (f : filt_ref).

Definition get_vs v : M (world K) vnode_state :=
  let! o := gets (fun w => wn_vnodes (w_wn w) !! v) in deref UseAfterFree o.
Definition put_vs v (s : vnode_state) : M (world K) unit :=
  upd_wn (fun x => set_wn_vnodes (<[v := s]> (wn_vnodes x)) x).
Definition upd_vs v (g : vnode_state -> vnode_state) : M (world K) unit :=
  let! s := get_vs v in put_vs v (g s).
Definition free_vs v : M (world K) unit :=
  get_vs v ;;; upd_wn (fun x => set_wn_vnodes (delete v (wn_vnodes x)) x).

Definition vnode_query (fh : Z) : M (world K) (option file_info) := win (WinFileInfo fh).

Definition vnode_path_from_fd (fd : Z) : M (world K) (option wstring) :=
  let! h := sys (WinGetOsfhandle fd) in
  match h with
  | None => ret None
  | Some fh =>
      let! len := win (WinPathLen fh) in
      if default 0 len =? 0 then ret None
      else
        let! buf := sys SysAlloc in
        match buf with
        | None => ret None
        | Some _ =>
            let! r := win (WinPath fh (default 0 len + 1)) in
            ret (match r with
                 | None => None
                 | Some (got, s) => if (got =? 0) || (default 0 len <? got) then None else Some s
                 end)
        end
  end.

Definition vnode_parent_dir (path : wstring) : M (world K) (option wstring) :=
  let! copy := sys SysAlloc in
  ret (match copy with Some _ => parent_of path | None => None end).

Definition evfilt_vnode_callback p (fired : bool) : M (world K) unit :=
  let! kn := get_kn p in
  if has (kn_flags kn) KNFL_KNOTE_DELETED then ret tt
  else
    let! x := get_wkn p in
    match kn_vs x with
    | None => ret tt
    | Some v =>
        let! s := get_vs v in
        (if vs_dir_handle s =? INVALID_HANDLE_VALUE then ret tt else win (WinFindNext (vs_dir_handle s)) ;;; ret tt) ;;;
        let! q := deref AssertFail (kn_kq kn) in
        retain_and_post p ;;; ret tt
    end.

(** The file as it is now, or [None] when it is gone or about to be. *)
Definition vnode_look (fd : Z) : M (world K) (option file_info) :=
  let! h := sys (WinGetOsfhandle fd) in
  match h with
  | None => ret None
  | Some fh =>
      let! i := vnode_query fh in
      match i with
      | None => ret None
      | Some i =>
          let! d := win (WinDeletePending fh) in
          ret (if default false d then None else Some i)
      end
  end.

(** [NOTE_RENAME]: the path is not the one seen last. *)
Definition vnode_renamed (fd : Z) v : M (world K) bool :=
  let! cur := vnode_path_from_fd fd in
  let! s := get_vs v in
  match cur, vs_full_path s with
  | Some c, Some old =>
      if bool_decide (c = old) then ret false
      else upd_vs v (set_vs_full_path (Some c)) ;;; ret true
  | _, _ => ret false
  end.

Definition vnode_compare (dst fd : Z) v (want : Z) (i : file_info) : M (world K) unit :=
  let! s := get_vs v in
  upd_mem dst (map_fflags (fun x => setb x (vnode_changes want (vs_info s) i))) ;;;
  (if has want NOTE_RENAME then
     let! moved := vnode_renamed fd v in
     if moved then upd_mem dst (map_fflags (fun x => setb x NOTE_RENAME)) else ret tt
   else ret tt) ;;;
  upd_vs v (set_vs_info i).

Definition windows_evfilt_vnode_copyout (dst nevents : Z) f (src : option ptr) (ev : raw_event)
    : M (world K) Z :=
  let! p := deref NullDeref src in
  let! kn := get_kn p in
  if has (kn_flags kn) KNFL_KNOTE_DELETED then discard dst p
  else if has (flags (kev kn)) EV_DISABLE then discard dst p
  else
    let! x := get_wkn p in
    store dst (set_data 0 (set_fflags 0 (kev kn))) ;;;
    let fd := s32 (ident (kev kn)) in
    let want := fflags (kev kn) in
    let! now := vnode_look fd in
    (match now, kn_vs x with
     | None, _ => if has want NOTE_DELETE then upd_mem dst (map_fflags (fun x => setb x NOTE_DELETE)) else ret tt
     | Some i, Some v => vnode_compare dst fd v want i
     | Some _, None => ret tt
     end) ;;;
    let! k := load dst in
    if fflags k =? 0 then discard dst p else act_and_release f p.

(** The label [err:]. *)
Definition vnode_err v : M (world K) Z := free_vs v ;;; ret (-1).

Definition vnode_watch p v (parent : wstring) : M (world K) Z :=
  let! kn := get_kn p in
  let! dh := win (WinFindFirst parent (notify_mask (fflags (kev kn)))) in
  match dh with
  | None => vnode_err v
  | Some dh =>
      upd_vs v (set_vs_dir_handle dh) ;;;
      upd_wkn p (set_kn_vs (Some v)) ;;;
      let! wh := win (WinRegisterWait dh WaitVnode p false) in
      match wh with
      | None =>
          win (WinFindClose dh) ;;;
          upd_vs v (set_vs_dir_handle INVALID_HANDLE_VALUE) ;;;
          upd_wkn p (set_kn_vs None) ;;; vnode_err v
      | Some wh => upd_wkn p (set_kn_event_whandle wh) ;;; ret 0
      end
  end.

Definition windows_evfilt_vnode_knote_create f p : M (world K) Z :=
  let! kn := get_kn p in
  let fd := s32 (ident (kev kn)) in
  let! h := sys (WinGetOsfhandle fd) in
  match h with
  | None => set_errno EBADF ;;; ret (-1)
  | Some fh =>
      let! t := win (WinFileType fh) in
      if negb (bool_decide (t = Some FILE_TYPE_DISK)) then set_errno EINVAL ;;; ret (-1)
      else
        let! r := alloc in
        match r with
        | None => ret (-1)
        | Some v =>
            put_vs v (VnodeState INVALID_HANDLE_VALUE None (FileInfo 0 0 0 0)) ;;;
            let! i := vnode_query fh in
            match i with
            | None => vnode_err v
            | Some i =>
                upd_vs v (set_vs_info i) ;;;
                let! path := vnode_path_from_fd fd in
                match path with
                | None => vnode_err v
                | Some path =>
                    upd_vs v (set_vs_full_path (Some path)) ;;;
                    let! parent := vnode_parent_dir path in
                    match parent with
                    | None => vnode_err v
                    | Some parent => vnode_watch p v parent
                    end
                end
            end
        end
  end.

Definition windows_evfilt_vnode_knote_delete f p : M (world K) Z :=
  let! x := get_wkn p in
  match kn_vs x with
  | None => ret 0
  | Some v =>
      (if kn_event_whandle x =? 0 then ret tt
       else win (WinUnregisterWait (kn_event_whandle x)) ;;; upd_wkn p (set_kn_event_whandle 0)) ;;;
      let! s := get_vs v in
      (if vs_dir_handle s =? INVALID_HANDLE_VALUE then ret tt
       else win (WinFindClose (vs_dir_handle s)) ;;; upd_vs v (set_vs_dir_handle INVALID_HANDLE_VALUE)) ;;;
      free_vs v ;;;
      upd_wkn p (set_kn_vs None) ;;; ret 0
  end.

Definition windows_evfilt_vnode_knote_modify f p (k : kevent) : M (world K) Z :=
  let! rv := windows_evfilt_vnode_knote_delete f p in
  if rv <? 0 then ret (-1) else refresh p k ;;; windows_evfilt_vnode_knote_create f p.

Definition windows_evfilt_vnode_knote_enable f p : M (world K) Z := windows_evfilt_vnode_knote_create f p.
Definition windows_evfilt_vnode_knote_disable f p : M (world K) Z := windows_evfilt_vnode_knote_delete f p.

Definition windows_evfilt_vnode : filter_src K :=
  FilterSrc EVFILT_VNODE (FilterOps None None windows_evfilt_vnode_copyout
    windows_evfilt_vnode_knote_create windows_evfilt_vnode_knote_modify windows_evfilt_vnode_knote_delete
    windows_evfilt_vnode_knote_enable windows_evfilt_vnode_knote_disable).
End Vnode.
