(* ===== verification/WinKernel.v ===== *)
(** * References held by completions

    What the Windows backend relies on of completion ports ([IocpKernel]), and the
    invariant [iocp_ok]: every completion that is queued or will be queued belongs to a
    live knote of the kqueue of that port, and the reference count of a knote covers its
    completions, its registration and the wait of a periodic timer. *)

From Stdlib Require Import ZArith Lia Bool.
From stdpp Require Import base list gmap.
From S2P Require Import Prelude RBTree Event Map State Ops Knote Filter Kqueue WinPlatform.

(** ** What is relied on of the kernel *)

(** The calls about which more is said below, or which change the table of descriptors. *)
Definition iocp_quiet {A : Type} (c : syscall A) : bool :=
  match c with
  | WinPost _ _ _ _ | WinGetQueued _ _ | WinReadFile _ _ _ | WinAssociate _ _ _
  | WinOpenOsfhandle _ | SysClose _ => false
  | _ => true
  end.

(** A read that succeeds, or is under way. *)
Definition started (r : sysres unit) : bool :=
  match r with SOk _ => true | SErr e => e =? ERROR_IO_PENDING end.

(** [ik_pending] are the completions, with their port, that are queued or come from a
    read under way; [ik_assoc] the port and key a handle was associated with; [ik_handle]
    the handle of a descriptor.  A post queues its completion; a read that starts will
    complete at the port of its handle; a completion is dequeued once; no other call
    makes one.  The NULL handle and a new event have no port. *)
Class IocpKernel (K : Type) `{OS K} :=
  { ik_pending : K -> list (Z * event_buf);
    ik_assoc : K -> Z -> option (Z * Z);
    ik_handle : K -> Z -> Z;
    ik_quiet : forall (A : Type) (c : syscall A) k r k', iocp_quiet c = true -> os_call c k = (r, k') ->
      (exists l, ik_pending k ≡ₚ l ++ ik_pending k') /\
      (forall h, ik_assoc k' h = ik_assoc k h \/ ik_assoc k' h = None) /\
      (forall fd, ik_handle k' fd = ik_handle k fd);
    ik_post : forall port bytes key ov k r k', os_call (WinPost port bytes key ov) k = (r, k') ->
      ik_pending k' ≡ₚ (match r with SOk _ => [(port, EventBuf bytes key ov)] | SErr _ => [] end)
        ++ ik_pending k /\ ik_assoc k' = ik_assoc k /\ ik_handle k' = ik_handle k;
    ik_get : forall port ms k r k', os_call (WinGetQueued port ms) k = (r, k') ->
      ik_pending k ≡ₚ (match r with SOk (b, _) => [(port, b)] | SErr _ => [] end) ++ ik_pending k' /\
      ik_assoc k' = ik_assoc k /\ ik_handle k' = ik_handle k;
    ik_read : forall h n ov k r k', os_call (WinReadFile h n ov) k = (r, k') ->
      (exists l, ik_pending k' ≡ₚ l ++ ik_pending k /\
         (l = [] \/ started r = true /\ exists port bytes key,
            ik_assoc k h = Some (port, key) /\ l = [(port, EventBuf bytes key ov)])) /\
      ik_assoc k' = ik_assoc k /\ ik_handle k' = ik_handle k;
    ik_associate : forall h port key k r k', os_call (WinAssociate h port key) k = (r, k') ->
      ik_pending k' = ik_pending k /\ ik_handle k' = ik_handle k /\
      forall h', ik_assoc k' h' =
        match r with SOk _ => if decide (h' = h) then Some (port, key) else ik_assoc k h' | SErr _ => ik_assoc k h' end;
    ik_osf : forall fd k h k', os_call (WinGetOsfhandle fd) k = (SOk h, k') -> h = ik_handle k fd;
    ik_event : forall name k h k', os_call (WinCreateEvent name) k = (SOk h, k') -> ik_assoc k' h = None;
    ik_null : forall k, ik_assoc k 0 = None }.

(** ** Counting *)

(** The completion [e] belongs to the knote [p]. *)
Definition of_knote (p : ptr) (e : Z * event_buf) : bool :=
  match io_overlap e.2 with OvKnote r | OvPipe r => bool_decide (r = p) | _ => false end.

Fixpoint tokens (p : ptr) (l : list (Z * event_buf)) : Z :=
  match l with [] => 0 | e :: l => Z.b2z (of_knote p e) + tokens p l end.

Lemma tokens_nonneg p l : 0 <= tokens p l.
Proof. induction l as [|e l IH]; simpl; [lia|]. destruct (of_knote p e); simpl; lia. Qed.
Lemma tokens_app p l1 l2 : tokens p (l1 ++ l2) = tokens p l1 + tokens p l2.
Proof. induction l1 as [|e l IH]; simpl; [lia|]. rewrite IH. lia. Qed.
#[export] Instance tokens_perm p : Proper ((≡ₚ) ==> (=)) (tokens p).
Proof. induction 1; simpl; lia. Qed.
Lemma tokens_in p e l : e ∈ l -> of_knote p e = true -> 0 < tokens p l.
Proof.
  intros (l1 & l2 & ->)%list_elem_of_split He. rewrite tokens_app. simpl. rewrite He. simpl.
  pose proof (tokens_nonneg p l1). pose proof (tokens_nonneg p l2). lia.
Qed.
(** The periodic timer of a knote holds a reference while its wait is registered. *)
Definition timer_holds (kn : knote) (x : win_knote) : bool :=
  (filter_ (kev kn) =? EVFILT_TIMER) && negb (has (flags (kev kn)) EV_ONESHOT) &&
  negb (kn_handle x =? 0) && negb (kn_event_whandle x =? 0).

Definition share (kn : knote) (x : win_knote) : Z :=
  Z.b2z (negb (has (kn_flags kn) KNFL_KNOTE_DELETED)) + Z.b2z (timer_holds kn x).

Lemma share_nonneg kn x : 0 <= share kn x.
Proof. unfold share. destruct (negb _), (timer_holds kn x); simpl; lia. Qed.

(** ** The invariant *)

Section Inv.
Context {K : Type} `{IocpKernel K}.
Implicit Types (w : world K) (p q r : ptr) (kn : knote) (b : event_buf).

Definition tok w p : Z := tokens p (ik_pending (w_os w)).
Definition port_of w q : Z := kq_iocp (wkq w q).

(** A handle that has no port, or the one of [q] for reading a pipe. *)
Definition own_handle w q (h : Z) : Prop :=
  forall port key, ik_assoc (w_os w) h = Some (port, key) ->
    key = KQ_CLOSE_DETECT_KEY \/ key = KQ_PIPE_READ_KEY /\ port = port_of w q.

(** The knote of a completion is live and of the kqueue with that port. *)
Definition owner_ok w (port : Z) p (P : Z -> Prop) : Prop :=
  exists kn q, w_knotes w !! p = Some kn /\ kn_kq kn = Some q /\ port_of w q = port /\
    - EVFILT_SYSCOUNT <= filter_ (kev kn) < 0 /\ P (filter_ (kev kn)).

Definition pend_ok w (port : Z) b : Prop :=
  io_key b = KQ_CLOSE_DETECT_KEY \/
  match io_overlap b with
  | OvNull => io_key b = 0
  | OvClose _ => False
  | OvKnote p => owner_ok w port p (fun f => io_key b = KQ_FILTER_KEY f)
  | OvPipe p => owner_ok w port p (fun f => f = EVFILT_READ /\ io_key b = KQ_PIPE_READ_KEY)
  end.

(** The running code holds [n] references to the knote [o] itself. *)
Record iocp_ok (o : ptr) (n : Z) w : Prop :=
  { io_refs : forall p kn, w_knotes w !! p = Some kn ->
      (if decide (p = o) then n else 0) + tok w p + share kn (wkn w p) <= kn_ref kn;
    io_pend : forall port b, (port, b) ∈ ik_pending (w_os w) -> pend_ok w port b;
    io_ports : forall q r, port_of w q = port_of w r -> port_of w q <> 0 -> q = r;
    io_reads : forall p kn q, w_knotes w !! p = Some kn -> kn_kq kn = Some q ->
      filter_ (kev kn) = EVFILT_READ -> own_handle w q (kn_handle (wkn w p));
    io_vs : forall p kn v, w_knotes w !! p = Some kn -> kn_vs (wkn w p) = Some v ->
      is_Some (wn_vnodes (w_wn w) !! v) /\ (v < w_next w)%positive /\
      forall r kr, w_knotes w !! r = Some kr -> kn_vs (wkn w r) = Some v -> r = p }.

(** ** What a callback on the knote [p] may change, with at most [m] completions posted *)

Definition kn_id kn : Z * Z * option ptr * bool :=
  (ident (kev kn), filter_ (kev kn), kn_kq kn, has (kn_flags kn) KNFL_KNOTE_DELETED).

Record wframe (m : Z) p w w' : Prop :=
  { wf_kn : kn_id <$> w_knotes w' !! p = kn_id <$> w_knotes w !! p;
    wf_others : forall r, r <> p -> w_knotes w' !! r = w_knotes w !! r;
    wf_kqs : w_kqs w' = w_kqs w;
    wf_next : (w_next w <= w_next w')%positive;
    wf_mem : w_mem w' = w_mem w;
    wf_mtx : w_mtx w' = w_mtx w;
    wf_kqmap : w_kqmap w' = w_kqmap w;
    wf_kq_list : w_kq_list w' = w_kq_list w;
    wf_wkqs : wn_kqs (w_wn w') = wn_kqs (w_wn w);
    wf_timeout : iocp_wait_timeout_ms (w_wn w') = iocp_wait_timeout_ms (w_wn w);
    wf_wkn : forall r, r <> p -> wkn w' r = wkn w r;
    wf_handle : forall fd, ik_handle (w_os w') fd = ik_handle (w_os w) fd;
    wf_own : forall kn q h, w_knotes w !! p = Some kn -> kn_kq kn = Some q -> own_handle w q h -> own_handle w' q h;
    wf_len : Z.of_nat (length (ik_pending (w_os w'))) <= Z.of_nat (length (ik_pending (w_os w))) + m;
    wf_tok : forall r, tok w' r <= tok w r + Z.b2z (bool_decide (r = p)) * m }.

Lemma wframe_refl p w : wframe 0 p w w.
Proof. split; done || lia || (intros; lia). Qed.

Lemma wframe_trans m n p w1 w2 w3 : wframe m p w1 w2 -> wframe n p w2 w3 -> wframe (m + n) p w1 w3.
Proof.
  intros [A1 B1 C1 D1 E1 F1 G1 I1 J1 L1 M1 N1 O1 P1 Q1] [A2 B2 C2 D2 E2 F2 G2 I2 J2 L2 M2 N2 O2 P2 Q2].
  split; try congruence; try lia.
  - intros r Hr. by rewrite B2, B1.
  - intros r Hr. by rewrite M2, M1.
  - intros kn q h E Hq Ho. rewrite E in A1. destruct (w_knotes w2 !! p) as [kn2|] eqn:E'; [|done].
    simpl in A1. unfold kn_id in A1. simplify_eq. apply (O2 kn2); [done|congruence|by eapply O1].
  - intros r. specialize (Q1 r). specialize (Q2 r). lia.
Qed.

Lemma wframe_more m n p w w' : wframe m p w w' -> m <= n -> wframe n p w w'.
Proof.
  intros [A1 B1 C1 D1 E1 F1 G1 I1 J1 L1 M1 N1 O1 P1 Q1] Hmn. split; try done; try lia.
  intros r. specialize (Q1 r). destruct (bool_decide _); simpl in *; lia.
Qed.

Lemma wframe_port m p w w' q : wframe m p w w' -> port_of w' q = port_of w q.
Proof. intros Hf. unfold port_of, wkq. by rewrite (wf_wkqs _ _ _ _ Hf). Qed.

Lemma owner_ok_mono w w' port p (P : Z -> Prop) :
  (kn_id <$> w_knotes w' !! p = kn_id <$> w_knotes w !! p) -> (forall q, port_of w' q = port_of w q) ->
  owner_ok w port p P -> owner_ok w' port p P.
Proof.
  intros Hk Hp (kn & q & E & Hq & Hport & Hr & HP). rewrite E in Hk.
  destruct (w_knotes w' !! p) as [kn'|] eqn:E'; [|done]. simpl in Hk. unfold kn_id in Hk. simplify_eq.
  exists kn', q. rewrite Hp. split_and!; try congruence; try lia.
Qed.

Lemma pend_ok_mono w w' port b :
  (forall p, kn_id <$> w_knotes w' !! p = kn_id <$> w_knotes w !! p) -> (forall q, port_of w' q = port_of w q) ->
  pend_ok w port b -> pend_ok w' port b.
Proof.
  intros Hk Hp [?|Hb]; [by left|right]. destruct (io_overlap b); try done; (eapply owner_ok_mono; [apply Hk|apply Hp|exact Hb]).
Qed.

Lemma wframe_ids m p w w' : wframe m p w w' ->
  forall r, kn_id <$> w_knotes w' !! r = kn_id <$> w_knotes w !! r.
Proof.
  intros Hf r. destruct (decide (r = p)) as [->|Hr]; [apply Hf|]. by rewrite (wf_others _ _ _ _ Hf).
Qed.

(** Common code's invariant follows from the frame and the references. *)
Lemma winv_wframe m n o p w w' : wframe m p w w' -> iocp_ok o n w' -> 0 <= n -> winv w -> winv w'.
Proof.
  intros Hf Hio Hge [Hk Hn Hq]. pose proof (wframe_ids _ _ _ _ Hf) as Hid. split.
  - intros q kq E. rewrite (wf_kqs _ _ _ _ Hf) in E. destruct (Hk _ _ E) as [H1 H2 H3]. split; try done.
    intros i f Hi. destruct (H2 _ _ Hi) as [S1 S2 S3 S4]. split; try done.
    rewrite Forall_forall in S2 |- *. intros e He. destruct (S2 e He) as (kn & Ek & Hi1 & Hf1 & Hq1 & Hd1 & Hr1).
    specialize (Hid (e_ptr e)). rewrite Ek in Hid. destruct (w_knotes w' !! e_ptr e) as [kn'|] eqn:E'; [|done].
    simpl in Hid. unfold kn_id in Hid. simplify_eq. exists kn'. split_and!; try congruence.
    pose proof (io_refs _ _ _ Hio _ _ E') as Hr. unfold share in Hr.
    replace (has (kn_flags kn') KNFL_KNOTE_DELETED) with false in Hr by congruence. simpl in Hr.
    pose proof (tokens_nonneg (e_ptr e) (ik_pending (w_os w'))).
    unfold tok in Hr. case_decide; destruct (timer_holds kn' _); simpl in *; lia.
  - intros r Hr. specialize (Hid r). pose proof (wf_next _ _ _ _ Hf). rewrite (Hn r) in Hid by lia.
    by destruct (w_knotes w' !! r).
  - intros r Hr. rewrite (wf_kqs _ _ _ _ Hf). apply Hq. pose proof (wf_next _ _ _ _ Hf). lia.
Qed.
End Inv.
