(* ===== verification/WinRules.v ===== *)
(** * Rules for the callbacks of the Windows filters

    How each kind of step keeps [iocp_ok], and the state [wst] a callback goes through,
    with a rule per primitive and a tactic that applies them. *)

From Stdlib Require Import ZArith Lia Bool.
From stdpp Require Import base list gmap.
From S2P Require Import Prelude RBTree Event Map State Ops Knote Filter Kqueue WinPlatform WinKernel WinUser.

(** ** Steps that keep the invariant *)

Section Keep.
Context {K : Type} `{IocpKernel K}.
Implicit Types (w : world K) (p q r v : ptr) (kn : knote) (x : win_knote).

(** No completion was made; a handle may have lost its port. *)
Definition os_le (k k' : K) : Prop :=
  (exists l, ik_pending k ≡ₚ l ++ ik_pending k') /\
  (forall h, ik_assoc k' h = ik_assoc k h \/ ik_assoc k' h = None) /\
  (forall fd, ik_handle k' fd = ik_handle k fd).

Lemma os_le_refl k : os_le k k.
Proof. split_and!; [by exists []|by left|done]. Qed.

Lemma os_le_trans k1 k2 k3 : os_le k1 k2 -> os_le k2 k3 -> os_le k1 k3.
Proof.
  intros ((l1 & H1) & A1 & B1) ((l2 & H2) & A2 & B2). split_and!.
  - exists (l1 ++ l2). by rewrite H1, H2, app_assoc.
  - intros h. destruct (A2 h) as [->|]; [apply A1|by right].
  - intros fd. by rewrite B2.
Qed.

Lemma os_le_tok w w' p : os_le (w_os w) (w_os w') -> tok w' p <= tok w p.
Proof. intros [[l Hl] _]. unfold tok. rewrite Hl, tokens_app. pose proof (tokens_nonneg p l). lia. Qed.

Lemma os_le_in k k' e : os_le k k' -> e ∈ ik_pending k' -> e ∈ ik_pending k.
Proof. intros [[l Hl] _] He. rewrite Hl. set_solver. Qed.

Lemma own_handle_le w w' q h :
  os_le (w_os w) (w_os w') -> port_of w' q = port_of w q -> own_handle w q h -> own_handle w' q h.
Proof.
  intros (_ & Ha & _) Hp Hh port key E. destruct (Ha h) as [E'|E']; [|congruence].
  rewrite E' in E. rewrite Hp. by apply Hh.
Qed.

(** The heap of knotes and the members of this backend are the same. *)
Definition same_data w w' : Prop :=
  w_knotes w' = w_knotes w /\ wn_knotes (w_wn w') = wn_knotes (w_wn w) /\
  wn_kqs (w_wn w') = wn_kqs (w_wn w) /\ wn_vnodes (w_wn w') = wn_vnodes (w_wn w) /\
  (w_next w <= w_next w')%positive.

Lemma same_wkn w w' p : same_data w w' -> wkn w' p = wkn w p.
Proof. intros (_ & E & _). unfold wkn. by rewrite E. Qed.
Lemma same_port w w' q : same_data w w' -> port_of w' q = port_of w q.
Proof. intros (_ & _ & E & _). unfold port_of, wkq. by rewrite E. Qed.

Lemma io_os o n w w' : iocp_ok o n w -> same_data w w' -> os_le (w_os w) (w_os w') -> iocp_ok o n w'.
Proof.
  intros [A B C D E] Hs Ho. pose proof (fun p => same_wkn _ _ p Hs) as Hx.
  pose proof (fun q => same_port _ _ q Hs) as Hp. destruct Hs as (Hk & _ & _ & Hv & Hn). split.
  - intros p kn Ep. rewrite Hk in Ep. rewrite Hx. pose proof (os_le_tok _ _ p Ho). specialize (A p kn Ep). lia.
  - intros port b Hb. eapply pend_ok_mono; [| |by eapply B, os_le_in]; [|done]. intros p. by rewrite Hk.
  - intros q r. rewrite !Hp. apply C.
  - intros p kn q Ep Hq Hf. rewrite Hk in Ep. rewrite Hx. eapply own_handle_le; eauto.
  - intros p kn v Ep Ev. rewrite Hk in Ep. rewrite Hx in Ev. rewrite Hv. destruct (E p kn v Ep Ev) as (F & G & I).
    split_and!; [done|lia|]. intros r kr. rewrite Hk, Hx. apply I.
Qed.

(** The references that are held change together with the count. *)
Lemma io_put p n n' w kn kn' :
  iocp_ok p n w -> w_knotes w !! p = Some kn -> filter_ (kev kn') = filter_ (kev kn) -> kn_kq kn' = kn_kq kn ->
  n' + share kn' (wkn w p) - kn_ref kn' <= n + share kn (wkn w p) - kn_ref kn ->
  iocp_ok p n' (set_w_knotes (<[p := kn']> (w_knotes w)) w).
Proof.
  intros [A B C D E] Ep Hf Hq Hle.
  assert (Hown : forall port r P, owner_ok w port r P -> owner_ok (set_w_knotes (<[p := kn']> (w_knotes w)) w) port r P).
  { intros port r P (kr & q & Er & Hrest). destruct (decide (r = p)) as [->|Hr].
    - exists kn', q. simpl. rewrite lookup_insert_eq. assert (kr = kn) as -> by congruence. rewrite Hf, Hq. done.
    - exists kr, q. simpl. by rewrite lookup_insert_ne. }
  split; simpl.
  - intros r kr Er. change (tok _ r) with (tok w r). change (wkn _ r) with (wkn w r). destruct (decide (r = p)) as [->|Hr].
    + rewrite lookup_insert_eq in Er. injection Er as <-. specialize (A p kn Ep). rewrite decide_True in A by done. lia.
    + rewrite lookup_insert_ne in Er by done. specialize (A r kr Er). by rewrite decide_False in A.
  - intros port b Hin. destruct (B port b Hin) as [?|Hb]; [by left|right]. destruct (io_overlap b); eauto.
  - done.
  - intros r kr q Er. destruct (decide (r = p)) as [->|Hr]; [rewrite lookup_insert_eq in Er; injection Er as <-; rewrite Hf, Hq; by apply D|].
    rewrite lookup_insert_ne in Er by done. by apply D.
  - assert (Hold : forall r, is_Some (<[p := kn']> (w_knotes w) !! r) -> is_Some (w_knotes w !! r)).
    { intros r. destruct (decide (r = p)) as [->|Hr]; [eauto|by rewrite lookup_insert_ne]. }
    intros r kr v Er Ev. destruct (Hold r) as [kr0 Er0]; [eauto|]. destruct (E r kr0 v Er0 Ev) as (E1 & E2 & E3). split_and!; try done.
    intros s ks Es Ev'. destruct (Hold s) as [ks0 Es0]; [eauto|]. by eapply E3.
Qed.

Lemma io_kn p n n' w kn kn' :
  iocp_ok p n w -> w_knotes w !! p = Some kn -> kn_id kn' = kn_id kn ->
  n' + share kn' (wkn w p) - kn_ref kn' <= n + share kn (wkn w p) - kn_ref kn ->
  iocp_ok p n' (set_w_knotes (<[p := kn']> (w_knotes w)) w).
Proof. intros Hio Ep Hid. unfold kn_id in Hid. simplify_eq. eapply io_put; [done..|congruence]. Qed.

(** The members of the knote [p] change. *)
Definition with_wkn w p x : world K := set_w_wn (set_wn_knotes (<[p := x]> (wn_knotes (w_wn w))) (w_wn w)) w.
Lemma wkn_with w p x r : wkn (with_wkn w p x) r = if decide (r = p) then x else wkn w r.
Proof. unfold wkn, with_wkn. simpl. case_decide; by simplify_map_eq. Qed.

Lemma io_wkn p n n' w kn x :
  iocp_ok p n w -> w_knotes w !! p = Some kn -> n' + share kn x <= n + share kn (wkn w p) ->
  (forall q, kn_kq kn = Some q -> filter_ (kev kn) = EVFILT_READ -> own_handle w q (kn_handle x)) ->
  (forall v, kn_vs x = Some v -> kn_vs (wkn w p) = Some v \/
     is_Some (wn_vnodes (w_wn w) !! v) /\ (v < w_next w)%positive /\
     forall r kr, w_knotes w !! r = Some kr -> kn_vs (wkn w r) <> Some v) ->
  iocp_ok p n' (with_wkn w p x).
Proof.
  intros [A B C D E] Ep Hle Hh Hv. split.
  - intros r kr Er. rewrite wkn_with. change (tok _ r) with (tok w r). specialize (A r kr Er).
    case_decide as Hr; [|lia]. subst. simpl in Er. assert (kr = kn) as -> by congruence. lia.
  - intros port b Hb. eapply pend_ok_mono; [| |by apply B]; done.
  - apply C.
  - intros r kr q Er Hq Hf. rewrite wkn_with. case_decide as Hr; [|by apply (D r kr)].
    subst. simpl in Er. assert (kr = kn) as -> by congruence. by apply Hh.
  - intros r kr v Er Ev. simpl in Er |- *.
    assert (Hold : kn_vs (wkn w r) = Some v -> is_Some (wn_vnodes (w_wn w) !! v) /\ (v < w_next w)%positive /\
      forall r' kr', w_knotes w !! r' = Some kr' -> kn_vs (wkn (with_wkn w p x) r') = Some v -> r' = r).
    { intros E0. destruct (E r kr v Er E0) as (F & G & I). split_and!; [done..|]. intros r' kr' Er'.
      rewrite wkn_with. case_decide as Hr'; [|by apply (I r' kr')]. subst r'. intros E1.
      destruct (Hv v E1) as [E2|(_ & _ & Hn)]; [by eapply I|by destruct (Hn r kr Er)]. }
    rewrite wkn_with in Ev. case_decide as Hr; [|by apply Hold]. subst r. destruct (Hv v Ev) as [E0|(F & G & Hn)]; [by apply Hold|].
    split_and!; [done..|]. intros r' kr' Er'. rewrite wkn_with. case_decide; [done|]. intros E1. by destruct (Hn r' kr' Er').
Qed.

(** A completion for [p] is made with a reference that was held. *)
Lemma io_post p n w w' port b :
  iocp_ok p n w -> same_data w w' -> ik_assoc (w_os w') = ik_assoc (w_os w) ->
  ik_pending (w_os w') ≡ₚ (port, b) :: ik_pending (w_os w) ->
  (forall r, of_knote r (port, b) = bool_decide (p = r)) -> pend_ok w port b -> iocp_ok p (n - 1) w'.
Proof.
  intros [A B C D E] Hs Ha Hpend Hof Hb. pose proof (fun p => same_wkn _ _ p Hs) as Hx.
  pose proof (fun q => same_port _ _ q Hs) as Hp. destruct Hs as (Hk & _ & _ & Hv & Hn). split.
  - intros r kn Er. rewrite Hk in Er. specialize (A r kn Er). rewrite Hx. unfold tok in *.
    rewrite Hpend. simpl in *. rewrite Hof. case_decide; case_bool_decide; simpl; subst; done || lia.
  - intros port' b' Hin. eapply (pend_ok_mono w); [intros; by rewrite Hk|done|].
    rewrite Hpend in Hin. apply elem_of_cons in Hin as [[= -> ->]|Hin]; [done|by apply B].
  - intros q r. rewrite !Hp. apply C.
  - intros r kn q Er Hq Hf. rewrite Hk in Er. rewrite Hx. intros port' key E1. rewrite Ha in E1. rewrite Hp.
    by eapply D.
  - intros r kn v Er Ev. rewrite Hk in Er. rewrite Hx in Ev. rewrite Hv. destruct (E r kn v Er Ev) as (F & G & I).
    split_and!; [done|lia|]. intros r' kr. rewrite Hk, Hx. apply I.
Qed.

Lemma io_weaken p n n' w : iocp_ok p n w -> n' <= n -> iocp_ok p n' w.
Proof.
  intros [A B C D E] Hn. split; try done. intros r kn Er. specialize (A r kn Er). case_decide; lia.
Qed.

(** Nothing held: of any knote. *)
Lemma io_zero p r w : iocp_ok p 0 w -> iocp_ok r 0 w.
Proof. intros [A B C D E]. split; try done. intros o kn Eo. specialize (A o kn Eo). repeat case_decide; lia. Qed.

Lemma kn_id_filter kn kn' : kn_id kn' = kn_id kn -> filter_ (kev kn') = filter_ (kev kn) /\ kn_kq kn' = kn_kq kn /\
  has (kn_flags kn') KNFL_KNOTE_DELETED = has (kn_flags kn) KNFL_KNOTE_DELETED /\ ident (kev kn') = ident (kev kn).
Proof. unfold kn_id. naive_solver. Qed.

(** A knote that was not deleted has a reference besides the ones held. *)
Lemma io_alive p n w kn :
  iocp_ok p n w -> w_knotes w !! p = Some kn -> has (kn_flags kn) KNFL_KNOTE_DELETED = false ->
  n < kn_ref kn.
Proof.
  intros Hio Ep Hd. pose proof (io_refs _ _ _ Hio p kn Ep) as Hr. unfold share in Hr. rewrite Hd in Hr. simpl in Hr.
  pose proof (tokens_nonneg p (ik_pending (w_os w))). unfold tok in Hr. rewrite decide_True in Hr by done.
  destruct (timer_holds _ _); simpl in Hr; lia.
Qed.
End Keep.

(** ** The state of a callback

    On the knote [p] of the kqueue [q], started in [w0]; [m] completions were posted and
    [n] references are held. *)

Record wst {K : Type} `{IocpKernel K} (m n : Z) (w0 : world K) (q p : ptr) (kn : knote) (w : world K) : Prop :=
  { ws_frame : wframe m p w0 w;
    ws_io : iocp_ok p n w;
    ws_kn : w_knotes w !! p = Some kn;
    ws_q : kn_kq kn = Some q;
    ws_kq : is_Some (w_kqs w !! q) }.

Section Rules.
Context {K : Type} `{IocpKernel K}.
Implicit Types (w : world K) (p q r v : ptr) (kn : knote) (x : win_knote) (m n : Z).

Lemma wst_start w q p kn n :
  iocp_ok p n w -> w_knotes w !! p = Some kn -> kn_kq kn = Some q -> is_Some (w_kqs w !! q) -> wst 0 n w q p kn w.
Proof. intros. by split; [apply wframe_refl|..]. Qed.

(** The members no step of a callback changes. *)
Definition same_rest w w' : Prop :=
  w_kqs w' = w_kqs w /\ w_mem w' = w_mem w /\ w_mtx w' = w_mtx w /\ w_kqmap w' = w_kqmap w /\
  w_kq_list w' = w_kq_list w /\ iocp_wait_timeout_ms (w_wn w') = iocp_wait_timeout_ms (w_wn w).

Lemma wframe_data w w' p :
  same_data w w' -> same_rest w w' -> os_le (w_os w) (w_os w') -> wframe 0 p w w'.
Proof.
  intros Hd (F & G & I & J & L & M') Ho. pose proof Hd as (A & B & C & D & E). split; try done; rewrite ?A; try done.
  - intros r _. by apply same_wkn.
  - apply Ho.
  - intros kn q h _ _. apply own_handle_le; [done|by apply same_port].
  - destruct Ho as [[l Hl] _]. rewrite Hl, length_app. lia.
  - intros r. pose proof (os_le_tok _ _ r Ho). lia.
Qed.

Lemma wst_data m n w0 q p kn w w' :
  wst m n w0 q p kn w -> same_data w w' -> same_rest w w' -> os_le (w_os w) (w_os w') -> wst m n w0 q p kn w'.
Proof.
  intros [A B C D E] Hs Hr Ho. split; [|by eapply io_os|..].
  - replace m with (m + 0) by lia. eapply wframe_trans; [exact A|]. by apply wframe_data.
  - destruct Hs as (-> & _). done.
  - done.
  - destruct Hr as (-> & _). done.
Qed.

Lemma same_data_refl w : same_data w w.
Proof. by repeat split. Qed.
Lemma quiet_le (A : Type) (c : syscall A) (k k' : K) (a : sysres A) : iocp_quiet c = true -> os_call c k = (a, k') -> os_le k k'.
Proof. intros Hc Ho. by eapply ik_quiet. Qed.

(** A quiet system call; what it answered is remembered. *)
Definition answered {A : Type} (c : syscall A) (o : option A) w w' : Prop :=
  match o with Some a => os_call c (w_os w) = (SOk a, w_os w') | None => True end.

Lemma ws_sys {A : Type} (c : syscall A) (Q : option A -> world K -> Prop) m n w0 q p kn w :
  iocp_quiet c = true -> wst m n w0 q p kn w ->
  (forall o w', wst m n w0 q p kn w' -> same_data w w' -> os_le (w_os w) (w_os w') -> answered c o w w' -> Q o w') ->
  wp (sys c) Q w.
Proof.
  intros Hc Hs HQ. apply wp_sys.
  - intros a k E. apply HQ; try done. eapply wst_data; [exact Hs|by repeat split|by repeat split|]. all: by eapply quiet_le.
  - intros e k E. apply HQ; try done. eapply wst_data; [exact Hs|by repeat split|by repeat split|]. all: by eapply quiet_le.
Qed.

Lemma wp_win {A : Type} (c : syscall A) (Q : option A -> world K -> Prop) w :
  (forall a k, os_call c (w_os w) = (SOk a, k) -> Q (Some a) (set_w_os k w)) ->
  (forall e k, os_call c (w_os w) = (SErr e, k) ->
     Q None (set_w_wn (set_last_error e (w_wn w)) (set_w_os k w))) ->
  wp (win c) Q w.
Proof. intros H1 H2. unfold wp, win. destruct (os_call c (w_os w)) as [[a|e] k] eqn:E; auto. Qed.

Lemma ws_win {A : Type} (c : syscall A) (Q : option A -> world K -> Prop) m n w0 q p kn w :
  iocp_quiet c = true -> wst m n w0 q p kn w ->
  (forall o w', wst m n w0 q p kn w' -> same_data w w' -> os_le (w_os w) (w_os w') -> answered c o w w' -> Q o w') ->
  wp (win c) Q w.
Proof.
  intros Hc Hs HQ. apply wp_win.
  - intros a k E. apply HQ; try done. eapply wst_data; [exact Hs|by repeat split|by repeat split|]. all: by eapply quiet_le.
  - intros e k E. apply HQ; try done. eapply wst_data; [exact Hs|by repeat split|by repeat split|]. all: by eapply quiet_le.
Qed.

Lemma ws_win_ok (c : syscall unit) (Q : bool -> world K -> Prop) m n w0 q p kn w :
  iocp_quiet c = true -> wst m n w0 q p kn w ->
  (forall b w', wst m n w0 q p kn w' -> same_data w w' -> os_le (w_os w) (w_os w') -> Q b w') -> wp (win_ok c) Q w.
Proof. intros Hc Hs HQ. unfold win_ok. wp_simpl. eapply ws_win; [done|exact Hs|]. intros. wp_simpl. eauto. Qed.

Lemma ws_set_errno e (Q : unit -> world K -> Prop) m n w0 q p kn w :
  wst m n w0 q p kn w -> (forall w', wst m n w0 q p kn w' -> Q tt w') -> wp (set_errno e) Q w.
Proof.
  intros Hs HQ. unfold set_errno. wp_simpl. apply HQ.
  eapply wst_data; [exact Hs|by repeat split|by repeat split|apply os_le_refl].
Qed.

Lemma ws_last_error (Q : Z -> world K -> Prop) w : (forall e, Q e w) -> wp get_last_error Q w.
Proof. intros HQ. unfold get_last_error. wp_simpl. apply HQ. Qed.

Lemma ws_get_kn (Q : knote -> world K -> Prop) m n w0 q p kn w :
  wst m n w0 q p kn w -> Q kn w -> wp (get_kn p) Q w.
Proof. intros Hs HQ. eapply wp_get_kn; [apply Hs|done]. Qed.

Lemma ws_get_wkn (Q : win_knote -> world K -> Prop) m n w0 q p kn w :
  wst m n w0 q p kn w -> Q (wkn w p) w -> wp (get_wkn p) Q w.
Proof. intros Hs HQ. unfold get_wkn. wp_simpl. eapply ws_get_kn; [exact Hs|]. by wp_simpl. Qed.

Lemma ws_get_wkq (Q : win_kq -> world K -> Prop) m n w0 q p kn w :
  wst m n w0 q p kn w -> Q (wkq w q) w -> wp (get_wkq q) Q w.
Proof.
  intros Hs HQ. destruct (ws_kq _ _ _ _ _ _ _ Hs) as [kq E]. unfold get_wkq. wp_simpl.
  eapply wp_get_kq; [exact E|]. by wp_simpl.
Qed.

(** *** Updates of the knote *)

Lemma ws_put_kn kn' n' m n w0 q p kn w :
  wst m n w0 q p kn w -> kn_id kn' = kn_id kn ->
  n' + share kn' (wkn w p) - kn_ref kn' <= n + share kn (wkn w p) - kn_ref kn ->
  wst m n' w0 q p kn' (set_w_knotes (<[p := kn']> (w_knotes w)) w).
Proof.
  intros [A B C D E] Hid Hle. split; simpl; try done.
  - replace m with (m + 0) by lia. eapply wframe_trans; [exact A|]. split; simpl; try done; try lia.
    + rewrite lookup_insert_eq, C. exact (f_equal Some Hid).
    + intros r Hr. by rewrite lookup_insert_ne.
    + intros r. change (tok (set_w_knotes _ w) r) with (tok w r). lia.
  - by eapply io_kn.
  - by rewrite lookup_insert_eq.
  - destruct (kn_id_filter _ _ Hid) as (_ & -> & _). done.
Qed.

Lemma ws_upd_kn g (Q : unit -> world K -> Prop) m n w0 q p kn w :
  wst m n w0 q p kn w -> kn_id (g kn) = kn_id kn -> kn_ref (g kn) = kn_ref kn ->
  (has (flags (kev kn)) EV_ONESHOT = true -> has (flags (kev (g kn))) EV_ONESHOT = true) ->
  (forall w', wst m n w0 q p (g kn) w' -> wn_knotes (w_wn w') = wn_knotes (w_wn w) -> Q tt w') ->
  wp (upd_kn p g) Q w.
Proof.
  intros Hs Hid Href Hone HQ. eapply wp_upd_kn; [apply Hs|]. apply HQ; [|done]. eapply ws_put_kn; [exact Hs|done|].
  destruct (kn_id_filter _ _ Hid) as (Hf & _ & Hd & _). unfold share, timer_holds. rewrite Href, Hf, Hd.
  destruct (has (flags (kev kn)) EV_ONESHOT); [rewrite Hone by done; lia|].
  destruct (has (flags (kev (g kn))) EV_ONESHOT), (_ =? EVFILT_TIMER), (kn_handle _ =? 0), (kn_event_whandle _ =? 0); simpl; lia.
Qed.

Lemma ws_upd_kev g (Q : unit -> world K -> Prop) m n w0 q p kn w :
  wst m n w0 q p kn w -> ident (g (kev kn)) = ident (kev kn) -> filter_ (g (kev kn)) = filter_ (kev kn) ->
  (has (flags (kev kn)) EV_ONESHOT = true -> has (flags (g (kev kn))) EV_ONESHOT = true) ->
  (forall w', wst m n w0 q p (set_kev (g (kev kn)) kn) w' -> wn_knotes (w_wn w') = wn_knotes (w_wn w) -> Q tt w') ->
  wp (upd_kev p g) Q w.
Proof.
  intros Hs Hi Hf Hone HQ. unfold upd_kev. eapply ws_upd_kn; [exact Hs| |done|done|done].
  unfold kn_id. simpl. by rewrite Hi, Hf.
Qed.

Lemma ws_retain (Q : unit -> world K -> Prop) m n w0 q p kn w :
  wst m n w0 q p kn w -> 0 <= kn_ref kn < 2 ^ 32 - 1 ->
  (forall w', wst m (n + 1) w0 q p (set_kn_ref (kn_ref kn + 1) kn) w' -> wn_knotes (w_wn w') = wn_knotes (w_wn w) ->
     w_os w' = w_os w -> Q tt w') ->
  wp (knote_retain p) Q w.
Proof.
  intros Hs Hr HQ. unfold knote_retain. eapply wp_upd_kn; [apply Hs|].
  replace (u32 (kn_ref kn + 1)) with (kn_ref kn + 1) by (unfold u32; rewrite Z.mod_small; lia).
  apply HQ; [|done|done]. eapply ws_put_kn; [exact Hs|done|]. unfold share, timer_holds. simpl. lia.
Qed.

Lemma ws_alive m n w0 q p kn w :
  wst m n w0 q p kn w -> has (kn_flags kn) KNFL_KNOTE_DELETED = false -> n < kn_ref kn.
Proof. intros Hs Hd. eapply io_alive; [apply Hs..|done]. Qed.

Lemma ws_weaken m m' n n' w0 q p kn w : wst m n w0 q p kn w -> m <= m' -> n' <= n -> wst m' n' w0 q p kn w.
Proof. intros [A B C D E] Hm Hn. split; try done; [by eapply wframe_more|by eapply io_weaken]. Qed.

(** A reference is given back, and it is not the last one. *)
Lemma ws_release_os (Q : unit -> world K -> Prop) m n w0 q p kn w :
  wst m n w0 q p kn w -> 1 < kn_ref kn ->
  (forall w', wst m (n - 1) w0 q p (set_kn_ref (kn_ref kn - 1) kn) w' -> wn_knotes (w_wn w') = wn_knotes (w_wn w) ->
     w_os w' = w_os w -> Q tt w') ->
  wp (knote_release p) Q w.
Proof.
  intros Hs Hn HQ. unfold knote_release. wp_simpl. eapply ws_get_kn; [exact Hs|]. wp_simpl. apply wp_assert. split; [apply Z.ltb_lt; lia|].
  unfold put_kn. wp_simpl. destruct (Z.eqb_spec (kn_ref kn - 1) 0); [lia|]. wp_simpl. apply HQ; [|done..].
  eapply ws_put_kn; [exact Hs|done|]. unfold share, timer_holds. simpl. lia.
Qed.

Lemma ws_release (Q : unit -> world K -> Prop) m n w0 q p kn w :
  wst m n w0 q p kn w -> 1 < kn_ref kn ->
  (forall w', wst m (n - 1) w0 q p (set_kn_ref (kn_ref kn - 1) kn) w' -> wn_knotes (w_wn w') = wn_knotes (w_wn w) -> Q tt w') ->
  wp (knote_release p) Q w.
Proof. intros Hs Hn HQ. eapply ws_release_os; [done..|]. auto. Qed.

(** *** Updates of the members of this backend *)

Lemma ws_with_wkn x n' m n w0 q p kn w :
  wst m n w0 q p kn w -> n' + share kn x <= n + share kn (wkn w p) ->
  (filter_ (kev kn) = EVFILT_READ -> own_handle w q (kn_handle x)) ->
  (forall v, kn_vs x = Some v -> kn_vs (wkn w p) = Some v \/
     is_Some (wn_vnodes (w_wn w) !! v) /\ (v < w_next w)%positive /\
     forall r kr, w_knotes w !! r = Some kr -> kn_vs (wkn w r) <> Some v) ->
  wst m n' w0 q p kn (with_wkn w p x).
Proof.
  intros [A B C D E] Hle Hh Hv. split; try done.
  - replace m with (m + 0) by lia. eapply wframe_trans; [exact A|]. split; simpl; try done; try lia.
    + intros r Hr. rewrite wkn_with. by rewrite decide_False.
    + intros r. change (tok (with_wkn w p x) r) with (tok w r). lia.
  - eapply io_wkn; [done|done|done| |done]. intros q' Hq'. assert (q' = q) as -> by congruence. done.
Qed.

Lemma wp_upd_wkn g (Q : unit -> world K -> Prop) m n w0 q p kn w :
  wst m n w0 q p kn w -> Q tt (with_wkn w p (g (wkn w p))) -> wp (upd_wkn p g) Q w.
Proof. intros Hs HQ. unfold upd_wkn, upd_wn. wp_simpl. eapply ws_get_wkn; [exact Hs|]. by wp_simpl. Qed.

(** The handles stay or are set to NULL, and so does the file. *)
Definition calm (x x' : win_knote) : Prop :=
  (kn_handle x' = kn_handle x \/ kn_handle x' = 0) /\
  (kn_event_whandle x' = kn_event_whandle x \/ kn_event_whandle x' = 0) /\
  (kn_vs x' = kn_vs x \/ kn_vs x' = None).

Lemma calm_share kn x x' : calm x x' -> share kn x' <= share kn x.
Proof.
  intros (H1 & H2 & _). unfold share, timer_holds. destruct H1 as [-> | ->], H2 as [-> | ->]; try lia;
    destruct (_ =? EVFILT_TIMER), (has _ EV_ONESHOT), (kn_handle x =? 0), (kn_event_whandle x =? 0), (has _ _); simpl; lia.
Qed.

Lemma own_handle_null w q : own_handle w q 0.
Proof. intros port key E. rewrite ik_null in E. done. Qed.

Lemma ws_upd_wkn g (Q : unit -> world K -> Prop) m n w0 q p kn w :
  wst m n w0 q p kn w -> calm (wkn w p) (g (wkn w p)) ->
  (forall w', wst m n w0 q p kn w' -> wkn w' p = g (wkn w p) -> Q tt w') -> wp (upd_wkn p g) Q w.
Proof.
  intros Hs Hc HQ. eapply wp_upd_wkn; [exact Hs|]. apply HQ.
  - eapply ws_with_wkn; [exact Hs|pose proof (calm_share kn _ _ Hc); lia|..].
    + intros Hf. destruct Hc as ([-> | ->] & _); [|apply own_handle_null].
      eapply io_reads; [apply Hs..|done].
    + intros v Hv. left. destruct Hc as (_ & _ & [E|E]); congruence.
  - rewrite wkn_with. by rewrite decide_True.
Qed.

(** New handles in a knote that is no timer. *)
Lemma ws_set_handles g (Q : unit -> world K -> Prop) m n w0 q p kn w :
  wst m n w0 q p kn w -> filter_ (kev kn) <> EVFILT_TIMER -> kn_vs (g (wkn w p)) = kn_vs (wkn w p) ->
  (filter_ (kev kn) = EVFILT_READ -> own_handle w q (kn_handle (g (wkn w p)))) ->
  (forall w', wst m n w0 q p kn w' -> wkn w' p = g (wkn w p) -> w_os w' = w_os w -> Q tt w') -> wp (upd_wkn p g) Q w.
Proof.
  intros Hs Hf Hv Hh HQ. eapply wp_upd_wkn; [exact Hs|]. apply HQ; [|rewrite wkn_with; by rewrite decide_True|done].
  eapply ws_with_wkn; [exact Hs| |done|].
  - unfold share, timer_holds. rewrite (proj2 (Z.eqb_neq _ _) Hf). simpl. lia.
  - intros v E. left. congruence.
Qed.

(** New handles in a knote that is no socket: the references held make up for it. *)
Lemma ws_any_handles g (Q : unit -> world K -> Prop) m n w0 q p kn w :
  wst m n w0 q p kn w -> filter_ (kev kn) <> EVFILT_READ -> kn_vs (g (wkn w p)) = kn_vs (wkn w p) ->
  (forall w', wst m (n + share kn (wkn w p) - share kn (g (wkn w p))) w0 q p kn w' ->
     wkn w' p = g (wkn w p) -> Q tt w') -> wp (upd_wkn p g) Q w.
Proof.
  intros Hs Hf Hv HQ. eapply wp_upd_wkn; [exact Hs|]. apply HQ; [|rewrite wkn_with; by rewrite decide_True].
  eapply ws_with_wkn; [exact Hs|lia|done|]. intros v E. left. congruence.
Qed.

(** *** Posting *)

Lemma filter_key_range kn : - EVFILT_SYSCOUNT <= filter_ (kev kn) < 0 -> KQ_FILTER_KEY (filter_ (kev kn)) = 2 ^ 64 + filter_ (kev kn).
Proof.
  unfold EVFILT_SYSCOUNT. intros Hr. unfold KQ_FILTER_KEY, s16. rewrite signed_id by (simpl; lia).
  unfold u64. symmetry. apply (Z.mod_unique _ _ (-1)); lia.
Qed.

(** Every post succeeds. *)
Definition posts_always : Prop :=
  forall port bytes key ov (k : K), exists k', os_call (WinPost port bytes key ov) k = (SOk tt, k').

(** What the result of a post says: a completion for [p] is queued, or a post can fail. *)
Definition told (b : bool) p w : Prop := if b then 0 < tok w p else ~ posts_always.

Lemma ws_post (Q : bool -> world K -> Prop) m n w0 q p kn w :
  wst m n w0 q p kn w -> - EVFILT_SYSCOUNT <= filter_ (kev kn) < 0 ->
  (forall w', wst (m + 1) (n - 1) w0 q p kn w' -> same_data w w' /\ told true p w' -> Q true w') ->
  (forall w', wst m n w0 q p kn w' -> same_data w w' /\ told false p w' -> Q false w') -> wp (post_knote p) Q w.
Proof.
  intros Hs Hr HQ1 HQ2. unfold post_knote, win_ok. wp_simpl. eapply ws_get_kn; [exact Hs|]. wp_simpl.
  rewrite (ws_q _ _ _ _ _ _ _ Hs). wp_simpl. eapply ws_get_wkq; [exact Hs|]. wp_simpl. apply wp_win.
  - intros [] k E. wp_simpl. destruct (ik_post _ _ _ _ _ _ _ E) as (Hp & Ha & Hh). apply HQ1.
    2: { split; [by repeat split|]. unfold told, tok. simpl. rewrite Hp. simpl. unfold of_knote. simpl.
         rewrite bool_decide_eq_true_2 by done. simpl. pose proof (tokens_nonneg p (ik_pending (w_os w))). lia. }
    destruct Hs as [A B C D F]. split; try done.
    + eapply wframe_trans; [exact A|]. split; simpl; try done; try lia.
      * intros fd. by rewrite Hh.
      * intros kn' q' h _ _ Ho port key Ek. simpl in Ek. rewrite Ha in Ek. by apply Ho.
      * rewrite Hp. simpl. lia.
      * intros r. unfold tok. simpl. rewrite Hp. simpl. unfold of_knote. simpl.
        repeat case_bool_decide; subst; simpl; done || lia.
    + eapply io_post; [exact B|by repeat split|done|exact Hp|done|]. right. simpl. by exists kn, q.
  - intros e k E. wp_simpl. destruct (ik_post _ _ _ _ _ _ _ E) as (Hp & Ha & Hh). apply HQ2.
    2: { split; [by repeat split|]. intros Hal. edestruct Hal as [k' E']. rewrite E' in E. discriminate E. }
    eapply wst_data; [exact Hs|by repeat split|by repeat split|]. split_and!; simpl.
    + exists []. by rewrite Hp.
    + intros h. left. by rewrite Ha.
    + intros fd. by rewrite Hh.
Qed.

Lemma ws_retain_post (Q : bool -> world K -> Prop) m n w0 q p kn w :
  wst m n w0 q p kn w -> 0 <= n -> - EVFILT_SYSCOUNT <= filter_ (kev kn) < 0 ->
  has (kn_flags kn) KNFL_KNOTE_DELETED = false -> 0 <= kn_ref kn < 2 ^ 32 - 1 ->
  (forall (b : bool) w', wst (m + Z.b2z b) n w0 q p (set_kn_ref (kn_ref kn + Z.b2z b) kn) w' ->
     wn_knotes (w_wn w') = wn_knotes (w_wn w) /\ told b p w' -> Q b w') ->
  wp (retain_and_post p) Q w.
Proof.
  intros Hs Hn Hr Hd Href HQ. unfold retain_and_post. wp_simpl. eapply ws_retain; [exact Hs|done|]. intros w1 Hs1 E1 _.
  wp_simpl. eapply ws_post; [exact Hs1|done|..].
  - intros w2 Hs2 [E2 Ht]. wp_simpl. apply HQ; [by replace n with (n + 1 - 1) by lia|]. destruct E2 as (_ & -> & _). done.
  - intros w2 Hs2 [E2 Ht]. wp_simpl. eapply ws_release; [exact Hs2|apply ws_alive in Hs2; [simpl in *; lia|done]|]. intros w3 Hs3 E3. wp_simpl.
    apply HQ; [|split; [destruct E2 as (_ & E2 & _); congruence|exact Ht]]. simpl in *. rewrite !Z.add_0_r. replace n with (n + 1 - 1) by lia.
    by replace (kn_ref kn + 1 - 1) with (kn_ref kn) in Hs3 by lia.
Qed.

(** *** Pipes *)

Lemma own_handle_wst m n w0 q p kn w w' h :
  wst m n w0 q p kn w -> same_data w w' -> os_le (w_os w) (w_os w') -> own_handle w q h -> own_handle w' q h.
Proof. intros Hs Hd Hl. apply own_handle_le; [done|]. by apply same_port. Qed.

Lemma own_handle_os m n m' n' w0 q p kn kn' w w' h :
  wst m n w0 q p kn w -> wst m' n' w0 q p kn' w' -> w_os w' = w_os w -> own_handle w q h -> own_handle w' q h.
Proof.
  intros Hs Hs' E Ho port key Ek. rewrite E in Ek. rewrite (wframe_port _ _ _ _ q (ws_frame _ _ _ _ _ _ _ Hs')).
  rewrite <- (wframe_port _ _ _ _ q (ws_frame _ _ _ _ _ _ _ Hs)). by apply Ho.
Qed.

(** No other kqueue watches the handle [h]. *)
Definition unwatched w q (h : Z) : Prop :=
  forall r kr q', w_knotes w !! r = Some kr -> kn_kq kr = Some q' -> filter_ (kev kr) = EVFILT_READ ->
    kn_handle (wkn w r) = h -> q' = q.

(** The handle of a descriptor has no port but that of [q], and no other kqueue watches it. *)
Definition pipe_free w q (fd : Z) : Prop :=
  own_handle w q (ik_handle (w_os w) fd) /\ unwatched w q (ik_handle (w_os w) fd).

Lemma pipe_free_frame m p w w' kn q fd :
  wframe m p w w' -> w_knotes w !! p = Some kn -> kn_kq kn = Some q -> pipe_free w q fd -> pipe_free w' q fd.
Proof.
  intros Hf Ep Hq [Ho Hu]. unfold pipe_free. rewrite (wf_handle _ _ _ _ Hf). split; [by eapply wf_own|].
  intros r kr q' Er Hq' Hfr Hh. destruct (decide (r = p)) as [->|Hr].
  - pose proof (wf_kn _ _ _ _ Hf) as E. rewrite Er, Ep in E. simpl in E. unfold kn_id in E. congruence.
  - rewrite (wf_others _ _ _ _ Hf) in Er by done. rewrite (wf_wkn _ _ _ _ Hf) in Hh by done. by eapply Hu.
Qed.

Lemma pipe_free_wst m n w0 q p kn w fd : wst m n w0 q p kn w -> pipe_free w0 q fd -> pipe_free w q fd.
Proof.
  intros Hs Hp. pose proof (wf_kn _ _ _ _ (ws_frame _ _ _ _ _ _ _ Hs)) as E. rewrite (ws_kn _ _ _ _ _ _ _ Hs) in E.
  destruct (w_knotes w0 !! p) as [kn0|] eqn:E0; [|done]. simpl in E. unfold kn_id in E.
  eapply pipe_free_frame; [apply Hs|exact E0| |done]. pose proof (ws_q _ _ _ _ _ _ _ Hs). congruence.
Qed.

Lemma ws_associate h (Q : bool -> world K -> Prop) m n w0 q p kn w :
  wst m n w0 q p kn w -> own_handle w q h -> unwatched w q h ->
  (forall b w', wst m n w0 q p kn w' -> same_data w w' -> own_handle w' q h -> Q b w') ->
  wp (win_ok (WinAssociate h (kq_iocp (wkq w q)) KQ_PIPE_READ_KEY)) Q w.
Proof.
  intros Hs Hown Hun HQ. unfold win_ok. wp_simpl.
  assert (Hmove : forall w' a, os_call (WinAssociate h (kq_iocp (wkq w q)) KQ_PIPE_READ_KEY) (w_os w) = (a, w_os w') ->
    same_data w w' -> same_rest w w' -> wst m n w0 q p kn w' /\ own_handle w' q h).
  { intros w' a E Hd Hr. destruct (ik_associate _ _ _ _ _ _ E) as (Hpe & Hh & Has).
    pose proof (fun r => same_port _ _ r Hd) as Hport.
    assert (Hall : forall r h', own_handle w r h' -> (h' = h -> r = q) -> own_handle w' r h').
    { intros r h' Ho Hrq port key Ek. rewrite Has in Ek. destruct a; [case_decide; simplify_eq|]; rewrite Hport.
      - right. split; [done|]. by rewrite Hrq.
      - by apply Ho.
      - by apply Ho. }
    split; [|by apply Hall]. destruct Hs as [A B C D F]. split; try done.
    - replace m with (m + 0) by lia. eapply wframe_trans; [exact A|]. pose proof Hd as (D1 & D2 & D3 & D4 & D5).
      destruct Hr as (R1 & R2 & R3 & R4 & R5 & R6). split; try done; unfold tok; rewrite ?D1, ?Hpe; try (done || lia || (intros; lia)).
      + intros r _. by apply same_wkn.
      + intros fd. by rewrite Hh.
      + intros kn' q' h' Ek Hq' Ho. apply Hall; [done|]. intros _. congruence.
    - destruct B as [B1 B2 B3 B4 B5]. pose proof (fun r => same_wkn _ _ r Hd) as Hx. destruct Hd as (D1 & D2 & D3 & D4 & D5). split.
      + intros r kr Er. unfold tok. rewrite Hpe, Hx. rewrite D1 in Er. by apply B1.
      + intros port b Hb. rewrite Hpe in Hb. eapply pend_ok_mono; [| |by apply B2]; [|done]. intros. by rewrite D1.
      + intros r r'. rewrite !Hport. apply B3.
      + intros r kr q' Er Hq' Hf. rewrite D1 in Er. rewrite Hx. apply Hall; [by eapply B4|]. intros Eh. by eapply Hun.
      + intros r kr v Er Ev. rewrite D1 in Er. rewrite Hx in Ev. rewrite D4. destruct (B5 r kr v Er Ev) as (? & ? & Hu).
        split_and!; [done|lia|]. intros r' kr'. rewrite D1, Hx. apply Hu.
    - destruct Hd as (-> & _). done.
    - destruct Hr as (-> & _). done. }
  apply wp_win.
  - intros a k E. wp_simpl. destruct (Hmove (set_w_os k w) _ E) as [? ?]; [by repeat split..|]. by apply HQ; [|repeat split|].
  - intros e k E. wp_simpl. destruct (Hmove (set_w_wn (set_last_error e (w_wn w)) (set_w_os k w)) _ E) as [? ?]; [by repeat split..|].
    by apply HQ; [|repeat split|].
Qed.

Lemma ws_read h (Q : bool -> world K -> Prop) m n w0 q p kn w :
  wst m n w0 q p kn w -> own_handle w q h -> filter_ (kev kn) = EVFILT_READ ->
  (forall ok w', (ok || (last_error (w_wn w') =? ERROR_IO_PENDING) = true -> wst (m + 1) (n - 1) w0 q p kn w') ->
     (ok || (last_error (w_wn w') =? ERROR_IO_PENDING) = false -> wst m n w0 q p kn w') -> same_data w w' -> Q ok w') ->
  wp (win_ok (WinReadFile h 0 (OvPipe p))) Q w.
Proof.
  intros Hs Hown Hf HQ. unfold win_ok. wp_simpl.
  assert (Hmove : forall w' a, os_call (WinReadFile h 0 (OvPipe p)) (w_os w) = (a, w_os w') -> same_data w w' -> same_rest w w' ->
    (started a = true -> wst (m + 1) (n - 1) w0 q p kn w') /\ (started a = false -> wst m n w0 q p kn w')).
  { intros w' a E Hd Hr. destruct (ik_read _ _ _ _ _ _ E) as ((l & Hp & Hl) & Ha & Hh).
    assert (Hnone : l = [] -> wst m n w0 q p kn w').
    { intros ->. eapply wst_data; [exact Hs|done|done|]. split_and!; [by exists []; rewrite Hp|intros; left; by rewrite Ha|intros; by rewrite Hh]. }
    destruct Hl as [->|(Hst & port & bytes & key & Hk & ->)].
    - split; intros _; [eapply ws_weaken; [by apply Hnone|lia|lia]|by apply Hnone].
    - split; [intros _|congruence]. destruct Hs as [A B C D F]. split; try done.
      + eapply wframe_trans; [exact A|]. pose proof Hd as (D1 & D2 & D3 & D4 & D5). destruct Hr as (R1 & R2 & R3 & R4 & R5 & R6).
        split; try done; rewrite ?D1; try done.
        * intros r _. by apply same_wkn.
        * intros fd. by rewrite Hh.
        * intros kn' q' h' _ _ Ho port' key' Ek. rewrite Ha in Ek. rewrite (same_port _ _ q' Hd). by apply Ho.
        * rewrite Hp. simpl. lia.
        * intros r. unfold tok. rewrite Hp. simpl. unfold of_knote. simpl. repeat case_bool_decide; subst; simpl; done || lia.
      + eapply io_post; [exact B|done|done|exact Hp|done|]. destruct (Hown _ _ Hk) as [->|[-> Hpo]]; [by left|right].
        simpl. exists kn, q. rewrite Hf. unfold EVFILT_READ, EVFILT_SYSCOUNT. split_and!; done || lia.
      + destruct Hd as (-> & _). done.
      + destruct Hr as (-> & _). done. }
  apply wp_win.
  - intros [] k E. wp_simpl. destruct (Hmove (set_w_os k w) _ E) as [H1 H2]; [by repeat split..|]. apply HQ; [|done|by repeat split].
    intros _. by apply H1.
  - intros e k E. wp_simpl. destruct (Hmove (set_w_wn (set_last_error e (w_wn w)) (set_w_os k w)) _ E) as [H1 H2]; [by repeat split..|].
    apply HQ; [..|by repeat split]; simpl; assumption.
Qed.
End Rules.
