(* ===== verification/WinContracts.v ===== *)
(** * The callbacks of the Windows filters keep the references

    [WinFilter]: what a filter promises about [iocp_ok], shown for the filters of
    src/windows. *)

From Stdlib Require Import ZArith Lia Bool.
From stdpp Require Import base list gmap.
From S2P Require Import Prelude RBTree Event Map State Ops Knote Filter Kqueue WinPlatform WinKernel WinUser WinRules WinTimer WinProc WinReadWrite WinVnode.

(** One step of symbolic execution of a callback. *)
Ltac w_side := first [reflexivity | assumption | done | lia].
Ltac w_calm := unfold calm; simpl; split_and!; solve [by left | by right].
Ltac w_flags := simpl; rewrite ?has_setb; intros ->; reflexivity.
Ltac w_filter := simpl; unfold EVFILT_TIMER, EVFILT_READ, Z.lnot in *; first [lia | intros; exfalso; lia].
Ltac w_step :=
  cbn beta; wp_simpl;
  lazymatch goal with
  | |- wp (get_kn _) _ _ => eapply ws_get_kn; [eassumption|]
  | |- wp (get_wkn _) _ _ => eapply ws_get_wkn; [eassumption|]
  | |- wp (get_wkq _) _ _ => eapply ws_get_wkq; [eassumption|]
  | |- wp (sys _) _ _ => eapply ws_sys; [reflexivity|eassumption|intros ?o ?w ?Hs ?He ?Hl ?Ha]
  | |- wp (win _) _ _ => eapply ws_win; [reflexivity|eassumption|intros ?o ?w ?Hs ?He ?Hl ?Ha]
  | |- wp (win_ok _) _ _ => eapply ws_win_ok; [reflexivity|eassumption|intros ?b ?w ?Hs ?He ?Hl]
  | |- wp (set_errno _) _ _ => eapply ws_set_errno; [eassumption|intros ?w ?Hs]
  | |- wp get_last_error _ _ => apply ws_last_error; intros ?e
  | |- wp (upd_wkn _ _) _ _ =>
      first [eapply ws_upd_wkn; [eassumption|w_calm|intros ?w ?Hs ?He]
            |eapply ws_set_handles; [eassumption|w_filter|reflexivity|w_filter|intros ?w ?Hs ?He ?Ho]]
  | |- wp (upd_kev _ _) _ _ => eapply ws_upd_kev; [eassumption|reflexivity|reflexivity|first [done|w_flags]|intros ?w ?Hs ?He]
  | |- wp (if ?b then _ else _) _ _ => destruct b eqn:?
  | |- wp (match ?x with _ => _ end) _ _ => destruct x eqn:?
  end; cbn beta; wp_simpl.
Ltac w_go := repeat w_step.

Section Contract.
Context {K : Type} `{IocpKernel K} `{FilterList K}.
Implicit Types (w : world K) (p q r v : ptr) (kn : knote) (k : kevent) (m n : Z).

(** How a callback ends. *)
Definition runs m w0 q p w : Prop := exists kn, wst m 0 w0 q p kn w.

(** The times a timer may have: 29000 years. *)
Definition timer_range k : Prop := - 9 * 10 ^ 11 <= data k <= 9 * 10 ^ 11.

(** The state in which a callback of the slot [i] is called. *)
Record wpre w q (i : nat) p kn : Prop :=
  { wp_io : iocp_ok p 0 w;
    wp_kn : w_knotes w !! p = Some kn;
    wp_q : kn_kq kn = Some q;
    wp_kq : is_Some (w_kqs w !! q);
    wp_slot : Z.lnot (filter_ (kev kn)) = Z.of_nat i;
    wp_range : (i < 12)%nat;
    wp_live : has (kn_flags kn) KNFL_KNOTE_DELETED = false }.

(** What creating asks for besides: room in the counter, times in range, and a descriptor
    whose handle is not watched by another kqueue. *)
Record wnew w q kn : Prop :=
  { wn_room : 0 <= kn_ref kn < 2 ^ 32 - 2;
    wn_time : timer_range (kev kn);
    wn_pipe : pipe_free w q (s32 (ident (kev kn))) }.

Lemma wpre_start w q i p kn : wpre w q i p kn -> wst 0 0 w q p kn w.
Proof. intros []. by apply wst_start. Qed.

Lemma wpre_filter w q i p kn : wpre w q i p kn -> - EVFILT_SYSCOUNT <= filter_ (kev kn) < 0.
Proof. intros [_ _ _ _ Hs Hr _]. unfold EVFILT_SYSCOUNT, Z.lnot in *. lia. Qed.

Lemma runs_intro m m' w0 q p kn w : wst m 0 w0 q p kn w -> m <= m' -> runs m' w0 q p w.
Proof. intros [A B C D E] Hm. exists kn. split; try done. by eapply wframe_more. Qed.

(** ** EVFILT_USER *)

Lemma user_modify_ok i w q p kn k :
  wpre w q i p kn -> wnew w q kn -> wp (windows_evfilt_user_knote_modify (q, i) p k) (fun _ w' => runs 1 w q p w') w.
Proof.
  intros Hp Hn. pose proof (wpre_start _ _ _ _ _ Hp) as Hs. pose proof (wpre_filter _ _ _ _ _ Hp) as Hf.
  unfold windows_evfilt_user_knote_modify. do 2 w_step.
  destruct (_ && _); [|wp_simpl; by eapply runs_intro]. w_step. destruct (has _ NOTE_TRIGGER); wp_simpl; [by eapply runs_intro|].
  eapply ws_retain_post; [eassumption|lia|done|apply Hp|pose proof (wn_room _ _ _ Hn); simpl; lia|].
  intros b w3 Hs3 _. wp_simpl. eapply runs_intro; [exact Hs3|destruct b; simpl; lia].
Qed.

(** ** EVFILT_PROC and EVFILT_SIGNAL *)

Lemma close_wait_ok m n w0 q p kn w : wst m n w0 q p kn w -> wp (close_wait p) (fun rv w' => rv = 0 /\ wst m n w0 q p kn w') w.
Proof. intros Hs. unfold close_wait. w_go; done. Qed.

Lemma proc_create_ok i w q p kn :
  wpre w q i p kn -> i = 4%nat -> wp (windows_evfilt_proc_knote_create (q, i) p) (fun _ w' => runs 0 w q p w') w.
Proof.
  intros Hp ->. pose proof (wpre_start _ _ _ _ _ Hp) as Hs. pose proof (wp_slot _ _ _ _ _ Hp) as Hf.
  unfold windows_evfilt_proc_knote_create. w_go; by eapply runs_intro.
Qed.

Lemma signal_create_ok i w q p kn :
  wpre w q i p kn -> i = 5%nat -> wp (windows_evfilt_signal_knote_create (q, i) p) (fun _ w' => runs 0 w q p w') w.
Proof.
  intros Hp ->. pose proof (wpre_start _ _ _ _ _ Hp) as Hs. pose proof (wp_slot _ _ _ _ _ Hp) as Hf.
  unfold windows_evfilt_signal_knote_create. w_go; by eapply runs_intro.
Qed.

(** ** EVFILT_TIMER *)

Lemma share_timer kn x : has (kn_flags kn) KNFL_KNOTE_DELETED = false -> 1 <= share kn x <= 2.
Proof. intros Hd. unfold share. rewrite Hd. destruct (timer_holds kn x); simpl; lia. Qed.

Lemma ktimer_delete_ok i m n w0 q p kn w :
  wst m n w0 q p kn w -> filter_ (kev kn) = EVFILT_TIMER -> 0 <= n ->
  0 < n \/ has (kn_flags kn) KNFL_KNOTE_DELETED = false ->
  wp (ktimer_delete (q, i) p) (fun rv w' => rv <= 0 /\ exists c, wst m n w0 q p (set_kn_ref c kn) w' /\ c <= kn_ref kn) w.
Proof.
  intros Hs Hf Hn Hd. assert (Hsame : kn = set_kn_ref (kn_ref kn) kn) by (by destruct kn).
  assert (Hret : forall rv w', rv <= 0 -> wst m n w0 q p kn w' ->
    rv <= 0 /\ exists c, wst m n w0 q p (set_kn_ref c kn) w' /\ c <= kn_ref kn).
  { intros rv w' Hrv Hw. split; [done|]. exists (kn_ref kn). split; [by rewrite <- Hsame|done]. }
  unfold ktimer_delete. w_step. destruct (_ || _) eqn:Hz; wp_simpl; [by apply Hret|].
  apply orb_false_iff in Hz as [Hz1 Hz2]. w_step. destruct b; simpl; wp_simpl; [|by apply Hret].
  w_step. destruct b; simpl; wp_simpl; [|by apply Hret]. w_step. destruct b; simpl; wp_simpl; [|by apply Hret].
  w_step. destruct (has (flags (kev kn)) EV_ONESHOT) eqn:Ho; wp_simpl.
  - w_step. by apply Hret.
  - set (d := Z.b2z (negb (has (kn_flags kn) KNFL_KNOTE_DELETED))) in *.
    assert (Hd' : 0 <= d /\ 0 < n + d) by (unfold d; destruct Hd as [?| ->]; [destruct (negb _)|]; simpl; lia).
    assert (Hx : wkn w3 p = wkn w p).
    { rewrite (same_wkn _ _ p He1), (same_wkn _ _ p He0). by apply same_wkn. }
    assert (Hsh : share kn (wkn w3 p) = d + 1).
    { unfold share, timer_holds. rewrite Hx, Hf, Ho, Hz1, Hz2. done. }
    pose proof (io_refs _ _ _ (ws_io _ _ _ _ _ _ _ Hs2) p kn (ws_kn _ _ _ _ _ _ _ Hs2)) as Hr.
    rewrite decide_True, Hsh in Hr by done. pose proof (tokens_nonneg p (ik_pending (w_os w3))). unfold tok in Hr.
    eapply ws_release; [exact Hs2|lia|]. intros w4 Hs4 E4. wp_simpl. eapply ws_any_handles; [exact Hs4|simpl; by rewrite Hf|done|].
    intros w5 Hs5 _. wp_simpl. split; [done|]. exists (kn_ref kn - 1). split; [|lia].
    eapply ws_weaken; [exact Hs5|done|]. replace (wkn w4 p) with (wkn w3 p) by (unfold wkn; by rewrite E4).
    change (share (set_kn_ref ?c kn) ?x) with (share kn x). rewrite Hsh.
    unfold share, timer_holds. simpl. rewrite andb_false_r. simpl. fold d. lia.
Qed.

Lemma timer_wait_ok m w0 q p kn w th :
  wst m 0 w0 q p kn w -> filter_ (kev kn) = EVFILT_TIMER -> has (kn_flags kn) KNFL_KNOTE_DELETED = false ->
  0 <= kn_ref kn < 2 ^ 32 - 1 -> wp (timer_wait p th) (fun _ w' => runs m w0 q p w') w.
Proof.
  intros Hs Hf Hd Hr. unfold timer_wait. wp_simpl. eapply ws_any_handles; [exact Hs|by rewrite Hf|done|].
  intros w1 Hs1 E1. w_step. pose proof (share_timer kn (wkn w p) Hd).
  assert (Hfin : forall n w3, wst m n w0 q p kn w3 -> -1 <= n -> wp (knote_retain p) (fun _ s => runs m w0 q p s) w3).
  { intros n w3 Hs3 Hn. eapply ws_retain; [exact Hs3|done|]. intros w4 Hs4 _ _. eexists.
    eapply ws_weaken; [exact Hs4|done|lia]. }
  destruct o as [wh|]; wp_simpl.
  - eapply ws_any_handles; [exact Hs0|by rewrite Hf|done|]. intros w3 Hs3 E3. wp_simpl.
    eapply Hfin; [exact Hs3|]. rewrite (same_wkn _ _ p He), E1.
    match goal with |- context [share kn (set_kn_event_whandle ?a ?b)] => pose proof (share_timer kn (set_kn_event_whandle a b) Hd) end. lia.
  - eapply Hfin; [exact Hs0|]. match goal with |- context [share kn (set_kn_handle ?a ?b)] => pose proof (share_timer kn (set_kn_handle a b) Hd) end. lia.
Qed.

Lemma wp_int64 z (Q : Z -> world K -> Prop) w : - 2 ^ 63 <= z < 2 ^ 63 -> Q z w -> wp (int64 z) Q w.
Proof.
  intros Hz HQ. unfold int64. by rewrite (proj2 (Z.leb_le _ _)), (proj2 (Z.ltb_lt _ _)) by lia.
Qed.

Lemma convert_msec_ok k ff (Q : Z -> world K -> Prop) w :
  timer_range k -> (forall ms, 1 <= ms <= 9 * 10 ^ 14 -> Q ms w) -> wp (convert_timedata_to_msec (data k) ff) Q w.
Proof.
  unfold timer_range. intros Hr HQ. unfold convert_timedata_to_msec. cbn zeta.
  assert (Hend : forall ms, ms <= 9 * 10 ^ 14 -> Q (if ms <? 1 then 1 else ms) w).
  { intros ms Hms. apply HQ. destruct (Z.ltb_spec ms 1); lia. }
  assert (Hq : forall a b, 0 < b -> a <= 9 * 10 ^ 14 -> Z.quot a b <= 9 * 10 ^ 14).
  { intros a b Hb Ha. destruct (Z.le_gt_cases 0 a); [pose proof (Z.quot_le_upper_bound a b a); nia|].
    pose proof (Z.quot_opp_l a b ltac:(lia)). pose proof (Z.quot_pos (- a) b). lia. }
  destruct (_ =? NOTE_USECONDS); [|destruct (_ =? NOTE_NSECONDS); [|destruct (_ =? NOTE_SECONDS)]]; wp_simpl.
  - apply wp_int64; [lia|]. wp_simpl. apply Hend, Hq; lia.
  - apply wp_int64; [lia|]. wp_simpl. apply Hend, Hq; lia.
  - apply wp_int64; [lia|]. wp_simpl. apply Hend. lia.
  - apply Hend. lia.
Qed.

Lemma absolute_msec_ok ms (Q : Z -> world K -> Prop) m n w0 q p kn w :
  wst m n w0 q p kn w -> 1 <= ms <= 9 * 10 ^ 14 ->
  (forall d w', 0 <= d <= 9 * 10 ^ 14 -> wst m n w0 q p kn w' -> Q d w') -> wp (absolute_msec ms) Q w.
Proof.
  intros Hs Hms HQ. unfold absolute_msec. w_step. cbn zeta.
  match goal with |- context [u64 ?z] => assert (Hu : 0 <= u64 z < 2 ^ 64) by (unfold u64; apply Z.mod_pos_bound; lia); set (u := u64 z) in * end.
  assert (Ht : 0 <= Z.quot u 10000 <= 2 ^ 62).
  { split; [apply Z.quot_pos; lia|]. apply Z.quot_le_upper_bound; lia. }
  unfold s64. rewrite signed_id by (simpl; lia). apply wp_int64; [lia|]. wp_simpl.
  apply HQ; [|done]. destruct (Z.ltb_spec (ms - Z.quot u 10000) 0); lia.
Qed.

Lemma filetime_ok ms (Q : Z -> world K -> Prop) w :
  0 <= ms <= 9 * 10 ^ 14 -> (forall d, Q d w) -> wp (convert_msec_to_filetime ms) Q w.
Proof.
  intros Hms HQ. unfold convert_msec_to_filetime. wp_simpl. apply wp_int64; [lia|]. wp_simpl.
  apply wp_int64; [lia|]. wp_simpl. apply wp_int64; [lia|]. apply HQ.
Qed.

Lemma win_timer_create_ok i m w0 q p kn w :
  wst m 0 w0 q p kn w -> filter_ (kev kn) = EVFILT_TIMER -> has (kn_flags kn) KNFL_KNOTE_DELETED = false ->
  0 <= kn_ref kn < 2 ^ 32 - 1 -> timer_range (kev kn) ->
  wp (windows_evfilt_timer_knote_create (q, i) p) (fun _ w' => runs m w0 q p w') w.
Proof.
  intros Hs Hf Hd Hr Ht. unfold windows_evfilt_timer_knote_create. w_step. destruct (_ && _); [w_step; by eapply runs_intro|].
  do 2 w_step. destruct o as [th|]; [|wp_simpl; by eapply runs_intro]. w_step. simpl.
  eapply (convert_msec_ok (kev kn)); [done|]. intros ms Hms. wp_simpl.
  assert (Hgo : forall d w3 per, 0 <= d <= 9 * 10 ^ 14 -> wst m 0 w0 q p (set_kev (map_flags (fun x => setb x EV_CLEAR) (kev kn)) kn) w3 ->
    wp (convert_msec_to_filetime d) (fun due s => wp (let! ok := win_ok (WinSetTimer th due per) in
      if ok then timer_wait p th else win (WinCloseHandle th) ;;; ret (-1)) (fun _ w' => runs m w0 q p w') s) w3).
  { intros d w3 per Hd3 Hs3. apply filetime_ok; [done|]. intros due. w_step. destruct b.
    - by eapply timer_wait_ok.
    - w_step. by eapply runs_intro. }
  destruct (has (fflags (kev kn)) NOTE_ABSOLUTE); wp_simpl.
  - eapply absolute_msec_ok; [exact Hs1|done|]. intros d w3 Hd3 Hs3. wp_simpl. cbn zeta. wp_simpl. by apply Hgo.
  - cbn zeta. wp_simpl. apply Hgo; [lia|done].
Qed.

Lemma win_timer_modify_ok i w q p kn k :
  wpre w q i p kn -> wnew w q kn -> i = 6%nat -> timer_range k ->
  wp (windows_evfilt_timer_knote_modify (q, i) p k) (fun _ w' => runs 0 w q p w') w.
Proof.
  intros Hp Hn -> Ht. pose proof (wpre_start _ _ _ _ _ Hp) as Hs. pose proof (wp_slot _ _ _ _ _ Hp) as Hf.
  assert (Hf' : filter_ (kev kn) = EVFILT_TIMER) by (unfold Z.lnot, EVFILT_TIMER in *; lia). clear Hf.
  unfold windows_evfilt_timer_knote_modify, windows_evfilt_timer_knote_delete. wp_simpl. eapply wp_mono; [|eapply ktimer_delete_ok; [exact Hs|done|done|right; apply Hp]].
  intros rv w1 (_ & c & Hs1 & Hc). destruct (rv <? 0); wp_simpl; [by eapply runs_intro|]. w_step.
  pose proof (ws_alive _ _ _ _ _ _ _ Hs1 (wp_live _ _ _ _ _ Hp)). simpl in *. pose proof (wn_room _ _ _ Hn).
  eapply win_timer_create_ok; [eassumption|done|apply Hp|simpl; lia|done].
Qed.

(** The callback: a one-shot timer gives its reference back. *)
(** How a callback of the thread pool ends: it has posted a completion, which took a
    reference, and given back [give] of its own, or it had nothing to post or could not. *)
Definition counted (skip : Prop) (give : Z) w q p kn w' : Prop :=
  exists b : bool, wst (Z.b2z b) 0 w q p (set_kn_ref (kn_ref kn + (if b then 1 - give else 0)) kn) w' /\
    if b then 0 < tok w' p else skip \/ ~ posts_always (K := K).

Lemma counted_skip (skip : Prop) give w q p kn w' : wst 0 0 w q p kn w' -> skip -> counted skip give w q p kn w'.
Proof.
  intros Hs Hk. exists false. split; [|by left]. rewrite Z.add_0_r. by replace (set_kn_ref (kn_ref kn) kn) with kn by (by destruct kn).
Qed.

Lemma counted_post (skip : Prop) w q p kn w1 :
  wst 0 0 w q p kn w1 -> - EVFILT_SYSCOUNT <= filter_ (kev kn) < 0 -> has (kn_flags kn) KNFL_KNOTE_DELETED = false ->
  0 <= kn_ref kn < 2 ^ 32 - 1 -> wp (retain_and_post p) (fun _ w' => counted skip 0 w q p kn w') w1.
Proof.
  intros Hs Hf Hd Hr. eapply ws_retain_post; [exact Hs|lia|done..|]. intros b w' Hs' [_ Ht]. exists b.
  destruct b; (split; [exact Hs'|]); [exact Ht|by right].
Qed.

(** Looking up the filter of the knote. *)
Lemma wp_lookup_filter (Q : option filt_ref -> world K -> Prop) m n w q p kn w1 :
  winv w -> wst m n w q p kn w1 -> - EVFILT_SYSCOUNT <= filter_ (kev kn) < 0 ->
  (forall o w2, wst m n w q p kn w2 -> w_os w2 = w_os w1 -> Q o w2) -> wp (filter_lookup q (filter_ (kev kn))) Q w1.
Proof.
  intros Hw Hs Hf HQ. assert (He : forall e, wst m n w q p kn (set_w_errno e w1)).
  { intros e. eapply wst_data; [exact Hs|by repeat split|by repeat split|apply os_le_refl]. }
  unfold filter_lookup, set_errno. destruct (_ || _); [wp_simpl; by apply HQ|].
  destruct (ws_kq _ _ _ _ _ _ _ Hs) as [kq Eq]. pose proof (wf_kqs _ _ _ _ (ws_frame _ _ _ _ _ _ _ Hs)) as Hkq.
  pose proof (inv_slots _ _ _ (wi_kq _ Hw q kq ltac:(congruence))) as Hlen.
  destruct (kq_filt kq !! Z.to_nat (Z.lnot (filter_ (kev kn)))) as [x|] eqn:Ex.
  2: { apply lookup_ge_None in Ex. rewrite Hlen in Ex. unfold EVFILT_SYSCOUNT, Z.lnot in *. lia. }
  cbn zeta. wp_simpl. eapply wp_get_filt; [exact Eq|exact Ex|]. cbn beta. destruct (kf_impl x); wp_simpl; by apply HQ.
Qed.

Lemma timer_callback_ok w q p kn :
  let give := Z.b2z (has (flags (kev kn)) EV_ONESHOT) in
  wst 0 give w q p kn w -> - EVFILT_SYSCOUNT <= filter_ (kev kn) < 0 ->
  has (kn_flags kn) KNFL_KNOTE_DELETED = false -> 0 <= kn_ref kn < 2 ^ 32 - 1 -> winv w ->
  wp (evfilt_timer_callback p false) (fun _ w' => counted (kn_fire_count (wkn w p) <> 0) give w q p kn w') w.
Proof.
  intros give Hs Hf Hd Hr Hw. assert (Hg : 0 <= give) by (unfold give; destruct (has _ _); simpl; lia).
  unfold evfilt_timer_callback. w_step. rewrite Hd. wp_simpl. rewrite (ws_q _ _ _ _ _ _ _ Hs). do 2 w_step.
  destruct (Z.eqb_spec (kn_fire_count (wkn w p)) 0) as [Hz|Hz]; cbn [negb]; wp_simpl.
  2: { apply counted_skip; [eapply ws_weaken; [eassumption|lia|done]|done]. }
  eapply ws_retain_post; [eassumption|done|done|done|done|]. intros b w2 Hs2 [E2 Ht]. wp_simpl. destruct b; simpl in Hs2, Ht |- *.
  - w_step. cbn [kev set_kn_ref]. unfold give in *. destruct (has (flags (kev kn)) EV_ONESHOT) eqn:Ho; wp_simpl; [|by exists true].
    eapply (wp_lookup_filter _ _ _ w q p (set_kn_ref (kn_ref kn + 1) kn)); [done|exact Hs2|done|]. intros o w3 Hs3 Ho3. wp_simpl.
    eapply ws_release_os; [exact Hs3|apply ws_alive in Hs3; [simpl in *; lia|done]|]. intros w4 Hs4 _ Ho4.
    exists true. simpl in Hs4 |- *. replace (kn_ref kn + 1 - 1) with (kn_ref kn + 0) in Hs4 by lia. split; [exact Hs4|].
    unfold tok in *. by rewrite Ho4, Ho3.
  - eapply ws_upd_wkn; [exact Hs2|w_calm|]. intros w3 Hs3 _. exists false. split; [by eapply ws_weaken|by right].
Qed.

(** ** EVFILT_READ and EVFILT_WRITE *)

(** The knote with other flags of its own. *)
Definition typed m w0 q p kn w : Prop :=
  exists fl, wst m 0 w0 q p (set_kn_flags fl kn) w /\ has fl KNFL_KNOTE_DELETED = has (kn_flags kn) KNFL_KNOTE_DELETED.

Lemma ws_mark fl (Q : unit -> world K -> Prop) m w0 q p kn w :
  has fl KNFL_KNOTE_DELETED = false -> typed m w0 q p kn w ->
  (forall w', typed m w0 q p kn w' -> Q tt w') -> wp (win_mark fl p) Q w.
Proof.
  intros Hfl (fl0 & Hs & Hd) HQ. unfold win_mark.
  assert (Hd' : has (setb fl0 fl) KNFL_KNOTE_DELETED = has (kn_flags kn) KNFL_KNOTE_DELETED)
    by (by rewrite has_setb, Hfl, orb_false_r).
  eapply ws_upd_kn; [exact Hs| |done|done|].
  - unfold kn_id. simpl. congruence.
  - intros w' Hs' _. apply HQ. by exists (setb fl0 fl).
Qed.

Lemma typed_start m w0 q p kn w : wst m 0 w0 q p kn w -> typed m w0 q p kn w.
Proof. intros Hs. exists (kn_flags kn). split; [|done]. by replace (set_kn_flags (kn_flags kn) kn) with kn by (by destruct kn). Qed.

Lemma type_ok m w0 q p kn w :
  wst m 0 w0 q p kn w -> wp (windows_get_descriptor_type p) (fun _ w' => typed m w0 q p kn w') w.
Proof.
  intros Hs. unfold windows_get_descriptor_type. w_step. cbn zeta. w_step. destruct o as [st|].
  - w_step. apply (wp_mono _ (fun _ w' => typed m w0 q p kn w')).
    + intros _ w3 Ht. wp_simpl. destruct (_ =? SOCK_STREAM); wp_simpl; [|done]. by eapply ws_mark; [done|exact Ht|].
    + apply typed_start in Hs1. destruct o as [l|]; [|by wp_simpl]. destruct (l =? 0); [by wp_simpl|].
      by eapply ws_mark; [done|exact Hs1|].
  - w_step. destruct o as [h|]; [|wp_simpl; by apply typed_start]. w_step. apply typed_start in Hs2.
    destruct (bool_decide _); (eapply ws_mark; [done|exact Hs2|]); intros; by wp_simpl.
Qed.

Lemma synthetic_post_ok m w0 q p kn w :
  wst m 0 w0 q p kn w -> - EVFILT_SYSCOUNT <= filter_ (kev kn) < 0 -> has (kn_flags kn) KNFL_KNOTE_DELETED = false ->
  0 <= kn_ref kn < 2 ^ 32 - 1 ->
  wp (retain_and_post p) (fun ok s => wp (ret (if ok then 0 else -1)) (fun _ w' => runs (m + 1) w0 q p w') s) w.
Proof.
  intros Hs Hf Hd Hr. eapply ws_retain_post; [exact Hs|lia|done..|]. intros b w' Hs' _. wp_simpl. eapply runs_intro; [exact Hs'|destruct b; simpl; lia].
Qed.

Lemma read_create_pipe_ok m w0 q p kn w :
  wst m 0 w0 q p kn w -> filter_ (kev kn) = EVFILT_READ -> has (kn_flags kn) KNFL_KNOTE_DELETED = false ->
  0 <= kn_ref kn < 2 ^ 32 - 1 -> pipe_free w0 q (s32 (ident (kev kn))) ->
  wp (evfilt_read_knote_create_pipe p) (fun _ w' => runs (m + 1) w0 q p w') w.
Proof.
  intros Hs Hf Hd Hr Hpf. unfold evfilt_read_knote_create_pipe, associate_pipe. do 2 w_step.
  destruct o as [ph|]; [|wp_simpl; eapply runs_intro; [eassumption|lia]]. simpl in Ha.
  pose proof (pipe_free_wst _ _ _ _ _ _ _ _ Hs Hpf) as [_ Hu0]. pose proof (ik_osf _ _ _ _ Ha) as Hph.
  destruct (pipe_free_wst _ _ _ _ _ _ _ _ Hs0 Hpf) as [Ho1 Hu1].
  replace (ik_handle (w_os w1) (s32 (ident (kev kn)))) with ph in Ho1, Hu1.
  2: { rewrite Hph. symmetry. apply Hl. }
  w_step. rewrite (ws_q _ _ _ _ _ _ _ Hs0). w_step. eapply ws_associate; [exact Hs0|done|done|]. intros b w2 Hs2 He2 Ho2.
  w_step. destruct (negb _); wp_simpl; [eapply runs_intro; [eassumption|lia]|].
  eapply ws_set_handles; [exact Hs2|by rewrite Hf|done|done|]. intros w3 Hs3 _ E3. wp_simpl.
  eapply ws_retain; [exact Hs3|done|]. intros w4 Hs4 _ E4. wp_simpl. eapply ws_read; [exact Hs4| |done|].
  { eapply own_handle_os; [exact Hs2|exact Hs4|congruence|done]. }
  intros ok w5 H1' H2' _. wp_simpl. unfold get_last_error. wp_simpl.
  destruct (ok || _); wp_simpl; [specialize (H1' eq_refl); by eexists|specialize (H2' eq_refl)].
  eapply ws_release; [exact H2'|apply ws_alive in H2'; [simpl in *; lia|done]|]. intros w6 Hs6 _. wp_simpl.
  eapply runs_intro; [exact Hs6|lia].
Qed.

Lemma socket_pending_ok evt m w0 q p kn w :
  wst m 0 w0 q p kn w -> wp (socket_pending p evt) (fun _ w' => wst m 0 w0 q p kn w') w.
Proof.
  intros Hs. unfold socket_pending, latch_eof. w_step. cbn zeta. w_step.
  apply (wp_mono _ (fun _ w' => wst m 0 w0 q p kn w')).
  - intros synth w2 Hs2. wp_simpl. destruct (_ && _); wp_simpl; [|done]. w_step. by wp_simpl.
  - destruct o as [[ev ce]|]; wp_simpl; [|done]. destruct (_ && _); wp_simpl; [|done]. by w_step.
Qed.

Lemma optional_post_ok (b : bool) m w0 q p kn w :
  wst m 0 w0 q p kn w -> - EVFILT_SYSCOUNT <= filter_ (kev kn) < 0 -> has (kn_flags kn) KNFL_KNOTE_DELETED = false ->
  0 <= kn_ref kn < 2 ^ 32 - 1 ->
  wp (if b then retain_and_post p ;;; ret tt else ret tt) (fun _ w' => runs (m + 1) w0 q p w') w.
Proof.
  intros Hs Hf Hd Hr. destruct b; wp_simpl; [|eapply runs_intro; [exact Hs|lia]].
  eapply ws_retain_post; [exact Hs|lia|done..|]. intros b w' Hs' _. wp_simpl. eapply runs_intro; [exact Hs'|destruct b; simpl; lia].
Qed.

Lemma read_create_socket_ok m w0 q p kn w :
  wst m 0 w0 q p kn w -> filter_ (kev kn) = EVFILT_READ -> has (kn_flags kn) KNFL_KNOTE_DELETED = false ->
  0 <= kn_ref kn < 2 ^ 32 - 1 -> wp (evfilt_read_knote_create_socket p) (fun _ w' => runs (m + 1) w0 q p w') w.
Proof.
  intros Hs Hf Hd Hr. assert (Hend : forall w', wst m 0 w0 q p kn w' -> runs (m + 1) w0 q p w') by (intros; eapply runs_intro; [eassumption|lia]).
  unfold evfilt_read_knote_create_socket. w_step. destruct o as [evt|]; [|wp_simpl; by apply Hend]. simpl in Ha.
  pose proof (ik_event _ _ _ _ Ha) as Hev. do 2 w_step. destruct b; simpl; [|w_step; by apply Hend].
  w_step. eapply ws_set_handles; [eassumption|by rewrite Hf|done| |].
  { intros _ port key Ek. simpl in Ek. assert (Hle : os_le (w_os w1) (w_os w3)) by (by eapply os_le_trans).
    destruct Hle as (_ & Hle & _). destruct (Hle evt) as [E|E]; congruence. }
  intros w4 Hs4 _ _. w_step. destruct o0 as [wh|]; [|w_step; by apply Hend]. wp_simpl.
  eapply ws_set_handles; [eassumption|by rewrite Hf|done| |].
  { intros _. eapply io_reads; [apply Hs3|apply Hs3|apply Hs3|done]. }
  intros w6 Hs6 _ _. wp_simpl. eapply wp_mono; [|by eapply socket_pending_ok]. intros synth w7 Hs7. cbn beta. wp_simpl.
  eapply wp_mono; [|by eapply optional_post_ok; [exact Hs7|rewrite Hf; unfold EVFILT_READ, EVFILT_SYSCOUNT; lia|..]].
  intros u w8 Hr8. by wp_simpl.
Qed.

Lemma win_read_create_ok i m w0 q p kn w :
  wst m 0 w0 q p kn w -> filter_ (kev kn) = EVFILT_READ -> has (kn_flags kn) KNFL_KNOTE_DELETED = false ->
  0 <= kn_ref kn < 2 ^ 32 - 1 -> pipe_free w0 q (s32 (ident (kev kn))) ->
  wp (windows_evfilt_read_knote_create (q, i) p) (fun _ w' => runs (m + 1) w0 q p w') w.
Proof.
  intros Hs Hf Hd Hr Hpf. unfold windows_evfilt_read_knote_create. wp_simpl. eapply wp_mono; [|by eapply type_ok].
  intros rv w1 (fl & Hs1 & Hfl). cbn beta. destruct (rv <? 0); wp_simpl; [eapply runs_intro; [exact Hs1|lia]|]. w_step.
  simpl. destruct (has fl KNFL_FILE); [|destruct (has fl KNFL_PIPE)].
  - unfold evfilt_read_knote_create_file. w_step. eapply synthetic_post_ok; [eassumption| |simpl; congruence|done].
    simpl. rewrite Hf. unfold EVFILT_READ, EVFILT_SYSCOUNT. lia.
  - eapply read_create_pipe_ok; [exact Hs1|done|simpl; congruence|done|done].
  - eapply read_create_socket_ok; [exact Hs1|done|simpl; congruence|done].
Qed.

(** Tearing down posts nothing and, where Windows does not refuse, succeeds. *)
Lemma delete_socket_ok m n w0 q p kn w :
  wst m n w0 q p kn w -> wp (evfilt_read_knote_delete_socket p) (fun rv w' => rv <= 0 /\ wst m n w0 q p kn w') w.
Proof. intros Hs. unfold evfilt_read_knote_delete_socket. w_go; done. Qed.

Lemma read_delete_ok i m n w0 q p kn w :
  wst m n w0 q p kn w ->
  wp (windows_evfilt_read_knote_delete (q, i) p) (fun rv w' => rv <= 0 /\ wst m n w0 q p kn w') w.
Proof.
  intros Hs. unfold windows_evfilt_read_knote_delete, evfilt_read_knote_delete_file, evfilt_read_knote_delete_pipe. w_step.
  destruct (rd_file_synthetic _); [by w_step|]. w_step. destruct (has _ KNFL_PIPE); [w_go; done|by apply delete_socket_ok].
Qed.

Lemma refresh_ok k (Q : unit -> world K -> Prop) m n w0 q p kn w :
  wst m n w0 q p kn w -> (forall w', wst m n w0 q p (set_kev (set_data (data k) (set_fflags (fflags k) (kev kn))) kn) w' -> Q tt w') ->
  wp (refresh p k) Q w.
Proof. intros Hs HQ. unfold refresh. w_step. by apply HQ. Qed.

Lemma win_read_modify_ok i w q p kn k :
  wpre w q i p kn -> wnew w q kn -> i = 0%nat ->
  wp (windows_evfilt_read_knote_modify (q, i) p k) (fun _ w' => runs 1 w q p w') w.
Proof.
  intros Hp Hn ->. pose proof (wpre_start _ _ _ _ _ Hp) as Hs. pose proof (wp_slot _ _ _ _ _ Hp) as Hf.
  assert (Hf' : filter_ (kev kn) = EVFILT_READ) by (unfold Z.lnot, EVFILT_READ in *; lia). clear Hf.
  unfold windows_evfilt_read_knote_modify. w_step. destruct (has _ KNFL_PIPE); wp_simpl.
  - eapply refresh_ok; [exact Hs|]. intros w1 Hs1. wp_simpl. eapply runs_intro; [exact Hs1|lia].
  - eapply wp_mono; [|by eapply read_delete_ok]. intros rv w1 [_ Hs1]. cbn beta.
    destruct (rv <? 0); wp_simpl; [eapply runs_intro; [exact Hs1|lia]|].
    eapply refresh_ok; [exact Hs1|]. intros w2 Hs2. pose proof (wn_room _ _ _ Hn).
    apply (win_read_create_ok 0 0 w q p _ w2 Hs2); [done|apply Hp|simpl; lia|apply Hn].
Qed.

Lemma win_write_create_ok i m w0 q p kn w :
  wst m 0 w0 q p kn w -> filter_ (kev kn) = EVFILT_WRITE -> has (kn_flags kn) KNFL_KNOTE_DELETED = false ->
  0 <= kn_ref kn < 2 ^ 32 - 1 -> wp (windows_evfilt_write_knote_create (q, i) p) (fun _ w' => runs (m + 1) w0 q p w') w.
Proof.
  intros Hs Hf Hd Hr. unfold windows_evfilt_write_knote_create. wp_simpl. eapply wp_mono; [|by eapply type_ok].
  intros rv w1 (fl & Hs1 & Hfl). cbn beta. destruct (rv <? 0); wp_simpl; [eapply runs_intro; [exact Hs1|lia]|]. w_step.
  assert (Hrange : - EVFILT_SYSCOUNT <= filter_ (kev (set_kn_flags fl kn)) < 0) by (simpl; rewrite Hf; unfold EVFILT_WRITE, EVFILT_SYSCOUNT; lia).
  assert (Hlive : has (kn_flags (set_kn_flags fl kn)) KNFL_KNOTE_DELETED = false) by (simpl; congruence).
  change (kn_ref kn) with (kn_ref (set_kn_flags fl kn)) in Hr. change (kev kn) with (kev (set_kn_flags fl kn)) in Hf.
  set (kn1 := set_kn_flags fl kn) in *. destruct (has (kn_flags kn1) (Z.lor KNFL_FILE KNFL_PIPE)).
  - unfold write_create_synthetic. w_step.
    assert (Hgo : forall h w2, wst m 0 w0 q p kn1 w2 ->
      wp (upd_wkn p (fun x => set_wr_pipe_eof false (set_wr_file_synthetic true (set_kn_event_whandle 0 (set_kn_handle h x)))))
        (fun _ s => wp (let! ok := retain_and_post p in ret (if ok then 0 else -1)) (fun _ w' => runs (m + 1) w0 q p w') s) w2).
    { intros h w2 Hs2. eapply ws_set_handles; [exact Hs2|by rewrite Hf|done|by rewrite Hf|]. intros w3 Hs3 _ _.
      wp_simpl. by eapply synthetic_post_ok; [exact Hs3|..]. }
    destruct (has (kn_flags kn1) KNFL_PIPE); wp_simpl; [w_step; by apply (Hgo (default (-1) o))|by apply (Hgo 0)].
  - unfold write_create_socket. w_step. destruct o as [evt|]; [|wp_simpl; eapply runs_intro; [eassumption|lia]]. do 2 w_step.
    destruct b; simpl; [|w_step; eapply runs_intro; [eassumption|lia]]. do 2 w_step.
    eapply ws_set_handles; [eassumption|by rewrite Hf|done|by rewrite Hf|]. intros w6 Hs6 _ _. w_step.
    destruct o1 as [wh|]; [|do 2 w_step; eapply runs_intro; [eassumption|lia]]. wp_simpl.
    eapply ws_set_handles; [eassumption|by rewrite Hf|done|by rewrite Hf|]. intros w8 Hs8 _ _. w_step.
    eapply wp_mono; [|by eapply optional_post_ok; [eassumption|..]]. intros u w10 Hr10. by wp_simpl.
Qed.

Lemma win_write_modify_ok i w q p kn k :
  wpre w q i p kn -> wnew w q kn -> i = 1%nat ->
  wp (windows_evfilt_write_knote_modify (q, i) p k) (fun _ w' => runs 1 w q p w') w.
Proof.
  intros Hp Hn ->. pose proof (wpre_start _ _ _ _ _ Hp) as Hs. pose proof (wp_slot _ _ _ _ _ Hp) as Hf.
  assert (Hf' : filter_ (kev kn) = EVFILT_WRITE) by (unfold Z.lnot, EVFILT_WRITE in *; lia). clear Hf.
  unfold windows_evfilt_write_knote_modify, windows_evfilt_write_knote_delete. wp_simpl.
  eapply wp_mono; [|by eapply delete_socket_ok]. intros rv w1 [_ Hs1]. cbn beta.
  destruct (rv <? 0); wp_simpl; [eapply runs_intro; [exact Hs1|lia]|].
  eapply refresh_ok; [exact Hs1|]. intros w2 Hs2. pose proof (wn_room _ _ _ Hn).
  apply (win_write_create_ok 1 0 w q p _ w2 Hs2); [done|apply Hp|simpl; lia].
Qed.
End Contract.
