(* ===== verification/WinVnodeRules.v ===== *)
(** * EVFILT_VNODE keeps the references and owns its files

    Rules for the heap of [struct vnode_state] and the callbacks of vnode.c. *)

From Stdlib Require Import ZArith Lia Bool.
From stdpp Require Import base list gmap.
From S2P Require Import Prelude RBTree Event Map State Ops Knote Filter Kqueue WinPlatform WinKernel WinUser WinRules WinReadWrite WinVnode WinContracts.

Section Vnode.
Context {K : Type} `{IocpKernel K} `{FilterList K}.
Implicit Types (w : world K) (p q r v : ptr) (kn : knote) (m n : Z).

Definition with_vnodes w (vs : gmap ptr vnode_state) : world K := set_w_wn (set_wn_vnodes vs (w_wn w)) w.

(** The state at [v] is allocated and no knote has it. *)
Definition loose v w : Prop :=
  (v < w_next w)%positive /\ is_Some (wn_vnodes (w_wn w) !! v) /\
  forall r kr, w_knotes w !! r = Some kr -> kn_vs (wkn w r) <> Some v.

Lemma loose_same v w w' : loose v w -> same_data w w' -> loose v w'.
Proof.
  intros (A & B & C) Hd. pose proof (fun r => same_wkn _ _ r Hd) as Hx. destruct Hd as (D1 & D2 & D3 & D4 & D5).
  split_and!; [lia|by rewrite D4|]. intros r kr. rewrite D1, Hx. apply C.
Qed.

Lemma same_data_trans w1 w2 w3 : same_data w1 w2 -> same_data w2 w3 -> same_data w1 w3.
Proof. intros (A & B & C & D & E) (A' & B' & C' & D' & E'). split_and!; try congruence. lia. Qed.

Lemma wst_vnodes vs m n w0 q p kn w :
  wst m n w0 q p kn w ->
  (forall r kr v, w_knotes w !! r = Some kr -> kn_vs (wkn w r) = Some v -> is_Some (vs !! v)) ->
  wst m n w0 q p kn (with_vnodes w vs).
Proof.
  intros [A [B1 B2 B3 B4 B5] C D E] Hv. split; try done.
  - replace m with (m + 0) by lia. eapply wframe_trans; [exact A|]. split; simpl; try done; try lia.
    intros r. change (tok (with_vnodes w vs) r) with (tok w r). lia.
  - split; try done. intros r kr v Er Ev. destruct (B5 r kr v Er Ev) as (_ & ? & ?). split_and!; [by eapply Hv|done|done].
Qed.

Lemma ws_get_vs v (Q : vnode_state -> world K -> Prop) w :
  is_Some (wn_vnodes (w_wn w) !! v) -> (forall s, Q s w) -> wp (get_vs v) Q w.
Proof. intros [s E] HQ. unfold get_vs. wp_simpl. rewrite E. apply HQ. Qed.

Lemma ws_upd_vs v g (Q : unit -> world K -> Prop) m n w0 q p kn w :
  wst m n w0 q p kn w -> is_Some (wn_vnodes (w_wn w) !! v) ->
  (forall w', wst m n w0 q p kn w' -> (forall u, loose u w -> loose u w') -> wkn w' p = wkn w p -> Q tt w') ->
  wp (upd_vs v g) Q w.
Proof.
  intros Hs Hv HQ. unfold upd_vs, put_vs, upd_wn. wp_simpl. apply ws_get_vs; [done|]. intros s. wp_simpl.
  change (set_w_wn _ w) with (with_vnodes w (<[v := g s]> (wn_vnodes (w_wn w)))). apply HQ; [|..|done].
  - eapply wst_vnodes; [exact Hs|]. intros r kr u Er Eu. destruct (io_vs _ _ _ (ws_io _ _ _ _ _ _ _ Hs) _ _ _ Er Eu) as (Hu & _).
    destruct (decide (u = v)) as [->|Hne]; [rewrite lookup_insert_eq; eauto|by rewrite lookup_insert_ne].
  - intros u (L1 & L2 & L3). split_and!; [done| |done]. simpl.
    destruct (decide (u = v)) as [->|Hne]; [rewrite lookup_insert_eq; eauto|by rewrite lookup_insert_ne].
Qed.

Lemma ws_free_vs v (Q : unit -> world K -> Prop) m n w0 q p kn w :
  wst m n w0 q p kn w -> loose v w -> (forall w', wst m n w0 q p kn w' -> Q tt w') -> wp (free_vs v) Q w.
Proof.
  intros Hs (L1 & L2 & L3) HQ. unfold free_vs, upd_wn. wp_simpl. apply ws_get_vs; [done|]. intros s. wp_simpl.
  change (set_w_wn _ w) with (with_vnodes w (delete v (wn_vnodes (w_wn w)))). apply HQ.
  eapply wst_vnodes; [exact Hs|]. intros r kr u Er Eu. destruct (io_vs _ _ _ (ws_io _ _ _ _ _ _ _ Hs) _ _ _ Er Eu) as (Hu & _).
  rewrite lookup_delete_ne; [done|]. intros ->. by eapply L3.
Qed.

(** A new state. *)
Lemma ws_alloc_vs s (Q : Z -> world K -> Prop) m n w0 q p kn w (f : ptr -> M (world K) Z) :
  wst m n w0 q p kn w -> (forall w', wst m n w0 q p kn w' -> Q (-1) w') ->
  (forall v w', wst m n w0 q p kn w' -> loose v w' -> wp (f v) Q w') ->
  wp (let! o := alloc in match o with None => ret (-1) | Some v => put_vs v s ;;; f v end) Q w.
Proof.
  intros Hs H1' H2'. unfold alloc. wp_simpl. eapply ws_sys; [done|exact Hs|]. intros [[]|] w1 Hs1 He _ _; wp_simpl; [|by apply H1'].
  unfold put_vs, upd_wn. wp_simpl. apply H2'.
  - set (w2 := set_w_next (Pos.succ (w_next w1)) w1). assert (Hs2 : wst m n w0 q p kn w2).
    { eapply wst_data; [exact Hs1|unfold w2; repeat split; simpl; lia|by repeat split|apply os_le_refl]. }
    change (set_w_wn _ w2) with (with_vnodes w2 (<[w_next w1 := s]> (wn_vnodes (w_wn w1)))). eapply wst_vnodes; [exact Hs2|].
    intros r kr u Er Eu. destruct (io_vs _ _ _ (ws_io _ _ _ _ _ _ _ Hs1) _ _ _ Er Eu) as (Hu & Hlt & _).
    rewrite lookup_insert_ne; [done|]. intros <-. lia.
  - split_and!; simpl; [lia|rewrite lookup_insert_eq; eauto|]. intros r kr Er Eu.
    destruct (io_vs _ _ _ (ws_io _ _ _ _ _ _ _ Hs1) _ _ _ Er Eu) as (Hu & Hlt & _). lia.
Qed.

(** Calls that look at the file only. *)
Lemma path_ok fd m n w0 q p kn w :
  wst m n w0 q p kn w -> wp (vnode_path_from_fd fd) (fun _ w' => wst m n w0 q p kn w' /\ same_data w w') w.
Proof.
  intros Hs. unfold vnode_path_from_fd.
  w_go; (split; [assumption|]); eauto using same_data_trans.
Qed.

Lemma look_ok fd m n w0 q p kn w :
  wst m n w0 q p kn w -> wp (vnode_look fd) (fun _ w' => wst m n w0 q p kn w' /\ same_data w w') w.
Proof.
  intros Hs. unfold vnode_look, vnode_query. w_go; (split; [assumption|]); eauto using same_data_trans.
Qed.

Lemma ws_set_vs v (Q : unit -> world K -> Prop) m n w0 q p kn w :
  wst m n w0 q p kn w -> loose v w ->
  (forall w', wst m n w0 q p kn w' -> kn_vs (wkn w' p) = Some v -> Q tt w') -> wp (upd_wkn p (set_kn_vs (Some v))) Q w.
Proof.
  intros Hs (L1 & L2 & L3) HQ. eapply wp_upd_wkn; [exact Hs|]. apply HQ; [|rewrite wkn_with; by rewrite decide_True].
  eapply ws_with_wkn; [exact Hs|unfold share, timer_holds; simpl; lia| |].
  - intros Hf. eapply io_reads; [apply Hs..|done].
  - intros v' [= <-]. by right.
Qed.

(** The knote gives up its state, which nobody else has. *)
Lemma ws_unset_vs v (Q : unit -> world K -> Prop) m n w0 q p kn w :
  wst m n w0 q p kn w -> kn_vs (wkn w p) = Some v ->
  (forall w', wst m n w0 q p kn w' -> loose v w' -> Q tt w') -> wp (upd_wkn p (set_kn_vs None)) Q w.
Proof.
  intros Hs Ev HQ. destruct (io_vs _ _ _ (ws_io _ _ _ _ _ _ _ Hs) _ _ _ (ws_kn _ _ _ _ _ _ _ Hs) Ev) as (L1 & L2 & L3).
  eapply wp_upd_wkn; [exact Hs|]. apply HQ.
  - eapply ws_with_wkn; [exact Hs|unfold share, timer_holds; simpl; lia| |done].
    intros Hf. eapply io_reads; [apply Hs..|done].
  - split_and!; [done..|]. intros r kr Er. rewrite wkn_with. case_decide as Hr; [done|]. intros E. by destruct Hr; eapply L3.
Qed.

(** [free(vs); kn->kn_handle = NULL;] *)
Lemma ws_drop_vs v (Q : Z -> world K -> Prop) m n w0 q p kn w :
  wst m n w0 q p kn w -> kn_vs (wkn w p) = Some v -> (forall w', wst m n w0 q p kn w' -> Q 0 w') ->
  wp (free_vs v ;;; upd_wkn p (set_kn_vs None) ;;; ret 0) Q w.
Proof.
  intros Hs Ev HQ. destruct (io_vs _ _ _ (ws_io _ _ _ _ _ _ _ Hs) _ _ _ (ws_kn _ _ _ _ _ _ _ Hs) Ev) as (L1 & _).
  unfold free_vs, upd_wn. wp_simpl. apply ws_get_vs; [done|]. intros s. wp_simpl.
  unfold upd_wkn, get_wkn, upd_wn. wp_simpl. eapply wp_get_kn; [simpl; apply Hs|]. wp_simpl.
  match goal with |- Q 0 ?w' => change w' with
    (with_vnodes (with_wkn w p (set_kn_vs None (wkn w p))) (delete v (wn_vnodes (w_wn w)))) end.
  apply HQ. eapply wst_vnodes.
  - eapply ws_with_wkn; [exact Hs|unfold share, timer_holds; simpl; lia| |done].
    intros Hf. eapply io_reads; [apply Hs..|done].
  - intros r kr u Er. rewrite wkn_with. case_decide as Hr; [done|]. intros Eu.
    destruct (io_vs _ _ _ (ws_io _ _ _ _ _ _ _ Hs) _ _ _ Er Eu) as (Hu & _ & Hx).
    rewrite lookup_delete_ne; [done|]. intros <-. destruct Hr. symmetry. by eapply Hx; [apply Hs|].
Qed.

Lemma vnode_watch_ok parent v m w0 q p kn w :
  wst m 0 w0 q p kn w -> loose v w -> filter_ (kev kn) = EVFILT_VNODE ->
  wp (vnode_watch p v parent) (fun _ w' => runs m w0 q p w') w.
Proof.
  intros Hs Hl Hf. assert (Herr : forall w', wst m 0 w0 q p kn w' -> loose v w' -> wp (vnode_err v) (fun _ w' => runs m w0 q p w') w').
  { intros w' Hs' Hl'. unfold vnode_err. wp_simpl. eapply ws_free_vs; [exact Hs'|done|]. intros w2 Hs2. wp_simpl. by eexists. }
  unfold vnode_watch. do 2 w_step. destruct o as [dh|]; [|apply Herr; [done|by eapply loose_same]].
  assert (Hl1 : loose v w1) by (by eapply loose_same). wp_simpl. eapply ws_upd_vs; [eassumption|apply Hl1|]. intros w2 Hs2 Hl2 _.
  wp_simpl. eapply ws_set_vs; [exact Hs2|by apply Hl2|]. intros w3 Hs3 Ev3. w_step. rewrite <- (same_wkn _ _ p He0) in Ev3.
  destruct o as [wh|]; wp_simpl.
  - eapply ws_set_handles; [eassumption|by rewrite Hf|done|by rewrite Hf|]. intros w5 Hs5 _ _. wp_simpl. by eexists.
  - w_step. rewrite <- (same_wkn _ _ p He1) in Ev3.
    destruct (io_vs _ _ _ (ws_io _ _ _ _ _ _ _ Hs4) _ _ _ (ws_kn _ _ _ _ _ _ _ Hs4) Ev3) as (L1 & _).
    eapply ws_upd_vs; [eassumption|done|]. intros w6 Hs6 _ E6. wp_simpl. rewrite <- E6 in Ev3.
    eapply ws_unset_vs; [exact Hs6|exact Ev3|]. intros w7 Hs7 Hl7. by apply Herr.
Qed.

Lemma vnode_create_ok i m w0 q p kn w :
  wst m 0 w0 q p kn w -> filter_ (kev kn) = EVFILT_VNODE ->
  wp (windows_evfilt_vnode_knote_create (q, i) p) (fun _ w' => runs m w0 q p w') w.
Proof.
  intros Hs Hf. assert (Hend : forall w', wst m 0 w0 q p kn w' -> runs m w0 q p w') by (intros; by eexists).
  assert (Herr : forall v w', wst m 0 w0 q p kn w' -> loose v w' -> wp (vnode_err v) (fun _ w' => runs m w0 q p w') w').
  { intros v w' Hs' Hl'. unfold vnode_err. wp_simpl. eapply ws_free_vs; [exact Hs'|done|]. intros w2 Hs2. wp_simpl. by eexists. }
  unfold windows_evfilt_vnode_knote_create. w_step. cbn zeta. w_step. destruct o as [fh|]; [|w_step; by apply Hend].
  w_step. destruct (negb _); [w_step; by apply Hend|]. eapply ws_alloc_vs; [eassumption|done|]. intros v w3 Hs3 Hl3.
  unfold vnode_query. w_step. assert (Hl4 : loose v w4) by (by eapply loose_same). destruct o0 as [fi|]; [|by apply Herr]. wp_simpl.
  eapply ws_upd_vs; [eassumption|apply Hl4|]. intros w5 Hs5 Hl5 _. wp_simpl. eapply wp_mono; [|by eapply path_ok].
  intros path w6 [Hs6 He6]. cbn beta. assert (Hl6 : loose v w6) by (eapply loose_same; [|exact He6]; by apply Hl5).
  destruct path as [path|]; [|by apply Herr]. wp_simpl. eapply ws_upd_vs; [eassumption|apply Hl6|]. intros w7 Hs7 Hl7 _.
  unfold vnode_parent_dir. w_step. assert (Hl8 : loose v w8) by (eapply loose_same; [by apply Hl7|done]).
  destruct o0 as [[]|]; wp_simpl; [|by apply Herr]. destruct (parent_of path); [by eapply vnode_watch_ok|by apply Herr].
Qed.

Lemma vnode_delete_ok i m n w0 q p kn w :
  wst m n w0 q p kn w -> wp (windows_evfilt_vnode_knote_delete (q, i) p) (fun rv w' => rv = 0 /\ wst m n w0 q p kn w') w.
Proof.
  intros Hs. unfold windows_evfilt_vnode_knote_delete. w_step. destruct (kn_vs (wkn w p)) as [v|] eqn:Ev; wp_simpl; [|done].
  assert (Hfin : forall w1, wst m n w0 q p kn w1 -> kn_vs (wkn w1 p) = Some v ->
    wp (get_vs v) (fun s s' => wp (
      (if vs_dir_handle s =? INVALID_HANDLE_VALUE then ret tt
       else win (WinFindClose (vs_dir_handle s)) ;;; upd_vs v (set_vs_dir_handle INVALID_HANDLE_VALUE)) ;;;
      free_vs v ;;; upd_wkn p (set_kn_vs None) ;;; ret 0) (fun rv w' => rv = 0 /\ wst m n w0 q p kn w') s') w1).
  { intros w1 Hs1 Ev1. assert (Hown : forall w2, wst m n w0 q p kn w2 -> kn_vs (wkn w2 p) = Some v -> is_Some (wn_vnodes (w_wn w2) !! v)).
    { intros w2 Hs2 Ev2. by destruct (io_vs _ _ _ (ws_io _ _ _ _ _ _ _ Hs2) _ _ _ (ws_kn _ _ _ _ _ _ _ Hs2) Ev2). }
    assert (Hdrop : forall w2, wst m n w0 q p kn w2 -> kn_vs (wkn w2 p) = Some v ->
      wp (free_vs v ;;; upd_wkn p (set_kn_vs None) ;;; ret 0) (fun rv w' => rv = 0 /\ wst m n w0 q p kn w') w2).
    { intros w2 Hs2 Ev2. eapply ws_drop_vs; [exact Hs2|done|]. done. }
    apply ws_get_vs; [by apply Hown|]. intros s. destruct (_ =? INVALID_HANDLE_VALUE); [wp_simpl; rewrite <- wp_bind; by apply Hdrop|].
    w_step. rewrite <- (same_wkn _ _ p He) in Ev1. eapply ws_upd_vs; [eassumption|by apply Hown|]. intros w3 Hs3 _ E3.
    rewrite <- E3 in Ev1. by apply Hdrop. }
  destruct (_ =? 0); wp_simpl; [by apply Hfin|]. do 2 w_step. apply Hfin; [done|]. rewrite He0. simpl. by rewrite (same_wkn _ _ p He).
Qed.

Lemma vnode_modify_ok i w q p kn k :
  wpre w q i p kn -> i = 3%nat ->
  wp (windows_evfilt_vnode_knote_modify (q, i) p k) (fun _ w' => runs 0 w q p w') w.
Proof.
  intros Hp ->. pose proof (wpre_start _ _ _ _ _ Hp) as Hs. pose proof (wp_slot _ _ _ _ _ Hp) as Hf.
  assert (Hf' : filter_ (kev kn) = EVFILT_VNODE) by (unfold Z.lnot, EVFILT_VNODE in *; lia). clear Hf.
  unfold windows_evfilt_vnode_knote_modify. wp_simpl. eapply wp_mono; [|by eapply vnode_delete_ok]. intros rv w1 [-> Hs1].
  cbn beta. wp_simpl. simpl. wp_simpl. eapply refresh_ok; [exact Hs1|]. intros w2 Hs2. by eapply vnode_create_ok.
Qed.
End Vnode.
