(* ===== verification/WinDeliver.v ===== *)
(** * Delivering a completion on Windows

    A completion that was dequeued carries a reference to its knote.  Here: the state
    [cst] a copyout goes through while it holds that reference, the flag actions that
    disable, delete and free the knote on the way, and that the copyout of every filter
    gives the reference back, or hands it to the completion it posts ([WinCopyout]). *)

From Stdlib Require Import ZArith Lia Bool.
From stdpp Require Import base list gmap.
From S2P Require Import Prelude RBTree Event Map State Ops Knote Filter Kqueue WinPlatform WinKernel WinUser WinRules WinTimer WinProc WinReadWrite WinVnode WinContracts WinVnodeRules.

(** ** The kqueue that delivers *)

(** Every slot with a filter has its table. *)
Definition served {K : Type} `{FilterList K} (kq : kqueue) : Prop :=
  forall i x, kq_filt kq !! i = Some x -> is_Some (kf_impl x) -> is_Some (slot_ops i x).

(** The kqueue is locked, and its knotes that are not deleted are in the index. *)
Record disp {K : Type} `{FilterList K} (q : ptr) (w : world K) : Prop :=
  { di_winv : winv w;
    di_kq : exists kq, w_kqs w !! q = Some kq /\ kq_locked kq = true /\ served kq;
    di_reg : forall p kn, w_knotes w !! p = Some kn -> kn_kq kn = Some q ->
      has (kn_flags kn) KNFL_KNOTE_DELETED = false ->
      indexed w q (Z.to_nat (Z.lnot (filter_ (kev kn)))) (Entry (ident (kev kn)) p) }.

Lemma served_fixed {K : Type} `{FilterList K} kq kq' : kq_fixed kq' = kq_fixed kq -> served kq -> served kq'.
Proof.
  intros Hf Ht i x Hi Hz. injection Hf as _ _ _ _ Hf. apply (f_equal (lookup i)) in Hf.
  rewrite !list_lookup_fmap, Hi in Hf. destruct (kq_filt kq !! i) as [x0|] eqn:E; [|done].
  simpl in Hf. injection Hf as Hid Him. unfold slot_ops. rewrite Him. rewrite Him in Hz. by apply (Ht i x0).
Qed.

(** The callbacks that stop watching keep the references while one is held. *)
Class WinStop {K : Type} `{IocpKernel K} (i : nat) (o : filter_ops K) : Prop :=
  { so_delete : forall m n w0 q p kn w, wst m n w0 q p kn w -> 0 < n -> Z.lnot (filter_ (kev kn)) = Z.of_nat i ->
      wp (kn_delete o (q, i) p) (fun _ w' => exists kn', wst m n w0 q p kn' w') w;
    so_disable : forall m n w0 q p kn w, wst m n w0 q p kn w -> 0 < n -> Z.lnot (filter_ (kev kn)) = Z.of_nat i ->
      wp (kn_disable o (q, i) p) (fun _ w' => exists kn', wst m n w0 q p kn' w') w }.

Class WinBuild (K : Type) `{IocpKernel K} `{FilterList K} : Prop :=
  wb_filter : forall i id o, ops_table id = Some o -> Z.lnot id = Z.of_nat i -> WinStop i o.

Section Stop.
Context {K : Type} `{IocpKernel K} `{FilterList K}.

#[export] Instance user_stop : WinStop 10 (fs_ops windows_evfilt_user).
Proof. split; intros; simpl; unfold windows_evfilt_user_knote_disable, windows_evfilt_user_knote_delete; wp_simpl; by eexists. Qed.

#[export] Instance proc_stop : WinStop 4 (fs_ops windows_evfilt_proc).
Proof. split; intros; simpl; (eapply wp_mono; [|by eapply close_wait_ok]); naive_solver. Qed.

#[export] Instance signal_stop : WinStop 5 (fs_ops windows_evfilt_signal).
Proof. split; intros; simpl; (eapply wp_mono; [|by eapply close_wait_ok]); naive_solver. Qed.

#[export] Instance timer_stop : WinStop 6 (fs_ops windows_evfilt_timer).
Proof.
  split; intros; simpl; (eapply wp_mono; [|eapply ktimer_delete_ok; [eassumption|unfold Z.lnot, EVFILT_TIMER in *; lia|lia|by left]]); naive_solver.
Qed.

#[export] Instance read_stop : WinStop 0 (fs_ops windows_evfilt_read).
Proof. split; intros; simpl; (eapply wp_mono; [|by eapply read_delete_ok]); naive_solver. Qed.

#[export] Instance write_stop : WinStop 1 (fs_ops windows_evfilt_write).
Proof. split; intros; simpl; (eapply wp_mono; [|by eapply delete_socket_ok]); naive_solver. Qed.

#[export] Instance vnode_stop : WinStop 3 (fs_ops windows_evfilt_vnode).
Proof. split; intros; simpl; (eapply wp_mono; [|by eapply vnode_delete_ok]); naive_solver. Qed.
End Stop.

(** ** The state of a copyout *)

(** In [w], reached from [w0], [n] references to [p] are held and [m] completions were
    posted; the event at [el] has the filter [f]. *)
Record cst {K : Type} `{IocpKernel K} `{FilterList K} (n m : Z) (w0 : world K) (q : ptr) (i : nat) (p : ptr)
    (el f : Z) (kn : knote) (w : world K) : Prop :=
  { cs_disp : disp q w;
    cs_io : iocp_ok p n w;
    cs_kn : w_knotes w !! p = Some kn;
    cs_q : kn_kq kn = Some q;
    cs_filter : Z.lnot (filter_ (kev kn)) = Z.of_nat i;
    cs_slot : exists kq x, w_kqs w !! q = Some kq /\ kq_filt kq !! i = Some x /\ is_Some (kf_impl x);
    cs_ports : forall r, port_of w r = port_of w0 r;
    cs_mem : forall a, a <> el -> w_mem w !! a = w_mem w0 !! a;
    cs_el : exists k, w_mem w !! el = Some k /\ filter_ k = f;
    cs_len : Z.of_nat (length (ik_pending (w_os w))) <= Z.of_nat (length (ik_pending (w_os w0))) + m }.

(** How it ends: nothing is held. *)
Record cend {K : Type} `{IocpKernel K} `{FilterList K} (m : Z) (w0 : world K) (q : ptr) (el f : Z) (w : world K) : Prop :=
  { ce_disp : disp q w;
    ce_io : forall o, iocp_ok o 0 w;
    ce_ports : forall r, port_of w r = port_of w0 r;
    ce_mem : forall a, a <> el -> w_mem w !! a = w_mem w0 !! a;
    ce_el : exists k, w_mem w !! el = Some k /\ filter_ k = f;
    ce_len : Z.of_nat (length (ik_pending (w_os w))) <= Z.of_nat (length (ik_pending (w_os w0))) + m }.

Section State.
Context {K : Type} `{IocpKernel K} `{FilterList K}.
Implicit Types (w : world K) (p q : ptr) (kn : knote) (n m : Z).

Lemma disp_frame m n p q w w' : wframe m p w w' -> iocp_ok p n w' -> 0 <= n -> disp q w -> disp q w'.
Proof.
  intros Hf Hio Hn [A B C]. pose proof (wframe_ids _ _ _ _ Hf) as Hid. split.
  - by eapply winv_wframe.
  - by rewrite (wf_kqs _ _ _ _ Hf).
  - intros r kr Er Hq Hd. specialize (Hid r). rewrite Er in Hid. destruct (w_knotes w !! r) as [kr0|] eqn:E0; [|done].
    simpl in Hid. injection Hid as Hi Hfi Hkq Hde. unfold indexed, slot_of. rewrite (wf_kqs _ _ _ _ Hf), Hi, Hfi.
    apply (C r kr0); congruence.
Qed.

Lemma cst_start n m w0 q i p el f kn w : cst n m w0 q i p el f kn w -> wst 0 n w q p kn w.
Proof. intros [A B C D E (kq & x & G & _) _ _ _ _]. apply wst_start; eauto. Qed.

Lemma cst_ws n m n' m' w0 q i p el f kn kn' w w' :
  cst n m w0 q i p el f kn w -> wst m' n' w q p kn' w' -> 0 <= n' -> cst n' (m + m') w0 q i p el f kn' w'.
Proof.
  intros [A B C D E G P M L Len] [Hf Hio Hk Hq Hkq] Hn. pose proof (wf_kn _ _ _ _ Hf) as Hid. rewrite C, Hk in Hid.
  simpl in Hid. injection Hid as Hi Hfi _ _. split; try done.
  - by eapply disp_frame.
  - congruence.
  - by rewrite (wf_kqs _ _ _ _ Hf).
  - intros r. by rewrite (wframe_port _ _ _ _ r Hf).
  - by rewrite (wf_mem _ _ _ _ Hf).
  - by rewrite (wf_mem _ _ _ _ Hf).
  - pose proof (wf_len _ _ _ _ Hf). lia.
Qed.

Lemma cst_same n m n' w0 q i p el f kn kn' w w' :
  cst n m w0 q i p el f kn w -> wst 0 n' w q p kn' w' -> 0 <= n' -> cst n' m w0 q i p el f kn' w'.
Proof. intros Hc Hs Hn. replace m with (m + 0) by lia. by eapply cst_ws. Qed.

Lemma cst_end n m w0 q i p el f kn w : cst n m w0 q i p el f kn w -> 0 <= n -> cend m w0 q el f w.
Proof. intros [A B C D E G P M L Len] Hn. split; try done. intros o. eapply io_zero, io_weaken; [exact B|done]. Qed.
End State.

(** ** Rules: one reference is held *)

Section Rules.
Context {K : Type} `{IocpKernel K} `{FilterList K}.
Context (m : Z) (w0 : world K) (q : ptr) (i : nat) (p : ptr) (el : Z).
Implicit Types (w : world K) (kn : knote) (f : Z).

#[local] Abbreviation held f kn w := (cst 1 m w0 q i p el f kn w).

Lemma c_win {A : Type} (c : syscall A) (Q : option A -> world K -> Prop) f kn w :
  iocp_quiet c = true -> held f kn w -> (forall o w', held f kn w' -> same_data w w' -> Q o w') -> wp (win c) Q w.
Proof.
  intros Hc Hs HQ. eapply ws_win; [done|by eapply cst_start|]. intros o w' Hs' Hd _ _. apply HQ; [|done]. by eapply cst_same.
Qed.

Lemma c_win_ok (c : syscall unit) (Q : bool -> world K -> Prop) f kn w :
  iocp_quiet c = true -> held f kn w -> (forall b w', held f kn w' -> same_data w w' -> Q b w') -> wp (win_ok c) Q w.
Proof. intros Hc Hs HQ. unfold win_ok. wp_simpl. eapply c_win; [done|exact Hs|]. intros. wp_simpl. eauto. Qed.

Lemma c_sys {A : Type} (c : syscall A) (Q : option A -> world K -> Prop) f kn w :
  iocp_quiet c = true -> held f kn w -> (forall o w', held f kn w' -> same_data w w' -> Q o w') -> wp (sys c) Q w.
Proof.
  intros Hc Hs HQ. eapply ws_sys; [done|by eapply cst_start|]. intros o w' Hs' Hd _ _. apply HQ; [|done]. by eapply cst_same.
Qed.

Lemma c_get_kn (Q : knote -> world K -> Prop) f kn w : held f kn w -> Q kn w -> wp (get_kn p) Q w.
Proof. intros Hs HQ. eapply wp_get_kn; [apply Hs|done]. Qed.

Lemma c_get_wkn (Q : win_knote -> world K -> Prop) f kn w : held f kn w -> Q (wkn w p) w -> wp (get_wkn p) Q w.
Proof. intros Hs HQ. eapply ws_get_wkn; [by eapply cst_start|done]. Qed.

Lemma c_upd_wkn g (Q : unit -> world K -> Prop) f kn w :
  held f kn w -> calm (wkn w p) (g (wkn w p)) -> (forall w', held f kn w' -> Q tt w') -> wp (upd_wkn p g) Q w.
Proof.
  intros Hs Hg HQ. eapply ws_upd_wkn; [by eapply cst_start|done|]. intros w' Hs' _. apply HQ. by eapply cst_same.
Qed.

Lemma c_upd_kev g (Q : unit -> world K -> Prop) f kn w :
  held f kn w -> ident (g (kev kn)) = ident (kev kn) -> filter_ (g (kev kn)) = filter_ (kev kn) ->
  (has (flags (kev kn)) EV_ONESHOT = true -> has (flags (g (kev kn))) EV_ONESHOT = true) ->
  (forall w', held f (set_kev (g (kev kn)) kn) w' -> Q tt w') -> wp (upd_kev p g) Q w.
Proof.
  intros Hs Hi Hf Ho HQ. eapply ws_upd_kev; [by eapply cst_start|done..|]. intros w' Hs' _. apply HQ. by eapply cst_same.
Qed.

(** *** The event *)

Definition with_mem w (a : Z) (k : kevent) : world K := set_w_mem (<[a := k]> (w_mem w)) w.

Lemma disp_mem w a k : disp q w -> disp q (with_mem w a k).
Proof. intros [[A1 A2 A3] B C]. by split; [split|..]. Qed.
Lemma io_mem o n w a k : iocp_ok o n w -> iocp_ok o n (with_mem w a k).
Proof. intros [A B C D E]. by split. Qed.
Lemma mem_kept w a b k : is_Some (w_mem w !! b) -> is_Some (w_mem (with_mem w a k) !! b).
Proof. intros Hb. simpl. destruct (decide (b = a)) as [->|Hne]; [by rewrite lookup_insert_eq|by rewrite lookup_insert_ne]. Qed.

Lemma cst_mem k n f kn w : cst n m w0 q i p el f kn w -> cst n m w0 q i p el (filter_ k) kn (with_mem w el k).
Proof.
  intros [A B C D E G P M L Len]. split; try done.
  - by apply disp_mem.
  - by apply io_mem.
  - intros a Ha. simpl. rewrite lookup_insert_ne by done. by apply M.
  - exists k. simpl. by rewrite lookup_insert_eq.
Qed.

Lemma c_load (Q : kevent -> world K -> Prop) f kn w :
  held f kn w -> (forall k, filter_ k = f -> Q k w) -> wp (load el) Q w.
Proof. intros Hs HQ. destruct (cs_el _ _ _ _ _ _ _ _ _ _ Hs) as (k & Hk & Hf). eapply wp_load; [exact Hk|]. by apply HQ. Qed.

Lemma c_store (Q : unit -> world K -> Prop) k f kn w :
  held f kn w -> (forall w', held (filter_ k) kn w' -> w_wn w' = w_wn w -> Q tt w') -> wp (store el k) Q w.
Proof.
  intros Hs HQ. destruct (cs_el _ _ _ _ _ _ _ _ _ _ Hs) as (k0 & Hk & _). eapply wp_store; [exact Hk|]. apply HQ; [by eapply cst_mem|done].
Qed.

Lemma c_upd_mem g (Q : unit -> world K -> Prop) f kn w :
  held f kn w -> (forall k, filter_ (g k) = filter_ k) ->
  (forall w', held f kn w' -> w_wn w' = w_wn w -> Q tt w') -> wp (upd_mem el g) Q w.
Proof.
  intros Hs Hg HQ. unfold upd_mem. wp_simpl. eapply c_load; [exact Hs|]. intros k Hk. wp_simpl.
  eapply c_store; [exact Hs|]. rewrite Hg, Hk. done.
Qed.

Lemma e_upd_mem g f (Q : unit -> world K -> Prop) w f' :
  cend m w0 q el f w -> (forall k, filter_ (g k) = f') -> (forall w', cend m w0 q el f' w' -> Q tt w') -> wp (upd_mem el g) Q w.
Proof.
  intros [A B P M (k & Hk & Hf) Len] Hg HQ. unfold upd_mem. wp_simpl. eapply wp_load; [exact Hk|]. wp_simpl.
  eapply wp_store; [exact Hk|]. apply HQ. split; try done.
  - by apply disp_mem.
  - intros o. by apply io_mem.
  - intros a Ha. simpl. rewrite lookup_insert_ne by done. by apply M.
  - exists (g k). simpl. rewrite lookup_insert_eq. by rewrite Hg.
Qed.

(** *** Posting again and giving the reference back *)

Lemma c_post (Q : bool -> world K -> Prop) f kn w :
  held f kn w -> (i < 12)%nat ->
  (forall w', cst 0 (m + 1) w0 q i p el f kn w' -> Q true w') -> (forall w', held f kn w' -> Q false w') ->
  wp (post_knote p) Q w.
Proof.
  intros Hs Hi HQ1 HQ2. pose proof (cs_filter _ _ _ _ _ _ _ _ _ _ Hs) as Hf.
  eapply ws_post; [by eapply cst_start|unfold EVFILT_SYSCOUNT, Z.lnot in *; lia|..].
  - intros w' Hs' _. apply HQ1. by eapply cst_ws.
  - intros w' Hs' _. apply HQ2. by eapply cst_same.
Qed.

(** The last reference of a deleted knote frees it. *)
Lemma io_free w kn : iocp_ok p 1 w -> w_knotes w !! p = Some kn -> kn_ref kn = 1 ->
  iocp_ok p 0 (set_w_knotes (delete p (w_knotes w)) w).
Proof.
  intros [A B C D E] Ek Hr. pose proof (A p kn Ek) as Hp. rewrite decide_True in Hp by done.
  pose proof (share_nonneg kn (wkn w p)). pose proof (tokens_nonneg p (ik_pending (w_os w))). unfold tok in Hp.
  assert (Hsub : forall r kr, delete p (w_knotes w) !! r = Some kr -> r <> p /\ w_knotes w !! r = Some kr).
  { intros r kr Hd. apply lookup_delete_Some in Hd as [? ?]. by split. }
  split; simpl.
  - intros r kr [Hne Er]%Hsub. specialize (A r kr Er). rewrite decide_False in A |- * by done. exact A.
  - intros port b Hin. destruct (B port b Hin) as [?|Hb]; [by left|right].
    assert (Hno : of_knote p (port, b) = false).
    { apply not_true_is_false. intros Hof. pose proof (tokens_in p _ _ Hin Hof). lia. }
    unfold of_knote in Hno. simpl in Hno.
    destruct (io_overlap b); try done; apply bool_decide_eq_false in Hno;
      destruct Hb as (kr & q' & Er & Hrest); exists kr, q'; simpl; rewrite lookup_delete_ne by done; done.
  - done.
  - intros r kr q' [Hne Er]%Hsub. by apply D.
  - intros r kr v [Hne Er]%Hsub Ev. destruct (E r kr v Er Ev) as (E1 & E2 & E3). split_and!; try done.
    intros s ks [_ Es]%Hsub. by apply (E3 s ks).
Qed.

Lemma disp_free w kn : disp q w -> w_knotes w !! p = Some kn -> kn_kq kn = Some q ->
  has (kn_flags kn) KNFL_KNOTE_DELETED = true -> disp q (set_w_knotes (delete p (w_knotes w)) w).
Proof.
  intros [Hw B C] Ek Hq Hd. split; [|done|].
  - eapply winv_knotes; [done| |intros r Hr; by rewrite lookup_delete_ne|by rewrite lookup_delete_eq; intros []].
    intros q' kq j x e E Ej He Hp. pose proof (slot_kn _ _ _ _ (inv_slot _ _ _ (wi_kq _ Hw _ _ E) _ _ Ej)) as Hk. rewrite Forall_forall in Hk.
    destruct (Hk e He) as (kn' & Ek' & _ & _ & _ & Hd' & _). congruence.
  - intros r kr Er. simpl in Er. apply lookup_delete_Some in Er as [_ Er]. by apply C.
Qed.

Lemma c_release (Q : unit -> world K -> Prop) f kn w :
  held f kn w -> (forall w', cend m w0 q el f w' -> Q tt w') -> wp (knote_release p) Q w.
Proof.
  intros Hs HQ. pose proof (io_refs _ _ _ (cs_io _ _ _ _ _ _ _ _ _ _ Hs) p kn (cs_kn _ _ _ _ _ _ _ _ _ _ Hs)) as Hr.
  rewrite decide_True in Hr by done. pose proof (tokens_nonneg p (ik_pending (w_os w))). unfold tok in Hr.
  pose proof (share_nonneg kn (wkn w p)). destruct (Z.eq_dec (kn_ref kn) 1) as [Hone|Hgt].
  - assert (Hd : has (kn_flags kn) KNFL_KNOTE_DELETED = true).
    { apply not_false_is_true. intros Hd. pose proof (io_alive _ _ _ _ (cs_io _ _ _ _ _ _ _ _ _ _ Hs) (cs_kn _ _ _ _ _ _ _ _ _ _ Hs) Hd). lia. }
    destruct Hs as [A B C D E G P M L Len]. eapply wp_knote_release; [exact C|lia|done|intros _|lia].
    apply HQ. split; try done; [by eapply disp_free|]. intros o. eapply io_zero. by eapply io_free.
  - eapply ws_release; [by eapply cst_start|lia|]. intros w' Hs' _. apply HQ. eapply (cst_end (1 - 1)); [|lia].
    by eapply cst_same.
Qed.
End Rules.

(** ** The flag actions *)

Section Flags.
Context {K : Type} `{IocpKernel K} `{FilterList K}.
Implicit Types (w : world K) (p q : ptr) (kn : knote) (n m : Z).

Lemma disp_kqs w q kq kq' :
  disp q w -> w_kqs w !! q = Some kq -> kq_fixed kq' = kq_fixed kq ->
  (forall j x, kq_filt kq !! j = Some x -> exists x', kq_filt kq' !! j = Some x' /\ kf_index x' = kf_index x) ->
  winv (set_w_kqs (<[q := kq']> (w_kqs w)) w) -> disp q (set_w_kqs (<[q := kq']> (w_kqs w)) w).
Proof.
  intros [A (kq0 & E0 & Hl & Hsv) C] E Hf Hix Hw. assert (kq0 = kq) as -> by congruence. split; [done|..].
  - exists kq'. simpl. rewrite lookup_insert_eq. split_and!; [done|injection Hf as _ -> _ _ _; done|by eapply served_fixed].
  - intros p kn Ep Hq Hd. destruct (C p kn Ep Hq Hd) as (x & Hx & He). unfold slot_of in Hx. rewrite E in Hx. simpl in Hx.
    destruct (Hix _ _ Hx) as (x' & Hx' & Hi). exists x'. unfold slot_of. simpl. rewrite lookup_insert_eq. simpl. by rewrite Hi.
Qed.

(** The knote leaves the ready list. *)
Lemma cst_ready n m w0 q i p el f kn w kq x :
  cst n m w0 q i p el f kn w -> w_kqs w !! q = Some kq -> kq_filt kq !! i = Some x ->
  cst n m w0 q i p el f kn (set_w_kqs (<[q := set_kq_filt
    (<[i := set_kf_ready (base.filter (fun r => r <> p) (kf_ready x)) x]> (kq_filt kq)) kq]> (w_kqs w)) w).
Proof.
  intros [A B C D E G P M L Len] Eq Ex. set (x' := set_kf_ready _ x). set (kq' := set_kq_filt _ kq).
  assert (Hlt : (i < length (kq_filt kq))%nat) by (by eapply lookup_lt_Some).
  assert (Hfx : kq_fixed kq' = kq_fixed kq).
  { unfold kq_fixed, kq'. simpl. f_equal. rewrite list_fmap_insert. apply list_insert_id. by rewrite list_lookup_fmap, Ex. }
  split; try done.
  - eapply disp_kqs; [done|done|done|..].
    + intros j y Ey. destruct (decide (j = i)) as [->|Hj]; simpl; [rewrite list_lookup_insert_eq by done|rewrite list_lookup_insert_ne by done; by exists y].
      exists x'. split; [done|]. unfold x'. simpl. congruence.
    + pose proof (di_winv _ _ A) as Hw. change kq' with (set_kq_knote_count (kq_knote_count kq) kq').
      eapply winv_slot; [done|done|done| |unfold x'; simpl; lia]. pose proof (inv_slot _ _ _ (wi_kq _ Hw _ _ Eq) _ _ Ex) as [H1' H2' H3' H4'].
      split; try done. rewrite Forall_forall in H3' |- *. intros r Hr. simpl in Hr. apply list_elem_of_filter in Hr as [_ Hr]. by apply H3'.
  - eapply io_os; [exact B|by repeat split|apply os_le_refl].
  - exists kq', x'. simpl. rewrite lookup_insert_eq, list_lookup_insert_eq by done. split_and!; try done.
    destruct G as (kq0 & x0 & E0 & Ex0 & Hi). unfold x'. simpl. congruence.
Qed.

Context `{!WinBuild K}.

Lemma cst_ops n m w0 q i p el f kn w :
  cst n m w0 q i p el f kn w -> exists kq x o, w_kqs w !! q = Some kq /\ kq_locked kq = true /\ served kq /\
    kq_filt kq !! i = Some x /\ slot_ops i x = Some o /\ WinStop i o.
Proof.
  intros [[_ (kq & E & Hl & Hsv) _] _ _ _ _ (kq' & x & E' & Ex & Hi) _ _ _ _]. assert (kq' = kq) as -> by congruence.
  destruct (Hsv i x Ex Hi) as [o Ho]. exists kq, x, o. split_and!; try done.
  pose proof Ho as (id & _ & Hid & Hops)%slot_ops_Some. by eapply wb_filter.
Qed.

Lemma c_disable (Q : Z -> world K -> Prop) m w0 q i p el f kn w :
  cst 1 m w0 q i p el f kn w -> (forall rv w' kn', cst 1 m w0 q i p el f kn' w' -> Q rv w') ->
  wp (knote_disable (q, i) p) Q w.
Proof.
  intros Hs HQ. unfold knote_disable. wp_simpl. eapply c_get_kn; [exact Hs|]. destruct (KNOTE_DISABLED kn); [wp_simpl; by eapply HQ|].
  destruct (cst_ops _ _ _ _ _ _ _ _ _ _ Hs) as (kq & x & o & E & Hl & _ & Ex & Ho & Hst). wp_simpl. eapply wp_filt_ops; [done..|]. wp_simpl.
  eapply wp_mono; [|eapply so_disable; [by eapply cst_start|lia|apply Hs]]. intros rv w1 (kn1 & Hw1).
  pose proof (cst_same _ _ _ _ _ _ _ _ _ _ _ _ _ Hs Hw1 ltac:(lia)) as Hs1. rewrite <- (wf_kqs _ _ _ _ (ws_frame _ _ _ _ _ _ _ Hw1)) in E.
  destruct (rv =? 0); [|wp_simpl; by eapply HQ]. wp_go. wp_go. pose proof (cst_ready _ _ _ _ _ _ _ _ _ _ _ _ Hs1 E Ex) as Hs2.
  eapply ws_upd_kn; [by eapply cst_start| | | |].
  - unfold KNOTE_DISABLE, upd_flags, kn_id. done.
  - done.
  - unfold KNOTE_DISABLE, upd_flags. simpl. rewrite has_setb. by intros ->.
  - intros w3 Hs3 _. wp_simpl. eapply HQ. by eapply cst_same.
Qed.

Lemma indexed_unlinked w q kq i x t e j e' l1 l2 :
  w_kqs w !! q = Some kq -> kq_filt kq !! i = Some x -> elements (kf_index x) = l1 ++ e :: l2 -> elements t = l1 ++ l2 ->
  indexed w q j e' -> e' <> e -> indexed (unlinked w q kq i x t (e_ptr e)) q j e'.
Proof.
  intros E Ex He Ht (y & Hy & Hin) Hne. unfold indexed, unlinked, with_slot. unfold slot_of in *. rewrite E in Hy. simpl in *.
  rewrite lookup_insert_eq. simpl. destruct (decide (j = i)) as [->|Hj].
  - rewrite list_lookup_insert_eq by (by eapply lookup_lt_Some). eexists. split; [done|]. simpl. rewrite Ht.
    assert (y = x) as -> by congruence. rewrite He in Hin. set_solver.
  - rewrite list_lookup_insert_ne by done. by exists y.
Qed.

(** The world after the knote, already unlinked, was marked deleted. *)
Lemma disp_retire w u q p kn kn' :
  disp q w -> kq_fixed <$> w_kqs u !! q = kq_fixed <$> w_kqs w !! q -> detached u p -> winv u ->
  w_knotes u !! p = Some kn -> has (kn_flags kn') KNFL_KNOTE_DELETED = true ->
  (forall r, r <> p -> w_knotes u !! r = w_knotes w !! r) ->
  (forall j e, indexed w q j e -> e_ptr e <> p -> indexed u q j e) ->
  disp q (set_w_knotes (<[p := kn']> (w_knotes u)) u).
Proof.
  intros [_ (kq & E & Hl & Hsv) C] Hst Hdt Hw Ep Hd Hk Hix. split.
  - eapply winv_knotes; [done|done|intros r Hr; by rewrite lookup_insert_ne|]. intros _. apply Pos.lt_nle. intros Hle.
    pose proof (wi_fresh_kn _ Hw _ Hle). congruence.
  - rewrite E in Hst. destruct (w_kqs u !! q) as [kq'|] eqn:E'; [|done]. apply (inj Some) in Hst. exists kq'. simpl.
    split_and!; [done|injection Hst as _ -> _ _ _; done|by eapply served_fixed].
  - intros r kr Er Hq Hnd. simpl in Er. destruct (decide (r = p)) as [->|Hr]; [rewrite lookup_insert_eq in Er; congruence|].
    rewrite lookup_insert_ne, Hk in Er by done. apply Hix; [|done]. by apply C.
Qed.

Lemma c_delete (Q : Z -> world K -> Prop) m w0 q i p el f kn w :
  cst 1 m w0 q i p el f kn w -> (forall rv w' kn', cst 1 m w0 q i p el f kn' w' -> Q rv w') ->
  wp (knote_delete (q, i) p) Q w.
Proof.
  intros Hs HQ. destruct (has (kn_flags kn) KNFL_KNOTE_DELETED) eqn:Hd.
  { unfold knote_delete. wp_simpl. eapply c_get_kn; [exact Hs|]. rewrite Hd. wp_simpl. by eapply HQ. }
  destruct (cst_ops _ _ _ _ _ _ _ _ _ _ Hs) as (kq & x & o & E & Hl & _ & Ex & Ho & Hst). pose proof Hs as [A B C D F G P M L Len].
  pose proof (di_winv _ _ A) as Hw. destruct (di_reg _ _ A p kn C D Hd) as (y & Hy & Hin). rewrite F, Nat2Z.id in Hy.
  unfold slot_of in Hy. rewrite E in Hy. simpl in Hy. assert (y = x) as -> by congruence.
  apply list_elem_of_split in Hin as (l1 & l2 & He). set (e := Entry (ident (kev kn)) p) in *.
  apply (wp_knote_delete Q w q kq i x o e kn l1 l2); [done..|]. intros t Ht Het _.
  destruct (unlinked_ok w q kq i x e l1 l2 t Hw E Ex He Ht Het) as (Hwu & _ & Hsu & Hdu).
  set (u := unlinked w q kq i x t (e_ptr e)) in *. assert (Hu : wst 0 1 u q p kn u).
  { apply wst_start; [|done|done|simpl; rewrite lookup_insert_eq; eauto]. eapply io_os; [exact B|by repeat split|apply os_le_refl]. }
  eapply wp_mono; [|by eapply so_delete]. intros rv w2 (kn2 & Hs2). change (e_ptr e) with p in *.
  pose proof Hs2 as [Hf2 Hio2 Ek2 Hq2 Hkq2].
  pose proof (wf_kn _ _ _ _ Hf2) as Hid. rewrite (ws_kn _ _ _ _ _ _ _ Hu), Ek2 in Hid. simpl in Hid. injection Hid as Hi Hfi _ Hde.
  rewrite Hd in Hde. pose proof (io_alive _ _ _ _ Hio2 Ek2 Hde) as Hal. eapply wp_upd_kn; [exact Ek2|]. rewrite wp_bind.
  eapply wp_knote_release; simpl; [by rewrite lookup_insert_eq|simpl; lia|simpl; by rewrite has_setb, orb_true_r|simpl; lia|intros _].
  rewrite insert_insert_eq, set_w_knotes_twice. wp_simpl. eapply HQ.
  assert (Hlen2 := wf_len _ _ _ _ Hf2). split; simpl.
  - eapply disp_retire; [exact A|rewrite (wf_kqs _ _ _ _ Hf2); apply Hsu| |by eapply winv_wframe|exact Ek2|simpl; by rewrite has_setb, orb_true_r|..].
    + unfold detached. rewrite (wf_kqs _ _ _ _ Hf2). exact Hdu.
    + intros r Hr. by rewrite (wf_others _ _ _ _ Hf2).
    + intros j e' Hj Hne. unfold indexed, slot_of. rewrite (wf_kqs _ _ _ _ Hf2).
      apply (indexed_unlinked w q kq i x t e j e' l1 l2); try done. by intros ->.
  - eapply io_put; [exact Hio2|exact Ek2|done|done|]. unfold share, timer_holds. simpl. rewrite has_setb, orb_true_r, Hde. simpl. lia.
  - by rewrite lookup_insert_eq.
  - done.
  - rewrite <- F, <- Hfi. reflexivity.
  - rewrite (wf_kqs _ _ _ _ Hf2). simpl. rewrite lookup_insert_eq. eexists _, _. split_and!; [done|simpl; apply list_lookup_insert_eq; by eapply lookup_lt_Some|]. simpl.
    pose proof Ho as (id & -> & _)%slot_ops_Some. by eexists.
  - intros r. change (port_of (set_w_knotes _ w2) r) with (port_of w2 r). rewrite (wframe_port _ _ _ _ r Hf2). exact (P r).
  - by rewrite (wf_mem _ _ _ _ Hf2).
  - by rewrite (wf_mem _ _ _ _ Hf2).
  - change (w_os u) with (w_os w) in Hlen2. lia.
Qed.

Lemma c_flags (Q : Z -> world K -> Prop) m w0 q i p el f kn w :
  cst 1 m w0 q i p el f kn w -> (forall rv w' kn', cst 1 m w0 q i p el f kn' w' -> Q rv w') ->
  wp (knote_copyout_flag_actions (q, i) p) Q w.
Proof.
  intros Hs HQ. unfold knote_copyout_flag_actions. wp_simpl. eapply c_get_kn; [exact Hs|].
  assert (Hrest : forall rv w1 kn1, cst 1 m w0 q i p el f kn1 w1 ->
    wp (get_kn p) (fun kn w2 => wp (if has (flags (kev kn)) EV_ONESHOT then knote_delete (q, i) p else ret rv) Q w2) w1).
  { intros rv w1 kn1 Hs1. eapply c_get_kn; [exact Hs1|]. destruct (has _ EV_ONESHOT); [by eapply c_delete|wp_simpl; by eapply HQ]. }
  destruct (has _ EV_DISPATCH).
  - wp_simpl. eapply c_disable; [exact Hs|]. intros rv w1 kn1 Hs1. wp_simpl. by eapply Hrest.
  - wp_simpl. by eapply (Hrest 0).
Qed.
End Flags.

(** ** The copyouts *)

Ltac c_step :=
  cbn beta; wp_simpl;
  lazymatch goal with
  | |- wp (get_kn _) _ _ => eapply c_get_kn; [eassumption|]
  | |- wp (get_wkn _) _ _ => eapply c_get_wkn; [eassumption|]
  | |- wp (win _) _ _ => eapply c_win; [reflexivity|eassumption|intros ?o ?w ?Hs ?He]
  | |- wp (win_ok _) _ _ => eapply c_win_ok; [reflexivity|eassumption|intros ?b ?w ?Hs ?He]
  | |- wp (sys _) _ _ => eapply c_sys; [reflexivity|eassumption|intros ?o ?w ?Hs ?He]
  | |- wp get_last_error _ _ => apply ws_last_error; intros ?e
  | |- wp (upd_wkn _ _) _ _ => eapply c_upd_wkn; [eassumption|w_calm|intros ?w ?Hs]
  | |- wp (upd_kev _ _) _ _ => eapply c_upd_kev; [eassumption|reflexivity|reflexivity|first [done|w_flags]|intros ?w ?Hs]
  | |- wp (store _ _) _ _ => eapply c_store; [eassumption|intros ?w ?Hs ?Hw]
  | |- wp (load _) _ _ => eapply c_load; [eassumption|intros ?k ?Hk]
  | |- wp (upd_mem _ _) _ _ => eapply c_upd_mem; [eassumption|reflexivity|intros ?w ?Hs ?Hw]
  | |- wp (knote_copyout_flag_actions _ _) _ _ => eapply c_flags; [eassumption|intros ?rv ?w ?kn ?Hs]
  | |- wp (knote_release _) _ _ => eapply c_release; [eassumption|intros ?w ?Hs]
  | |- wp (if ?b then _ else _) _ _ => destruct b eqn:?
  | |- wp (match ?x with _ => _ end) _ _ => destruct x eqn:?
  end; cbn beta; wp_simpl.
Ltac c_go := repeat c_step.

(** What a copyout did: it gave its reference back or posted one completion, and then
    the event has a filter. *)
Definition copied {K : Type} `{IocpKernel K} `{FilterList K} (w0 : world K) (q : ptr) (el rv : Z) (w : world K) : Prop :=
  rv <= 1 /\ exists m f, cend m w0 q el f w /\ (m = 0 \/ m = 1 /\ rv = 1 /\ f <> 0).

Class WinCopyout {K : Type} `{IocpKernel K} `{FilterList K} (i : nat) (o : filter_ops K) : Prop :=
  wc_copyout : forall w q p el n ev f kn, cst 1 0 w q i p el f kn w ->
    wp (kf_copyout o el n (q, i) (Some p) ev) (fun rv w' => copied w q el rv w') w.

Section Copyouts.
Context {K : Type} `{IocpKernel K} `{FilterList K} `{!WinBuild K}.
Implicit Types (w : world K) (p q : ptr) (kn : knote).

Lemma copied_end w0 q el rv f w : cend 0 w0 q el f w -> rv <= 1 -> copied w0 q el rv w.
Proof. intros He Hr. split; [done|]. exists 0, f. split; [done|by left]. Qed.

Lemma discard_ok w0 q i p el f kn w : cst 1 0 w0 q i p el f kn w -> wp (discard el p) (fun rv w' => copied w0 q el rv w') w.
Proof.
  intros Hs. unfold discard. c_step. eapply e_upd_mem with (f' := 0); [eassumption|done|]. intros w2 Hs2. wp_simpl. by eapply copied_end.
Qed.

Lemma act_ok w0 q i p el f kn w :
  cst 1 0 w0 q i p el f kn w -> wp (act_and_release (q, i) p) (fun rv w' => copied w0 q el rv w') w.
Proof. intros Hs. unfold act_and_release. c_go; by eapply copied_end. Qed.

#[export] Instance user_wcopy : WinCopyout 10 (fs_ops windows_evfilt_user).
Proof.
  intros w q p el n ev f kn Hs. simpl. unfold windows_evfilt_user_copyout.
  repeat first [by eapply discard_ok | by eapply act_ok | c_step].
Qed.

#[export] Instance timer_wcopy : WinCopyout 6 (fs_ops windows_evfilt_timer).
Proof.
  intros w q p el n ev f kn Hs. simpl. unfold windows_evfilt_timer_copyout.
  repeat first [by eapply discard_ok | by eapply act_ok | c_step].
Qed.

#[export] Instance proc_wcopy : WinCopyout 4 (fs_ops windows_evfilt_proc).
Proof.
  intros w q p el n ev f kn Hs. simpl. unfold windows_evfilt_proc_copyout.
  repeat first [by eapply discard_ok | by eapply act_ok | c_step].
Qed.

#[export] Instance signal_wcopy : WinCopyout 5 (fs_ops windows_evfilt_signal).
Proof.
  intros w q p el n ev f kn Hs. simpl. unfold windows_evfilt_signal_copyout.
  repeat first [by eapply discard_ok | by eapply act_ok | c_step].
Qed.

(** *** read.c *)

Lemma slot_filter i w0 q p el f kn w : cst 1 0 w0 q i p el f kn w -> (i < 12)%nat -> filter_ (kev kn) <> 0.
Proof. intros Hs Hi. pose proof (cs_filter _ _ _ _ _ _ _ _ _ _ Hs). unfold Z.lnot in *. lia. Qed.

Lemma repost_ok w0 q i p el f kn w :
  cst 1 0 w0 q i p el f kn w -> (i < 12)%nat -> f <> 0 -> wp (repost p) (fun rv w' => copied w0 q el rv w') w.
Proof.
  intros Hs Hi Hf. unfold repost. wp_simpl. eapply c_post; [exact Hs|done|..].
  - intros w1 Hs1. wp_simpl. split; [done|]. exists 1, f. split; [by eapply cst_end|by right].
  - intros w1 Hs1. wp_simpl. c_step. by eapply copied_end.
Qed.

Lemma rearm_ok w0 q p el f kn w b1 b2 b3 :
  cst 1 0 w0 q 0 p el f kn w -> f <> 0 -> wp (read_rearm p b1 b2 b3) (fun rv w' => copied w0 q el rv w') w.
Proof.
  intros Hs Hf. assert (Hr : filter_ (kev kn) = EVFILT_READ).
  { pose proof (cs_filter _ _ _ _ _ _ _ _ _ _ Hs). unfold Z.lnot, EVFILT_READ in *. lia. }
  unfold read_rearm. c_step. destruct (has _ _); [c_step; by eapply copied_end|]. c_step.
  destruct (b1 && _); [eapply repost_ok; [exact Hs|lia|done]|]. destruct b1; wp_simpl.
  - eapply ws_read; [by eapply cst_start|eapply io_reads; [apply Hs..|done]|done|]. intros ok w1 H1' H2' _. wp_simpl.
    unfold get_last_error. wp_simpl. destruct (ok || _); wp_simpl.
    + split; [done|]. exists 1, f. split; [|by right]. eapply (cst_end (1 - 1)); [|lia]. by eapply (cst_ws 1 0 (1 - 1) (0 + 1)); [exact Hs|apply H1'|].
    + specialize (H2' eq_refl). pose proof (cst_same _ _ _ _ _ _ _ _ _ _ _ _ _ Hs H2' ltac:(lia)) as Hs1. c_step. eapply repost_ok; [eassumption|lia|done].
  - destruct (b2 || b3); [eapply repost_ok; [exact Hs|lia|done]|]. c_step. by eapply copied_end.
Qed.

Lemma read_fill_ok w0 q p el kn w kn0 :
  cst 1 0 w0 q 0 p el (filter_ (kev kn)) kn w ->
  wp (read_fill el p kn0) (fun _ w' => cst 1 0 w0 q 0 p el (filter_ (kev kn)) kn w') w.
Proof.
  intros Hs. unfold read_fill, evfilt_read_copyout_file, evfilt_read_copyout_pipe, pipe_result,
    evfilt_read_copyout_socket_passive, evfilt_read_copyout_socket. c_go; done.
Qed.

#[export] Instance read_wcopy : WinCopyout 0 (fs_ops windows_evfilt_read).
Proof.
  intros w q p el n ev f kn Hs. simpl. unfold windows_evfilt_read_copyout. c_step.
  destruct (has _ KNFL_KNOTE_DELETED); [by eapply discard_ok|]. destruct (has _ EV_DISABLE); [by eapply discard_ok|]. c_step.
  assert (Hf : filter_ (kev kn) <> 0) by (by eapply slot_filter; [exact Hs|lia]).
  eapply wp_mono; [|by eapply read_fill_ok]. intros rv w2 Hs2. cbn beta. destruct rv.
  - by eapply discard_ok.
  - do 3 c_step. destruct (_ <? 0); wp_simpl; [c_step; by eapply copied_end|by eapply rearm_ok].
  - wp_simpl. eapply e_upd_mem with (f' := 0); [by eapply cst_end|done|]. intros w3 Hs3. wp_simpl. by eapply copied_end.
  - wp_simpl. eapply copied_end; [by eapply cst_end|lia].
Qed.

(** *** write.c *)

#[export] Instance write_wcopy : WinCopyout 1 (fs_ops windows_evfilt_write).
Proof.
  intros w q p el n ev f kn Hs. simpl. unfold windows_evfilt_write_copyout. c_step.
  destruct (has _ KNFL_KNOTE_DELETED); [by eapply discard_ok|]. destruct (has _ EV_DISABLE); [by eapply discard_ok|]. c_step.
  assert (Hf : filter_ (kev kn) <> 0) by (by eapply slot_filter; [exact Hs|lia]).
  apply (wp_mono _ (fun _ w' => cst 1 0 w q 1 p el (filter_ (kev kn)) kn w')).
  - intros [] w2 Hs2. cbn beta. do 2 c_step. destruct (_ <? 0); wp_simpl; [c_step; by eapply copied_end|]. c_step.
    destruct (_ || _); [c_step; by eapply copied_end|]. eapply repost_ok; [eassumption|lia|done].
  - unfold write_fill, write_fill_pipe, probe_reader. c_go; done.
Qed.

(** *** vnode.c *)

Lemma c_upd_vs v g (Q : unit -> world K -> Prop) m w0 q i p el f kn w :
  cst 1 m w0 q i p el f kn w -> is_Some (wn_vnodes (w_wn w) !! v) ->
  (forall w', cst 1 m w0 q i p el f kn w' -> is_Some (wn_vnodes (w_wn w') !! v) -> Q tt w') -> wp (upd_vs v g) Q w.
Proof.
  intros Hs Hv HQ. unfold upd_vs, put_vs, upd_wn. wp_simpl. apply ws_get_vs; [done|]. intros s. wp_simpl. apply HQ.
  - eapply cst_same; [exact Hs| |lia]. change (set_w_wn _ w) with (with_vnodes w (<[v := g s]> (wn_vnodes (w_wn w)))).
    eapply wst_vnodes; [by eapply cst_start|]. intros r kr u Er Eu.
    destruct (io_vs _ _ _ (cs_io _ _ _ _ _ _ _ _ _ _ Hs) _ _ _ Er Eu) as (Hu & _).
    destruct (decide (u = v)) as [->|Hne]; [rewrite lookup_insert_eq; eauto|by rewrite lookup_insert_ne].
  - simpl. rewrite lookup_insert_eq. eauto.
Qed.

Lemma same_vs w w' v : same_data w w' -> is_Some (wn_vnodes (w_wn w) !! v) -> is_Some (wn_vnodes (w_wn w') !! v).
Proof. by intros (_ & _ & _ & -> & _). Qed.

Lemma c_quiet {A : Type} (g : M (world K) A) (Q : A -> world K -> Prop) m w0 q i p el f kn w :
  cst 1 m w0 q i p el f kn w ->
  (wst 0 1 w q p kn w -> wp g (fun _ w' => wst 0 1 w q p kn w' /\ same_data w w') w) ->
  (forall a w', cst 1 m w0 q i p el f kn w' -> same_data w w' -> Q a w') -> wp g Q w.
Proof.
  intros Hs Hg HQ. eapply wp_mono; [|apply Hg; by eapply cst_start]. intros a w' [Hs' Hd]. apply HQ; [|done]. by eapply cst_same.
Qed.

Lemma renamed_ok fd v w0 q i p el f kn w :
  cst 1 0 w0 q i p el f kn w -> is_Some (wn_vnodes (w_wn w) !! v) ->
  wp (vnode_renamed fd v) (fun _ w' => cst 1 0 w0 q i p el f kn w' /\ is_Some (wn_vnodes (w_wn w') !! v)) w.
Proof.
  intros Hs Hv. unfold vnode_renamed. wp_simpl. eapply c_quiet; [exact Hs|by apply path_ok|]. intros cur w1 Hs1 Hd. wp_simpl.
  pose proof (same_vs _ _ v Hd Hv) as Hv1. apply ws_get_vs; [done|]. intros s. destruct cur as [c|], (vs_full_path s) as [old|]; wp_simpl; try done.
  destruct (bool_decide _); wp_simpl; [done|]. eapply c_upd_vs; [exact Hs1|done|]. intros w2 Hs2 Hv2. by wp_simpl.
Qed.

Lemma compare_ok fd v want fi w0 q i p el f kn w :
  cst 1 0 w0 q i p el f kn w -> is_Some (wn_vnodes (w_wn w) !! v) ->
  wp (vnode_compare el fd v want fi) (fun _ w' => cst 1 0 w0 q i p el f kn w') w.
Proof.
  intros Hs Hv. unfold vnode_compare. wp_simpl. apply ws_get_vs; [done|]. intros s. c_step. rewrite <- Hw in Hv.
  destruct (has want NOTE_RENAME); wp_simpl.
  - eapply wp_mono; [|by eapply renamed_ok]. intros moved w2 [Hs2 Hv2]. cbn beta. destruct moved.
    + c_step. rewrite <- Hw0 in Hv2. eapply c_upd_vs; [eassumption|done|]. done.
    + wp_simpl. eapply c_upd_vs; [eassumption|done|]. done.
  - eapply c_upd_vs; [eassumption|done|]. done.
Qed.

#[export] Instance vnode_wcopy : WinCopyout 3 (fs_ops windows_evfilt_vnode).
Proof.
  intros w q p el n ev f kn Hs. simpl. unfold windows_evfilt_vnode_copyout. c_step.
  destruct (has _ KNFL_KNOTE_DELETED); [by eapply discard_ok|]. destruct (has _ EV_DISABLE); [by eapply discard_ok|].
  do 2 c_step. eapply c_quiet; [eassumption|by apply look_ok|]. intros now w2 Hs2 Hd. cbn beta. wp_simpl.
  apply (wp_mono _ (fun _ w' => cst 1 0 w q 3 p el (filter_ (kev kn)) kn w')).
  - intros [] w3 Hs3. c_step. destruct (_ =? 0); [by eapply discard_ok|by eapply act_ok].
  - destruct now as [fi|]; [|destruct (has _ NOTE_DELETE); [by c_step|by wp_simpl]].
    destruct (kn_vs (wkn w p)) as [v|] eqn:Ev; [|by wp_simpl]. eapply compare_ok; [exact Hs2|]. eapply same_vs; [exact Hd|].
    rewrite Hw. eapply io_vs; [apply Hs|apply Hs|exact Ev].
Qed.
End Copyouts.
