(* ===== verification/WinDispatch.v ===== *)
(** * The delivery loop of src/windows/platform.c

    [windows_kevent_copyout] delivers the completion that the wait dequeued, and then
    whatever else is queued.  Its filters may free knotes while completions for others,
    and for the same knote, are still queued.  Here: while [iocp_ok] holds of the queue,
    the loop ends and touches no freed knote; where it does not return it called
    [abort()]. *)

From Stdlib Require Import ZArith Lia Bool.
From stdpp Require Import base list gmap.
From S2P Require Import Prelude RBTree Event Map State Ops Knote Filter Kqueue LibkqueueFilter WinPlatform WinKernel WinUser WinRules WinTimer WinProc WinReadWrite WinVnode WinContracts WinVnodeRules WinDeliver.

(** ** Runs that may abort *)

Definition wpa {S A : Type} (m : M S A) (Q : A -> S -> Prop) (s : S) : Prop :=
  match m s with Ret a s' => Q a s' | Fault Aborted => True | Fault _ => False end.

Section Wpa.
Context {S A B : Type}.
Implicit Types (m : M S A) (f : A -> M S B).

Lemma wpa_wp m (Q : A -> S -> Prop) s : wp m Q s -> wpa m Q s.
Proof. unfold wp, wpa. by destruct (m s). Qed.
Lemma wpa_mono m (Q R : A -> S -> Prop) s : (forall a s', Q a s' -> R a s') -> wpa m Q s -> wpa m R s.
Proof. unfold wpa. destruct (m s) as [|[]]; eauto. Qed.
Lemma wpa_bind m f (Q : B -> S -> Prop) s : wpa m (fun a s' => wpa (f a) Q s') s -> wpa (bind m f) Q s.
Proof. unfold wpa, bind. destruct (m s) as [|[]]; eauto. Qed.
Lemma wpa_step m f (Q : B -> S -> Prop) s : wp m (fun a s' => wpa (f a) Q s') s -> wpa (bind m f) Q s.
Proof. intros Hm. by apply wpa_bind, wpa_wp. Qed.
Lemma wpa_ret (a : A) (Q : A -> S -> Prop) s : Q a s -> wpa (ret a) Q s.
Proof. done. Qed.
End Wpa.

(** ** The filters of a Windows build *)

Section Build.
Context {K : Type} `{IocpKernel K} (C : version) (fuel : nat).

Definition win_filters_over (L : FilterList K) : list (filter_src K) :=
  [windows_evfilt_read; windows_evfilt_write; windows_evfilt_signal; windows_evfilt_vnode; windows_evfilt_proc;
   windows_evfilt_timer; windows_evfilt_user; evfilt_libkqueue (windows_kqops fuel) C].

Fixpoint windows_filters (depth : nat) : FilterList K :=
  match depth with O => [] | S d => win_filters_over (windows_filters d) end.

Lemma over_ids (L L' : FilterList K) : fs_id <$> win_filters_over L = fs_id <$> win_filters_over L'.
Proof.
  unfold win_filters_over. cbn [fmap list_fmap fs_id windows_evfilt_read windows_evfilt_write windows_evfilt_signal
    windows_evfilt_vnode windows_evfilt_proc windows_evfilt_timer windows_evfilt_user evfilt_libkqueue]. reflexivity.
Qed.

Lemma over_proc (L : FilterList K) :
  ops_table (H := win_filters_over L) EVFILT_PROC = Some (fs_ops (windows_evfilt_proc (H0 := L))).
Proof.
  unfold ops_table, win_filters_over, filter_list.
  cbn [List.find fs_id windows_evfilt_read windows_evfilt_write windows_evfilt_signal windows_evfilt_vnode].
  change (EVFILT_READ =? EVFILT_PROC) with false. change (EVFILT_WRITE =? EVFILT_PROC) with false.
  change (EVFILT_SIGNAL =? EVFILT_PROC) with false. change (EVFILT_VNODE =? EVFILT_PROC) with false. cbn match.
  unfold windows_evfilt_proc at 1. cbn [fs_id]. rewrite Z.eqb_refl. reflexivity.
Qed.

#[local] Instance libkqueue_stop (V : kqueue_vtable K) : WinStop 11 (fs_ops (evfilt_libkqueue V C)).
Proof. split; intros; unfold wp; simpl; by eexists. Qed.

#[local] Instance libkqueue_wcopy `{FilterList K} (V : kqueue_vtable K) : WinCopyout 11 (fs_ops (evfilt_libkqueue V C)).
Proof. intros w q p el n ev f kn Hs. simpl. unfold common_libkqueue_knote_copyout. wp_simpl. eapply copied_end; [by eapply cst_end|lia]. Qed.

Lemma over_stop L : Forall (fun s => WinStop (Z.to_nat (Z.lnot (fs_id s))) (fs_ops s)) (win_filters_over L).
Proof. unfold win_filters_over. repeat apply List.Forall_cons; try apply List.Forall_nil; simpl; exact _. Qed.

Lemma over_wcopy L `{!WinBuild K (H0 := H0) (H1 := L)} :
  Forall (fun s => WinCopyout (H1 := L) (Z.to_nat (Z.lnot (fs_id s))) (fs_ops s)) (win_filters_over L).
Proof. unfold win_filters_over. repeat apply List.Forall_cons; try apply List.Forall_nil; simpl; exact _. Qed.

(** A property of every filter holds of the one in a slot. *)
Lemma over_slot (P : nat -> filter_ops K -> Prop) (l : FilterList K) i id o :
  Forall (fun s => P (Z.to_nat (Z.lnot (fs_id s))) (fs_ops s)) l ->
  ops_table (H := l) id = Some o -> Z.lnot id = Z.of_nat i -> P i o.
Proof.
  intros Hall Ho Hi. unfold ops_table in Ho. apply fmap_Some in Ho as (s & Hs & ->).
  apply find_some in Hs as [Hin Hid%Z.eqb_eq]. rewrite List.Forall_forall in Hall.
  specialize (Hall s Hin). simpl in Hall. by rewrite Hid, Hi, Nat2Z.id in Hall.
Qed.

#[local] Instance windows_build d : WinBuild K (H1 := windows_filters d).
Proof.
  intros i id o Ho Hi. destruct d as [|d]; [by apply fmap_Some in Ho as (s & Hs & _)|].
  exact (over_slot WinStop (win_filters_over (windows_filters d)) i id o (over_stop _) Ho Hi).
Qed.
End Build.

(** ** The queue *)

Section Queue.
Context {K : Type} `{IocpKernel K} `{FilterList K}.
Implicit Types (w : world K) (p q : ptr) (b : event_buf).

(** The reference of a dequeued completion is held. *)
Definition holds b w : Prop :=
  match io_overlap b with OvKnote p | OvPipe p => iocp_ok p 1 w | _ => forall o, iocp_ok o 0 w end.

Lemma holds_none b w : holds b w -> forall o, iocp_ok o 0 w.
Proof.
  unfold holds. intros Hh o. destruct (io_overlap b); try apply Hh; (eapply io_zero, io_weaken; [exact Hh|lia]).
Qed.

Lemma io_get o port b w w' :
  iocp_ok o 0 w -> same_data w w' -> os_le (w_os w) (w_os w') ->
  ik_pending (w_os w) ≡ₚ (port, b) :: ik_pending (w_os w') -> holds b w' /\ pend_ok w' port b.
Proof.
  intros Hio Hd Hle Hp. split.
  2: { eapply pend_ok_mono; [| |apply (io_pend _ _ _ Hio port b); rewrite Hp; set_solver].
    - intros r. destruct Hd as (-> & _). done.
    - intros r. by apply same_port. }
  assert (Hone : forall r, io_overlap b = OvKnote r \/ io_overlap b = OvPipe r -> iocp_ok r 1 w').
  { intros r Hr. destruct (io_os r 0 w w' (io_zero _ _ _ Hio) Hd Hle) as [A B C D E]. split; try done.
    intros s ks Es. pose proof (fun x => same_wkn _ _ x Hd) as Hx. destruct Hd as (Hk & _). rewrite Hk in Es.
    pose proof (io_refs _ _ _ (io_zero _ r _ Hio) s ks Es) as Hs. unfold tok in *. rewrite Hp in Hs. rewrite Hx. simpl in Hs.
    unfold of_knote in Hs. simpl in Hs. destruct Hr as [Hr|Hr]; rewrite Hr in Hs; repeat case_decide; repeat case_bool_decide; subst; simpl in *; try done; lia. }
  unfold holds. destruct (io_overlap b) eqn:Eo; [|apply Hone; auto..|]; intros r; (eapply io_os; [by eapply io_zero|done|done]).
Qed.

(** The members of the kqueue change, but not its port. *)
Definition with_wkq w q (x : win_kq) : world K := set_w_wn (set_wn_kqs (<[q := x]> (wn_kqs (w_wn w))) (w_wn w)) w.

Lemma port_with_wkq w q x r : kq_iocp x = port_of w q -> port_of (with_wkq w q x) r = port_of w r.
Proof.
  intros Hx. unfold port_of, wkq, with_wkq in *. simpl. destruct (decide (r = q)) as [->|Hr]; [by rewrite lookup_insert_eq|by rewrite lookup_insert_ne].
Qed.

Lemma own_ports w w' q h : ik_assoc (w_os w') = ik_assoc (w_os w) -> port_of w' q = port_of w q -> own_handle w q h -> own_handle w' q h.
Proof. intros Ha Hp Ho port key E. rewrite Ha in E. rewrite Hp. by apply Ho. Qed.

Lemma io_with_wkq o n w q x : kq_iocp x = port_of w q -> iocp_ok o n w -> iocp_ok o n (with_wkq w q x).
Proof.
  intros Hx [A B C D E]. pose proof (fun r => port_with_wkq w q x r Hx) as Hp. split; try done.
  - intros port b Hb. by eapply pend_ok_mono; [| |by apply B].
  - intros r s. rewrite !Hp. apply C.
  - intros r kr s Er Hs Hf. apply (own_ports w); [done|apply Hp|]. by eapply D.
Qed.

Lemma disp_wn f q w : disp q w -> disp q (set_w_wn f w).
Proof. intros [[A1 A2 A3] B C]. by split; [split|..]. Qed.
Lemma win_disp_os k q w : disp q w -> disp q (set_w_os k w).
Proof. intros [[A1 A2 A3] B C]. by split; [split|..]. Qed.
Lemma disp_errno e q w : disp q w -> disp q (set_w_errno e w).
Proof. intros [[A1 A2 A3] B C]. by split; [split|..]. Qed.

(** ** The state between deliveries *)

Record idle q w : Prop :=
  { id_disp : disp q w;
    id_io : forall o, iocp_ok o 0 w;
    id_port : port_of w q <> 0 }.

(** A completion [b] of the port was dequeued into [iocp_buf]. *)
Record loaded q w : Prop :=
  { lo_disp : disp q w;
    lo_holds : holds (iocp_buf (w_wn w)) w;
    lo_pend : pend_ok w (port_of w q) (iocp_buf (w_wn w));
    lo_port : port_of w q <> 0 }.

Lemma loaded_idle q w : loaded q w -> idle q w.
Proof. intros [A B C D]. split; try done. by eapply holds_none. Qed.

Definition pending_len w : Z := Z.of_nat (length (ik_pending (w_os w))).

(** The ports stay, and of the caller's memory only [lo, hi) changes. *)
Definition calls_kept (lo hi : Z) w w' : Prop :=
  (forall r, port_of w' r = port_of w r) /\ (forall a, is_Some (w_mem w !! a) -> is_Some (w_mem w' !! a)) /\
  (forall a, a < lo \/ hi <= a -> w_mem w' !! a = w_mem w !! a).

Lemma calls_trans lo hi lo' w1 w2 w3 :
  calls_kept lo hi w1 w2 -> calls_kept lo' hi w2 w3 -> lo <= lo' -> calls_kept lo hi w1 w3.
Proof.
  intros (A1 & B1 & D1) (A2 & B2 & D2) Hl. split_and!; [intros r; by rewrite A2|eauto|].
  intros a Ha. rewrite D2 by lia. by apply D1.
Qed.

Lemma calls_mem lo hi w w' : (forall r, port_of w' r = port_of w r) -> w_mem w' = w_mem w -> calls_kept lo hi w w'.
Proof. intros Hp Hm. unfold calls_kept. by rewrite Hm. Qed.

Lemma idle_same q w w' :
  idle q w -> disp q w' -> same_data w w' -> os_le (w_os w) (w_os w') -> idle q w'.
Proof.
  intros [A B C] Hdi Hd Hle. split; [done|intros o; by eapply io_os|]. by rewrite (same_port _ _ q Hd).
Qed.

Lemma disp_both k f q w : disp q w -> disp q (set_w_wn f (set_w_os k w)).
Proof. intros Hd. by apply disp_wn, win_disp_os. Qed.

Lemma queued_ok ms q w :
  idle q w -> wp (GetQueuedCompletionStatus (port_of w q) ms) (fun ok w' => (forall lo hi, calls_kept lo hi w w') /\
    pending_len w' <= pending_len w /\ idle q w' /\
    (loaded q w' /\ pending_len w' < pending_len w \/ ok = false /\ io_overlap (iocp_buf (w_wn w')) = OvNull)) w.
Proof.
  intros Hi. unfold GetQueuedCompletionStatus, upd_wn. wp_simpl. apply wp_win; simpl.
  - intros [b oe] k E. destruct (ik_get _ _ _ _ _ E) as (Hp & Ha & Hh). simpl in Hp.
    assert (Hle : os_le (w_os w) k) by (split_and!; [by exists [(port_of w q, b)]|intros; left; by rewrite Ha|intros; by rewrite Hh]).
    assert (Hgo : forall f, iocp_buf f = b -> wn_knotes f = wn_knotes (w_wn w) -> wn_kqs f = wn_kqs (w_wn w) -> wn_vnodes f = wn_vnodes (w_wn w) ->
      let w' := set_w_wn f (set_w_os k (set_w_wn (set_iocp_buf event_buf_zero (w_wn w)) w)) in
      (forall lo hi, calls_kept lo hi w w') /\ pending_len w' <= pending_len w /\ idle q w' /\ loaded q w' /\ pending_len w' < pending_len w).
    { intros f F1 F2 F3 F4 w'. assert (Hd : same_data w w') by (repeat split; simpl; done || lia).
      assert (Hlen : pending_len w' < pending_len w) by (unfold pending_len; simpl; rewrite Hp; simpl; lia).
      assert (Hdi : disp q w') by (apply disp_wn, win_disp_os, disp_wn, Hi).
      destruct (io_get 1%positive (port_of w q) b w w') as [Hh' Hb']; [apply Hi|done|done|done|].
      split_and!; [|lia|by eapply idle_same| |done]; [intros lo hi; apply calls_mem; [intros r; by apply same_port|done]|].
      split; simpl; [done|by rewrite F1|rewrite F1, (same_port _ _ q Hd); done|rewrite (same_port _ _ q Hd); apply Hi]. }
    destruct oe as [e|]; wp_simpl; cbn beta;
      [destruct (Hgo (set_last_error e (set_iocp_buf b (set_iocp_buf event_buf_zero (w_wn w)))) eq_refl eq_refl eq_refl eq_refl)
       as (? & ? & ? & ? & ?)
      |destruct (Hgo (set_iocp_buf b (set_iocp_buf event_buf_zero (w_wn w))) eq_refl eq_refl eq_refl eq_refl) as (? & ? & ? & ? & ?)];
      (split_and!; [done..|left; done]).
  - intros e k E. destruct (ik_get _ _ _ _ _ E) as (Hp & Ha & Hh). simpl in Hp. wp_simpl.
    assert (Hle : os_le (w_os w) k) by (split_and!; [by exists []; rewrite Hp|intros; left; by rewrite Ha|intros; by rewrite Hh]).
    split_and!; [done|unfold pending_len; simpl; rewrite Hp; simpl; lia| |by right].
    eapply idle_same; [exact Hi|apply disp_wn, win_disp_os, disp_wn, Hi|repeat split; simpl; done || lia|done].
Qed.

Lemma drain_ok q produced w :
  idle q w -> wp (drain_next q produced) (fun more w' => (forall lo hi, calls_kept lo hi w w') /\ idle q w' /\
    (more = true -> loaded q w' /\ pending_len w' < pending_len w)) w.
Proof.
  intros Hi. unfold drain_next. wp_simpl. destruct (di_kq _ _ (id_disp _ _ Hi)) as (kq & E & _). unfold get_wkq. wp_simpl.
  eapply wp_get_kq; [exact E|]. wp_simpl. eapply wp_mono; [|by apply queued_ok]. intros ok w1 (Hc & Hle & Hi1 & Hor). cbn beta.
  destruct ok; wp_simpl; [destruct Hor as [Hl|[? _]]; [by split_and!|done]|]. apply ws_last_error. intros e. cbn beta.
  destruct (e =? WAIT_TIMEOUT); [by wp_simpl|]. unfold buf_overlap. wp_simpl. split_and!; [done|done|].
  destruct Hor as [Hl|[_ Ho]]; [done|]. by rewrite Ho.
Qed.
End Queue.

(** ** Aborting *)

Definition aborts {S A : Type} (m : M S A) (s : S) : Prop := m s = Fault Aborted.

Lemma aborts_bind {S A B : Type} (m : M S A) (f : A -> M S B) s :
  wp m (fun a s' => aborts (f a) s') s -> aborts (bind m f) s.
Proof. unfold wp, aborts, bind. by destruct (m s). Qed.
Lemma aborts_first {S A B : Type} (m : M S A) (f : A -> M S B) s : aborts m s -> aborts (bind m f) s.
Proof. unfold aborts, bind. by intros ->. Qed.

Section Abort.
Context {K : Type} `{IocpKernel K} `{FilterList K} `{!WinBuild K}.

(** proc.c does not look whether the knote was deleted. *)
Lemma deleted_proc_fails (w w0 : world K) q p el f kn n ev :
  cst 1 0 w0 q 4 p el f kn w -> has (kn_flags kn) KNFL_KNOTE_DELETED = true -> has (flags (kev kn)) EV_ONESHOT = true ->
  has (flags (kev kn)) EV_DISPATCH = false ->
  wp (windows_evfilt_proc_copyout el n (q, 4%nat) (Some p) ev) (fun rv _ => rv = -1) w.
Proof.
  intros Hs Hd Ho Hdi. assert (Hfin : forall w', cst 1 0 w0 q 4 p el (filter_ (kev kn)) kn w' ->
    wp (act_and_release (q, 4%nat) p) (fun rv _ => rv = -1) w').
  { intros w' Hs'. unfold act_and_release, knote_copyout_flag_actions, knote_delete. c_step. rewrite Hdi. c_step.
    rewrite Ho. c_step. rewrite Hd. wp_simpl.
    change (-1 <? 0) with true. cbn match. by c_step. }
  unfold windows_evfilt_proc_copyout. do 3 c_step. destruct (_ =? 0); [c_step; by apply Hfin|].
  c_step. destruct o; [do 2 c_step|c_step]; by apply Hfin.
Qed.
End Abort.

(** ** One round *)

Section Round.
Context {K : Type} `{IocpKernel K}.
Implicit Types (w : world K) (p q : ptr) (b : event_buf).

(** The list the loop consults, and the one the deliveries of its filters use. *)
Context (outer inner : FilterList K) (same_ids : fs_id <$> (outer : list (filter_src K)) = fs_id <$> (inner : list (filter_src K))).
Context (Hcopy : forall i x o, slot_ops (H := outer) i x = Some o -> WinCopyout (H1 := inner) i o).
#[local] Existing Instance outer.

Lemma disp_inner q w : disp (H := outer) q w -> disp (H := inner) q w.
Proof.
  intros [A (kq & E & Hl & Hk) D]. split; [done| |done]. exists kq. split_and!; [done|done|].
  intros i x Ex Hi. exact (slot_ops_ids _ _ i x same_ids (Hk i x Ex Hi)).
Qed.

Lemma disp_outer q w : disp (H := inner) q w -> disp (H := outer) q w.
Proof.
  intros [A (kq & E & Hl & Hk) D]. split; [done| |done]. exists kq. split_and!; [done|done|].
  intros i x Ex Hi. exact (slot_ops_ids _ _ i x (eq_sym same_ids) (Hk i x Ex Hi)).
Qed.

Lemma s16_key f : - EVFILT_SYSCOUNT <= f < 0 -> s16 (2 ^ 64 + f) = f.
Proof.
  unfold EVFILT_SYSCOUNT. intros Hf. unfold s16, signed. change (16 - 1) with 15.
  replace (2 ^ 64 + f + 2 ^ 15) with ((f + 2 ^ 15) + 2 ^ 48 * 2 ^ 16) by lia. rewrite Z.mod_add by lia. rewrite Z.mod_small; lia.
Qed.

(** A completion that is no wake-up belongs to a live knote of this kqueue. *)
Lemma owner_known q w :
  loaded q w -> io_key (iocp_buf (w_wn w)) <> KQ_CLOSE_DETECT_KEY ->
  (io_key (iocp_buf (w_wn w)) =? 0) && bool_decide (io_overlap (iocp_buf (w_wn w)) = OvNull) = false ->
  exists p kn, iocp_ok p 1 w /\ w_knotes w !! p = Some kn /\ kn_kq kn = Some q /\
    - EVFILT_SYSCOUNT <= filter_ (kev kn) < 0 /\
    forall Q : option ptr * Z -> world K -> Prop, Q (Some p, filter_ (kev kn)) w -> wp (completion_owner (iocp_buf (w_wn w))) Q w.
Proof.
  intros [_ Hh Hp Hpo] Hc Hz. set (b := iocp_buf (w_wn w)) in *. destruct Hp as [?|Hp]; [done|].
  assert (Hown : forall p, iocp_ok p 1 w -> forall P, owner_ok w (port_of w q) p P ->
    exists kn, w_knotes w !! p = Some kn /\ kn_kq kn = Some q /\ - EVFILT_SYSCOUNT <= filter_ (kev kn) < 0 /\ P (filter_ (kev kn))).
  { intros p Hio P (kn & q' & Ek & Hq & Hport & Hr & HP). assert (q' = q) as -> by (apply (io_ports _ _ _ Hio); congruence). by exists kn. }
  unfold holds in Hh. unfold completion_owner. destruct (io_overlap b) as [|p|p|?] eqn:Eo; [|..|done].
  - rewrite Hp in Hz. by rewrite bool_decide_eq_true_2 in Hz.
  - destruct (Hown p Hh _ Hp) as (kn & Ek & Hq & Hr & Hkey). exists p, kn. split_and!; try done; try lia. intros Q HQ.
    rewrite filter_key_range in Hkey by done. destruct (Z.eqb_spec (io_key b) KQ_PIPE_READ_KEY) as [Hk|_].
    { unfold KQ_PIPE_READ_KEY, EVFILT_SYSCOUNT in *. lia. }
    wp_simpl. by rewrite Hkey, s16_key.
  - destruct (Hown p Hh _ Hp) as (kn & Ek & Hq & Hr & Hf & Hkey). exists p, kn. split_and!; try done; try lia. intros Q HQ.
    rewrite Hkey, Z.eqb_refl. wp_simpl. eapply wp_get_kn; [exact Ek|]. by wp_simpl.
Qed.

(** The state after a round. *)
Definition rounded q el n produced w (r : round) w' : Prop :=
  calls_kept el (el + n) w w' /\ idle q w' /\
  match r with
  | Return rv => -1 <= rv <= produced + n
  | DrainMore el' n' pr' => exists d, 0 <= d /\ el' = el + d /\ n' = n - d /\ pr' = produced + d /\ 0 < n' /\
      pending_len w' + n' <= pending_len w + n
  end.

Lemma rounded_same q el n produced w w' :
  calls_kept el (el + n) w w' -> idle q w' -> 0 < n -> pending_len w' <= pending_len w ->
  rounded q el n produced w (DrainMore el n produced) w'.
Proof. intros Hc Hi Hn Hp. split_and!; [done|done|]. exists 0. split_and!; lia. Qed.

Lemma requeue_ok q p kn w :
  disp q w -> iocp_ok p 1 w -> w_knotes w !! p = Some kn -> kn_kq kn = Some q -> port_of w q <> 0 ->
  - EVFILT_SYSCOUNT <= filter_ (kev kn) < 0 ->
  wp (requeue q (Some p)) (fun _ w' => (forall lo hi, calls_kept lo hi w w') /\ idle q w') w.
Proof.
  intros Hd Hio Ek Hq Hport Hr. unfold requeue, get_wkq. wp_simpl. destruct (di_kq _ _ Hd) as (kq & E & _).
  eapply wp_get_kq; [exact E|]. wp_simpl. eapply wp_get_kn; [exact Ek|]. wp_simpl. apply wp_win.
  - intros [] k Ec. wp_simpl. destruct (ik_post _ _ _ _ _ _ _ Ec) as (Hp & Ha & Hh). split; [done|]. split; [by apply win_disp_os| |done].
    intros o. eapply (io_zero p). replace 0 with (1 - 1) by lia. eapply io_post; [exact Hio|by repeat split|done|exact Hp|done|].
    right. simpl. by exists kn, q.
  - intros e k Ec. wp_simpl. destruct (ik_post _ _ _ _ _ _ _ Ec) as (Hp & Ha & Hh). split; [done|]. split; [by apply disp_both| |done].
    intros o. eapply (io_zero p). eapply (io_weaken p 1); [|lia]. eapply io_os; [exact Hio|by repeat split|].
    split_and!; simpl; [by exists []; rewrite Hp|intros; left; by rewrite Ha|intros; by rewrite Hh].
Qed.

Lemma deliver_ok q p kn b batch el n produced w kq x o :
  disp q w -> iocp_ok p 1 w -> w_knotes w !! p = Some kn -> kn_kq kn = Some q -> port_of w q <> 0 ->
  w_kqs w !! q = Some kq -> kq_filt kq !! Z.to_nat (Z.lnot (filter_ (kev kn))) = Some x -> slot_ops (Z.to_nat (Z.lnot (filter_ (kev kn)))) x = Some o ->
  - EVFILT_SYSCOUNT <= filter_ (kev kn) < 0 -> is_Some (w_mem w !! el) -> 0 < n -> 0 <= produced ->
  wpa (deliver (q, Z.to_nat (Z.lnot (filter_ (kev kn)))) (Some p) b batch el n produced) (rounded q el n produced w) w.
Proof.
  intros Hd Hio Ek Hq Hport E Ex Ho Hr Hm Hn Hpr. unfold deliver. set (i := Z.to_nat (Z.lnot (filter_ (kev kn)))) in *.
  apply wpa_step. eapply (ws_upd_wkn (set_kn_dispatch_seq batch)); [by apply wst_start|w_calm|]. intros w1 Hs1 _. apply wpa_step.
  pose proof (ws_frame _ _ _ _ _ _ _ Hs1) as Hf1. eapply wp_filt_ops; [by rewrite (wf_kqs _ _ _ _ Hf1)|done..|]. apply wpa_step.
  destruct Hm as [k0 Hm]. assert (Hc : cst (H1 := inner) 1 0 w1 q i p el (filter_ k0) kn w1).
  { split; try done; try lia; try apply Hs1.
    - apply disp_inner. eapply disp_frame; [exact Hf1|apply Hs1|lia|done].
    - unfold i, Z.lnot in *. lia.
    - exists kq, x. rewrite (wf_kqs _ _ _ _ Hf1). split_and!; try done. pose proof Ho as (id & -> & _)%slot_ops_Some. by eexists.
    - exists k0. by rewrite (wf_mem _ _ _ _ Hf1). }
  eapply wp_mono; [|by eapply (Hcopy i x o Ho)]. intros rv w2 (Hrv & m & f & [D2 I2 P2 M2 (k2 & Hk2 & Hf2) L2] & Hpost). cbn beta.
  destruct (Z.ltb_spec rv 0); [done|]. apply wpa_step. eapply wp_load; [exact Hk2|]. cbn beta.
  assert (Hck : calls_kept el (el + n) w w2).
  { rewrite (wf_mem _ _ _ _ Hf1) in M2. split_and!; [intros r; by rewrite P2, (wframe_port _ _ _ _ r Hf1)| |intros a Ha; apply M2; lia].
    intros a Ha. destruct (decide (a = el)) as [->|Hne]; [by eexists|by rewrite M2]. }
  assert (Hi2 : idle q w2) by (split; [by apply disp_outer|done|by rewrite (proj1 Hck)]).
  assert (Hlen : pending_len w2 <= pending_len w + m) by (pose proof (wf_len _ _ _ _ Hf1); unfold pending_len in *; lia).
  destruct (Z.ltb_spec 0 rv) as [Hp1|Hp0]; simpl.
  - assert (rv = 1) as -> by lia. destruct (Z.eqb_spec (filter_ k2) 0) as [Hz|Hz]; simpl.
    + apply wpa_ret, rounded_same; [done|done|done|]. destruct Hpost as [-> |(_ & _ & Hne)]; [lia|congruence].
    + destruct (Z.leb_spec (n - 1) 0); apply wpa_ret; (split; [done|split; [done|]]); [lia|]. exists 1. split_and!; lia.
  - apply wpa_ret, rounded_same; [done|done|done|]. destruct Hpost as [-> |(_ & -> & _)]; lia.
Qed.

Lemma loaded_mem q w a k : loaded q w -> loaded q (with_mem w a k).
Proof.
  intros [A B D E]. split; [by apply disp_mem| |done|done]. unfold holds in *. simpl.
  destruct (io_overlap _); try (intros o); by apply io_mem.
Qed.

Lemma closed_ok q w : idle q w -> wp (close_detected q) (fun r w' => (forall lo hi, calls_kept lo hi w w') /\ idle q w' /\ r = Return (-1)) w.
Proof.
  intros [A B D]. unfold close_detected, upd_wkq, get_wkq, upd_wn. wp_simpl. destruct (di_kq _ _ A) as (kq & E & _).
  eapply wp_get_kq; [exact E|]. wp_simpl. set (x := set_kq_consumer_closed true (wkq w q)).
  assert (Hx : kq_iocp x = port_of w q) by done. change (set_w_wn _ w) with (with_wkq w q x).
  pose proof (fun r => port_with_wkq w q x r Hx) as Hp. assert (Hi : idle q (with_wkq w q x)).
  { split; [by apply disp_wn|intros o; by apply io_with_wkq|by rewrite Hp]. }
  assert (Hfin : forall w', same_data (with_wkq w q x) w' -> os_le (w_os w) (w_os w') -> disp q w' -> w_mem w' = w_mem w ->
    (forall lo hi, calls_kept lo hi w (set_w_errno EBADF w')) /\ idle q (set_w_errno EBADF w') /\ Return (-1) = Return (-1)).
  { intros w' Hd Hle Hdi Hm. split_and!; [|eapply idle_same; [exact Hi|by apply disp_errno|done|done]|done].
    intros lo hi. apply calls_mem; [|done]. intros r. simpl. rewrite <- Hp. by apply (same_port _ _ r Hd). }
  unfold set_errno. apply wp_win; intros a k Ec; wp_simpl;
    (apply Hfin; [by repeat split|exact (quiet_le _ (WinSubmit q) _ _ _ eq_refl Ec)| |done]); [by apply win_disp_os, disp_wn|by apply disp_both, disp_wn].
Qed.

Lemma round_ok q batch el n produced w :
  loaded q w -> is_Some (w_mem w !! el) -> 0 < n -> 0 <= produced ->
  wpa (dispatch_round q batch el n produced) (rounded q el n produced w) w.
Proof.
  intros Hlo [k Hk] Hn Hpr. unfold dispatch_round. apply wpa_step. unfold upd_mem. wp_simpl. eapply wp_load; [exact Hk|]. wp_simpl.
  eapply wp_store; [exact Hk|]. set (w1 := set_w_mem _ w). assert (Hlo1 : loaded q w1) by (by apply loaded_mem).
  assert (Hck : calls_kept el (el + n) w w1).
  { split_and!; [done|intros a; apply mem_kept|]. intros a Ha. unfold w1. simpl. rewrite lookup_insert_ne; [done|lia]. }
  assert (Hgo : forall r w2, rounded q el n produced w1 r w2 -> rounded q el n produced w r w2).
  { intros r w2 (A & B & D). split_and!; [by eapply calls_trans|done|done]. }
  clear Hlo. assert (Hm1 : is_Some (w_mem w1 !! el)) by (by apply mem_kept). pose proof (loaded_idle _ _ Hlo1) as Hi1.
  eapply wpa_mono; [exact Hgo|]. clear Hgo Hck. clearbody w1. clear Hk k w. rename w1 into w.
  apply wpa_step. wp_simpl. destruct (Z.eqb_spec (io_key (iocp_buf (w_wn w))) KQ_CLOSE_DETECT_KEY) as [|Hc].
  { apply wpa_wp. eapply wp_mono; [|by apply closed_ok]. intros r w2 (A & B & ->). split; [done|split; [done|lia]]. }
  destruct (_ && _) eqn:Hz; [apply wpa_ret; by apply rounded_same|].
  destruct (owner_known q w Hlo1 Hc Hz) as (p & kn & Hio & Ek & Hq & Hr & Hown). pose proof (lo_disp _ _ Hlo1) as Hd. pose proof (lo_port _ _ Hlo1) as Hport.
  apply wpa_step, Hown, wpa_step. simpl. apply (wp_mono _ (fun _ w' => w' = w)).
  2: { destruct (0 <? produced); [|by wp_simpl]. unfold get_wkn. wp_simpl. eapply wp_get_kn; [exact Ek|]. by wp_simpl. }
  intros dup w' ->. destruct dup.
  { apply wpa_step. eapply wp_mono; [|by eapply requeue_ok]. intros [] w2 [A B]. apply wpa_ret. split; [done|split; [done|lia]]. }
  destruct (di_kq _ _ Hd) as (kq & E & Hl & Hsv). pose proof (inv_slots _ _ _ (wi_kq _ (di_winv _ _ Hd) _ _ E)) as Hlen.
  destruct (kq_filt kq !! Z.to_nat (Z.lnot (filter_ (kev kn)))) as [x|] eqn:Ex.
  2: { apply lookup_ge_None in Ex. rewrite Hlen in Ex. unfold EVFILT_SYSCOUNT, Z.lnot in *. lia. }
  apply wpa_step. unfold filter_lookup.
  replace ((Z.lnot (filter_ (kev kn)) <? 0) || (EVFILT_SYSCOUNT <=? Z.lnot (filter_ (kev kn)))) with false.
  2: { symmetry. apply orb_false_iff. rewrite Z.ltb_ge, Z.leb_gt. unfold EVFILT_SYSCOUNT, Z.lnot in *. lia. }
  cbn zeta. wp_simpl. eapply wp_get_filt; [exact E|exact Ex|]. cbn beta. destruct (kf_impl x) as [id|] eqn:Ei; wp_simpl.
  - destruct (Hsv _ x Ex) as [o Ho]; [by rewrite Ei|]. by eapply deliver_ok.
  - unfold set_errno. wp_simpl. apply wpa_ret, rounded_same; [done| |done|done].
    eapply idle_same; [exact Hi1|by apply disp_errno|by repeat split|apply os_le_refl].
Qed.

(** ** The loop *)

Lemma loop_ok fuel : forall q batch el n produced w,
  loaded q w -> (forall a, el <= a < el + n -> is_Some (w_mem w !! a)) -> 0 < n -> 0 <= produced ->
  pending_len w + n < Z.of_nat fuel ->
  wpa (dispatch_loop fuel q batch el n produced) (fun rv w' => calls_kept el (el + n) w w' /\ idle q w' /\ -1 <= rv <= produced + n) w.
Proof.
  induction fuel as [|fuel IH]; intros q batch el n produced w Hlo Hm Hn Hpr Hfu; [unfold pending_len in Hfu; lia|].
  simpl. apply wpa_bind. eapply wpa_mono; [|apply round_ok; [done|apply Hm; lia|done|done]]. intros r w1 (Hc & Hi & Hr).
  destruct r as [rv|el1 n1 pr1]; [by apply wpa_ret|]. destruct Hr as (d & Hd & -> & -> & -> & Hn1 & Hlen). apply wpa_step.
  eapply wp_mono; [|by apply drain_ok]. intros more w2 (Hc2 & Hi2 & Hmore). pose proof (calls_trans _ _ _ _ _ _ Hc (Hc2 el (el + n)) ltac:(lia)) as Hc12.
  destruct more; [|apply wpa_ret; split_and!; [done|done|lia|lia]]. destruct (Hmore eq_refl) as [Hlo2 Hlen2].
  eapply wpa_mono; [|apply IH; [done| |done|lia|lia]].
  - intros rv w3 (Hc3 & Hi3 & Hrv). replace (el + d + (n - d)) with (el + n) in Hc3 by lia.
    split_and!; [apply (calls_trans el (el + n) (el + d) w w2 w3); [done|done|lia]|done|lia|lia].
  - intros a Ha. apply Hc12, Hm. lia.
Qed.

Lemma copyout_ok fuel q nready el n w :
  loaded q w -> (forall a, el <= a < el + n -> is_Some (w_mem w !! a)) -> 0 < n -> pending_len w + n < Z.of_nat fuel ->
  wpa (windows_kevent_copyout fuel q nready el n) (fun rv w' => idle q w' /\ -1 <= rv <= n /\
    forall a, a < el \/ el + n <= a -> w_mem w' !! a = w_mem w !! a) w.
Proof.
  intros Hlo Hm Hn Hfu. unfold windows_kevent_copyout, upd_wkq, get_wkq, upd_wn. apply wpa_step.
  destruct (di_kq _ _ (lo_disp _ _ Hlo)) as (kq & E & _). wp_simpl. eapply wp_get_kq; [exact E|]. wp_simpl. cbn zeta.
  set (batch := if _ =? 0 then 1 else _). apply wpa_step. wp_simpl. eapply wp_get_kq; [exact E|]. wp_simpl.
  set (x := set_kq_dispatch_seq batch (wkq w q)). change (set_w_wn _ w) with (with_wkq w q x).
  assert (Hx : kq_iocp x = port_of w q) by done. pose proof (fun r => port_with_wkq w q x r Hx) as Hp.
  eapply wpa_mono; [|apply loop_ok]; [|destruct Hlo as [A B D F]|done|done|done|done].
  - intros rv w' ((_ & _ & Hm') & Hi & Hrv). split_and!; [done|lia|lia|done].
  - split; [by apply disp_wn| | |by rewrite Hp].
    + unfold holds in *. simpl. destruct (io_overlap _); try (intros o); by apply io_with_wkq.
    + rewrite Hp. eapply (pend_ok_mono w); [done|apply Hp|exact D].
Qed.

(** The completion of a deleted process knote. *)
Lemma proc_aborts fuel q nready el n w p kn kq x o :
  WinBuild K (H1 := inner) -> loaded q w -> iocp_buf (w_wn w) = EventBuf 1 (KQ_FILTER_KEY EVFILT_PROC) (OvKnote p) ->
  w_knotes w !! p = Some kn -> has (kn_flags kn) KNFL_KNOTE_DELETED = true -> has (flags (kev kn)) EV_ONESHOT = true ->
  has (flags (kev kn)) EV_DISPATCH = false -> w_kqs w !! q = Some kq -> kq_filt kq !! 4%nat = Some x ->
  slot_ops 4 x = Some o -> kf_copyout o = windows_evfilt_proc_copyout (H0 := inner) -> is_Some (w_mem w !! el) ->
  aborts (windows_kevent_copyout (S fuel) q nready el n) w.
Proof.
  intros Hbuild [Hdi Hh Hp Hpo] Hb Ek Hd Ho Hdp E Ex Hops Hco [k0 Hm]. unfold windows_kevent_copyout, upd_wkq, get_wkq, upd_wn.
  rewrite Hb in Hh, Hp. unfold holds in Hh. simpl in Hh. destruct Hp as [Hp|(kn' & q' & Ek' & Hq & Hport & Hr & Hkey)]; [done|].
  simpl in Hkey. assert (kn' = kn) as -> by congruence. assert (q' = q) as -> by (apply (io_ports _ _ _ Hh); congruence).
  apply aborts_bind. wp_simpl. eapply wp_get_kq; [exact E|]. wp_simpl. cbn zeta. set (batch := if _ =? 0 then 1 else _).
  apply aborts_bind. wp_simpl. eapply wp_get_kq; [exact E|]. wp_simpl. set (x1 := set_kq_dispatch_seq batch (wkq w q)).
  change (set_w_wn _ w) with (with_wkq w q x1). assert (Hx : kq_iocp x1 = port_of w q) by done.
  simpl dispatch_loop. apply aborts_first. unfold dispatch_round, upd_mem. apply aborts_bind. wp_simpl. eapply wp_load; [exact Hm|]. wp_simpl.
  eapply wp_store; [exact Hm|]. change (set_w_mem _ _) with (with_mem (with_wkq w q x1) el (set_filter_ 0 k0)). set (w2 := with_mem _ _ _).
  assert (Hf : filter_ (kev kn) = EVFILT_PROC).
  { rewrite filter_key_range in Hkey by done. unfold EVFILT_PROC in *. change (KQ_FILTER_KEY (-5)) with (2 ^ 64 + -5) in Hkey. lia. }
  assert (Hd2 : disp q w2) by (by apply disp_mem, disp_wn). assert (Hio2 : iocp_ok p 1 w2) by (by apply io_mem, io_with_wkq).
  apply aborts_bind. wp_simpl. change (iocp_buf (w_wn w2)) with (iocp_buf (w_wn w)). rewrite Hb. simpl io_key. simpl io_overlap.
  change (KQ_FILTER_KEY EVFILT_PROC =? KQ_CLOSE_DETECT_KEY) with false. change (KQ_FILTER_KEY EVFILT_PROC =? 0) with false. cbn match. rewrite andb_false_l.
  apply aborts_bind. unfold completion_owner. simpl io_key. simpl io_overlap. change (KQ_FILTER_KEY EVFILT_PROC =? KQ_PIPE_READ_KEY) with false.
  cbn match. wp_simpl. change (s16 (KQ_FILTER_KEY EVFILT_PROC)) with EVFILT_PROC. apply aborts_bind. wp_simpl. cbn match.
  apply aborts_bind. unfold filter_lookup. change (_ || _) with false. cbn match zeta. wp_simpl. change (Z.to_nat (Z.lnot EVFILT_PROC)) with 4%nat.
  eapply wp_get_filt; [exact E|exact Ex|]. cbn beta. pose proof Hops as (id & Hi & _)%slot_ops_Some. rewrite Hi. wp_simpl.
  unfold deliver. apply aborts_bind. eapply (ws_upd_wkn (set_kn_dispatch_seq batch)); [apply (wst_start w2 q p kn 1); [done|done|done|by eexists]|w_calm|].
  intros w3 Hs3 _. pose proof (ws_frame _ _ _ _ _ _ _ Hs3) as Hf3. apply aborts_bind.
  eapply wp_filt_ops; [rewrite (wf_kqs _ _ _ _ Hf3); exact E|exact Ex|exact Hops|]. apply aborts_bind. rewrite Hco.
  eapply wp_mono; [|eapply (deleted_proc_fails (H1 := inner) w3 w3 q p el 0 kn)]; [|split|done|done|done]; try done.
  - intros rv w4 ->. done.
  - apply disp_inner. eapply disp_frame; [exact Hf3|apply Hs3|lia|done].
  - apply Hs3.
  - apply Hs3.
  - rewrite Hf. done.
  - exists kq, x. rewrite (wf_kqs _ _ _ _ Hf3). split_and!; try done; by rewrite Hi.
  - exists (set_filter_ 0 k0). rewrite (wf_mem _ _ _ _ Hf3). split; [|done]. simpl. by rewrite lookup_insert_eq.
  - lia.
Qed.
End Round.


(** ** The build *)

Section Claim.
Context {K : Type} `{IocpKernel K} (C : version) (depth : nat).
Implicit Types (w : world K) (q : ptr).

(** C5: delivering completions on Windows is memory safe and ends: when the completion
    in the buffer and those that are queued, or come from reads under way, belong to
    live knotes whose reference counts cover them, [windows_kevent_copyout] uses no
    freed knote and no NULL pointer, writes to no memory of the caller but the [n]
    entries, and ends after at most as many rounds as there are completions and
    entries, whatever Windows answers and whatever is disabled, deleted and freed on
    the way.  It returns at most [n], leaving the counts covered again, unless a
    copyout reports a failure and it calls [abort()]. *)
Theorem windows_copyout_safe fuel q nready el n w :
  let L : FilterList K := windows_filters C fuel (S (S depth)) in
  loaded q w -> (forall a, el <= a < el + n -> is_Some (w_mem w !! a)) -> 0 < n -> pending_len w + n < Z.of_nat fuel ->
  wpa (windows_kevent_copyout fuel q nready el n) (fun rv w' => idle q w' /\ -1 <= rv <= n /\
    forall a, a < el \/ el + n <= a -> w_mem w' !! a = w_mem w !! a) w.
Proof.
  intros L. apply (copyout_ok L (windows_filters C fuel (S depth)) (over_ids C fuel _ _)).
  intros i x o (id & _ & Hi & Ho)%slot_ops_Some.
  exact (over_slot (fun i o => WinCopyout (H1 := windows_filters C fuel (S depth)) i o) L i id o
    (over_wcopy C fuel (windows_filters C fuel (S depth)) (WinBuild0 := windows_build C fuel (S depth))) Ho Hi).
Qed.

(** C39: a process that exits before its knote is deleted aborts the caller: proc.c
    posts a completion when the process exits and its copyout does not look whether
    the knote was deleted since, so it deletes the knote a second time, which fails,
    and [windows_kevent_copyout] answers a failing copyout with [abort()]. *)
Theorem deleted_proc_aborts fuel q nready el n w p kn kq x :
  let L : FilterList K := windows_filters C fuel (S (S depth)) in
  loaded q w -> iocp_buf (w_wn w) = EventBuf 1 (KQ_FILTER_KEY EVFILT_PROC) (OvKnote p) ->
  w_knotes w !! p = Some kn -> has (kn_flags kn) KNFL_KNOTE_DELETED = true -> has (flags (kev kn)) EV_ONESHOT = true ->
  has (flags (kev kn)) EV_DISPATCH = false -> w_kqs w !! q = Some kq -> kq_filt kq !! 4%nat = Some x ->
  kf_impl x = Some EVFILT_PROC -> is_Some (w_mem w !! el) ->
  windows_kevent_copyout (S fuel) q nready el n w = Fault Aborted.
Proof.
  intros L Hlo Hb Ek Hd Ho Hdi E Ex Hi Hm.
  apply (proc_aborts L (windows_filters C fuel (S depth)) (over_ids C fuel _ _) fuel q nready el n w p kn kq x
    (fs_ops (windows_evfilt_proc (H0 := windows_filters C fuel (S depth))))); try assumption.
  - apply windows_build.
  - apply slot_ops_Some. exists EVFILT_PROC. split; [exact Hi|]. split; [reflexivity|].
    exact (over_proc C fuel (windows_filters C fuel (S depth))).
  - reflexivity.
Qed.
End Claim.
