(* ===== verification/WinFilters.v ===== *)
(** * The filters of a Windows build keep the references

    [WinFilter]: what the callbacks of a filter promise about [iocp_ok], for every
    filter of the build, and the callbacks that the thread pool runs. *)

From Stdlib Require Import ZArith Lia Bool.
From stdpp Require Import base list gmap.
From S2P Require Import Prelude RBTree Event Map State Ops Knote Filter Kqueue LibkqueueFilter WinPlatform WinKernel WinUser WinRules WinTimer WinProc WinReadWrite WinVnode WinContracts WinVnodeRules WinDeliver WinDispatch.

(** A callback on the knote [p] posted at most [m] completions and changed nothing but
    that knote; the counts cover the completions again. *)
Definition settled {K : Type} `{IocpKernel K} (m : Z) (p : ptr) (w w' : world K) : Prop :=
  wframe m p w w' /\ iocp_ok p 0 w' /\ (winv w -> winv w').

Class WinFilter {K : Type} `{IocpKernel K} (i : nat) (o : filter_ops K) : Prop :=
  { wf_create : forall w q p kn, wpre w q i p kn -> wnew w q kn ->
      wp (kn_create o (q, i) p) (fun _ w' => settled 1 p w w') w;
    wf_modify : forall w q p kn k, wpre w q i p kn -> wnew w q kn -> timer_range k ->
      wp (kn_modify o (q, i) p k) (fun _ w' => settled 1 p w w') w;
    wf_delete : forall w q p kn, wpre w q i p kn -> wp (kn_delete o (q, i) p) (fun _ w' => settled 0 p w w') w;
    wf_enable : forall w q p kn, wpre w q i p kn -> wnew w q kn ->
      wp (kn_enable o (q, i) p) (fun _ w' => settled 1 p w w') w;
    wf_disable : forall w q p kn, wpre w q i p kn -> wp (kn_disable o (q, i) p) (fun _ w' => settled 0 p w w') w }.

Section Filters.
Context {K : Type} `{IocpKernel K} `{FilterList K}.
Implicit Types (w : world K) (p q : ptr) (kn : knote).

Lemma settled_runs m m' w q p w' : runs m w q p w' -> m <= m' -> settled m' p w w'.
Proof.
  intros [kn [A B _ _ _]] Hm. split_and!; [by eapply wframe_more|done|]. intros Hw. by eapply winv_wframe.
Qed.

Lemma settled_wst m n w q p kn w' : wst m n w q p kn w' -> 0 <= n -> settled m p w w'.
Proof. intros Hs Hn. eapply settled_runs; [|done]. exists kn. by eapply ws_weaken. Qed.

Lemma settled_refl w q i p kn m : wpre w q i p kn -> 0 <= m -> settled m p w w.
Proof. intros Hp Hm. eapply settled_runs; [exists kn; by eapply wpre_start|done]. Qed.

Ltac runs_by L := eapply wp_mono; [|eapply L; first [eassumption|reflexivity]]; cbn beta; intros ? ? Hr; (eapply settled_runs; [exact Hr|lia]).
Ltac rest := intros; simpl; by (unfold wp; simpl; eapply settled_refl; [eassumption|lia]).

#[export] Instance user_win : WinFilter 10 (fs_ops windows_evfilt_user).
Proof. split; [rest| |rest..]. intros w q p kn k Hp Hn _. simpl. runs_by user_modify_ok. Qed.

Lemma close_settled w q i p kn : wpre w q i p kn -> wp (close_wait p) (fun _ w' => settled 0 p w w') w.
Proof.
  intros Hp. eapply wp_mono; [|eapply close_wait_ok, wpre_start; eassumption]. intros rv w' [_ Hs]. by eapply settled_wst.
Qed.

Lemma proc_create_settled w q p kn :
  wpre w q 4 p kn -> wp (windows_evfilt_proc_knote_create (q, 4%nat) p) (fun _ w' => settled 1 p w w') w.
Proof. intros Hp. runs_by proc_create_ok. Qed.

#[export] Instance proc_win : WinFilter 4 (fs_ops windows_evfilt_proc).
Proof.
  split; intros; simpl; try (by eapply proc_create_settled); try (by eapply close_settled).
  unfold windows_evfilt_proc_knote_modify. wp_simpl. eapply ws_get_wkn; [by eapply wpre_start|].
  destruct (_ && _); [by eapply proc_create_settled|wp_simpl]. by eapply settled_refl.
Qed.

Lemma signal_create_settled w q p kn :
  wpre w q 5 p kn -> wp (windows_evfilt_signal_knote_create (q, 5%nat) p) (fun _ w' => settled 1 p w w') w.
Proof. intros Hp. runs_by signal_create_ok. Qed.

#[export] Instance signal_win : WinFilter 5 (fs_ops windows_evfilt_signal).
Proof.
  split; intros; simpl; try (by eapply signal_create_settled); try (by eapply close_settled).
  unfold windows_evfilt_signal_knote_modify. wp_simpl. by eapply settled_refl.
Qed.

Lemma slot_is w q i p kn f : wpre w q i p kn -> Z.lnot f = Z.of_nat i -> filter_ (kev kn) = f.
Proof. intros Hp Hf. pose proof (wp_slot _ _ _ _ _ Hp). unfold Z.lnot in *. lia. Qed.

Lemma timer_create_settled w q p kn :
  wpre w q 6 p kn -> wnew w q kn -> wp (windows_evfilt_timer_knote_create (q, 6%nat) p) (fun _ w' => settled 1 p w w') w.
Proof.
  intros Hp Hn. pose proof (wn_room _ _ _ Hn). eapply wp_mono; [|eapply win_timer_create_ok; [by eapply wpre_start|by eapply slot_is|apply Hp|lia|apply Hn]].
  cbn beta. intros rv w' Hr. by eapply (settled_runs _ _ _ _ _ _ Hr).
Qed.

Lemma timer_delete_settled w q p kn :
  wpre w q 6 p kn -> wp (ktimer_delete (q, 6%nat) p) (fun _ w' => settled 0 p w w') w.
Proof.
  intros Hp. eapply wp_mono; [|eapply ktimer_delete_ok; [by eapply wpre_start|by eapply slot_is|done|right; apply Hp]].
  intros rv w' (_ & c & Hs & _). by eapply settled_wst.
Qed.

#[export] Instance timer_win : WinFilter 6 (fs_ops windows_evfilt_timer).
Proof.
  split; intros; simpl; try (by eapply timer_create_settled); try (by eapply timer_delete_settled). runs_by win_timer_modify_ok.
Qed.

Lemma read_create_settled w q p kn :
  wpre w q 0 p kn -> wnew w q kn -> wp (windows_evfilt_read_knote_create (q, 0%nat) p) (fun _ w' => settled 1 p w w') w.
Proof.
  intros Hp Hn. pose proof (wn_room _ _ _ Hn).
  eapply wp_mono; [|eapply win_read_create_ok; [by eapply wpre_start|by eapply slot_is|apply Hp|lia|apply Hn]].
  cbn beta. intros rv w' Hr. by eapply (settled_runs _ _ _ _ _ _ Hr).
Qed.

Lemma read_delete_settled w q p kn :
  wpre w q 0 p kn -> wp (windows_evfilt_read_knote_delete (q, 0%nat) p) (fun _ w' => settled 0 p w w') w.
Proof. intros Hp. eapply wp_mono; [|eapply read_delete_ok, wpre_start; eassumption]. intros rv w' [_ Hs]. by eapply settled_wst. Qed.

#[export] Instance read_win : WinFilter 0 (fs_ops windows_evfilt_read).
Proof.
  split; intros; simpl; try (by eapply read_create_settled); try (by eapply read_delete_settled). runs_by win_read_modify_ok.
Qed.

Lemma write_create_settled w q p kn :
  wpre w q 1 p kn -> wnew w q kn -> wp (windows_evfilt_write_knote_create (q, 1%nat) p) (fun _ w' => settled 1 p w w') w.
Proof.
  intros Hp Hn. pose proof (wn_room _ _ _ Hn).
  eapply wp_mono; [|eapply win_write_create_ok; [by eapply wpre_start|by eapply slot_is|apply Hp|lia]].
  cbn beta. intros rv w' Hr. by eapply (settled_runs _ _ _ _ _ _ Hr).
Qed.

Lemma write_delete_settled w q p kn :
  wpre w q 1 p kn -> wp (windows_evfilt_write_knote_delete (q, 1%nat) p) (fun _ w' => settled 0 p w w') w.
Proof. intros Hp. eapply wp_mono; [|eapply delete_socket_ok, wpre_start; eassumption]. intros rv w' [_ Hs]. by eapply settled_wst. Qed.

#[export] Instance write_win : WinFilter 1 (fs_ops windows_evfilt_write).
Proof.
  split; intros; simpl; try (by eapply write_create_settled); try (by eapply write_delete_settled). runs_by win_write_modify_ok.
Qed.

Lemma vnode_create_settled w q p kn :
  wpre w q 3 p kn -> wp (windows_evfilt_vnode_knote_create (q, 3%nat) p) (fun _ w' => settled 1 p w w') w.
Proof.
  intros Hp. eapply wp_mono; [|eapply vnode_create_ok; [by eapply wpre_start|by eapply slot_is]].
  cbn beta. intros rv w' Hr. by eapply (settled_runs _ _ _ _ _ _ Hr).
Qed.

Lemma vnode_delete_settled w q p kn :
  wpre w q 3 p kn -> wp (windows_evfilt_vnode_knote_delete (q, 3%nat) p) (fun _ w' => settled 0 p w w') w.
Proof. intros Hp. eapply wp_mono; [|eapply vnode_delete_ok, wpre_start; eassumption]. intros rv w' [_ Hs]. by eapply settled_wst. Qed.

#[export] Instance vnode_win : WinFilter 3 (fs_ops windows_evfilt_vnode).
Proof.
  split; intros; simpl; try (by eapply vnode_create_settled); try (by eapply vnode_delete_settled). runs_by vnode_modify_ok.
Qed.

(** ** The callbacks of the thread pool *)

Lemma counted_settled skip give w q p kn w' : counted skip give w q p kn w' -> settled 1 p w w'.
Proof. intros (b & Hs & _). eapply settled_wst; [eapply ws_weaken; [exact Hs|destruct b; simpl; lia|done]|done]. Qed.

Ltac post_by Hs Hp :=
  wp_simpl; eapply wp_mono; [intros ? ? Hc; wp_simpl; exact Hc|eapply counted_post; [exact Hs|assumption|apply Hp|assumption]].

Lemma read_callback_ok w q i p kn :
  wpre w q i p kn -> 0 <= kn_ref kn < 2 ^ 32 - 1 -> wp (evfilt_read_callback p false) (fun _ w' => counted True 0 w q p kn w') w.
Proof.
  intros Hp Hr. pose proof (wpre_start _ _ _ _ _ Hp) as Hs. pose proof (wpre_filter _ _ _ _ _ Hp) as Hf.
  unfold evfilt_read_callback. w_step. rewrite (wp_q _ _ _ _ _ Hp). do 2 w_step. destruct o as [[events ce]|]; [|wp_simpl; by apply counted_skip].
  wp_simpl. apply (wp_mono _ (fun _ w' => wst 0 0 w q p kn w')); [|destruct (has events FD_CLOSE); [unfold latch_eof; by w_step|by wp_simpl]].
  intros [] w2 Hs2. cbn beta. wp_simpl. apply (wp_mono _ (fun _ w' => wst 0 0 w q p kn w')).
  - intros go w3 Hs3. cbn beta. destruct go; [post_by Hs3 Hp|wp_simpl; by apply counted_skip].
  - destruct (has (flags (kev kn)) EV_EDGE); [|by wp_simpl]. unfold fresh_data. w_go; done.
Qed.

Lemma write_callback_ok w q i p kn :
  wpre w q i p kn -> 0 <= kn_ref kn < 2 ^ 32 - 1 -> wp (evfilt_write_callback p false) (fun _ w' => counted True 0 w q p kn w') w.
Proof.
  intros Hp Hr. pose proof (wpre_start _ _ _ _ _ Hp) as Hs. pose proof (wpre_filter _ _ _ _ _ Hp) as Hf.
  unfold evfilt_write_callback. w_step. rewrite (wp_q _ _ _ _ _ Hp). do 2 w_step.
  destruct o as [x|]; [post_by Hs0 Hp|wp_simpl]. by apply counted_skip.
Qed.

Lemma vnode_callback_ok w q i p kn :
  wpre w q i p kn -> 0 <= kn_ref kn < 2 ^ 32 - 1 ->
  wp (evfilt_vnode_callback p false) (fun _ w' => counted (kn_vs (wkn w p) = None) 0 w q p kn w') w.
Proof.
  intros Hp Hr. pose proof (wpre_start _ _ _ _ _ Hp) as Hs. pose proof (wpre_filter _ _ _ _ _ Hp) as Hf.
  unfold evfilt_vnode_callback. w_step. rewrite (wp_live _ _ _ _ _ Hp). w_step.
  destruct (kn_vs (wkn w p)) as [v|] eqn:Ev; [|wp_simpl; by apply counted_skip]. wp_simpl.
  apply ws_get_vs; [eapply io_vs; [apply Hp|apply Hp|exact Ev]|]. intros s. rewrite (wp_q _ _ _ _ _ Hp).
  destruct (_ =? INVALID_HANDLE_VALUE); wp_simpl; [post_by Hs Hp|].
  w_step. post_by Hs0 Hp.
Qed.

Lemma proc_callback_ok w q i p kn :
  wpre w q i p kn -> 0 <= kn_ref kn < 2 ^ 32 - 1 -> wp (evfilt_proc_callback p false) (fun _ w' => counted False 0 w q p kn w') w.
Proof.
  intros Hp Hr. pose proof (wpre_start _ _ _ _ _ Hp) as Hs. pose proof (wpre_filter _ _ _ _ _ Hp) as Hf.
  unfold evfilt_proc_callback. w_step. rewrite (wp_live _ _ _ _ _ Hp). post_by Hs Hp.
Qed.

Lemma signal_callback_ok w q i p kn :
  wpre w q i p kn -> 0 <= kn_ref kn < 2 ^ 32 - 1 -> wp (evfilt_signal_callback p false) (fun _ w' => counted False 0 w q p kn w') w.
Proof.
  intros Hp Hr. pose proof (wpre_start _ _ _ _ _ Hp) as Hs. pose proof (wpre_filter _ _ _ _ _ Hp) as Hf.
  unfold evfilt_signal_callback. w_step. rewrite (wp_live _ _ _ _ _ Hp). wp_simpl. eapply ws_retain; [exact Hs|done|]. intros w1 Hs1 _ _.
  do 2 w_step. eapply ws_post; [eassumption|done|..].
  - intros w3 Hs3 [_ Ht]. wp_simpl. exists true. split; [exact Hs3|exact Ht].
  - intros w3 Hs3 [_ Ht]. wp_simpl. eapply ws_release; [exact Hs3|apply ws_alive in Hs3; [simpl in *; lia|apply Hp]|]. intros w4 Hs4 _.
    exists false. simpl in Hs4 |- *. replace (kn_ref kn + 1 - 1) with (kn_ref kn + 0) in Hs4 by lia. split; [exact Hs4|by right].
Qed.
End Filters.

(** ** Expiries of a periodic timer *)


Section Expiries.
Context {K : Type} `{IocpKernel K}.
Implicit Types (w : world K) (p q : ptr) (kn : knote).





End Expiries.

(** The function the thread pool runs, and the slot of its filter. *)
Definition pool_callback {K : Type} `{OS K} `{FilterList K} (c : wait_callback) : ptr -> bool -> M (world K) unit :=
  match c with
  | WaitRead => evfilt_read_callback | WaitWrite => evfilt_write_callback | WaitVnode => evfilt_vnode_callback
  | WaitProc => evfilt_proc_callback | WaitSignal => evfilt_signal_callback | WaitTimer => evfilt_timer_callback
  end.
Definition pool_slot (c : wait_callback) : nat :=
  match c with WaitRead => 0 | WaitWrite => 1 | WaitVnode => 3 | WaitProc => 4 | WaitSignal => 5 | WaitTimer => 6 end.

Section Claims.
Context {K : Type} `{IocpKernel K} `{FilterList K}.
Implicit Types (w : world K) (p q : ptr) (kn : knote).

(** C16: the filters of src/windows keep every completion covered by a reference: called
    on a registered knote, creating, modifying, enabling, disabling and deleting
    return without a fault, whatever Windows answers; they change no other knote and
    post at most one completion, and afterwards each knote's count still covers its
    registration, the wait of a periodic timer and the completions that are queued or
    under way for it, each completion is for a live knote of the kqueue whose port it
    is at, and a vnode's state belongs to one knote.  What it takes: room in the
    counter, a timer value of at most 9 * 10^11, and a descriptor no other kqueue
    watches. *)
Theorem windows_filters_keep_refs :
  Forall (fun s => WinFilter (Z.to_nat (Z.lnot (fs_id s))) (fs_ops s))
    [windows_evfilt_read; windows_evfilt_write; windows_evfilt_signal; windows_evfilt_vnode; windows_evfilt_proc;
     windows_evfilt_timer; windows_evfilt_user].
Proof. repeat apply List.Forall_cons; try apply List.Forall_nil; simpl; exact _. Qed.

(** Where a callback need not post: a socket may have nothing new, a vnode may be
    forgotten, a timer may have expiries that are not delivered yet. *)
Definition may_skip (c : wait_callback) w p : Prop :=
  match c with
  | WaitRead | WaitWrite => True
  | WaitVnode => kn_vs (wkn w p) = None
  | WaitProc | WaitSignal => False
  | WaitTimer => kn_fire_count (wkn w p) <> 0
  end.

(** The references a callback that posts gives back: a one-shot timer's wait is over. *)
Definition gives_back (c : wait_callback) kn : Z :=
  match c with WaitTimer => Z.b2z (has (flags (kev kn)) EV_ONESHOT) | _ => 0 end.

(** C17: so do the callbacks the thread pool runs when a wait is satisfied: on a
    registered knote they return without a fault and change no other knote, and the
    count of the knote changes by exactly the references that change hands.  A callback
    that posts leaves a completion in the queue, at most one more than before, and has
    taken a reference for it; that of a one-shot timer has given back the reference its
    wait held.  A callback that does not post leaves the count as it was; it does so only
    where it may (a socket with nothing new, a vnode without state, a timer whose last
    expiries are not delivered yet) or where PostQueuedCompletionStatus fails.  What it
    takes: room in the counter, and for a one-shot timer that its wait holds a
    reference. *)
Theorem pool_callbacks_keep_refs c w q p kn :
  wpre w q (pool_slot c) p kn -> 0 <= kn_ref kn < 2 ^ 32 - 1 -> winv w ->
  (c = WaitTimer -> has (flags (kev kn)) EV_ONESHOT = true -> iocp_ok p 1 w) ->
  wp (pool_callback c p false) (fun _ w' => settled 1 p w w' /\ exists posted : bool,
    w_knotes w' !! p = Some (set_kn_ref (kn_ref kn + (if posted then 1 - gives_back c kn else 0)) kn) /\
    pending_len w' <= pending_len w + Z.b2z posted /\
    if posted then 0 < tok w' p else may_skip c w p \/ ~ posts_always (K := K)) w.
Proof.
  intros Hp Hr Hw Ht. eapply (wp_mono _ (fun _ w' => counted (may_skip c w p) (gives_back c kn) w q p kn w')).
  { intros [] w' Hc. split; [by eapply counted_settled|]. destruct Hc as (b & Hs & Hb). exists b.
    split_and!; [apply Hs|apply (wf_len _ _ _ _ (ws_frame _ _ _ _ _ _ _ Hs))|done]. }
  destruct c; simpl.
  all: try (by eapply read_callback_ok || by eapply write_callback_ok || by eapply vnode_callback_ok
    || by eapply proc_callback_ok || by eapply signal_callback_ok).
  eapply timer_callback_ok; [|by eapply wpre_filter|apply Hp|done|done].
  pose proof (wpre_start _ _ _ _ _ Hp) as Hs. destruct (has (flags (kev kn)) EV_ONESHOT); [|done].
  destruct Hs as [A _ B D E]. split; try done. by apply Ht.
Qed.

End Claims.

(** ** Waiting *)

(** The time [windows_kevent_wait] asks for is the timeout in milliseconds, rounded
    down but at least 1 unless it is 0, modulo 2^32: it is exact below 2^32 ms, 49.7
    days; a timeout of 2^32 ms is a poll, and one of 2^32 - 1 ms waits for ever. *)
Theorem wait_ms_exact t :
  0 <= tv_sec t -> 0 <= tv_nsec t < 10 ^ 9 ->
  let ns := tv_sec t * 10 ^ 9 + tv_nsec t in
  wait_ms (Some t) = if ns =? 0 then 0 else if ns <? 10 ^ 6 then 1 else (ns / 10 ^ 6) mod 2 ^ 32.
Proof.
  destruct t as [s n]. unfold wait_ms. cbn [tv_sec tv_nsec]. change (10 ^ 9) with 1000000000. change (10 ^ 6) with 1000000. intros Hs Hn. cbn zeta.
  assert (Hd : (s * 1000000000 + n) / 1000000 = s * 1000 + n / 1000000).
  { replace (s * 1000000000 + n) with (n + s * 1000 * 1000000) by lia. rewrite Z.div_add by lia. lia. }
  rewrite (Z.quot_div_nonneg n 1000000) by lia.
  destruct (Z.eqb_spec s 0) as [-> |Hs0]; cbn [andb].
  - change (0 * 1000000000 + n) with n. destruct (Z.eqb_spec n 0) as [-> |Hn0]; [done|]. destruct (Z.ltb_spec n 1000000); [done|].
    rewrite (proj2 (Z.ltb_lt 0 n)) by lia. unfold u32. rewrite Z.ltb_irrefl, Z.add_0_l. reflexivity.
  - rewrite (proj2 (Z.eqb_neq (s * 1000000000 + n) 0)), (proj2 (Z.ltb_ge (s * 1000000000 + n) 1000000)), (proj2 (Z.ltb_lt 0 s)) by lia. rewrite Hd. unfold u32.
    assert (Hm : ((s mod 2 ^ 32) * 1000) mod 2 ^ 32 = (s * 1000) mod 2 ^ 32) by (by rewrite Z.mul_mod_idemp_l).
    rewrite Hm. destruct (Z.ltb_spec 0 n) as [Hp|Hp]; [by rewrite Z.add_mod_idemp_l|]. assert (n = 0) as -> by lia. by rewrite Z.add_0_r.
Qed.

(** 4294967.296 s: the wait returns at once. *)
Lemma wait_ms_exact_witness : wait_ms (Some (Timespec 4294967 296000000)) = 0.
Proof. exact (wait_ms_exact (Timespec 4294967 296000000) ltac:(simpl; lia) ltac:(simpl; lia)). Defined.
