(* ===== verification/Demo.v ===== *)
(** * A small system on which the theorems apply

    A kernel that always has memory and descriptors and reports the event of one
    EVFILT_USER knote to those who wait without a timeout, the Linux build of
    [LinuxBuild] on it, and a kqueue with that knote.
    The contracts hold for this system, and each claim about changes, calls and
    the life of a kqueue is applied to it. *)

From Stdlib Require Import ZArith Lia Bool.
From stdpp Require Import base list gmap.
From S2P Require Import Prelude RBTree Event Map State Ops Knote Filter Kqueue Kevent Lifecycle LibkqueueFilter LinuxUdata LinuxEpoll LinuxShared LinuxRules LinuxTimer LinuxUser LinuxProc LinuxReadWrite LinuxVnode LinuxKevent LinuxKqueue LinuxEpoch LinuxContracts LinuxSocket LinuxUpdate LinuxRWContract LinuxBuild LinuxDeliver LinuxDispatch.

(** ** The kernel *)

(** The state of the kernel is the next free descriptor. *)
#[export] Instance demo_os : OS Z := fun A c k =>
  match c in syscall A return sysres A * Z with
  | SysAlloc => (SOk tt, k)
  | SysEpollCreate => (SOk k, k + 1)
  | SysEpollCtl _ _ _ _ => (SOk tt, k)
  | SysEpollWait _ _ t => (SOk (if t <? 0 then [EpollEvent EPOLLIN (Some 4%positive)] else []), k)
  | SysPpoll _ _ => (SOk 0, k)
  | SysEventfd _ _ => (SOk k, k + 1)
  | SysWrite8 _ _ => (SOk 8, k)
  | SysRead8 _ => (SOk (8, 1), k)
  | SysClose _ => (SOk tt, k)
  | SysPipe2 => (SOk (k, k + 1), k + 2)
  | SysFcntl _ _ _ => (SOk 0, k)
  | SysFstat _ => (SOk (Stat S_IFIFO 1 0 (Timespec 0 0)), k)
  | SysPthreadCreate => (SOk 77, k)
  | SysRead _ _ => (SErr EAGAIN, k)
  | _ => (SErr ENOSYS, k)
  end.

#[export] Instance demo_sockets : SocketKernel Z.
Proof. split; [by eexists|done]. Qed.

Definition demo_version : version := Version 4096 2 6 3 (Some 0) true.
#[export] Instance demo_filters : FilterList Z := linux_filters demo_version true 4 3.
Definition demo_kqops : kqueue_vtable Z := kqops true 4.

Lemma demo_drains fd n (w : world Z) :
  wp (drain_pipe 4 fd n) (fun _ w' => exists k e, w' = set_w_os k (set_w_errno e w)) w.
Proof. exists (w_os w), EAGAIN. by destruct w. Qed.

#[export] Instance demo_delivery : DeliveryKernel Z 4.
Proof.
  split; [exact demo_drains| |done].
  intros fd w. exists (w_os w), ENOSYS. by destruct w.
Qed.

#[export] Instance demo_build : BuildContract linux_inv := linux_build demo_version true 4 3.
#[export] Instance demo_vtable : VtableContract linux_inv demo_kqops := linux_vtable_contract 4 true.
#[export] Instance demo_kevent : KeventContract demo_kqops linux_inv := release_contract demo_version 4 1.

(** ** The state *)

(** Identifier 7 of EVFILT_USER, one-shot, at address 3, with its udata at 4. *)
Definition demo_kev : kevent := Kevent 7 EVFILT_USER EV_ONESHOT 0 0 0.
Definition demo_kn : knote :=
  set_kn_udata (Some 4%positive) (set_kn_user_eventfd 9 (set_kn_ref 1 (set_kn_kq (Some 2%positive)
    (set_kev demo_kev knote_zero)))).

Definition demo_slot (id : Z) : filter := Filter id (Some id) NULL [] 0 None None.
Definition demo_filt : list filter :=
  [demo_slot EVFILT_READ; demo_slot EVFILT_WRITE; filter_zero; demo_slot EVFILT_VNODE; demo_slot EVFILT_PROC; filter_zero;
   demo_slot EVFILT_TIMER; filter_zero; filter_zero; filter_zero;
   set_kf_index (Node RB_BLACK NULL (Entry 7 3) NULL) (demo_slot EVFILT_USER); demo_slot EVFILT_LIBKQUEUE].

Section State.
Context (locked freeing mtx : bool) (inflight : list kevent_state).

Definition demo_kq : kqueue :=
  Kqueue 6 demo_filt locked freeing 1 4 5 6 NULL None 1 inflight [].

(** A change list of two entries at 100 and room for four events at 200. *)
Definition demo_receipt : kevent := Kevent 8 EVFILT_USER (Z.lor EV_ADD EV_RECEIPT) 0 0 0.
Definition demo_delete : kevent := Kevent 7 EVFILT_USER EV_DELETE 0 0 0.
(** A change that watches the pipe at descriptor 5. *)
Definition demo_pipe : kevent := Kevent 5 EVFILT_READ EV_ADD 0 0 0.
Definition demo_mem : gmap Z kevent :=
  <[100 := demo_receipt]> (<[101 := demo_delete]> (<[200 := kevent_zero]> (<[201 := kevent_zero]>
    (<[202 := kevent_zero]> {[203 := kevent_zero]})))).

Definition demo_w : world Z :=
  World 10 0 5 {[3%positive := demo_kn]}
    {[4%positive := EpollUdata EPOLL_UDATA_KNOTE (ud_kn 3) false 0]} ∅ {[2%positive := demo_kq]}
    demo_mem [] mtx (Map 64 {[6 := 2%positive]}) [2%positive] 1 true false false false false 77 3 (-1) 0 ∅ sig_static posix_static solaris_static windows_static.

Lemma demo_winv : winv demo_w.
Proof.
  split; simpl.
  - intros q kq [<- <-]%lookup_singleton_Some. split; [done| |done]. intros i f Hi.
    assert (Hz : elements (kf_index f) = [] -> kf_index f = NULL -> kf_ready f = [] ->
      slot_ok {[3%positive := demo_kn]} 2 i f).
    { intros H1 H2 H3. split; rewrite ?H2, ?H3; try done; [apply wf_empty|constructor..]. }
    destruct (decide (i = 10%nat)) as [->|Hne].
    2: { do 12 (destruct i as [|i]; [first [done|injection Hi as <-; by apply Hz]|]). done. }
    injection Hi as <-. split; simpl; try done.
    + split; [by repeat constructor|]. exists 1%nat. repeat constructor.
    + constructor; [|constructor]. exists demo_kn. by vm_compute.
  - intros p Hp. apply lookup_singleton_ne. lia.
  - intros p Hp. apply lookup_singleton_ne. lia.
Qed.

Lemma demo_data : linux_data demo_w.
Proof.
  split; simpl.
  - intros p kn u [<- <-]%lookup_singleton_Some [= <-]. exists 0. by rewrite lookup_singleton_eq.
  - intros s d u Hs. by rewrite lookup_empty in Hs.
  - by intros q kq u [<- <-]%lookup_singleton_Some.
  - intros q kq u [<- <-]%lookup_singleton_Some Hu. by apply elem_of_nil in Hu.
  - intros q kq [<- <-]%lookup_singleton_Some. constructor.
  - intros q q' kq kq' u [<- <-]%lookup_singleton_Some _ Hu. by apply elem_of_nil in Hu.
  - intros p Hp. rewrite lookup_empty, lookup_singleton_ne by lia. done.
  - intros q kq [<- <-]%lookup_singleton_Some. apply wf_empty.
  - intros q kq e [<- <-]%lookup_singleton_Some He. by apply elem_of_nil in He.
  - by intros p kn s q kq [<- <-]%lookup_singleton_Some.
Qed.

Lemma demo_inv : linux_inv demo_w.
Proof.
  split; [exact demo_data|]. split; simpl.
  - intros p kn q (E & Hf & _). simpl in E. by apply lookup_singleton_Some in E as [<- <-].
  - by intros p kn [<- <-]%lookup_singleton_Some [?|?].
  - intros p kn q (E & Hf & _). simpl in E. by apply lookup_singleton_Some in E as [<- <-].
  - by intros p kn [] [<- <-]%lookup_singleton_Some.
Qed.

Lemma demo_usable : usable demo_kq.
Proof.
  intros i x Hi. do 12 (destruct i as [|i]; [injection Hi as <-; first [by left|right; split; [done|eexists; reflexivity]]|]). done.
Qed.

Lemma demo_find : w_kqs demo_w !! 2%positive = Some demo_kq.
Proof. apply lookup_singleton_eq. Qed.
End State.

(** ** The claims at work *)

Definition demo_user_ops : filter_ops Z :=
  fs_ops (evfilt_user (H0 := linux_filters demo_version true 4 2)).

Lemma demo_at_slot : at_slot (demo_w true false false []) 2 10
  (set_kf_index (Node RB_BLACK NULL (Entry 7 3) NULL) (demo_slot EVFILT_USER)) demo_user_ops.
Proof. exists (demo_kq true false []). split_and!; [apply demo_find|done|reflexivity|reflexivity|done]. Qed.



Lemma demo_arrays locked freeing mtx inflight :
  arrays (w_mem (demo_w locked freeing mtx inflight)) 100 [demo_receipt; demo_delete] 200 204.
Proof.
  split_and!; [|done| |by right|repeat apply List.Forall_cons; try apply List.Forall_nil; by intros [?|?]].
  - intros [|[|j]] s Hj; [injection Hj as <-; reflexivity..|done].
  - intros a Ha. assert (a = 200 \/ a = 201 \/ a = 202 \/ a = 203) as [->|[->|[->| ->]]] by lia; by eexists.
Qed.


Lemma demo_inside freeing : inside linux_inv (demo_w true freeing false [KeventState 20 1]) 2 20 true.
Proof.
  split_and!; [apply demo_winv|apply demo_inv|]. eexists. split; [apply demo_find|].
  split_and!; [done|apply demo_usable|set_solver].
Qed.

(** The event of the one-shot knote, reported by the kernel, with room for it at 200. *)
Definition demo_batch : world Z :=
  set_w_evbuf [EpollEvent EPOLLIN (Some 4%positive)] (demo_w true false false [KeventState 20 1]).


(** Delivery deletes and frees the knote and retires its udata, which is freed later. *)
Example demo_oneshot : match linux_kevent_copyout true 4 2 1 200 4 demo_batch with
  | Ret rv w => (rv, w_knotes w !! 3%positive, ud_stale <$> w_udatas w !! 4%positive,
                 ud_deferred_free <$> w_kqs w !! 2%positive) = (1, None, Some true, Some [4%positive])
  | Fault _ => False
  end.
Proof. vm_compute. reflexivity. Qed.


(** The state a run leaves. *)
Definition left_by {A : Type} (o : outcome (world Z) A) (d : world Z) : world Z :=
  match o with Ret _ w => w | Fault _ => d end.

(** A call with one change and room for four events: the caller is inside, the change is
    made and answered, the mutex left, the event of the knote at 3 reported, and the
    mutex taken again. *)
Definition call_w0 : world Z := demo_w false false false [].


(** It returns two events, the answer to the change and that of the knote. *)
Example call_run : match kevent_ demo_kqops 20 6 (Some 100) 1 (Some 200) 4 None call_w0 with
  | Ret rv w => (rv, ident <$> w_mem w !! 200, ident <$> w_mem w !! 201, w_knotes w !! 3%positive) =
                (2, Some 8, Some 7, None)
  | Fault _ => False
  end.
Proof. vm_compute. reflexivity. Qed.


Lemma kqueue_free_now_witness :
  let w := demo_w false false true [] in
  wp (kqueue_free demo_kqops 2) (fun _ w' => winv w' /\ linux_inv w' /\ w_kqs w' !! 2%positive = None /\
    ~ mapped w' 6 2 /\ (2%positive ∉ w_kq_list w') /\
    (forall fd r, r <> 2%positive -> mapped w fd r -> mapped w' fd r) /\
    (forall j k p kn, view w 2 j !! k = Some p -> w_knotes w !! p = Some kn -> kn_ref kn = 1 -> w_knotes w' !! p = None) /\
    (forall p kn, w_knotes w !! p = Some kn -> kn_kq kn <> Some 2%positive -> w_knotes w' !! p = Some kn)) w.
Proof.
  apply (kqueue_free_now demo_kqops linux_inv _ 2 (demo_kq false false []));
    [apply demo_winv|apply demo_inv|done|apply demo_find|done|apply demo_usable|done|done].
Defined.

Lemma kqueue_free_deferred_witness :
  let w := demo_w false false true [KeventState 20 1] in
  wp (kqueue_free demo_kqops 2) (fun _ w' => winv w' /\ linux_inv w' /\ ~ mapped w' 6 2 /\
    (2%positive ∉ w_kq_list w') /\ w_knotes w' = w_knotes w /\
    w_kqs w' !! 2%positive = Some (set_kq_freeing true (demo_kq false false [KeventState 20 1]))) w.
Proof.
  apply (kqueue_free_deferred demo_kqops linux_inv _ 2 (demo_kq false false [KeventState 20 1]));
    [apply demo_winv|apply demo_inv|done|apply demo_find|done|done|done].
Defined.

Lemma kevent_copyin_one_refines_witness :
  let w := demo_w true false false [] in
  wp (kevent_copyin_one 2 demo_pipe) (fun r w' =>
    match route (demo_kq true false []) demo_pipe with
    | inl e => r = (-1, None) /\ w' = set_w_errno e w
    | inr i => winv w' /\ linux_inv w' /\ step_q 2 w w' /\
        change_rel demo_pipe (view w 2 i) (view w' 2 i) r.1 r.2 /\
        forall j, j <> i -> view w' 2 j = view w 2 j
    end) w.
Proof.
  apply (kevent_copyin_one_refines linux_inv _ 2 (demo_kq true false []));
    [apply demo_winv|apply demo_inv|apply demo_find|done|apply demo_usable|done|done].
Defined.

Lemma knote_count_exact_witness :
  let w := demo_w true false false [] in
  kq_knote_count (demo_kq true false []) = Z.of_nat (registered w 2) /\
  wp (kevent_copyin_one 2 demo_receipt) (fun _ w' => exists kq', w_kqs w' !! 2%positive = Some kq' /\
    kq_knote_count kq' = Z.of_nat (registered w' 2) /\
    (registered w' 2 <= S (registered w 2))%nat) w.
Proof.
  apply (knote_count_exact linux_inv _ 2 (demo_kq true false []));
    [apply demo_winv|apply demo_inv|apply demo_find|done|apply demo_usable|done|by intros [?|?]].
Defined.

Lemma kevent_copyin_in_order_witness :
  let w := demo_w true false false [KeventState 20 1] in
  wp (kevent_copyin 2 100 2 200 4) (fun rv w' =>
    inside linux_inv w' 2 20 true /\ -1 <= rv <= 4 /\ (2 <= 4 -> rv <> -1) /\
    (rv <> -1 -> exists es, copyin_trace 2 w [demo_receipt; demo_delete] es w' /\
       rv = Z.of_nat (length es) /\ written w w' 200 es)) w.
Proof.
  apply (kevent_copyin_in_order linux_inv _ 2 20 (demo_kq true false [KeventState 20 1]) 100
    [demo_receipt; demo_delete] 200 204); [apply demo_inside|apply demo_find|done|apply demo_arrays].
Defined.

Lemma knote_delete_refines_witness :
  let w := demo_w true false false [] in
  wp (knote_delete (2%positive, 10%nat) 3) (fun _ w' => winv w' /\ linux_inv w' /\ step_q 2 w w' /\
    view w' 2 10 = delete 7 (view w 2 10) /\ (forall j, j <> 10%nat -> view w' 2 j = view w 2 j) /\
    (forall r, r <> 3%positive -> w_knotes w' !! r = w_knotes w !! r) /\
    (forall kn, w_knotes w !! 3%positive = Some kn -> kn_ref kn = 1 -> w_knotes w' !! 3%positive = None)) w.
Proof.
  eapply (knote_delete_refines linux_inv _ 2 10 _ demo_user_ops 7 3);
    [apply demo_winv|apply demo_inv|exact demo_at_slot|reflexivity].
Defined.

Lemma filter_unregister_all_frees_witness :
  let w := demo_w true false false [] in
  wp (filter_unregister_all demo_kqops 2) (fun _ w' => winv w' /\ linux_inv w' /\
    (forall j, view w' 2 j = ∅) /\
    (exists kq', w_kqs w' !! 2%positive = Some kq' /\ kq_knote_count kq' = 0 /\
       kq_filt kq' = replicate (Z.to_nat EVFILT_SYSCOUNT) filter_zero) /\
    (forall r, r <> 2%positive -> kq_common <$> w_kqs w' !! r = kq_common <$> w_kqs w !! r) /\
    (forall p kn, w_knotes w !! p = Some kn -> kn_kq kn <> Some 2%positive -> w_knotes w' !! p = Some kn) /\
    (forall j k p kn, view w 2 j !! k = Some p -> w_knotes w !! p = Some kn -> kn_ref kn = 1 ->
       w_knotes w' !! p = None)) w.
Proof.
  apply (filter_unregister_all_frees demo_kqops linux_inv _ 2 (demo_kq true false []));
    [apply demo_winv|apply demo_inv|apply demo_find|done|apply demo_usable].
Defined.

Lemma flag_actions_witness :
  let w := demo_w true false false [] in
  wp (knote_copyout_flag_actions (2%positive, 10%nat) 3) (fun rv w' => winv w' /\ linux_inv w' /\ step_q 2 w w' /\
    (forall j, j <> 10%nat -> view w' 2 j = view w 2 j) /\ view w' 2 10 = delete 7 (view w 2 10)) w.
Proof.
  eapply (flag_actions linux_inv _ 2 10 _ demo_user_ops 7 3 demo_kn);
    [apply demo_winv|apply demo_inv|exact demo_at_slot|reflexivity|reflexivity|reflexivity].
Defined.

Lemma kevent_last_out_frees_witness :
  let w := demo_w true true false [KeventState 20 1] in
  wp (kevent_out demo_kqops 2 20 0) (fun r w' => r = 0 /\ winv w' /\ linux_inv w' /\
    (w_kqs w' !! 2%positive = None <->
       true = true /\ forall s, s ∈ [KeventState 20 1] -> ks_id s = 20%positive) /\
    forall kq', w_kqs w' !! 2%positive = Some kq' ->
      kq_locked kq' = false /\ 20%positive ∉ ks_id <$> kq_inflight kq') w.
Proof.
  apply (kevent_last_out_frees demo_kqops linux_inv _ 2 20 (demo_kq true true [KeventState 20 1]));
    [apply demo_inside|apply demo_find].
Defined.

(** After the change with EV_RECEIPT, unlocked, and after the wait. *)
Definition demo_w0 : world Z := demo_w true false false [KeventState 20 1].
Definition demo_w1 : world Z := Eval vm_compute in left_by (kevent_copyin 2 100 1 200 4 demo_w0) demo_w0.
Definition demo_kq1 : kqueue := Eval vm_compute in default kqueue_zero (w_kqs demo_w1 !! 2%positive).
Definition demo_w2 : world Z :=
  set_w_kqs (<[2%positive := set_kq_locked false demo_kq1]> (w_kqs demo_w1)) demo_w1.
Definition demo_w3 : world Z := Eval vm_compute in left_by (linux_kevent_wait 2 4 (Some (Timespec 0 0)) demo_w2) demo_w2.

Lemma timeout_drops_receipts_witness :
  w_mem demo_w1 !! 200 <> w_mem demo_w0 !! 200 /\
  wp (kevent_body demo_kqops 2 100 1 200 204 4 (Some (Timespec 0 0))) (fun rv w' => rv = 0 /\ w_mem w' = w_mem demo_w3) demo_w0.
Proof.
  split; [by vm_compute|].
  apply (timeout_drops_receipts demo_kqops demo_w0 demo_w1 demo_w3 2 100 1 200 204 4 (Some (Timespec 0 0)) 1 demo_kq1
    (set_kq_locked false demo_kq1)); try (vm_compute; reflexivity). split; reflexivity.
Defined.

Lemma free_by_id_out_of_range_witness :
  kqueue_free_by_id (KqueueVtable (K := Z) (fun _ => ret 0) (fun _ => ret tt) false None (fun _ _ _ => ret 0)
    (fun _ _ _ _ => ret 0) None None None (ret tt) (fun _ _ => ret tt) (fun _ _ => ret tt)) 64
    (demo_w false false false []) = Fault BadAddress.
Proof.
  exact (free_by_id_out_of_range (KqueueVtable (K := Z) (fun _ => ret 0) (fun _ => ret tt) false None
    (fun _ _ _ => ret 0) (fun _ _ _ _ => ret 0) None None None (ret tt) (fun _ _ => ret tt) (fun _ _ => ret tt))
    (demo_w false false false []) 64 ltac:(done) ltac:(done)).
Defined.

(** A knote of EVFILT_LIBKQUEUE that asks for [ff]. *)
Definition demo_ask (ff data : Z) : world Z :=
  set_w_knotes {[3%positive := set_kev (Kevent 0 EVFILT_LIBKQUEUE EV_RECEIPT ff data 0) demo_kn]}
    (demo_w true false false []).

Lemma version_bytes_witness :
  wp (common_libkqueue_knote_create demo_kqops demo_version (2%positive, 11%nat) 3) (fun rv w' => rv = 1 /\
    exists k, w_knotes w' !! 3%positive =
        Some (set_kev k (set_kev (Kevent 0 EVFILT_LIBKQUEUE EV_RECEIPT NOTE_VERSION 0 0) demo_kn)) /\
      has (flags k) EV_RECEIPT = true /\ Z.shiftr (data k) 24 = 2 /\ (Z.shiftr (data k) 16) mod 256 = 6 /\
      (Z.shiftr (data k) 8) mod 256 = 3 /\ (data k) mod 256 = 0) (demo_ask NOTE_VERSION 0).
Proof.
  apply (version_bytes demo_kqops demo_version); [reflexivity|reflexivity|unfold is_byte; simpl; lia..].
Defined.

Lemma thread_safe_exchanged_witness :
  wp (common_libkqueue_knote_create demo_kqops demo_version (2%positive, 11%nat) 3) (fun rv w' =>
    w_thread_safe w' = false /\
    w_knotes w' !! 3%positive =
      Some (set_kev (Kevent 0 EVFILT_LIBKQUEUE EV_RECEIPT NOTE_THREAD_SAFE 1 0) demo_kn) /\ rv = 1)
    (demo_ask NOTE_THREAD_SAFE 0).
Proof.
  apply (thread_safe_exchanged demo_kqops demo_version (demo_ask NOTE_THREAD_SAFE 0) (2%positive, 11%nat) 3
    (set_kev (Kevent 0 EVFILT_LIBKQUEUE EV_RECEIPT NOTE_THREAD_SAFE 0 0) demo_kn)); reflexivity.
Defined.

(** ** Two callers and a deletion

    The caller 20 enters and is told of the udata at 4; the caller 21 enters and
    deletes the knote, which retires the udata; then both leave. *)

Definition crit_w (m : M (world Z) unit) (w : world Z) : world Z := left_by (crit 2 m w) w.

Definition ep_w0 : world Z :=
  set_w_kqs {[2%positive := set_kq_next_epoch 0 (demo_kq false false [])]} (demo_w false false false []).
Definition ep_w1 : world Z := Eval vm_compute in crit_w (linux_kevent_enter 2 20) ep_w0.
Definition ep_w2 : world Z := Eval vm_compute in crit_w (linux_kevent_enter 2 21) ep_w1.
Definition ep_w3 : world Z := Eval vm_compute in crit_w (epoll_udata_defer_free 2 (Some 4%positive)) ep_w2.
Definition ep_w4 : world Z := Eval vm_compute in crit_w (linux_kevent_exit 2 21) ep_w3.
Definition ep_w5 : world Z := Eval vm_compute in crit_w (linux_kevent_exit 2 20) ep_w4.

Definition ep_s0 : esys := ESys ep_w0 {[4%positive]} ∅.
Definition ep_s3 : esys :=
  ESys ep_w3 ({[4%positive]} ∖ {[4%positive]}) (<[21%positive := []]> (<[20%positive := [4%positive]]> (<[20%positive := []]> ∅))).
Definition ep_s5 : esys :=
  ESys ep_w5 ({[4%positive]} ∖ {[4%positive]}) (delete 20%positive (delete 21%positive (es_buf ep_s3))).

Lemma ep_init : sys_init 2 ep_s0.
Proof.
  eexists. split_and!; [apply lookup_singleton_eq|done..|].
  simpl. intros u ->%elem_of_singleton. eexists. by split; [apply lookup_singleton_eq|].
Qed.

Ltac decided := refine (bool_decide_unpack _ _); vm_compute; exact Logic.I.

Lemma ep_retired : rtc (estep 2) ep_s0 ep_s3.
Proof.
  unfold ep_s0, ep_s3.
  eapply rtc_l; [eapply (st_enter 2 ep_w0 ep_w1 _ _ _ 20); [reflexivity|decided|done|vm_compute; reflexivity]|].
  eapply rtc_l; [apply (st_wait 2 ep_w1 _ _ 20 [4%positive]); [decided|by repeat constructor]|].
  eapply rtc_l; [eapply (st_enter 2 ep_w1 ep_w2 _ _ _ 21); [reflexivity|decided|done|vm_compute; reflexivity]|].
  eapply rtc_l; [apply (st_unregister 2 ep_w2 _ _ 4)|].
  eapply rtc_l; [apply (st_retire 2 ep_w2 ep_w3 _ _ 21 4); [decided|set_solver|vm_compute; reflexivity]|].
  apply rtc_refl.
Qed.

Lemma ep_left : rtc (estep 2) ep_s0 ep_s5.
Proof.
  transitivity ep_s3; [exact ep_retired|]. unfold ep_s3, ep_s5.
  eapply rtc_l; [apply (st_exit 2 ep_w3 ep_w4 _ _ 21); [decided|vm_compute; reflexivity]|].
  eapply rtc_l; [apply (st_exit 2 ep_w4 ep_w5 _ _ 20); [decided|vm_compute; reflexivity]|].
  apply rtc_refl.
Qed.

Definition ep_kq3 : kqueue := Eval vm_compute in default kqueue_zero (w_kqs ep_w3 !! 2%positive).

Lemma epoch_no_use_after_free_witness :
  exists d, w_udatas ep_w3 !! 4%positive = Some d /\ (ud_stale d = true <-> 4%positive ∈ ud_deferred_free ep_kq3).
Proof.
  apply (epoch_no_use_after_free 2 ep_s0 ep_s3 20 [4%positive] 4 ep_kq3);
    [exact ep_init|exact ep_retired|reflexivity|set_solver|vm_compute; reflexivity].
Defined.

Lemma epoch_no_leak_witness : ud_deferred_free (default kqueue_zero (w_kqs ep_w5 !! 2%positive)) = [].
Proof.
  apply (epoch_no_leak 2 ep_s0 ep_s5); [exact ep_init|exact ep_left|reflexivity|reflexivity].
Defined.

Lemma epoch_progress_witness :
  exists w', crit 2 (linux_kevent_exit 2 20) ep_w3 = Ret tt w'.
Proof.
  destruct (epoch_progress 2 ep_s0 ep_s3 ep_kq3 20
    ep_init ep_retired ltac:(vm_compute; reflexivity)) as (_ & Hx & _). apply Hx. decided.
Defined.
