(* ===== verification/DemoSignal.v ===== *)
(** * A small system with signals

    A kernel whose state is the level of one eventfd, which always has memory and
    descriptors and has a SIGUSR1 to read from the signalfd; a kqueue whose only
    filter is the signal filter.  The states below are reached by running the
    code, and the claims about signals are applied to them. *)

From Stdlib Require Import ZArith Lia Bool.
From stdpp Require Import base list gmap.
From S2P Require Import Prelude RBTree Event Map State Ops Knote LinuxUdata LinuxEpoll LinuxTimer LinuxUser LinuxKevent Signal SignalSpec SignalOps SignalRuns SignalClaims SignalLifecycle.

Definition SIGUSR1 : Z := 10.
Definition SIGUSR2 : Z := 12.

#[export] Instance sig_os : OS bool := fun A c k =>
  match c in syscall A return sysres A * bool with
  | SysAlloc => (SOk tt, k)
  | SysEventfd _ _ => (SOk 20, k)
  | SysEpollCtl _ _ _ _ => (SOk tt, k)
  | SysClose _ => (SOk tt, k)
  | SysFcntl _ _ _ => (SOk 0, k)
  | SysSocketpair => (SOk (21, 22), k)
  | SysSignalfd _ _ _ => (SOk 23, k)
  | SysSigmaskBlock _ => (SOk tt, k)
  | SysSigtimedwait _ => (SErr EAGAIN, k)
  | SysPthreadCreate => (SOk 77, k)
  | SysPthreadJoin _ => (SOk tt, k)
  | SysSiginfoRead _ _ => (SOk (siginfo_size, [SIGUSR1]), k)
  | SysRead8 _ => (SOk (8, 1), false)
  | SysWrite8 _ _ => (SOk 8, true)
  | _ => (SErr ENOSYS, k)
  end.
#[export] Instance sig_filters : FilterList bool := [FilterSrc EVFILT_SIGNAL (fs_ops (evfilt_signal (H0 := []) 4))].

Lemma sig_os_drains : sig_drains (K := bool) 4.
Proof. intros sig w. exists (w_os w), EAGAIN. by destruct w. Qed.

Lemma sig_os_full : siginfo_full (K := bool).
Proof. intros fd max k n si k' [= <- <- <-]. vm_compute. lia. Qed.

(** A kqueue (2) with a registered but not yet initialised signal filter and two
    unregistered knotes (3, 4). *)
Definition sd_kn (sig : Z) : knote :=
  set_kn_kq (Some 2%positive) (set_kn_ref 1 (set_kev (Kevent sig EVFILT_SIGNAL EV_ADD 0 0 0) knote_zero)).
Definition sd_filter : filter := Filter EVFILT_SIGNAL (Some EVFILT_SIGNAL) NULL [] 0 None None.
Definition sd_kq : kqueue := set_kq_filt (<[5%nat := sd_filter]> (kq_filt kqueue_zero)) (set_kq_locked true kqueue_zero).
Definition sd_f : filt_ref := (2%positive, 5%nat).

Definition sd_w : world bool :=
  World false 0 5 {[3%positive := sd_kn SIGUSR1; 4%positive := sd_kn SIGUSR2]} ∅ ∅ {[2%positive := sd_kq]}
    (gset_to_gmap kevent_zero {[100; 101]}) [] true (Map 64 ∅) [] 0 true false false false false 0 (-1) (-1) 0
    ∅ sig_static posix_static solaris_static windows_static.

Lemma sd_slots f : sig_slot sd_w f = None.
Proof.
  destruct f as [q i]. unfold sig_slot, slot_of. cbn [fst snd w_kqs sd_w].
  destruct (decide (q = 2%positive)) as [->|Hq]; [|by rewrite lookup_singleton_ne].
  rewrite lookup_singleton_eq. cbn. by do 12 (destruct i as [|i]; [done|]).
Qed.

Lemma sd_st : sig_st sd_w ∅.
Proof.
  split; [|intros sig l [-> _]%lookup_replicate; split; [set_solver|done]|done]. split; try done.
  - intros f s. by rewrite sd_slots.
  - intros f g s. by rewrite sd_slots.
  - intros sig l [-> _]%lookup_replicate. split; [constructor|]. intros s. split; [by intros ?%elem_of_nil|].
    by intros (p & b & c & Hr).
Qed.

Lemma sd_sys : sig_sys sd_w ∅.
Proof. split; [exact sd_st|done..]. Qed.

(** The state after a run. *)
Definition after {S A : Type} (o : outcome S A) (s : S) : S := match o with Ret _ s' => s' | Fault _ => s end.

Definition sd_w1 : world bool := after (evfilt_signal_init sd_f sd_w) sd_w.
Definition sd_w2 : world bool := after (evfilt_signal_knote_create 4 sd_f 3 sd_w1) sd_w1.
Definition sd_w3 : world bool := after (evfilt_signal_knote_create 4 sd_f 4 sd_w2) sd_w2.
Definition sd_w4 : world bool := after (siginfo_dispatch sd_w3) sd_w3.

Lemma sd_run1 : evfilt_signal_init sd_f sd_w = Ret 0 sd_w1.
Proof. vm_compute. reflexivity. Qed.
Lemma sd_run2 : evfilt_signal_knote_create 4 sd_f 3 sd_w1 = Ret 0 sd_w2.
Proof. vm_compute. reflexivity. Qed.
Lemma sd_run3 : evfilt_signal_knote_create 4 sd_f 4 sd_w2 = Ret 0 sd_w3.
Proof. vm_compute. reflexivity. Qed.
Lemma sd_run4 : siginfo_dispatch sd_w3 = Ret 1 sd_w4.
Proof. vm_compute. reflexivity. Qed.

Definition sd_A2 : gmap ptr sreg := <[3%positive := SReg 6 10 true 0]> ∅.
Definition sd_A3 : gmap ptr sreg := <[4%positive := SReg 6 12 true 0]> sd_A2.
Definition sd_A4 : gmap ptr sreg := spec_fires [SIGUSR1] sd_A3.

Lemma sd_sys1 : sig_sys sd_w1 ∅.
Proof. exact (proj1 (evfilt_signal_init_ok _ _ _ _ _ sd_sys (sd_slots sd_f) sd_run1)). Qed.

Lemma sd_st2 : sig_st sd_w2 sd_A2.
Proof.
  destruct (wp_Ret _ _ _ _ _ (evfilt_signal_knote_create_ok 4 sig_os_drains sd_w1 ∅ sd_f 3 (sd_kn SIGUSR1) 6
    (sy_st _ _ sd_sys1) eq_refl ltac:(by vm_compute) eq_refl ltac:(by vm_compute)) sd_run2) as [(_ & _ & St)|(? & _)]; done.
Qed.

Lemma sd_st3 : sig_st sd_w3 sd_A3.
Proof.
  destruct (wp_Ret _ _ _ _ _ (evfilt_signal_knote_create_ok 4 sig_os_drains sd_w2 sd_A2 sd_f 4 (sd_kn SIGUSR2) 6
    sd_st2 eq_refl ltac:(by vm_compute) eq_refl ltac:(by vm_compute)) sd_run3) as [(_ & _ & St)|(? & _)]; done.
Qed.

Lemma sd_st4 : sig_st sd_w4 sd_A4.
Proof. exact (wp_Ret _ _ _ _ _ (siginfo_dispatch_ok sd_w3 sd_A3 sig_os_full sd_st3) sd_run4). Qed.

(** Both knotes are pending. *)
Definition sd_w5 : world bool := after (sig_dispatch_handle SIGUSR2 sd_w4) sd_w4.
Lemma sd_run5 : sig_dispatch_handle SIGUSR2 sd_w4 = Ret tt sd_w5.
Proof. vm_compute. reflexivity. Qed.
Lemma sd_st5 : sig_st sd_w5 (spec_fire SIGUSR2 sd_A4).
Proof.
  destruct sd_st4 as [R Hw Hm].
  destruct (wp_Ret _ _ _ _ _ (sig_dispatch_handle_ok sd_w4 sd_A4 SIGUSR2 R) sd_run5) as [R' [_ Es _ _]].
  split; [exact R'|by rewrite Es|by rewrite Es].
Qed.

Lemma sd_sig_run : exists F D, sig_run 4 sd_w4 F D /\ F 3%positive = 1 /\ D 3%positive = 0.
Proof.
  eexists _, _. split; [eapply run_round; [|exact sd_run4]|].
  - eapply (run_create 4 sd_w2 sd_f 4 (sd_kn SIGUSR2) 6); [|by vm_compute..|exact sd_run3].
    eapply (run_create 4 sd_w1 sd_f 3 (sd_kn SIGUSR1) 6); [|by vm_compute..|exact sd_run2].
    apply run_start. exact (sy_st _ _ sd_sys1).
  - by vm_compute.
Qed.

Lemma signal_conservation_witness : exists F D kn, sig_run 4 sd_w4 F D /\ w_knotes sd_w4 !! 3%positive = Some kn /\
  kn_signal_count kn = u32 (F 3%positive - D 3%positive) /\ kn_signal_count kn = 1.
Proof.
  destruct sd_sig_run as (F & D & Hrun & _). exists F, D. eexists. split; [exact Hrun|]. split; [by vm_compute|].
  split; [|by vm_compute].
  apply (signal_conservation 4 sd_w4 F D 3 _ sig_os_drains sig_os_full Hrun); by vm_compute.
Defined.

Lemma signal_watched_witness : SIGUSR1 ∈ sig_active_set (w_sig sd_w4) <->
  exists p kn, entry_inserted p sd_w4 = true /\ w_knotes sd_w4 !! p = Some kn /\ kn_sig kn = SIGUSR1.
Proof.
  destruct sd_sig_run as (F & D & Hrun & _).
  apply (signal_watched 4 sd_w4 F D SIGUSR1 sig_os_drains sig_os_full Hrun). by vm_compute.
Defined.

Lemma signal_callbacks_refine_witness :
  wp (evfilt_signal_knote_disable sd_f 3) (fun rv w' => rv = 0 /\ sig_st w' (<[3%positive := SReg 6 10 false 1]> sd_A4)) sd_w4.
Proof.
  exact (proj1 (proj2 (signal_callbacks_refine sd_w4 sd_A4 sd_f 3 (SReg 6 10 true 1) sd_st4
    ltac:(by vm_compute) ltac:(by vm_compute)))).
Defined.

Lemma signal_create_atomic_witness :
  wp (evfilt_signal_knote_create 4 sd_f 4) (fun rv w' =>
    (rv = 0 /\ sig_valid SIGUSR2 = true /\ sig_st w' (<[4%positive := SReg 6 12 true 0]> sd_A2)) \/
    (rv = -1 /\ sig_st w' sd_A2 /\ (sig_valid SIGUSR2 = false -> w_errno w' = EINVAL))) sd_w2.
Proof.
  exact (signal_create_atomic 4 sd_w2 sd_A2 sd_f 4 (sd_kn SIGUSR2) 6 sig_os_drains sd_st2
    ltac:(by vm_compute) ltac:(by vm_compute) ltac:(by vm_compute) ltac:(by vm_compute)).
Defined.

Lemma sd_room i : 100 <= i < 102 -> is_Some (w_mem sd_w5 !! i) /\ is_Some (w_mem sd_w4 !! i).
Proof. intros Hi. assert (i = 100 \/ i = 101) as [-> | ->] by lia; split; eexists; by vm_compute. Qed.

Lemma signal_delivered_witness : exists y, w_sfss sd_w4 !! 6%positive = Some y /\
  wp (copyout_emit 100 2 sd_f) (fun em w' => NoDup em /\ sig_st w' (spec_emit em sd_A4) /\
    (forall p r, sd_A4 !! p = Some r -> sr_ready 6 r = true ->
       exists i k, em !! i = Some p /\ w_mem w' !! (100 + Z.of_nat i) = Some k /\
         s32 (ident k) = Z.of_nat (sr_sig r) /\ data k = sr_count r) /\
    (forall p r, spec_emit em sd_A4 !! p = Some r -> sr_ready 6 r = false)) sd_w4.
Proof.
  eexists. split; [by vm_compute|].
  eapply (signal_delivered sd_w4 sd_A4 sd_f 6); [exact sd_st4|by vm_compute|by vm_compute| |by vm_compute].
  intros i Hi. exact (proj2 (sd_room i ltac:(lia))).
Defined.

Lemma sd_level fd (k : bool) r k' : os_call (SysRead8 fd) k = (r, k') -> k' = false.
Proof. intros Hc. change ((SOk (8, 1), false) = (r, k')) in Hc. congruence. Qed.

Lemma sd_pending5 : exists y, w_sfss sd_w5 !! 6%positive = Some y /\ sfs_pending y = [4; 3]%positive.
Proof. eexists. split; [vm_compute; reflexivity|]. by vm_compute. Qed.

Lemma sd_plain p : p ∈ [4; 3]%positive -> plain sd_w5 p.
Proof.
  intros Hp kn Ek. apply elem_of_cons in Hp as [->|Hp]; [|apply list_elem_of_singleton in Hp as ->];
    vm_compute in Ek; injection Ek as <-; by vm_compute.
Qed.

Lemma sd_left q r : spec_fire SIGUSR2 sd_A4 !! q = Some r -> Z.of_nat (sr_sig r) = SIGUSR1 -> q = 3%positive.
Proof.
  intros Hr Hs. unfold spec_fire, sd_A4, spec_fires, sd_A3, sd_A2 in Hr. simpl in Hr.
  unfold spec_fire in Hr. rewrite !fmap_insert, !fmap_empty in Hr.
  apply lookup_insert_Some in Hr as [[<- <-]|[_ Hr]]; [done|]. by apply lookup_insert_Some in Hr as [[<- _]|[_ Hr]].
Qed.

Lemma signal_stranded_witness :
  wp (evfilt_signal_copyout 100 1 sd_f None NoEvent) (fun rv w' => rv = 1 /\
    w_os w' = false /\ (exists p y', w_sfss w' !! 6%positive = Some y' /\ p ∈ sfs_pending y') /\
    wp (sig_dispatch_handle SIGUSR1) (fun _ w2 => w_os w2 = w_os w') w') sd_w5.
Proof.
  destruct sd_pending5 as (y & Hy & Hp).
  assert (Hx : exists x, slot_of sd_w5 2 5 = Some x /\ kf_sig x = Some 6%positive) by (eexists; split; vm_compute; reflexivity).
  destruct Hx as (x & Hx & Hs).
  eapply wp_mono; [|exact (signal_stranded (fun k _ => k) sd_w5 (spec_fire SIGUSR2 sd_A4) sd_f 6 x y 100 1 None NoEvent
    sd_level sd_st5 Hx Hs Hy (fun i Hi => proj1 (sd_room i ltac:(lia)))
    ltac:(rewrite Hp; simpl; lia) ltac:(rewrite Hp; exact sd_plain))].
  intros rv w' (-> & Hl & Hpend & Hsil). split_and!; [done..|]. apply Hsil. intros q r Hr Hsg _.
  rewrite Hp, (sd_left q r Hr Hsg). by left.
Defined.

Lemma signal_filters_counted_witness : sig_sys sd_w1 ∅ /\ is_Some (sig_slot sd_w1 sd_f).
Proof.
  destruct (proj1 (signal_filters_counted sd_w ∅ sd_f sd_sys) 0 sd_w1 (sd_slots sd_f) sd_run1)
    as (Sy & [(_ & Hs)|(? & _)]); [by split|done].
Defined.

(** The child of a fork: a second kqueue (9) with a signal filter. *)
Definition sd_child : world bool :=
  set_w_kqs (<[9%positive := sd_kq]> (w_kqs sd_w4)) (set_w_next 10 sd_w4).
Definition sd_c1 : world bool := after (evfilt_signal_reset_after_fork sd_child) sd_child.
Definition sd_g : filt_ref := (9%positive, 5%nat).
Definition sd_c2 : world bool := after (evfilt_signal_init sd_g sd_c1) sd_c1.
Definition sd_c3 : world bool :=
  set_w_knotes (<[8%positive := sd_kn SIGUSR1]> (w_knotes sd_c2)) sd_c2.
Definition sd_c4 : world bool := after (evfilt_signal_knote_create 4 sd_g 8 sd_c3) sd_c3.

Lemma add_kqueue_st (w : world bool) A n : sig_st w A -> w_kqs w !! 9%positive = None ->
  sig_st (set_w_kqs (<[9%positive := sd_kq]> (w_kqs w)) (set_w_next n w)) A.
Proof.
  intros [R Hw Hm] Hn. split; [|done..]. eapply sig_rep_same, R. split; [|done..|eauto].
  intros [q i]. unfold sig_slot, slot_of. cbn [fst snd w_kqs set_w_kqs].
  destruct (decide (q = 9%positive)) as [->|Hq]; [|by rewrite lookup_insert_ne].
  rewrite lookup_insert_eq, Hn. cbn. by do 12 (destruct i as [|i]; [done|]).
Qed.

Lemma sd_child_st : sig_st sd_child sd_A4.
Proof. apply add_kqueue_st; [exact sd_st4|]. vm_compute. reflexivity. Qed.

Lemma keys_below {X : Type} (m : gmap ptr X) (n : ptr) :
  Forall (fun p => (p < n)%positive) (map_to_list m).*1 -> forall p, (n <= p)%positive -> m !! p = None.
Proof.
  intros Hf p Hp. apply eq_None_not_Some. intros [x Hx%elem_of_map_to_list].
  rewrite Forall_forall in Hf. apply (list_elem_of_fmap_2 fst) in Hx. specialize (Hf _ Hx). simpl in Hf. lia.
Qed.

Lemma sd_child_fresh s : (w_next sd_child <= s)%positive -> w_sfss sd_child !! s = None.
Proof.
  apply keys_below. replace ((map_to_list (w_sfss sd_child)).*1) with [6%positive] by (vm_compute; reflexivity).
  repeat constructor.
Qed.

Lemma add_knote_env (w : world bool) p kn : entry_inserted p w = false ->
  sig_env w (set_w_knotes (<[p := kn]> (w_knotes w)) w).
Proof.
  intros Hp. split; try done. intros q k Hq Hk. exists k. split_and!; try done. cbn [w_knotes set_w_knotes].
  rewrite lookup_insert_ne; [done|congruence].
Qed.

Lemma sd_env : sig_env sd_c2 sd_c3.
Proof. apply add_knote_env. vm_compute. reflexivity. Qed.

Lemma signal_fork_forgets_witness :
  evfilt_signal_knote_create 4 sd_g 8 sd_c3 = Ret 0 sd_c4 /\ SIGUSR1 ∉ sig_active_set (w_sig sd_c4).
Proof.
  assert (Hc : evfilt_signal_knote_create 4 sd_g 8 sd_c3 = Ret 0 sd_c4) by (vm_compute; reflexivity).
  split; [exact Hc|].
  exact (proj2 (signal_fork_forgets 4 sd_child sd_A4 3 (SReg 6 10 true 1) sd_c1 sd_g sd_c2 sd_c3 8 (sd_kn SIGUSR1) 0 sd_c4
    sd_child_st sd_child_fresh ltac:(by vm_compute) ltac:(vm_compute; reflexivity) ltac:(by vm_compute)
    ltac:(vm_compute; reflexivity) sd_env ltac:(by vm_compute) ltac:(by vm_compute) Hc)).
Defined.
