(* ===== verification/DemoPosix.v ===== *)
(** * A small POSIX system

    A kernel with a clock, on which the POSIX build runs: kqueue() and kevent() make
    the state on which the claims about this backend are applied. *)

From Stdlib Require Import ZArith Lia Bool.
From stdpp Require Import base list gmap.
From S2P Require Import Prelude RBTree Event Map State Ops Knote Filter Kqueue Kevent LibkqueueFilter PosixPlatform PosixTimer PosixTimerSpec PosixTimerOps PosixKevent PosixUser PosixReadWrite PosixVnode PosixProc PosixProcSpec PosixBuild PosixDispatch.

(** ** The kernel *)

(** The next free descriptor, the clock in nanoseconds (of 60 bits), the files' link count, and
    whether process 50 has exited; process 51 runs. *)
Record pk := Pk { pk_fd : Z; pk_clock : Z; pk_nlink : Z; pk_dead : bool }.
Definition pk_fds (k : pk) : pk := Pk (pk_fd k + 2) (pk_clock k) (pk_nlink k) (pk_dead k).
Definition pk_wait (dead : bool) (pid : Z) : sysres siginfo :=
  if (pid =? 50) && dead then SOk (Siginfo 50 CLD_EXITED 3)
  else if (pid =? 50) || (pid =? 51) then SOk (Siginfo 0 0 0) else SErr ECHILD.

#[export] Instance pk_os : OS pk := fun A c k =>
  match c in syscall A return sysres A * pk with
  | SysAlloc => (SOk tt, k)
  | SysPipe => (SOk (pk_fd k, pk_fd k + 1), pk_fds k)
  | SysPipe2 => (SOk (pk_fd k, pk_fd k + 1), pk_fds k)
  | SysFcntl _ _ _ => (SOk 0, k)
  | SysClose _ => (SOk tt, k)
  | SysWrite _ n => (SOk n, k)
  | SysRead _ _ => (SErr EAGAIN, k)
  | SysClockGettime _ => (SOk (ns_ts (pk_clock k mod 2 ^ 60)), k)
  | SysFstat _ => (SOk (Stat S_IFREG (pk_nlink k) 0 (Timespec 0 0)), k)
  | SysPthreadCreate => (SOk 77, k)
  | SysGetrlimit => (SOk (Some 1024), k)
  | SysPselect _ r _ _ => (SOk (1, r, ∅), k)
  | SysWaitid pid _ => (pk_wait (pk_dead k) pid, k)
  | SysKill _ => (SOk tt, k)
  | _ => (SErr ENOSYS, k)
  end.

Definition pk_version : version := Version 4096 2 6 3 (Some 0) true.
#[export] Instance pk_filters : FilterList pk := posix_filters pk_version false 4 3.
Definition pk_kqops : kqueue_vtable pk := posix_kqops 4.

Definition left_by {A : Type} (o : outcome (world pk) A) (d : world pk) : world pk :=
  match o with Ret _ w => w | Fault _ => d end.

Definition pk_w0 : world pk :=
  World (Pk 5 0 1 false) 0 20 ∅ ∅ ∅ ∅ (<[200 := kevent_zero]> (<[201 := kevent_zero]> {[202 := kevent_zero]}))
    [] false (Map 1024 ∅) [] 0 true false false false false 0 (-1) (-1) 0 ∅ sig_static posix_static solaris_static windows_static.

(** A run of changes on the locked kqueue 20, and the clock. *)
Definition q20 : ptr := 20%positive.
Definition lock20 (w : world pk) : world pk :=
  set_w_kqs (alter (set_kq_locked true) q20 (w_kqs w)) w.
Definition at_time (ns : Z) (w : world pk) : world pk :=
  set_w_os (Pk (pk_fd (w_os w)) ns (pk_nlink (w_os w)) (pk_dead (w_os w))) w.
Definition change (ks : list kevent) (w : world pk) : world pk :=
  foldl (fun w k => left_by (kevent_copyin_one q20 k w) w) w ks.

Definition pk_w1 : world pk := Eval vm_compute in lock20 (left_by (kqueue_ pk_kqops pk_w0) pk_w0).

(** ** Timers *)

(** A timer every millisecond and one that fires once after five; 3.5 ms later. *)
Definition tick : kevent := Kevent 1 EVFILT_TIMER EV_ADD 0 1 0.
Definition once : kevent := Kevent 2 EVFILT_TIMER (Z.lor EV_ADD EV_ONESHOT) 0 5 0.
Definition pk_timers : world pk := Eval vm_compute in at_time 3500000 (change [tick; once] pk_w1).

Lemma pk_timers_ok : tree_ok (timers pk_timers) (tree_of pk_timers q20).
Proof.
  split; [split|].
  - repeat constructor; vm_compute; done.
  - exists 1%nat. repeat constructor.
  - intros t Ht. change (elements _) with [22%positive; 24%positive] in Ht.
    apply elem_of_cons in Ht as [->|[->|[]%elem_of_nil]%elem_of_cons];
      eexists; (split_and!; [reflexivity|reflexivity|split; vm_compute; intuition congruence]).
Qed.

Lemma pk_clock_ok : clock_range (ns_ts 3500000).
Proof. split; vm_compute; intuition congruence. Qed.

Lemma timer_check_fires_witness :
  fire_count <$> timers (left_by (posix_timer_check q20 pk_timers) pk_timers) !! 22%positive = Some 3 /\
  wp (posix_timer_check q20) (fun _ w' => check_result (ns_ts 3500000) q20 pk_timers w') pk_timers.
Proof.
  split; [reflexivity|].
  apply (timer_check_fires q20 (ns_ts 3500000) (w_os pk_timers));
    [by eexists|by eexists|exact pk_timers_ok|reflexivity|exact pk_clock_ok].
Defined.

Lemma timer_min_deadline_witness :
  wp (posix_timer_min_deadline_ns q20) (fun ns w' => w' = set_w_os (w_os w') pk_timers /\
    earliest (ns_ts 500000) q20 pk_timers ns) (at_time 500000 pk_timers).
Proof.
  apply (timer_min_deadline q20 (ns_ts 500000) (w_os (at_time 500000 pk_timers)) (at_time 500000 pk_timers));
    [by eexists|exact pk_timers_ok|reflexivity|split; vm_compute; intuition congruence|].
  intros t r Ht. change (elements _) with [22%positive; 24%positive] in Ht.
  apply elem_of_cons in Ht as [->|[->|[]%elem_of_nil]%elem_of_cons]; intros [= <-]; reflexivity.
Defined.

Lemma pk_clock_works : clock_works (K := pk).
Proof.
  intros clk k. exists (ns_ts (pk_clock k mod 2 ^ 60)), k. split; [done|].
  assert (Hb : 0 <= pk_clock k mod 2 ^ 60 < 2 ^ 60) by (apply Z.mod_pos_bound; lia).
  set (n := pk_clock k mod 2 ^ 60) in *. clearbody n. split; [apply ns_ts_ns|]. unfold ns_ts, NSEC. cbn [tv_sec].
  split; [apply Z.div_pos; lia|apply Z.div_lt_upper_bound; lia].
Qed.

Lemma pk_timers_at t r : timers pk_timers !! t = Some r ->
  (t = 22%positive /\ pt_kn r = 21%positive \/ t = 24%positive /\ pt_kn r = 23%positive) /\
  in_tree r = true /\ timer_ok t r.
Proof.
  intros Et. apply elem_of_map_to_list in Et. change (map_to_list _) with (map_to_list (timers pk_timers)) in Et.
  vm_compute in Et. set_unfold in Et. destruct Et as [Et|[Et|[]]]; injection Et as -> ->;
    (split_and!; [eauto|done|split; vm_compute; intuition congruence]).
Qed.

Lemma pk_timers_inv : timers_ok pk_timers.
Proof.
  assert (Hq : forall q, is_Some (w_kqs pk_timers !! q) -> q = q20).
  { intros q [kq Eq]. apply elem_of_map_to_list in Eq. vm_compute in Eq. set_unfold in Eq.
    destruct Eq as [Eq|[]]. by injection Eq. }
  split.
  - intros q ->%Hq. exact pk_timers_ok.
  - intros t r ([[-> Hp]|[-> Hp]] & _ & Hk)%pk_timers_at; rewrite Hp; done.
  - intros t r ([[-> Hp]|[-> Hp]] & _ & Hk)%pk_timers_at; rewrite Hp; exists q20;
      (split_and!; [done|by eexists|]; intros _; change (elements _) with [22%positive; 24%positive]; set_solver).
  - intros q t r ->%Hq _ ([[-> Hp]|[-> Hp]] & _ & Hk)%pk_timers_at; by rewrite Hp.
  - intros p t. unfold timer_of, pkn. destruct (px_knotes (w_px pk_timers) !! p) as [s|] eqn:E; [|done].
    apply elem_of_map_to_list in E. vm_compute in E. set_unfold in E.
    destruct E as [E|[E|[]]]; injection E as -> ->; intros [= <-]; eexists; done.
Qed.

(** Changing the first timer to seven milliseconds links a new timer. *)
Lemma timer_callbacks_ok_witness :
  fire_count <$> timers (left_by (run_cb (q20, 6%nat) 21 (TModify (Kevent 1 EVFILT_TIMER EV_ADD 0 7 0)) pk_timers)
    pk_timers) !! 25%positive = Some 0 /\
  wp (run_cb (q20, 6%nat) 21 (TModify (Kevent 1 EVFILT_TIMER EV_ADD 0 7 0))) (fun rv w' =>
    cb_step 21 pk_timers w' /\ timer_cb_post 21 (default knote_zero (w_knotes pk_timers !! 21%positive))
      (TModify (Kevent 1 EVFILT_TIMER EV_ADD 0 7 0)) rv w') pk_timers.
Proof.
  split; [reflexivity|].
  apply timer_callbacks_ok; [exact pk_clock_works|exact pk_timers_inv|reflexivity|reflexivity|by eexists|].
  split; [right; split|]; reflexivity.
Defined.

(** ** A successor freed during dispatch *)

(** Two files watched once for deletion, disabled, enabled again and then unlinked. *)
Definition watch (fd fl : Z) : kevent := Kevent fd EVFILT_VNODE fl NOTE_DELETE 0 0.
Definition unlinked_files (w : world pk) : world pk :=
  set_w_os (Pk (pk_fd (w_os w)) (pk_clock (w_os w)) 0 (pk_dead (w_os w))) w.
Definition pk_vnodes : world pk := Eval vm_compute in
  unlinked_files (change [watch 40 (Z.lor EV_ADD EV_ONESHOT); watch 41 (Z.lor EV_ADD EV_ONESHOT);
    watch 40 EV_DISABLE; watch 41 EV_DISABLE; watch 40 EV_ENABLE; watch 41 EV_ENABLE] pk_w1).
Definition pk_kq (w : world pk) : kqueue := default kqueue_zero (w_kqs w !! q20).
Definition slot3 (w : world pk) : filter := default filter_zero (kq_filt (pk_kq w) !! 3%nat).

Definition pk_vnodes_detached : world pk :=
  Eval vm_compute in detach q20 (pk_kq pk_vnodes) 3 (slot3 pk_vnodes) 23 pk_vnodes.
Definition pk_vnodes_drained : world pk := Eval vm_compute in
  left_by (posix_evfilt_vnode_copyout (H0 := posix_filters pk_version false 4 2) 200 2 (q20, 3%nat)
    (Some 23%positive) no_event pk_vnodes_detached) pk_vnodes.

Lemma pk_vnodes_copyout :
  posix_evfilt_vnode_copyout (H0 := posix_filters pk_version false 4 2) 200 2 (q20, 3%nat)
    (Some 23%positive) no_event pk_vnodes_detached = Ret 2 pk_vnodes_drained.
Proof. vm_compute. reflexivity. Qed.

Lemma dispatch_freed_successor_witness : posix_dispatch_filter (q20, 3%nat) 200 2 pk_vnodes = Fault UseAfterFree.
Proof.
  refine (dispatch_freed_successor q20 3 (pk_kq pk_vnodes) (slot3 pk_vnodes) 23 21 []
    (fs_ops (posix_evfilt_vnode (H0 := posix_filters pk_version false 4 2))) 200 2 2 pk_vnodes pk_vnodes_drained
    _ _ _ _ _ _ _ pk_vnodes_copyout _ _).
  all: first [reflexivity | by eexists | done].
Defined.

(** ** A process that exits *)

(** Knotes for the processes 50 and 51; then 50 exits. *)
Definition await (pid : Z) : kevent := Kevent pid EVFILT_PROC EV_ADD NOTE_EXIT 0 0.
Definition exit_50 (w : world pk) : world pk :=
  set_w_os (Pk (pk_fd (w_os w)) (pk_clock (w_os w)) (pk_nlink (w_os w)) true) w.
Definition pk_procs : world pk := Eval vm_compute in exit_50 (change [await 50; await 51] pk_w1).

Definition pk_calm (k : pk) : Prop := pk_dead k = true.
Lemma pk_waits : waits_as pk_calm (pk_wait true).
Proof.
  split.
  - intros pid k Hk. exists k. split; [|done]. unfold os_call, pk_os. by rewrite Hk.
  - intros pid e. unfold pk_wait. by repeat case_match; intros [= <-].
Qed.

Lemma pk_ppds d r : ppds pk_procs !! d = Some r ->
  (d = 22%positive /\ r = ProcPid 50 [21%positive]) \/ (d = 24%positive /\ r = ProcPid 51 [23%positive]).
Proof.
  intros Hd. apply elem_of_map_to_list in Hd.
  change (map_to_list (ppds pk_procs)) with [(22%positive, ProcPid 50 [21%positive]); (24%positive, ProcPid 51 [23%positive])] in Hd.
  set_unfold. naive_solver.
Qed.

Lemma pk_procs_inv : proc_inv pk_procs.
Proof.
  split.
  - split; [repeat constructor; vm_compute; done|]. exists 1%nat. repeat constructor.
  - change (elements (index pk_procs)) with [Entry 50 22; Entry 51 24]. intros e He.
    apply elem_of_cons in He as [->|[->|[]%elem_of_nil]%elem_of_cons]; by eexists.
  - change (elements (index pk_procs)) with [Entry 50 22; Entry 51 24]. intros d r [[-> ->]|[-> ->]]%pk_ppds; set_solver.
  - intros d r [[-> ->]|[-> ->]]%pk_ppds; apply NoDup_singleton.
  - intros d r p [[-> ->]|[-> ->]]%pk_ppds Hp; apply list_elem_of_singleton in Hp as ->; (split; [|done]);
      eexists _, _; (split_and!; [reflexivity|reflexivity|apply not_elem_of_nil|intros kn [= <-]; reflexivity]).
Qed.

Lemma proc_exits_delivered_witness :
  kf_ready (default filter_zero (slot_of (left_by (wait_thread_round 1 17 (Siginfo 50 CLD_EXITED 3) pk_procs) pk_procs) q20 4))
    = [21%positive] /\
  wp (wait_thread_round 1 17 (Siginfo 50 CLD_EXITED 3))
    (fun _ w' => scanned (verdict_of (pk_wait true)) (elements (index pk_procs)) pk_procs w') pk_procs.
Proof.
  split; [reflexivity|].
  refine (proc_exits_delivered pk_calm _ (pk_wait true) 0 17 (Siginfo 50 CLD_EXITED 3) pk_procs pk_waits _ pk_procs_inv _ _);
    [done|done|done|]. intros _ st [= <-]. reflexivity.
Defined.
