(* ===== verification/DemoQueue.v ===== *)
(** * The list macros on a small memory

    Two heads and three elements, zeroed or initialised. *)

From Stdlib Require Import ZArith Lia Bool.
From stdpp Require Import base list gmap.
From S2P Require Import Prelude RBTree Event Map State Queue QueueSpec.

Definition elems : gset ptr := {[3%positive; 4%positive; 5%positive]}.
Definition empty_lists : lists := {[1%positive := []; 2%positive := []]}.

(** The second words of the heads hold [t1] and [t2]. *)
Definition small_mem (t1 t2 : option cell) : qmem :=
  Qmem {[Head 1 := None; Head 2 := None; Link 3 := None; Link 4 := None; Link 5 := None]}
    {[Head 1 := t1; Head 2 := t2; Link 3 := None; Link 4 := None; Link 5 := None]}.

Lemma small_heads h xs : empty_lists !! h = Some xs -> (h = 1%positive \/ h = 2%positive) /\ xs = [].
Proof. unfold empty_lists. intros [[<- <-]|[? [<- <-]%lookup_singleton_Some]]%lookup_insert_Some; auto. Qed.
Lemma small_elems x : x ∈ elems -> x = 3%positive \/ x = 4%positive \/ x = 5%positive.
Proof. unfold elems. set_solver. Qed.

Lemma small_rep (R : qmem -> ptr -> list ptr -> Prop) t1 t2 :
  R (small_mem t1 t2) 1%positive [] -> R (small_mem t1 t2) 2%positive [] -> rep R elems (small_mem t1 t2) empty_lists.
Proof.
  intros H1 H2. split.
  - intros h xs [[->| ->] ->]%small_heads; done.
  - intros h xs [_ ->]%small_heads. constructor.
  - intros h h' xs ys x [_ ->]%small_heads _ []%elem_of_nil.
  - intros x [->|[->| ->]]%small_elems; split; by eexists.
Qed.

Lemma small_zeroed t1 t2 : zeroed elems (small_mem t1 t2) empty_lists.
Proof. intros x [->|[->| ->]]%small_elems _; done. Qed.

Lemma unused_at (A : lists) x : bool_decide (map_Forall (fun _ xs => x ∉ xs) A) = true -> unused A x.
Proof. intros Hf%bool_decide_eq_true h xs E. by apply (Hf h). Qed.

Definition list_run : list list_op :=
  [Op_INSERT_HEAD 1 3; Op_INSERT_AFTER 3 4; Op_INSERT_BEFORE 4 5; Op_REMOVE_ZERO 3; Op_SWAP 1 2].

Definition after_run : lists := {[1%positive := []; 2%positive := [5%positive; 4%positive]]}.

Lemma list_run_steps : list_steps elems list_run empty_lists after_run.
Proof.
  eapply steps_cons; [eapply (step_INSERT_HEAD _ 1%positive); [reflexivity|set_solver|by apply unused_at]|].
  eapply steps_cons; [eapply (step_INSERT_AFTER _ 1%positive []); [reflexivity|set_solver|by apply unused_at]|].
  eapply steps_cons; [eapply (step_INSERT_BEFORE _ 1%positive [3%positive]); [reflexivity|set_solver|by apply unused_at]|].
  eapply steps_cons; [eapply (step_REMOVE_ZERO _ 1%positive []); reflexivity|].
  eapply steps_cons; [eapply (step_SWAP _ 1%positive 2%positive); [reflexivity..|done]|apply steps_nil].
Qed.

Lemma list_macros_refine_witness :
  wp (run_lists list_run) (fun _ m' => rep list_at elems m' after_run /\
    (zeroed elems (small_mem None None) empty_lists -> Forall tidy list_run -> forall x, x ∈ elems ->
       wp (LIST_INSERTED x) (fun b m2 => m2 = m' /\ (b = true <-> ~ unused after_run x)) m')) (small_mem None None) /\
  zeroed elems (small_mem None None) empty_lists /\ Forall tidy list_run.
Proof.
  split_and!; [|apply small_zeroed|by repeat constructor].
  apply (list_macros_refine elems list_run (small_mem None None) empty_lists after_run); [|exact list_run_steps].
  by apply small_rep.
Defined.

Definition tailq_run : list tailq_op :=
  [Tq_INSERT_TAIL 1 3; Tq_INSERT_HEAD 2 4; Tq_INSERT_AFTER 1 3 5; Tq_REMOVE 1 3; Tq_CONCAT 2 1].
Definition after_tailq : lists := {[1%positive := []; 2%positive := [4%positive; 5%positive]]}.

Lemma tailq_run_steps : tailq_steps elems tailq_run empty_lists after_tailq.
Proof.
  eapply tqs_cons; [eapply (tq_INSERT_TAIL _ 1%positive); [reflexivity|set_solver|by apply unused_at]|].
  eapply tqs_cons; [eapply (tq_INSERT_HEAD _ 2%positive); [reflexivity|set_solver|by apply unused_at]|].
  eapply tqs_cons; [eapply (tq_INSERT_AFTER _ 1%positive []); [reflexivity|set_solver|by apply unused_at]|].
  eapply tqs_cons; [eapply (tq_REMOVE _ 1%positive []); reflexivity|].
  eapply tqs_cons; [eapply (tq_CONCAT _ 2%positive 1%positive); [reflexivity..|done]|apply tqs_nil].
Qed.

Lemma tailq_macros_refine_witness :
  wp (run_tailqs tailq_run) (fun _ m' => rep tailq elems m' after_tailq /\
    forall h xs, after_tailq !! h = Some xs -> tailq_reads m' h xs /\ tailq_visits m' h xs)
    (small_mem (Some (Head 1)) (Some (Head 2))).
Proof.
  apply (tailq_macros_refine elems tailq_run _ empty_lists after_tailq); [|exact tailq_run_steps].
  by apply small_rep.
Defined.

(** The memory after the run has the list of 5 and 4 at the second head. *)
Definition run_mem : qmem := match run_lists list_run (small_mem None None) with Ret _ m => m | Fault _ => small_mem None None end.

Lemma run_mem_rep : rep list_at elems run_mem after_run.
Proof.
  pose proof (list_steps_ok elems list_run (small_mem None None) _ _ list_run_steps ltac:(by apply small_rep)) as Hw.
  exact (proj1 (wp_Ret _ _ _ tt run_mem Hw eq_refl)).
Qed.

Lemma list_traversals_witness :
  let visit := fun (l : list ptr) x => l ++ [x] in
  wp (LIST_FOREACH (fun l x => ret (visit l x)) 2 2 []) (fun l m' => m' = run_mem /\ l = [5%positive; 4%positive]) run_mem /\
  wp (LIST_FOREACH_SAFE (fun l x => ret (visit l x)) 2 2 []) (fun l m' => m' = run_mem /\ l = [5%positive; 4%positive]) run_mem /\
  wp (LIST_FOREACH_SAFE (fun l x => LIST_REMOVE_ZERO x ;;; ret (visit l x)) 2 2 [])
    (fun l m' => rep list_at elems m' (<[2%positive := []]> after_run) /\ l = [5%positive; 4%positive]) run_mem.
Proof.
  intros visit. apply (list_traversals (fun l x => ret (visit l x)) visit elems run_mem after_run 2 [5%positive; 4%positive] []);
    [exact run_mem_rep|reflexivity|done].
Defined.
