(* ===== verification/DemoSolaris.v ===== *)
(** * A small Solaris system

    A kernel with event ports on which the Solaris build runs: kqueue() and changes
    make the states. *)

From Stdlib Require Import ZArith Lia Bool.
From stdpp Require Import base list gmap.
From S2P Require Import Prelude RBTree Event Map State Ops Knote Filter Kqueue Kevent LibkqueueFilter LinuxUdata SolarisPlatform SolarisSocket SolarisTimer SolarisUser SolarisVnode SolarisBuild.

(** The next free descriptor or timer, and the events the main port has. *)
Record sk := Sk { sk_fd : Z; sk_queue : list port_event }.

#[export] Instance sk_os : OS sk := fun A c k =>
  match c in syscall A return sysres A * sk with
  | SysAlloc => (SOk tt, k)
  | SysPortCreate => (SOk (sk_fd k), Sk (sk_fd k + 1) (sk_queue k))
  | SysTimerCreate _ _ _ => (SOk (sk_fd k), Sk (sk_fd k + 1) (sk_queue k))
  | SysPortAssociate _ _ _ _ _ => (SOk tt, k)
  | SysPortDissociate _ _ _ => (SOk tt, k)
  | SysPortSend _ _ _ => (SOk tt, k)
  | SysPortGetn _ _ n _ => if n =? 0 then (SErr ETIME, k) else (SOk (sk_queue k), Sk (sk_fd k) [])
  | SysTimerSettime _ _ _ => (SOk tt, k)
  | SysTimerDelete _ => (SOk tt, k)
  | SysClose _ => (SOk tt, k)
  | SysFdPath fd => (SOk fd, k)
  | SysFstat _ => (SOk (Stat S_IFREG 1 0 (Timespec 0 0)), k)
  | SysIoctl _ _ => (SOk 7, k)
  | SysGetrlimit => (SOk (Some 1024), k)
  | _ => (SErr ENOSYS, k)
  end.

Definition sk_version : version := Version 4096 2 6 3 (Some 0) true.
#[export] Instance sk_filters : FilterList sk := solaris_filters sk_version 3.

Definition sk_left {A : Type} (o : outcome (world sk) A) (d : world sk) : world sk :=
  match o with Ret _ w => w | Fault _ => d end.

Definition sk_w0 : world sk :=
  World (Sk 5 []) 0 20 ∅ ∅ ∅ ∅ (<[200 := kevent_zero]> (<[201 := kevent_zero]> {[202 := kevent_zero]}))
    [] false (Map 1024 ∅) [] 0 true false false false false 0 (-1) (-1) 0 ∅ sig_static posix_static solaris_static windows_static.
Definition sk_q : ptr := 20%positive.
Definition sk_lock (w : world sk) : world sk :=
  set_w_kqs (alter (set_kq_locked true) sk_q (w_kqs w)) w.
Definition sk_change (ks : list kevent) (w : world sk) : world sk :=
  foldl (fun w k => sk_left (kevent_copyin_one sk_q k w) w) w ks.
Definition sk_w1 : world sk := Eval vm_compute in sk_lock (sk_left (kqueue_ solaris_kqops sk_w0) sk_w0).

(** The events [evs] are waited for and delivered. *)
Definition sk_deliver (evs : list port_event) (w : world sk) : outcome (world sk) Z :=
  (let! n := solaris_kevent_wait sk_q 3 None in solaris_kevent_copyout sk_q n 200 3)
    (set_w_os (Sk (sk_fd (w_os w)) evs) w).
Definition sk_data (a : Z) (o : outcome (world sk) Z) : option (Z * Z) :=
  match o with Ret n w => (fun k => (n, data k)) <$> w_mem w !! a | Fault _ => None end.

(** A readable descriptor and a timer that has expired twice. *)
Definition sk_ready : world sk := Eval vm_compute in
  sk_change [Kevent 40 EVFILT_READ EV_ADD 0 0 0; Kevent 1 EVFILT_TIMER EV_ADD 0 5 0] sk_w1.
Example solaris_delivers :
  let o := sk_deliver [PortEvent PORT_SOURCE_FD POLLIN 40 (PuUdata 22);
                       PortEvent PORT_SOURCE_TIMER 2 0 (PuUdata 24)] sk_ready in
  sk_data 200 o = Some (2, 7) /\ sk_data 201 o = Some (2, 2).
Proof. split; reflexivity. Qed.

(** A user event triggered twice is delivered once. *)
Definition sk_triggered : world sk := Eval vm_compute in
  sk_change [Kevent 1 EVFILT_USER (Z.lor EV_ADD EV_CLEAR) 0 0 0; Kevent 1 EVFILT_USER 0 NOTE_TRIGGER 0 0;
    Kevent 1 EVFILT_USER 0 NOTE_TRIGGER 0 0] sk_w1.
Example solaris_trigger_once :
  let o := sk_deliver [PortEvent PORT_SOURCE_FD POLLIN 6 (PuUdata 22);
                       PortEvent PORT_SOURCE_FD POLLIN 6 (PuUdata 22)] sk_triggered in
  sk_data 200 o = Some (1, 0).
Proof. reflexivity. Qed.

(** A one-shot file event: its knote is read after it was deleted. *)
Definition sk_watched (fl : Z) : world sk := sk_change [Kevent 40 EVFILT_VNODE fl NOTE_WRITE 0 0] sk_w1.
Definition sk_written : list port_event := [PortEvent PORT_SOURCE_FILE FILE_MODIFIED 0 (PuUdata 22)].
Example solaris_file_oneshot :
  sk_deliver sk_written (sk_watched (Z.lor EV_ADD EV_ONESHOT)) = Fault UseAfterFree.
Proof. vm_compute. reflexivity. Qed.
Example solaris_file_event :
  sk_data 200 (sk_deliver sk_written (sk_watched EV_ADD)) = Some (1, 0).
Proof. vm_compute. reflexivity. Qed.
