(* ===== verification/DemoWin.v ===== *)
(** * A small Windows system

    A kernel with completion ports that satisfies [IocpKernel], on which the Windows
    build runs, and states at which its claims apply. *)

From Stdlib Require Import ZArith Lia Bool.
From stdpp Require Import base list gmap.
From S2P Require Import Prelude RBTree Event Map State Ops Knote Filter Kqueue Kevent LibkqueueFilter WinPlatform WinKernel WinUser WinRules WinTimer WinProc WinReadWrite WinVnode WinContracts WinVnodeRules WinDeliver WinDispatch WinFilters.

(** ** The kernel *)

(** The completions that are queued or under way, the ports of the handles, and the next
    free handle. *)
Record wk := Wk { wk_queue : list (Z * event_buf); wk_ports : gmap Z (Z * Z); wk_next : Z }.

Definition wk_port (k : wk) (h : Z) : option (Z * Z) := if h =? 0 then None else wk_ports k !! h.

(** The first completion of a port, and the others; the read that detects the close of
    the kqueue does not complete. *)
Fixpoint take_port (port : Z) (l : list (Z * event_buf)) : option (event_buf * list (Z * event_buf)) :=
  match l with
  | [] => None
  | e :: l =>
      if (e.1 =? port) && negb (io_key e.2 =? KQ_CLOSE_DETECT_KEY) then Some (e.2, l)
      else match take_port port l with Some (b, l') => Some (b, e :: l') | None => None end
  end.

Definition wk_new (k : wk) : sysres Z * wk :=
  (SOk (wk_next k), Wk (wk_queue k) (delete (wk_next k) (wk_ports k)) (wk_next k + 1)).

#[export] Instance wk_os : OS wk := fun A c k =>
  match c in syscall A return sysres A * wk with
  | SysAlloc => (SOk tt, k)
  | SysClose _ => (SOk tt, k)
  | SysGetrlimit => (SOk (Some 1024), k)
  | WinCreatePort => wk_new k
  | WinNamedPipe _ => wk_new k
  | WinOpenPipe _ => wk_new k
  | WinOpenOsfhandle _ => wk_new k
  | WinOpenProcess _ _ => wk_new k
  | WinCreateTimer => wk_new k
  | WinCreateEvent _ => wk_new k
  | WinRegisterWait _ _ _ _ => wk_new k
  | WinGetOsfhandle fd => (SOk (1000 + fd), k)
  | WinPost port bytes key ov => (SOk tt, Wk (wk_queue k ++ [(port, EventBuf bytes key ov)]) (wk_ports k) (wk_next k))
  | WinGetQueued port _ =>
      match take_port port (wk_queue k) with
      | Some (b, l) => (SOk (b, None), Wk l (wk_ports k) (wk_next k))
      | None => (SErr WAIT_TIMEOUT, k)
      end
  | WinReadFile h _ ov =>
      match wk_port k h with
      | Some (port, key) => (SErr ERROR_IO_PENDING, Wk ((port, EventBuf 0 key ov) :: wk_queue k) (wk_ports k) (wk_next k))
      | None => (SErr ERROR_INVALID_HANDLE, k)
      end
  | WinAssociate h port key =>
      if h =? 0 then (SErr ERROR_INVALID_HANDLE, k)
      else (SOk tt, Wk (wk_queue k) (<[h := (port, key)]> (wk_ports k)) (wk_next k))
  | WinSetTimer _ _ _ => (SOk tt, k)
  | WinCancelTimer _ => (SOk tt, k)
  | WinUnregisterWait _ => (SOk tt, k)
  | WinCloseHandle _ => (SOk tt, k)
  | WinExitCode _ => (SOk 3, k)
  | WinSystemTime => (SOk 0, k)
  | _ => (SErr ERROR_INVALID_PARAMETER, k)
  end.

Lemma take_port_perm port l b l' : take_port port l = Some (b, l') -> l ≡ₚ (port, b) :: l'.
Proof.
  revert l'. induction l as [|[q c] l IH]; intros l' E; [done|]. simpl in E. destruct ((q =? port) && _) eqn:Hc.
  { apply andb_true_iff in Hc as [->%Z.eqb_eq _]. by simplify_eq. }
  destruct (take_port port l) as [[b0 l0]|]; [|done]. simplify_eq. rewrite (IH l0 eq_refl). by rewrite Permutation_swap.
Qed.

Lemma wk_port_delete k h h' : wk_port (Wk (wk_queue k) (delete h (wk_ports k)) (wk_next k + 1)) h' = wk_port k h' \/
  wk_port (Wk (wk_queue k) (delete h (wk_ports k)) (wk_next k + 1)) h' = None.
Proof.
  unfold wk_port. destruct (h' =? 0); [by left|]. simpl. destruct (decide (h' = h)) as [->|Hne]; [right; apply lookup_delete_eq|left].
  by apply lookup_delete_ne.
Qed.

#[export] Instance wk_iocp : IocpKernel wk.
Proof.
  refine {| ik_pending := wk_queue; ik_assoc := wk_port; ik_handle := fun _ fd => 1000 + fd |}.
  - intros A c k r k' Hq E. assert (Hsame : k' = k -> (exists l, wk_queue k ≡ₚ l ++ wk_queue k') /\
      (forall h, wk_port k' h = wk_port k h \/ wk_port k' h = None) /\ (forall fd : Z, 1000 + fd = 1000 + fd)).
    { intros ->. split_and!; [by exists []|by left|done]. }
    assert (Hnew : k' = (wk_new k).2 -> (exists l, wk_queue k ≡ₚ l ++ wk_queue k') /\
      (forall h, wk_port k' h = wk_port k h \/ wk_port k' h = None) /\ (forall fd : Z, 1000 + fd = 1000 + fd)).
    { intros ->. split_and!; [by exists []|intros h; apply wk_port_delete|done]. }
    destruct c; try discriminate Hq; simpl in E; injection E as _ E; symmetry in E; first [exact (Hsame E)|exact (Hnew E)].
  - intros port bytes key ov k r k' E. cbv beta iota delta [os_call wk_os] in E. simplify_eq. split_and!; [|reflexivity|reflexivity]. simpl. by rewrite Permutation_app_comm.
  - intros port ms k r k' E. cbv beta iota delta [os_call wk_os] in E. destruct (take_port port (wk_queue k)) as [[b l]|] eqn:Et; simplify_eq; [|done].
    split_and!; [by apply take_port_perm|reflexivity|reflexivity].
  - intros h n ov k r k' E. cbv beta iota delta [os_call wk_os] in E. destruct (wk_port k h) as [[port key]|] eqn:Ep; simplify_eq; (split_and!; [|reflexivity|reflexivity]).
    + exists [(port, EventBuf 0 key ov)]. split; [done|]. right. split; [done|]. by exists port, 0, key.
    + exists []. split; [done|by left].
  - intros h port key k r k' E. cbv beta iota delta [os_call wk_os] in E. destruct (Z.eqb_spec h 0); simplify_eq; (split_and!; [done|done|]); intros h'; [done|].
    unfold wk_port. simpl. case_decide as Hh; [subst; rewrite (proj2 (Z.eqb_neq _ _)) by done; apply lookup_insert_eq|].
    destruct (h' =? 0); [done|]. by apply lookup_insert_ne.
  - intros fd k h k' E. cbv beta iota delta [os_call wk_os] in E. by simplify_eq.
  - intros name k h k' E. cbv beta iota delta [os_call wk_os] in E. unfold wk_new in E. simplify_eq. unfold wk_port. simpl.
    destruct (_ =? 0); [done|]. apply lookup_delete_eq.
  - intros k. done.
Defined.

Definition wk_version : version := Version 4096 2 6 3 (Some 0) true.
#[export] Instance wk_filters : FilterList wk := windows_filters wk_version 9 3.

(** ** Runs from kqueue() on *)

Definition wk_left {A : Type} (o : outcome (world wk) A) (d : world wk) : world wk :=
  match o with Ret _ w => w | Fault _ => d end.
Definition wk_w0 : world wk :=
  World (Wk [] ∅ 5) 0 20 ∅ ∅ ∅ ∅ (<[200 := kevent_zero]> (<[201 := kevent_zero]> {[202 := kevent_zero]}))
    [] false (Map 1024 ∅) [] 0 true false false false false 0 (-1) (-1) 0 ∅ sig_static posix_static solaris_static windows_static.
Definition wk_kqops : kqueue_vtable wk := windows_kqops 9.
Definition wk_q : ptr := 20%positive.
Definition wk_lock (w : world wk) : world wk := set_w_kqs (alter (set_kq_locked true) wk_q (w_kqs w)) w.
Definition wk_change (ks : list kevent) (w : world wk) : world wk :=
  foldl (fun w k => wk_left (kevent_copyin_one wk_q k w) w) w ks.
Definition wk_w1 : world wk := Eval vm_compute in wk_lock (wk_left (kqueue_ wk_kqops wk_w0) wk_w0).
Definition wk_fire (c : wait_callback) (p : ptr) (w : world wk) : world wk := wk_left (pool_callback c p false w) w.
Definition wk_deliver (w : world wk) : outcome (world wk) Z :=
  (let! n := windows_kevent_wait wk_q 3 None in windows_kevent_copyout 9 wk_q n 200 3) w.
Definition wk_data (a : Z) (o : outcome (world wk) Z) : option (Z * Z) :=
  match o with Ret n w => (fun k => (n, data k)) <$> w_mem w !! a | Fault _ => None end.

(** Two expiries of a timer are delivered as one event; an exit with its code. *)
Definition wk_timer : world wk := Eval vm_compute in wk_change [Kevent 1 EVFILT_TIMER EV_ADD 0 5 0] wk_w1.
Definition wk_proc : world wk := Eval vm_compute in wk_change [Kevent 99 EVFILT_PROC EV_ADD NOTE_EXIT 0 0] wk_w1.
Example windows_delivers :
  wk_data 200 (wk_deliver (wk_fire WaitTimer 21 (wk_fire WaitTimer 21 wk_timer))) = Some (1, 2) /\
  wk_data 200 (wk_deliver (wk_fire WaitProc 21 wk_proc)) = Some (1, 768).
Proof. split; vm_compute; reflexivity. Qed.

(** A timer that expired while it was being disabled: the completion is dropped, the
    count stays, and after it was enabled again no expiry is queued. *)
Definition wk_dropped : world wk := Eval vm_compute in
  let w := wk_change [Kevent 1 EVFILT_TIMER EV_DISABLE 0 5 0] (wk_fire WaitTimer 21 wk_timer) in
  wk_change [Kevent 1 EVFILT_TIMER EV_ENABLE 0 5 0] (wk_left (wk_deliver w) w).
Example windows_timer_stops :
  kn_fire_count (wkn wk_dropped 21) = 1 /\ wk_queue (w_os (wk_fire WaitTimer 21 wk_dropped)) = wk_queue (w_os wk_dropped).
Proof. split; vm_compute; reflexivity. Qed.

(** The process exits, then the knote is deleted. *)
Example windows_proc_aborts :
  wk_deliver (wk_change [Kevent 99 EVFILT_PROC EV_DELETE 0 0 0] (wk_fire WaitProc 21 wk_proc)) = Fault Aborted.
Proof. vm_compute. reflexivity. Qed.

(** A user event that is not reset: the second trigger is never delivered. *)
Definition wk_user : world wk := Eval vm_compute in
  wk_change [Kevent 7 EVFILT_USER EV_ADD 0 0 0; Kevent 7 EVFILT_USER 0 NOTE_TRIGGER 0 0] wk_w1.
Example windows_trigger_lost :
  let w := wk_left (wk_deliver wk_user) wk_user in
  wk_data 200 (wk_deliver wk_user) = Some (1, 0) /\
  wk_queue (w_os (wk_change [Kevent 7 EVFILT_USER 0 NOTE_TRIGGER 0 0] w)) = wk_queue (w_os w).
Proof. split; vm_compute; reflexivity. Qed.

(** ** States at which the claims apply *)

(** One knote, at 3, of the kqueue at 2 whose port is 50: it is in the slot [i] with the
    index [t], and the completions [pend] are queued. *)
Section State.
Context (kn : knote) (x : win_knote) (i : nat) (t : tree entry) (b : event_buf) (pend : list (Z * event_buf)).

Definition ww_slot (id : Z) : filter := Filter id (Some id) NULL [] 0 None None.
Definition ww_slots : list filter :=
  [ww_slot EVFILT_READ; ww_slot EVFILT_WRITE; filter_zero; ww_slot EVFILT_VNODE; ww_slot EVFILT_PROC; ww_slot EVFILT_SIGNAL;
   ww_slot EVFILT_TIMER; filter_zero; filter_zero; filter_zero; ww_slot EVFILT_USER; ww_slot EVFILT_LIBKQUEUE].
Definition ww_kq : kqueue :=
  Kqueue 6 (alter (set_kf_index t) i ww_slots) true false (Z.of_nat (rb_size t)) 0 0 0 NULL None 0 [] [].
Definition ww : world wk :=
  World (Wk pend ∅ 90) 0 5 {[3%positive := kn]} ∅ ∅ {[2%positive := ww_kq]}
    (<[200 := kevent_zero]> {[201 := kevent_zero]})
    [] false (Map 64 {[6 := 2%positive]}) [2%positive] 1 true false false false false 0 (-1) (-1) 0 ∅ sig_static posix_static solaris_static
    (Windows b 0 0 0 {[2%positive := WinKq 50 [] 8 0 false 0]} {[3%positive := x]} ∅ ∅).

Context (Hq : kn_kq kn = Some 2%positive) (Hf : Z.lnot (filter_ (kev kn)) = Z.of_nat i) (Hi : i ∈ [0; 1; 3; 4; 5; 6; 10]%nat).
Context (Ht : t = Node RB_BLACK NULL (Entry (ident (kev kn)) 3) NULL /\ has (kn_flags kn) KNFL_KNOTE_DELETED = false /\ 0 < kn_ref kn \/
  t = NULL /\ has (kn_flags kn) KNFL_KNOTE_DELETED = true).

Lemma ww_lookup j f : kq_filt ww_kq !! j = Some f -> exists f0, ww_slots !! j = Some f0 /\ f = if decide (j = i) then set_kf_index t f0 else f0.
Proof.
  simpl. intros E. destruct (decide (j = i)) as [->|Hj].
  - rewrite list_lookup_alter_eq in E. apply fmap_Some in E as (f0 & ? & ->). by exists f0.
  - rewrite list_lookup_alter_ne in E by done. by exists f.
Qed.

Lemma ww_empty j f : ww_slots !! j = Some f -> kf_index f = NULL /\ kf_ready f = [] /\ (kf_id f = 0 -> j ∉ [0; 1; 3; 4; 5; 6; 10]%nat) /\
  (is_Some (kf_impl f) -> is_Some (slot_ops j f)).
Proof.
  intros E. do 12 (destruct j as [|j]; [injection E as <-; (split_and!; [done|done|set_solver|]); first [by intros [? ?]|eexists; reflexivity]|]). done.
Qed.

Lemma ww_index e : e ∈ elements t -> e = Entry (ident (kev kn)) 3 /\ has (kn_flags kn) KNFL_KNOTE_DELETED = false /\ 0 < kn_ref kn.
Proof. destruct Ht as [(-> & Hd & Hr)|[-> _]]; simpl; intros He; [|by apply elem_of_nil in He]. apply list_elem_of_singleton in He. by subst. Qed.

Lemma ww_winv : winv ww.
Proof.
  split; simpl.
  - intros q kq [<- <-]%lookup_singleton_Some. split.
    + unfold ww_kq, kq_filt. by rewrite length_alter.
    + intros j f (f0 & E0 & ->)%ww_lookup. destruct (ww_empty j f0 E0) as (H1 & H2 & H3 & _).
      case_decide as Hj; [subst j|split; rewrite ?H1, ?H2; try done; [apply wf_empty|constructor..]].
      split; simpl; rewrite ?H2; [|apply Forall_forall|constructor|intros Hz; by destruct (H3 Hz)].
      * destruct Ht as [(-> & _)|[-> _]]; [split; [by repeat constructor|]; exists 1%nat; repeat constructor|apply wf_empty].
      * intros e (-> & Hd & Hr)%ww_index. exists kn. simpl. by rewrite lookup_singleton_eq.
    + simpl. unfold knotes_of. repeat (apply elem_of_cons in Hi as [->|Hi]; [simpl; lia|]). by apply elem_of_nil in Hi.
  - intros p Hp. apply lookup_singleton_ne. lia.
  - intros p Hp. apply lookup_singleton_ne. lia.
Qed.

Lemma ww_slot_of f0 : ww_slots !! i = Some f0 -> kq_filt ww_kq !! i = Some (set_kf_index t f0).
Proof. intros E. simpl. by rewrite list_lookup_alter_eq, E. Qed.

Lemma ww_disp : disp 2 ww.
Proof.
  split; [exact ww_winv|..].
  - exists ww_kq. split_and!; [apply lookup_singleton_eq|done|]. intros j f (f0 & E0 & ->)%ww_lookup Him.
    destruct (ww_empty j f0 E0) as (_ & _ & _ & H4). case_decide; [|by apply H4]. by apply H4.
  - simpl w_knotes. intros p k [<- <-]%lookup_singleton_Some _ Hd. destruct Ht as [(Et & _)|[_ ?]]; [|congruence]. rewrite Hf, Nat2Z.id.
    assert (exists f0, ww_slots !! i = Some f0) as [f0 E0].
    { repeat (apply elem_of_cons in Hi as [->|Hi]; [by eexists|]). by apply elem_of_nil in Hi. }
    exists (set_kf_index t f0). unfold slot_of. simpl w_kqs. rewrite lookup_singleton_eq. simpl mbind. split; [by apply ww_slot_of|].
    simpl. rewrite Et. apply list_elem_of_here.
Qed.

Context (Hx : kn_vs x = None /\ kn_handle x = 0).

(** With every completion for this knote, under the key of its filter. *)
Lemma ww_io o n : Forall (fun e => e = (50, EventBuf 1 (KQ_FILTER_KEY (filter_ (kev kn))) (OvKnote 3))) pend ->
  (if decide (o = 3%positive) then n else 0) + Z.of_nat (length pend) + Z.b2z (negb (has (kn_flags kn) KNFL_KNOTE_DELETED)) <= kn_ref kn ->
  iocp_ok o n ww.
Proof.
  intros Hall Hr. assert (Hw3 : wkn ww 3 = x) by (unfold wkn; simpl; by rewrite lookup_singleton_eq).
  assert (Hw : forall r, port_of ww r <> 0 -> r = 2%positive).
  { intros r. unfold port_of, wkq. simpl. destruct (decide (r = 2%positive)) as [->|Hne]; [done|]. by rewrite lookup_singleton_ne. }
  assert (Hp2 : port_of ww 2 = 50) by (unfold port_of, wkq; simpl; by rewrite lookup_singleton_eq).
  assert (Hrange : - EVFILT_SYSCOUNT <= filter_ (kev kn) < 0).
  { unfold EVFILT_SYSCOUNT, Z.lnot in *. assert (i < 12)%nat; [|lia]. repeat (apply elem_of_cons in Hi as [->|Hi]; [lia|]). by apply elem_of_nil in Hi. }
  destruct Hx as [Hv Hh]. split; simpl.
  - intros p k [<- <-]%lookup_singleton_Some. rewrite Hw3. unfold share, timer_holds. rewrite Hh. simpl. rewrite !andb_false_r. simpl.
    assert (tok ww 3 <= Z.of_nat (length pend)).
    { unfold tok. simpl. clear -Hall. induction Hall as [|e l _ _ IH]; cbn [tokens length]; [lia|]. destruct (of_knote 3 e); simpl Z.b2z; lia. }
    rewrite (decide_ext (3%positive = o) (o = 3%positive)) by (by split). lia.
  - intros port b0 Hin. rewrite List.Forall_forall in Hall. apply list_elem_of_In, Hall in Hin. injection Hin as -> ->. right. simpl.
    exists kn, 2%positive. simpl. by rewrite lookup_singleton_eq.
  - intros q r Hqr Hnz. rewrite (Hw q Hnz). symmetry. apply Hw. congruence.
  - intros p k q [<- <-]%lookup_singleton_Some _ _. rewrite Hw3, Hh. apply own_handle_null.
  - intros p k v [<- <-]%lookup_singleton_Some. by rewrite Hw3, Hv.
Qed.
End State.

(** *** A one-shot user event, triggered twice *)

Definition ww_knote (f fl knf ref : Z) : knote :=
  set_kn_flags knf (set_kn_ref ref (set_kn_kq (Some 2%positive) (set_kev (Kevent 7 f fl 0 5 0) knote_zero))).
Definition ww_leaf : tree entry := Node RB_BLACK NULL (Entry 7 3) NULL.
Definition ww_done (f : Z) : event_buf := EventBuf 1 (KQ_FILTER_KEY f) (OvKnote 3).
Definition ww_user : world wk :=
  ww (ww_knote EVFILT_USER EV_ONESHOT 0 3) win_knote_zero 10 ww_leaf (ww_done EVFILT_USER) [(50, ww_done EVFILT_USER)].

Lemma ww_user_loaded : loaded 2 ww_user.
Proof.
  split.
  - apply ww_disp; [done|done|set_solver|by left].
  - simpl. apply ww_io; [done|done|set_solver|done|repeat constructor|vm_compute; done].
  - right. simpl. exists (ww_knote EVFILT_USER EV_ONESHOT 0 3), 2%positive. split_and!; [apply lookup_singleton_eq|done|reflexivity|done|done|done].
  - done.
Qed.

Lemma ww_room (w' : world wk) : w_mem w' = w_mem ww_user -> forall a, 200 <= a < 200 + 2 -> is_Some (w_mem w' !! a).
Proof. intros -> a Ha. assert (a = 200 \/ a = 201) as [-> | ->] by lia; by eexists. Qed.

(** The knote is deleted with the first completion and stays until the second. *)
Example ww_user_run : match windows_kevent_copyout 9 2 1 200 2 ww_user with
  | Ret rv w => (rv, kn_ref <$> w_knotes w !! 3%positive, length (wk_queue (w_os w))) = (1, Some 1, 1%nat)
  | Fault _ => False
  end.
Proof. vm_compute. reflexivity. Qed.

Lemma windows_copyout_safe_witness :
  loaded 2 ww_user /\
  wpa (windows_kevent_copyout 9 2 1 200 2) (fun rv w' => idle 2 w' /\ -1 <= rv <= 2 /\
    forall a, a < 200 \/ 202 <= a -> w_mem w' !! a = w_mem ww_user !! a) ww_user.
Proof.
  split; [exact ww_user_loaded|].
  assert (Hn : pending_len ww_user + 2 < Z.of_nat 9) by (vm_compute; reflexivity).
  exact (windows_copyout_safe wk_version 1 9 2 1 200 2 ww_user ww_user_loaded (ww_room ww_user eq_refl) eq_refl Hn).
Defined.

(** *** The exit of a process whose knote was deleted *)

Definition ww_exited : world wk :=
  ww (ww_knote EVFILT_PROC EV_ONESHOT KNFL_KNOTE_DELETED 1) win_knote_zero 4 NULL (ww_done EVFILT_PROC) [].

Lemma ww_exited_loaded : loaded 2 ww_exited.
Proof.
  split.
  - apply ww_disp; [done|done|set_solver|by right].
  - simpl. apply ww_io; [done|done|set_solver|done|constructor|vm_compute; done].
  - right. simpl. exists (ww_knote EVFILT_PROC EV_ONESHOT KNFL_KNOTE_DELETED 1), 2%positive.
    split_and!; [apply lookup_singleton_eq|done|reflexivity|done|done|done].
  - done.
Qed.

Lemma deleted_proc_aborts_witness : windows_kevent_copyout 10 2 1 200 2 ww_exited = Fault Aborted.
Proof.
  assert (Hm : is_Some (w_mem ww_exited !! 200)) by (by eexists).
  exact (deleted_proc_aborts wk_version 1 9 2 1 200 2 ww_exited 3 (ww_knote EVFILT_PROC EV_ONESHOT KNFL_KNOTE_DELETED 1)
    (ww_kq 4 NULL) (set_kf_index NULL (ww_slot EVFILT_PROC)) ww_exited_loaded eq_refl eq_refl eq_refl eq_refl eq_refl eq_refl eq_refl eq_refl Hm).
Defined.

(** *** The callbacks *)

Definition ww_timer (c : Z) : world wk :=
  ww (ww_knote EVFILT_TIMER 0 0 2) (set_kn_fire_count c win_knote_zero) 6 ww_leaf event_buf_zero [].

Lemma ww_timer_pre c : wpre (ww_timer c) 2 6 3 (ww_knote EVFILT_TIMER 0 0 2).
Proof.
  split; try done; [|lia]. apply ww_io; [done|done|set_solver|done|constructor|vm_compute; done].
Qed.

(** Creating the timer of the knote: Windows gives it a handle and a wait, and the
    reference of the wait is taken. *)
Lemma windows_filters_keep_refs_witness :
  let kn := ww_knote EVFILT_TIMER 0 0 2 in
  wpre (ww_timer 0) 2 6 3 kn /\ wnew (ww_timer 0) 2 kn /\
  wp (kn_create (fs_ops windows_evfilt_timer) (2%positive, 6%nat) 3) (fun _ w' => settled 1 3 (ww_timer 0) w') (ww_timer 0).
Proof.
  assert (Hn : wnew (ww_timer 0) 2 (ww_knote EVFILT_TIMER 0 0 2)).
  { split; [simpl; lia|unfold timer_range; simpl; lia|]. split.
    - intros port key Hk. exfalso. revert Hk. vm_compute. discriminate.
    - intros r kr q' Hr. simpl in Hr. apply lookup_singleton_Some in Hr as [<- <-]. by intros [= <-]. }
  split_and!; [apply ww_timer_pre|exact Hn|].
  pose proof windows_filters_keep_refs as Hall. rewrite List.Forall_forall in Hall.
  apply (wf_create (WinFilter := Hall windows_evfilt_timer ltac:(simpl; tauto)) _ _ _ (ww_knote EVFILT_TIMER 0 0 2)); [apply ww_timer_pre|exact Hn].
Defined.

Example ww_timer_created : match kn_create (fs_ops windows_evfilt_timer) (2%positive, 6%nat) 3 (ww_timer 0) with
  | Ret rv w => (rv, kn_ref <$> w_knotes w !! 3%positive, kn_handle (wkn w 3) =? 0) = (0, Some 3, false)
  | Fault _ => False
  end.
Proof. vm_compute. reflexivity. Qed.

(** A one-shot timer expires: its completion takes a reference, its wait gives one back. *)
Definition ww_once : world wk :=
  ww (ww_knote EVFILT_TIMER EV_ONESHOT 0 2) win_knote_zero 6 ww_leaf event_buf_zero [].

Lemma ww_once_io n : n <= 1 -> iocp_ok 3 n ww_once.
Proof. intros Hn. apply ww_io; [done|done|set_solver|done|constructor|]. rewrite decide_True by done. change (n + 0 + 1 <= 2). lia. Qed.

Lemma pool_callbacks_keep_refs_witness :
  let kn := ww_knote EVFILT_TIMER EV_ONESHOT 0 2 in
  wp (pool_callback WaitTimer 3 false) (fun _ w' => settled 1 3 ww_once w' /\ exists posted : bool,
    w_knotes w' !! 3%positive = Some (set_kn_ref (2 + (if posted then 1 - 1 else 0)) kn) /\
    pending_len w' <= pending_len ww_once + Z.b2z posted /\
    if posted then 0 < tok w' 3 else kn_fire_count (wkn ww_once 3) <> 0 \/ ~ posts_always (K := wk)) ww_once.
Proof.
  apply (pool_callbacks_keep_refs WaitTimer ww_once 2 3 (ww_knote EVFILT_TIMER EV_ONESHOT 0 2)).
  - split; try done; [by apply ww_once_io|simpl; lia].
  - done.
  - apply ww_winv; [done|done|set_solver|by left].
  - intros _ _. by apply ww_once_io.
Defined.

Example ww_once_run : match pool_callback WaitTimer 3 false ww_once with
  | Ret _ w => (kn_ref <$> w_knotes w !! 3%positive, length (wk_queue (w_os w))) = (Some 2, 1%nat)
  | Fault _ => False
  end.
Proof. vm_compute. reflexivity. Qed.

